(* ===== verification/_CoqProject ===== *)
-Q . S2P
Prelude.v
Riscv.v
Mem.v
Ring.v
State.v
Spinlock.v
Printf.v
Kalloc.v
Vm.v
Uvm.v
Sched.v
Virtio.v
Disk.v
Bio.v
Log.v
Crash.v
Fs.v
Balloc.v
FsData.v
Inode.v
Readi.v
Ilock.v
Path.v
Writei.v
UserMem.v
Copy.v
Fault.v
Pipe.v
Console.v
File.v
Fileio.v
Filewrite.v
Dirlink.v
Mmap.v
Proc.v
Nice.v
Defects.v
Exec.v
Sysproc.v
Sysfile.v
Open.v
Trap.v
Asm.v
Boot.v
User.v
Filters.v
Umalloc.v
Sh.v
ShGrammar.v
ShRun.v
Mkfs.v
MkfsImage.v
MkfsBoot.v
