(* ===== verification/Prelude.v ===== *)
(** * A verification library for the xv6-riscv kernel (EEVDF / mmap branch)

    The library models the C and assembly code of the kernel (directory
    [src/kernel]), the user library, the shell and the text tools (directory
    [src/user]) and the builder of the file-system image ([src/mkfs]) as executable
    Rocq functions and proves what makes these components correct.

    ** The program and its parts

    The kernel runs processes on a multiprocessor.  Physical pages come from a
    reference-counted allocator ([kalloc.c]); Sv39 page tables built from them
    give each process an address space, filled eagerly, lazily on a fault, or
    from [mmap] areas ([vm.c]).  An EEVDF scheduler picks processes by virtual
    deadline and weight ([proc.c], [trap.c]); processes wait for one another
    with [sleep] and [wakeup].  Files are blocks of a disk, reached through a
    buffer cache ([bio.c]) and a virtio driver ([virtio_disk.c]), changed in
    transactions of a write-ahead log ([log.c]) and organised as inodes, directories and paths ([fs.c]).  Open
    files, pipes and the console sit above that ([file.c], [pipe.c],
    [console.c]); traps and system calls are the entry from user code
    ([trap.c], [syscall.c], [sysproc.c], [sysfile.c], [exec.c]), through the
    assembly code that saves and restores registers ([trampoline.S],
    [kernelvec.S], [swtch.S]).  A hart starts in [entry.S] and [start.c], which also
    sets its clock.  In user mode, programs use a small library with [printf] and
    [malloc] ([ulib.c], [printf.c], [umalloc.c]); the shell ([sh.c]) starts them and
    connects them.  The first disk image is the work of [mkfs.c] on the host.

    ** How the code is modelled

    [State.v] has one record, [kernel], for the global variables (process
    table, physical memory, buffers, inodes, files, ...), and the monad
    [K A = kernel -> outcome A] in which every function is written.  An
    [outcome] is [Ok] with a result and a state, [Panic] with the message of
    the code's [panic], [Swtch] with the state in which the CPU is given away
    and the continuation, or [Stuck] for what C leaves undefined (an index
    outside an array, a null pointer, a division by zero).  A pointer to an
    entry of a table is its index; physical memory is a function from
    addresses to bytes; integers are [Z] with their wrap-around written out
    ([u64], [u32], [i32] below).  [for] loops are [kfor] and [kiter] over the
    sequence of the loop variable.

    Locks.  [acquire] and [release] of [State.v] keep the list [held] of the
    locks this CPU holds: taking a held lock, or releasing one that is not
    held, panics as in the code.  [Spinlock.v] justifies this view: it models
    the words of the locks and the atomic steps of all CPUs, and shows that
    they implement it.

    Code outside the kernel has machines of its own.  [Asm.v] runs the instructions
    of the assembly files on registers, control registers and physical memory,
    [Boot.v] the machine-mode C code on the same machine.  The user library and the
    tools are written in a monad over the descriptors of a process ([User.v]), the
    allocator over the words of its heap ([Umalloc.v]), the shell's parser over
    offsets in the line ([Sh.v]) and the rest of the shell as trees of system calls
    that a model of processes runs ([ShRun.v]), [mkfs] over the blocks of the image
    ([Mkfs.v]).

    ** Files

    - [Prelude]: machine integers, tactics, hints, facts on lists.
    - [Riscv]: constants and macros of [riscv.h], [memlayout.h], [param.h].
    - [Mem]: bytes and words of memory; [string.c] (module [KString]).
    - [Ring]: ring buffers with free-running counters.
    - [State]: data of the kernel, the monad, locks as the kernel uses them.
    - [Spinlock]: [spinlock.c] on several CPUs.
    - [Printf]: [printf.c] and the output side of the console.
    - [Kalloc]: [kalloc.c].
    - [Vm], [Uvm]: the page-table part of [vm.c]; its code is at the top of
      [Vm.v], the theory of address spaces in [Uvm.v].
    - [Sched]: the scheduler, [sleep], [wakeup] and timer accounting of
      [proc.c] and [trap.c].
    - [Virtio], [Disk]: [virtio_disk.c] with the device and several processes;
      its theory.
    - [Bio], [Log], [Crash]: [sleeplock.c] and [bio.c]; [log.c]; crashes.
    - [Fs], [Balloc], [FsData], [Inode]: [fs.c]; theory of the block bitmap, of
      the formats on disk and of names, and of the inode table.
    - [Readi], [Ilock], [Path]: the bytes of a file as [readi] delivers them; locked
      and cached inodes; directories, the walk along a path, and references.
    - [Writei]: block maps, [iupdate] and [writei] inside a transaction.
    - [UserMem], [Copy], [Fault]: areas, faults and copies of [vm.c]; theory of
      [copyout] and [copyin], and of [vmfault].
    - [Pipe], [Console], [File], [Mmap]: [pipe.c]; [console.c] and [uart.c];
      [file.c]; the [mmap] calls of [vm.c].  [Fileio], [Filewrite]: theory of
      [fileread] and [filewrite].  [Dirlink]: theory of [dirlink] of [fs.c].
    - [Proc], [Nice], [Exec]: processes of [proc.c]; theory of the nice values;
      [exec.c].
    - [Sysproc], [Sysfile], [Trap]: the system calls and traps.  [Open]: theory of
      [sys_open].
    - [Asm], [Boot]: the assembly files; [start.c], [plic.c], and the registers that
      [uartinit] and [kvminithart] write.
    - [User], [Filters], [Umalloc]: [ulib.c] and [printf.c] of the user library;
      [cat.c], [wc.c], [echo.c] and [grep.c]; [umalloc.c].
    - [Sh], [ShGrammar], [ShRun]: the parser of [sh.c]; the grammar it accepts and
      the meaning of a line; [runcmd], the command loop, and the processes.
    - [Mkfs], [MkfsImage], [MkfsBoot]: [mkfs.c]; theory of the image; the kernel on it.
    - [Defects]: evaluations in which the code goes wrong.

    Functions keep their names.  Where a C function is long or loops, its body
    is a definition of its own next to it ([uvmcopy_page], [pick_step],
    [pipewrite_loop], ...).

    ** What the theorems show

    - Memory: the allocator keeps its free list and reference counts
      consistent, also when its critical sections interleave
      ([alloc_interleaving_safe], [kalloc_spec], [kfree_spec], [kinit_spec],
      [freemem_pages_spec]).  [mappages], [uvmunmap], [uvmalloc], [uvmcopy] and
      [uvmfree] change exactly the translations they should, take and return
      exactly the pages they should, and undo their work when memory runs out.
      [vmfault_spec] says which faults are served and how; [copyout_copyin]
      that user copies reach the right bytes.
    - Scheduling: a round dispatches the first eligible process with the
      earliest deadline ([scheduler_picks_best]); some process is dispatched
      when one is runnable, none is running and the statistics do not overflow
      ([scheduler_work_conserving]); on one CPU the slices that compute-only
      processes get, each times its charge of virtual time, stay together
      ([eevdf_fair]); timer, [sleep] and [wakeup], and nice
      values behave as specified.
    - Locks: mutual exclusion with interrupts off, and the refinement to the
      list [held].
    - Storage: a crash anywhere in a commit leaves, after recovery, all or
      nothing of the transaction ([end_op_crash_atomic]); recovery may itself
      be interrupted ([recover_idempotent]); a transaction changes exactly its
      blocks ([block_update_durable]); [balloc] and [bfree] implement a set of blocks; inode encoding,
      path elements, names and the inode table are right.
    - Files: the bytes of an inode are those of its direct and indirect blocks up to
      its size.  [namex] finds the inode that the directories name and balances its
      references and locks ([namex_spec]); [sys_open] for reading gives a descriptor
      for it, or -1 and nothing left behind ([sys_open_spec]); [fileread] delivers the
      bytes at the offset to the process ([fileread_spec]).  [filewrite] replaces and
      appends bytes, allocating blocks, and touches nothing else ([filewrite_spec]), and a
      crash anywhere in it leaves whole pieces of the write ([filewrite_crash]); what was
      written is read back ([write_read_back]).  [dirlink] enters a name and keeps the
      others ([dirlink_spec]).  The theorems on writing are about the part of a file or
      directory that its inode addresses directly.  Their state is a kernel
      whose caches agree with the disk ([can_read], [icache_ok]) and in which no other
      process waits inside the file system.
    - Disk driver: however processes, device and interrupt handler interleave, it
      implements a disk that copies a whole block between call and return
      ([driver_refines_disk]), never panics ([driver_never_panics]) and can
      complete every call ([driver_calls_complete]).
    - Devices: pipes implement a bounded queue across the wrap-around of their
      counters; the console's line editor; [printint] prints the number.
    - Registers: a trap and the return from it give the user all registers back
      ([trap_restores_registers]), a trap in the kernel is transparent
      ([kernelvec_transparent]), a context switch comes back where it left
      ([swtch_resumes]), and the clock that [start] sets keeps ticking
      ([start_clock]).
    - User library and tools: [malloc] and [free] keep owned blocks apart and return
      ([umalloc_safe]); [grep] prints exactly the lines that match ([grep_match_spec],
      [grep_spec]); [wc], [cat], and numbers printed and read back.
    - Shell: the parser ends, builds well-formed trees ([parsecmd_well_formed]) and
      reads every spelling of a line as its meaning ([parsecmd_grammar]); programs are
      started with the right descriptors and no others, whichever calls fail
      ([runcmd_wiring]); a whole session runs its lines in order ([shell_session]).
    - Image: [mkfs] writes a file system with the files it was given ([mkfs_image]),
      on which the kernel's block allocator starts in its invariant ([mkfs_blocks]), and
      on which opening and reading a file by its name gives the contents it had on the
      host ([mkfs_open_read]); [mkfs_root_gap] is about the numbers of files for which
      the root directory is too long.

    ** Bounds and fuel

    Loops over tables and page ranges have their natural length.  Loops whose
    length depends on data carry fuel that is computed from the arguments and
    shown, or by its definition seen, to be enough: one step per page for the
    copies ([page_fuel]), the depth of the tree for [freewalk], the number of
    areas for [mmapfreeproc], one piece per [write_max] bytes for [filewrite].
    Loops that wait for another process ([while(...) sleep(...)]) run at most
    [max_waits] times more; [max_waits] is a parameter (class [Waits]) of the
    code, and the theorems hold for every value of it.  The parser of the shell has
    the length of the line as fuel, and never runs out of it; the command loop and
    the read loops of the tools have one turn per line or piece of input; for
    [malloc] and [free] the theorem says that some number of turns is enough.

    ** What is not modelled

    - The disk device is a parameter (class [Device]) with the documented effect
      of a request as hypothesis ([DeviceOk]); it answers the requests in any
      order, and reports no I/O error (status 0).  It reads the ring after a write of
      [QUEUE_NOTIFY], and raises an interrupt when the last one was acknowledged
      through [INTERRUPT_ACK].  The kernel above the driver uses the contract that
      [Disk.v] proves: [virtio_disk_rw] of [Bio.v] moves one block at once, records
      the write, and panics where the driver's [sleep] would, when a spin lock is
      held.
    - What the UART, the PLIC and the CLINT do by themselves: their registers are
      words that the code reads and writes, the received characters a list.  [main]
      only calls the initialisers, which are modelled one by one.  In the kernel
      functions a context switch is the outcome [Swtch]; [Asm.v] is about the
      instructions behind it.
    - Failure of [malloc] in the shell: the constructors of commands ([execcmd],
      [redircmd], ...) always get their memory.
    - In [Spinlock.v], [pop_off] is called only inside a section that [push_off]
      opened, so that its panics do not occur.
    - The weak memory model; steps of [Spinlock.v] are sequentially consistent.
      Apart from [Spinlock.v], [Disk.v], [alloc_interleaving_safe] and the scheduler's
      hand-over of the CPU, theorems are about one call that no other CPU
      disturbs.
    - The test programs and workloads ([usertests.c], [grind.c], ...), which only
      exercise the code above, and the one-call tools ([kill.c], [ln.c], ...).
    - Addresses that the linker chooses are the class [Layout]. *)

From Stdlib Require Export ZArith Lia Bool.
From stdpp Require Export functions base numbers option list gmap strings.

#[global] Open Scope Z_scope.
#[export] Set Warnings "-clear-no-such-hyp".

Coercion Z.of_nat : nat >-> Z.

(** ** Machine integers

    The C code computes on [uint64], [uint] and [int].  A value of such a type
    is a [Z] in the range of the type; the wrap-around of an operation is
    written with the conversions below, where the source converts or may wrap. *)

Definition u64 (x : Z) : Z := x `mod` 2^64.
Definition u32 (x : Z) : Z := x `mod` 2^32.
Definition u16 (x : Z) : Z := x `mod` 2^16.
Definition u8 (x : Z) : Z := x `mod` 2^8.

(** Conversion to a signed 32-bit [int] and 16-bit [short] (two's complement). *)
Definition i32 (x : Z) : Z := (x + 2^31) `mod` 2^32 - 2^31.
Definition i16 (x : Z) : Z := (x + 2^15) `mod` 2^16 - 2^15.

Definition is_u64 (x : Z) : Prop := 0 <= x < 2^64.
Definition is_u32 (x : Z) : Prop := 0 <= x < 2^32.
Definition is_i32 (x : Z) : Prop := -2^31 <= x < 2^31.
Definition is_byte (x : Z) : Prop := 0 <= x < 256.

(** C truth value of a comparison, as stored in an [int]. *)
Definition b2z (b : bool) : Z := if b then 1 else 0.

Create HintDb xv6 discriminated.
Create Rewrite HintDb xv6_ints.

Lemma u64_small x : is_u64 x -> u64 x = x.
Proof. intros. by apply Z.mod_small. Qed.

Lemma u32_small x : is_u32 x -> u32 x = x.
Proof. intros. by apply Z.mod_small. Qed.

Lemma i32_small x : is_i32 x -> i32 x = x.
Proof. unfold is_i32, i32. intros. rewrite Z.mod_small; lia. Qed.

Lemma u64_range x : is_u64 (u64 x).
Proof. apply Z.mod_pos_bound. lia. Qed.

Lemma u32_range x : is_u32 (u32 x).
Proof. apply Z.mod_pos_bound. lia. Qed.

Lemma i32_range x : is_i32 (i32 x).
Proof.
  unfold is_i32, i32. pose proof (Z.mod_pos_bound (x + 2^31) (2^32)). lia.
Qed.

#[export] Hint Resolve u64_range u32_range i32_range : xv6.

Ltac ints := unfold is_u64, is_u32, is_i32, is_byte in *.

(** Replace a constant power of two by its value, so that [lia] sees it. *)
Ltac pow2 :=
  repeat match goal with
  | |- context [2 ^ ?n] =>
      match isZcst n with
      | true => let v := eval vm_compute in (2 ^ n) in change (2 ^ n) with v
      end
  | H : context [2 ^ ?n] |- _ =>
      match isZcst n with
      | true => let v := eval vm_compute in (2 ^ n) in change (2 ^ n) with v in H
      end
  end.

Ltac zlia := ints; unfold u64, u32, u8, i32 in *; Z.div_mod_to_equations; lia.

(** ** Bit fields

    A mask of low or high bits is a [mod] or a difference with a [mod]. *)

Lemma land_low_mask a k : 0 <= k -> Z.land a (2^k - 1) = a `mod` 2^k.
Proof.
  intros. rewrite <- Z.land_ones by done. f_equal. rewrite Z.ones_equiv. lia.
Qed.

Lemma land_high_mask a k :
  0 <= k <= 64 -> is_u64 a -> Z.land a (2^64 - 2^k) = a - a `mod` 2^k.
Proof.
  intros Hk Ha.
  assert (Hsplit : Z.land a (2^64 - 2^k) = Z.ldiff a (Z.ones k)).
  { apply Z.bits_inj'. intros n Hn.
    rewrite Z.land_spec, Z.ldiff_spec.
    replace (2^64 - 2^k) with (Z.shiftl (Z.ones (64 - k)) k).
    2: { rewrite Z.shiftl_mul_pow2, Z.ones_equiv by lia.
         rewrite Z.mul_pred_l, <- Z.pow_add_r by lia.
         f_equal. f_equal. lia. }
    rewrite Z.shiftl_spec by done.
    destruct (decide (n < k)).
    - rewrite (Z.testbit_neg_r _ (n - k)) by lia.
      rewrite (Z.ones_spec_low k) by lia. by rewrite !andb_false_r.
    - rewrite (Z.ones_spec_high k) by lia.
      destruct (decide (n < 64)).
      + by rewrite (Z.ones_spec_low (64 - k)) by lia.
      + rewrite (Z.ones_spec_high (64 - k)) by lia.
        rewrite (Z.bits_above_log2 a n); [done|ints; lia|].
        destruct (decide (a = 0)) as [->|]; [simpl; lia|].
        apply Z.log2_lt_pow2; ints; [lia|].
        apply Z.lt_le_trans with (2^64); [lia|].
        apply Z.pow_le_mono_r; lia. }
  rewrite Hsplit, Z.ldiff_ones_r by lia.
  rewrite Z.shiftl_mul_pow2, Z.shiftr_div_pow2 by lia.
  pose proof (Z.div_mod a (2^k)) as Hdm.
  assert (2^k <> 0) by (apply Z.pow_nonzero; lia). lia.
Qed.

Lemma shiftr_shiftl_align a k :
  0 <= k -> Z.shiftl (Z.shiftr a k) k = a - a `mod` 2^k.
Proof.
  intros. rewrite Z.shiftl_mul_pow2, Z.shiftr_div_pow2 by lia.
  pose proof (Z.div_mod a (2^k)).
  assert (2^k <> 0) by (apply Z.pow_nonzero; lia). lia.
Qed.

(** A number below [2^k] has no bit at or above [k]. *)
Lemma testbit_above a k n :
  0 <= a < 2^k -> k <= n -> Z.testbit a n = false.
Proof.
  intros Ha Hn. destruct (decide (a = 0)) as [->|]; [apply Z.bits_0|].
  apply Z.bits_above_log2; [lia|].
  apply Z.lt_le_trans with k; [|done].
  apply Z.log2_lt_pow2; lia.
Qed.

(** Disjoint fields: [lor] of a multiple of [2^k] and a number below it. *)
Lemma lor_disjoint_add a b k :
  0 <= k -> a `mod` 2^k = 0 -> 0 <= b < 2^k -> Z.lor a b = a + b.
Proof.
  intros Hk Ha Hb. rewrite Z.add_nocarry_lxor, Z.lxor_lor; [done| |].
  all: apply Z.bits_inj'; intros n Hn; rewrite Z.land_spec, Z.bits_0.
  all: destruct (decide (n < k));
    [|by rewrite (testbit_above b k n), andb_false_r by lia].
  all: replace (Z.testbit a n) with false; [done|].
  all: rewrite <- (Z.mod_pow2_bits_low a k n), Ha, Z.bits_0 by lia; done.
Qed.

(** ** Lists *)

(** Consecutive integers [start, start+1, ..., start+len-1], the iteration
    space of a C [for] loop. *)
Definition upto (n : Z) : list Z := seqZ 0 n.
#[global] Arguments upto : simpl never.

Lemma elem_of_upto n i : i ∈ upto n <-> 0 <= i < n.
Proof. unfold upto. rewrite elem_of_seqZ. lia. Qed.

Lemma NoDup_upto n : NoDup (upto n).
Proof. apply NoDup_seqZ. Qed.

(** Disjoint images in a duplicate-free [flat_map]-style concatenation. *)
Lemma NoDup_bind_disjoint {A B} (f : A -> list B) (l : list A) x y b :
  NoDup (l ≫= f) -> NoDup l -> x ∈ l -> y ∈ l -> b ∈ f x -> b ∈ f y -> x = y.
Proof.
  induction l as [|a l IH]; cbn; intros Hnd Hl Hx Hy Hbx Hby; [set_solver|].
  apply NoDup_app in Hnd as (_ & Hdis & Hnd).
  apply NoDup_cons in Hl as [Hal Hl].
  apply elem_of_cons in Hx as [->|Hx], Hy as [->|Hy]; auto.
  - exfalso. apply (Hdis b Hbx). apply list_elem_of_bind. eauto.
  - exfalso. apply (Hdis b Hby). apply list_elem_of_bind. eauto.
Qed.

Lemma NoDup_bind_each {A B} (f : A -> list B) (l : list A) x :
  NoDup (l ≫= f) -> x ∈ l -> NoDup (f x).
Proof.
  induction l as [|a l IH]; cbn; intros Hnd Hx; [set_solver|].
  apply NoDup_app in Hnd as (Ha & _ & Hnd).
  apply elem_of_cons in Hx as [->|Hx]; auto.
Qed.

Lemma bind_ext_elem {A B} (f g : A -> list B) (l : list A) :
  (forall x, x ∈ l -> f x = g x) -> (l ≫= f) = (l ≫= g).
Proof.
  induction l as [|a l IH]; cbn; intros H; [done|].
  rewrite (H a), IH; set_solver.
Qed.

Lemma bind_nil_elem {A B} (f : A -> list B) (l : list A) :
  (forall x, x ∈ l -> f x = []) -> (l ≫= f) = [].
Proof.
  induction l as [|a l IH]; cbn; intros H; [done|].
  rewrite (H a), IH; [done|set_solver|set_solver].
Qed.

(** Changing the image of one element of a duplicate-free list. *)
Lemma bind_change {A B} (f g : A -> list B) (l : list A) i new :
  NoDup l -> i ∈ l -> (forall j, j ∈ l -> j <> i -> g j = f j) ->
  g i ≡ₚ f i ++ new -> (l ≫= g) ≡ₚ (l ≫= f) ++ new.
Proof.
  induction l as [|a l IH]; cbn; intros Hl Hi Hj Hgi; [set_solver|].
  apply NoDup_cons in Hl as [Hal Hl].
  apply elem_of_cons in Hi as [->|Hi].
  - rewrite Hgi. rewrite (bind_ext_elem g f l).
    + rewrite <- !app_assoc. f_equiv. apply Permutation_app_comm.
    + intros j Hjl. apply Hj; [set_solver|]. by intros ->.
  - rewrite (Hj a), IH; [by rewrite app_assoc|done|done|set_solver|done|set_solver|].
    intros ->. done.
Qed.

Lemma list_insert_lookup_alter {A} (f : A -> A) (l : list A) i x :
  l !! i = Some x -> <[i := f x]> l = alter f i l.
Proof.
  revert i. induction l as [|y l IH]; intros [|i] H; try done; cbn in *.
  - by injection H as ->.
  - f_equal. by apply IH.
Qed.

Lemma Forall2_impl_elem {A B} (P Q : A -> B -> Prop) l k :
  Forall2 P l k -> (forall x y, x ∈ l -> y ∈ k -> P x y -> Q x y) -> Forall2 Q l k.
Proof. induction 1; intros H1; constructor; set_solver. Qed.

(** ** Counting occurrences *)

Fixpoint occ (p : Z) (l : list Z) : Z :=
  match l with
  | [] => 0
  | q :: l' => (if decide (p = q) then 1 else 0) + occ p l'
  end.

Lemma occ_app p l1 l2 : occ p (l1 ++ l2) = occ p l1 + occ p l2.
Proof. induction l1 as [|q l1 IH]; simpl; [done|]. rewrite IH. lia. Qed.

Lemma occ_nonneg p l : 0 <= occ p l.
Proof. induction l as [|q l IH]; simpl; [done|]. case_decide; lia. Qed.

Lemma occ_elem p l : p ∈ l <-> 1 <= occ p l.
Proof.
  induction l as [|q l IH]; simpl; [split; [set_solver|lia]|].
  rewrite elem_of_cons, IH. pose proof (occ_nonneg p l).
  case_decide; split; intros; lia || (destruct H1; [done|lia]) || (right; lia).
Qed.

Lemma occ_not p l : p ∉ l -> occ p l = 0.
Proof. rewrite occ_elem. pose proof (occ_nonneg p l). lia. Qed.

Lemma occ_NoDup p l : NoDup l -> occ p l <= 1.
Proof.
  induction 1 as [|q l Hq Hn IH]; simpl; [lia|].
  case_decide; [subst|lia]. rewrite occ_not by done. lia.
Qed.

Lemma occ_Permutation p l1 l2 : l1 ≡ₚ l2 -> occ p l1 = occ p l2.
Proof. induction 1; simpl; lia. Qed.
