(* ===== verification/Riscv.v ===== *)
(** * Addresses, page-table entries and the memory layout

    The constants and macros of [kernel/riscv.h], [kernel/memlayout.h] and
    [kernel/param.h], with the facts about them that the page-table code
    relies on: rounding to page boundaries, the split of a Sv39 virtual address
    into its three 9-bit indices, and the encoding of a page-table entry. *)

From S2P Require Import Prelude.

#[local] Open Scope Z_scope.

(** ** [kernel/param.h] *)

Definition NPROC : Z := 64.
Definition NCPU : Z := 8.
Definition NOFILE : Z := 16.
Definition NFILE : Z := 100.
Definition NINODE : Z := 50.
Definition NDEV : Z := 10.
Definition ROOTDEV : Z := 1.
Definition MAXARG : Z := 32.
Definition MAXOPBLOCKS : Z := 10.
Definition LOGBLOCKS : Z := MAXOPBLOCKS * 3.
Definition NBUF : Z := MAXOPBLOCKS * 3.
Definition FSSIZE : Z := 2000.
Definition MAXPATH : Z := 128.
Definition USERSTACK : Z := 1.
Definition MMAPBASE : Z := 0x40000000.
Definition NMMAPAREA : Z := 64.
Definition PROT_READ : Z := 0x1.
Definition PROT_WRITE : Z := 0x2.
Definition MAP_ANONYMOUS : Z := 0x1.
Definition MAP_POPULATE : Z := 0x2.

(** ** [kernel/fs.h], [kernel/stat.h], [kernel/fcntl.h], [kernel/file.h] *)

Definition ROOTINO : Z := 1.
Definition BSIZE : Z := 1024.
Definition FSMAGIC : Z := 0x10203040.
Definition NDIRECT : Z := 12.
Definition NINDIRECT : Z := BSIZE / 4.
Definition MAXFILE : Z := NDIRECT + NINDIRECT.
Definition IPB : Z := BSIZE / 64.        (* [sizeof(struct dinode)] is 64 *)
Definition BPB : Z := BSIZE * 8.
Definition DIRSIZ : Z := 14.
Definition T_DIR : Z := 1.
Definition T_FILE : Z := 2.
Definition T_DEVICE : Z := 3.
Definition O_RDONLY : Z := 0x000.
Definition O_WRONLY : Z := 0x001.
Definition O_RDWR : Z := 0x002.
Definition O_CREATE : Z := 0x200.
Definition O_TRUNC : Z := 0x400.
Definition CONSOLE : Z := 1.

(** ** [kernel/riscv.h], lines 335-363 *)

Definition PGSIZE : Z := 4096.
Definition PGSHIFT : Z := 12.

(** [~(PGSIZE-1)] is an [int] that the [&] sign-extends to [uint64]. *)
Definition PGMASK : Z := 2^64 - PGSIZE.
Definition PGROUNDUP (sz : Z) : Z := Z.land (u64 (sz + PGSIZE - 1)) PGMASK.
Definition PGROUNDDOWN (a : Z) : Z := Z.land a PGMASK.

Definition PTE_V : Z := Z.shiftl 1 0.
Definition PTE_R : Z := Z.shiftl 1 1.
Definition PTE_W : Z := Z.shiftl 1 2.
Definition PTE_X : Z := Z.shiftl 1 3.
Definition PTE_U : Z := Z.shiftl 1 4.

Definition PA2PTE (pa : Z) : Z := Z.shiftl (Z.shiftr pa 12) 10.
Definition PTE2PA (pte : Z) : Z := u64 (Z.shiftl (Z.shiftr pte 10) 12).
Definition PTE_FLAGS (pte : Z) : Z := Z.land pte 0x3FF.

Definition PXMASK : Z := 0x1FF.
Definition PXSHIFT (level : Z) : Z := PGSHIFT + 9 * level.
Definition PX (level va : Z) : Z := Z.land (Z.shiftr va (PXSHIFT level)) PXMASK.

Definition MAXVA : Z := Z.shiftl 1 (9 + 9 + 9 + 12 - 1).

Definition SATP_SV39 : Z := Z.shiftl 8 60.
Definition MAKE_SATP (pagetable : Z) : Z := Z.lor SATP_SV39 (Z.shiftr pagetable 12).

(** [pte & f] used as a C truth value. *)
Definition has_flag (pte f : Z) : bool := negb (Z.land pte f =? 0).

(** ** [kernel/memlayout.h] *)

Definition UART0 : Z := 0x10000000.
Definition VIRTIO0 : Z := 0x10001000.
Definition UART0_IRQ : Z := 10.
Definition VIRTIO0_IRQ : Z := 1.
Definition PLIC : Z := 0x0c000000.
Definition KERNBASE : Z := 0x80000000.
Definition PHYSTOP : Z := KERNBASE + 128*1024*1024.
Definition TRAMPOLINE : Z := MAXVA - PGSIZE.
Definition KSTACK (p : Z) : Z := TRAMPOLINE - (p + 1) * 2 * PGSIZE.
Definition TRAPFRAME : Z := TRAMPOLINE - PGSIZE.

(** ** Rounding to pages *)

Definition page_aligned (a : Z) : Prop := a `mod` PGSIZE = 0.

#[global] Instance page_aligned_dec a : Decision (page_aligned a).
Proof. unfold page_aligned. apply _. Defined.

Lemma PGROUNDDOWN_eq a : is_u64 a -> PGROUNDDOWN a = a - a `mod` PGSIZE.
Proof.
  intros. unfold PGROUNDDOWN, PGMASK. change PGSIZE with (2^12).
  apply land_high_mask; [lia|done].
Qed.

Lemma PGROUNDDOWN_range a :
  is_u64 a -> 0 <= PGROUNDDOWN a <= a /\ a < PGROUNDDOWN a + PGSIZE.
Proof.
  intros. rewrite PGROUNDDOWN_eq by done.
  pose proof (Z.mod_pos_bound a PGSIZE).
  pose proof (Z.mod_le a PGSIZE). unfold PGSIZE, is_u64 in *. lia.
Qed.

Lemma PGROUNDDOWN_aligned a : is_u64 a -> page_aligned (PGROUNDDOWN a).
Proof.
  intros. rewrite PGROUNDDOWN_eq by done. unfold page_aligned, PGSIZE. zlia.
Qed.

Lemma PGROUNDDOWN_id a : is_u64 a -> page_aligned a -> PGROUNDDOWN a = a.
Proof. intros ? H. rewrite PGROUNDDOWN_eq by done. unfold page_aligned in H. lia. Qed.

Lemma PGROUNDUP_eq a :
  0 <= a <= 2^64 - PGSIZE ->
  PGROUNDUP a = PGSIZE * ((a + (PGSIZE - 1)) `div` PGSIZE).
Proof.
  intros Ha. unfold PGROUNDUP, PGMASK.
  rewrite u64_small by (unfold is_u64, PGSIZE in *; lia).
  change PGSIZE with (2^12) in *.
  rewrite land_high_mask by (ints; lia). Z.div_mod_to_equations. lia.
Qed.

Lemma PGROUNDUP_range a :
  0 <= a <= 2^64 - PGSIZE ->
  a <= PGROUNDUP a < a + PGSIZE /\ page_aligned (PGROUNDUP a).
Proof.
  intros. rewrite PGROUNDUP_eq by done. unfold page_aligned, PGSIZE in *.
  split; [zlia|]. rewrite Z.mul_comm. apply Z.mod_mul. lia.
Qed.

(** Within a page of the top of the address space the addition wraps. *)
Lemma PGROUNDUP_wraps a : 2^64 - PGSIZE < a < 2^64 -> PGROUNDUP a = 0.
Proof.
  intros Ha. unfold PGROUNDUP, PGMASK, u64, PGSIZE in *.
  replace ((a + 4096 - 1) `mod` 2^64) with (a + 4096 - 1 - 2^64) by zlia.
  change 4096 with (2^12) in *.
  rewrite land_high_mask by (ints; lia). rewrite Z.mod_small; lia.
Qed.

(** ** Virtual-address fields *)

Lemma PX_eq l va : 0 <= l -> PX l va = (va `div` 2^(12 + 9*l)) `mod` 512.
Proof.
  intros. unfold PX, PXSHIFT, PGSHIFT, PXMASK.
  change 0x1FF with (2^9 - 1). rewrite land_low_mask by lia.
  rewrite Z.shiftr_div_pow2 by lia. done.
Qed.

Lemma PX_range l va : 0 <= l -> 0 <= PX l va < 512.
Proof. intros. rewrite PX_eq by done. apply Z.mod_pos_bound. lia. Qed.

Lemma va_split va :
  0 <= va < 2^39 ->
  va = PX 2 va * 2^30 + PX 1 va * 2^21 + PX 0 va * 2^12 + va `mod` PGSIZE.
Proof.
  intros. rewrite !PX_eq by lia. unfold PGSIZE.
  change (12 + 9*2) with 30. change (12 + 9*1) with 21. change (12 + 9*0) with 12.
  zlia.
Qed.

(** Two page-aligned addresses with the same three indices are equal. *)
Lemma PX_inj va1 va2 :
  0 <= va1 < 2^39 -> 0 <= va2 < 2^39 ->
  page_aligned va1 -> page_aligned va2 ->
  PX 2 va1 = PX 2 va2 -> PX 1 va1 = PX 1 va2 -> PX 0 va1 = PX 0 va2 ->
  va1 = va2.
Proof.
  unfold page_aligned. intros.
  rewrite (va_split va1), (va_split va2) by lia. lia.
Qed.

(** ** Page-table entries *)

Definition valid_pa (pa : Z) : Prop := 0 <= pa < 2^56 /\ page_aligned pa.

(** The entry that the kernel writes for [pa] with permission bits [perm]. *)
Definition mk_pte (pa perm : Z) : Z := Z.lor (Z.lor (PA2PTE pa) perm) PTE_V.

Lemma PA2PTE_eq pa : PA2PTE pa = pa `div` 2^12 * 2^10.
Proof.
  unfold PA2PTE. by rewrite Z.shiftl_mul_pow2, Z.shiftr_div_pow2 by lia.
Qed.

Lemma PTE2PA_eq pte : 0 <= pte < 2^54 -> PTE2PA pte = pte `div` 2^10 * 2^12.
Proof.
  intros. unfold PTE2PA.
  rewrite Z.shiftl_mul_pow2, Z.shiftr_div_pow2 by lia.
  apply u64_small. zlia.
Qed.

Lemma lor_range a b k :
  0 <= k -> 0 <= a < 2^k -> 0 <= b < 2^k -> 0 <= Z.lor a b < 2^k.
Proof.
  intros Hk Ha Hb.
  replace (Z.lor a b) with (Z.lor a b `mod` 2^k).
  - apply Z.mod_pos_bound, Z.pow_pos_nonneg; lia.
  - by rewrite <- Z.land_ones, Z.land_lor_distr_l, !Z.land_ones, !Z.mod_small by lia.
Qed.

Lemma lor_V_range perm : 0 <= perm < 2^10 -> 0 <= Z.lor perm PTE_V < 2^10.
Proof. intros. apply lor_range; [lia|lia|]. change PTE_V with 1. lia. Qed.

Lemma mk_pte_eq pa perm :
  0 <= perm < 2^10 -> mk_pte pa perm = PA2PTE pa + Z.lor perm PTE_V.
Proof.
  intros. unfold mk_pte. rewrite <- Z.lor_assoc.
  apply lor_disjoint_add with 10; [lia| |].
  - rewrite PA2PTE_eq. apply Z.mod_mul. lia.
  - by apply lor_V_range.
Qed.

Lemma mk_pte_range pa perm :
  valid_pa pa -> 0 <= perm < 2^10 -> 0 <= mk_pte pa perm < 2^54.
Proof.
  intros [Hpa Hal] Hp. rewrite mk_pte_eq, PA2PTE_eq by done.
  pose proof (lor_V_range perm Hp).
  zlia.
Qed.

Lemma mk_pte_u64 pa perm : valid_pa pa -> 0 <= perm < 2^10 -> is_u64 (mk_pte pa perm).
Proof. intros Hv Hp. pose proof (mk_pte_range pa perm Hv Hp). ints. lia. Qed.

Lemma PTE2PA_mk_pte pa perm :
  valid_pa pa -> 0 <= perm < 2^10 -> PTE2PA (mk_pte pa perm) = pa.
Proof.
  intros Hv Hp. rewrite PTE2PA_eq by by apply mk_pte_range.
  rewrite mk_pte_eq, PA2PTE_eq by done.
  pose proof (lor_V_range perm Hp).
  destruct Hv as [Hr Hal]. unfold page_aligned, PGSIZE in Hal. zlia.
Qed.

Lemma PTE_FLAGS_mk_pte pa perm :
  0 <= perm < 2^10 -> PTE_FLAGS (mk_pte pa perm) = Z.lor perm PTE_V.
Proof.
  intros Hp. unfold PTE_FLAGS. change 0x3FF with (2^10 - 1).
  rewrite land_low_mask, mk_pte_eq, PA2PTE_eq by lia.
  pose proof (lor_V_range perm Hp).
  rewrite Z.add_comm, Z.mod_add by lia. by apply Z.mod_small.
Qed.

(** A flag bit of the entry is the flag bit of the permission word. *)
Lemma land_mk_pte pa perm f :
  0 <= f < 2^10 -> Z.land (mk_pte pa perm) f = Z.land (Z.lor perm PTE_V) f.
Proof.
  intros Hf. unfold mk_pte. rewrite <- Z.lor_assoc.
  apply Z.bits_inj'. intros n Hn. rewrite !Z.land_spec, !Z.lor_spec.
  destruct (decide (n < 10)).
  - replace (Z.testbit (PA2PTE pa) n) with false; [done|].
    unfold PA2PTE. rewrite Z.shiftl_spec by done.
    by rewrite Z.testbit_neg_r by lia.
  - by rewrite (testbit_above f 10 n), !andb_false_r by lia.
Qed.

Lemma has_flag_mk_pte pa perm f :
  0 <= f < 2^10 -> has_flag (mk_pte pa perm) f = has_flag (Z.lor perm PTE_V) f.
Proof. intros. unfold has_flag. by rewrite land_mk_pte. Qed.

Lemma mk_pte_valid pa perm : has_flag (mk_pte pa perm) PTE_V = true.
Proof.
  rewrite has_flag_mk_pte by (change PTE_V with 1; lia).
  unfold has_flag. apply negb_true_iff, Z.eqb_neq. intros H.
  apply (f_equal (fun z => Z.testbit z 0)) in H.
  rewrite Z.land_spec, Z.lor_spec, Z.bits_0 in H.
  change (Z.testbit PTE_V 0) with true in H. by rewrite orb_true_r in H.
Qed.

#[export] Hint Resolve PX_range mk_pte_valid : xv6.
