(* ===== verification/Mem.v ===== *)
(** * Byte memory and [kernel/string.c]

    Physical memory is a function from byte addresses to bytes.  The first part
    gives little-endian words, the second the functions of [kernel/string.c] as
    their loops run, and shows that [memset] and [memmove] have the expected
    closed forms, which the rest of the library uses. *)

From S2P Require Import Prelude.

#[local] Open Scope Z_scope.

(** ** Words in memory *)

Definition bytes := Z -> Z.

Fixpoint load_le (n : nat) (m : Z -> Z) (a : Z) : Z :=
  match n with
  | O => 0
  | S k => u8 (m a) + 256 * load_le k m (a + 1)
  end.

Definition store_le (n : nat) (m : Z -> Z) (a v : Z) : Z -> Z := fun x =>
  if decide (a <= x < a + n) then (v `div` 256 ^ (x - a)) `mod` 256 else m x.

Definition load64 (m : Z -> Z) (a : Z) : Z := load_le 8 m a.
Definition store64 (m : Z -> Z) (a v : Z) : Z -> Z := store_le 8 m a v.
Definition load32 (m : Z -> Z) (a : Z) : Z := load_le 4 m a.
Definition store32 (m : Z -> Z) (a v : Z) : Z -> Z := store_le 4 m a v.

(** Closed forms of a fill and of a (possibly overlapping) copy. *)
Definition mem_fill (m : Z -> Z) (p n c : Z) : Z -> Z := fun x =>
  if decide (p <= x < p + n) then c else m x.

Definition mem_copy (m : Z -> Z) (d s n : Z) : Z -> Z := fun x =>
  if decide (d <= x < d + n) then m (s + (x - d)) else m x.

Definition mem_write (m : Z -> Z) (d : Z) (l : list Z) : Z -> Z := fun x =>
  if decide (d <= x < d + length l) then default 0 (l !! Z.to_nat (x - d)) else m x.

Definition mem_read (m : Z -> Z) (s : Z) (n : nat) : list Z :=
  (fun i => m (s + Z.of_nat i)) <$> seq 0 n.

#[global] Arguments load64 : simpl never.
#[global] Arguments store64 : simpl never.
#[global] Arguments mem_fill : simpl never.
#[global] Arguments mem_copy : simpl never.

Lemma load_le_ext (n : nat) m m' a :
  (forall x, a <= x < a + n -> m x = m' x) -> load_le n m a = load_le n m' a.
Proof.
  revert a. induction n as [|n IH]; intros a H; simpl; [done|].
  rewrite (H a), (IH (a + 1)) by (intros; try apply H; lia). done.
Qed.

Lemma load_le_range (n : nat) m a : 0 <= load_le n m a < 256 ^ n.
Proof.
  revert a. induction n as [|n IH]; intros a; simpl load_le; [simpl; lia|].
  specialize (IH (a + 1)). rewrite Nat2Z.inj_succ, Z.pow_succ_r by lia.
  unfold u8. pose proof (Z.mod_pos_bound (m a) (2^8)). lia.
Qed.

Lemma load_store_le_ne (n k : nat) m a b v :
  a + n <= b \/ b + k <= a -> load_le n (store_le k m b v) a = load_le n m a.
Proof.
  intros H. apply load_le_ext. intros x Hx. unfold store_le.
  rewrite decide_False; [done|lia].
Qed.

Lemma load_le_digits (n : nat) a v m :
  (forall i, 0 <= i < n -> m (a + i) = (v `div` 256 ^ i) `mod` 256) ->
  load_le n m a = v `mod` 256 ^ n.
Proof.
  revert a v. induction n as [|n IH]; intros a v H.
  { simpl. by rewrite Z.mod_1_r. }
  simpl load_le. rewrite (IH (a + 1) (v `div` 256)).
  - rewrite <- (Z.add_0_r a), (H 0) by lia.
    rewrite Z.pow_0_r, Z.div_1_r. unfold u8. change (2^8) with 256.
    rewrite Z.mod_mod by lia. rewrite Nat2Z.inj_succ, Z.pow_succ_r by lia.
    rewrite Z.rem_mul_r; [done|lia|].
    apply Z.pow_pos_nonneg; lia.
  - intros i Hi. replace (a + 1 + i) with (a + (i + 1)) by lia.
    rewrite H by lia. rewrite Z.add_1_r, Z.pow_succ_r by lia.
    rewrite Z.div_div; [done|lia|apply Z.pow_pos_nonneg; lia].
Qed.

Lemma load_store_le_eq (n : nat) m a v :
  load_le n (store_le n m a v) a = v `mod` 256 ^ n.
Proof.
  apply load_le_digits. intros i Hi. unfold store_le.
  rewrite decide_True by lia. do 3 f_equal. lia.
Qed.

Lemma load64_range m a : is_u64 (load64 m a).
Proof. apply load_le_range. Qed.

Lemma load64_store64_eq m a v : is_u64 v -> load64 (store64 m a v) a = v.
Proof.
  intros. unfold load64, store64. rewrite load_store_le_eq.
  change (256 ^ 8%nat) with (2^64). by apply u64_small.
Qed.

Lemma load64_store64_ne m a b v :
  a + 8 <= b \/ b + 8 <= a -> load64 (store64 m b v) a = load64 m a.
Proof. intros. by apply load_store_le_ne. Qed.

Lemma load64_ext m m' a :
  (forall x, a <= x < a + 8 -> m x = m' x) -> load64 m a = load64 m' a.
Proof. intros H. by apply load_le_ext. Qed.

Lemma load_le_fill (n : nat) m p k a :
  p <= a -> a + n <= p + k -> load_le n (mem_fill m p k 0) a = 0.
Proof.
  revert a. induction n as [|n IH]; intros a Hp Hk; simpl; [done|].
  rewrite IH by lia. unfold mem_fill. rewrite decide_True by lia. done.
Qed.

Lemma load64_fill m p k a :
  p <= a -> a + 8 <= p + k -> load64 (mem_fill m p k 0) a = 0.
Proof. intros. by apply load_le_fill. Qed.

Lemma load64_fill_ne m p k c a :
  a + 8 <= p \/ p + k <= a -> load64 (mem_fill m p k c) a = load64 m a.
Proof.
  intros. apply load64_ext. intros x Hx. unfold mem_fill.
  rewrite decide_False; [done|lia].
Qed.

#[export] Hint Resolve load64_range : xv6.

(** ** [kernel/string.c] *)

Module KString.

(** [for(i = 0; i < n; i++) cdst[i] = c;] *)
Fixpoint memset_loop (m : Z -> Z) (cdst c i : Z) (k : nat) : Z -> Z :=
  match k with
  | O => m
  | S k' => memset_loop (<[cdst + i := u8 c]> m) cdst c (i + 1) k'
  end.

Definition memset (m : Z -> Z) (dst c n : Z) : Z -> Z :=
  memset_loop m dst c 0 (Z.to_nat n).

(** [while(n-- > 0){ if( *s1 != *s2) return *s1 - *s2; s1++, s2++; }] *)
Fixpoint memcmp_loop (m : Z -> Z) (s1 s2 : Z) (n : nat) : Z :=
  match n with
  | O => 0
  | S n' =>
      if negb (m s1 =? m s2) then m s1 - m s2
      else memcmp_loop m (s1 + 1) (s2 + 1) n'
  end.

Definition memcmp (m : Z -> Z) (v1 v2 n : Z) : Z := memcmp_loop m v1 v2 (Z.to_nat n).

(** [while(n-- > 0) *--d = *--s;] *)
Fixpoint move_down (m : Z -> Z) (d s : Z) (n : nat) : Z -> Z :=
  match n with
  | O => m
  | S n' => move_down (<[d - 1 := m (s - 1)]> m) (d - 1) (s - 1) n'
  end.

(** [while(n-- > 0) *d++ = *s++;] *)
Fixpoint move_up (m : Z -> Z) (d s : Z) (n : nat) : Z -> Z :=
  match n with
  | O => m
  | S n' => move_up (<[d := m s]> m) (d + 1) (s + 1) n'
  end.

Definition memmove (m : Z -> Z) (dst src n : Z) : Z -> Z :=
  if n =? 0 then m
  else if (src <? dst) && (src + n >? dst)
  then move_down m (dst + n) (src + n) (Z.to_nat n)
  else move_up m dst src (Z.to_nat n).

Definition memcpy (m : Z -> Z) (dst src n : Z) : Z -> Z := memmove m dst src n.

(** [while(n > 0 && *p && *p == *q) n--, p++, q++;
     if(n == 0) return 0; return (uchar)*p - (uchar)*q;] *)
Fixpoint strncmp (m : Z -> Z) (p q : Z) (n : nat) : Z :=
  match n with
  | O => 0
  | S n' =>
      if negb (m p =? 0) && (m p =? m q) then strncmp m (p + 1) (q + 1) n'
      else m p - m q
  end.

(** [while(n-- > 0) *s++ = 0;] *)
Fixpoint strncpy_pad (m : Z -> Z) (s : Z) (n : nat) : Z -> Z :=
  match n with
  | O => m
  | S n' => strncpy_pad (<[s := 0]> m) (s + 1) n'
  end.

(** [while(n-- > 0 && ( *s++ = *t++) != 0);], then the padding loop.  When the
    first loop ends because [n] ran out, [n] is already negative. *)
Fixpoint strncpy (m : Z -> Z) (s t : Z) (n : nat) : Z -> Z :=
  match n with
  | O => m
  | S n' =>
      let m' := <[s := m t]> m in
      if m t =? 0 then strncpy_pad m' (s + 1) n' else strncpy m' (s + 1) (t + 1) n'
  end.

(** [while(--n > 0 && ( *s++ = *t++) != 0); *s = 0;] *)
Fixpoint safestrcpy_loop (m : Z -> Z) (s t : Z) (n : nat) : Z -> Z :=
  match n with
  | O => m
  | S O => <[s := 0]> m
  | S n' =>
      let m' := <[s := m t]> m in
      if m t =? 0 then <[s + 1 := 0]> m' else safestrcpy_loop m' (s + 1) (t + 1) n'
  end.

Definition safestrcpy (m : Z -> Z) (s t n : Z) : Z -> Z :=
  if n <=? 0 then m else safestrcpy_loop m s t (Z.to_nat n).

(** [for(n = 0; s[n]; n++);]  The loop has no bound of its own: [fuel] bounds
    the number of bytes inspected. *)
Fixpoint strlen (fuel : nat) (m : Z -> Z) (s n : Z) : option Z :=
  match fuel with
  | O => None
  | S f => if m (s + n) =? 0 then Some n else strlen f m s (n + 1)
  end.

(** ** Properties *)

Ltac ins := unfold insert, fn_insert; repeat case_decide; try lia; auto.

Lemma memset_loop_eq (k : nat) m cdst c i x :
  memset_loop m cdst c i k x = mem_fill m (cdst + i) k (u8 c) x.
Proof.
  revert m i. induction k as [|k IH]; intros m i; simpl.
  - unfold mem_fill. by rewrite decide_False by lia.
  - rewrite IH. unfold mem_fill. ins.
Qed.

(** [memset] writes exactly the [n] bytes at [dst]. *)
Lemma memset_eq m dst c n x :
  0 <= n -> memset m dst c n x = mem_fill m dst n (u8 c) x.
Proof.
  intros. unfold memset. rewrite memset_loop_eq, Z.add_0_r.
  by rewrite Z2Nat.id.
Qed.

Lemma move_down_eq (k : nat) m d s x :
  s < d -> move_down m d s k x = mem_copy m (d - k) (s - k) k x.
Proof.
  revert m d s. induction k as [|k IH]; intros m d s Hlt; simpl move_down.
  - unfold mem_copy. by rewrite decide_False by lia.
  - rewrite IH by lia. unfold mem_copy. ins; f_equal; lia.
Qed.

Lemma move_up_eq (k : nat) m d s x :
  d <= s \/ s + k <= d -> move_up m d s k x = mem_copy m d s k x.
Proof.
  revert m d s. induction k as [|k IH]; intros m d s Hlt; simpl move_up.
  - unfold mem_copy. by rewrite decide_False by lia.
  - rewrite IH by lia. unfold mem_copy. ins; f_equal; lia.
Qed.

(** [memmove] leaves at [dst] the [n] bytes that were at [src] before the
    call, also when the two areas overlap in either direction, and changes no
    byte outside the destination. *)
Theorem memmove_copies m dst src n x :
  0 <= n ->
  memmove m dst src n x =
    if decide (dst <= x < dst + n) then m (src + (x - dst)) else m x.
Proof.
  intros Hn. change (memmove m dst src n x = mem_copy m dst src n x).
  unfold memmove. destruct (n =? 0) eqn:E0.
  { unfold mem_copy. rewrite decide_False by lia. done. }
  destruct ((src <? dst) && (src + n >? dst)) eqn:E.
  - rewrite move_down_eq by lia. unfold mem_copy.
    rewrite Z2Nat.id by lia. ins; f_equal; lia.
  - rewrite move_up_eq by lia. by rewrite Z2Nat.id.
Qed.

Lemma memmove_copies_witness :
  let m := mem_write (fun _ => 0) 10 [1; 2; 3; 4] in
  memmove m 11 10 4 14 = 4 /\ memmove m 9 10 4 9 = 1.
Proof.
  split; rewrite memmove_copies by lia; vm_compute; reflexivity.
Defined.

(** The C string [l] (no NUL byte in it) is at [p], with its terminator. *)
Fixpoint cstr (m : Z -> Z) (p : Z) (l : list Z) : Prop :=
  match l with
  | [] => m p = 0
  | c :: l' => m p = c /\ c <> 0 /\ cstr m (p + 1) l'
  end.

Lemma cstr_ext m m' p l :
  (forall x, p <= x <= p + length l -> m x = m' x) -> cstr m p l -> cstr m' p l.
Proof.
  revert p. induction l as [|c l IH]; intros p H; simpl in *.
  - rewrite <- (H p) by lia. done.
  - intros (Hc & Hn & Hl). rewrite <- (H p) by lia. repeat split; try done.
    apply IH; [|done]. intros x Hx. apply H. lia.
Qed.

Lemma cstr_insert_ne m a v p l :
  a < p \/ p + length l < a -> cstr m p l -> cstr (<[a := v]> m) p l.
Proof. intros Ha. apply cstr_ext. intros x Hx. ins. Qed.

Lemma safestrcpy_loop_SS m s t n :
  safestrcpy_loop m s t (S (S n)) =
    if m t =? 0 then <[s + 1 := 0]> (<[s := m t]> m)
    else safestrcpy_loop (<[s := m t]> m) (s + 1) (t + 1) (S n).
Proof. done. Qed.

Lemma safestrcpy_loop_frame (n : nat) m s t x :
  x < s \/ s + n <= x -> safestrcpy_loop m s t n x = m x.
Proof.
  revert m s t. induction n as [|n IH]; intros m s t Hx; [done|].
  destruct n as [|n]; [simpl; ins|]. rewrite safestrcpy_loop_SS.
  destruct (m t =? 0); [ins|]. rewrite IH by lia. ins.
Qed.

Lemma safestrcpy_loop_cstr (n : nat) m s t l :
  t + length l < s \/ s + S n <= t -> cstr m t l ->
  cstr (safestrcpy_loop m s t (S n)) s (take n l).
Proof.
  revert m s t l. induction n as [|n IH]; intros m s t l Hd Hl.
  { simpl. ins. }
  rewrite safestrcpy_loop_SS. destruct l as [|c l]; simpl in Hl.
  - rewrite Hl. simpl. ins.
  - destruct Hl as (Hc & Hn & Hl). rewrite (proj2 (Z.eqb_neq _ _)) by congruence.
    simpl in Hd. simpl take. split_and!; [|done|].
    + rewrite safestrcpy_loop_frame by lia. ins.
    + apply IH; [lia|]. apply cstr_insert_ne; [lia|done].
Qed.

(** [safestrcpy(s, t, n)] leaves in [s] the string at [t] cut to [n-1]
    bytes, always with a terminating NUL, and writes nothing outside
    [s[0..n-1]]. *)
Theorem safestrcpy_terminates m s t n l :
  0 < n -> t + length l < s \/ s + n <= t -> cstr m t l ->
  cstr (safestrcpy m s t n) s (take (Z.to_nat (n - 1)) l) /\
  forall x, x < s \/ s + n <= x -> safestrcpy m s t n x = m x.
Proof.
  intros Hn Hd Hl. unfold safestrcpy. rewrite (proj2 (Z.leb_gt n 0)) by lia. split.
  - replace (Z.to_nat n) with (S (Z.to_nat (n - 1))) by lia.
    apply safestrcpy_loop_cstr; [lia|done].
  - intros x Hx. apply safestrcpy_loop_frame. lia.
Qed.

Lemma safestrcpy_terminates_witness :
  let m := mem_write (fun _ => 7) 100 [105; 110; 105; 116; 0] in
  cstr (safestrcpy m 200 100 3) 200 [105; 110].
Proof.
  apply (safestrcpy_terminates _ 200 100 3 [105; 110; 105; 116]).
  - lia.
  - left. simpl. lia.
  - vm_compute. repeat split; discriminate.
Defined.

Lemma strncmp_prefix (n : nat) m p q l1 l2 :
  cstr m p l1 -> cstr m q l2 ->
  (strncmp m p q n = 0 <-> take n l1 = take n l2).
Proof.
  revert p q l1 l2. induction n as [|n IH]; intros p q l1 l2 H1 H2; [done|].
  simpl strncmp. destruct l1 as [|c1 l1], l2 as [|c2 l2]; simpl in H1, H2.
  - rewrite H1, H2. done.
  - destruct H2 as (? & ? & _). rewrite H1. simpl. split; [lia|done].
  - destruct H1 as (? & ? & _). rewrite H2.
    rewrite (proj2 (Z.eqb_neq (m p) 0)) by congruence. simpl.
    destruct (m p =? 0) eqn:E; simpl; split; try lia; done.
  - destruct H1 as (<- & Hn1 & H1), H2 as (<- & Hn2 & H2).
    rewrite (proj2 (Z.eqb_neq (m p) 0)) by done. simpl.
    destruct (m p =? m q) eqn:E; simpl take.
    + apply Z.eqb_eq in E. rewrite (IH _ _ l1 l2) by done.
      rewrite E. split; [by intros ->|by intros [= ->]].
    + apply Z.eqb_neq in E. split; [lia|]. intros [= ? ?]. lia.
Qed.

End KString.
