(* ===== verification/Ring.v ===== *)
(** * Ring buffers with free-running indices

    Pipes and the console keep bytes in an array and count reads and writes
    with [uint] counters that are never reduced; the slot of a counter is its
    remainder.  The disk driver does the same with 16-bit counters.  The size of
    the array divides the modulus of the counters, so this also works when the
    counters wrap around. *)

From S2P Require Import Prelude.

#[local] Open Scope Z_scope.

Section Ring.
Context (size M : Z).

(** The bytes [q] are in the array from counter [from] on. *)
Definition ring_holds (buf : list Z) (from : Z) (q : list Z) : Prop :=
  forall (i : nat) c, q !! i = Some c -> buf !! Z.to_nat ((from + i) `mod` size) = Some c.

Hypothesis size_pos : 0 < size.
Hypothesis size_div : (size | M).
Hypothesis M_pos : 0 < M.

Lemma ring_index x : (x `mod` M) `mod` size = x `mod` size.
Proof using size_pos size_div M_pos.
  destruct size_div as [k Hk]. rewrite Hk in *.
  rewrite (Z.mul_comm k), Z.rem_mul_r by nia.
  rewrite (Z.mul_comm size), Z.mod_add by lia. apply Z.mod_mod. lia.
Qed.

Lemma ring_distinct x y : 0 <= y - x < size -> x `mod` size = y `mod` size -> x = y.
Proof using size_pos.
  intros H E. pose proof (Z.div_mod x size ltac:(lia)). pose proof (Z.div_mod y size ltac:(lia)).
  assert (Hd : y - x = size * (y `div` size - x `div` size)) by lia.
  assert (y `div` size - x `div` size = 0) by nia. nia.
Qed.

Lemma ring_slot x : (Z.to_nat (x `mod` size) < Z.to_nat size)%nat.
Proof using size_pos. pose proof (Z.mod_pos_bound x size size_pos). lia. Qed.

Lemma ring_push buf from q c :
  length buf = Z.to_nat size -> Z.of_nat (length q) < size -> ring_holds buf from q ->
  ring_holds (<[Z.to_nat (((from + length q) `mod` M) `mod` size) := c]> buf) from (q ++ [c]).
Proof using size_pos size_div M_pos.
  intros Hs Hroom Hd i d Hi. rewrite ring_index.
  apply lookup_app_Some in Hi as [Hi|[Hge Hi]].
  - pose proof (lookup_lt_Some _ _ _ Hi). rewrite list_lookup_insert_ne; [by apply Hd|].
    intros E. apply Z2Nat.inj in E; [|by apply Z.mod_pos_bound|by apply Z.mod_pos_bound].
    symmetry in E. apply ring_distinct in E; lia.
  - apply list_lookup_singleton_Some in Hi as [Hi <-].
    replace i with (length q) by lia. apply list_lookup_insert_eq. rewrite Hs. apply ring_slot.
Qed.

Lemma ring_pop buf from c q : ring_holds buf from (c :: q) -> ring_holds buf ((from + 1) `mod` M) q.
Proof using size_pos size_div M_pos.
  intros Hd i d Hi. rewrite <- (Hd (S i) d Hi). do 2 f_equal.
  rewrite <- Zplus_mod_idemp_l, ring_index, Zplus_mod_idemp_l. f_equal. lia.
Qed.

Lemma ring_front buf from c q : ring_holds buf from (c :: q) -> buf !! Z.to_nat (from `mod` size) = Some c.
Proof. intros Hd. specialize (Hd 0%nat c eq_refl). by rewrite Z.add_0_r in Hd. Qed.

Lemma ring_prefix buf from q q' : ring_holds buf from (q ++ q') -> ring_holds buf from q.
Proof. intros Hd i c Hi. apply Hd. by apply lookup_app_l_Some. Qed.

(** The last byte, found by the counter behind it. *)
Lemma ring_last buf from q c :
  ring_holds buf from (q ++ [c]) ->
  buf !! Z.to_nat ((((from + length (q ++ [c])) `mod` M - 1) `mod` M) `mod` size) = Some c.
Proof using size_pos size_div M_pos.
  intros Hd. specialize (Hd (length q) c). rewrite lookup_app_r, Nat.sub_diag in Hd by lia.
  rewrite <- (Hd eq_refl). do 2 f_equal. rewrite ring_index.
  rewrite <- Zminus_mod_idemp_l, ring_index, Zminus_mod_idemp_l. f_equal. rewrite length_app. cbn. lia.
Qed.

End Ring.

(** Counters: sums modulo 2^32. *)
Lemma u32_add_l x y : u32 (u32 x + y) = u32 (x + y).
Proof. unfold u32. apply Zplus_mod_idemp_l. Qed.

Lemma u32_sub_l x y : u32 (u32 x - y) = u32 (x - y).
Proof. unfold u32. apply Zminus_mod_idemp_l. Qed.

Lemma u32_sub_r x y : u32 (x - u32 y) = u32 (x - y).
Proof. unfold u32. apply Zminus_mod_idemp_r. Qed.

Lemma u32_distance r n : is_u32 n -> u32 (u32 (r + n) - r) = n.
Proof. intros. rewrite u32_sub_l. replace (r + n - r) with n by lia. by apply u32_small. Qed.

(** Two counters are equal exactly if the distance is 0. *)
Lemma u32_eq_distance r a b :
  0 <= a -> a <= b < 2^32 -> (u32 (r + b) =? u32 (r + a)) = (b =? a).
Proof.
  intros Ha Hb. apply eq_true_iff_eq. rewrite !Z.eqb_eq. unfold u32. split; [|by intros ->].
  intros E. Z.div_mod_to_equations. lia.
Qed.
