(* ===== verification/State.v ===== *)
(** * Kernel state and the kernel monad

    The data of [kernel/proc.h] and the global variables of the kernel, and the
    monad in which the kernel's functions are written.  A computation runs on
    one CPU from a state of the whole kernel and ends in one of four ways: it
    returns, it calls [panic], it gives the CPU away in [swtch] (with the
    continuation that resumes it), or it does something C leaves undefined. *)

From S2P Require Import Prelude Riscv Mem.

#[local] Open Scope Z_scope.

(** ** Spin locks and sleep channels, by name

    A lock or channel is identified by the variable whose address the code
    takes.  [L_intr] is one level of [push_off] that belongs to no lock. *)

Inductive sleep_name : Type :=
| SL_buf (b : nat)          (* [bcache.buf[b].lock] *)
| SL_inode (i : nat).       (* [itable.inode[i].lock] *)

Inductive lock : Type :=
| L_kmem | L_mmap | L_pid | L_wait | L_ticks
| L_bcache | L_log | L_itable | L_ftable | L_cons | L_pr | L_tx
| L_proc (i : nat)
| L_pipe (pi : Z)
| L_sleep (sl : sleep_name) (* the spin lock inside a sleep lock *)
| L_intr.

Inductive chan : Type :=
| C_proc (i : nat)          (* a [struct proc *]: [kwait], [kwaitpid] *)
| C_ticks                   (* [&ticks]: [sys_pause] *)
| C_log                     (* [&log]: [begin_op] *)
| C_tx                      (* [&tx_chan]: [uartwrite] *)
| C_cons                    (* [&cons.r]: [consoleread] *)
| C_sleep (sl : sleep_name) (* a sleep lock: [acquiresleep] *)
| C_nread (pi : Z)          (* [&pi->nread]: [piperead] *)
| C_nwrite (pi : Z).        (* [&pi->nwrite]: [pipewrite] *)

#[global] Instance sleep_name_eq_dec : EqDecision sleep_name.
Proof. solve_decision. Defined.
#[global] Instance lock_eq_dec : EqDecision lock.
Proof. solve_decision. Defined.
#[global] Instance chan_eq_dec : EqDecision chan.
Proof. solve_decision. Defined.

(** ** [kernel/proc.h] *)

Definition NICE_MIN : Z := 0.
Definition NICE_MAX : Z := 39.
Definition NICE_DEFAULT : Z := 20.
Definition BASE_SLICE : Z := 5.
Definition MILLI_TICK : Z := 1000.
Definition NICE_20_WEIGHT : Z := 1024.

Inductive procstate : Type :=
| UNUSED | USED | SLEEPING | RUNNABLE | RUNNING | ZOMBIE.

#[global] Instance procstate_eq_dec : EqDecision procstate.
Proof. solve_decision. Defined.

(** Saved registers: [ra], [sp] and the twelve callee-saved [s0]..[s11]. *)
Record context : Type := mkContext {
  c_ra : Z;
  c_sp : Z;
  c_s : list Z
}.

Definition zero_context : context := mkContext 0 0 (replicate 12 0).

(** A [struct proc *], a [struct file *] and a [struct inode *] are indices
    into [proc[]], [ftable.file[]] and [itable.inode[]], [None] for a null
    pointer; a [pagetable_t] and a [struct trapframe *] are physical addresses.
    The spin lock of the structure is [L_proc i], in [held] below. *)
Record proc : Type := mkProc {
  p_state : procstate;
  p_chan : option chan;   (* if non-zero, sleeping on chan *)
  p_killed : Z;
  p_xstate : Z;
  p_pid : Z;
  p_nice : Z;
  p_weight : Z;
  p_runtime : Z;
  p_vruntime : Z;
  p_vdeadline : Z;
  p_remain_slice : Z;
  p_eligible : Z;
  p_parent : option nat;
  p_kstack : Z;
  p_sz : Z;
  p_pagetable : Z;
  p_trapframe : Z;
  p_context : context;
  p_ofile : list (option nat);
  p_cwd : option nat;
  p_name : list Z
}.

Definition set_p_state (v : procstate) (r : proc) : proc :=
  mkProc v (p_chan r) (p_killed r) (p_xstate r) (p_pid r) (p_nice r) (p_weight r) (p_runtime r) (p_vruntime r) (p_vdeadline r) (p_remain_slice r) (p_eligible r) (p_parent r) (p_kstack r) (p_sz r) (p_pagetable r) (p_trapframe r) (p_context r) (p_ofile r) (p_cwd r) (p_name r).
Definition set_p_chan (v : option chan) (r : proc) : proc :=
  mkProc (p_state r) v (p_killed r) (p_xstate r) (p_pid r) (p_nice r) (p_weight r) (p_runtime r) (p_vruntime r) (p_vdeadline r) (p_remain_slice r) (p_eligible r) (p_parent r) (p_kstack r) (p_sz r) (p_pagetable r) (p_trapframe r) (p_context r) (p_ofile r) (p_cwd r) (p_name r).
Definition set_p_killed (v : Z) (r : proc) : proc :=
  mkProc (p_state r) (p_chan r) v (p_xstate r) (p_pid r) (p_nice r) (p_weight r) (p_runtime r) (p_vruntime r) (p_vdeadline r) (p_remain_slice r) (p_eligible r) (p_parent r) (p_kstack r) (p_sz r) (p_pagetable r) (p_trapframe r) (p_context r) (p_ofile r) (p_cwd r) (p_name r).
Definition set_p_xstate (v : Z) (r : proc) : proc :=
  mkProc (p_state r) (p_chan r) (p_killed r) v (p_pid r) (p_nice r) (p_weight r) (p_runtime r) (p_vruntime r) (p_vdeadline r) (p_remain_slice r) (p_eligible r) (p_parent r) (p_kstack r) (p_sz r) (p_pagetable r) (p_trapframe r) (p_context r) (p_ofile r) (p_cwd r) (p_name r).
Definition set_p_pid (v : Z) (r : proc) : proc :=
  mkProc (p_state r) (p_chan r) (p_killed r) (p_xstate r) v (p_nice r) (p_weight r) (p_runtime r) (p_vruntime r) (p_vdeadline r) (p_remain_slice r) (p_eligible r) (p_parent r) (p_kstack r) (p_sz r) (p_pagetable r) (p_trapframe r) (p_context r) (p_ofile r) (p_cwd r) (p_name r).
Definition set_p_nice (v : Z) (r : proc) : proc :=
  mkProc (p_state r) (p_chan r) (p_killed r) (p_xstate r) (p_pid r) v (p_weight r) (p_runtime r) (p_vruntime r) (p_vdeadline r) (p_remain_slice r) (p_eligible r) (p_parent r) (p_kstack r) (p_sz r) (p_pagetable r) (p_trapframe r) (p_context r) (p_ofile r) (p_cwd r) (p_name r).
Definition set_p_weight (v : Z) (r : proc) : proc :=
  mkProc (p_state r) (p_chan r) (p_killed r) (p_xstate r) (p_pid r) (p_nice r) v (p_runtime r) (p_vruntime r) (p_vdeadline r) (p_remain_slice r) (p_eligible r) (p_parent r) (p_kstack r) (p_sz r) (p_pagetable r) (p_trapframe r) (p_context r) (p_ofile r) (p_cwd r) (p_name r).
Definition set_p_runtime (v : Z) (r : proc) : proc :=
  mkProc (p_state r) (p_chan r) (p_killed r) (p_xstate r) (p_pid r) (p_nice r) (p_weight r) v (p_vruntime r) (p_vdeadline r) (p_remain_slice r) (p_eligible r) (p_parent r) (p_kstack r) (p_sz r) (p_pagetable r) (p_trapframe r) (p_context r) (p_ofile r) (p_cwd r) (p_name r).
Definition set_p_vruntime (v : Z) (r : proc) : proc :=
  mkProc (p_state r) (p_chan r) (p_killed r) (p_xstate r) (p_pid r) (p_nice r) (p_weight r) (p_runtime r) v (p_vdeadline r) (p_remain_slice r) (p_eligible r) (p_parent r) (p_kstack r) (p_sz r) (p_pagetable r) (p_trapframe r) (p_context r) (p_ofile r) (p_cwd r) (p_name r).
Definition set_p_vdeadline (v : Z) (r : proc) : proc :=
  mkProc (p_state r) (p_chan r) (p_killed r) (p_xstate r) (p_pid r) (p_nice r) (p_weight r) (p_runtime r) (p_vruntime r) v (p_remain_slice r) (p_eligible r) (p_parent r) (p_kstack r) (p_sz r) (p_pagetable r) (p_trapframe r) (p_context r) (p_ofile r) (p_cwd r) (p_name r).
Definition set_p_remain_slice (v : Z) (r : proc) : proc :=
  mkProc (p_state r) (p_chan r) (p_killed r) (p_xstate r) (p_pid r) (p_nice r) (p_weight r) (p_runtime r) (p_vruntime r) (p_vdeadline r) v (p_eligible r) (p_parent r) (p_kstack r) (p_sz r) (p_pagetable r) (p_trapframe r) (p_context r) (p_ofile r) (p_cwd r) (p_name r).
Definition set_p_eligible (v : Z) (r : proc) : proc :=
  mkProc (p_state r) (p_chan r) (p_killed r) (p_xstate r) (p_pid r) (p_nice r) (p_weight r) (p_runtime r) (p_vruntime r) (p_vdeadline r) (p_remain_slice r) v (p_parent r) (p_kstack r) (p_sz r) (p_pagetable r) (p_trapframe r) (p_context r) (p_ofile r) (p_cwd r) (p_name r).
Definition set_p_parent (v : option nat) (r : proc) : proc :=
  mkProc (p_state r) (p_chan r) (p_killed r) (p_xstate r) (p_pid r) (p_nice r) (p_weight r) (p_runtime r) (p_vruntime r) (p_vdeadline r) (p_remain_slice r) (p_eligible r) v (p_kstack r) (p_sz r) (p_pagetable r) (p_trapframe r) (p_context r) (p_ofile r) (p_cwd r) (p_name r).
Definition set_p_kstack (v : Z) (r : proc) : proc :=
  mkProc (p_state r) (p_chan r) (p_killed r) (p_xstate r) (p_pid r) (p_nice r) (p_weight r) (p_runtime r) (p_vruntime r) (p_vdeadline r) (p_remain_slice r) (p_eligible r) (p_parent r) v (p_sz r) (p_pagetable r) (p_trapframe r) (p_context r) (p_ofile r) (p_cwd r) (p_name r).
Definition set_p_sz (v : Z) (r : proc) : proc :=
  mkProc (p_state r) (p_chan r) (p_killed r) (p_xstate r) (p_pid r) (p_nice r) (p_weight r) (p_runtime r) (p_vruntime r) (p_vdeadline r) (p_remain_slice r) (p_eligible r) (p_parent r) (p_kstack r) v (p_pagetable r) (p_trapframe r) (p_context r) (p_ofile r) (p_cwd r) (p_name r).
Definition set_p_pagetable (v : Z) (r : proc) : proc :=
  mkProc (p_state r) (p_chan r) (p_killed r) (p_xstate r) (p_pid r) (p_nice r) (p_weight r) (p_runtime r) (p_vruntime r) (p_vdeadline r) (p_remain_slice r) (p_eligible r) (p_parent r) (p_kstack r) (p_sz r) v (p_trapframe r) (p_context r) (p_ofile r) (p_cwd r) (p_name r).
Definition set_p_trapframe (v : Z) (r : proc) : proc :=
  mkProc (p_state r) (p_chan r) (p_killed r) (p_xstate r) (p_pid r) (p_nice r) (p_weight r) (p_runtime r) (p_vruntime r) (p_vdeadline r) (p_remain_slice r) (p_eligible r) (p_parent r) (p_kstack r) (p_sz r) (p_pagetable r) v (p_context r) (p_ofile r) (p_cwd r) (p_name r).
Definition set_p_context (v : context) (r : proc) : proc :=
  mkProc (p_state r) (p_chan r) (p_killed r) (p_xstate r) (p_pid r) (p_nice r) (p_weight r) (p_runtime r) (p_vruntime r) (p_vdeadline r) (p_remain_slice r) (p_eligible r) (p_parent r) (p_kstack r) (p_sz r) (p_pagetable r) (p_trapframe r) v (p_ofile r) (p_cwd r) (p_name r).
Definition set_p_ofile (v : list (option nat)) (r : proc) : proc :=
  mkProc (p_state r) (p_chan r) (p_killed r) (p_xstate r) (p_pid r) (p_nice r) (p_weight r) (p_runtime r) (p_vruntime r) (p_vdeadline r) (p_remain_slice r) (p_eligible r) (p_parent r) (p_kstack r) (p_sz r) (p_pagetable r) (p_trapframe r) (p_context r) v (p_cwd r) (p_name r).
Definition set_p_cwd (v : option nat) (r : proc) : proc :=
  mkProc (p_state r) (p_chan r) (p_killed r) (p_xstate r) (p_pid r) (p_nice r) (p_weight r) (p_runtime r) (p_vruntime r) (p_vdeadline r) (p_remain_slice r) (p_eligible r) (p_parent r) (p_kstack r) (p_sz r) (p_pagetable r) (p_trapframe r) (p_context r) (p_ofile r) v (p_name r).
Definition set_p_name (v : list Z) (r : proc) : proc :=
  mkProc (p_state r) (p_chan r) (p_killed r) (p_xstate r) (p_pid r) (p_nice r) (p_weight r) (p_runtime r) (p_vruntime r) (p_vdeadline r) (p_remain_slice r) (p_eligible r) (p_parent r) (p_kstack r) (p_sz r) (p_pagetable r) (p_trapframe r) (p_context r) (p_ofile r) (p_cwd r) v.

(** An entry of [mmaptable]; [a_p = None] marks a free slot. *)
Record mmap_area : Type := mkArea {
  a_f : option nat;
  a_addr : Z;
  a_length : Z;
  a_offset : Z;
  a_prot : Z;
  a_flags : Z;
  a_p : option nat
}.

(** The value [memset(area, 0, sizeof( *area))] leaves. *)
Definition zero_area : mmap_area := mkArea None 0 0 0 0 0 None.

(** ** [kernel/sleeplock.h], [buf.h], [fs.h], [file.h], [log.c], [pipe.c], [console.c]

    Blocks and buffers are lists of bytes.  The spin lock inside a sleep lock is
    [L_sleep]. *)

Record sleeplock : Type := mkSleeplock {
  sl_locked : Z;
  sl_pid : Z
}.

Definition set_sl_locked (v : Z) (r : sleeplock) : sleeplock :=
  mkSleeplock v (sl_pid r).
Definition set_sl_pid (v : Z) (r : sleeplock) : sleeplock :=
  mkSleeplock (sl_locked r) v.

Record buf : Type := mkBuf {
  b_valid : Z;
  b_dev : Z;
  b_blockno : Z;
  b_lock : sleeplock;
  b_refcnt : Z;
  b_data : list Z
}.

Definition set_b_valid (v : Z) (r : buf) : buf :=
  mkBuf v (b_dev r) (b_blockno r) (b_lock r) (b_refcnt r) (b_data r).
Definition set_b_dev (v : Z) (r : buf) : buf :=
  mkBuf (b_valid r) v (b_blockno r) (b_lock r) (b_refcnt r) (b_data r).
Definition set_b_blockno (v : Z) (r : buf) : buf :=
  mkBuf (b_valid r) (b_dev r) v (b_lock r) (b_refcnt r) (b_data r).
Definition set_b_lock (v : sleeplock) (r : buf) : buf :=
  mkBuf (b_valid r) (b_dev r) (b_blockno r) v (b_refcnt r) (b_data r).
Definition set_b_refcnt (v : Z) (r : buf) : buf :=
  mkBuf (b_valid r) (b_dev r) (b_blockno r) (b_lock r) v (b_data r).
Definition set_b_data (v : list Z) (r : buf) : buf :=
  mkBuf (b_valid r) (b_dev r) (b_blockno r) (b_lock r) (b_refcnt r) v.

Record inode : Type := mkInode {
  i_dev : Z;
  i_inum : Z;
  i_ref : Z;
  i_lock : sleeplock;
  i_valid : Z;
  i_type : Z;
  i_major : Z;
  i_minor : Z;
  i_nlink : Z;
  i_size : Z;
  i_addrs : list Z
}.

Definition set_i_dev (v : Z) (r : inode) : inode :=
  mkInode v (i_inum r) (i_ref r) (i_lock r) (i_valid r) (i_type r) (i_major r) (i_minor r) (i_nlink r) (i_size r) (i_addrs r).
Definition set_i_inum (v : Z) (r : inode) : inode :=
  mkInode (i_dev r) v (i_ref r) (i_lock r) (i_valid r) (i_type r) (i_major r) (i_minor r) (i_nlink r) (i_size r) (i_addrs r).
Definition set_i_ref (v : Z) (r : inode) : inode :=
  mkInode (i_dev r) (i_inum r) v (i_lock r) (i_valid r) (i_type r) (i_major r) (i_minor r) (i_nlink r) (i_size r) (i_addrs r).
Definition set_i_lock (v : sleeplock) (r : inode) : inode :=
  mkInode (i_dev r) (i_inum r) (i_ref r) v (i_valid r) (i_type r) (i_major r) (i_minor r) (i_nlink r) (i_size r) (i_addrs r).
Definition set_i_valid (v : Z) (r : inode) : inode :=
  mkInode (i_dev r) (i_inum r) (i_ref r) (i_lock r) v (i_type r) (i_major r) (i_minor r) (i_nlink r) (i_size r) (i_addrs r).
Definition set_i_type (v : Z) (r : inode) : inode :=
  mkInode (i_dev r) (i_inum r) (i_ref r) (i_lock r) (i_valid r) v (i_major r) (i_minor r) (i_nlink r) (i_size r) (i_addrs r).
Definition set_i_major (v : Z) (r : inode) : inode :=
  mkInode (i_dev r) (i_inum r) (i_ref r) (i_lock r) (i_valid r) (i_type r) v (i_minor r) (i_nlink r) (i_size r) (i_addrs r).
Definition set_i_minor (v : Z) (r : inode) : inode :=
  mkInode (i_dev r) (i_inum r) (i_ref r) (i_lock r) (i_valid r) (i_type r) (i_major r) v (i_nlink r) (i_size r) (i_addrs r).
Definition set_i_nlink (v : Z) (r : inode) : inode :=
  mkInode (i_dev r) (i_inum r) (i_ref r) (i_lock r) (i_valid r) (i_type r) (i_major r) (i_minor r) v (i_size r) (i_addrs r).
Definition set_i_size (v : Z) (r : inode) : inode :=
  mkInode (i_dev r) (i_inum r) (i_ref r) (i_lock r) (i_valid r) (i_type r) (i_major r) (i_minor r) (i_nlink r) v (i_addrs r).
Definition set_i_addrs (v : list Z) (r : inode) : inode :=
  mkInode (i_dev r) (i_inum r) (i_ref r) (i_lock r) (i_valid r) (i_type r) (i_major r) (i_minor r) (i_nlink r) (i_size r) v.

Record superblock : Type := mkSuperblock {
  sb_magic : Z;
  sb_size : Z;
  sb_nblocks : Z;
  sb_ninodes : Z;
  sb_nlog : Z;
  sb_logstart : Z;
  sb_inodestart : Z;
  sb_bmapstart : Z
}.

(** [struct log]; [lg_n] and [lg_block] are the in-memory header [log.lh]. *)
Record loginfo : Type := mkLog {
  lg_start : Z;
  lg_outstanding : Z;
  lg_committing : Z;
  lg_dev : Z;
  lg_n : Z;
  lg_block : list Z
}.

Definition set_lg_start (v : Z) (r : loginfo) : loginfo :=
  mkLog v (lg_outstanding r) (lg_committing r) (lg_dev r) (lg_n r) (lg_block r).
Definition set_lg_outstanding (v : Z) (r : loginfo) : loginfo :=
  mkLog (lg_start r) v (lg_committing r) (lg_dev r) (lg_n r) (lg_block r).
Definition set_lg_committing (v : Z) (r : loginfo) : loginfo :=
  mkLog (lg_start r) (lg_outstanding r) v (lg_dev r) (lg_n r) (lg_block r).
Definition set_lg_dev (v : Z) (r : loginfo) : loginfo :=
  mkLog (lg_start r) (lg_outstanding r) (lg_committing r) v (lg_n r) (lg_block r).
Definition set_lg_n (v : Z) (r : loginfo) : loginfo :=
  mkLog (lg_start r) (lg_outstanding r) (lg_committing r) (lg_dev r) v (lg_block r).
Definition set_lg_block (v : list Z) (r : loginfo) : loginfo :=
  mkLog (lg_start r) (lg_outstanding r) (lg_committing r) (lg_dev r) (lg_n r) v.

Inductive ftype : Type := FD_NONE | FD_PIPE | FD_INODE | FD_DEVICE.

#[global] Instance ftype_eq_dec : EqDecision ftype.
Proof. solve_decision. Defined.

(** [f_pipe] is the address of the page that holds the [struct pipe]. *)
Record file : Type := mkFile {
  f_type : ftype;
  f_ref : Z;
  f_readable : Z;
  f_writable : Z;
  f_pipe : Z;
  f_ip : option nat;
  f_off : Z;
  f_major : Z
}.

Definition set_f_type (v : ftype) (r : file) : file :=
  mkFile v (f_ref r) (f_readable r) (f_writable r) (f_pipe r) (f_ip r) (f_off r) (f_major r).
Definition set_f_ref (v : Z) (r : file) : file :=
  mkFile (f_type r) v (f_readable r) (f_writable r) (f_pipe r) (f_ip r) (f_off r) (f_major r).
Definition set_f_readable (v : Z) (r : file) : file :=
  mkFile (f_type r) (f_ref r) v (f_writable r) (f_pipe r) (f_ip r) (f_off r) (f_major r).
Definition set_f_writable (v : Z) (r : file) : file :=
  mkFile (f_type r) (f_ref r) (f_readable r) v (f_pipe r) (f_ip r) (f_off r) (f_major r).
Definition set_f_pipe (v : Z) (r : file) : file :=
  mkFile (f_type r) (f_ref r) (f_readable r) (f_writable r) v (f_ip r) (f_off r) (f_major r).
Definition set_f_ip (v : option nat) (r : file) : file :=
  mkFile (f_type r) (f_ref r) (f_readable r) (f_writable r) (f_pipe r) v (f_off r) (f_major r).
Definition set_f_off (v : Z) (r : file) : file :=
  mkFile (f_type r) (f_ref r) (f_readable r) (f_writable r) (f_pipe r) (f_ip r) v (f_major r).
Definition set_f_major (v : Z) (r : file) : file :=
  mkFile (f_type r) (f_ref r) (f_readable r) (f_writable r) (f_pipe r) (f_ip r) (f_off r) v.

Record pipe : Type := mkPipe {
  pi_data : list Z;
  pi_nread : Z;
  pi_nwrite : Z;
  pi_readopen : Z;
  pi_writeopen : Z
}.

Definition set_pi_data (v : list Z) (r : pipe) : pipe :=
  mkPipe v (pi_nread r) (pi_nwrite r) (pi_readopen r) (pi_writeopen r).
Definition set_pi_nread (v : Z) (r : pipe) : pipe :=
  mkPipe (pi_data r) v (pi_nwrite r) (pi_readopen r) (pi_writeopen r).
Definition set_pi_nwrite (v : Z) (r : pipe) : pipe :=
  mkPipe (pi_data r) (pi_nread r) v (pi_readopen r) (pi_writeopen r).
Definition set_pi_readopen (v : Z) (r : pipe) : pipe :=
  mkPipe (pi_data r) (pi_nread r) (pi_nwrite r) v (pi_writeopen r).
Definition set_pi_writeopen (v : Z) (r : pipe) : pipe :=
  mkPipe (pi_data r) (pi_nread r) (pi_nwrite r) (pi_readopen r) v.

(** The [cons] structure of [console.c]. *)
Record console : Type := mkConsole {
  cons_buf : list Z;
  cons_r : Z;
  cons_w : Z;
  cons_e : Z
}.

Definition set_cons_buf (v : list Z) (r : console) : console :=
  mkConsole v (cons_r r) (cons_w r) (cons_e r).
Definition set_cons_r (v : Z) (r : console) : console :=
  mkConsole (cons_buf r) v (cons_w r) (cons_e r).
Definition set_cons_w (v : Z) (r : console) : console :=
  mkConsole (cons_buf r) (cons_r r) v (cons_e r).
Definition set_cons_e (v : Z) (r : console) : console :=
  mkConsole (cons_buf r) (cons_r r) (cons_w r) v.

(** ** The kernel's global state, seen from the running CPU *)

Record kernel : Type := mkKernel {
  held : list lock;   (* spinlocks this CPU holds, latest first *)
  cur : option nat;   (* [mycpu()->proc] *)
  mem : Z -> Z;   (* physical memory, by byte address *)
  freelist : Z;   (* [kmem.freelist] *)
  refcnt : Z -> Z;   (* [refcnt[]] of [kalloc.c] *)
  procs : list proc;   (* [proc[NPROC]] *)
  nextpid : Z;
  initproc : option nat;
  ticks : Z;
  mmaptable : list mmap_area;   (* [mmaptable.area] *)
  bufs : list buf;   (* [bcache.buf[NBUF]] *)
  lru : list nat;   (* the list from [bcache.head.next] on *)
  disk : Z -> list Z;   (* contents of the disk, by block number *)
  writes : list (Z * list Z);   (* the blocks written to the disk so far, latest last *)
  lg : loginfo;   (* [log] *)
  itab : list inode;   (* [itable.inode[NINODE]] *)
  sb : superblock;
  ftab : list file;   (* [ftable.file[NFILE]] *)
  pipes : Z -> pipe;   (* [struct pipe]s, by the address of their page *)
  kcons : console;   (* [cons] *)
  output : list Z;   (* characters sent to the UART, latest last *)
  tx_busy : Z;   (* [tx_busy] of [uart.c] *)
  devsw : list bool;   (* is [devsw[i]] connected? *)
  kernel_pagetable : Z;
  forkret_first : Z   (* [first] of [forkret] *)
}.

Definition set_held (v : list lock) (r : kernel) : kernel :=
  mkKernel v (cur r) (mem r) (freelist r) (refcnt r) (procs r) (nextpid r) (initproc r) (ticks r) (mmaptable r) (bufs r) (lru r) (disk r) (writes r) (lg r) (itab r) (sb r) (ftab r) (pipes r) (kcons r) (output r) (tx_busy r) (devsw r) (kernel_pagetable r) (forkret_first r).
Definition set_cur (v : option nat) (r : kernel) : kernel :=
  mkKernel (held r) v (mem r) (freelist r) (refcnt r) (procs r) (nextpid r) (initproc r) (ticks r) (mmaptable r) (bufs r) (lru r) (disk r) (writes r) (lg r) (itab r) (sb r) (ftab r) (pipes r) (kcons r) (output r) (tx_busy r) (devsw r) (kernel_pagetable r) (forkret_first r).
Definition set_mem (v : Z -> Z) (r : kernel) : kernel :=
  mkKernel (held r) (cur r) v (freelist r) (refcnt r) (procs r) (nextpid r) (initproc r) (ticks r) (mmaptable r) (bufs r) (lru r) (disk r) (writes r) (lg r) (itab r) (sb r) (ftab r) (pipes r) (kcons r) (output r) (tx_busy r) (devsw r) (kernel_pagetable r) (forkret_first r).
Definition set_freelist (v : Z) (r : kernel) : kernel :=
  mkKernel (held r) (cur r) (mem r) v (refcnt r) (procs r) (nextpid r) (initproc r) (ticks r) (mmaptable r) (bufs r) (lru r) (disk r) (writes r) (lg r) (itab r) (sb r) (ftab r) (pipes r) (kcons r) (output r) (tx_busy r) (devsw r) (kernel_pagetable r) (forkret_first r).
Definition set_refcnt (v : Z -> Z) (r : kernel) : kernel :=
  mkKernel (held r) (cur r) (mem r) (freelist r) v (procs r) (nextpid r) (initproc r) (ticks r) (mmaptable r) (bufs r) (lru r) (disk r) (writes r) (lg r) (itab r) (sb r) (ftab r) (pipes r) (kcons r) (output r) (tx_busy r) (devsw r) (kernel_pagetable r) (forkret_first r).
Definition set_procs (v : list proc) (r : kernel) : kernel :=
  mkKernel (held r) (cur r) (mem r) (freelist r) (refcnt r) v (nextpid r) (initproc r) (ticks r) (mmaptable r) (bufs r) (lru r) (disk r) (writes r) (lg r) (itab r) (sb r) (ftab r) (pipes r) (kcons r) (output r) (tx_busy r) (devsw r) (kernel_pagetable r) (forkret_first r).
Definition set_nextpid (v : Z) (r : kernel) : kernel :=
  mkKernel (held r) (cur r) (mem r) (freelist r) (refcnt r) (procs r) v (initproc r) (ticks r) (mmaptable r) (bufs r) (lru r) (disk r) (writes r) (lg r) (itab r) (sb r) (ftab r) (pipes r) (kcons r) (output r) (tx_busy r) (devsw r) (kernel_pagetable r) (forkret_first r).
Definition set_initproc (v : option nat) (r : kernel) : kernel :=
  mkKernel (held r) (cur r) (mem r) (freelist r) (refcnt r) (procs r) (nextpid r) v (ticks r) (mmaptable r) (bufs r) (lru r) (disk r) (writes r) (lg r) (itab r) (sb r) (ftab r) (pipes r) (kcons r) (output r) (tx_busy r) (devsw r) (kernel_pagetable r) (forkret_first r).
Definition set_ticks (v : Z) (r : kernel) : kernel :=
  mkKernel (held r) (cur r) (mem r) (freelist r) (refcnt r) (procs r) (nextpid r) (initproc r) v (mmaptable r) (bufs r) (lru r) (disk r) (writes r) (lg r) (itab r) (sb r) (ftab r) (pipes r) (kcons r) (output r) (tx_busy r) (devsw r) (kernel_pagetable r) (forkret_first r).
Definition set_mmaptable (v : list mmap_area) (r : kernel) : kernel :=
  mkKernel (held r) (cur r) (mem r) (freelist r) (refcnt r) (procs r) (nextpid r) (initproc r) (ticks r) v (bufs r) (lru r) (disk r) (writes r) (lg r) (itab r) (sb r) (ftab r) (pipes r) (kcons r) (output r) (tx_busy r) (devsw r) (kernel_pagetable r) (forkret_first r).
Definition set_bufs (v : list buf) (r : kernel) : kernel :=
  mkKernel (held r) (cur r) (mem r) (freelist r) (refcnt r) (procs r) (nextpid r) (initproc r) (ticks r) (mmaptable r) v (lru r) (disk r) (writes r) (lg r) (itab r) (sb r) (ftab r) (pipes r) (kcons r) (output r) (tx_busy r) (devsw r) (kernel_pagetable r) (forkret_first r).
Definition set_lru (v : list nat) (r : kernel) : kernel :=
  mkKernel (held r) (cur r) (mem r) (freelist r) (refcnt r) (procs r) (nextpid r) (initproc r) (ticks r) (mmaptable r) (bufs r) v (disk r) (writes r) (lg r) (itab r) (sb r) (ftab r) (pipes r) (kcons r) (output r) (tx_busy r) (devsw r) (kernel_pagetable r) (forkret_first r).
Definition set_disk (v : Z -> list Z) (r : kernel) : kernel :=
  mkKernel (held r) (cur r) (mem r) (freelist r) (refcnt r) (procs r) (nextpid r) (initproc r) (ticks r) (mmaptable r) (bufs r) (lru r) v (writes r) (lg r) (itab r) (sb r) (ftab r) (pipes r) (kcons r) (output r) (tx_busy r) (devsw r) (kernel_pagetable r) (forkret_first r).
Definition set_writes (v : list (Z * list Z)) (r : kernel) : kernel :=
  mkKernel (held r) (cur r) (mem r) (freelist r) (refcnt r) (procs r) (nextpid r) (initproc r) (ticks r) (mmaptable r) (bufs r) (lru r) (disk r) v (lg r) (itab r) (sb r) (ftab r) (pipes r) (kcons r) (output r) (tx_busy r) (devsw r) (kernel_pagetable r) (forkret_first r).
Definition set_lg (v : loginfo) (r : kernel) : kernel :=
  mkKernel (held r) (cur r) (mem r) (freelist r) (refcnt r) (procs r) (nextpid r) (initproc r) (ticks r) (mmaptable r) (bufs r) (lru r) (disk r) (writes r) v (itab r) (sb r) (ftab r) (pipes r) (kcons r) (output r) (tx_busy r) (devsw r) (kernel_pagetable r) (forkret_first r).
Definition set_itab (v : list inode) (r : kernel) : kernel :=
  mkKernel (held r) (cur r) (mem r) (freelist r) (refcnt r) (procs r) (nextpid r) (initproc r) (ticks r) (mmaptable r) (bufs r) (lru r) (disk r) (writes r) (lg r) v (sb r) (ftab r) (pipes r) (kcons r) (output r) (tx_busy r) (devsw r) (kernel_pagetable r) (forkret_first r).
Definition set_sb (v : superblock) (r : kernel) : kernel :=
  mkKernel (held r) (cur r) (mem r) (freelist r) (refcnt r) (procs r) (nextpid r) (initproc r) (ticks r) (mmaptable r) (bufs r) (lru r) (disk r) (writes r) (lg r) (itab r) v (ftab r) (pipes r) (kcons r) (output r) (tx_busy r) (devsw r) (kernel_pagetable r) (forkret_first r).
Definition set_ftab (v : list file) (r : kernel) : kernel :=
  mkKernel (held r) (cur r) (mem r) (freelist r) (refcnt r) (procs r) (nextpid r) (initproc r) (ticks r) (mmaptable r) (bufs r) (lru r) (disk r) (writes r) (lg r) (itab r) (sb r) v (pipes r) (kcons r) (output r) (tx_busy r) (devsw r) (kernel_pagetable r) (forkret_first r).
Definition set_pipes (v : Z -> pipe) (r : kernel) : kernel :=
  mkKernel (held r) (cur r) (mem r) (freelist r) (refcnt r) (procs r) (nextpid r) (initproc r) (ticks r) (mmaptable r) (bufs r) (lru r) (disk r) (writes r) (lg r) (itab r) (sb r) (ftab r) v (kcons r) (output r) (tx_busy r) (devsw r) (kernel_pagetable r) (forkret_first r).
Definition set_kcons (v : console) (r : kernel) : kernel :=
  mkKernel (held r) (cur r) (mem r) (freelist r) (refcnt r) (procs r) (nextpid r) (initproc r) (ticks r) (mmaptable r) (bufs r) (lru r) (disk r) (writes r) (lg r) (itab r) (sb r) (ftab r) (pipes r) v (output r) (tx_busy r) (devsw r) (kernel_pagetable r) (forkret_first r).
Definition set_output (v : list Z) (r : kernel) : kernel :=
  mkKernel (held r) (cur r) (mem r) (freelist r) (refcnt r) (procs r) (nextpid r) (initproc r) (ticks r) (mmaptable r) (bufs r) (lru r) (disk r) (writes r) (lg r) (itab r) (sb r) (ftab r) (pipes r) (kcons r) v (tx_busy r) (devsw r) (kernel_pagetable r) (forkret_first r).
Definition set_tx_busy (v : Z) (r : kernel) : kernel :=
  mkKernel (held r) (cur r) (mem r) (freelist r) (refcnt r) (procs r) (nextpid r) (initproc r) (ticks r) (mmaptable r) (bufs r) (lru r) (disk r) (writes r) (lg r) (itab r) (sb r) (ftab r) (pipes r) (kcons r) (output r) v (devsw r) (kernel_pagetable r) (forkret_first r).
Definition set_devsw (v : list bool) (r : kernel) : kernel :=
  mkKernel (held r) (cur r) (mem r) (freelist r) (refcnt r) (procs r) (nextpid r) (initproc r) (ticks r) (mmaptable r) (bufs r) (lru r) (disk r) (writes r) (lg r) (itab r) (sb r) (ftab r) (pipes r) (kcons r) (output r) (tx_busy r) v (kernel_pagetable r) (forkret_first r).
Definition set_kernel_pagetable (v : Z) (r : kernel) : kernel :=
  mkKernel (held r) (cur r) (mem r) (freelist r) (refcnt r) (procs r) (nextpid r) (initproc r) (ticks r) (mmaptable r) (bufs r) (lru r) (disk r) (writes r) (lg r) (itab r) (sb r) (ftab r) (pipes r) (kcons r) (output r) (tx_busy r) (devsw r) v (forkret_first r).
Definition set_forkret_first (v : Z) (r : kernel) : kernel :=
  mkKernel (held r) (cur r) (mem r) (freelist r) (refcnt r) (procs r) (nextpid r) (initproc r) (ticks r) (mmaptable r) (bufs r) (lru r) (disk r) (writes r) (lg r) (itab r) (sb r) (ftab r) (pipes r) (kcons r) (output r) (tx_busy r) (devsw r) (kernel_pagetable r) v.

(** ** Addresses the linker and the assembler define *)

Class Layout := {
  end_ : Z;           (* first address after the kernel ([kernel.ld]) *)
  etext : Z;          (* end of the kernel's code ([kernel.ld]) *)
  trampoline : Z;     (* the trampoline page ([trampoline.S]) *)
  forkret_pc : Z      (* address of [forkret] *)
}.

Class LayoutOk (L : Layout) : Prop := {
  end_range : KERNBASE <= end_ <= PHYSTOP;
  trampoline_range : KERNBASE <= trampoline /\ trampoline + PGSIZE <= end_;
  trampoline_aligned : page_aligned trampoline
}.

(** ** Outcomes and the monad *)

Inductive outcome (A : Type) : Type :=
| Ok (a : A) (s : kernel)
| Panic (msg : string)
| Swtch (s : kernel) (k : kernel -> outcome A)
| Stuck (why : string).
Arguments Ok {A} a s.
Arguments Panic {A} msg.
Arguments Swtch {A} s k.
Arguments Stuck {A} why.

Definition K (A : Type) : Type := kernel -> outcome A.

Fixpoint obind {A B} (f : A -> K B) (o : outcome A) : outcome B :=
  match o with
  | Ok a s => f a s
  | Panic msg => Panic msg
  | Swtch s k => Swtch s (fun s' => obind f (k s'))
  | Stuck why => Stuck why
  end.

#[global] Instance K_ret : MRet K := fun A a s => Ok a s.
#[global] Instance K_bind : MBind K := fun A B f m s => obind f (m s).

Definition panic {A} (msg : string) : K A := fun _ => Panic msg.
Definition stuck {A} (why : string) : K A := fun _ => Stuck why.
Definition gets {A} (f : kernel -> A) : K A := fun s => Ok (f s) s.
Definition modify (f : kernel -> kernel) : K unit := fun s => Ok tt (f s).
Definition when (b : bool) (m : K unit) : K unit := if b then m else mret tt.

(** [swtch] to the other thread of this CPU; the continuation runs when some
    later [swtch] comes back. *)
Definition swtch : K unit := fun s => Swtch s (fun s' => Ok tt s').

(** A C [for] loop over a known sequence, with a loop-carried value.  The body
    answers [inl a] to go on and [inr r] to leave the loop ([break], [return],
    [goto]). *)
Fixpoint kfor {I A R} (l : list I) (body : I -> A -> K (A + R)) (a : A) : K (A + R) :=
  match l with
  | [] => mret (inl a)
  | i :: l' =>
      x ← body i a;
      match x with
      | inl a' => kfor l' body a'
      | inr r => mret (inr r)
      end
  end.

(** The common case without early exit. *)
Fixpoint kiter {I A} (l : list I) (body : I -> A -> K A) (a : A) : K A :=
  match l with
  | [] => mret a
  | i :: l' => a' ← body i a; kiter l' body a'
  end.

(** Loads and stores of the kernel, and the fills and copies that [memset] and
    [memmove] perform (closed forms, see [Mem.v]). *)
Definition ld64 (a : Z) : K Z := gets (fun s => load64 (mem s) a).
Definition st64 (a v : Z) : K unit := modify (fun s => set_mem (store64 (mem s) a v) s).
Definition kmemset (p c n : Z) : K unit :=
  modify (fun s => set_mem (mem_fill (mem s) p n (u8 c)) s).
Definition kmemmove (d s n : Z) : K unit :=
  modify (fun k => set_mem (mem_copy (mem k) d s n) k).

(** ** Spin locks, as the rest of the kernel sees them

    [acquire], [release], [push_off] and [pop_off] of [kernel/spinlock.c] at
    the level of the set of locks this CPU holds: [holding(lk)] is membership
    in [held] and [mycpu()->noff] its length.  [Spinlock.v] models the four
    functions in full and shows that they implement this view. *)

Fixpoint remove_lock (lk : lock) (l : list lock) : list lock :=
  match l with
  | [] => []
  | x :: l' => if decide (x = lk) then l' else x :: remove_lock lk l'
  end.

Definition holding (lk : lock) : K bool :=
  gets (fun s => bool_decide (lk ∈ held s)).

Definition push_off : K unit := modify (fun s => set_held (L_intr :: held s) s).

Definition pop_off : K unit := fun s =>
  if decide (L_intr ∈ held s)
  then Ok tt (set_held (remove_lock L_intr (held s)) s)
  else Panic "pop_off".

Definition acquire (lk : lock) : K unit := fun s =>
  if decide (lk ∈ held s) then Panic "acquire"
  else Ok tt (set_held (lk :: held s) s).

Definition release (lk : lock) : K unit := fun s =>
  if decide (lk ∈ held s) then Ok tt (set_held (remove_lock lk (held s)) s)
  else Panic "release".

(** [myproc()] *)
Definition myproc : K (option nat) :=
  push_off ;;
  p ← gets cur;
  pop_off ;;
  mret p.

(** ** Access to the process table

    Dereferencing a pointer outside the table has no meaning in C. *)

Definition getp (i : nat) : K proc := fun s =>
  match procs s !! i with
  | Some p => Ok p s
  | None => Stuck "proc index out of range"
  end.

Definition setp (i : nat) (f : proc -> proc) : K unit := fun s =>
  match procs s !! i with
  | Some p => Ok tt (set_procs (<[i := f p]> (procs s)) s)
  | None => Stuck "proc index out of range"
  end.

(** The current process, where the code dereferences [myproc()]. *)
Definition curproc : K nat :=
  o ← myproc;
  match o with
  | Some i => mret i
  | None => stuck "myproc() is null"
  end.

(** The indices of [proc[0] .. proc[NPROC-1]]. *)
Definition all_procs : list nat := seq 0 (Z.to_nat NPROC).

#[global] Arguments acquire : simpl never.
#[global] Arguments release : simpl never.
#[global] Arguments push_off : simpl never.
#[global] Arguments pop_off : simpl never.
#[global] Arguments getp : simpl never.
#[global] Arguments setp : simpl never.
#[global] Arguments all_procs : simpl never.

(** ** The state before the first instruction of [main]

    Static storage is zero. *)

Definition zero_proc : proc :=
  mkProc UNUSED None 0 0 0 0 0 0 0 0 0 0 None 0 0 0 0 zero_context
    (replicate (Z.to_nat NOFILE) None) None (replicate 16 0).

Definition zero_buf : buf := mkBuf 0 0 0 (mkSleeplock 0 0) 0 (replicate 1024 0).
Definition zero_inode : inode :=
  mkInode 0 0 0 (mkSleeplock 0 0) 0 0 0 0 0 0 (replicate 13 0).
Definition zero_file : file := mkFile FD_NONE 0 0 0 0 None 0 0.
Definition zero_pipe : pipe := mkPipe (replicate 512 0) 0 0 0 0.

Definition boot : kernel :=
  mkKernel [] None (fun _ => 0) 0 (fun _ => 0)
    (replicate (Z.to_nat NPROC) zero_proc) 1 None 0
    (replicate (Z.to_nat NMMAPAREA) zero_area)
    (replicate (Z.to_nat NBUF) zero_buf) [] (fun _ => replicate 1024 0) []
    (mkLog 0 0 0 0 0 (replicate (Z.to_nat LOGBLOCKS) 0))
    (replicate (Z.to_nat NINODE) zero_inode) (mkSuperblock 0 0 0 0 0 0 0 0)
    (replicate (Z.to_nat NFILE) zero_file) (fun _ => zero_pipe)
    (mkConsole (replicate 128 0) 0 0 0) [] 0 (replicate (Z.to_nat NDEV) false) 0 1.

(** The state in which a run ends, [s] itself if it does not return. *)
Definition after {A} (m : K A) (s : kernel) : kernel :=
  match m s with Ok _ s' => s' | _ => s end.

(** A small machine, for evaluation: eight pages of memory after the kernel. *)
Definition small_layout : Layout := {|
  end_ := PHYSTOP - 8 * PGSIZE;
  etext := KERNBASE + 16 * PGSIZE;
  trampoline := KERNBASE + 15 * PGSIZE;
  forkret_pc := KERNBASE + 0x2000
|}.

Lemma small_layout_ok : LayoutOk small_layout.
Proof. split; vm_compute; repeat split; discriminate. Qed.

(** ** Reasoning about runs

    [returns o Q]: the run [o] comes back to its caller, without [panic], in a
    state and with a value that satisfy [Q]. *)

Definition returns {A} (o : outcome A) (Q : A -> kernel -> Prop) : Prop :=
  match o with
  | Ok a s => Q a s
  | _ => False
  end.

Definition panics {A} (o : outcome A) (msg : string) : Prop := o = Panic msg.

Lemma bind_run {A B} (f : A -> K B) (m : K A) s : mbind f m s = obind f (m s).
Proof. done. Qed.

Lemma bind_ok {A B} (f : A -> K B) (m : K A) s a s' :
  m s = Ok a s' -> mbind f m s = f a s'.
Proof. intros H. by rewrite bind_run, H. Qed.

Lemma bind_panic {A B} (f : A -> K B) (m : K A) s msg :
  m s = Panic msg -> mbind f m s = Panic msg.
Proof. intros H. by rewrite bind_run, H. Qed.

Lemma returns_bind {A B} (f : A -> K B) (m : K A) s Q :
  returns (m s) (fun a s' => returns (f a s') Q) -> returns (mbind f m s) Q.
Proof. rewrite bind_run. by destruct (m s). Qed.

Lemma returns_mono {A} (o : outcome A) (P Q : A -> kernel -> Prop) :
  returns o P -> (forall a s, P a s -> Q a s) -> returns o Q.
Proof. destruct o; simpl; auto. Qed.

Lemma returns_ok {A} (o : outcome A) Q :
  returns o Q <-> exists a s, o = Ok a s /\ Q a s.
Proof.
  split.
  - destruct o; simpl; try done. eauto.
  - intros (a & s & -> & H). done.
Qed.

Lemma after_ok {A} (m : K A) s Q :
  returns (m s) Q -> exists a, m s = Ok a (after m s) /\ Q a (after m s).
Proof. unfold after. destruct (m s); simpl; try done. eauto. Qed.

Lemma after_eq {A} (m : K A) s a s' : m s = Ok a s' -> m s = Ok a (after m s).
Proof. intros H. unfold after. by rewrite H. Qed.

(** A [for] loop over a table that leaves at the first entry with [test] and
    changes nothing at the others. *)
Lemma kfor_first {A R} (tbl : list A) (test : A -> bool) (body : nat -> unit -> K (unit + R)) s :
  (forall i a, tbl !! i = Some a -> test a = false -> body i tt s = Ok (inl tt) s) ->
  (forall i a, tbl !! i = Some a -> test a = true -> exists r s', body i tt s = Ok (inr r) s') ->
  kfor (seq 0 (length tbl)) body tt s =
    match list_find test tbl with Some (i, _) => body i tt s | None => Ok (inl tt) s end.
Proof.
  intros Hno Hyes.
  assert (H : forall tl pre, tbl = pre ++ tl -> kfor (seq (length pre) (length tl)) body tt s =
    match list_find test tl with Some (i, _) => body (length pre + i)%nat tt s | None => Ok (inl tt) s end);
    [|by apply (H tbl [])].
  induction tl as [|a tl IH]; intros pre Ht; [done|]. cbn [length seq kfor list_find].
  assert (Ha : tbl !! length pre = Some a) by (rewrite Ht, lookup_app_r, Nat.sub_diag by done; done).
  destruct (test a) eqn:E.
  - rewrite decide_True by done. destruct (Hyes _ _ Ha E) as (r & s' & H).
    rewrite (bind_ok _ _ _ _ _ H). by rewrite Nat.add_0_r, H.
  - rewrite decide_False by (by intros []). rewrite (bind_ok _ _ _ _ _ (Hno _ _ Ha E)).
    specialize (IH (pre ++ [a])). rewrite length_app in IH. cbn [length] in IH.
    rewrite Nat.add_1_r in IH. rewrite IH by by rewrite Ht, <- app_assoc.
    destruct (list_find test tl) as [[i b]|]; [|done]. cbn. by rewrite Nat.add_succ_r.
Qed.

Lemma ld64_run a s : ld64 a s = Ok (load64 (mem s) a) s.
Proof. done. Qed.

Lemma st64_run a v s : st64 a v s = Ok tt (set_mem (store64 (mem s) a v) s).
Proof. done. Qed.

Lemma kmemset_run d c n s : kmemset d c n s = Ok tt (set_mem (mem_fill (mem s) d n (u8 c)) s).
Proof. done. Qed.

Lemma kmemmove_run d a n s : kmemmove d a n s = Ok tt (set_mem (mem_copy (mem s) d a n) s).
Proof. done. Qed.

Lemma acquire_ok lk s :
  lk ∉ held s -> acquire lk s = Ok tt (set_held (lk :: held s) s).
Proof. intros. unfold acquire. by rewrite decide_False. Qed.

Lemma release_head lk h s :
  held s = lk :: h -> release lk s = Ok tt (set_held h s).
Proof.
  intros H. unfold release. rewrite decide_True by (rewrite H; set_solver).
  rewrite H. simpl. by rewrite decide_True.
Qed.

Lemma myproc_run s : myproc s = Ok (cur s) s.
Proof. by destruct s. Qed.

Lemma curproc_run s i : cur s = Some i -> curproc s = Ok i s.
Proof.
  intros H. unfold curproc. erewrite bind_ok by apply myproc_run. by rewrite H.
Qed.

Lemma getp_run s i p : procs s !! i = Some p -> getp i s = Ok p s.
Proof. intros H. unfold getp. by rewrite H. Qed.

Lemma setp_run s i f p :
  procs s !! i = Some p ->
  setp i f s = Ok tt (set_procs (<[i := f p]> (procs s)) s).
Proof. intros H. unfold setp. by rewrite H. Qed.

(** Runs of updates of one entry: the table stays in the form [<[i := q]> l]. *)
Lemma getp_ins s i q l :
  (i < length l)%nat -> getp i (set_procs (<[i := q]> l) s) = Ok q (set_procs (<[i := q]> l) s).
Proof. intros H. apply getp_run. cbn [procs set_procs]. by apply list_lookup_insert_eq. Qed.

Lemma setp_ins s i q l f :
  (i < length l)%nat ->
  setp i f (set_procs (<[i := q]> l) s) = Ok tt (set_procs (<[i := f q]> l) s).
Proof.
  intros H. rewrite (setp_run _ i f q) by (cbn [procs set_procs]; by apply list_lookup_insert_eq).
  cbn [procs set_procs]. by rewrite list_insert_insert_eq.
Qed.

Lemma set_held_id s : set_held (held s) s = s.
Proof. by destruct s. Qed.

Lemma set_procs_id s : set_procs (procs s) s = s.
Proof. by destruct s. Qed.

(** A loop that keeps an invariant on its prefix. *)
Lemma returns_kiter {I A} (l : list I) (body : I -> A -> K A)
    (P : list I -> A -> kernel -> Prop) :
  (forall done i todo a s, l = done ++ i :: todo ->
     P done a s -> returns (body i a s) (P (done ++ [i]))) ->
  forall a s, P [] a s -> returns (kiter l body a s) (P l).
Proof.
  intros Hstep.
  assert (Hgen : forall todo done, l = done ++ todo -> forall a s,
    P done a s -> returns (kiter todo body a s) (P l)).
  { induction todo as [|i todo IH]; intros done Hl a s Ha; simpl.
    - rewrite app_nil_r in Hl. by subst.
    - apply returns_bind.
      eapply returns_mono; [by eapply Hstep|].
      intros a' s' Ha'. eapply IH; [|done]. by rewrite <- app_assoc. }
  intros a s. by apply Hgen.
Qed.

Lemma returns_kfor {I A R} (l : list I) (body : I -> A -> K (A + R))
    (P : list I -> A -> kernel -> Prop) (Q : R -> kernel -> Prop) :
  (forall done i todo a s, l = done ++ i :: todo -> P done a s ->
     returns (body i a s) (fun x s' =>
       match x with inl a' => P (done ++ [i]) a' s' | inr r => Q r s' end)) ->
  forall a s, P [] a s ->
  returns (kfor l body a s) (fun x s' =>
    match x with inl a' => P l a' s' | inr r => Q r s' end).
Proof.
  intros Hstep.
  assert (Hgen : forall todo done, l = done ++ todo -> forall a s,
    P done a s -> returns (kfor todo body a s) (fun x s' =>
      match x with inl a' => P l a' s' | inr r => Q r s' end)).
  { induction todo as [|i todo IH]; intros done Hl a s Ha; simpl.
    - rewrite app_nil_r in Hl. by subst.
    - apply returns_bind. eapply returns_mono; [by eapply Hstep|].
      intros [a'|r] s' Ha'; [|done]. eapply IH; [|done]. by rewrite <- app_assoc. }
  intros a s. by apply Hgen.
Qed.

(** The tactics of the library for runs: [kstep] performs the first
    computation of a bind with a lemma about it. *)
Tactic Notation "kstep" uconstr(H) := rewrite (bind_ok _ _ _ _ _ H); cbv beta.

Ltac kunfold :=
  unfold mbind, K_bind, mret, K_ret, ld64, st64, kmemset, kmemmove,
    gets, modify, when, panic, stuck in *;
  cbn [obind] in *.

#[export] Hint Rewrite set_held_id set_procs_id : xv6_ints.
