(* ===== verification/Spinlock.v ===== *)
(** * Spin locks on several CPUs ([kernel/spinlock.c])

    The six functions of [spinlock.c] on the words they read and write: the
    [locked] and [cpu] fields of each lock, the [noff] and [intena] fields of
    each CPU and its interrupt-enable bit.  The CPUs run concurrently; the
    atomic steps of [acquire] and [release] are the transitions of a machine.
    The main result is that this machine implements the view of locks that
    the rest of the kernel uses ([acquire], [release], [push_off] and [pop_off]
    of [State.v] on the list [held]). *)

From S2P Require Import Prelude Riscv Mem State.
From stdpp Require Import functions.

#[local] Open Scope Z_scope.

(** [struct spinlock] and the part of [struct cpu] that the locks use; [sie]
    is the interrupt-enable bit of the CPU's [sstatus]. *)
Record spinlock : Type := mkSpinlock {
  locked : Z;
  lk_cpu : option nat
}.

Record cpu : Type := mkCpu {
  noff : Z;
  intena : bool;
  sie : bool
}.

Record machine : Type := mkMachine {
  cpus : nat -> cpu;
  locks : lock -> spinlock
}.

Definition set_cpu (c : nat) (x : cpu) (m : machine) : machine :=
  mkMachine (<[c := x]> (cpus m)) (locks m).
Definition set_lock (lk : lock) (x : spinlock) (m : machine) : machine :=
  mkMachine (cpus m) (<[lk := x]> (locks m)).

(** ** The functions, on CPU [c] *)

Definition initlock (lk : lock) (m : machine) : machine := set_lock lk (mkSpinlock 0 None) m.

Definition holding (c : nat) (lk : lock) (m : machine) : bool :=
  negb (locked (locks m lk) =? 0) && bool_decide (lk_cpu (locks m lk) = Some c).

Definition push_off (c : nat) (m : machine) : machine :=
  let x := cpus m c in
  let old := sie x in
  set_cpu c (mkCpu (noff x + 1) (if noff x =? 0 then old else intena x) false) m.

Definition pop_off (c : nat) (m : machine) : string + machine :=
  let x := cpus m c in
  if sie x then inl "pop_off - interruptible"%string
  else if noff x <? 1 then inl "pop_off"%string
  else
    let n := noff x - 1 in
    inr (set_cpu c (mkCpu n (intena x) ((n =? 0) && intena x)) m).

(** [__sync_lock_test_and_set(&lk->locked, 1)] and [lk->cpu = mycpu()]. *)
Definition test_and_set (lk : lock) (m : machine) : Z * machine :=
  (locked (locks m lk), set_lock lk (mkSpinlock 1 (lk_cpu (locks m lk))) m).
Definition set_owner (lk : lock) (o : option nat) (m : machine) : machine :=
  set_lock lk (mkSpinlock (locked (locks m lk)) o) m.
(** [__sync_lock_release(&lk->locked)] *)
Definition lock_release (lk : lock) (m : machine) : machine :=
  set_lock lk (mkSpinlock 0 (lk_cpu (locks m lk))) m.

(** [acquire] on a CPU that no other CPU disturbs; [None]: it spins for ever. *)
Definition acquire (c : nat) (lk : lock) (m : machine) : option (string + machine) :=
  let m := push_off c m in
  if holding c lk m then Some (inl "acquire"%string)
  else
    let '(old, m) := test_and_set lk m in
    if negb (old =? 0) then None
    else Some (inr (set_owner lk (Some c) m)).

Definition release (c : nat) (lk : lock) (m : machine) : string + machine :=
  if negb (holding c lk m) then inl "release"%string
  else pop_off c (lock_release lk (set_owner lk None m)).

(** ** The machine

    Where a CPU is: outside the functions, or between two atomic steps. *)
Inductive pc : Type :=
| P_idle
| P_check (lk : lock)       (* in [acquire], after [push_off] *)
| P_spin (lk : lock)        (* in the [while] *)
| P_won (lk : lock)         (* before [lk->cpu = mycpu()] *)
| P_clear (lk : lock)       (* in [release], after the test of [holding] *)
| P_unlock (lk : lock)      (* after [lk->cpu = 0] *)
| P_pop (lk : lock)         (* after the release of [locked] *)
| P_panic (msg : string).

(** [cs c]: the locks CPU [c] has acquired and not released, with one [L_intr]
    for each [push_off] of its own, latest first. *)
Record config : Type := mkConfig {
  mach : machine;
  pcs : nat -> pc;
  cs : nat -> list lock
}.

(** What a step means for the view of [State.v]: nothing, or a call of CPU [c]
    that is completed or panics. *)
Inductive event : Type :=
| Tau
| Done (c : nat) (op : K unit)
| Panicked (c : nat) (op : K unit) (msg : string).

Definition goto (c : nat) (p : pc) (m : machine) (x : config) : config :=
  mkConfig m (<[c := p]> (pcs x)) (cs x).
Definition finish (c : nat) (m : machine) (h : list lock) (x : config) : config :=
  mkConfig m (<[c := P_idle]> (pcs x)) (<[c := h]> (cs x)).

Inductive step : config -> event -> config -> Prop :=
| step_acquire x c lk :
    pcs x c = P_idle -> lk <> L_intr ->
    step x Tau (goto c (P_check lk) (push_off c (mach x)) x)
| step_check x c lk :
    pcs x c = P_check lk -> holding c lk (mach x) = false ->
    step x Tau (goto c (P_spin lk) (mach x) x)
| step_check_panic x c lk :
    pcs x c = P_check lk -> holding c lk (mach x) = true ->
    step x (Panicked c (State.acquire lk) "acquire") (goto c (P_panic "acquire") (mach x) x)
| step_spin x c lk m :
    pcs x c = P_spin lk -> (exists old, test_and_set lk (mach x) = (old, m) /\ old <> 0) ->
    step x Tau (goto c (P_spin lk) m x)
| step_win x c lk m :
    pcs x c = P_spin lk -> test_and_set lk (mach x) = (0, m) ->
    step x Tau (goto c (P_won lk) m x)
| step_owner x c lk :
    pcs x c = P_won lk ->
    step x (Done c (State.acquire lk)) (finish c (set_owner lk (Some c) (mach x)) (lk :: cs x c) x)
| step_release x c lk :
    pcs x c = P_idle -> lk <> L_intr -> holding c lk (mach x) = true ->
    step x Tau (goto c (P_clear lk) (mach x) x)
| step_release_panic x c lk :
    pcs x c = P_idle -> lk <> L_intr -> holding c lk (mach x) = false ->
    step x (Panicked c (State.release lk) "release") (goto c (P_panic "release") (mach x) x)
| step_clear x c lk :
    pcs x c = P_clear lk ->
    step x Tau (goto c (P_unlock lk) (set_owner lk None (mach x)) x)
| step_unlock x c lk :
    pcs x c = P_unlock lk ->
    step x Tau (goto c (P_pop lk) (lock_release lk (mach x)) x)
| step_pop x c lk m :
    pcs x c = P_pop lk -> pop_off c (mach x) = inr m ->
    step x (Done c (State.release lk)) (finish c m (remove_lock lk (cs x c)) x)
| step_pop_panic x c lk msg :
    pcs x c = P_pop lk -> pop_off c (mach x) = inl msg ->
    step x (Panicked c (State.release lk) msg) (goto c (P_panic msg) (mach x) x)
| step_push_off x c :
    pcs x c = P_idle ->
    step x (Done c State.push_off) (finish c (push_off c (mach x)) (L_intr :: cs x c) x)
(** [pop_off] calls match [push_off] calls. *)
| step_pop_off x c m :
    pcs x c = P_idle -> L_intr ∈ cs x c -> pop_off c (mach x) = inr m ->
    step x (Done c State.pop_off) (finish c m (remove_lock L_intr (cs x c)) x)
| step_pop_off_panic x c msg :
    pcs x c = P_idle -> L_intr ∈ cs x c -> pop_off c (mach x) = inl msg ->
    step x (Panicked c State.pop_off msg) (goto c (P_panic msg) (mach x) x)
(** [intr_on] and [intr_off] outside critical sections. *)
| step_intr x c b :
    pcs x c = P_idle -> cs x c = [] ->
    step x Tau (goto c P_idle (set_cpu c (mkCpu (noff (cpus (mach x) c)) (intena (cpus (mach x) c)) b) (mach x)) x).

(** Before [main]: static storage is zero, interrupts are off. *)
Definition start : config :=
  mkConfig (mkMachine (fun _ => mkCpu 0 false false) (fun _ => mkSpinlock 0 None))
    (fun _ => P_idle) (fun _ => []).

Inductive reachable : config -> Prop :=
| reach_start : reachable start
| reach_step x e y : reachable x -> step x e y -> reachable y.

(** ** The invariant *)

(** Calls in progress on a CPU: how many [push_off]s they account for, which
    lock they still own, and which lock still names the CPU. *)
Definition pending (p : pc) : Z :=
  match p with
  | P_check _ | P_spin _ | P_won _ => 1
  | _ => 0
  end.

(** A lock that a [release] in progress has not taken off [cs] yet. *)
Definition releasing (p : pc) : option lock :=
  match p with P_clear lk | P_unlock lk | P_pop lk => Some lk | _ => None end.

Definition owns (x : config) (c : nat) (lk : lock) : Prop :=
  match pcs x c with
  | P_won lk' => lk = lk' \/ lk ∈ cs x c
  | P_pop lk' => lk <> lk' /\ lk ∈ cs x c
  | _ => lk ∈ cs x c
  end.

Definition named (x : config) (c : nat) (lk : lock) : Prop :=
  match pcs x c with
  | P_unlock lk' | P_pop lk' => lk <> lk' /\ lk ∈ cs x c
  | _ => lk ∈ cs x c
  end.

Definition no_dup_locks (l : list lock) : Prop := NoDup (filter (fun lk => lk <> L_intr) l).

Record cpu_inv (x : config) (c : nat) : Prop := {
  ci_noff : (forall msg, pcs x c <> P_panic msg) ->
            noff (cpus (mach x) c) = Z.of_nat (length (cs x c)) + pending (pcs x c);
  ci_off : 0 < noff (cpus (mach x) c) -> sie (cpus (mach x) c) = false;
  ci_dup : no_dup_locks (cs x c);
  ci_rel : forall lk, releasing (pcs x c) = Some lk -> lk ∈ cs x c /\ lk <> L_intr;
  ci_acq : forall lk, pcs x c = P_check lk \/ pcs x c = P_spin lk \/ pcs x c = P_won lk ->
           lk <> L_intr;
  ci_new : forall lk, pcs x c = P_spin lk \/ pcs x c = P_won lk -> lk ∉ cs x c
}.

Definition lock_inv (x : config) (lk : lock) : Prop :=
  (forall c, lk_cpu (locks (mach x) lk) = Some c <-> named x c lk) /\
  ((locked (locks (mach x) lk) = 0 /\ forall c, ~ owns x c lk) \/
   (locked (locks (mach x) lk) = 1 /\ exists c, owns x c lk /\ forall d, owns x d lk -> d = c)).

Definition inv (x : config) : Prop :=
  (forall c, cpu_inv x c) /\ (forall lk, lk <> L_intr -> lock_inv x lk).

(** ** Removing a lock from the list *)

Lemma remove_lock_length lk l : lk ∈ l -> length l = S (length (remove_lock lk l)).
Proof.
  induction l as [|x l IH]; intros H; [by apply not_elem_of_nil in H|].
  simpl. case_decide as E; [done|].
  apply elem_of_cons in H as [->|H]; [done|]. simpl. by rewrite IH.
Qed.

Lemma remove_lock_incl lk lk' l : lk' ∈ remove_lock lk l -> lk' ∈ l.
Proof.
  induction l as [|x l IH]; simpl; [done|]. case_decide; rewrite !elem_of_cons; naive_solver.
Qed.

Lemma remove_lock_other lk lk' l : lk' <> lk -> lk' ∈ remove_lock lk l <-> lk' ∈ l.
Proof.
  intros Hne. split; [apply remove_lock_incl|].
  induction l as [|x l IH]; simpl; [done|]. case_decide; rewrite !elem_of_cons; naive_solver.
Qed.

Lemma no_dup_cons lk l :
  lk <> L_intr -> no_dup_locks (lk :: l) <-> (lk ∉ l) /\ no_dup_locks l.
Proof.
  intros Hn. unfold no_dup_locks. rewrite filter_cons_True by done.
  rewrite list.NoDup_cons, list_elem_of_filter. naive_solver.
Qed.

Lemma no_dup_intr l : no_dup_locks (L_intr :: l) <-> no_dup_locks l.
Proof. unfold no_dup_locks. rewrite filter_cons_False; naive_solver. Qed.

Lemma remove_lock_gone lk l : lk <> L_intr -> no_dup_locks l -> lk ∉ remove_lock lk l.
Proof.
  intros Hn. induction l as [|x l IH]; simpl; intros Hd.
  - apply not_elem_of_nil.
  - case_decide as E.
    + subst. by apply no_dup_cons in Hd as [].
    + rewrite elem_of_cons. intros [->|H]; [done|]. apply IH; [|done].
      destruct (decide (x = L_intr)) as [->|]; [by apply no_dup_intr in Hd|].
      by apply no_dup_cons in Hd as [].
Qed.

Lemma remove_lock_no_dup lk l : no_dup_locks l -> no_dup_locks (remove_lock lk l).
Proof.
  induction l as [|x l IH]; simpl; [done|]. intros Hd.
  destruct (decide (x = L_intr)) as [->|Hx].
  - apply no_dup_intr in Hd. case_decide; [done|]. by apply no_dup_intr, IH.
  - apply no_dup_cons in Hd as [Hin Hd]; [|done]. case_decide; [done|].
    apply no_dup_cons; [done|]. split; [|by apply IH].
    intros Hr. by apply remove_lock_incl in Hr.
Qed.

(** ** The invariant holds *)

Ltac at_cpu :=
  unfold goto, finish, push_off, set_cpu, set_lock, set_owner, lock_release in *;
  cbn [mach pcs cs cpus locks] in *.

Lemma pop_off_run c m :
  1 <= noff (cpus m c) -> sie (cpus m c) = false ->
  pop_off c m = inr (set_cpu c (mkCpu (noff (cpus m c) - 1) (intena (cpus m c))
                       ((noff (cpus m c) - 1 =? 0) && intena (cpus m c))) m).
Proof.
  intros Hn Hs. unfold pop_off. rewrite Hs.
  rewrite (proj2 (Z.ltb_ge _ _)) by lia. done.
Qed.

Lemma pop_off_inr c m m' :
  pop_off c m = inr m' ->
  1 <= noff (cpus m c) /\
  m' = set_cpu c (mkCpu (noff (cpus m c) - 1) (intena (cpus m c))
                       ((noff (cpus m c) - 1 =? 0) && intena (cpus m c))) m.
Proof.
  unfold pop_off. destruct (sie _); [done|]. destruct (Z.ltb_spec (noff (cpus m c)) 1); [done|].
  intros [= <-]. split; [lia|done].
Qed.

(** A CPU that holds a lock or is inside [release] has interrupts off, and
    [pop_off] does not panic there. *)
Lemma inv_can_pop x c lk :
  inv x -> lk ∈ cs x c -> (forall msg, pcs x c <> P_panic msg) -> 0 <= pending (pcs x c) ->
  forall msg, pop_off c (mach x) <> inl msg.
Proof.
  intros [Hc _] Hin Hp H0 msg. destruct (Hc c) as [Hn Ho _ _ _ _].
  specialize (Hn Hp). pose proof (remove_lock_length _ _ Hin).
  rewrite pop_off_run; [done|lia|apply Ho; lia].
Qed.

Lemma named_owns x c lk : named x c lk -> owns x c lk.
Proof. unfold named, owns. destruct (pcs x c); naive_solver. Qed.

Lemma holding_true x c lk :
  lock_inv x lk -> named x c lk -> holding c lk (mach x) = true.
Proof.
  intros [Hn Ho] Hc. unfold holding. rewrite (proj2 (Hn c) Hc).
  destruct Ho as [[_ Hno]|[-> _]].
  - destruct (Hno c). by apply named_owns.
  - by rewrite bool_decide_eq_true_2.
Qed.

Lemma holding_named x c lk :
  lock_inv x lk -> holding c lk (mach x) = true -> named x c lk.
Proof.
  intros [Hn _] H. unfold holding in H. apply andb_true_iff in H as [_ H].
  apply bool_decide_eq_true in H. by apply Hn.
Qed.

Lemma cpu_frame x y d :
  pcs y d = pcs x d -> cs y d = cs x d -> cpus (mach y) d = cpus (mach x) d ->
  cpu_inv x d -> cpu_inv y d.
Proof. intros Hp Hs Hm [? ? ? ? ? ?]. split; rewrite ?Hp, ?Hs, ?Hm; auto. Qed.

Lemma lock_frame x y lk :
  locks (mach y) lk = locks (mach x) lk ->
  (forall d, owns y d lk <-> owns x d lk) -> (forall d, named y d lk <-> named x d lk) ->
  lock_inv x lk -> lock_inv y lk.
Proof.
  intros Hl Ho Hn [Hi1 Hi2]. split; rewrite Hl.
  - intros d. by rewrite Hn.
  - destruct Hi2 as [[? Hi]|[? (c & Hc & Hu)]]; [left|right]; (split; [done|]).
    + intros d. by rewrite Ho.
    + exists c. rewrite Ho. split; [done|]. intros d. rewrite Ho. apply Hu.
Qed.

(** A step of CPU [c]: the other CPUs are as before. *)
Definition others (c : nat) (x y : config) : Prop :=
  forall d, d <> c -> pcs y d = pcs x d /\ cs y d = cs x d /\ cpus (mach y) d = cpus (mach x) d.

Lemma others_owns c x y d lk :
  others c x y -> d <> c -> (owns y d lk <-> owns x d lk) /\ (named y d lk <-> named x d lk).
Proof.
  intros Ho Hd. destruct (Ho d Hd) as (Hp & Hs & _).
  unfold owns, named. by rewrite Hp, Hs.
Qed.

Lemma inv_step c x y :
  inv x -> others c x y -> cpu_inv y c ->
  (forall lk, lk <> L_intr ->
     lock_inv y lk \/
     (locks (mach y) lk = locks (mach x) lk /\
      (owns y c lk <-> owns x c lk) /\ (named y c lk <-> named x c lk))) ->
  inv y.
Proof.
  intros [Hc Hl] Ho Hi Hk. split.
  - intros d. destruct (decide (d = c)) as [->|Hd]; [done|].
    destruct (Ho d Hd) as (? & ? & ?). by apply (cpu_frame x).
  - intros lk Hlk. destruct (Hk lk Hlk) as [?|(Heq & H1 & H2)]; [done|].
    apply (lock_frame x); [done| | |by apply Hl].
    + intros d. destruct (decide (d = c)) as [->|Hd]; [done|]. by apply (others_owns c).
    + intros d. destruct (decide (d = c)) as [->|Hd]; [done|]. by apply (others_owns c).
Qed.

Lemma others_goto c p m x :
  (forall d, d <> c -> cpus m d = cpus (mach x) d) -> others c x (goto c p m x).
Proof. intros H d Hd. unfold goto. cbn. by rewrite fn_lookup_insert_ne by done; auto. Qed.

Lemma others_finish c h m x :
  (forall d, d <> c -> cpus m d = cpus (mach x) d) -> others c x (finish c m h x).
Proof. intros H d Hd. unfold finish. cbn. by rewrite !fn_lookup_insert_ne by done; auto. Qed.
(** What a configuration has at the CPU that moved, and at a lock. *)
Lemma goto_at c p m x :
  pcs (goto c p m x) c = p /\ cs (goto c p m x) c = cs x c /\ mach (goto c p m x) = m.
Proof. unfold goto. cbn. by rewrite fn_lookup_insert. Qed.

Lemma finish_at c h m x :
  pcs (finish c m h x) c = P_idle /\ cs (finish c m h x) c = h /\ mach (finish c m h x) = m.
Proof. unfold finish. cbn. by rewrite !fn_lookup_insert. Qed.

Lemma cpus_set_cpu_ne c v m d : d <> c -> cpus (set_cpu c v m) d = cpus m d.
Proof. intros. unfold set_cpu. cbn. by rewrite fn_lookup_insert_ne by done. Qed.

Lemma cpus_set_cpu c v m : cpus (set_cpu c v m) c = v.
Proof. unfold set_cpu. cbn. by rewrite fn_lookup_insert. Qed.

Lemma locks_set_lock lk v m : locks (set_lock lk v m) lk = v.
Proof. unfold set_lock. cbn. by rewrite fn_lookup_insert. Qed.

Lemma locks_set_lock_ne lk v m lk' : lk' <> lk -> locks (set_lock lk v m) lk' = locks m lk'.
Proof. intros. unfold set_lock. cbn. by rewrite fn_lookup_insert_ne by done. Qed.

(** The lock that a step changes: who owns it and who is named, CPU by CPU. *)
Lemma lock_owned c x y lk :
  others c x y -> locked (locks (mach y) lk) = 1 -> owns y c lk ->
  (forall d, owns x d lk -> d = c) ->
  (forall d, lk_cpu (locks (mach y) lk) = Some d <-> named y d lk) -> lock_inv y lk.
Proof.
  intros Ho H1 Hc Hu Hn. split; [done|right]. split; [done|]. exists c. split; [done|].
  intros d Hd. destruct (decide (d = c)) as [|Hne]; [done|].
  apply Hu. by apply (others_owns c x y d lk).
Qed.

Lemma lock_unowned c x y lk :
  others c x y -> locked (locks (mach y) lk) = 0 -> ~ owns y c lk ->
  (forall d, owns x d lk -> d = c) -> lk_cpu (locks (mach y) lk) = None ->
  lock_inv y lk.
Proof.
  intros Ho H0 Hc Hu Hn.
  assert (Hno : forall d, ~ owns y d lk).
  { intros d Hd. destruct (decide (d = c)) as [->|Hne]; [done|].
    apply Hne, Hu. by apply (others_owns c x y d lk). }
  split; [|by left]. intros d. rewrite Hn. split; [done|].
  intros Hd%named_owns. by destruct (Hno d).
Qed.

Lemma owner_unique x lk c : lock_inv x lk -> owns x c lk ->
  locked (locks (mach x) lk) = 1 /\ forall d, owns x d lk -> d = c.
Proof.
  intros [_ [[_ Hno]|[H1 (e & He & Hu)]]] Hc; [by destruct (Hno c)|].
  split; [done|]. intros d Hd. by rewrite (Hu c Hc), (Hu d Hd).
Qed.

(** Steps that change no lock: the two lists of locks stay as they are. *)
Lemma inv_quiet c x y :
  inv x -> others c x y -> cpu_inv y c -> (forall lk, locks (mach y) lk = locks (mach x) lk) ->
  (forall lk, lk <> L_intr -> (owns y c lk <-> owns x c lk) /\ (named y c lk <-> named x c lk)) ->
  inv y.
Proof. intros Hi Ho Hc Hl Hk. apply (inv_step c x); auto. Qed.

Ltac at_goto c p m x :=
  destruct (goto_at c p m x) as (Hgp & Hgs & Hgm).

(** The panics leave everything but the program counter. *)
Lemma inv_goto_same c p x :
  inv x -> pending p = pending (pcs x c) \/ (exists msg, p = P_panic msg) ->
  (forall lk, releasing p = Some lk -> lk ∈ cs x c /\ lk <> L_intr) ->
  (forall lk, p = P_check lk \/ p = P_spin lk \/ p = P_won lk ->
     lk <> L_intr /\ (p <> P_check lk -> lk ∉ cs x c)) ->
  (forall msg, pcs x c <> P_panic msg) ->
  (forall lk, owns (goto c p (mach x) x) c lk <-> owns x c lk) ->
  (forall lk, named (goto c p (mach x) x) c lk <-> named x c lk) ->
  inv (goto c p (mach x) x).
Proof.
  intros Hi Hp Hr Ha Hnp Ho Hn. apply (inv_quiet c x); [done| | |done|by auto].
  - by apply others_goto.
  - destruct Hi as [Hc _]. destruct (Hc c) as [H1 H2 H3 H4 H5 H6]. at_goto c p (mach x) x.
    split; rewrite ?Hgp, ?Hgs, ?Hgm; [|done|done| | |].
    + intros Hq. destruct Hp as [->|[msg ->]]; [auto|by destruct (Hq msg)].
    + auto.
    + intros lk E. by apply Ha.
    + intros lk E. apply (Ha lk); naive_solver.
Qed.

Lemma idle_cpu_inv y c :
  pcs y c = P_idle -> noff (cpus (mach y) c) = Z.of_nat (length (cs y c)) ->
  (0 < noff (cpus (mach y) c) -> sie (cpus (mach y) c) = false) -> no_dup_locks (cs y c) ->
  cpu_inv y c.
Proof.
  intros Hp Hn Ho Hd. split; rewrite ?Hp; cbn; try done.
  - intros _. lia.
  - intros lk [H|[H|H]]; discriminate.
  - intros lk [H|H]; discriminate.
Qed.

Lemma inv_acquire c lk x :
  inv x -> pcs x c = P_idle -> lk <> L_intr ->
  inv (goto c (P_check lk) (push_off c (mach x)) x).
Proof.
  intros Hi Hp Hlk. at_goto c (P_check lk) (push_off c (mach x)) x.
  apply (inv_quiet c x); [done| | |done|].
  - apply others_goto. intros d Hd. by apply cpus_set_cpu_ne.
  - destruct Hi as [Hc _]. destruct (Hc c) as [H1 H2 H3 H4 H5 H6]. rewrite Hp in *.
    split; rewrite ?Hgp, ?Hgs, ?Hgm; unfold push_off; rewrite ?cpus_set_cpu; cbn; try done.
    + intros _. rewrite H1 by done. cbn. lia.
    + intros lk' [[= <-]|[H|H]]; done.
    + intros lk' [H|H]; done.
  - intros lk' _. unfold owns, named. by rewrite Hgp, Hgs, Hp.
Qed.

Lemma inv_intr c b x :
  inv x -> pcs x c = P_idle -> cs x c = [] ->
  inv (goto c P_idle (set_cpu c (mkCpu (noff (cpus (mach x) c)) (intena (cpus (mach x) c)) b) (mach x)) x).
Proof.
  intros Hi Hp Hs.
  at_goto c P_idle (set_cpu c (mkCpu (noff (cpus (mach x) c)) (intena (cpus (mach x) c)) b) (mach x)) x.
  apply (inv_quiet c x); [done| | |done|].
  - apply others_goto. intros d Hd. by apply cpus_set_cpu_ne.
  - destruct Hi as [Hc _]. destruct (Hc c) as [H1 H2 H3 H4 H5 H6]. rewrite Hp, Hs in *.
    specialize (H1 ltac:(done)). cbn in H1.
    apply idle_cpu_inv; rewrite ?Hgs, ?Hgm, ?cpus_set_cpu; cbn; rewrite ?Hs; try done; lia.
  - intros lk' _. unfold owns, named. by rewrite Hgp, Hgs, Hp.
Qed.

Lemma inv_push_off c x :
  inv x -> pcs x c = P_idle ->
  inv (finish c (push_off c (mach x)) (L_intr :: cs x c) x).
Proof.
  intros Hi Hp.
  destruct (finish_at c (L_intr :: cs x c) (push_off c (mach x)) x) as (Hgp & Hgs & Hgm).
  apply (inv_quiet c x); [done| | |done|].
  - apply others_finish. intros d Hd. by apply cpus_set_cpu_ne.
  - destruct Hi as [Hc _]. destruct (Hc c) as [H1 H2 H3 H4 H5 H6]. rewrite Hp in *.
    specialize (H1 ltac:(done)). cbn in H1.
    apply idle_cpu_inv; rewrite ?Hgs, ?Hgm; unfold push_off; rewrite ?cpus_set_cpu; cbn; try done; lia.
  - intros lk' Hlk. unfold owns, named. rewrite Hgp, Hgs, Hp. rewrite elem_of_cons. naive_solver.
Qed.

(** The end of [release] and [pop_off]: one level less. *)
Lemma inv_popped c lk m x :
  inv x -> pcs x c = P_idle /\ lk = L_intr \/ pcs x c = P_pop lk -> lk ∈ cs x c ->
  pop_off c (mach x) = inr m -> inv (finish c m (remove_lock lk (cs x c)) x).
Proof.
  intros Hi Hp Hin [Hn ->]%pop_off_inr.
  match goal with |- inv (finish c ?m ?h x) => destruct (finish_at c h m x) as (Hgp & Hgs & Hgm) end.
  pose proof (remove_lock_length _ _ Hin) as Hlen.
  destruct Hi as [Hc Hl]. destruct (Hc c) as [H1 H2 H3 H4 H5 H6].
  apply (inv_quiet c x); [by split| | |done|].
  - apply others_finish. intros d Hd. by apply cpus_set_cpu_ne.
  - specialize (H1 ltac:(destruct Hp as [[-> _]|Hp]; [done|by rewrite Hp])).
    assert (pending (pcs x c) = 0) as Hp0 by (destruct Hp as [[-> _]|Hp]; [done|by rewrite Hp]).
    apply idle_cpu_inv; rewrite ?Hgs, ?Hgm, ?cpus_set_cpu; cbn; try done.
    + lia.
    + intros Hpos. by rewrite (proj2 (Z.eqb_neq _ _)) by lia.
    + by apply remove_lock_no_dup.
  - intros lk' Hlk. unfold owns, named. rewrite Hgp, Hgs.
    destruct (decide (lk' = lk)) as [->|Hne].
    + destruct Hp as [[_ ->]|Hp]; [done|]. rewrite Hp.
      pose proof (remove_lock_gone lk (cs x c) Hlk H3). naive_solver.
    + rewrite remove_lock_other by done. destruct Hp as [[Hp _]|Hp]; rewrite Hp; naive_solver.
Qed.

(** The steps that write the word [locked] or [cpu] of a lock: the CPU's own
    state is that of [inv_goto_same]. *)
Lemma goto_cpu_inv c p m x :
  inv x -> (forall d, cpus m d = cpus (mach x) d) -> pending p = pending (pcs x c) ->
  (forall msg, pcs x c <> P_panic msg) ->
  (forall lk, releasing p = Some lk -> lk ∈ cs x c /\ lk <> L_intr) ->
  (forall lk, p = P_check lk \/ p = P_spin lk \/ p = P_won lk -> lk <> L_intr /\ (lk ∉ cs x c)) ->
  cpu_inv (goto c p m x) c.
Proof.
  intros [Hc _] Hm Hp Hnp Hr Ha. destruct (Hc c) as [H1 H2 H3 H4 H5 H6]. at_goto c p m x.
  split; rewrite ?Hgp, ?Hgs, ?Hgm, ?Hm; [|done|done|done| |].
  - intros _. rewrite Hp. auto.
  - intros lk E. by apply Ha.
  - intros lk E. apply (Ha lk). tauto.
Qed.

Lemma inv_spin c lk old m x :
  inv x -> pcs x c = P_spin lk -> test_and_set lk (mach x) = (old, m) -> old <> 0 ->
  inv (goto c (P_spin lk) m x).
Proof.
  intros Hi Hp [= <- <-] Hold. pose proof Hi as [Hc Hl].
  pose proof (ci_acq _ _ (Hc c) lk ltac:(auto)) as Hlk.
  pose proof (ci_new _ _ (Hc c) lk ltac:(auto)) as Hnew.
  match goal with |- inv (goto c ?p ?m x) => at_goto c p m x end.
  apply (inv_quiet c x); [done| | | |].
  - by apply others_goto.
  - apply goto_cpu_inv; [done|done|by rewrite Hp|by rewrite Hp|done|]. naive_solver.
  - intros lk'. rewrite Hgm. destruct (decide (lk' = lk)) as [->|Hne].
    + rewrite locks_set_lock. destruct (Hl lk Hlk) as [_ [[H0 _]|[H1 _]]]; [done|].
      destruct (locks (mach x) lk). cbn in *. by rewrite H1.
    + by rewrite locks_set_lock_ne.
  - intros lk' _. unfold owns, named. by rewrite Hgp, Hgs, Hp.
Qed.

Lemma inv_win c lk m x :
  inv x -> pcs x c = P_spin lk -> test_and_set lk (mach x) = (0, m) ->
  inv (goto c (P_won lk) m x).
Proof.
  intros Hi Hp Heq. unfold test_and_set in Heq. injection Heq as H0 <-. pose proof Hi as [Hc Hl].
  pose proof (ci_acq _ _ (Hc c) lk ltac:(auto)) as Hlk.
  pose proof (ci_new _ _ (Hc c) lk ltac:(auto)) as Hnew.
  match goal with |- inv (goto c ?p ?m x) => at_goto c p m x; set (y := goto c p m x) in * end.
  assert (Ho : others c x y) by (by apply others_goto).
  apply (inv_step c x); [done|done| |].
  - apply goto_cpu_inv; [done|done|by rewrite Hp|by rewrite Hp|done|]. naive_solver.
  - intros lk' _. destruct (decide (lk' = lk)) as [->|Hne].
    + left. destruct (Hl lk Hlk) as [Hn [[_ Hno]|[H1 _]]]; [|congruence].
      apply (lock_owned c x); [done| | | |].
      * by rewrite Hgm, locks_set_lock.
      * unfold owns. rewrite Hgp. by left.
      * intros d Hd. by destruct (Hno d).
      * intros d. rewrite Hgm, locks_set_lock. cbn. rewrite Hn.
        destruct (decide (d = c)) as [->|Hd].
        -- unfold named. by rewrite Hgp, Hgs, Hp.
        -- symmetry. by apply (others_owns c).
    + right. rewrite Hgm, locks_set_lock_ne by done. split; [done|].
      unfold owns, named. rewrite Hgp, Hgs, Hp. naive_solver.
Qed.

Lemma inv_owner c lk x :
  inv x -> pcs x c = P_won lk ->
  inv (finish c (set_owner lk (Some c) (mach x)) (lk :: cs x c) x).
Proof.
  intros Hi Hp. pose proof Hi as [Hc Hl].
  pose proof (ci_acq _ _ (Hc c) lk ltac:(auto)) as Hlk.
  pose proof (ci_new _ _ (Hc c) lk ltac:(auto)) as Hnew.
  match goal with |- inv (finish c ?m ?h x) =>
    destruct (finish_at c h m x) as (Hgp & Hgs & Hgm); set (y := finish c m h x) in * end.
  assert (Ho : others c x y) by (by apply others_finish).
  assert (Hown : owns x c lk) by (unfold owns; rewrite Hp; by left).
  destruct (owner_unique x lk c (Hl lk Hlk) Hown) as [H1 Hu].
  apply (inv_step c x); [done|done| |].
  - destruct (Hc c) as [Hn Hoff Hd _ _ _]. specialize (Hn ltac:(by rewrite Hp)). rewrite Hp in Hn.
    apply idle_cpu_inv; rewrite ?Hgs, ?Hgm; cbn in *; [done|lia|done|by apply no_dup_cons].
  - intros lk' Hlk'. unfold set_owner in Hgm. destruct (decide (lk' = lk)) as [->|Hne].
    + left. apply (lock_owned c x); [done| | |done|].
      * by rewrite Hgm, locks_set_lock.
      * unfold owns. rewrite Hgp, Hgs. apply elem_of_cons. by left.
      * intros d. rewrite Hgm, locks_set_lock. cbn. destruct (decide (d = c)) as [->|Hd].
        -- unfold named. rewrite Hgp, Hgs, elem_of_cons. naive_solver.
        -- split; [congruence|]. intros Hnd.
           apply (others_owns c x y d lk Ho Hd) in Hnd. destruct Hd. by apply Hu, named_owns.
    + right. rewrite Hgm, locks_set_lock_ne by done. split; [done|].
      unfold owns, named. rewrite Hgp, Hgs, Hp, elem_of_cons. naive_solver.
Qed.

Lemma inv_clear c lk x :
  inv x -> pcs x c = P_clear lk -> inv (goto c (P_unlock lk) (set_owner lk None (mach x)) x).
Proof.
  intros Hi Hp. pose proof Hi as [Hc Hl].
  destruct (ci_rel _ _ (Hc c) lk ltac:(by rewrite Hp)) as [Hin Hlk].
  match goal with |- inv (goto c ?p ?m x) => at_goto c p m x; set (y := goto c p m x) in * end.
  assert (Ho : others c x y) by (by apply others_goto).
  assert (Hown : owns x c lk) by (unfold owns; by rewrite Hp).
  destruct (owner_unique x lk c (Hl lk Hlk) Hown) as [H1 Hu].
  apply (inv_step c x); [done|done| |].
  - apply goto_cpu_inv; [done|done|by rewrite Hp|by rewrite Hp| |]; naive_solver.
  - intros lk' _. unfold set_owner in Hgm. destruct (decide (lk' = lk)) as [->|Hne].
    + left. apply (lock_owned c x); [done| | |done|].
      * by rewrite Hgm, locks_set_lock.
      * unfold owns. by rewrite Hgp, Hgs.
      * intros d. rewrite Hgm, locks_set_lock. cbn. split; [done|]. intros Hnd.
        destruct (decide (d = c)) as [->|Hd].
        -- unfold named in Hnd. rewrite Hgp in Hnd. by destruct Hnd.
        -- apply (others_owns c x y d lk Ho Hd) in Hnd. destruct Hd. by apply Hu, named_owns.
    + right. rewrite Hgm, locks_set_lock_ne by done. split; [done|].
      unfold owns, named. rewrite Hgp, Hgs, Hp. naive_solver.
Qed.

Lemma inv_unlock c lk x :
  inv x -> pcs x c = P_unlock lk -> inv (goto c (P_pop lk) (lock_release lk (mach x)) x).
Proof.
  intros Hi Hp. pose proof Hi as [Hc Hl].
  destruct (ci_rel _ _ (Hc c) lk ltac:(by rewrite Hp)) as [Hin Hlk].
  match goal with |- inv (goto c ?p ?m x) => at_goto c p m x; set (y := goto c p m x) in * end.
  assert (Ho : others c x y) by (by apply others_goto).
  assert (Hown : owns x c lk) by (unfold owns; by rewrite Hp).
  destruct (owner_unique x lk c (Hl lk Hlk) Hown) as [H1 Hu].
  apply (inv_step c x); [done|done| |].
  - apply goto_cpu_inv; [done|done|by rewrite Hp|by rewrite Hp| |]; naive_solver.
  - intros lk' _. unfold lock_release in Hgm. destruct (decide (lk' = lk)) as [->|Hne].
    + left. apply (lock_unowned c x); [done| | |done|].
      * by rewrite Hgm, locks_set_lock.
      * unfold owns. rewrite Hgp. by intros [].
      * rewrite Hgm, locks_set_lock. cbn. destruct (Hl lk Hlk) as [Hn _].
        destruct (lk_cpu _) as [d|]; [|done]. pose proof (proj1 (Hn d) eq_refl) as E.
        pose proof (Hu d (named_owns _ _ _ E)) as ->. unfold named in E. rewrite Hp in E. by destruct E.
    + right. rewrite Hgm, locks_set_lock_ne by done. split; [done|].
      unfold owns, named. rewrite Hgp, Hgs, Hp. naive_solver.
Qed.

Lemma step_inv x e y : inv x -> step x e y -> inv y.
Proof.
  intros Hi Hs. pose proof Hi as [Hc Hl]. destruct Hs as
    [x c lk Hp Hlk|x c lk Hp Hh|x c lk Hp Hh|x c lk m Hp (old & Heq & Hold)|x c lk m Hp Heq|x c lk Hp
    |x c lk Hp Hlk Hh|x c lk Hp Hlk Hh|x c lk Hp|x c lk Hp|x c lk m Hp Heq|x c lk msg Hp Heq
    |x c Hp|x c m Hp Hin Heq|x c msg Hp Hin Heq|x c b Hp Hnil].
  - by apply inv_acquire.
  - pose proof (ci_acq _ _ (Hc c) lk ltac:(auto)) as Hlk.
    assert (lk ∉ cs x c) as Hnew.
    { intros Hin. pose proof (holding_true x c lk (Hl lk Hlk)) as Ht.
      unfold named in Ht. rewrite Hp in Ht. rewrite Ht in Hh; done. }
    destruct (goto_at c (P_spin lk) (mach x) x) as (Hgp & Hgs & Hgm).
    apply inv_goto_same; rewrite ?Hp; [done|by left|done|naive_solver|done| |];
      intros lk'; unfold owns, named; by rewrite Hgp, Hgs, Hp.
  - destruct (goto_at c (P_panic "acquire") (mach x) x) as (Hgp & Hgs & Hgm).
    apply inv_goto_same; rewrite ?Hp; [done|right; eauto|done|naive_solver|done| |];
      intros lk'; unfold owns, named; by rewrite Hgp, Hgs, Hp.
  - by eapply inv_spin.
  - by apply inv_win.
  - by apply inv_owner.
  - destruct (goto_at c (P_clear lk) (mach x) x) as (Hgp & Hgs & Hgm).
    pose proof (holding_named x c lk (Hl lk Hlk) Hh) as Hin. unfold named in Hin. rewrite Hp in Hin.
    apply inv_goto_same; rewrite ?Hp; [done|by left|naive_solver|naive_solver|done| |];
      intros lk'; unfold owns, named; by rewrite Hgp, Hgs, Hp.
  - destruct (goto_at c (P_panic "release") (mach x) x) as (Hgp & Hgs & Hgm).
    apply inv_goto_same; rewrite ?Hp; [done|right; eauto|done|naive_solver|done| |];
      intros lk'; unfold owns, named; by rewrite Hgp, Hgs, Hp.
  - by apply inv_clear.
  - by apply inv_unlock.
  - destruct (ci_rel _ _ (Hc c) lk ltac:(by rewrite Hp)) as [Hin _].
    apply inv_popped; auto.
  - destruct (ci_rel _ _ (Hc c) lk ltac:(by rewrite Hp)) as [Hin _].
    exfalso. by apply (inv_can_pop x c lk Hi Hin ltac:(by rewrite Hp) ltac:(by rewrite Hp) msg).
  - by apply inv_push_off.
  - apply inv_popped; auto.
  - exfalso. by apply (inv_can_pop x c L_intr Hi Hin ltac:(by rewrite Hp) ltac:(by rewrite Hp) msg).
  - by apply inv_intr.
Qed.

Lemma reachable_inv x : reachable x -> inv x.
Proof.
  induction 1 as [|x e y _ IH Hs]; [|by eapply step_inv].
  split.
  - intros c. apply idle_cpu_inv; try done. cbn. constructor.
  - intros lk _. split; [intros c; unfold named; cbn|left; split; [done|intros c; unfold owns; cbn]].
    + split; [done|]. intros H. by apply not_elem_of_nil in H.
    + apply not_elem_of_nil.
Qed.

(** ** What the locks guarantee *)

(** CPU [c] has returned from [acquire(lk)] and has not called [release(lk)]. *)
Definition in_critical (x : config) (c : nat) (lk : lock) : Prop :=
  lk ∈ cs x c /\ releasing (pcs x c) <> Some lk.

Lemma in_critical_owns x c lk : in_critical x c lk -> owns x c lk.
Proof.
  intros [Hin Hr]. unfold owns. destruct (pcs x c); try done; [by right|].
  split; [|done]. intros ->. by apply Hr.
Qed.

(** A lock that nobody owns, or that CPU [c] owns. *)
Lemma idle_holding x c lk :
  inv x -> lk <> L_intr -> pcs x c = P_idle ->
  holding c lk (mach x) = bool_decide (lk ∈ cs x c).
Proof.
  intros [_ Hl] Hlk Hp. specialize (Hl lk Hlk).
  destruct (bool_decide_reflect (lk ∈ cs x c)) as [Hin|Hin].
  - apply (holding_true x c lk Hl). unfold named. by rewrite Hp.
  - destruct (holding c lk (mach x)) eqn:E; [|done].
    apply (holding_named x c lk Hl) in E. unfold named in E. by rewrite Hp in E.
Qed.

(** [push_off] does not touch the locks. *)
Lemma holding_push_off c d lk m : holding d lk (push_off c m) = holding d lk m.
Proof. done. Qed.

(** C20. Mutual exclusion: of all the CPUs, at most one is between its
    [acquire(lk)] and its [release(lk)], in every state the CPUs can reach by
    interleaving the atomic steps of these functions; and a CPU that holds a
    lock runs with interrupts disabled. *)
Theorem spin_mutual_exclusion x lk c d :
  reachable x -> lk <> L_intr -> in_critical x c lk -> in_critical x d lk ->
  c = d /\ ((forall msg, pcs x c <> P_panic msg) -> sie (cpus (mach x) c) = false).
Proof.
  intros Hr Hlk H1 H2. pose proof (reachable_inv x Hr) as Hi. pose proof Hi as [Hc Hl]. split.
  - destruct (owner_unique x lk d (Hl lk Hlk) (in_critical_owns _ _ _ H2)) as [_ Hu].
    by apply Hu, in_critical_owns.
  - intros Hp. destruct (Hc c) as [Hn Ho _ _ _ _]. apply Ho. rewrite Hn by done.
    destruct H1 as [Hin _]. pose proof (remove_lock_length _ _ Hin).
    destruct (pcs x c); cbn; lia.
Qed.

(** C5. The functions of [spinlock.c], run concurrently on all CPUs, implement
    the locks that the rest of the model uses: whenever a call is completed on
    CPU [c], the same call of [State.v] on the list of locks that [c] holds
    succeeds and gives the new list, and when [acquire] or [release] panics, so does that call,
    with the same message ([pop_off] runs only inside a section that [push_off] opened); nothing else changes any CPU's list. *)
Theorem spin_refines_held x e y :
  reachable x -> step x e y ->
  match e with
  | Tau => forall c, cs y c = cs x c
  | Done c op =>
      (forall s, held s = cs x c -> op s = Ok tt (set_held (cs y c) s)) /\
      (forall d, d <> c -> cs y d = cs x d)
  | Panicked c op msg =>
      (forall s, held s = cs x c -> op s = Panic msg) /\ (forall d, cs y d = cs x d)
  end.
Proof.
  intros Hr Hs. pose proof (reachable_inv x Hr) as Hi. pose proof Hi as [Hc Hl].
  assert (Hfin : forall c m h d, d <> c -> cs (finish c m h x) d = cs x d).
  { intros c m h d Hd. unfold finish. cbn. by rewrite fn_lookup_insert_ne. }
  destruct Hs as
    [x c lk Hp Hlk|x c lk Hp Hh|x c lk Hp Hh|x c lk m Hp _|x c lk m Hp Heq|x c lk Hp
    |x c lk Hp Hlk Hh|x c lk Hp Hlk Hh|x c lk Hp|x c lk Hp|x c lk m Hp Heq|x c lk msg Hp Heq
    |x c Hp|x c m Hp Hin Heq|x c msg Hp Hin Heq|x c b Hp Hnil]; try done.
  - split; [|done]. intros s Hs. unfold State.acquire. rewrite decide_True; [done|].
    pose proof (ci_acq _ _ (Hc c) lk ltac:(auto)) as Hlk.
    apply (holding_named x c lk (Hl lk Hlk)) in Hh. unfold named in Hh. rewrite Hp in Hh. by rewrite Hs.
  - split; [|auto]. intros s Hs. destruct (finish_at c (lk :: cs x c) (set_owner lk (Some c) (mach x)) x)
      as (_ & -> & _). rewrite <- Hs. apply acquire_ok. rewrite Hs.
    apply (ci_new _ _ (Hc c)). auto.
  - split; [|done]. intros s Hs. unfold State.release. rewrite decide_False; [done|].
    rewrite Hs. rewrite (idle_holding x c lk Hi Hlk Hp) in Hh. by apply bool_decide_eq_false in Hh.
  - destruct (ci_rel _ _ (Hc c) lk ltac:(by rewrite Hp)) as [Hin _].
    split; [|auto]. intros s Hs. destruct (finish_at c (remove_lock lk (cs x c)) m x) as (_ & -> & _).
    unfold State.release. by rewrite decide_True, Hs by (by rewrite Hs).
  - destruct (ci_rel _ _ (Hc c) lk ltac:(by rewrite Hp)) as [Hin _].
    exfalso. by apply (inv_can_pop x c lk Hi Hin ltac:(by rewrite Hp) ltac:(by rewrite Hp) msg).
  - split; [|auto]. intros s Hs. destruct (finish_at c (L_intr :: cs x c) (push_off c (mach x)) x)
      as (_ & -> & _). by rewrite <- Hs.
  - split; [|auto]. intros s Hs. destruct (finish_at c (remove_lock L_intr (cs x c)) m x) as (_ & -> & _).
    unfold State.pop_off. by rewrite decide_True, Hs by (by rewrite Hs).
  - exfalso. by apply (inv_can_pop x c L_intr Hi Hin ltac:(by rewrite Hp) ltac:(by rewrite Hp) msg).
Qed.

(** ** The functions as wholes *)

Lemma acquire_free x c lk :
  inv x -> pcs x c = P_idle -> lk <> L_intr -> locked (locks (mach x) lk) = 0 ->
  acquire c lk (mach x) =
    Some (inr (set_owner lk (Some c) (test_and_set lk (push_off c (mach x))).2)).
Proof.
  intros Hi Hp Hlk H0. unfold acquire. rewrite holding_push_off.
  unfold holding at 1. rewrite H0. cbn. by rewrite H0.
Qed.

(** [acquire] called on CPU [c] while the other CPUs stand still: it panics
    if [c] holds the lock already, spins if another CPU owns it, and otherwise
    returns with the lock held by [c], one more level of disabled interrupts
    and every other lock as it was. *)
Theorem spin_acquire_spec x c lk :
  reachable x -> pcs x c = P_idle -> lk <> L_intr ->
  match acquire c lk (mach x) with
  | Some (inl msg) => msg = "acquire"%string /\ lk ∈ cs x c
  | None => exists d, d <> c /\ owns x d lk
  | Some (inr m) =>
      (forall d, ~ owns x d lk) /\ holding c lk m = true /\
      noff (cpus m c) = Z.of_nat (length (cs x c)) + 1 /\ sie (cpus m c) = false /\
      (forall lk', lk' <> lk -> locks m lk' = locks (mach x) lk')
  end.
Proof.
  intros Hr Hp Hlk. pose proof (reachable_inv x Hr) as Hi. pose proof Hi as [Hc Hl].
  destruct (Hl lk Hlk) as [Hn [[H0 Hno]|[H1 (d & Hd & Hu)]]].
  - rewrite (acquire_free x c lk) by done. unfold test_and_set, set_owner. cbn [snd].
    split_and!; [done| | |by unfold push_off; cbn; rewrite fn_lookup_insert|].
    + unfold holding. rewrite locks_set_lock. cbn. rewrite fn_lookup_insert. cbn.
      by rewrite bool_decide_eq_true_2.
    + destruct (Hc c) as [Hno' _ _ _ _ _]. specialize (Hno' ltac:(by rewrite Hp)). rewrite Hp in Hno'.
      unfold push_off. cbn in *. rewrite fn_lookup_insert. cbn. lia.
    + intros lk' Hne. by rewrite !locks_set_lock_ne by done.
  - unfold acquire. rewrite holding_push_off, (idle_holding x c lk Hi Hlk Hp).
    case_bool_decide as Hin; [done|]. cbn. rewrite H1. cbn. exists d. split; [|done].
    intros ->. unfold owns in Hd. by rewrite Hp in Hd.
Qed.

(** [n] calls of [push_off], then [n] calls of [pop_off]. *)
Fixpoint pops (n : nat) (c : nat) (m : machine) : string + machine :=
  match n with
  | O => inr m
  | S k => match pop_off c m with inl msg => inl msg | inr m' => pops k c m' end
  end.

Lemma pushed n c m :
  0 <= noff (cpus m c) -> (0 < noff (cpus m c) -> sie (cpus m c) = false) ->
  let x := cpus (Nat.iter n (push_off c) m) c in
  noff x = noff (cpus m c) + Z.of_nat n /\
  (n <> O -> sie x = false) /\ (n = O -> x = cpus m c) /\
  (n <> O -> intena x = if noff (cpus m c) =? 0 then sie (cpus m c) else intena (cpus m c)).
Proof.
  intros H0 Hs. induction n as [|n (IH1 & IH2 & IH3 & IH4)].
  - cbn. split_and!; [lia|done|done|done].
  - change (Nat.iter (S n) (push_off c) m) with (push_off c (Nat.iter n (push_off c) m)).
    set (y := Nat.iter n (push_off c) m) in *. unfold push_off. rewrite cpus_set_cpu. cbn.
    split_and!; [lia|done|done|]. intros _. rewrite IH1.
    destruct n as [|n].
    + rewrite IH3 by done. by rewrite Z.add_0_r.
    + rewrite (proj2 (Z.eqb_neq (noff (cpus m c) + Z.of_nat (S n)) 0)) by lia. by apply IH4.
Qed.

Lemma popped n c m :
  Z.of_nat n <= noff (cpus m c) -> (0 < noff (cpus m c) -> sie (cpus m c) = false) ->
  exists m', pops n c m = inr m' /\ noff (cpus m' c) = noff (cpus m c) - Z.of_nat n /\
    (n <> O -> sie (cpus m' c) = (noff (cpus m c) =? Z.of_nat n) && intena (cpus m c)) /\
    (n = O -> m' = m).
Proof.
  revert m. induction n as [|n IH]; intros m Hn Hs; cbn [pops].
  - exists m. split_and!; [done|lia|done|done].
  - rewrite pop_off_run by (try apply Hs; lia).
    destruct (IH (set_cpu c (mkCpu (noff (cpus m c) - 1) (intena (cpus m c))
                       ((noff (cpus m c) - 1 =? 0) && intena (cpus m c))) m)) as (m' & -> & H1 & H2 & H3).
    + rewrite cpus_set_cpu. cbn. lia.
    + rewrite cpus_set_cpu. cbn. intros Hpos. by rewrite (proj2 (Z.eqb_neq _ _)) by lia.
    + rewrite cpus_set_cpu in H1, H2. cbn in H1, H2. exists m'.
      split_and!; [done|lia| |done]. intros _. destruct n as [|n].
      * rewrite H3 by done. rewrite cpus_set_cpu. cbn. f_equal.
        apply eq_true_iff_eq. rewrite !Z.eqb_eq. lia.
      * rewrite H2 by done. f_equal. apply eq_true_iff_eq. rewrite !Z.eqb_eq. lia.
Qed.

(** [push_off] and [pop_off] are matched: after any number of [push_off]
    calls and the same number of [pop_off] calls the CPU is at its old depth,
    and interrupts are enabled exactly if they were before; none of the
    [pop_off] calls panics. *)
Theorem push_pop_restores n c m :
  0 <= noff (cpus m c) -> (0 < noff (cpus m c) -> sie (cpus m c) = false) ->
  exists m', pops n c (Nat.iter n (push_off c) m) = inr m' /\
    noff (cpus m' c) = noff (cpus m c) /\ sie (cpus m' c) = sie (cpus m c).
Proof.
  intros H0 Hs. destruct (pushed n c m H0 Hs) as (P1 & P2 & P3 & P4).
  set (m1 := Nat.iter n (push_off c) m) in *.
  destruct (popped n c m1) as (m' & Hm & Q1 & Q2 & Q3).
  { lia. }
  { intros Hpos. destruct n; [|by apply P2]. rewrite P3 in * by done. auto. }
  exists m'. split_and!; [done|lia|]. destruct n as [|n].
  - rewrite Q3 by done. by rewrite P3.
  - rewrite Q2, P4, P1 by done. destruct (Z.eqb_spec (noff (cpus m c)) 0) as [E|E].
    + rewrite E. cbn [Z.add]. by rewrite Z.eqb_refl.
    + rewrite (proj2 (Z.eqb_neq _ _)) by lia. rewrite Hs; [done|lia].
Qed.

(** ** CPU 0 takes [kmem.lock] *)

Definition kmem_check : config := goto 0 (P_check L_kmem) (push_off 0 (mach start)) start.
Definition kmem_spin : config := goto 0 (P_spin L_kmem) (mach kmem_check) kmem_check.
Definition kmem_won : config :=
  goto 0 (P_won L_kmem) (test_and_set L_kmem (mach kmem_spin)).2 kmem_spin.
Definition kmem_held : config :=
  finish 0 (set_owner L_kmem (Some 0%nat) (mach kmem_won)) [L_kmem] kmem_won.

Lemma kmem_won_reachable : reachable kmem_won.
Proof.
  apply (reach_step kmem_spin Tau); [apply (reach_step kmem_check Tau); [apply (reach_step start Tau)|]|].
  - apply reach_start.
  - by apply step_acquire.
  - by apply step_check.
  - by apply step_win.
Qed.

Lemma kmem_last_step : step kmem_won (Done 0 (State.acquire L_kmem)) kmem_held.
Proof. by apply (step_owner kmem_won 0%nat L_kmem). Qed.

Lemma kmem_held_reachable : reachable kmem_held.
Proof. eapply reach_step; [apply kmem_won_reachable|apply kmem_last_step]. Qed.

Lemma spin_mutual_exclusion_witness :
  in_critical kmem_held 0 L_kmem /\ sie (cpus (mach kmem_held) 0%nat) = false.
Proof.
  assert (H : in_critical kmem_held 0 L_kmem).
  { split; [|done]. apply list_elem_of_singleton. done. }
  split; [exact H|].
  apply (spin_mutual_exclusion kmem_held L_kmem 0 0 kmem_held_reachable ltac:(discriminate) H H).
  discriminate.
Defined.

Lemma spin_refines_held_witness :
  State.acquire L_kmem boot = Ok tt (set_held [L_kmem] boot).
Proof.
  exact (proj1 (spin_refines_held kmem_won _ kmem_held kmem_won_reachable kmem_last_step) boot eq_refl).
Defined.

Lemma spin_acquire_spec_witness :
  acquire 0 L_kmem (mach kmem_held) = Some (inl "acquire"%string) /\ L_kmem ∈ cs kmem_held 0%nat.
Proof.
  pose proof (spin_acquire_spec kmem_held 0 L_kmem kmem_held_reachable eq_refl ltac:(discriminate)) as H.
  assert (E : acquire 0 L_kmem (mach kmem_held) = Some (inl "acquire"%string)) by reflexivity.
  split; [exact E|]. rewrite E in H. exact (proj2 H).
Defined.

Lemma push_pop_restores_witness :
  exists m', pops 3 0 (Nat.iter 3 (push_off 0) (mach start)) = inr m' /\
    noff (cpus m' 0%nat) = 0 /\ sie (cpus m' 0%nat) = false.
Proof. apply (push_pop_restores 3 0 (mach start)); [cbn; lia|cbn; lia]. Defined.
