(* ===== verification/Printf.v ===== *)
(** * Console output ([kernel/printf.c], [uartputc_sync], [consputc])

    The characters that reach the UART are the list [output].  [uartputc_sync]
    spins until the UART is ready; what it sends is one byte. *)

From S2P Require Import Prelude Riscv Mem State.

#[local] Open Scope Z_scope.

(** The bytes of a C string literal, without the NUL. *)
Definition str (x : string) : list Z :=
  (fun c => Z.of_N (Ascii.N_of_ascii c)) <$> String.list_ascii_of_string x.

(** ** Sending characters *)

Definition uartputc_sync (c : Z) : K unit :=
  push_off ;;
  modify (fun s => set_output (output s ++ [u8 c]) s) ;;
  pop_off.

Definition BACKSPACE : Z := 256.

Definition consputc (c : Z) : K unit :=
  if c =? BACKSPACE then
    uartputc_sync 8 ;; uartputc_sync 32 ;; uartputc_sync 8
  else uartputc_sync c.

(** ** Numbers *)

(** [digits[d]] *)
Definition digit (d : Z) : Z := if d <? 10 then 48 + d else 87 + d.

(** The [do] loop of [printint]: the digits of [x], lowest first.  [room] is
    what is left of [buf[20]]; [None] is a store behind the end of [buf].  The
    table of digits is an argument: the user library has the same loop with
    capitals. *)
Fixpoint int_digits (dig : Z -> Z) (room : nat) (x base : Z) : option (list Z) :=
  match room with
  | O => None
  | S r =>
      if x / base =? 0 then Some [dig (x `mod` base)]
      else
        l ← int_digits dig r (x / base) base;
        mret (dig (x `mod` base) :: l)
  end.

(** The contents of [buf] when the loops of [printint] are done. *)
Definition int_buf (dig : Z -> Z) (xx base : Z) (sign : bool) : option (list Z) :=
  let neg := sign && (xx <? 0) in
  let x := if neg then u64 (- xx) else u64 xx in
  l ← int_digits dig 20 x base;
  if neg then
    if decide (length l < 20)%nat then Some (l ++ [45]) else None
  else Some l.

Definition printint (xx base : Z) (sign : bool) : K unit :=
  match int_buf digit xx base sign with
  | Some buf => kiter (reverse buf) (fun c _ => consputc c) tt
  | None => stuck "printint: buf overflow"
  end.

Definition printptr (x : Z) : K unit :=
  consputc 48 ;;
  consputc 120 ;;
  kiter (seq 0 16) (fun i _ => consputc (digit (u64 (x * 2^(4 * i)) / 2^60))) tt.

(** ** [printf] *)

(** The arguments after the format. *)
Inductive varg : Type :=
| A_num (x : Z)
| A_str (x : option (list Z)).   (* [None]: a null pointer *)

(** [va_arg(ap, <integer type>)] and [va_arg(ap, char * )] *)
Definition va_num (ap : list varg) : K (Z * list varg) :=
  match ap with
  | A_num x :: ap' => mret (x, ap')
  | _ => stuck "va_arg"
  end.

Definition va_str (ap : list varg) : K (list Z * list varg) :=
  match ap with
  | A_str (Some x) :: ap' => mret (x, ap')
  | A_str None :: ap' => mret (str "(null)", ap')
  | _ => stuck "va_arg"
  end.

Definition i64 (x : Z) : Z := (x + 2^63) `mod` 2^64 - 2^63.

(** One conversion: [c0], [c1], [c2] are the characters after the percent sign
    (0 after the end).  The result is the number of further characters to skip
    and the remaining arguments, [None] for [break]. *)
Definition printf_conv (c0 c1 c2 : Z) (ap : list varg) : K (option (nat * list varg)) :=
  let num cast base sign (skip : nat) :=
    x ← va_num ap;
    printint (cast x.1) base sign ;;
    mret (Some (skip, x.2)) in
  let isc := fun a b => a =? b in
  if isc c0 100 then num i32 10 true 0%nat
  else if isc c0 108 && isc c1 100 then num i64 10 true 1%nat
  else if isc c0 108 && isc c1 108 && isc c2 100 then num i64 10 true 2%nat
  else if isc c0 117 then num u32 10 false 0%nat
  else if isc c0 108 && isc c1 117 then num i64 10 false 1%nat
  else if isc c0 108 && isc c1 108 && isc c2 117 then num i64 10 false 2%nat
  else if isc c0 120 then num u32 16 false 0%nat
  else if isc c0 108 && isc c1 120 then num i64 16 false 1%nat
  else if isc c0 108 && isc c1 108 && isc c2 120 then num i64 16 false 2%nat
  else if isc c0 112 then
    x ← va_num ap; printptr (u64 x.1) ;; mret (Some (0%nat, x.2))
  else if isc c0 99 then
    x ← va_num ap; consputc (u32 x.1) ;; mret (Some (0%nat, x.2))
  else if isc c0 115 then
    x ← va_str ap; kiter x.1 (fun c _ => consputc c) tt ;; mret (Some (0%nat, x.2))
  else if isc c0 37 then consputc 37 ;; mret (Some (0%nat, ap))
  else if isc c0 0 then mret None
  else consputc 37 ;; consputc c0 ;; mret (Some (0%nat, ap)).

(** The loop over the format; [skip] characters were consumed by a
    conversion. *)
Fixpoint printf_loop (fmt : list Z) (skip : nat) (ap : list varg) : K unit :=
  match fmt, skip with
  | [], _ => mret tt
  | _ :: fmt', S k => printf_loop fmt' k ap
  | cx :: fmt', O =>
      if negb (cx =? 37) then consputc cx ;; printf_loop fmt' 0 ap
      else
        let at_ i := default 0 (fmt' !! i) in
        r ← printf_conv (at_ 0%nat) (at_ 1%nat) (at_ 2%nat) ap;
        match r with
        | Some (k, ap') => printf_loop fmt' (S k) ap'
        | None => mret tt
        end
  end.

Definition printf (fmt : list Z) (ap : list varg) : K unit :=
  acquire L_pr ;;
  printf_loop fmt 0 ap ;;
  release L_pr.

(** ** What is printed *)

#[global] Arguments printf : simpl never.
#[global] Arguments consputc : simpl never.

Lemma uartputc_sync_run c s : uartputc_sync c s = Ok tt (set_output (output s ++ [u8 c]) s).
Proof.
  unfold uartputc_sync. rewrite bind_run. unfold push_off, modify. cbn [obind].
  rewrite bind_run. cbn [obind]. unfold pop_off. cbn.
  rewrite decide_True by (apply elem_of_cons; by left). by destruct s.
Qed.

Lemma consputc_run c s : is_byte c -> consputc c s = Ok tt (set_output (output s ++ [c]) s).
Proof.
  intros Hc. unfold consputc. destruct (Z.eqb_spec c BACKSPACE) as [->|].
  - by destruct Hc.
  - rewrite uartputc_sync_run. do 3 f_equal. f_equal. apply Z.mod_small. ints. lia.
Qed.

Lemma set_output_twice a b s : set_output a (set_output b s) = set_output a s.
Proof. done. Qed.

Lemma putall_run l s :
  Forall is_byte l -> kiter l (fun c _ => consputc c) tt s = Ok tt (set_output (output s ++ l) s).
Proof.
  intros Hl. revert s. induction Hl as [|c l Hc Hl IH]; intros s.
  - cbn. rewrite app_nil_r. by destruct s.
  - cbn [kiter]. rewrite bind_run, (consputc_run c s Hc). cbn [obind]. rewrite IH.
    cbn [output set_output]. by rewrite <- app_assoc.
Qed.

(** Reading a numeral. *)
Definition undigit (c : Z) : Z := if c <? 58 then c - 48 else if c <? 97 then c - 55 else c - 87.

Definition to_nat_number (base : Z) (w : list Z) : Z :=
  foldl (fun a c => a * base + undigit c) 0 w.

Definition to_number (base : Z) (w : list Z) : Z :=
  match w with
  | c :: w' => if c =? 45 then - to_nat_number base w' else to_nat_number base w
  | [] => 0
  end.

(** A table of digits that can be read back. *)
Definition digits_ok (dig : Z -> Z) : Prop :=
  forall d, 0 <= d < 16 -> is_byte (dig d) /\ dig d <> 45 /\ undigit (dig d) = d.

Lemma digit_ok : digits_ok digit.
Proof.
  intros d H. unfold undigit, digit. ints.
  destruct (Z.ltb_spec d 10); [destruct (Z.ltb_spec (48 + d) 58)|
    destruct (Z.ltb_spec (87 + d) 58), (Z.ltb_spec (87 + d) 97)]; lia.
Qed.

Lemma to_nat_number_snoc base w c :
  to_nat_number base (w ++ [c]) = to_nat_number base w * base + undigit c.
Proof. unfold to_nat_number. by rewrite foldl_app. Qed.

Lemma int_digits_spec dig (room k : nat) x base :
  digits_ok dig -> 2 <= base <= 16 -> (0 < k <= room)%nat -> 0 <= x < base ^ k ->
  exists l, int_digits dig room x base = Some l /\ (0 < length l <= k)%nat /\
    Forall (fun c => is_byte c /\ c <> 45) l /\ to_nat_number base (reverse l) = x.
Proof.
  intros Hdig Hb. revert k x. induction room as [|r IH]; intros k x Hk Hx; [lia|].
  pose proof (Z.mod_pos_bound x base ltac:(lia)) as Hm.
  pose proof (Z.div_mod x base ltac:(lia)) as Hdm.
  cbn [int_digits]. destruct (Z.eqb_spec (x / base) 0) as [H0|H0].
  - destruct (Hdig (x `mod` base)) as (H1 & H2 & H3); [lia|].
    exists [dig (x `mod` base)]. split_and!; [done|cbn; lia|cbn; lia|by apply Forall_singleton|].
    cbn. rewrite H3. lia.
  - destruct (IH (pred k) (x / base)) as (l & Hl & Hlen & Hf & Hv).
    + destruct k as [|[|k]]; [lia| |lia]. rewrite Z.pow_1_r in Hx.
      by rewrite Z.div_small in H0 by lia.
    + split; [apply Z.div_pos; lia|]. apply Z.div_lt_upper_bound; [lia|].
      rewrite <- Z.pow_succ_r by lia.
      assert (Z.succ (Z.of_nat (pred k)) = Z.of_nat k) as -> by lia. apply Hx.
    + destruct (Hdig (x `mod` base)) as (H1 & H2 & H3); [lia|].
      rewrite Hl. exists (dig (x `mod` base) :: l). cbn [mbind option_bind mret option_ret].
      split_and!; [done|cbn; lia|cbn; lia| |].
      * by constructor.
      * rewrite reverse_cons, to_nat_number_snoc, Hv, H3. lia.
Qed.

Lemma to_number_pos base w :
  Forall (fun c => is_byte c /\ c <> 45) w -> to_number base w = to_nat_number base w.
Proof.
  intros [|c w' [_ Hc] _]; [done|]. cbn. by destruct (Z.eqb_spec c 45).
Qed.

(** The buffer never overflows and reads back as the number. *)
Lemma int_buf_spec dig xx base (sign : bool) :
  digits_ok dig -> base = 10 \/ base = 16 -> -2^63 <= xx < 2^64 -> (sign = true -> xx < 2^63) ->
  exists l, int_buf dig xx base sign = Some l /\ (length l <= 20)%nat /\ Forall is_byte l /\
    to_number base (reverse l) = if sign then xx else u64 xx.
Proof.
  intros Hdig Hb Hr Hs. unfold int_buf. pose proof (u64_range xx) as Hu. ints.
  assert (2^63 < base ^ 19%nat /\ 2^64 < base ^ 20%nat) as [H19 H20] by (destruct Hb; subst; by split).
  destruct (sign && (xx <? 0)) eqn:En.
  - apply andb_true_iff in En as [-> Hn%Z.ltb_lt].
    rewrite (u64_small (- xx)) by (ints; lia).
    destruct (int_digits_spec dig 20 19 (- xx) base) as (l & -> & Hl & Hf & Hv);
      [done|lia|lia|by split; [lia|apply Z.le_lt_trans with (2^63); [lia|]]|].
    cbn [mbind option_bind]. rewrite decide_True by lia. exists (l ++ [45]).
    split_and!; [done|rewrite length_app; cbn; lia| |].
    + apply Forall_app. split; [|by apply Forall_singleton]. eapply Forall_impl; [done|]. by intros c [? _].
    + rewrite reverse_app. change (- to_nat_number base (reverse l) = xx). lia.
  - destruct (int_digits_spec dig 20 20 (u64 xx) base) as (l & -> & Hl & Hf & Hv);
      [done|lia|lia|by split; [lia|apply Z.lt_trans with (2^64); [lia|]]|].
    exists l. split_and!; [done|lia| |].
    + eapply Forall_impl; [done|]. by intros c [? _].
    + rewrite to_number_pos, Hv by by apply Forall_reverse.
      destruct sign; [|done]. cbn in En. apply Z.ltb_ge in En. apply u64_small. ints. specialize (Hs eq_refl). lia.
Qed.

(** [printint] prints a numeral that reads back as its argument: as a
    signed 64-bit number with [sign], as an unsigned one without, in base 10
    and 16; [buf[20]] is always large enough, also for the most negative
    number. *)
Theorem printint_spec xx base (sign : bool) s :
  base = 10 \/ base = 16 -> -2^63 <= xx < 2^64 -> (sign = true -> xx < 2^63) ->
  exists w, printint xx base sign s = Ok tt (set_output (output s ++ w) s) /\
    (length w <= 20)%nat /\ to_number base w = if sign then xx else u64 xx.
Proof.
  intros Hb Hr Hs. destruct (int_buf_spec digit xx base sign digit_ok Hb Hr Hs) as (l & Hl & Hn & Hf & Hv).
  exists (reverse l). unfold printint. rewrite Hl, putall_run by by apply Forall_reverse.
  rewrite length_reverse. done.
Qed.

Lemma printint_spec_witness :
  exists w, printint (-2^63) 10 true boot = Ok tt (set_output (output boot ++ w) boot) /\
    (length w <= 20)%nat /\ to_number 10 w = -2^63.
Proof. apply (printint_spec (-2^63) 10 true boot); [by left|lia|lia]. Defined.

(** ** Runs that only print *)

Definition prints {A} (m : K A) (a : A) : Prop :=
  forall s, exists w, m s = Ok a (set_output (output s ++ w) s).

Lemma prints_ret {A} (a : A) : prints (mret a) a.
Proof. intros s. exists []. rewrite app_nil_r. by destruct s. Qed.

Lemma prints_bind {A B} (m : K A) (f : A -> K B) a b :
  prints m a -> prints (f a) b -> prints (m ≫= f) b.
Proof.
  intros Hm Hf s. destruct (Hm s) as [w1 H1]. destruct (Hf (set_output (output s ++ w1) s)) as [w2 H2].
  exists (w1 ++ w2). rewrite bind_run, H1. cbn [obind]. rewrite H2. cbn. by rewrite <- app_assoc.
Qed.

Lemma prints_uartputc c : prints (uartputc_sync c) tt.
Proof. intros s. eexists. apply uartputc_sync_run. Qed.

Lemma prints_consputc c : prints (consputc c) tt.
Proof.
  unfold consputc. destruct (c =? BACKSPACE); [|apply prints_uartputc].
  do 2 (eapply prints_bind; [apply prints_uartputc|]). apply prints_uartputc.
Qed.

Lemma prints_text l fmt ap :
  Forall (fun c => c <> 37) l ->
  prints (printf_loop fmt 0 ap) tt -> prints (printf_loop (l ++ fmt) 0 ap) tt.
Proof.
  intros Hl Hf. induction Hl as [|c l Hc Hl IH]; [done|]. cbn [printf_loop app].
  rewrite (proj2 (Z.eqb_neq _ _) Hc). cbn [negb]. eapply prints_bind; [apply prints_consputc|done].
Qed.

Lemma prints_d fmt x ap :
  prints (printf_loop fmt 0 ap) tt -> prints (printf_loop (37 :: 100 :: fmt) 0 (A_num x :: ap)) tt.
Proof.
  intros Hf. change (prints (printf_conv 100 (default 0 (fmt !! 0%nat)) (default 0 (fmt !! 1%nat)) (A_num x :: ap)
    ≫= (fun r => match r with Some (k, ap') => printf_loop (100 :: fmt) (S k) ap' | None => mret tt end)) tt).
  eapply (prints_bind _ _ (Some (0%nat, ap))); [|exact Hf].
  unfold printf_conv. cbn [Z.eqb Pos.eqb]. eapply (prints_bind _ _ (x, ap)); [apply prints_ret|].
  eapply prints_bind; [|apply prints_ret]. intros s. pose proof (i32_range x) as Hr. ints.
  destruct (int_buf_spec digit (i32 x) 10 true digit_ok) as (l & Hl & _ & Hf' & _); [by left|lia|lia|].
  exists (reverse l). unfold printint. cbn [fst]. rewrite Hl. apply putall_run. by apply Forall_reverse.
Qed.

Lemma printf_prints fmt ap s :
  L_pr ∉ held s -> prints (printf_loop fmt 0 ap) tt ->
  exists w, printf fmt ap s = Ok tt (set_output (output s ++ w) s).
Proof.
  intros Hh Hp. unfold printf. rewrite (bind_ok _ _ _ _ _ (acquire_ok L_pr s Hh)).
  destruct (Hp (set_held (L_pr :: held s) s)) as [w Hw]. exists w.
  rewrite bind_run, Hw. cbn [obind]. rewrite (release_head _ (held s)) by done. by destruct s.
Qed.
