(* ===== verification/Kalloc.v ===== *)
(** * The physical page allocator ([kernel/kalloc.c])

    The free list is threaded through the free pages themselves, as in the
    code: the first word of a free page is the address of the next one.  The
    invariant relates it to a duplicate-free list of pages, exactly the pages
    whose reference count is zero. *)

From S2P Require Import Prelude Riscv Mem State.

#[local] Open Scope Z_scope.

Section Kalloc.
Context `{L : Layout}.

(** ** The code *)

Definition NPHYPAGES : Z := (PHYSTOP - KERNBASE) `div` PGSIZE.

(** [refindex] returns an [int]. *)
Definition refindex (pa : Z) : Z := i32 (u64 (pa - KERNBASE) `div` PGSIZE).

(** [refcnt[idx]]: an index outside the array is undefined. *)
Definition get_refcnt (idx : Z) : K Z := fun s =>
  if decide (0 <= idx < NPHYPAGES) then Ok (refcnt s idx) s
  else Stuck "refcnt index out of range".

Definition put_refcnt (idx v : Z) : K unit := fun s =>
  if decide (0 <= idx < NPHYPAGES)
  then Ok tt (set_refcnt (<[idx := v]> (refcnt s)) s)
  else Stuck "refcnt index out of range".

(** [((uint64)pa % PGSIZE) != 0 || (char* )pa < end || (uint64)pa >= PHYSTOP] *)
Definition bad_page (pa : Z) : bool :=
  negb (pa `mod` PGSIZE =? 0) || (pa <? end_) || (PHYSTOP <=? pa).

(** The first critical section of [kfree]: drop one reference, and tell
    whether it was the last one. *)
Definition kfree_dec (pa : Z) : K bool :=
  if bad_page pa then panic "kfree"
  else
    let idx := refindex pa in
    acquire L_kmem ;;
    c ← get_refcnt idx;
    if c <? 1 then release L_kmem ;; panic "kfree ref"
    else
      put_refcnt idx (c - 1) ;;
      c' ← get_refcnt idx;
      if 0 <? c' then release L_kmem ;; mret false
      else release L_kmem ;; mret true.

(** The rest of [kfree]: junk-fill the page, then the second critical section
    puts it at the head of the free list. *)
Definition kfree_put (pa : Z) : K unit :=
  kmemset pa 1 PGSIZE ;;
  acquire L_kmem ;;
  next ← gets freelist;
  st64 pa next ;;
  modify (set_freelist pa) ;;
  release L_kmem.

Definition kfree (pa : Z) : K unit :=
  last ← kfree_dec pa;
  when last (kfree_put pa).

Definition kaddref (pa : Z) : K unit :=
  if bad_page pa then panic "kaddref"
  else
    let idx := refindex pa in
    acquire L_kmem ;;
    c ← get_refcnt idx;
    if c <? 1 then release L_kmem ;; panic "kaddref ref"
    else
      put_refcnt idx (i32 (c + 1)) ;;
      release L_kmem.

Definition kalloc : K Z :=
  acquire L_kmem ;;
  r ← gets freelist;
  (if r =? 0 then mret tt
   else
     next ← ld64 r;
     modify (set_freelist next) ;;
     put_refcnt (refindex r) 1) ;;
  release L_kmem ;;
  when (negb (r =? 0))
    (kmemset r 5 PGSIZE) ;;
  mret r.

(** [for(; p + PGSIZE <= pa_end; p += PGSIZE)]; [fuel] bounds the iterations. *)
Fixpoint freerange_loop (fuel : nat) (p pa_end : Z) : K unit :=
  match fuel with
  | O => stuck "freerange: fuel"
  | S f =>
      if p + PGSIZE <=? pa_end then
        put_refcnt (refindex p) 1 ;;
        kfree p ;;
        freerange_loop f (p + PGSIZE) pa_end
      else mret tt
  end.

Definition freerange (pa_start pa_end : Z) : K unit :=
  let p := PGROUNDUP pa_start in
  freerange_loop (S (Z.to_nat ((pa_end - p) `div` PGSIZE))) p pa_end.

Definition kinit : K unit := freerange end_ PHYSTOP.

(** [for(r = kmem.freelist; r; r = r->next) count++;] *)
Fixpoint freemem_loop (fuel : nat) (r count : Z) : K Z :=
  match fuel with
  | O => stuck "freemem_pages: fuel"
  | S f =>
      if r =? 0 then mret count
      else
        next ← ld64 r;
        freemem_loop f next (i32 (count + 1))
  end.

Definition freemem_pages : K Z :=
  acquire L_kmem ;;
  r ← gets freelist;
  count ← freemem_loop (S (Z.to_nat NPHYPAGES)) r 0;
  release L_kmem ;;
  mret count.

Definition freemem_bytes : K Z :=
  n ← freemem_pages;
  mret (u64 (u64 n * PGSIZE)).

(** ** The invariant *)

Definition page_ok (p : Z) : Prop := page_aligned p /\ end_ <= p < PHYSTOP.

#[global] Instance page_ok_dec p : Decision (page_ok p).
Proof. unfold page_ok. apply _. Defined.

Fixpoint free_chain (m : Z -> Z) (head : Z) (l : list Z) : Prop :=
  match l with
  | [] => head = 0
  | p :: l' => head = p /\ free_chain m (load64 m p) l'
  end.

(** [l] is the free list; [T] are pages between the two critical sections of
    some [kfree]: their count is already zero, but they are not yet listed. *)
Record kmem_inv_with (T : list Z) (s : kernel) (l : list Z) : Prop := {
  ki_chain : free_chain (mem s) (freelist s) l;
  ki_nodup : NoDup (l ++ T);
  ki_pages : Forall page_ok (l ++ T);
  ki_count : forall p, page_ok p -> 0 <= refcnt s (refindex p) < 2^31;
  ki_zero : forall p, page_ok p -> (refcnt s (refindex p) = 0 <-> p ∈ l ++ T)
}.

Definition kmem_inv : kernel -> list Z -> Prop := kmem_inv_with [].

(** ** Pages and their indices *)

Context {LO : LayoutOk L}.

Lemma bad_page_spec p : bad_page p = false <-> page_ok p.
Proof.
  unfold bad_page, page_ok, page_aligned.
  rewrite !orb_false_iff, negb_false_iff, Z.eqb_eq, Z.ltb_ge, Z.leb_gt. lia.
Qed.

Lemma refindex_eq p : page_ok p -> refindex p = (p - KERNBASE) `div` PGSIZE.
Proof.
  intros [Hal Hr]. pose proof end_range. unfold refindex.
  unfold PHYSTOP, KERNBASE, PGSIZE in *.
  rewrite u64_small by (ints; lia). rewrite i32_small; [done|]. zlia.
Qed.

Lemma refindex_range p : page_ok p -> 0 <= refindex p < NPHYPAGES.
Proof.
  intros Hp. rewrite refindex_eq by done. destruct Hp as [Hal Hr].
  pose proof end_range. change NPHYPAGES with 32768.
  unfold PHYSTOP, KERNBASE, PGSIZE in *. zlia.
Qed.

Lemma refindex_inj p q : page_ok p -> page_ok q -> refindex p = refindex q -> p = q.
Proof.
  intros Hp Hq. rewrite !refindex_eq by done.
  destruct Hp as [Hp ?], Hq as [Hq ?].
  unfold page_aligned, PGSIZE, KERNBASE in *. zlia.
Qed.

Lemma page_ok_nonzero p : page_ok p -> p <> 0.
Proof. intros [_ ?]. pose proof end_range. unfold KERNBASE in *. lia. Qed.

Lemma page_ok_u64 p : page_ok p -> is_u64 p.
Proof.
  intros [_ ?]. pose proof end_range. unfold PHYSTOP, KERNBASE in *. ints. lia.
Qed.

Lemma pages_disjoint p q :
  page_aligned p -> page_aligned q -> p <> q ->
  p + PGSIZE <= q \/ q + PGSIZE <= p.
Proof. unfold page_aligned, PGSIZE. intros. zlia. Qed.

(** ** The free chain *)

Lemma free_chain_ext m m' h l :
  (forall p x, p ∈ l -> p <= x < p + 8 -> m x = m' x) ->
  free_chain m h l -> free_chain m' h l.
Proof.
  revert h. induction l as [|p l IH]; intros h Hm; simpl; [done|].
  intros [-> Hl]. split; [done|].
  rewrite <- (load64_ext m) by (intros; eapply Hm; set_solver).
  apply IH; [|done]. intros. eapply Hm; set_solver.
Qed.

(** A page that is not on the list can be overwritten. *)
Lemma free_chain_other m m' h l q :
  page_aligned q -> Forall page_ok l -> q ∉ l ->
  (forall x, x < q \/ q + PGSIZE <= x -> m' x = m x) ->
  free_chain m h l -> free_chain m' h l.
Proof.
  intros Hq Hl Hnin Hm. apply free_chain_ext. intros p x Hp Hx.
  symmetry. apply Hm. rewrite Forall_forall in Hl.
  assert (p <> q) by (by intros ->).
  destruct (Hl p Hp) as [Hal _].
  destruct (pages_disjoint p q Hal Hq) as [?|?]; unfold PGSIZE in *; auto; lia.
Qed.

(** ** Runs of the operations *)

Definition kalloc_post (p : Z) (s : kernel) : kernel :=
  set_mem (mem_fill (mem s) p PGSIZE 5)
    (set_refcnt (<[refindex p := 1]> (refcnt s))
      (set_freelist (load64 (mem s) p) s)).

Definition kdec_post (p : Z) (s : kernel) : kernel :=
  set_refcnt (<[refindex p := refcnt s (refindex p) - 1]> (refcnt s)) s.

Definition kput_post (p : Z) (s : kernel) : kernel :=
  set_freelist p
    (set_mem (store64 (mem_fill (mem s) p PGSIZE 1) p (freelist s)) s).

Definition kaddref_post (p : Z) (s : kernel) : kernel :=
  set_refcnt (<[refindex p := i32 (refcnt s (refindex p) + 1)]> (refcnt s)) s.

Lemma get_refcnt_run s p :
  page_ok p -> get_refcnt (refindex p) s = Ok (refcnt s (refindex p)) s.
Proof. intros. unfold get_refcnt. by rewrite decide_True by by apply refindex_range. Qed.

Lemma put_refcnt_run s p v :
  page_ok p ->
  put_refcnt (refindex p) v s = Ok tt (set_refcnt (<[refindex p := v]> (refcnt s)) s).
Proof. intros. unfold put_refcnt. by rewrite decide_True by by apply refindex_range. Qed.

Lemma kalloc_none T s :
  L_kmem ∉ held s -> kmem_inv_with T s [] -> kalloc s = Ok 0 s.
Proof.
  intros Hh [Hc _ _ _ _]. simpl in Hc. unfold kalloc. kunfold.
  rewrite acquire_ok by done. cbn [obind freelist set_held]. rewrite Hc. cbn [obind Z.eqb].
  rewrite (release_head _ (held s)) by done. by destruct s.
Qed.

Lemma kalloc_some T s p l :
  L_kmem ∉ held s -> kmem_inv_with T s (p :: l) ->
  kalloc s = Ok p (kalloc_post p s).
Proof.
  intros Hh [[Hc _] _ Hp _ _].
  assert (page_ok p) by (by inversion Hp).
  unfold kalloc. kunfold. rewrite acquire_ok by done.
  cbn [obind freelist set_held]. rewrite Hc.
  rewrite (proj2 (Z.eqb_neq p 0)) by by apply page_ok_nonzero.
  cbn [obind]. rewrite put_refcnt_run by done. cbn [obind].
  rewrite (release_head _ (held s)) by done. done.
Qed.

Lemma kfree_dec_run s p :
  L_kmem ∉ held s -> page_ok p -> 1 <= refcnt s (refindex p) ->
  kfree_dec p s = Ok (refcnt s (refindex p) =? 1) (kdec_post p s).
Proof.
  intros Hh Hp Hc. unfold kfree_dec.
  rewrite (proj2 (bad_page_spec p)) by done. kunfold.
  rewrite acquire_ok by done. cbn [obind]. rewrite get_refcnt_run by done.
  cbn [obind refcnt set_held]. rewrite (proj2 (Z.ltb_ge _ 1)) by lia.
  rewrite put_refcnt_run by done. cbn [obind]. rewrite get_refcnt_run by done.
  cbn [obind refcnt set_refcnt]. rewrite fn_lookup_insert.
  destruct (0 <? refcnt s (refindex p) - 1) eqn:E;
    rewrite (release_head _ (held s)) by done; cbn [obind]; unfold kdec_post.
  - rewrite (proj2 (Z.eqb_neq _ 1)) by lia. done.
  - rewrite (proj2 (Z.eqb_eq _ 1)) by lia. done.
Qed.

Lemma kfree_put_run s p :
  L_kmem ∉ held s -> kfree_put p s = Ok tt (kput_post p s).
Proof.
  intros Hh. unfold kfree_put. kunfold. rewrite acquire_ok by done.
  cbn [obind]. by rewrite (release_head _ (held s)) by done.
Qed.

Lemma kaddref_run s p :
  L_kmem ∉ held s -> page_ok p -> 1 <= refcnt s (refindex p) ->
  kaddref p s = Ok tt (kaddref_post p s).
Proof.
  intros Hh Hp Hc. unfold kaddref.
  rewrite (proj2 (bad_page_spec p)) by done. kunfold.
  rewrite acquire_ok by done. cbn [obind]. rewrite get_refcnt_run by done.
  cbn [obind refcnt set_held]. rewrite (proj2 (Z.ltb_ge _ 1)) by lia.
  rewrite put_refcnt_run by done. cbn [obind]. by rewrite (release_head _ (held s)) by done.
Qed.

(** ** The operations keep the invariant *)

Lemma refcnt_upd p q v f :
  page_ok p -> page_ok q ->
  (<[refindex p := v]> f : Z -> Z) (refindex q) =
    if decide (p = q) then v else f (refindex q).
Proof.
  intros Hp Hq. case_decide as E.
  - subst. apply fn_lookup_insert.
  - apply fn_lookup_insert_ne. intros H. by apply E, refindex_inj.
Qed.

Lemma kmem_inv_perm T T' s l :
  T ≡ₚ T' -> kmem_inv_with T s l -> kmem_inv_with T' s l.
Proof.
  intros HT [Hc Hn Hp Hr Hz]. split; try done.
  - by rewrite <- HT.
  - by rewrite <- HT.
  - intros p Hok. rewrite <- HT. by apply Hz.
Qed.

Lemma kalloc_inv T s p l :
  kmem_inv_with T s (p :: l) -> kmem_inv_with T (kalloc_post p s) l.
Proof.
  intros [[Hh Hc] Hn Hp Hr Hz].
  apply NoDup_cons in Hn as [Hpn Hn]. apply Forall_cons in Hp as [Hpo Hp].
  split; try done; unfold kalloc_post; cbn [mem freelist refcnt set_mem set_freelist set_refcnt].
  - apply Forall_app in Hp as [Hl _].
    eapply free_chain_other; [apply Hpo|done|set_solver| |done].
    intros x Hx. unfold mem_fill. by rewrite decide_False by lia.
  - intros q Hq. rewrite refcnt_upd by done. case_decide; [lia|by apply Hr].
  - intros q Hq. rewrite refcnt_upd by done. case_decide.
    + subst. split; [lia|]. done.
    + rewrite (Hz q Hq). set_solver.
Qed.

Lemma kdec_inv T s p l :
  page_ok p -> 1 <= refcnt s (refindex p) -> kmem_inv_with T s l ->
  kmem_inv_with (if refcnt s (refindex p) =? 1 then p :: T else T) (kdec_post p s) l.
Proof.
  intros Hpo Hge [Hc Hn Hp Hr Hz].
  assert (Hnin : p ∉ l ++ T) by (rewrite <- Hz by done; lia).
  assert (Hrc : forall q, page_ok q -> refcnt (kdec_post p s) (refindex q) =
    if decide (p = q) then refcnt s (refindex p) - 1 else refcnt s (refindex q)).
  { intros q Hq. unfold kdec_post; cbn [refcnt set_refcnt]. by apply refcnt_upd. }
  destruct (refcnt s (refindex p) =? 1) eqn:E.
  - split; try done.
    + rewrite <- Permutation_middle. by apply NoDup_cons.
    + rewrite <- Permutation_middle. by apply Forall_cons.
    + intros q Hq. rewrite Hrc by done. case_decide; [lia|by apply Hr].
    + intros q Hq. rewrite Hrc by done. rewrite <- Permutation_middle.
      case_decide; [subst; set_solver by lia|].
      rewrite (Hz q Hq). set_solver.
  - split; try done.
    + intros q Hq. rewrite Hrc by done.
      case_decide; [pose proof (Hr p Hpo); lia|by apply Hr].
    + intros q Hq. rewrite Hrc by done. case_decide; [|by apply Hz].
      subst. split; [lia|done].
Qed.

Lemma kput_inv T s p l :
  kmem_inv_with (p :: T) s l -> kmem_inv_with T (kput_post p s) (p :: l).
Proof.
  intros [Hc Hn Hp Hr Hz].
  rewrite <- Permutation_middle in Hn, Hp.
  assert (Hpo : page_ok p) by (by inversion Hp).
  assert (Hfl : is_u64 (freelist s)).
  { destruct l as [|q l]; simpl in Hc; [rewrite Hc; ints; lia|].
    destruct Hc as [-> _]. apply page_ok_u64. rewrite Forall_forall in Hp.
    apply Hp. set_solver. }
  split; try done; unfold kput_post; cbn [mem freelist refcnt set_mem set_freelist].
  - split; [done|]. rewrite load64_store64_eq by done.
    apply NoDup_cons in Hn as [Hpn Hn]. apply Forall_cons in Hp as [_ Hp].
    apply Forall_app in Hp as [Hl _].
    eapply free_chain_other; [apply Hpo|done|set_solver| |done].
    intros x Hx. unfold store64, store_le, mem_fill, PGSIZE in *.
    by rewrite !decide_False by lia.
  - intros q Hq. rewrite (Hz q Hq), <- Permutation_middle. done.
Qed.

Lemma kaddref_inv T s p l :
  page_ok p -> 1 <= refcnt s (refindex p) < 2^31 - 1 ->
  kmem_inv_with T s l -> kmem_inv_with T (kaddref_post p s) l.
Proof.
  intros Hpo Hge [Hc Hn Hp Hr Hz].
  assert (Hrc : forall q, page_ok q -> refcnt (kaddref_post p s) (refindex q) =
    if decide (p = q) then refcnt s (refindex p) + 1 else refcnt s (refindex q)).
  { intros q Hq. unfold kaddref_post; cbn [refcnt set_refcnt].
    rewrite i32_small by (ints; lia). by apply refcnt_upd. }
  split; try done.
  - intros q Hq. rewrite Hrc by done. case_decide; [lia|by apply Hr].
  - intros q Hq. rewrite Hrc by done. case_decide; [|by apply Hz].
    subst. rewrite <- Hz by done. lia.
Qed.

(** A user of the memory may write the pages it owns. *)
Lemma kmem_inv_write T s l m' :
  (forall p x, p ∈ l -> p <= x < p + 8 -> mem s x = m' x) ->
  kmem_inv_with T s l -> kmem_inv_with T (set_mem m' s) l.
Proof.
  intros Hm [Hc Hn Hp Hr Hz]. split; try done. simpl.
  by eapply free_chain_ext.
Qed.

(** ** Counting *)

Lemma free_length_le s l : kmem_inv s l -> length l <= NPHYPAGES.
Proof.
  intros [_ Hn Hp _ _]. rewrite app_nil_r in Hn, Hp.
  assert (Hnd : NoDup (refindex <$> l)).
  { apply NoDup_fmap_2_strong; [|done]. intros x y Hx Hy Hxy.
    rewrite Forall_forall in Hp. apply refindex_inj; auto. }
  assert (Hsub : (refindex <$> l) ⊆+ seqZ 0 NPHYPAGES).
  { apply NoDup_submseteq; [done|]. intros i Hi.
    apply list_elem_of_fmap in Hi as (q & -> & Hq).
    rewrite Forall_forall in Hp. apply elem_of_seqZ.
    pose proof (refindex_range q (Hp q Hq)). lia. }
  apply submseteq_length in Hsub. rewrite length_fmap, length_seqZ in Hsub.
  change NPHYPAGES with 32768 in *. lia.
Qed.

Lemma freemem_loop_run fuel s r l count :
  free_chain (mem s) r l -> Forall page_ok l -> (length l < fuel)%nat ->
  0 <= count -> count + length l < 2^31 ->
  freemem_loop fuel r count s = Ok (count + length l) s.
Proof.
  revert r l count. induction fuel as [|fuel IH]; intros r l count Hc Hp Hf H0 Hlt; [lia|].
  destruct l as [|q l]; simpl in Hc; cbn [freemem_loop].
  - subst. simpl. kunfold. f_equal. simpl. lia.
  - destruct Hc as [-> Hc]. apply Forall_cons in Hp as [Hq Hp].
    rewrite (proj2 (Z.eqb_neq q 0)) by by apply page_ok_nonzero.
    simpl length in *. kunfold. rewrite i32_small by (ints; lia).
    rewrite (IH _ l) by (try done; lia). f_equal. lia.
Qed.

(** ** Main properties *)

(** [kalloc] on every branch: with an empty free list it returns 0 and
    changes nothing; otherwise it returns the head of the free list, a page
    that nobody else holds, with one reference and filled with the junk byte
    5; the rest of memory and every other reference count are untouched, the
    lock is given back, and the invariant holds again. *)
Theorem kalloc_spec s l :
  kmem_inv s l -> L_kmem ∉ held s ->
  match l with
  | [] => kalloc s = Ok 0 s
  | p :: l' => exists s', kalloc s = Ok p s' /\
      kmem_inv s' l' /\ page_ok p /\ (p ∉ l') /\ held s' = held s /\
      refcnt s (refindex p) = 0 /\ refcnt s' (refindex p) = 1 /\
      (forall x, p <= x < p + PGSIZE -> mem s' x = 5) /\
      (forall x, x < p \/ p + PGSIZE <= x -> mem s' x = mem s x) /\
      (forall q, page_ok q -> q <> p -> refcnt s' (refindex q) = refcnt s (refindex q))
  end.
Proof.
  intros Hi Hh. destruct l as [|p l]; [by eapply kalloc_none|].
  exists (kalloc_post p s). pose proof Hi as [_ Hn Hp _ Hz].
  apply NoDup_cons in Hn as [Hpn _]. apply Forall_cons in Hp as [Hpo _].
  split_and!.
  - by eapply kalloc_some.
  - by apply kalloc_inv.
  - done.
  - set_solver.
  - done.
  - apply Hz; [done|set_solver].
  - unfold kalloc_post; cbn [refcnt set_mem set_refcnt]. apply fn_lookup_insert.
  - intros x Hx. unfold kalloc_post, mem_fill; cbn [mem set_mem].
    by rewrite decide_True.
  - intros x Hx. unfold kalloc_post, mem_fill; cbn [mem set_mem].
    by rewrite decide_False by lia.
  - intros q Hq Hne. unfold kalloc_post; cbn [refcnt set_mem set_refcnt].
    rewrite refcnt_upd by done. by rewrite decide_False.
Qed.

Lemma kfree_ok s p :
  L_kmem ∉ held s -> page_ok p -> 1 <= refcnt s (refindex p) ->
  kfree p s = Ok tt (if refcnt s (refindex p) =? 1
                     then kput_post p (kdec_post p s) else kdec_post p s).
Proof.
  intros Hh Hp Hge. unfold kfree. rewrite bind_run, kfree_dec_run by done.
  cbn [obind]. unfold when. destruct (_ =? 1); [|done].
  by apply kfree_put_run.
Qed.

(** [kfree] on every branch: a page outside the managed range panics, a
    page without references panics, a shared page loses one reference and
    stays allocated, and the last reference puts the page at the head of the
    free list.  In the last two cases the invariant is kept, the lock is
    given back and no memory outside the page changes. *)
Theorem kfree_spec s l p :
  kmem_inv s l -> L_kmem ∉ held s ->
  if decide (page_ok p) then
    if decide (refcnt s (refindex p) < 1) then kfree p s = Panic "kfree ref"
    else exists s', kfree p s = Ok tt s' /\ held s' = held s /\
      refcnt s' (refindex p) = refcnt s (refindex p) - 1 /\
      (forall q, page_ok q -> q <> p -> refcnt s' (refindex q) = refcnt s (refindex q)) /\
      (forall x, x < p \/ p + PGSIZE <= x -> mem s' x = mem s x) /\
      if decide (refcnt s (refindex p) = 1)
      then kmem_inv s' (p :: l) else kmem_inv s' l /\ mem s' = mem s
  else kfree p s = Panic "kfree".
Proof.
  intros Hi Hh. case_decide as Hpo.
  2: { unfold kfree, kfree_dec.
       destruct (bad_page p) eqn:E; [done|]. by apply bad_page_spec in E. }
  case_decide as Hlt.
  { unfold kfree, kfree_dec. rewrite (proj2 (bad_page_spec p)) by done. kunfold.
    rewrite acquire_ok by done. cbn [obind]. rewrite get_refcnt_run by done.
    cbn [obind refcnt set_held]. rewrite (proj2 (Z.ltb_lt _ 1)) by lia.
    by rewrite (release_head _ (held s)). }
  rewrite kfree_ok by (done || lia). eexists. split; [done|].
  pose proof (kdec_inv [] s p l Hpo ltac:(lia) Hi) as Hd.
  assert (Hrq : forall q, page_ok q -> refcnt (kdec_post p s) (refindex q) =
    if decide (p = q) then refcnt s (refindex p) - 1 else refcnt s (refindex q)).
  { intros q Hq. unfold kdec_post; cbn [refcnt set_refcnt]. by apply refcnt_upd. }
  destruct (refcnt s (refindex p) =? 1) eqn:E.
  - rewrite (decide_True (P := refcnt s (refindex p) = 1)) by lia.
    change (refcnt (kput_post p (kdec_post p s))) with (refcnt (kdec_post p s)).
    split_and!; [done| | | |].
    + by rewrite Hrq, decide_True.
    + intros q Hq Hne. by rewrite Hrq, decide_False.
    + intros x Hx. unfold kput_post, kdec_post; cbn [mem set_mem set_freelist set_refcnt].
      unfold store64, store_le, mem_fill, PGSIZE in *. by rewrite !decide_False by lia.
    + by apply kput_inv.
  - rewrite (decide_False (P := refcnt s (refindex p) = 1)) by lia.
    split_and!; try done.
    + by rewrite Hrq, decide_True.
    + intros q Hq Hne. by rewrite Hrq, decide_False.
Qed.

(** [freemem_pages] counts the free pages: it terminates within the number
    of physical pages, returns the length of the free list and changes
    nothing. *)
Theorem freemem_pages_spec s l :
  kmem_inv s l -> L_kmem ∉ held s -> freemem_pages s = Ok (Z.of_nat (length l)) s.
Proof.
  intros Hi Hh. pose proof (free_length_le s l Hi) as Hlen.
  destruct Hi as [Hc _ Hp _ _]. rewrite app_nil_r in Hp.
  unfold freemem_pages. kunfold. rewrite acquire_ok by done. cbn [obind].
  change NPHYPAGES with 32768 in *.
  rewrite (freemem_loop_run _ _ _ l); [|done|done|lia|lia|lia].
  cbn [obind]. rewrite (release_head _ (held s)) by done. cbn [obind].
  f_equal. by destruct s.
Qed.

(** ** Initialisation *)

(** The [n] pages from [p] on. *)
Definition page_range (p : Z) (n : nat) : list Z :=
  (fun i => p + Z.of_nat i * PGSIZE) <$> seq 0 n.

Lemma length_page_range p n : length (page_range p n) = n.
Proof. unfold page_range. by rewrite length_fmap, length_seq. Qed.

Lemma page_range_S p n : page_range p (S n) = p :: page_range (p + PGSIZE) n.
Proof.
  unfold page_range. simpl. f_equal; [lia|].
  rewrite <- fmap_S_seq, <- list_fmap_compose. apply list_fmap_ext.
  intros i x _. unfold compose. lia.
Qed.

Lemma kmem_inv_refcnt T s s' l :
  mem s' = mem s -> freelist s' = freelist s ->
  (forall q, page_ok q -> refcnt s' (refindex q) = refcnt s (refindex q)) ->
  kmem_inv_with T s l -> kmem_inv_with T s' l.
Proof.
  intros Hm Hf Hr [Hc Hn Hp Hcnt Hz]. split; try done.
  - by rewrite Hm, Hf.
  - intros q Hq. rewrite Hr by done. by apply Hcnt.
  - intros q Hq. rewrite Hr by done. by apply Hz.
Qed.

Lemma freerange_loop_inv n : forall s p l fuel,
  (n < fuel)%nat -> p + n * PGSIZE <= PHYSTOP < p + (n + 1) * PGSIZE ->
  L_kmem ∉ held s -> kmem_inv_with (page_range p n) s l ->
  returns (freerange_loop fuel p PHYSTOP s) (fun _ s' =>
    held s' = held s /\ kmem_inv s' (reverse (page_range p n) ++ l)).
Proof.
  induction n as [|n IH]; intros s p l fuel Hf Hend Hh Hi;
    (destruct fuel as [|fuel]; [lia|]); cbn [freerange_loop].
  { rewrite (proj2 (Z.leb_gt _ _)) by lia. done. }
  rewrite (proj2 (Z.leb_le _ _)) by (unfold PGSIZE in *; lia).
  rewrite page_range_S in Hi.
  assert (Hpo : page_ok p).
  { destruct Hi as [_ _ Hp _ _]. rewrite Forall_forall in Hp. apply Hp. set_solver. }
  rewrite (bind_ok _ _ _ _ _ (put_refcnt_run s p 1 Hpo)).
  set (s1 := set_refcnt _ s).
  assert (H1 : refcnt s1 (refindex p) = 1) by apply fn_lookup_insert.
  rewrite (bind_ok _ _ _ tt (kput_post p (kdec_post p s1))).
  2: { rewrite kfree_ok; [by rewrite H1|done|done|lia]. }
  eapply returns_mono.
  - apply (IH _ (p + PGSIZE) (p :: l) fuel); [lia|unfold PGSIZE in *; lia|done|].
    apply kput_inv. apply (kmem_inv_refcnt _ s); [done|done| |exact Hi].
    intros q Hq. unfold kdec_post; cbn [refcnt set_refcnt].
    rewrite refcnt_upd by done. case_decide; subst.
    + rewrite H1. destruct Hi as [_ _ _ _ Hz].
      rewrite (proj2 (Hz q Hq)); [done|set_solver].
    + unfold s1; cbn [refcnt set_refcnt]. rewrite refcnt_upd by done.
      by rewrite decide_False.
  - intros _ s' [Hheld Hinv]. split; [done|].
    by rewrite page_range_S, reverse_cons, <- app_assoc.
Qed.

Definition first_page : Z := PGROUNDUP end_.
Definition npages : nat := Z.to_nat ((PHYSTOP - first_page) `div` PGSIZE).

Lemma first_page_range :
  end_ <= first_page < end_ + PGSIZE /\ page_aligned first_page /\
  first_page <= PHYSTOP.
Proof.
  pose proof end_range. unfold first_page.
  assert (H1 := PGROUNDUP_range end_). unfold PHYSTOP, KERNBASE, PGSIZE in *.
  destruct H1 as [H1 H2]; [lia|]. split_and!; try lia; [done|].
  unfold page_aligned, PGSIZE in H2. zlia.
Qed.

Lemma elem_of_first_pages p : p ∈ page_range first_page npages <-> page_ok p.
Proof.
  destruct first_page_range as (H1 & H2 & H3).
  unfold page_range, npages. rewrite list_elem_of_fmap.
  unfold page_ok, page_aligned in *. split.
  - intros (i & -> & Hi). apply elem_of_seq in Hi.
    unfold PHYSTOP, KERNBASE, PGSIZE in *. zlia.
  - intros [Hal Hr]. exists (Z.to_nat ((p - first_page) `div` PGSIZE)).
    rewrite elem_of_seq. unfold PHYSTOP, KERNBASE, PGSIZE in *. zlia.
Qed.

Lemma NoDup_page_range p n : NoDup (page_range p n).
Proof.
  unfold page_range. apply NoDup_fmap_2_strong; [|apply NoDup_seq].
  intros. unfold PGSIZE in *. lia.
Qed.

Lemma kinit_inv s :
  L_kmem ∉ held s -> freelist s = 0 -> (forall i, refcnt s i = 0) ->
  returns (kinit s) (fun _ s' => held s' = held s /\
    kmem_inv s' (reverse (page_range first_page npages))).
Proof.
  intros Hh Hf Hr. destruct first_page_range as (H1 & H2 & H3).
  unfold kinit, freerange. eapply returns_mono.
  - apply (freerange_loop_inv npages s first_page []); try done.
    + unfold npages, first_page. lia.
    + unfold npages. unfold PHYSTOP, KERNBASE, PGSIZE in *. zlia.
    + split; simpl.
      * done.
      * apply NoDup_page_range.
      * apply Forall_forall. intros p. apply elem_of_first_pages.
      * intros. rewrite Hr. lia.
      * intros p Hp. rewrite Hr, elem_of_first_pages. done.
  - intros _ s' [Hheld Hinv]. by rewrite app_nil_r in Hinv.
Qed.

(** [kinit] on the kernel as the boot loader leaves it (the static
    [refcnt] array and the free list zero) terminates without [panic], with
    every whole page between [end] and [PHYSTOP] on the free list, each once. *)
Theorem kinit_spec s :
  L_kmem ∉ held s -> freelist s = 0 -> (forall i, refcnt s i = 0) ->
  returns (kinit s) (fun _ s' => held s' = held s /\ exists l,
    kmem_inv s' l /\ (forall p, p ∈ l <-> page_ok p) /\
    Z.of_nat (length l) = (PHYSTOP - PGROUNDUP end_) `div` PGSIZE).
Proof.
  intros Hh Hf Hr. eapply returns_mono; [by apply kinit_inv|].
  intros _ s' [Hheld Hinv]. split; [done|]. eexists. split; [done|]. split.
  - intros p. by rewrite elem_of_reverse, elem_of_first_pages.
  - destruct first_page_range as (H1 & H2 & H3).
    rewrite length_reverse. unfold page_range.
    rewrite length_fmap, length_seq. unfold npages.
    change (PGROUNDUP end_) with first_page.
    unfold PHYSTOP, KERNBASE, PGSIZE in *. zlia.
Qed.

(** ** Interleavings

    [kfree] takes the lock twice, so calls on other CPUs run between its two
    critical sections, and the pages in that window are on no list.  A step is
    one critical section of some CPU, or a write by the owner of an allocated
    page; [T] collects the pages in the window. *)

Inductive alloc_step : kernel * list Z -> kernel * list Z -> Prop :=
| st_kalloc s T r s' : kalloc s = Ok r s' -> alloc_step (s, T) (s', T)
| st_dec_last s T p s' : kfree_dec p s = Ok true s' -> alloc_step (s, T) (s', p :: T)
| st_dec_shared s T p s' : kfree_dec p s = Ok false s' -> alloc_step (s, T) (s', T)
| st_put s T T' p s' :
    T ≡ₚ p :: T' -> kfree_put p s = Ok tt s' -> alloc_step (s, T) (s', T')
| st_addref s T p s' :
    kaddref p s = Ok tt s' -> refcnt s (refindex p) < 2^31 - 1 ->
    alloc_step (s, T) (s', T)
| st_write s T q x v :
    page_ok q -> 1 <= refcnt s (refindex q) -> q <= x < q + PGSIZE ->
    alloc_step (s, T) (set_mem (<[x := v]> (mem s)) s, T)
| st_cpu s T h : L_kmem ∉ h -> alloc_step (s, T) (set_held h s, T).

Lemma kfree_dec_inversion s p b s' :
  L_kmem ∉ held s -> kfree_dec p s = Ok b s' ->
  page_ok p /\ 1 <= refcnt s (refindex p) /\ s' = kdec_post p s /\
  b = (refcnt s (refindex p) =? 1).
Proof.
  intros Hh Hrun. destruct (decide (page_ok p)) as [Hp|Hp].
  2: { unfold kfree_dec in Hrun. destruct (bad_page p) eqn:E; [done|].
       by apply bad_page_spec in E. }
  destruct (decide (refcnt s (refindex p) < 1)).
  - unfold kfree_dec in Hrun. rewrite (proj2 (bad_page_spec p)) in Hrun by done.
    revert Hrun. kunfold. rewrite acquire_ok by done. cbn [obind].
    rewrite get_refcnt_run by done. cbn [obind refcnt set_held].
    rewrite (proj2 (Z.ltb_lt _ 1)) by lia. by rewrite (release_head _ (held s)).
  - rewrite kfree_dec_run in Hrun by (done || lia). injection Hrun as <- <-.
    split_and!; (done || lia).
Qed.

Lemma kaddref_inversion s p s' :
  L_kmem ∉ held s -> kaddref p s = Ok tt s' ->
  page_ok p /\ 1 <= refcnt s (refindex p) /\ s' = kaddref_post p s.
Proof.
  intros Hh Hrun. destruct (decide (page_ok p)) as [Hp|Hp].
  2: { unfold kaddref in Hrun. destruct (bad_page p) eqn:E; [done|].
       by apply bad_page_spec in E. }
  destruct (decide (refcnt s (refindex p) < 1)).
  - unfold kaddref in Hrun. rewrite (proj2 (bad_page_spec p)) in Hrun by done.
    revert Hrun. kunfold. rewrite acquire_ok by done. cbn [obind].
    rewrite get_refcnt_run by done. cbn [obind refcnt set_held].
    rewrite (proj2 (Z.ltb_lt _ 1)) by lia. by rewrite (release_head _ (held s)).
  - rewrite kaddref_run in Hrun by (done || lia). injection Hrun as <-.
    split_and!; (done || lia).
Qed.

Definition alloc_good (c : kernel * list Z) : Prop :=
  (L_kmem ∉ held c.1) /\ exists l, kmem_inv_with c.2 c.1 l.

Lemma alloc_step_good c c' : alloc_step c c' -> alloc_good c -> alloc_good c'.
Proof.
  unfold alloc_good. intros Hstep [Hh [l Hi]].
  destruct Hstep as [s T r s' Hr|s T p s' Hr|s T p s' Hr|s T T' p s' HT Hr
    |s T p s' Hr Hc|s T q x v Hq Hc Hx|s T h Hn]; cbn [fst snd] in *.
  - destruct l as [|p l].
    + rewrite (kalloc_none T) in Hr by done. injection Hr as <- <-. eauto.
    + rewrite (kalloc_some T _ p l) in Hr by done. injection Hr as <- <-.
      eauto using kalloc_inv.
  - apply kfree_dec_inversion in Hr as (Hp & Hge & -> & Hb); [|done].
    split; [done|]. exists l. pose proof (kdec_inv T s p l Hp Hge Hi) as Hd.
    by rewrite <- Hb in Hd.
  - apply kfree_dec_inversion in Hr as (Hp & Hge & -> & Hb); [|done].
    split; [done|]. exists l. pose proof (kdec_inv T s p l Hp Hge Hi) as Hd.
    by rewrite <- Hb in Hd.
  - rewrite kfree_put_run in Hr by done. injection Hr as <-. split; [done|].
    exists (p :: l). apply kput_inv. by eapply kmem_inv_perm.
  - apply kaddref_inversion in Hr as (Hp & Hge & ->); [|done].
    split; [done|]. exists l. by apply kaddref_inv.
  - split; [done|]. exists l. apply kmem_inv_write; [|done].
    intros p y Hp Hy. symmetry. apply fn_lookup_insert_ne. intros <-.
    destruct Hi as [_ _ Hpg _ Hz]. rewrite Forall_forall in Hpg.
    assert (Hpo : page_ok p) by (apply Hpg; set_solver).
    assert (Hne : p <> q).
    { intros ->. rewrite (proj2 (Hz q Hq)) in Hc; [lia|set_solver]. }
    pose proof (pages_disjoint p q (proj1 Hpo) (proj1 Hq) Hne).
    unfold PGSIZE in *; lia.
  - split; [done|]. exists l. by destruct Hi.
Qed.

(** C24. Under every interleaving of critical sections of [kalloc], [kfree] and
    [kaddref] on any number of CPUs, and of writes to allocated pages, the
    allocator stays consistent: the free list is a well-formed chain of
    distinct pages, disjoint from the pages in transit, and a page is on the
    list or in transit exactly when its count is zero.  So a page that
    [kalloc] hands out had no owner. *)
Theorem alloc_interleaving_safe s0 l0 s T :
  kmem_inv s0 l0 -> L_kmem ∉ held s0 -> rtc alloc_step (s0, []) (s, T) ->
  exists l, kmem_inv_with T s l /\
    forall p s', kalloc s = Ok p s' -> p <> 0 ->
      (p ∉ T) /\ refcnt s (refindex p) = 0 /\ refcnt s' (refindex p) = 1.
Proof.
  intros Hi Hh Hrtc.
  assert (Hg : alloc_good (s, T)).
  { eapply (rtc_ind_r (fun c => alloc_good c)); [|eauto using alloc_step_good|done].
    split; [done|]. by exists l0. }
  destruct Hg as [Hh' [l Hl]]. cbn [fst snd] in *. exists l. split; [done|].
  intros p s' Hr Hne. destruct l as [|q l].
  - rewrite (kalloc_none T) in Hr by done. by injection Hr as <- _.
  - rewrite (kalloc_some T _ q l) in Hr by done. injection Hr as <- <-.
    pose proof Hl as [_ Hn Hp _ Hz]. apply NoDup_cons in Hn as [Hq _].
    apply Forall_cons in Hp as [Hqo _]. split_and!.
    + set_solver.
    + apply Hz; [done|set_solver].
    + unfold kalloc_post; cbn [refcnt set_mem set_refcnt]. apply fn_lookup_insert.
Qed.

End Kalloc.

(** ** Witnesses on the small machine *)

Section Witness.
#[local] Existing Instance small_layout.
#[local] Existing Instance small_layout_ok.

Definition booted : kernel := after kinit boot.

Lemma booted_inv :
  kmem_inv booted (reverse (page_range (PHYSTOP - 8 * PGSIZE) 8)) /\ held booted = [].
Proof.
  destruct (after_ok kinit boot _ (kinit_inv boot ltac:(set_solver) eq_refl (fun _ => eq_refl)))
    as (u & _ & Hh & Hi). split; [exact Hi|exact Hh].
Qed.

Lemma booted_unlocked : L_kmem ∉ held booted.
Proof. rewrite (proj2 booted_inv). set_solver. Qed.

Lemma kinit_spec_witness :
  returns (kinit boot) (fun _ s' => held s' = held boot /\ exists l,
    kmem_inv s' l /\ (forall p, p ∈ l <-> page_ok p) /\
    Z.of_nat (length l) = (PHYSTOP - PGROUNDUP end_) `div` PGSIZE).
Proof. apply (kinit_spec boot); [set_solver|done|done]. Defined.

Lemma kalloc_spec_witness : exists s',
  kalloc booted = Ok (PHYSTOP - PGSIZE) s' /\ refcnt s' 32767 = 1.
Proof.
  destruct (kalloc_spec booted _ (proj1 booted_inv) booted_unlocked)
    as (s' & Hr & _ & _ & _ & _ & _ & H1 & _).
  exists s'. split; [exact Hr|exact H1].
Defined.

Lemma kfree_spec_witness :
  kfree (PHYSTOP - PGSIZE) booted = Panic "kfree ref" /\
  kfree (PHYSTOP - 9 * PGSIZE) booted = Panic "kfree".
Proof.
  split.
  - pose proof (kfree_spec booted _ (PHYSTOP - PGSIZE) (proj1 booted_inv) booted_unlocked) as H.
    rewrite decide_True in H by (split; [done|vm_compute; split; [discriminate|done]]).
    rewrite decide_True in H by (vm_compute; done). exact H.
  - pose proof (kfree_spec booted _ (PHYSTOP - 9 * PGSIZE) (proj1 booted_inv) booted_unlocked) as H.
    rewrite decide_False in H by (intros [_ [Hle _]]; vm_compute in Hle; by apply Hle).
    exact H.
Defined.

Lemma freemem_pages_spec_witness : freemem_pages booted = Ok 8 booted.
Proof. exact (freemem_pages_spec booted _ (proj1 booted_inv) booted_unlocked). Defined.

Lemma alloc_interleaving_safe_witness : exists l,
  kmem_inv_with [] (after kalloc booted) l.
Proof.
  destruct (alloc_interleaving_safe booted _ (after kalloc booted) []
    (proj1 booted_inv) booted_unlocked) as (l & Hl & _).
  - apply rtc_once. eapply st_kalloc, after_eq.
    exact (kalloc_some [] booted _ _ booted_unlocked (proj1 booted_inv)).
  - exists l. exact Hl.
Defined.

End Witness.
