(* ===== verification/Vm.v ===== *)
(** * Page tables ([kernel/vm.c])

    Page tables live in physical memory, as in the code: a table is a page of
    512 words, an entry holds the address of the next table or of a mapped page
    and its flags.  The first part is the code; the second relates a table in
    memory to the function from virtual addresses to entries that it stands
    for; the third shows what each operation does to that function. *)

From S2P Require Import Prelude Riscv Mem State Kalloc.

#[local] Open Scope Z_scope.

(** The values of [a] in [for(a = from; a < to; a += PGSIZE)]. *)
Definition pages_between (from to : Z) : list Z :=
  page_range from (Z.to_nat ((to - from + PGSIZE - 1) `div` PGSIZE)).

Section Vm.
Context `{L : Layout}.

(** ** The code *)

(** The loop [for(int level = 2; level > 0; level--)] of [walk]; the result is
    the address of the entry, 0 for none. *)
Fixpoint walk_loop (level : nat) (pagetable va : Z) (alloc : bool) : K Z :=
  match level with
  | O => mret (pagetable + 8 * PX 0 va)
  | S level' =>
      let pte := pagetable + 8 * PX level va in
      v ← ld64 pte;
      if has_flag v PTE_V then walk_loop level' (PTE2PA v) va alloc
      else if negb alloc then mret 0
      else
        pg ← kalloc;
        if pg =? 0 then mret 0
        else
          kmemset pg 0 PGSIZE ;;
          st64 pte (Z.lor (PA2PTE pg) PTE_V) ;;
          walk_loop level' pg va alloc
  end.

Definition walk (pagetable va : Z) (alloc : bool) : K Z :=
  if MAXVA <=? va then panic "walk" else walk_loop 2 pagetable va alloc.

Definition walkaddr (pagetable va : Z) : K Z :=
  if MAXVA <=? va then mret 0
  else
    pte ← walk pagetable va false;
    if pte =? 0 then mret 0
    else
      v ← ld64 pte;
      if negb (has_flag v PTE_V) then mret 0
      else if negb (has_flag v PTE_U) then mret 0
      else mret (PTE2PA v).

(** The loop [for(;;)] of [mappages]; [n] bounds its iterations. *)
Fixpoint mappages_loop (n : nat) (pagetable a last pa perm : Z) : K Z :=
  match n with
  | O => stuck "mappages: fuel"
  | S n' =>
      pte ← walk pagetable a true;
      if pte =? 0 then mret (-1)
      else
        v ← ld64 pte;
        if has_flag v PTE_V then panic "mappages: remap"
        else
          st64 pte (Z.lor (Z.lor (PA2PTE pa) perm) PTE_V) ;;
          if a =? last then mret 0
          else mappages_loop n' pagetable (u64 (a + PGSIZE)) last (u64 (pa + PGSIZE)) perm
  end.

Definition mappages (pagetable va size pa perm : Z) : K Z :=
  if negb (va `mod` PGSIZE =? 0) then panic "mappages: va not aligned"
  else if negb (size `mod` PGSIZE =? 0) then panic "mappages: size not aligned"
  else if size =? 0 then panic "mappages: size"
  else mappages_loop (Z.to_nat (size `div` PGSIZE)) pagetable va
         (u64 (va + size - PGSIZE)) pa perm.

Definition kvmmap (kpgtbl va pa sz perm : Z) : K unit :=
  r ← mappages kpgtbl va sz pa perm;
  if negb (r =? 0) then panic "kvmmap" else mret tt.

Definition uvmcreate : K Z :=
  pagetable ← kalloc;
  if pagetable =? 0 then mret 0
  else kmemset pagetable 0 PGSIZE ;; mret pagetable.

(** The body of the loop of [uvmunmap]. *)
Definition uvmunmap_page (pagetable : Z) (do_free : bool) (a : Z) : K unit :=
  pte ← walk pagetable a false;
  if pte =? 0 then mret tt
  else
    v ← ld64 pte;
    if negb (has_flag v PTE_V) then mret tt
    else
      when do_free (kfree (PTE2PA v)) ;;
      st64 pte 0.

Definition uvmunmap (pagetable va npages : Z) (do_free : bool) : K unit :=
  if negb (va `mod` PGSIZE =? 0) then panic "uvmunmap: not aligned"
  else
    kiter (pages_between va (u64 (va + u64 (npages * PGSIZE))))
      (fun a _ => uvmunmap_page pagetable do_free a) tt.

Definition uvmdealloc (pagetable oldsz newsz : Z) : K Z :=
  if oldsz <=? newsz then mret oldsz
  else
    when (PGROUNDUP newsz <? PGROUNDUP oldsz)
      (let npages := i32 (u64 (PGROUNDUP oldsz - PGROUNDUP newsz) `div` PGSIZE) in
       uvmunmap pagetable (PGROUNDUP newsz) (u64 npages) true) ;;
    mret newsz.

(** The body of the loop of [uvmalloc]: [inr r] is [return r]. *)
Definition uvmalloc_page (pagetable oldsz xperm a : Z) : K (unit + Z) :=
  mem ← kalloc;
  if mem =? 0 then
    uvmdealloc pagetable a oldsz ;;
    mret (inr 0)
  else
    kmemset mem 0 PGSIZE ;;
    r ← mappages pagetable a PGSIZE mem (Z.lor (Z.lor PTE_R PTE_U) xperm);
    if negb (r =? 0) then
      kfree mem ;;
      uvmdealloc pagetable a oldsz ;;
      mret (inr 0)
    else mret (inl tt).

Definition uvmalloc (pagetable oldsz0 newsz xperm : Z) : K Z :=
  if newsz <? oldsz0 then mret oldsz0
  else
    let oldsz := PGROUNDUP oldsz0 in
    x ← kfor (pages_between oldsz newsz) (fun a _ => uvmalloc_page pagetable oldsz xperm a) tt;
    match x with
    | inr r => mret r
    | inl _ => mret newsz
    end.

(** The body of the loop of [freewalk]; [rec] is the recursive call. *)
Definition freewalk_entry (rec : Z -> K unit) (pagetable i : Z) : K unit :=
  pte ← ld64 (pagetable + 8 * i);
  if has_flag pte PTE_V && (Z.land pte (Z.lor (Z.lor PTE_R PTE_W) PTE_X) =? 0) then
    rec (PTE2PA pte) ;;
    st64 (pagetable + 8 * i) 0
  else if has_flag pte PTE_V then panic "freewalk: leaf"
  else mret tt.

(** The recursion of [freewalk] is as deep as the table; [fuel] bounds it. *)
Fixpoint freewalk (fuel : nat) (pagetable : Z) : K unit :=
  match fuel with
  | O => stuck "freewalk: fuel"
  | S f =>
      kiter (upto 512) (fun i _ => freewalk_entry (freewalk f) pagetable i) tt ;;
      kfree pagetable
  end.

(** A Sv39 table has three levels; one more for the call that finds a leaf. *)
Definition uvmfree (pagetable sz : Z) : K unit :=
  when (0 <? sz) (uvmunmap pagetable 0 (PGROUNDUP sz `div` PGSIZE) true) ;;
  freewalk 4 pagetable.

(** The body of the loop of [uvmcopy]: [inr i] is [goto err]. *)
Definition uvmcopy_page (old new i : Z) : K (unit + Z) :=
  pte ← walk old i false;
  if pte =? 0 then mret (inl tt)
  else
    v ← ld64 pte;
    if negb (has_flag v PTE_V) then mret (inl tt)
    else
      let pa := PTE2PA v in
      let flags := PTE_FLAGS v in
      mem ← kalloc;
      if mem =? 0 then mret (inr i)
      else
        kmemmove mem pa PGSIZE ;;
        r ← mappages new i PGSIZE mem flags;
        if negb (r =? 0) then kfree mem ;; mret (inr i)
        else mret (inl tt).

Definition uvmcopy (old new sz : Z) : K Z :=
  x ← kfor (pages_between 0 sz) (fun i _ => uvmcopy_page old new i) tt;
  match x with
  | inr i => uvmunmap new 0 (i `div` PGSIZE) true ;; mret (-1)
  | inl _ => mret 0
  end.

Definition uvmclear (pagetable va : Z) : K unit :=
  pte ← walk pagetable va false;
  if pte =? 0 then panic "uvmclear"
  else
    v ← ld64 pte;
    st64 pte (Z.land v (2^64 - 1 - PTE_U)).

Definition ismapped (pagetable va : Z) : K bool :=
  pte ← walk pagetable va false;
  if pte =? 0 then mret false
  else
    v ← ld64 pte;
    mret (has_flag v PTE_V).

(** *** Pruning of empty page-table pages after [munmap] *)

Fixpoint pagetable_empty_from (n : nat) (i pagetable : Z) : K bool :=
  match n with
  | O => mret true
  | S n' =>
      v ← ld64 (pagetable + 8 * i);
      if has_flag v PTE_V then mret false
      else pagetable_empty_from n' (i + 1) pagetable
  end.

Definition pagetable_empty (pagetable : Z) : K bool :=
  pagetable_empty_from 512 0 pagetable.

Definition pte_points_to_pagetable (pte : Z) : bool :=
  has_flag pte PTE_V && (Z.land pte (Z.lor (Z.lor PTE_R PTE_W) PTE_X) =? 0).

Definition next_pt_boundary (va level : Z) : Z :=
  let size := Z.shiftl 1 (PXSHIFT level) in
  Z.land (u64 (va + size)) (2^64 - 1 - (size - 1)).

Definition free_empty_mmap_l0 (pagetable va : Z) : K unit :=
  v2 ← ld64 (pagetable + 8 * PX 2 va);
  if negb (pte_points_to_pagetable v2) then mret tt
  else
    let l1 := PTE2PA v2 in
    let pte1 := l1 + 8 * PX 1 va in
    v1 ← ld64 pte1;
    if negb (pte_points_to_pagetable v1) then mret tt
    else
      let l0 := PTE2PA v1 in
      e ← pagetable_empty l0;
      if e : bool then kfree l0 ;; st64 pte1 0 else mret tt.

Definition free_empty_mmap_l1 (pagetable va : Z) : K unit :=
  let pte2 := pagetable + 8 * PX 2 va in
  v2 ← ld64 pte2;
  if negb (pte_points_to_pagetable v2) then mret tt
  else
    let l1 := PTE2PA v2 in
    e ← pagetable_empty l1;
    if e : bool then kfree l1 ;; st64 pte2 0 else mret tt.

(** One of the two loops of [free_empty_mmap_pagetables]; [fuel] bounds the
    number of table boundaries in the range. *)
Fixpoint free_empty_loop (fuel : nat) (step : Z -> K unit) (level va end0 : Z) : K unit :=
  match fuel with
  | O => stuck "free_empty_mmap_pagetables: fuel"
  | S f =>
      if va <? end0 then
        let next := next_pt_boundary va level in
        step va ;;
        free_empty_loop f step level (if (va <? next) && (next <? end0) then next else end0) end0
      else mret tt
  end.

Definition free_empty_mmap_pagetables (pagetable start length : Z) : K unit :=
  let end0 := u64 (start + length) in
  let fuel := Z.to_nat (length `div` PGSIZE + 2) in
  free_empty_loop fuel (free_empty_mmap_l0 pagetable) 1 start end0 ;;
  free_empty_loop fuel (free_empty_mmap_l1 pagetable) 2 start end0.

(** ** The tree in memory

    [tables n m pt] are the table pages reachable from [pt], a table of level
    [n]; [slot n m pt va] is the address of the leaf entry of [va], if all
    tables on the way exist; [pte_at n m pt va] its value, 0 if there is none. *)

Definition entry (m : Z -> Z) (pt i : Z) : Z := load64 m (pt + 8 * i).

Fixpoint tables (n : nat) (m : Z -> Z) (pt : Z) : list Z :=
  pt :: match n with
        | O => []
        | S n' => upto 512 ≫= (fun i =>
            if has_flag (entry m pt i) PTE_V
            then tables n' m (PTE2PA (entry m pt i)) else [])
        end.

Fixpoint slot (n : nat) (m : Z -> Z) (pt va : Z) : option Z :=
  match n with
  | O => Some (pt + 8 * PX 0 va)
  | S n' =>
      if has_flag (entry m pt (PX n va)) PTE_V
      then slot n' m (PTE2PA (entry m pt (PX n va))) va else None
  end.

Definition pte_at (n : nat) (m : Z -> Z) (pt va : Z) : Z :=
  match slot n m pt va with Some a => load64 m a | None => 0 end.

(** Valid entries above the leaf level are pointers to tables: none of their
    permission bits is set. *)
Definition PTE_RWX : Z := Z.lor (Z.lor PTE_R PTE_W) PTE_X.

Fixpoint branches (n : nat) (m : Z -> Z) (pt : Z) : Prop :=
  match n with
  | O => True
  | S n' => forall i, 0 <= i < 512 -> has_flag (entry m pt i) PTE_V = true ->
      Z.land (entry m pt i) PTE_RWX = 0 /\ branches n' m (PTE2PA (entry m pt i))
  end.

(** The subtree below entry [i]. *)
Definition subtables (n : nat) (m : Z -> Z) (pt i : Z) : list Z :=
  if has_flag (entry m pt i) PTE_V then tables n m (PTE2PA (entry m pt i)) else [].

Lemma tables_S n m pt : tables (S n) m pt = pt :: (upto 512 ≫= subtables n m pt).
Proof. reflexivity. Qed.

Lemma tables_root n m pt : pt ∈ tables n m pt.
Proof. destruct n; apply elem_of_cons; by left. Qed.

Lemma subtables_in n m pt i p :
  0 <= i < 512 -> p ∈ subtables n m pt i -> p ∈ tables (S n) m pt.
Proof.
  intros Hi Hp. rewrite tables_S. apply elem_of_cons. right.
  apply list_elem_of_bind. exists i. split; [done|]. by apply elem_of_upto.
Qed.

Lemma subtables_valid n m pt i :
  has_flag (entry m pt i) PTE_V = true ->
  subtables n m pt i = tables n m (PTE2PA (entry m pt i)).
Proof. intros H. unfold subtables. by rewrite H. Qed.

Lemma slot_S n m pt va :
  slot (S n) m pt va =
    if has_flag (entry m pt (PX (S n) va)) PTE_V
    then slot n m (PTE2PA (entry m pt (PX (S n) va))) va else None.
Proof. reflexivity. Qed.

Lemma pte_at_S n m pt va :
  pte_at (S n) m pt va =
    if has_flag (entry m pt (PX (S n) va)) PTE_V
    then pte_at n m (PTE2PA (entry m pt (PX (S n) va))) va else 0.
Proof. unfold pte_at. rewrite slot_S. by destruct (has_flag _ _). Qed.

(** Two memories agree on a list of pages. *)
Definition agree (P : list Z) (m m' : Z -> Z) : Prop :=
  forall p x, p ∈ P -> p <= x < p + PGSIZE -> m' x = m x.

Lemma agree_sub P Q m m' : (forall p, p ∈ Q -> p ∈ P) -> agree P m m' -> agree Q m m'.
Proof. intros H Ha p x Hp. by apply Ha, H. Qed.

Lemma entry_agree P m m' pt i :
  pt ∈ P -> agree P m m' -> 0 <= i < 512 -> entry m' pt i = entry m pt i.
Proof.
  intros Hp Ha Hi. apply load64_ext. intros x Hx. apply (Ha pt); [done|].
  unfold PGSIZE. lia.
Qed.

Lemma PXn_range (n : nat) va : 0 <= PX n va < 512.
Proof. apply PX_range. lia. Qed.

Lemma tables_agree n m m' pt :
  agree (tables n m pt) m m' ->
  tables n m' pt = tables n m pt /\
  (forall va, slot n m' pt va = slot n m pt va) /\
  (forall va, pte_at n m' pt va = pte_at n m pt va) /\
  (branches n m pt -> branches n m' pt).
Proof.
  revert pt. induction n as [|n IH]; intros pt Ha.
  - split_and!; try done. intros va. unfold pte_at. simpl.
    apply (entry_agree (tables 0 m pt)); [apply tables_root|done|apply PX_range; lia].
  - assert (He : forall i, 0 <= i < 512 -> entry m' pt i = entry m pt i).
    { intros i. by eapply entry_agree; [apply tables_root|]. }
    assert (Hsub : forall i, 0 <= i < 512 -> has_flag (entry m pt i) PTE_V = true ->
      agree (tables n m (PTE2PA (entry m pt i))) m m').
    { intros i Hi Hv. eapply agree_sub; [|done]. intros p Hp.
      eapply subtables_in; [done|]. by rewrite subtables_valid. }
    split_and!.
    + rewrite !tables_S. apply (f_equal (cons pt)). apply bind_ext_elem. intros i Hi.
      apply elem_of_upto in Hi. unfold subtables. rewrite He by done.
      destruct (has_flag _ _) eqn:E; [|done]. by apply IH, Hsub.
    + intros va. rewrite !slot_S, He by apply PXn_range.
      destruct (has_flag _ _) eqn:E; [|done].
      apply IH, Hsub; [apply PXn_range|done].
    + intros va. rewrite !pte_at_S, He by apply PXn_range.
      destruct (has_flag _ _) eqn:E; [|done].
      apply IH, Hsub; [apply PXn_range|done].
    + intros Hb i Hi. rewrite He by done. intros Hv. destruct (Hb i Hi Hv) as [? Hb'].
      split; [done|]. by apply (IH _ (Hsub i Hi Hv)).
Qed.

(** The leaf entry lies inside one of the table pages. *)
Lemma slot_in n m pt va a :
  slot n m pt va = Some a ->
  exists p, p ∈ tables n m pt /\ p <= a /\ a + 8 <= p + PGSIZE.
Proof.
  revert pt. induction n as [|n IH]; intros pt.
  - simpl. intros [= <-]. exists pt. split; [set_solver|].
    pose proof (PX_range 0 va). unfold PGSIZE. lia.
  - rewrite slot_S. destruct (has_flag _ _) eqn:E; [|done].
    intros (p & Hp & Ha)%IH. exists p. split; [|done].
    eapply subtables_in; [apply (PXn_range (S n) va)|]. by rewrite subtables_valid.
Qed.

(** [va] and [va'] select the same leaf entry in a table of level [n]. *)
Definition same_path (n : nat) (va va' : Z) : Prop :=
  forall k : nat, (k <= n)%nat -> PX k va = PX k va'.

#[global] Instance same_path_dec n va va' : Decision (same_path n va va').
Proof.
  refine (cast_if (decide (Forall (fun k : nat => PX k va = PX k va') (seq 0 (S n))))).
  - intros k Hk. rewrite Forall_forall in f. apply f, elem_of_seq. lia.
  - intros H. apply n0, Forall_forall. intros k Hk. apply H.
    apply elem_of_seq in Hk. lia.
Defined.

Lemma same_path_S n va va' :
  same_path (S n) va va' <-> PX (S n) va = PX (S n) va' /\ same_path n va va'.
Proof.
  unfold same_path. split.
  - intros H. split; [apply H; lia|]. intros k Hk. apply H. lia.
  - intros [H1 H2] k Hk. destruct (decide (k = S n)) as [->|]; [done|]. apply H2. lia.
Qed.

(** In a three-level table, page-aligned user addresses have distinct paths. *)
Lemma same_path_2 va va' :
  0 <= va < 2^39 -> 0 <= va' < 2^39 -> page_aligned va -> page_aligned va' ->
  (same_path 2 va va' <-> va = va').
Proof.
  intros. split; [|by intros ->]. intros Hs. apply PX_inj; try done.
  - apply (Hs 2%nat). lia.
  - apply (Hs 1%nat). lia.
  - apply (Hs 0%nat). lia.
Qed.

(** A well-formed tree: no page appears twice and all are whole pages. *)
Definition tree_ok (n : nat) (m : Z -> Z) (pt : Z) : Prop :=
  NoDup (tables n m pt) /\ Forall page_aligned (tables n m pt).

Lemma tree_ok_child n m pt i :
  tree_ok (S n) m pt -> 0 <= i < 512 -> has_flag (entry m pt i) PTE_V = true ->
  tree_ok n m (PTE2PA (entry m pt i)) /\ pt ∉ tables n m (PTE2PA (entry m pt i)).
Proof.
  intros [Hn Hf] Hi Hv. rewrite tables_S in Hn, Hf.
  apply NoDup_cons in Hn as [Hpt Hn]. apply Forall_cons in Hf as [_ Hf].
  assert (Hsub : forall p, p ∈ tables n m (PTE2PA (entry m pt i)) ->
    p ∈ (upto 512 ≫= subtables n m pt)).
  { intros p Hp. apply list_elem_of_bind. exists i. rewrite subtables_valid by done.
    by rewrite elem_of_upto. }
  split; [split|].
  - rewrite <- subtables_valid by done. eapply NoDup_bind_each; [done|].
    by apply elem_of_upto.
  - rewrite Forall_forall in *. auto.
  - auto.
Qed.

Lemma tree_ok_disjoint n m pt i j p :
  tree_ok (S n) m pt -> 0 <= i < 512 -> 0 <= j < 512 ->
  p ∈ subtables n m pt i -> p ∈ subtables n m pt j -> i = j.
Proof.
  intros [Hn _] Hi Hj. rewrite tables_S in Hn. apply NoDup_cons in Hn as [_ Hn].
  eapply NoDup_bind_disjoint; [done|apply NoDup_upto| |]; by apply elem_of_upto.
Qed.

(** Changing one page leaves the other pages alone. *)
Lemma agree_page Q m m' p :
  page_aligned p -> Forall page_aligned Q -> p ∉ Q ->
  (forall x, x < p \/ p + PGSIZE <= x -> m' x = m x) -> agree Q m m'.
Proof.
  intros Hp HQ Hn Hm q x Hq Hx. apply Hm. rewrite Forall_forall in HQ.
  assert (Hne : p <> q) by (by intros ->).
  pose proof (pages_disjoint p q Hp (HQ q Hq) Hne). lia.
Qed.

Lemma store64_outside m a v p x :
  p <= a -> a + 8 <= p + PGSIZE -> x < p \/ p + PGSIZE <= x ->
  store64 m a v x = m x.
Proof. intros. unfold store64, store_le. by rewrite decide_False by lia. Qed.

Lemma mem_fill_outside m p n c x : x < p \/ p + n <= x -> mem_fill m p n c x = m x.
Proof. intros. unfold mem_fill. by rewrite decide_False by lia. Qed.

(** A write to a leaf below entry [i] of [pt] leaves the entries of [pt] and
    the other subtrees alone. *)
Lemma leaf_store_local n m pt va a v (i := PX (S n) va) :
  tree_ok (S n) m pt -> has_flag (entry m pt i) PTE_V = true ->
  slot n m (PTE2PA (entry m pt i)) va = Some a ->
  (forall j, 0 <= j < 512 -> entry (store64 m a v) pt j = entry m pt j) /\
  (forall j, 0 <= j < 512 -> j <> i -> has_flag (entry m pt j) PTE_V = true ->
    agree (tables n m (PTE2PA (entry m pt j))) m (store64 m a v)).
Proof.
  intros Hok Ei Hs. assert (Hi : 0 <= i < 512) by apply PXn_range.
  destruct (tree_ok_child n m pt i Hok Hi Ei) as [Hc Hnpt].
  destruct (slot_in _ _ _ _ _ Hs) as (p & Hp & Hpa1 & Hpa2).
  assert (Hpal : page_aligned p) by (destruct Hc as [_ Hc]; by rewrite Forall_forall in Hc; apply Hc).
  assert (Hag : forall Q, Forall page_aligned Q -> p ∉ Q -> agree Q m (store64 m a v)).
  { intros Q HQ Hn. eapply agree_page; [done|done|done|].
    intros x Hx. by eapply store64_outside. }
  assert (Hall : Forall page_aligned (tables (S n) m pt)) by apply Hok.
  split.
  - intros j. apply (entry_agree [pt]); [by apply list_elem_of_singleton|]. apply Hag.
    + apply Forall_singleton. rewrite Forall_forall in Hall. apply Hall, tables_root.
    + intros Hq. apply list_elem_of_singleton in Hq. by subst.
  - intros j Hj Hne Ej. rewrite <- subtables_valid by done. apply Hag.
    + rewrite Forall_forall in *. intros q Hq. eapply Hall, subtables_in; done.
    + intros Hq. apply Hne. eapply tree_ok_disjoint; [done|done|done|done|].
      by rewrite subtables_valid.
Qed.

Lemma leaf_store n m pt va a v :
  tree_ok n m pt -> slot n m pt va = Some a -> is_u64 v ->
  tables n (store64 m a v) pt = tables n m pt /\
  (forall va', slot n (store64 m a v) pt va' = slot n m pt va') /\
  (forall va', pte_at n (store64 m a v) pt va' =
     if decide (same_path n va va') then v else pte_at n m pt va') /\
  (branches n m pt -> branches n (store64 m a v) pt).
Proof.
  intros Hok Hs Hv. revert pt Hok Hs. induction n as [|n IH]; intros pt Hok Hs.
  { simpl in Hs. injection Hs as <-. split_and!; try done. intros va'.
    unfold pte_at. simpl. case_decide as Hp.
    - assert (PX 0 va = PX 0 va') as <- by (apply (Hp 0%nat); lia).
      by apply load64_store64_eq.
    - apply load64_store64_ne.
      assert (PX 0 va <> PX 0 va').
      { intros E. apply Hp. intros k Hk. by replace k with 0%nat by lia. }
      lia. }
  rewrite slot_S in Hs. set (i := PX (S n) va) in *.
  destruct (has_flag (entry m pt i) PTE_V) eqn:Ei; [|done].
  destruct (leaf_store_local n m pt va a v Hok Ei Hs) as [He Hother]. fold i in Hother.
  destruct (tree_ok_child n m pt i Hok (PXn_range _ _) Ei) as [Hc _].
  destruct (IH _ Hc Hs) as (IH1 & IH2 & IH3 & IH4).
  split_and!.
  - rewrite !tables_S. apply (f_equal (cons pt)). apply bind_ext_elem. intros j Hj.
    apply elem_of_upto in Hj. unfold subtables. rewrite He by done.
    destruct (has_flag (entry m pt j) PTE_V) eqn:Ej; [|done].
    destruct (decide (j = i)) as [->|Hne]; [done|].
    by apply tables_agree, Hother.
  - intros va'. rewrite !slot_S, He by apply PXn_range.
    destruct (has_flag (entry m pt (PX (S n) va')) PTE_V) eqn:Ej; [|done].
    destruct (decide (PX (S n) va' = i)) as [->|Hne]; [done|].
    apply tables_agree, Hother; [apply PXn_range|done|done].
  - intros va'. rewrite !pte_at_S, He by apply PXn_range.
    destruct (decide (PX (S n) va' = i)) as [Hpx|Hne].
    + rewrite Hpx, Ei, IH3. apply decide_ext. rewrite same_path_S. clear -Hpx. split; [by split|by intros [_ ?]].
    + rewrite (decide_False (P := same_path (S n) va va'))
        by (rewrite same_path_S; intros [? _]; by apply Hne).
      destruct (has_flag (entry m pt (PX (S n) va')) PTE_V) eqn:Ej; [|done].
      apply tables_agree, Hother; [apply PXn_range|done|done].
  - intros Hb j Hj. rewrite He by done. intros Ej. destruct (Hb j Hj Ej) as [? Hb'].
    split; [done|]. destruct (decide (j = i)) as [->|Hne]; [auto|].
    by apply (tables_agree n m _ _ (Hother j Hj Hne Ej)).
Qed.

(** A zeroed page is an empty table at every level. *)
Lemma zero_table n m p :
  (forall i, 0 <= i < 512 -> entry m p i = 0) ->
  tables n m p = [p] /\ (forall va, pte_at n m p va = 0) /\ branches n m p.
Proof.
  intros Hz. destruct n as [|n]; split_and!; intros.
  - done.
  - apply (Hz (PX 0 va)), PX_range. lia.
  - done.
  - rewrite tables_S. apply (f_equal (cons p)). apply bind_nil_elem.
    intros i Hi. apply elem_of_upto in Hi. unfold subtables. by rewrite Hz.
  - rewrite pte_at_S. by rewrite Hz by apply PXn_range.
  - intros i Hi. by rewrite Hz.
Qed.

(** One child of a table changes, the others stay. *)
Lemma parent_update n m m' pt i new :
  0 <= i < 512 -> has_flag (entry m' pt i) PTE_V = true ->
  (forall j, 0 <= j < 512 -> j <> i -> entry m' pt j = entry m pt j) ->
  (forall j, 0 <= j < 512 -> j <> i -> agree (subtables n m pt j) m m') ->
  tables n m' (PTE2PA (entry m' pt i)) ≡ₚ subtables n m pt i ++ new ->
  (forall va, pte_at n m' (PTE2PA (entry m' pt i)) va =
     if has_flag (entry m pt i) PTE_V then pte_at n m (PTE2PA (entry m pt i)) va else 0) ->
  tables (S n) m' pt ≡ₚ tables (S n) m pt ++ new /\
  (forall va, pte_at (S n) m' pt va = pte_at (S n) m pt va).
Proof.
  intros Hi Hv He Ha Ht Hp. split.
  - rewrite !tables_S. cbn [app]. f_equiv.
    apply bind_change with i; [apply NoDup_upto|by apply elem_of_upto| |].
    + intros j Hj Hne. apply elem_of_upto in Hj. specialize (Ha j Hj Hne).
      unfold subtables in Ha |- *. rewrite He by done.
      destruct (has_flag (entry m pt j) PTE_V); [|done]. by apply tables_agree.
    + by rewrite (subtables_valid n m').
  - intros va. rewrite !pte_at_S. pose proof (PXn_range (S n) va) as Hr.
    destruct (decide (PX (S n) va = i)) as [->|Hne].
    + by rewrite Hv, Hp.
    + specialize (Ha _ Hr Hne). unfold subtables in Ha. rewrite He by done.
      destruct (has_flag (entry m pt (PX (S n) va)) PTE_V); [|done].
      by apply tables_agree.
Qed.

Lemma branches_update n m m' pt i :
  (forall j, 0 <= j < 512 -> j <> i -> entry m' pt j = entry m pt j) ->
  (forall j, 0 <= j < 512 -> j <> i -> agree (subtables n m pt j) m m') ->
  Z.land (entry m' pt i) PTE_RWX = 0 -> branches n m' (PTE2PA (entry m' pt i)) ->
  branches (S n) m pt -> branches (S n) m' pt.
Proof.
  intros He Ha Hf Hc Hb j Hj Hv. destruct (decide (j = i)) as [->|Hne]; [done|].
  rewrite He in Hv |- * by done. destruct (Hb j Hj Hv) as [? Hb']. split; [done|].
  specialize (Ha j Hj Hne). rewrite subtables_valid in Ha by done.
  by apply (tables_agree n m m').
Qed.

(** ** Owned tables and growth *)

(** The table and its pages belong to the caller. *)
Definition own (n : nat) (s : kernel) (pt : Z) : Prop :=
  NoDup (tables n (mem s) pt) /\
  Forall (fun p => page_ok p /\ 1 <= refcnt s (refindex p)) (tables n (mem s) pt) /\
  branches n (mem s) pt.

Lemma own_tree_ok n s pt : own n s pt -> tree_ok n (mem s) pt.
Proof.
  intros (Hn & Hf & _). split; [done|]. eapply Forall_impl; [done|]. by intros p [[? _] _].
Qed.

Lemma own_elem n s pt p :
  own n s pt -> p ∈ tables n (mem s) pt -> page_ok p /\ 1 <= refcnt s (refindex p).
Proof. intros (_ & Hf & _) Hp. rewrite Forall_forall in Hf. by apply Hf. Qed.

Lemma own_child n s pt i :
  own (S n) s pt -> 0 <= i < 512 -> has_flag (entry (mem s) pt i) PTE_V = true ->
  own n s (PTE2PA (entry (mem s) pt i)).
Proof.
  intros Ho Hi Hv. split_and!.
  - by destruct (tree_ok_child n _ pt i (own_tree_ok _ _ _ Ho) Hi Hv) as [[? _] _].
  - destruct Ho as (_ & Hf & _). rewrite Forall_forall in *. intros p Hp. apply Hf.
    eapply subtables_in; [done|]. by rewrite subtables_valid.
  - destruct Ho as (_ & _ & Hb). by apply (Hb i).
Qed.

(** Only memory and the allocator's variables differ. *)
Definition only_mem (s s' : kernel) : Prop :=
  s' = set_mem (mem s') (set_freelist (freelist s') (set_refcnt (refcnt s') s)).

Lemma only_mem_refl s : only_mem s s.
Proof. by destruct s. Qed.

Lemma only_mem_trans s1 s2 s3 : only_mem s1 s2 -> only_mem s2 s3 -> only_mem s1 s3.
Proof. unfold only_mem. intros H1 H2. rewrite H2, H1. by destruct s1. Qed.

Lemma only_mem_held s s' : only_mem s s' -> held s' = held s.
Proof. intros ->. done. Qed.

(** The pages [new] moved from the free list [l] to the caller. *)
Record grown (s s' : kernel) (l l' new : list Z) : Prop := {
  g_inv : kmem_inv s' l';
  g_list : l ≡ₚ new ++ l';
  g_only : only_mem s s';
  g_new : forall p, p ∈ new -> refcnt s' (refindex p) = 1;
  g_ref : forall p, page_ok p -> p ∉ new -> refcnt s' (refindex p) = refcnt s (refindex p)
}.

(** Memory changed at most on the given pages. *)
Definition mem_within (P : list Z) (m m' : Z -> Z) : Prop :=
  forall x, (forall p, p ∈ P -> x < p \/ p + PGSIZE <= x) -> m' x = m x.

Lemma mem_within_agree P Q m m' :
  Forall page_aligned P -> Forall page_aligned Q -> (forall p, p ∈ Q -> p ∉ P) ->
  mem_within P m m' -> agree Q m m'.
Proof.
  intros HP HQ Hd Hm q x Hq Hx. apply Hm. intros p Hp.
  rewrite Forall_forall in HP, HQ.
  assert (Hne : p <> q) by (intros ->; by apply (Hd q)).
  pose proof (pages_disjoint p q (HP p Hp) (HQ q Hq) Hne). lia.
Qed.

Lemma mem_within_mono P Q m m' :
  (forall p, p ∈ P -> p ∈ Q) -> mem_within P m m' -> mem_within Q m m'.
Proof. intros H Hm x Hx. apply Hm. auto. Qed.

Lemma mem_within_trans P m1 m2 m3 :
  mem_within P m1 m2 -> mem_within P m2 m3 -> mem_within P m1 m3.
Proof. intros H1 H2 x Hx. rewrite H2, H1; done. Qed.

Context {LO : LayoutOk L}.

Lemma free_elem s l p : kmem_inv s l -> p ∈ l -> page_ok p /\ refcnt s (refindex p) = 0.
Proof.
  intros [_ _ Hp _ Hz] Hin. rewrite app_nil_r in Hp. rewrite Forall_forall in Hp.
  split; [by apply Hp|]. apply Hz; [by apply Hp|]. rewrite app_nil_r. done.
Qed.

Lemma free_nodup s l : kmem_inv s l -> NoDup l.
Proof. intros [_ Hn _ _ _]. by rewrite app_nil_r in Hn. Qed.

Lemma owned_not_free s l p :
  kmem_inv s l -> 1 <= refcnt s (refindex p) -> p ∉ l.
Proof. intros Hi Hc Hp. destruct (free_elem s l p Hi Hp) as [_ ?]. lia. Qed.

Lemma kmem_inv_within s l P m' :
  kmem_inv s l -> Forall page_aligned P -> (forall p, p ∈ P -> p ∉ l) ->
  mem_within P (mem s) m' -> kmem_inv (set_mem m' s) l.
Proof.
  intros Hi HP Hd Hm. apply kmem_inv_write; [|done]. intros p x Hp Hx.
  assert (Hag : agree l (mem s) m').
  { eapply mem_within_agree; [exact HP| | |done].
    - apply Forall_forall. intros q Hq. by apply (free_elem s l q Hi Hq).
    - intros q Hq HqP. by apply (Hd q). }
  symmetry. apply (Hag p); [done|]. unfold PGSIZE. lia.
Qed.

Lemma grown_refl s l : kmem_inv s l -> grown s s l l [].
Proof. intros. split; try done; [apply only_mem_refl|set_solver]. Qed.

Lemma grown_trans s1 s2 s3 l1 l2 l3 n1 n2 :
  kmem_inv s1 l1 -> grown s1 s2 l1 l2 n1 -> grown s2 s3 l2 l3 n2 ->
  grown s1 s3 l1 l3 (n1 ++ n2).
Proof.
  intros Hi [I1 L1 O1 N1 R1] [I2 L2 O2 N2 R2].
  assert (Hl : l1 ≡ₚ n1 ++ n2 ++ l3) by by rewrite L1, L2.
  split; try done.
  - by rewrite Hl, app_assoc.
  - by eapply only_mem_trans.
  - pose proof (free_nodup _ _ Hi) as Hnd.
    intros p [Hp|Hp]%elem_of_app; [|auto].
    rewrite R2; [auto| |].
    + apply (free_elem s1 _ p Hi). rewrite Hl, !elem_of_app. tauto.
    + rewrite Hl in Hnd. apply NoDup_app in Hnd as (_ & Hd & _).
      intros Hp2. apply (Hd p Hp). apply elem_of_app. by left.
  - intros p Hp Hn. rewrite R2, R1; set_solver.
Qed.

Lemma grown_alloc s p l :
  kmem_inv s (p :: l) -> grown s (kalloc_post p s) (p :: l) l [p].
Proof.
  intros Hi. split; try done.
  - by apply kalloc_inv.
  - intros q ->%list_elem_of_singleton. apply fn_lookup_insert.
  - intros q Hq Hn. unfold kalloc_post; cbn [refcnt set_mem set_refcnt].
    rewrite refcnt_upd; [|by apply (free_elem s (p :: l) p Hi); set_solver|done].
    rewrite decide_False; [done|set_solver].
Qed.

Lemma grown_write s s' l l' new m' P :
  grown s s' l l' new -> Forall page_aligned P -> (forall p, p ∈ P -> p ∉ l') ->
  mem_within P (mem s') m' -> grown s (set_mem m' s') l l' new.
Proof.
  intros [I1 L1 O1 N1 R1] HP Hd Hm. split; try done.
  - by eapply kmem_inv_within.
  - rewrite O1. by destruct s.
Qed.

(** [kalloc] followed by a zero fill. *)
Definition zalloc_post (p : Z) (s : kernel) : kernel :=
  set_mem (mem_fill (mem (kalloc_post p s)) p PGSIZE 0) (kalloc_post p s).

Lemma zalloc_grown s p l :
  kmem_inv s (p :: l) ->
  grown s (zalloc_post p s) (p :: l) l [p] /\
  mem_within [p] (mem s) (mem (zalloc_post p s)) /\
  (forall i, 0 <= i < 512 -> entry (mem (zalloc_post p s)) p i = 0).
Proof.
  intros Hi. destruct (free_elem _ _ p Hi) as [[Hal _] _]; [set_solver|].
  pose proof (free_nodup _ _ Hi) as Hnd. apply NoDup_cons in Hnd as [Hpn _].
  unfold zalloc_post. split_and!.
  - apply (grown_write _ _ _ _ _ _ [p]); [by apply grown_alloc| | |].
    + by apply Forall_singleton.
    + by intros q ->%list_elem_of_singleton.
    + intros x Hx. apply mem_fill_outside. apply Hx. set_solver.
  - intros x Hx. specialize (Hx p ltac:(set_solver)).
    unfold kalloc_post; cbn [mem set_mem]. by rewrite !mem_fill_outside.
  - intros i Hr. apply load64_fill; unfold PGSIZE; lia.
Qed.

(** ** [walk] *)

(** What a [walk] with [alloc] set guarantees: it may add table pages from the
    free list, it changes no translation, and it returns the address of the
    leaf entry unless memory has run out. *)
Definition walk_result (n : nat) (s : kernel) (pt va : Z) (l : list Z)
    (a : Z) (s' : kernel) : Prop :=
  exists l' new, grown s s' l l' new /\
    mem_within (tables n (mem s) pt ++ new) (mem s) (mem s') /\
    tables n (mem s') pt ≡ₚ tables n (mem s) pt ++ new /\
    (forall va', pte_at n (mem s') pt va' = pte_at n (mem s) pt va') /\
    (branches n (mem s) pt -> branches n (mem s') pt) /\
    ((a = 0 /\ l' = []) \/ slot n (mem s') pt va = Some a).

Lemma own_aligned n s pt : own n s pt -> Forall page_aligned (tables n (mem s) pt).
Proof. intros H. by apply own_tree_ok. Qed.

Lemma new_aligned s l new l' : kmem_inv s l -> l ≡ₚ new ++ l' -> Forall page_aligned new.
Proof.
  intros Hi Hl. apply Forall_forall. intros p Hp.
  apply (free_elem s _ p Hi). rewrite Hl, elem_of_app. by left.
Qed.

Lemma own_not_in_free n s pt l p :
  own n s pt -> kmem_inv s l -> p ∈ tables n (mem s) pt -> p ∉ l.
Proof.
  intros Ho Hi Hp. eapply owned_not_free; [done|]. by eapply own_elem.
Qed.

Lemma subtables_elem n s pt j p :
  own (S n) s pt -> 0 <= j < 512 -> p ∈ subtables n (mem s) pt j ->
  p ∈ tables (S n) (mem s) pt /\ p <> pt.
Proof.
  intros [Hn _] Hj Hp. split; [by eapply subtables_in|].
  rewrite tables_S in Hn. apply NoDup_cons in Hn as [Hpt _]. intros ->.
  apply Hpt. apply list_elem_of_bind. exists j. by rewrite elem_of_upto.
Qed.

Lemma walk_result_child n s pt va l a s' :
  kmem_inv s l -> own (S n) s pt ->
  has_flag (entry (mem s) pt (PX (S n) va)) PTE_V = true ->
  walk_result n s (PTE2PA (entry (mem s) pt (PX (S n) va))) va l a s' ->
  walk_result (S n) s pt va l a s'.
Proof.
  intros Hi Ho Hv (l' & new & Hg & Hm & Ht & Hp & Hb & Ha).
  set (i := PX (S n) va) in *. set (c := PTE2PA (entry (mem s) pt i)) in *.
  assert (Hri : 0 <= i < 512) by apply PXn_range.
  pose proof (g_list _ _ _ _ _ Hg) as Hl.
  assert (Hcin : forall p, p ∈ tables n (mem s) c -> p ∈ subtables n (mem s) pt i).
  { intros p. by rewrite subtables_valid. }
  (* pages outside the changed child and the new pages keep their contents *)
  assert (Hag : forall Q, Forall page_aligned Q ->
    (forall p, p ∈ Q -> p ∈ tables (S n) (mem s) pt /\ p ∉ tables n (mem s) c) ->
    agree Q (mem s) (mem s')).
  { intros Q HQ Hd. eapply mem_within_agree; [|exact HQ| |exact Hm].
    - apply Forall_app. split; [|by eapply new_aligned].
      apply (own_aligned n s c). by apply own_child.
    - intros p Hpq [Hc|Hn]%elem_of_app; destruct (Hd p Hpq) as [Hin Hnc]; [done|].
      apply (own_not_in_free _ _ _ _ p Ho Hi Hin). rewrite Hl. apply elem_of_app. by left. }
  assert (Hall := own_aligned _ _ _ Ho). rewrite Forall_forall in Hall.
  assert (He : forall j, 0 <= j < 512 -> entry (mem s') pt j = entry (mem s) pt j).
  { intros j. apply (entry_agree [pt]); [by apply list_elem_of_singleton|].
    apply Hag; [apply Forall_singleton, Hall, tables_root|].
    intros p ->%list_elem_of_singleton. split; [apply tables_root|].
    by apply (tree_ok_child n (mem s) pt i (own_tree_ok _ _ _ Ho)). }
  assert (Hoth : forall j, 0 <= j < 512 -> j <> i -> agree (subtables n (mem s) pt j) (mem s) (mem s')).
  { intros j Hj Hne. apply Hag.
    - apply Forall_forall. intros p Hp'. by apply Hall, (subtables_elem n s pt j p).
    - intros p Hp'. split; [by apply (subtables_elem n s pt j p)|].
      intros Hc%Hcin. apply Hne. eapply tree_ok_disjoint; eauto using own_tree_ok. }
  destruct (parent_update n (mem s) (mem s') pt i new) as [Ht' Hp']; try done.
  - by rewrite He.
  - intros. by apply He.
  - rewrite He, subtables_valid by done. exact Ht.
  - intros va'. rewrite He, Hv by done. apply Hp.
  - exists l', new. split_and!; try done.
    + eapply mem_within_mono; [|exact Hm]. intros p [Hpc|Hpn]%elem_of_app.
      * apply elem_of_app. left. eapply subtables_in; [exact Hri|]. auto.
      * apply elem_of_app. by right.
    + intros HB. destruct (HB i Hri Hv) as [Hrwx Hbc].
      apply (branches_update n (mem s) (mem s') pt i); rewrite ?He by done; auto.
    + destruct Ha as [Ha|Ha]; [by left|right].
      rewrite slot_S. fold i. by rewrite He, Hv.
Qed.

(** The state after [walk] has hung the new table [p] below entry [i]. *)
Definition hang_post (p pt i : Z) (s : kernel) : kernel :=
  set_mem (store64 (mem (zalloc_post p s)) (pt + 8 * i) (mk_pte p 0)) (zalloc_post p s).

Lemma page_ok_valid_pa p : page_ok p -> valid_pa p.
Proof.
  intros [Ha Hr]. destruct LO. split; [|done].
  unfold PHYSTOP, KERNBASE in *. lia.
Qed.

Lemma hang_grown s p l pt i :
  kmem_inv s (p :: l) -> 0 <= i < 512 -> page_aligned pt -> (pt ∉ p :: l) ->
  let s' := hang_post p pt i s in
  grown s s' (p :: l) l [p] /\ mem_within [pt; p] (mem s) (mem s') /\
  (forall j, 0 <= j < 512 -> entry (mem s') p j = 0) /\
  entry (mem s') pt i = mk_pte p 0 /\
  (forall j, 0 <= j < 512 -> j <> i -> entry (mem s') pt j = entry (mem s) pt j).
Proof.
  intros Hi Hr Ha Hn s'. apply not_elem_of_cons in Hn as [Hne Hnl].
  destruct (free_elem _ _ p Hi) as [Hpo _]; [by apply elem_of_cons; left|].
  destruct (zalloc_grown s p l Hi) as (Hg & Hm & Hz).
  pose proof (pages_disjoint p pt (proj1 Hpo) Ha ltac:(done)) as Hd. unfold PGSIZE in Hd.
  assert (Hms : mem_within [pt] (mem (zalloc_post p s)) (mem s')).
  { intros x Hx. apply (store64_outside _ _ _ pt); [lia|unfold PGSIZE; lia|].
    apply Hx. by apply list_elem_of_singleton. }
  split_and!.
  - apply (grown_write _ _ _ _ _ _ [pt]); try done; [by apply Forall_singleton|].
    by intros q ->%list_elem_of_singleton.
  - eapply mem_within_trans; (eapply mem_within_mono; [|eassumption]);
      intros q ->%list_elem_of_singleton; set_solver.
  - intros j Hj. unfold entry, s', hang_post; cbn [mem set_mem].
    rewrite load64_store64_ne by lia. by apply Hz.
  - apply load64_store64_eq. apply mk_pte_u64; [by apply page_ok_valid_pa|lia].
  - intros j Hj Hji. unfold entry, s', hang_post; cbn [mem set_mem].
    rewrite load64_store64_ne by lia. apply load64_ext. intros k Hk. apply Hm.
    intros q ->%list_elem_of_singleton. unfold PGSIZE. lia.
Qed.

Lemma walk_result_fresh n s pt va p l a s' :
  kmem_inv s (p :: l) -> own (S n) s pt ->
  has_flag (entry (mem s) pt (PX (S n) va)) PTE_V = false ->
  walk_result n (hang_post p pt (PX (S n) va) s) p va l a s' ->
  walk_result (S n) s pt va (p :: l) a s'.
Proof.
  intros Hi Ho Hv (l' & new & Hg & Hm & Ht & Hp & Hb & Ha).
  set (i := PX (S n) va) in *. set (s1 := hang_post p pt i s) in *.
  assert (Hri : 0 <= i < 512) by apply PXn_range.
  assert (Hall := own_aligned _ _ _ Ho). rewrite Forall_forall in Hall.
  assert (Hnf : forall q, q ∈ tables (S n) (mem s) pt -> q ∉ p :: l)
    by (intros q; by apply own_not_in_free).
  destruct (hang_grown s p l pt i Hi Hri) as (Hg1 & Hm1 & Hz & He & Hej);
    [apply Hall, tables_root|apply Hnf, tables_root|]. fold s1 in Hg1, Hm1, Hz, He, Hej.
  destruct (zero_table n (mem s1) p Hz) as (Ht1 & Hp1 & Hb1). rewrite Ht1 in Hm, Ht.
  pose proof (g_list _ _ _ _ _ Hg) as Hl.
  assert (Hal : Forall page_aligned (p :: l)).
  { apply Forall_forall. intros q Hq. by apply (free_elem s _ q Hi). }
  assert (Hnew : forall q, q ∈ [p] ++ new -> q ∈ p :: l).
  { intros q. rewrite Hl. clear. set_solver. }
  assert (Hag : forall Q, (forall q, q ∈ Q -> q ∈ tables (S n) (mem s) pt) ->
    agree Q (mem s1) (mem s')).
  { intros Q HQ. eapply mem_within_agree; [| | |exact Hm].
    - apply Forall_forall. intros q Hq%Hnew. rewrite Forall_forall in Hal. auto.
    - apply Forall_forall. auto.
    - intros q Hq Hq'. apply (Hnf q); auto. }
  assert (He' : forall j, 0 <= j < 512 -> entry (mem s') pt j = entry (mem s1) pt j).
  { intros j. apply (entry_agree [pt]); [by apply list_elem_of_singleton|].
    apply Hag. intros q ->%list_elem_of_singleton. apply tables_root. }
  assert (Hpa : PTE2PA (entry (mem s') pt i) = p).
  { rewrite He', He by done. apply PTE2PA_mk_pte; [|lia]. apply page_ok_valid_pa.
    apply (free_elem s (p :: l) p Hi). by apply elem_of_cons; left. }
  assert (Hf : has_flag (entry (mem s') pt i) PTE_V = true)
    by (rewrite He', He by done; apply mk_pte_valid).
  assert (Hoth : forall j, 0 <= j < 512 -> j <> i -> entry (mem s') pt j = entry (mem s) pt j)
    by (intros j Hj Hne; by rewrite He', Hej).
  assert (Hagj : forall j, 0 <= j < 512 -> j <> i -> agree (subtables n (mem s) pt j) (mem s) (mem s')).
  { intros j Hj Hne q x Hq Hx.
    destruct (subtables_elem n s pt j q Ho Hj Hq) as [Hqt Hqp].
    rewrite (Hag [q]) with (p := q); [|by intros ? ->%list_elem_of_singleton
      |by apply list_elem_of_singleton|done].
    apply (mem_within_agree [pt; p] [q] (mem s)) with (p := q); try done.
    + apply Forall_cons. split; [apply Hall, tables_root|].
      apply Forall_cons in Hal as [? _]. by apply Forall_singleton.
    + apply Forall_singleton. auto.
    + intros ? ->%list_elem_of_singleton. apply not_elem_of_cons. split; [done|].
      intros ->%list_elem_of_singleton. apply (Hnf p Hqt). by apply elem_of_cons; left.
    + by apply list_elem_of_singleton. }
  destruct (parent_update n (mem s) (mem s') pt i ([p] ++ new)) as [Ht' Hp']; try done.
  - rewrite Hpa. unfold subtables. by rewrite Hv.
  - intros va'. by rewrite Hpa, Hv, Hp, Hp1.
  - exists l', ([p] ++ new). split_and!; try done.
    + by eapply grown_trans.
    + eapply mem_within_trans; (eapply mem_within_mono; [|eassumption]).
      * intros q [->| ->%list_elem_of_singleton]%elem_of_cons; apply elem_of_app;
          [left; apply tables_root|right; by apply elem_of_cons; left].
      * intros q Hq. apply elem_of_app. by right.
    + intros HB. apply (branches_update n (mem s) (mem s') pt i); rewrite ?Hpa; auto.
      rewrite He', He, land_mk_pte by done. done.
    + destruct Ha as [Ha|Ha]; [by left|right].
      rewrite slot_S. fold i. by rewrite Hf, Hpa.
Qed.

Lemma walk_alloc n va : forall s l pt,
  kmem_inv s l -> L_kmem ∉ held s -> own n s pt ->
  returns (walk_loop n pt va true s) (walk_result n s pt va l).
Proof.
  induction n as [|n IH]; intros s l pt Hi Hh Ho.
  { exists l, []. rewrite app_nil_r. split_and!; try done; [by apply grown_refl|].
    by right. }
  cbn [walk_loop]. kunfold. fold (entry (mem s) pt (PX (S n) va)).
  destruct (has_flag (entry (mem s) pt (PX (S n) va)) PTE_V) eqn:Hv.
  { eapply returns_mono; [apply IH; eauto using own_child, PXn_range|].
    intros a s'. by apply walk_result_child. }
  cbn [negb]. destruct l as [|p l].
  { rewrite (kalloc_none [] s) by done. exists [], []. rewrite app_nil_r.
    split_and!; try done; [by apply grown_refl|by left]. }
  destruct (free_elem _ _ p Hi) as [Hpo _]; [by apply elem_of_cons; left|].
  rewrite (kalloc_some [] s p l) by done. cbn [obind].
  rewrite (proj2 (Z.eqb_neq p 0)) by by apply page_ok_nonzero.
  assert (Hroot := own_not_in_free _ _ _ _ pt Ho Hi (tables_root _ _ _)).
  destruct (hang_grown s p l pt (PX (S n) va) Hi (PXn_range _ _)) as (Hg1 & _ & Hz & _);
    [apply (own_elem _ _ _ pt Ho (tables_root _ _ _))|done|].
  replace (Z.lor (PA2PTE p) PTE_V) with (mk_pte p 0)
    by (unfold mk_pte; by rewrite Z.lor_0_r).
  eapply returns_mono; [apply (IH (hang_post p pt (PX (S n) va) s) l p)|].
  - apply Hg1.
  - by rewrite (only_mem_held _ _ (g_only _ _ _ _ _ Hg1)).
  - split_and!; rewrite ?(proj1 (zero_table n _ p Hz)); [apply NoDup_singleton| |by apply zero_table].
    apply Forall_singleton. split; [done|].
    rewrite (g_new _ _ _ _ _ Hg1); [lia|by apply elem_of_cons; left].
  - intros a s'. by apply walk_result_fresh.
Qed.

(** Without [alloc] the walk only reads. *)
Lemma walk_loop_read n va s : forall pt,
  walk_loop n pt va false s = Ok (default 0 (slot n (mem s) pt va)) s.
Proof.
  induction n as [|n IH]; intros pt; [done|].
  cbn [walk_loop]. kunfold. rewrite slot_S. unfold entry.
  destruct (has_flag (load64 (mem s) (pt + 8 * PX (S n) va)) PTE_V); [apply IH|done].
Qed.

Lemma walk_read s pt va :
  va < MAXVA -> walk pt va false s = Ok (default 0 (slot 2 (mem s) pt va)) s.
Proof.
  intros. unfold walk. rewrite (proj2 (Z.leb_gt _ _)) by lia. apply walk_loop_read.
Qed.

(** The table [pt] may have gained the pages [new]; everything written lies in
    its pages. *)
Record tab_ext (n : nat) (pt : Z) (s s' : kernel) (l l' new : list Z) : Prop := {
  te_grown : grown s s' l l' new;
  te_mem : mem_within (tables n (mem s) pt ++ new) (mem s) (mem s');
  te_tables : tables n (mem s') pt ≡ₚ tables n (mem s) pt ++ new;
  te_branches : branches n (mem s) pt -> branches n (mem s') pt
}.

Lemma tab_ext_refl n pt s l : kmem_inv s l -> tab_ext n pt s s l l [].
Proof. intros. split; rewrite ?app_nil_r; [by apply grown_refl|done|done|done]. Qed.

Lemma tab_ext_trans n pt s1 s2 s3 l1 l2 l3 n1 n2 :
  kmem_inv s1 l1 -> tab_ext n pt s1 s2 l1 l2 n1 -> tab_ext n pt s2 s3 l2 l3 n2 ->
  tab_ext n pt s1 s3 l1 l3 (n1 ++ n2).
Proof.
  intros Hi [G1 M1 T1 B1] [G2 M2 T2 B2]. split; [| | |auto].
  - by eapply grown_trans.
  - eapply mem_within_trans; (eapply mem_within_mono; [|eassumption]); intros p;
      rewrite ?T1, !elem_of_app; tauto.
  - by rewrite T2, T1, app_assoc.
Qed.

Lemma tab_ext_own n pt s s' l l' new :
  kmem_inv s l -> own n s pt -> tab_ext n pt s s' l l' new -> own n s' pt.
Proof.
  intros Hi Ho [[I1 L1 O1 N1 R1] M1 T1 B1].
  assert (Hnew : forall p, p ∈ new -> p ∈ l) by (intros p; rewrite L1, elem_of_app; tauto).
  split_and!; rewrite ?T1; [| |by apply B1, Ho].
  - apply NoDup_app. split_and!; [apply Ho| |].
    + intros p Hp Hn%Hnew. by apply (own_not_in_free _ _ _ _ p Ho Hi).
    + pose proof (free_nodup _ _ Hi) as Hnd. rewrite L1 in Hnd. by apply NoDup_app in Hnd as (? & _ & _).
  - apply Forall_app. split; apply Forall_forall; intros p Hp.
    + destruct (own_elem _ _ _ p Ho Hp) as [Hpo Hc]. rewrite R1; [done|done|].
      intros Hn%Hnew. by apply (own_not_in_free _ _ _ _ p Ho Hi).
    + rewrite N1 by done. split; [|lia]. by apply (free_elem s l p Hi), Hnew.
Qed.

Lemma tab_ext_held n pt s s' l l' new :
  tab_ext n pt s s' l l' new -> held s' = held s.
Proof. intros [[_ _ O _ _] _ _ _]. by apply only_mem_held. Qed.

(** Writing a leaf entry. *)
Lemma set_leaf n s pt va a v l :
  kmem_inv s l -> own n s pt -> slot n (mem s) pt va = Some a -> is_u64 v ->
  let s' := set_mem (store64 (mem s) a v) s in
  tab_ext n pt s s' l l [] /\
  (forall va', slot n (mem s') pt va' = slot n (mem s) pt va') /\
  (forall va', pte_at n (mem s') pt va' =
     if decide (same_path n va va') then v else pte_at n (mem s) pt va').
Proof.
  intros Hi Ho Hs Hv s'.
  destruct (leaf_store n (mem s) pt va a v (own_tree_ok _ _ _ Ho) Hs Hv) as (Ht & Hsl & Hp & Hb).
  destruct (slot_in _ _ _ _ _ Hs) as (q & Hq & Hlo & Hhi).
  assert (Hm : mem_within (tables n (mem s) pt) (mem s) (mem s')).
  { intros x Hx. apply (store64_outside _ _ _ q); [done|done|]. by apply Hx. }
  split; [|done]. split; rewrite ?app_nil_r; [|done|unfold s'; cbn [mem set_mem]; by rewrite Ht|done].
  eapply grown_write; [by apply grown_refl|by apply own_aligned| |exact Hm].
  intros p. by apply own_not_in_free.
Qed.

(** ** [mappages] *)

(** The pages of the 39-bit address space, and those [walk] admits. *)
Definition page_va (va : Z) : Prop := 0 <= va < 2^39 /\ page_aligned va.
Definition user_va (va : Z) : Prop := 0 <= va < MAXVA /\ page_aligned va.

Lemma user_page_va va : user_va va -> page_va va.
Proof. intros [Hr Ha]. change MAXVA with (2^38) in Hr. split; [lia|done]. Qed.

(** The view [V] of an address space after [k] pages from [va] on have been
    mapped to the pages from [pa] on. *)
Definition map_view (V : Z -> Z) (va pa perm : Z) (k : nat) : Z -> Z := fun x =>
  if decide (va <= x < va + k * PGSIZE) then mk_pte (pa + (x - va)) perm else V x.

Lemma same_path_if {A} va x (u v : A) :
  user_va va -> page_va x ->
  (if decide (same_path 2 va x) then u else v) = if decide (x = va) then u else v.
Proof.
  intros [Hv Hva]%user_page_va [Hx Hxa]. pose proof (same_path_2 va x Hv Hx Hva Hxa) as E.
  repeat case_decide; try done; [|by subst; destruct H].
  by destruct H0; symmetry; apply E.
Qed.

Definition mappages_result (s : kernel) (pt va pa perm : Z) (n : nat) (l : list Z)
    (r : Z) (s' : kernel) : Prop :=
  exists l' new (k : nat), tab_ext 2 pt s s' l l' new /\
    (forall x, page_va x ->
       pte_at 2 (mem s') pt x = map_view (pte_at 2 (mem s) pt) va pa perm k x) /\
    ((r = 0 /\ k = n) \/ (r = -1 /\ (k < n)%nat /\ l' = [])).

Lemma pte_at_slot n m pt va a : slot n m pt va = Some a -> load64 m a = pte_at n m pt va.
Proof. intros H. unfold pte_at. by rewrite H. Qed.

Lemma slot_nonzero n s pt va a : own n s pt -> slot n (mem s) pt va = Some a -> a <> 0.
Proof.
  intros Ho Hs. destruct (slot_in _ _ _ _ _ Hs) as (p & Hp & Hlo & _).
  destruct (own_elem _ _ _ _ Ho Hp) as [Hpo _]. destruct Hpo as [_ ?]. destruct LO.
  unfold KERNBASE in *. lia.
Qed.

Lemma walk_alloc_top s l pt va :
  kmem_inv s l -> L_kmem ∉ held s -> own 2 s pt -> va < MAXVA ->
  returns (walk pt va true s) (walk_result 2 s pt va l).
Proof.
  intros. unfold walk. rewrite (proj2 (Z.leb_gt _ _)) by lia. by apply walk_alloc.
Qed.

Lemma mappages_oom s l pt va pa perm n s1 :
  walk_result 2 s pt va l 0 s1 -> own 2 s pt -> kmem_inv s l ->
  mappages_result s pt va pa perm (S n) l (-1) s1.
Proof.
  intros (l1 & new & Hg & Hm & Ht & Hp & Hb & Ha) Ho Hi.
  assert (Hx : tab_ext 2 pt s s1 l l1 new) by (by split).
  exists l1, new, 0%nat. split_and!; [done| |].
  - intros x _. rewrite Hp. unfold map_view. by rewrite decide_False by lia.
  - right. destruct Ha as [[_ ?]|Ha]; [split_and!; [done|lia|done]|].
    by destruct (slot_nonzero _ _ _ _ _ (tab_ext_own _ _ _ _ _ _ _ Hi Ho Hx) Ha).
Qed.

(** One page: the entry of [va] after a successful walk and a store. *)
Lemma map_one s l pt va pa perm s1 a :
  kmem_inv s l -> own 2 s pt -> user_va va -> valid_pa pa -> 0 <= perm < 2^10 ->
  walk_result 2 s pt va l a s1 -> a <> 0 ->
  let s2 := set_mem (store64 (mem s1) a (mk_pte pa perm)) s1 in
  load64 (mem s1) a = pte_at 2 (mem s) pt va /\
  exists l' new, tab_ext 2 pt s s2 l l' new /\
    forall x, page_va x -> pte_at 2 (mem s2) pt x =
      if decide (x = va) then mk_pte pa perm else pte_at 2 (mem s) pt x.
Proof.
  intros Hi Ho [Hva Hal] Hpa Hperm (l1 & new & Hg & Hm & Ht & Hp & Hb & Ha) Ha0 s2.
  destruct Ha as [[-> _]|Ha]; [done|].
  assert (Hx : tab_ext 2 pt s s1 l l1 new) by (by split).
  pose proof (tab_ext_own _ _ _ _ _ _ _ Hi Ho Hx) as Ho1.
  destruct (set_leaf 2 s1 pt va a (mk_pte pa perm) l1 (g_inv _ _ _ _ _ Hg) Ho1 Ha)
    as (Hx2 & _ & Hp2); [by apply mk_pte_u64|].
  split; [by rewrite (pte_at_slot _ _ _ _ _ Ha)|].
  exists l1, new. split.
  - rewrite <- (app_nil_r new). by eapply tab_ext_trans.
  - intros x Hxu. unfold s2. rewrite Hp2, Hp. by apply same_path_if.
Qed.

Lemma user_va_next va n :
  user_va va -> (2 <= n)%nat -> va + n * PGSIZE <= MAXVA -> user_va (va + PGSIZE).
Proof. unfold user_va, page_aligned. change PGSIZE with 4096. intros. split; zlia. Qed.

Lemma valid_pa_next pa n :
  valid_pa pa -> (2 <= n)%nat -> pa + n * PGSIZE <= 2^56 -> valid_pa (pa + PGSIZE).
Proof. unfold valid_pa, page_aligned. change PGSIZE with 4096. intros. split; zlia. Qed.

Lemma user_va_u64 x : 0 <= x <= MAXVA -> u64 x = x.
Proof. change MAXVA with (2^38). intros. apply u64_small. ints. lia. Qed.

Lemma map_view_S V va pa perm k x :
  user_va va -> page_va x ->
  map_view (fun y => if decide (y = va) then mk_pte pa perm else V y)
    (va + PGSIZE) (pa + PGSIZE) perm k x = map_view V va pa perm (S k) x.
Proof.
  intros [_ Hva] [_ Hx]. unfold map_view, page_aligned in *. change PGSIZE with 4096 in *.
  repeat case_decide; subst; try done; try (f_equal; lia); zlia.
Qed.

Lemma map_view_ext V V' va pa perm k x :
  V x = V' x -> map_view V va pa perm k x = map_view V' va pa perm k x.
Proof. intros H. unfold map_view. by rewrite H. Qed.

Lemma map_view_0 V va pa perm x : map_view V va pa perm 0 x = V x.
Proof. unfold map_view. rewrite decide_False by lia. done. Qed.

Lemma mappages_loop_spec n pt perm : forall s l va pa,
  kmem_inv s l -> L_kmem ∉ held s -> own 2 s pt -> (1 <= n)%nat ->
  user_va va -> va + n * PGSIZE <= MAXVA ->
  valid_pa pa -> pa + n * PGSIZE <= 2^56 -> 0 <= perm < 2^10 ->
  (forall x, user_va x -> va <= x < va + n * PGSIZE ->
     has_flag (pte_at 2 (mem s) pt x) PTE_V = false) ->
  returns (mappages_loop n pt va (va + n * PGSIZE - PGSIZE) pa perm s)
    (mappages_result s pt va pa perm n l).
Proof.
  induction n as [|n IH]; intros s l va pa Hi Hh Ho Hn Hva Hend Hpa Hpe Hperm Hun; [lia|].
  cbn [mappages_loop]. apply returns_bind.
  eapply returns_mono; [apply walk_alloc_top; try done; apply Hva|]. intros a s1 Hw.
  destruct (a =? 0) eqn:Ha; [apply Z.eqb_eq in Ha; subst; by apply mappages_oom|].
  apply Z.eqb_neq in Ha.
  destruct (map_one s l pt va pa perm s1 a Hi Ho Hva Hpa Hperm Hw Ha)
    as (Hld & l2 & new & Hx & Hv). kunfold.
  rewrite Hld, Hun by (try done; unfold PGSIZE in *; lia). fold (mk_pte pa perm).
  destruct (Z.eqb_spec va (va + S n * PGSIZE - PGSIZE)) as [E|E].
  { assert (n = 0%nat) as -> by (unfold PGSIZE in E; lia).
    exists l2, new, 1%nat. split_and!; [done| |by left].
    intros x Hxu. rewrite <- map_view_S, map_view_0 by done. auto. }
  assert (Hn1 : (1 <= n)%nat) by (unfold PGSIZE in E; lia).
  rewrite !u64_small by (destruct Hpa, Hva; change MAXVA with (2^38) in *;
    unfold PGSIZE in *; ints; lia).
  replace (va + S n * PGSIZE - PGSIZE) with (va + PGSIZE + n * PGSIZE - PGSIZE) by lia.
  eapply returns_mono; [eapply IH; try done; try lia|].
  - apply Hx.
  - by rewrite (tab_ext_held _ _ _ _ _ _ _ Hx).
  - by eapply tab_ext_own.
  - apply (user_va_next va (S n)); [done|lia|done].
  - by apply (valid_pa_next pa (S n)); [|lia|].
  - intros x Hxu Hxr. rewrite Hv by by apply user_page_va. unfold PGSIZE in *.
    rewrite decide_False by lia. apply Hun; [done|lia].
  - intros r s3 (l3 & new' & k & Hx' & Hv' & Hr).
    exists l3, (new ++ new'), (S k). split_and!.
    + by eapply tab_ext_trans.
    + intros x Hxu. rewrite Hv', <- map_view_S by done. by apply map_view_ext, Hv.
    + destruct Hr as [[-> ->]|(-> & Hk & ->)]; [by left|right]. split_and!; [done|lia|done].
Qed.

Lemma mappages_run s l pt va pa perm (n : nat) :
  kmem_inv s l -> L_kmem ∉ held s -> own 2 s pt -> (1 <= n)%nat ->
  user_va va -> va + n * PGSIZE <= MAXVA ->
  valid_pa pa -> pa + n * PGSIZE <= 2^56 -> 0 <= perm < 2^10 ->
  (forall x, user_va x -> va <= x < va + n * PGSIZE ->
     has_flag (pte_at 2 (mem s) pt x) PTE_V = false) ->
  returns (mappages pt va (n * PGSIZE) pa perm s) (fun r s' =>
    own 2 s' pt /\ mappages_result s pt va pa perm n l r s').
Proof.
  intros Hi Hh Ho Hn Hva Hend Hpa Hpe Hperm Hun. unfold mappages.
  destruct Hva as [Hvr Hva0]. rewrite Hva0, Z.mod_mul by done. cbn [negb Z.eqb].
  rewrite (proj2 (Z.eqb_neq _ 0)) by (unfold PGSIZE; lia).
  rewrite Z.div_mul, Nat2Z.id by done.
  rewrite user_va_u64 by (unfold PGSIZE in *; lia).
  eapply returns_mono; [by apply mappages_loop_spec|].
  intros r s' Hr. split; [|done]. destruct Hr as (l' & new & k & Hx & _).
  by eapply tab_ext_own.
Qed.

(** [mappages] on a range of unmapped user pages: it returns; with 0 it
    has mapped exactly the requested pages to consecutive physical pages with
    the requested permissions, with -1 memory ran out after a proper prefix of
    them; every other translation is unchanged, table pages are taken from the
    free list, and memory outside the table is not written. *)
Theorem mappages_spec s l pt va pa perm (n : nat) :
  kmem_inv s l -> L_kmem ∉ held s -> own 2 s pt -> (1 <= n)%nat ->
  user_va va -> va + n * PGSIZE <= MAXVA ->
  valid_pa pa -> pa + n * PGSIZE <= 2^56 -> 0 <= perm < 2^10 ->
  (forall x, user_va x -> va <= x < va + n * PGSIZE ->
     has_flag (pte_at 2 (mem s) pt x) PTE_V = false) ->
  returns (mappages pt va (n * PGSIZE) pa perm s) (fun r s' =>
    own 2 s' pt /\ mappages_result s pt va pa perm n l r s').
Proof. apply mappages_run. Qed.

(** ** [uvmunmap] *)

(** [kfree] of a page the caller has a reference to. *)
Lemma kfree_effect s l p :
  kmem_inv s l -> L_kmem ∉ held s -> page_ok p -> 1 <= refcnt s (refindex p) ->
  exists s', kfree p s = Ok tt s' /\
    kmem_inv s' (if refcnt s (refindex p) =? 1 then p :: l else l) /\ only_mem s s' /\
    mem_within [p] (mem s) (mem s') /\
    (forall q, page_ok q -> refcnt s' (refindex q) =
       refcnt s (refindex q) - if decide (q = p) then 1 else 0).
Proof.
  intros Hi Hh Hp Hc. rewrite kfree_ok by done.
  pose proof (kdec_inv [] s p l Hp Hc Hi) as Hd.
  assert (Hr : forall q, page_ok q -> refcnt (kdec_post p s) (refindex q) =
       refcnt s (refindex q) - if decide (q = p) then 1 else 0).
  { intros q Hq. unfold kdec_post; cbn [refcnt set_refcnt]. rewrite refcnt_upd by done.
    repeat case_decide; subst; try done; lia. }
  destruct (refcnt s (refindex p) =? 1).
  - apply kput_inv in Hd. exists (kput_post p (kdec_post p s)).
    split_and!; try done. intros x Hx.
    specialize (Hx p ltac:(by apply list_elem_of_singleton)).
    unfold kput_post, kdec_post; cbn [mem set_mem set_freelist set_refcnt].
    rewrite (store64_outside _ _ _ p), mem_fill_outside; unfold PGSIZE in *; try done; lia.
  - exists (kdec_post p s). split_and!; try done.
Qed.

(** The pages mapped at the addresses [vs], with repetitions. *)
Definition mapped (V : Z -> Z) (vs : list Z) : list Z :=
  vs ≫= fun a => if has_flag (V a) PTE_V then [PTE2PA (V a)] else [].

Lemma mapped_ext V V' vs : (forall a, a ∈ vs -> V a = V' a) -> mapped V vs = mapped V' vs.
Proof. intros H. unfold mapped. apply bind_ext_elem. intros a Ha. by rewrite H. Qed.

(** The effect of unmapping [vs]: [dead] lists the references given up. *)
Record unmap_post (pt : Z) (s s' : kernel) (vs dead l' : list Z) : Prop := {
  up_inv : kmem_inv s' l';
  up_only : only_mem s s';
  up_own : own 2 s' pt;
  up_tables : tables 2 (mem s') pt = tables 2 (mem s) pt;
  up_mem : mem_within (tables 2 (mem s) pt ++ dead) (mem s) (mem s');
  up_view : forall x, page_va x -> pte_at 2 (mem s') pt x =
    if decide (x ∈ vs /\ has_flag (pte_at 2 (mem s) pt x) PTE_V = true)
    then 0 else pte_at 2 (mem s) pt x;
  up_ref : forall q, page_ok q ->
    refcnt s' (refindex q) = refcnt s (refindex q) - occ q dead
}.

Lemma unmap_post_refl pt s l vs :
  kmem_inv s l -> own 2 s pt ->
  (forall x, x ∈ vs -> page_va x -> has_flag (pte_at 2 (mem s) pt x) PTE_V = false) ->
  unmap_post pt s s vs [] l.
Proof.
  intros Hi Ho Hv. split; try done; rewrite ?app_nil_r; try done.
  - apply only_mem_refl.
  - intros x Hx. case_decide as H; [|done]. destruct H as [Hin Hf]. by rewrite Hv in Hf.
  - intros q Hq. simpl. lia.
Qed.

Lemma invalid_zero : has_flag 0 PTE_V = false.
Proof. done. Qed.

Lemma unmap_post_trans pt s1 s2 s3 vs1 vs2 d1 d2 l2 l3 :
  unmap_post pt s1 s2 vs1 d1 l2 -> unmap_post pt s2 s3 vs2 d2 l3 ->
  unmap_post pt s1 s3 (vs1 ++ vs2) (d1 ++ d2) l3.
Proof.
  intros [I1 O1 W1 T1 M1 V1 R1] [I2 O2 W2 T2 M2 V2 R2]. split; try done.
  - by eapply only_mem_trans.
  - by rewrite T2.
  - eapply mem_within_trans; (eapply mem_within_mono; [|eassumption]); intros p;
      rewrite ?T1, !elem_of_app; tauto.
  - intros x Hx. rewrite V2, V1 by done. pose proof (elem_of_app vs1 vs2 x) as E.
    destruct (decide (x ∈ vs1 /\ _)) as [H1|H1].
    + rewrite invalid_zero. rewrite (decide_True (P := x ∈ vs1 ++ vs2 /\ _)) by tauto.
      by case_decide.
    + repeat case_decide; try done; tauto.
  - intros q Hq. rewrite R2, R1, occ_app by done. lia.
Qed.

(** The table survives changes to pages it does not use. *)
Lemma own_frame n s s' pt P :
  own n s pt -> Forall page_aligned P -> (forall p, p ∈ tables n (mem s) pt -> p ∉ P) ->
  mem_within P (mem s) (mem s') ->
  (forall q, page_ok q -> (q ∉ P) -> refcnt s (refindex q) <= refcnt s' (refindex q)) ->
  own n s' pt /\ tables n (mem s') pt = tables n (mem s) pt /\
  (forall va, slot n (mem s') pt va = slot n (mem s) pt va) /\
  (forall va, pte_at n (mem s') pt va = pte_at n (mem s) pt va).
Proof.
  intros Ho HP Hd Hm Hr.
  assert (Hag : agree (tables n (mem s) pt) (mem s) (mem s'))
    by (eapply mem_within_agree; eauto using own_aligned).
  destruct (tables_agree n _ _ pt Hag) as (Ht & Hs & Hp & Hb).
  split_and!; try done. split_and!; rewrite ?Ht; [apply Ho| |by apply Hb, Ho].
  apply Forall_forall. intros q Hq. destruct (own_elem _ _ _ q Ho Hq) as [Hpo Hc].
  split; [done|]. specialize (Hr q Hpo (Hd q Hq)). lia.
Qed.

(** Freeing a page that is not part of the table. *)
Lemma kfree_unmap_post pt s l p :
  kmem_inv s l -> L_kmem ∉ held s -> own 2 s pt -> page_ok p ->
  1 <= refcnt s (refindex p) -> (p ∉ tables 2 (mem s) pt) ->
  exists s' l', kfree p s = Ok tt s' /\ unmap_post pt s s' [] [p] l' /\
    (forall va, slot 2 (mem s') pt va = slot 2 (mem s) pt va).
Proof.
  intros Hi Hh Ho Hp Hc Hn.
  destruct (kfree_effect s l p Hi Hh Hp Hc) as (s' & Hk & Hi' & Hom & Hm & Hr).
  destruct (own_frame 2 s s' pt [p] Ho) as (Ho' & Ht & Hs & Hv); try done.
  - by apply Forall_singleton, Hp.
  - intros q Hq ->%list_elem_of_singleton. done.
  - intros q Hq Hqp. rewrite Hr by done.
    rewrite decide_False; [lia|]. intros ->. apply Hqp. by apply list_elem_of_singleton.
  - exists s'. eexists. split_and!; try done. split; try done.
    + eapply mem_within_mono; [|exact Hm]. intros q Hq. apply elem_of_app. by right.
    + intros q Hq. rewrite Hr by done. simpl. lia.
Qed.

Lemma set_zero_unmap_post pt s l va a :
  kmem_inv s l -> own 2 s pt -> user_va va -> slot 2 (mem s) pt va = Some a ->
  has_flag (pte_at 2 (mem s) pt va) PTE_V = true ->
  unmap_post pt s (set_mem (store64 (mem s) a 0) s) [va] [] l.
Proof.
  intros Hi Ho Hva Ha Hf.
  destruct (set_leaf 2 s pt va a 0 l Hi Ho Ha ltac:(ints; lia)) as (Hx & _ & Hv).
  pose proof (leaf_store 2 (mem s) pt va a 0 (own_tree_ok _ _ _ Ho) Ha ltac:(ints; lia)) as (Ht & _).
  pose proof (tab_ext_own _ _ _ _ _ _ _ Hi Ho Hx) as Ho'.
  destruct Hx as [[Hi' _ Hom _ _] Hm _ _].
  split; try done.
  - intros x Hxu. rewrite Hv, same_path_if by done.
    pose proof (list_elem_of_singleton x va) as E.
    repeat case_decide; subst; try done; tauto.
  - intros q Hq. simpl. lia.
Qed.

(** What [uvmunmap] needs of the pages it frees: they are managed pages, not
    pages of the table, and there is a reference for every mapping. *)
Definition freeable (pt : Z) (s : kernel) (ps : list Z) : Prop :=
  forall p, p ∈ ps -> page_ok p /\ (p ∉ tables 2 (mem s) pt) /\
    occ p ps <= refcnt s (refindex p).

Definition dead_pages (do_free : bool) (V : Z -> Z) (vs : list Z) : list Z :=
  if do_free then mapped V vs else [].

Lemma dead_pages_valid do_free V va :
  has_flag (V va) PTE_V = true ->
  dead_pages do_free V [va] = if do_free then [PTE2PA (V va)] else [].
Proof. intros H. unfold dead_pages, mapped. cbn. by rewrite H. Qed.

Lemma dead_pages_invalid do_free V va :
  has_flag (V va) PTE_V = false -> dead_pages do_free V [va] = [].
Proof. intros H. unfold dead_pages, mapped. cbn. rewrite H. by destruct do_free. Qed.

Lemma uvmunmap_page_spec pt s l va do_free :
  kmem_inv s l -> L_kmem ∉ held s -> own 2 s pt -> user_va va ->
  freeable pt s (dead_pages do_free (pte_at 2 (mem s) pt) [va]) ->
  returns (uvmunmap_page pt do_free va s) (fun _ s' => exists l',
    unmap_post pt s s' [va] (dead_pages do_free (pte_at 2 (mem s) pt) [va]) l').
Proof.
  intros Hi Hh Ho Hva Hfr. unfold uvmunmap_page. kstep (walk_read s pt va ltac:(apply Hva)).
  destruct (has_flag (pte_at 2 (mem s) pt va) PTE_V) eqn:Hf.
  - rewrite (dead_pages_valid _ _ _ Hf) in Hfr |- *.
    destruct (slot 2 (mem s) pt va) as [a|] eqn:Hs.
    2: { unfold pte_at in Hf. by rewrite Hs in Hf. }
    cbn [from_option id]. rewrite (proj2 (Z.eqb_neq a 0)) by by eapply slot_nonzero.
    kunfold. rewrite (pte_at_slot _ _ _ _ _ Hs), Hf. cbn [negb].
    destruct do_free; cbn [obind].
    + destruct (Hfr _ ltac:(by apply list_elem_of_singleton)) as (Hp & Hnt & Hc).
      cbn [occ] in Hc. rewrite decide_True in Hc by done.
      destruct (kfree_unmap_post pt s l _ Hi Hh Ho Hp ltac:(lia) Hnt)
        as (s1 & l1 & -> & Hu & Hsl). cbn [obind returns].
      exists l1. apply (unmap_post_trans _ _ _ _ [] [va] [_] [] l1 l1 Hu).
      apply set_zero_unmap_post; try apply Hu; [done|by rewrite Hsl|].
      rewrite (up_view _ _ _ _ _ _ Hu) by by apply user_page_va.
      rewrite decide_False; [done|]. by intros [?%not_elem_of_nil _].
    + exists l. by apply set_zero_unmap_post.
  - rewrite (dead_pages_invalid _ _ _ Hf).
    assert (Hu : unmap_post pt s s [va] [] l).
    { apply unmap_post_refl; try done. by intros x ->%list_elem_of_singleton. }
    destruct (slot 2 (mem s) pt va) as [a|] eqn:Hs; cbn [from_option id]; [|by exists l].
    destruct (a =? 0); [by exists l|].
    kunfold. rewrite (pte_at_slot _ _ _ _ _ Hs), Hf. cbn [negb]. by exists l.
Qed.

Lemma dead_pages_cons do_free V va vs :
  dead_pages do_free V (va :: vs) = dead_pages do_free V [va] ++ dead_pages do_free V vs.
Proof.
  unfold dead_pages, mapped. destruct do_free; [|done]. cbn [mbind list_bind].
  by rewrite app_nil_r.
Qed.

Lemma dead_pages_ext do_free V V' vs :
  (forall x, x ∈ vs -> V x = V' x) -> dead_pages do_free V vs = dead_pages do_free V' vs.
Proof. intros H. unfold dead_pages. destruct do_free; [|done]. by apply mapped_ext. Qed.

Lemma freeable_app_l pt s d1 d2 : freeable pt s (d1 ++ d2) -> freeable pt s d1.
Proof.
  intros H p Hp. destruct (H p ltac:(apply elem_of_app; by left)) as (? & ? & Hc).
  rewrite occ_app in Hc. pose proof (occ_nonneg p d2). split_and!; [done|done|lia].
Qed.

Lemma freeable_step pt s s' vs d1 d2 l' :
  freeable pt s (d1 ++ d2) -> unmap_post pt s s' vs d1 l' -> freeable pt s' d2.
Proof.
  intros H Hu p Hp. destruct (H p ltac:(apply elem_of_app; by right)) as (Hpo & Hn & Hc).
  rewrite occ_app in Hc. rewrite (up_tables _ _ _ _ _ _ Hu), (up_ref _ _ _ _ _ _ Hu) by done.
  split_and!; [done|done|lia].
Qed.

Lemma unmap_post_held pt s s' vs d l' : unmap_post pt s s' vs d l' -> held s' = held s.
Proof. intros H. apply only_mem_held, (up_only _ _ _ _ _ _ H). Qed.

Lemma uvmunmap_list pt do_free vs : forall s l,
  kmem_inv s l -> L_kmem ∉ held s -> own 2 s pt -> NoDup vs -> Forall user_va vs ->
  freeable pt s (dead_pages do_free (pte_at 2 (mem s) pt) vs) ->
  returns (kiter vs (fun a _ => uvmunmap_page pt do_free a) tt s) (fun _ s' => exists l',
    unmap_post pt s s' vs (dead_pages do_free (pte_at 2 (mem s) pt) vs) l').
Proof.
  induction vs as [|va vs IH]; intros s l Hi Hh Ho Hn Hu Hfr.
  { exists l. destruct do_free; (apply unmap_post_refl; [done|done|by intros x ?%not_elem_of_nil]). }
  apply NoDup_cons in Hn as [Hnv Hn]. apply Forall_cons in Hu as [Hva Hu].
  rewrite dead_pages_cons in Hfr |- *.
  cbn [kiter]. apply returns_bind.
  eapply returns_mono; [apply (uvmunmap_page_spec pt s l va do_free); try done;
    by eapply freeable_app_l|].
  intros [] s1 [l1 Hp].
  assert (Hext : forall x, x ∈ vs -> pte_at 2 (mem s1) pt x = pte_at 2 (mem s) pt x).
  { intros x Hx. rewrite Forall_forall in Hu. rewrite (up_view _ _ _ _ _ _ Hp) by auto using user_page_va.
    rewrite decide_False; [done|]. intros [->%list_elem_of_singleton _]. done. }
  pose proof (freeable_step _ _ _ _ _ _ _ Hfr Hp) as Hfr1.
  rewrite <- (dead_pages_ext _ _ _ _ Hext) in Hfr1 |- *.
  eapply returns_mono; [apply (IH s1 l1); try done; try apply Hp;
    by rewrite (unmap_post_held _ _ _ _ _ _ Hp)|].
  intros [] s2 [l2 Hp2]. exists l2. by apply (unmap_post_trans _ _ s1 _ [va] vs _ _ l1).
Qed.

Lemma pages_between_range va (n : nat) :
  pages_between va (va + n * PGSIZE) = page_range va n.
Proof. unfold pages_between. f_equal. change PGSIZE with 4096. zlia. Qed.

Lemma elem_of_page_range x va (n : nat) :
  x ∈ page_range va n <-> exists i : nat, (i < n)%nat /\ x = va + i * PGSIZE.
Proof.
  unfold page_range. rewrite list_elem_of_fmap. split.
  - intros (i & -> & Hi%elem_of_seq). exists i. split; [lia|done].
  - intros (i & Hi & ->). exists i. split; [done|]. apply elem_of_seq. lia.
Qed.

Lemma page_range_user va (n : nat) :
  page_aligned va -> 0 <= va -> va + n * PGSIZE <= MAXVA -> Forall user_va (page_range va n).
Proof.
  intros Ha H0 Hm. apply Forall_forall. intros x (i & Hi & ->)%elem_of_page_range.
  unfold user_va, page_aligned in *. change PGSIZE with 4096 in *. split; zlia.
Qed.

Lemma elem_of_page_range_user x va (n : nat) :
  page_aligned va -> page_aligned x -> x ∈ page_range va n <-> va <= x < va + n * PGSIZE.
Proof.
  intros Ha Hx. rewrite elem_of_page_range. unfold page_aligned in *.
  change PGSIZE with 4096 in *. split; [intros (i & ? & ->); lia|]. intros Hr.
  exists (Z.to_nat ((x - va) / 4096)). split; zlia.
Qed.

Lemma uvmunmap_run pt s l va (n : nat) do_free :
  kmem_inv s l -> L_kmem ∉ held s -> own 2 s pt ->
  page_aligned va -> 0 <= va -> va + n * PGSIZE <= MAXVA ->
  freeable pt s (dead_pages do_free (pte_at 2 (mem s) pt) (page_range va n)) ->
  returns (uvmunmap pt va n do_free s) (fun _ s' => exists l',
    unmap_post pt s s' (page_range va n)
      (dead_pages do_free (pte_at 2 (mem s) pt) (page_range va n)) l').
Proof.
  intros Hi Hh Ho Ha H0 Hm Hfr. unfold uvmunmap. rewrite Ha. cbn [negb Z.eqb].
  rewrite (user_va_u64 (n * PGSIZE)), user_va_u64 by (unfold PGSIZE in *; lia).
  rewrite pages_between_range. apply (uvmunmap_list _ _ _ s l); try done.
  - apply NoDup_page_range.
  - by apply page_range_user.
Qed.

(** [uvmunmap] on a user range: it returns; the mapped pages of the range
    lose their translation and, with [do_free], one reference for each mapping
    (pages left without reference are on the free list again); every other
    translation, reference count and byte outside the table and the freed
    pages is unchanged, and the table itself stays allocated. *)
Theorem uvmunmap_spec pt s l va (n : nat) do_free :
  kmem_inv s l -> L_kmem ∉ held s -> own 2 s pt ->
  page_aligned va -> 0 <= va -> va + n * PGSIZE <= MAXVA ->
  freeable pt s (dead_pages do_free (pte_at 2 (mem s) pt) (page_range va n)) ->
  returns (uvmunmap pt va n do_free s) (fun _ s' => exists l',
    unmap_post pt s s' (page_range va n)
      (dead_pages do_free (pte_at 2 (mem s) pt) (page_range va n)) l').
Proof. apply uvmunmap_run. Qed.

End Vm.

#[global] Opaque tables slot.
