(* ===== verification/Uvm.v ===== *)
(** * User address spaces ([kernel/vm.c])

    What [uvmalloc], [uvmdealloc], [uvmcopy], [freewalk] and [uvmfree] do to an
    address space: the pages they map, the contents of the pages, the
    references they take and give back, and the state they leave behind when
    memory runs out half way. *)

From S2P Require Import Prelude Riscv Mem State Kalloc Vm.

#[local] Open Scope Z_scope.

Section Uvm.
Context {L : Layout} {LO : LayoutOk L}.

(** ** Mapping a fresh page *)

(** [vs] have been mapped, in order, to the fresh pages [ps]: [v] with
    permissions [perm v] and contents [C v]; [tabs] are the table pages that
    were added on the way. *)
Record populated (pt : Z) (perm : Z -> Z) (C : Z -> Z -> Z) (s s' : kernel)
    (l l' vs ps tabs : list Z) : Prop := {
  po_grown : exists new, grown s s' l l' new /\ new ≡ₚ ps ++ tabs;
  po_own : own 2 s' pt;
  po_tables : tables 2 (mem s') pt ≡ₚ tables 2 (mem s) pt ++ tabs;
  po_mem : mem_within (tables 2 (mem s) pt ++ l) (mem s) (mem s');
  po_maps : Forall2 (fun v p => pte_at 2 (mem s') pt v = mk_pte p (perm v) /\
    forall o, 0 <= o < PGSIZE -> mem s' (p + o) = C v o) vs ps;
  po_rest : forall x, page_va x -> (x ∉ vs) ->
    pte_at 2 (mem s') pt x = pte_at 2 (mem s) pt x
}.

Lemma populated_nil pt perm C s l :
  kmem_inv s l -> own 2 s pt -> populated pt perm C s s l l [] [] [].
Proof.
  intros Hi Ho. split; rewrite ?app_nil_r; try done.
  exists []. split; [by apply grown_refl|done].
Qed.

(** The pages that are gone from the free list are those mapped and the tables. *)
Lemma populated_length pt perm C s s' l l' vs ps ts :
  populated pt perm C s s' l l' vs ps ts -> length l = (length vs + length ts + length l')%nat.
Proof.
  intros [(new & Hg & Hn) _ _ _ Hm _]. rewrite (g_list _ _ _ _ _ Hg), length_app, Hn, length_app.
  by rewrite (Forall2_length _ _ _ Hm).
Qed.

Lemma page_outside p x q o :
  page_aligned p -> page_aligned q -> p <> q -> 0 <= o < PGSIZE -> x = q + o ->
  x < p \/ p + PGSIZE <= x.
Proof. intros Hp Hq Hne Ho ->. pose proof (pages_disjoint p q Hp Hq Hne). lia. Qed.

Lemma fresh_grown s p l m1 :
  kmem_inv s (p :: l) -> mem_within [p] (mem s) m1 ->
  grown s (set_mem m1 (kalloc_post p s)) (p :: l) l [p].
Proof.
  intros Hi Hm. destruct (free_elem _ _ p Hi) as [Hpo _]; [by apply elem_of_cons; left|].
  pose proof (free_nodup _ _ Hi) as Hnd. apply NoDup_cons in Hnd as [Hnp _].
  apply (grown_write _ _ _ _ _ _ [p]); [by apply grown_alloc| | |].
  - by apply Forall_singleton, Hpo.
  - by intros q ->%list_elem_of_singleton.
  - intros x Hx. rewrite (Hm x Hx). unfold kalloc_post; cbn [mem set_mem].
    rewrite mem_fill_outside; [done|]. apply Hx. by apply list_elem_of_singleton.
Qed.

(** The page [p] has been taken, filled as in [m1], and the table may have
    gained the pages [tabs]. *)
Record fresh_step (pt : Z) (s s' : kernel) (p : Z) (l l' tabs : list Z) (m1 : Z -> Z)
    : Prop := {
  fs_grown : grown s s' (p :: l) l' (p :: tabs);
  fs_own : own 2 s' pt;
  fs_tables : tables 2 (mem s') pt ≡ₚ tables 2 (mem s) pt ++ tabs;
  fs_mem : mem_within (tables 2 (mem s) pt ++ p :: l) (mem s) (mem s');
  fs_page : forall x, p <= x < p + PGSIZE -> mem s' x = m1 x
}.

(** [kalloc], some write to the page, [mappages] of the page at [va]. *)
Lemma map_fresh pt s p l va prm m1 :
  kmem_inv s (p :: l) -> L_kmem ∉ held s -> own 2 s pt -> user_va va -> 0 <= prm < 2^10 ->
  has_flag (pte_at 2 (mem s) pt va) PTE_V = false ->
  mem_within [p] (mem s) m1 ->
  returns (mappages pt va PGSIZE p prm (set_mem m1 (kalloc_post p s))) (fun r s' =>
    exists l' tabs, fresh_step pt s s' p l l' tabs m1 /\
      ((r = 0 /\ forall x, page_va x -> pte_at 2 (mem s') pt x =
           if decide (x = va) then mk_pte p prm else pte_at 2 (mem s) pt x) \/
       (r = -1 /\ l' = [] /\ forall x, page_va x -> pte_at 2 (mem s') pt x = pte_at 2 (mem s) pt x))).
Proof.
  intros Hi Hh Ho Hva Hprm Hinv Hm.
  destruct (free_elem _ _ p Hi) as [Hpo _]; [by apply elem_of_cons; left|].
  assert (Hnt : forall q, q ∈ tables 2 (mem s) pt -> q ∉ p :: l)
    by (intros q; by apply own_not_in_free).
  set (s1 := set_mem m1 (kalloc_post p s)).
  assert (Hg1 : grown s s1 (p :: l) l [p]) by by apply fresh_grown.
  destruct (own_frame 2 s s1 pt [p] Ho) as (Ho1 & Ht1 & _ & Hv1).
  { by apply Forall_singleton, Hpo. }
  { intros q Hq ->%list_elem_of_singleton. apply (Hnt p Hq). by apply elem_of_cons; left. }
  { done. }
  { intros q Hq Hn. by rewrite (g_ref _ _ _ _ _ Hg1). }
  replace PGSIZE with (1%nat * PGSIZE) by lia.
  eapply returns_mono; [apply (mappages_run s1 l pt va p prm 1); try done|].
  - apply Hg1.
  - destruct Hva as [Hr Ha]. unfold page_aligned in Ha. change PGSIZE with 4096 in *.
    change MAXVA with (2^26 * 4096) in *. zlia.
  - by apply page_ok_valid_pa.
  - destruct Hpo as [_ Hr]. unfold PGSIZE, PHYSTOP, KERNBASE in *. lia.
  - intros x Hx Hxr. rewrite Hv1. replace x with va; [done|].
    destruct Hx as [_ Hx], Hva as [_ Ha]. unfold page_aligned in *. change PGSIZE with 4096 in *. zlia.
  - intros r s' (Ho' & l' & new & k & [Hg Hmm Ht _] & Hv & Hr).
    rewrite Ht1 in Hmm, Ht.
    exists l', new. split; [split; try done|].
    + change (p :: new) with ([p] ++ new). by eapply grown_trans.
    + eapply mem_within_trans; (eapply mem_within_mono; [|eassumption]);
        intros q; rewrite ?(g_list _ _ _ _ _ Hg), !elem_of_app, !elem_of_cons, ?elem_of_app;
        [intros [->|?%not_elem_of_nil]|]; tauto.
    + intros x Hx. apply Hmm. intros q Hq.
      apply (page_outside q x p (x - p)); [|apply Hpo| |lia|lia].
      * apply elem_of_app in Hq as [Hq|Hq].
        -- pose proof (own_aligned _ _ _ Ho) as Hal. rewrite Forall_forall in Hal. auto.
        -- eapply (free_elem s (p :: l)); [done|]. rewrite (g_list _ _ _ _ _ Hg).
           apply elem_of_cons. right. apply elem_of_app. by left.
      * intros ->. apply elem_of_app in Hq as [Hq|Hq].
        -- apply (Hnt p Hq). by apply elem_of_cons; left.
        -- pose proof (free_nodup _ _ Hi) as Hnd. apply NoDup_cons in Hnd as [Hnp _].
           apply Hnp. rewrite (g_list _ _ _ _ _ Hg). apply elem_of_app. by left.
    + destruct Hr as [[-> ->]|(-> & Hk & ->)]; [left|right; split; [done|]]; (split; [done|]); intros x Hx.
      * rewrite Hv, <- map_view_S, map_view_0, Hv1 by done. done.
      * replace k with 0%nat in Hv by lia. by rewrite Hv, map_view_0, Hv1 by done.
Qed.

Lemma grown_disjoint s s' l l' new pt :
  kmem_inv s l -> own 2 s pt -> grown s s' l l' new ->
  forall q, q ∈ new -> page_ok q /\ (q ∉ tables 2 (mem s) pt) /\ (q ∉ l').
Proof.
  intros Hi Ho Hg q Hq. pose proof (g_list _ _ _ _ _ Hg) as Hl.
  assert (Hin : q ∈ l) by (rewrite Hl; apply elem_of_app; by left).
  split_and!.
  - by apply (free_elem s l q Hi).
  - intros Ht. by apply (own_not_in_free _ _ _ _ q Ho Hi).
  - pose proof (free_nodup _ _ Hi) as Hnd. rewrite Hl in Hnd.
    apply NoDup_app in Hnd as (_ & Hd & _). by apply Hd.
Qed.

Lemma populated_pages pt perm C s s' l l' vs ps tabs :
  kmem_inv s l -> own 2 s pt -> populated pt perm C s s' l l' vs ps tabs ->
  (forall q, q ∈ ps -> page_ok q /\ (q ∉ tables 2 (mem s') pt) /\ (q ∉ l') /\
     refcnt s' (refindex q) = 1 /\ occ q ps = 1) /\
  kmem_inv s' l' /\ only_mem s s'.
Proof.
  intros Hi Ho [(new & Hg & Hnew) Ho' Ht _ _ _].
  split; [|split; apply Hg]. intros q Hq.
  assert (Hqn : q ∈ new) by (rewrite Hnew; apply elem_of_app; by left).
  destruct (grown_disjoint _ _ _ _ _ _ Hi Ho Hg q Hqn) as (Hp & Hnt & Hnl).
  assert (Hnd : NoDup (ps ++ tabs)).
  { rewrite <- Hnew. pose proof (free_nodup _ _ Hi) as Hnd.
    rewrite (g_list _ _ _ _ _ Hg) in Hnd. by apply NoDup_app in Hnd as (? & _ & _). }
  apply NoDup_app in Hnd as (Hnp & Hd & _).
  split_and!; try done.
  - rewrite Ht. intros [?|Hqt]%elem_of_app; [done|]. by apply (Hd q).
  - by apply (g_new _ _ _ _ _ Hg).
  - pose proof (occ_NoDup q ps Hnp). apply occ_elem in Hq. lia.
Qed.

Lemma fresh_tabs_free s s' p l l' tabs :
  grown s s' (p :: l) l' (p :: tabs) -> forall q, q ∈ tabs -> q ∈ l.
Proof.
  intros Hg q Hq. pose proof (g_list _ _ _ _ _ Hg) as Hl. cbn [app] in Hl.
  apply Permutation_cons_inv in Hl. rewrite Hl, elem_of_app. by left.
Qed.

Lemma own_or_free_aligned pt s l :
  kmem_inv s l -> own 2 s pt -> Forall page_aligned (tables 2 (mem s) pt ++ l).
Proof.
  intros Hi Ho. apply Forall_app. split; [by apply own_aligned|].
  apply Forall_forall. intros q Hq. by apply (free_elem _ _ q Hi).
Qed.

(** Pages that are neither free nor part of the table keep their contents. *)
Lemma other_page_kept pt s l m' q o :
  kmem_inv s l -> own 2 s pt -> mem_within (tables 2 (mem s) pt ++ l) (mem s) m' ->
  page_ok q -> (q ∉ tables 2 (mem s) pt) -> (q ∉ l) -> 0 <= o < PGSIZE ->
  m' (q + o) = mem s (q + o).
Proof.
  intros Hi Ho Hm Hq Hnt Hnl Hoff. apply Hm. intros q' Hq'.
  apply (page_outside q' _ q o); try done; [|apply Hq|].
  - pose proof (own_or_free_aligned _ _ _ Hi Ho) as Hal. rewrite Forall_forall in Hal. auto.
  - intros ->. by apply elem_of_app in Hq' as [?|?].
Qed.

Lemma populated_snoc pt perm C s0 s s' l0 l l' p tabs vs ps ts va m1 :
  kmem_inv s0 l0 -> own 2 s0 pt -> populated pt perm C s0 s l0 (p :: l) vs ps ts ->
  Forall user_va vs -> (va ∉ vs) -> fresh_step pt s s' p l l' tabs m1 ->
  (forall o, 0 <= o < PGSIZE -> m1 (p + o) = C va o) -> user_va va ->
  (forall x, page_va x -> pte_at 2 (mem s') pt x =
     if decide (x = va) then mk_pte p (perm va) else pte_at 2 (mem s) pt x) ->
  populated pt perm C s0 s' l0 l' (vs ++ [va]) (ps ++ [p]) (ts ++ tabs).
Proof.
  intros Hi Ho Hpop Hus Hnv Hf Hc Hva Hv.
  destruct (populated_pages _ _ _ _ _ _ _ _ _ _ Hi Ho Hpop) as (Hps & Hi1 & _).
  pose proof Hf as [Hg Ho' Ht Hm Hpg].
  destruct Hpop as [(new & Hg0 & Hnew) Ho0 Ht0 Hm0 Hmaps Hrest]. split.
  - exists (new ++ p :: tabs). split; [by eapply grown_trans|].
    rewrite Hnew, <- !app_assoc. f_equiv. by rewrite <- Permutation_middle.
  - done.
  - by rewrite Ht, Ht0, app_assoc.
  - eapply mem_within_trans; (eapply mem_within_mono; [|eassumption]); intros q;
      rewrite ?Ht0, (g_list _ _ _ _ _ Hg0), Hnew, !elem_of_app; tauto.
  - apply Forall2_app.
    + eapply Forall2_impl_elem; [exact Hmaps|]. intros v q Hvs Hq [Hpte Hcon].
      rewrite Forall_forall in Hus.
      rewrite Hv, decide_False by (auto using user_page_va || by intros ->).
      split; [done|]. intros o Hoff. rewrite <- Hcon by done.
      destruct (Hps q Hq) as (Hpo & Hnt & Hnl & _).
      by apply (other_page_kept pt s (p :: l) _ q).
    + constructor; [|constructor]. rewrite Hv, decide_True by (done || by apply user_page_va). split; [done|].
      intros o Hoff. rewrite Hpg by lia. auto.
  - intros x Hx Hn. apply not_elem_of_app in Hn as [Hn Hn'].
    rewrite Hv, decide_False, Hrest by (try done; intros ->; apply Hn'; by apply list_elem_of_singleton).
    done.
Qed.

(** A step that maps nothing, but may add table pages. *)
Lemma populated_keep pt perm C s0 s s' l0 l l' tabs vs ps ts :
  kmem_inv s0 l0 -> own 2 s0 pt -> populated pt perm C s0 s l0 l vs ps ts ->
  Forall user_va vs -> grown s s' l l' tabs -> own 2 s' pt ->
  tables 2 (mem s') pt ≡ₚ tables 2 (mem s) pt ++ tabs ->
  mem_within (tables 2 (mem s) pt ++ l) (mem s) (mem s') ->
  (forall x, page_va x -> pte_at 2 (mem s') pt x = pte_at 2 (mem s) pt x) ->
  populated pt perm C s0 s' l0 l' vs ps (ts ++ tabs).
Proof.
  intros Hi Ho Hpop Hus Hg Ho' Ht Hm Hv.
  destruct (populated_pages _ _ _ _ _ _ _ _ _ _ Hi Ho Hpop) as (Hps & Hi1 & _).
  destruct Hpop as [(new & Hg0 & Hnew) Ho0 Ht0 Hm0 Hmaps Hrest]. split.
  - exists (new ++ tabs). split; [by eapply grown_trans|]. by rewrite Hnew, app_assoc.
  - done.
  - by rewrite Ht, Ht0, app_assoc.
  - eapply mem_within_trans; (eapply mem_within_mono; [|eassumption]); intros q;
      rewrite ?Ht0, (g_list _ _ _ _ _ Hg0), Hnew, !elem_of_app; tauto.
  - eapply Forall2_impl_elem; [exact Hmaps|]. intros v q Hvs Hq [Hpte Hcon].
    rewrite Forall_forall in Hus. rewrite Hv by auto using user_page_va.
    split; [done|]. intros o Hoff. rewrite <- Hcon by done.
    destruct (Hps q Hq) as (Hpo & Hnt & Hnl & _).
    by apply (other_page_kept pt s l _ q).
  - intros x Hx Hn. by rewrite Hv, Hrest.
Qed.

(** The page could not be mapped and is given back. *)
Lemma fresh_step_undo pt s s1 p l l1 tabs m1 :
  kmem_inv s (p :: l) -> own 2 s pt -> L_kmem ∉ held s ->
  fresh_step pt s s1 p l l1 tabs m1 ->
  exists s2, kfree p s1 = Ok tt s2 /\ grown s s2 (p :: l) (p :: l1) tabs /\ own 2 s2 pt /\
    tables 2 (mem s2) pt ≡ₚ tables 2 (mem s) pt ++ tabs /\
    mem_within (tables 2 (mem s) pt ++ p :: l) (mem s) (mem s2) /\
    (forall x, pte_at 2 (mem s2) pt x = pte_at 2 (mem s1) pt x).
Proof.
  intros Hi Ho Hh [Hg Ho1 Ht Hm Hpg].
  destruct (free_elem _ _ p Hi) as [Hpo Hz]; [by apply elem_of_cons; left|].
  assert (Hr1 : refcnt s1 (refindex p) = 1).
  { apply (g_new _ _ _ _ _ Hg). by apply elem_of_cons; left. }
  assert (Hptab : p ∉ tabs).
  { pose proof (free_nodup _ _ Hi) as Hnd. rewrite (g_list _ _ _ _ _ Hg) in Hnd.
    apply NoDup_cons in Hnd as [Hnp _]. by apply not_elem_of_app in Hnp as [? _]. }
  assert (Hpt : p ∉ tables 2 (mem s1) pt).
  { rewrite Ht. intros [Hin|?]%elem_of_app; [|done].
    apply (own_not_in_free _ _ _ _ p Ho Hi Hin). by apply elem_of_cons; left. }
  destruct (kfree_effect s1 l1 p (g_inv _ _ _ _ _ Hg)) as (s2 & Hk & Hi2 & Hom & Hm2 & Hr);
    [by rewrite (only_mem_held _ _ (g_only _ _ _ _ _ Hg))|done|lia|].
  rewrite Hr1 in Hi2. cbn [Z.eqb Pos.eqb] in Hi2.
  destruct (own_frame 2 s1 s2 pt [p] Ho1) as (Ho2 & Ht2 & _ & Hv2); [| |done| |].
  { by apply Forall_singleton, Hpo. }
  { by intros q Hq ->%list_elem_of_singleton. }
  { intros q Hq Hn. rewrite Hr, decide_False; [lia| |done]. intros ->.
    apply Hn. by apply list_elem_of_singleton. }
  exists s2. split_and!; [done|split|done|by rewrite Ht2| |done].
  - done.
  - rewrite (g_list _ _ _ _ _ Hg). cbn [app]. by rewrite Permutation_middle.
  - eapply only_mem_trans; [apply Hg|done].
  - intros q Hq. assert (Hqn : q ∈ p :: tabs) by (by apply elem_of_cons; right).
    rewrite Hr by apply (grown_disjoint _ _ _ _ _ _ Hi Ho Hg q Hqn).
    rewrite decide_False by (by intros ->). rewrite (g_new _ _ _ _ _ Hg q Hqn). lia.
  - intros q Hq Hn. rewrite Hr by done. case_decide as E; [subst; lia|].
    rewrite (g_ref _ _ _ _ _ Hg); [lia|done|]. by apply not_elem_of_cons.
  - eapply mem_within_trans; [exact Hm|]. eapply mem_within_mono; [|exact Hm2].
    intros q ->%list_elem_of_singleton. rewrite elem_of_app, elem_of_cons. tauto.
Qed.

(** ** [uvmdealloc] *)

Lemma uvmdealloc_run pt s l oldsz newsz :
  kmem_inv s l -> L_kmem ∉ held s -> own 2 s pt ->
  0 <= newsz <= MAXVA -> 0 <= oldsz <= MAXVA ->
  let vs := pages_between (PGROUNDUP newsz) (PGROUNDUP oldsz) in
  freeable pt s (mapped (pte_at 2 (mem s) pt) vs) ->
  returns (uvmdealloc pt oldsz newsz s) (fun r s' => r = Z.min oldsz newsz /\
    exists l', unmap_post pt s s' vs (mapped (pte_at 2 (mem s) pt) vs) l').
Proof.
  intros Hi Hh Ho Hn Hold vs Hfr. unfold uvmdealloc.
  change MAXVA with (2^26 * 4096) in *.
  rewrite !PGROUNDUP_eq in * by (unfold PGSIZE; lia). change PGSIZE with 4096 in *.
  set (b := (newsz + (4096 - 1)) `div` 4096) in *.
  set (e := (oldsz + (4096 - 1)) `div` 4096) in *.
  assert (Hb : 0 <= b <= 2^26 /\ 0 <= e <= 2^26) by (unfold b, e; zlia).
  assert (Hvs : vs = page_range (4096 * b) (Z.to_nat (e - b))).
  { unfold vs, pages_between. rewrite !PGROUNDUP_eq by (unfold PGSIZE; lia).
    change PGSIZE with 4096. fold b e. do 2 f_equal. zlia. }
  assert (Hnil : e <= b -> exists l', unmap_post pt s s vs (mapped (pte_at 2 (mem s) pt) vs) l').
  { intros Hle. rewrite Hvs. replace (Z.to_nat (e - b)) with 0%nat by lia.
    exists l. apply unmap_post_refl; try done. by intros x ?%not_elem_of_nil. }
  destruct (Z.leb_spec oldsz newsz) as [Hle|Hlt].
  { split; [lia|]. apply Hnil. unfold b, e. zlia. }
  apply returns_bind. destruct (Z.ltb_spec (4096 * b) (4096 * e)) as [Hlt'|Hge]; cbn [when].
  2: { split; [lia|]. apply Hnil. lia. }
  rewrite (u64_small (4096 * e - _)) by (ints; lia).
  replace ((4096 * e - 4096 * b) `div` 4096) with (e - b) by zlia.
  rewrite i32_small, u64_small by (ints; lia).
  replace (e - b) with (Z.of_nat (Z.to_nat (e - b))) by lia.
  rewrite Hvs in Hfr |- *.
  eapply returns_mono; [apply (uvmunmap_run pt s l); try done|].
  - unfold page_aligned. change PGSIZE with 4096. zlia.
  - lia.
  - change MAXVA with (2^26 * 4096). unfold PGSIZE. lia.
  - intros [] s' H. split; [lia|done].
Qed.

(** ** Undoing a partial population *)

(** Nothing is mapped any more at [vs] and all references are as before, except
    for the table pages [ts], which the table keeps. *)
Record rolled_back (pt : Z) (s s' : kernel) (l vs ts : list Z) : Prop := {
  rb_inv : exists l', kmem_inv s' l';
  rb_only : only_mem s s';
  rb_own : own 2 s' pt;
  rb_tables : tables 2 (mem s') pt ≡ₚ tables 2 (mem s) pt ++ ts;
  rb_mem : mem_within (tables 2 (mem s) pt ++ l) (mem s) (mem s');
  rb_view : forall x, page_va x ->
    pte_at 2 (mem s') pt x = if decide (x ∈ vs) then 0 else pte_at 2 (mem s) pt x;
  rb_ref : forall q, page_ok q ->
    refcnt s' (refindex q) = refcnt s (refindex q) + occ q ts
}.

Lemma grown_ref_occ s s' l l' new q :
  kmem_inv s l -> grown s s' l l' new -> page_ok q ->
  refcnt s' (refindex q) = refcnt s (refindex q) + occ q new.
Proof.
  intros Hi Hg Hq. destruct (decide (q ∈ new)) as [Hin|Hn].
  - rewrite (g_new _ _ _ _ _ Hg q Hin).
    assert (Hl : q ∈ l) by (rewrite (g_list _ _ _ _ _ Hg), elem_of_app; by left).
    destruct (free_elem _ _ q Hi Hl) as [_ ->].
    pose proof (free_nodup _ _ Hi) as Hnd. rewrite (g_list _ _ _ _ _ Hg) in Hnd.
    apply NoDup_app in Hnd as (Hnd & _). pose proof (occ_NoDup q new Hnd).
    apply occ_elem in Hin. lia.
  - rewrite (g_ref _ _ _ _ _ Hg q Hq Hn), occ_not by done. lia.
Qed.

(** The pages of a population are those found at the mapped addresses. *)
Lemma populated_mapped pt perm C s s' l l' vs ps ts :
  kmem_inv s l -> own 2 s pt -> populated pt perm C s s' l l' vs ps ts ->
  (forall v, v ∈ vs -> 0 <= perm v < 2^10) ->
  mapped (pte_at 2 (mem s') pt) vs = ps /\
  (forall v, v ∈ vs -> has_flag (pte_at 2 (mem s') pt v) PTE_V = true).
Proof.
  intros Hi Ho Hpop Hperm.
  destruct (populated_pages _ _ _ _ _ _ _ _ _ _ Hi Ho Hpop) as (Hps & _ & _).
  pose proof (po_maps _ _ _ _ _ _ _ _ _ _ Hpop) as Hmaps.
  assert (Hok : forall p, p ∈ ps -> page_ok p) by (intros p Hp; by apply Hps).
  clear -Hmaps Hok Hperm LO. induction Hmaps as [|v p vs ps [Hv _] _ IH].
  - split; [done|]. by intros v ?%not_elem_of_nil.
  - destruct IH as [IH1 IH2].
    { intros w Hw. apply Hperm. by apply elem_of_cons; right. }
    { intros q Hq. apply Hok. by apply elem_of_cons; right. }
    split.
    + unfold mapped in *. cbn [mbind list_bind]. rewrite Hv, mk_pte_valid, IH1.
      rewrite PTE2PA_mk_pte; [done| |].
      * apply page_ok_valid_pa, Hok. by apply elem_of_cons; left.
      * apply Hperm. by apply elem_of_cons; left.
    + intros w [->|Hw]%elem_of_cons; [rewrite Hv; apply mk_pte_valid|auto].
Qed.

Lemma populated_freeable pt perm C s s' l l' vs ps ts :
  kmem_inv s l -> own 2 s pt -> populated pt perm C s s' l l' vs ps ts ->
  freeable pt s' ps.
Proof.
  intros Hi Ho Hpop q Hq.
  destruct (populated_pages _ _ _ _ _ _ _ _ _ _ Hi Ho Hpop) as (Hps & _ & _).
  destruct (Hps q Hq) as (? & ? & _ & -> & ->). split_and!; [done|done|lia].
Qed.

Lemma populated_undo pt perm C s0 s s' l0 l l' vs ps ts ws :
  kmem_inv s0 l0 -> own 2 s0 pt -> populated pt perm C s0 s l0 l vs ps ts ->
  (forall v, v ∈ vs -> 0 <= perm v < 2^10) -> (forall v, v ∈ vs -> v ∈ ws) ->
  (forall w, w ∈ ws -> (w ∉ vs) -> has_flag (pte_at 2 (mem s) pt w) PTE_V = false) ->
  unmap_post pt s s' ws ps l' ->
  rolled_back pt s0 s' l0 vs ts.
Proof.
  intros Hi Ho Hpop Hperm Hsub Hinv [Ui Uo Uw Ut Um Uv Ur].
  destruct (populated_mapped _ _ _ _ _ _ _ _ _ _ Hi Ho Hpop Hperm) as [_ Hval].
  destruct Hpop as [(new & Hg & Hnew) Ho1 Ht Hm Hmaps Hrest]. split.
  - by exists l'.
  - eapply only_mem_trans; [apply Hg|done].
  - done.
  - by rewrite Ut, Ht.
  - eapply mem_within_trans; [exact Hm|]. eapply mem_within_mono; [|exact Um].
    intros q. rewrite Ht, (g_list _ _ _ _ _ Hg), Hnew, !elem_of_app. tauto.
  - intros x Hx. rewrite Uv by done. destruct (decide (x ∈ vs)) as [Hin|Hn].
    + rewrite decide_True; [done|]. auto.
    + rewrite decide_False; [auto|]. intros [Hw Hf]. by rewrite (Hinv x Hw Hn) in Hf.
  - intros q Hq. rewrite Ur by done. rewrite (grown_ref_occ _ _ _ _ _ q Hi Hg Hq).
    rewrite (occ_Permutation q _ _ Hnew), occ_app. lia.
Qed.

(** ** [uvmalloc] *)

Lemma PGROUNDUP_id a : page_aligned a -> 0 <= a <= MAXVA -> PGROUNDUP a = a.
Proof.
  intros Ha Hr. change MAXVA with (2^38) in Hr.
  rewrite PGROUNDUP_eq by (unfold PGSIZE; lia). unfold page_aligned in Ha.
  change PGSIZE with 4096 in *. zlia.
Qed.

Lemma page_aligned_add a (k : nat) : page_aligned a -> page_aligned (a + k * PGSIZE).
Proof. unfold page_aligned. change PGSIZE with 4096. intros. zlia. Qed.

Lemma page_range_snoc a (k : nat) : page_range a (S k) = page_range a k ++ [a + k * PGSIZE].
Proof. unfold page_range. rewrite seq_S, fmap_app. done. Qed.

Section Grow.
Context (pt base perm : Z) (s0 : kernel) (l0 : list Z).
Context (Hi0 : kmem_inv s0 l0) (Hh0 : L_kmem ∉ held s0) (Ho0 : own 2 s0 pt).
Context (Hbase : page_aligned base) (Hbase0 : 0 <= base) (Hperm : 0 <= perm < 2^10).

Let pop := populated pt (fun _ => perm) (fun _ _ => 0) s0.

Lemma dealloc_populated s l (k : nat) ps ts :
  base + k * PGSIZE <= MAXVA -> pop s l0 l (page_range base k) ps ts ->
  returns (uvmdealloc pt (base + k * PGSIZE) base s)
    (fun _ s' => rolled_back pt s0 s' l0 (page_range base k) ts).
Proof.
  intros Hend Hpop.
  destruct (populated_pages _ _ _ _ _ _ _ _ _ _ Hi0 Ho0 Hpop) as (_ & Hi & Hom).
  destruct (populated_mapped _ _ _ _ _ _ _ _ _ _ Hi0 Ho0 Hpop) as [Hmap _]; [done|].
  pose proof (populated_freeable _ _ _ _ _ _ _ _ _ _ Hi0 Ho0 Hpop) as Hfr.
  pose proof (uvmdealloc_run pt s l (base + k * PGSIZE) base Hi) as Hrun.
  cbv zeta in Hrun.
  rewrite !PGROUNDUP_id, pages_between_range, Hmap in Hrun
    by (try apply page_aligned_add; try done; unfold PGSIZE in *; lia).
  eapply returns_mono; [apply Hrun; try done|].
  - by rewrite (only_mem_held _ _ Hom).
  - apply (po_own _ _ _ _ _ _ _ _ _ _ Hpop).
  - unfold PGSIZE in *. lia.
  - unfold PGSIZE in *. lia.
  - intros r s' (_ & l' & Hu). by eapply populated_undo; eauto.
Qed.

Lemma uvmalloc_page_spec s l (k : nat) ps ts xperm :
  perm = Z.lor (Z.lor PTE_R PTE_U) xperm ->
  base + S k * PGSIZE <= MAXVA -> pop s l0 l (page_range base k) ps ts ->
  has_flag (pte_at 2 (mem s0) pt (base + k * PGSIZE)) PTE_V = false ->
  returns (uvmalloc_page pt base xperm (base + k * PGSIZE) s) (fun x s' =>
    match x with
    | inl _ => exists l' ps' ts', pop s' l0 l' (page_range base (S k)) ps' ts'
    | inr r => r = 0 /\ exists ts', rolled_back pt s0 s' l0 (page_range base k) ts'
    end).
Proof.
  intros Hprm Hend Hpop Hinv. unfold uvmalloc_page. rewrite <- Hprm.
  destruct (populated_pages _ _ _ _ _ _ _ _ _ _ Hi0 Ho0 Hpop) as (_ & Hi & Hom).
  assert (Hh : L_kmem ∉ held s) by by rewrite (only_mem_held _ _ Hom).
  assert (Ho : own 2 s pt) by apply (po_own _ _ _ _ _ _ _ _ _ _ Hpop).
  destruct l as [|p l].
  { kstep (kalloc_none [] s Hh Hi). cbn [Z.eqb]. apply returns_bind.
    eapply returns_mono; [eapply dealloc_populated; [|exact Hpop]; unfold PGSIZE in *; lia|].
    intros r s' Hr. split; [done|]. by exists ts. }
  destruct (free_elem _ _ p Hi) as [Hpo _]; [by apply elem_of_cons; left|].
  kstep (kalloc_some [] s p l Hh Hi).
  rewrite (proj2 (Z.eqb_neq p 0)) by by apply page_ok_nonzero.
  kstep (kmemset_run p 0 PGSIZE (kalloc_post p s)). change (u8 0) with 0.
  set (m1 := mem_fill (mem (kalloc_post p s)) p PGSIZE 0).
  assert (Hva : user_va (base + k * PGSIZE)).
  { split; [unfold PGSIZE in *; lia|by apply page_aligned_add]. }
  assert (Hus : Forall user_va (page_range base k)).
  { apply page_range_user; try done. unfold PGSIZE in *; lia. }
  assert (Hnv : base + k * PGSIZE ∉ page_range base k).
  { rewrite elem_of_page_range_user by (try apply page_aligned_add; done). lia. }
  apply returns_bind. eapply returns_mono; [apply (map_fresh pt s p l); try done|].
  { by rewrite (po_rest _ _ _ _ _ _ _ _ _ _ Hpop) by (done || by apply user_page_va). }
  { intros x Hx. specialize (Hx p ltac:(by apply list_elem_of_singleton)).
    unfold m1, kalloc_post; cbn [mem set_mem]. by rewrite !mem_fill_outside. }
  intros r s1 (l1 & tabs & Hf & [[-> Hv]|(-> & _ & Hv)]); cbn [negb Z.eqb].
  - exists l1, (ps ++ [p]), (ts ++ tabs). rewrite page_range_snoc.
    eapply populated_snoc; try done. intros o Hoff. unfold m1, mem_fill.
    by rewrite decide_True by lia.
  - destruct (fresh_step_undo _ _ _ _ _ _ _ _ Hi Ho Hh Hf) as (s2 & Hk & Hg & Ho2 & Ht & Hm & Hv2).
    rewrite bind_run, Hk. cbn [obind]. apply returns_bind.
    eapply returns_mono; [eapply (dealloc_populated s2 (p :: l1) k ps (ts ++ tabs));
      [unfold PGSIZE in *; lia|]|].
    + eapply (populated_keep _ _ _ s0 s s2); try done. intros x Hx. by rewrite Hv2, Hv.
    + intros r s3 Hr. split; [done|]. by exists (ts ++ tabs).
Qed.

End Grow.

Lemma page_range_split a (n : nat) pre i post :
  page_range a n = pre ++ i :: post ->
  pre = page_range a (length pre) /\ i = a + length pre * PGSIZE /\ (length pre < n)%nat.
Proof.
  intros H. assert (Hlen : (length pre < n)%nat).
  { apply (f_equal length) in H. unfold page_range in H.
    rewrite length_fmap, length_seq, length_app in H. simpl in H. lia. }
  split_and!; [| |done].
  - apply (f_equal (take (length pre))) in H. rewrite take_app_length in H. rewrite <- H at 1.
    unfold page_range. rewrite <- fmap_take, take_seq. do 2 f_equal. lia.
  - apply (f_equal (lookup (length pre))) in H. rewrite list_lookup_middle in H by done.
    unfold page_range in H. rewrite list_lookup_fmap, lookup_seq_lt in H by done.
    cbn in H. by injection H.
Qed.

Lemma pages_between_ceil base top :
  page_aligned base -> 0 <= base -> top <= MAXVA ->
  exists n : nat, pages_between base top = page_range base n /\
    base + n * PGSIZE < Z.max base top + PGSIZE /\ (base <= MAXVA -> base + n * PGSIZE <= MAXVA).
Proof.
  intros Ha Hb Ht. change MAXVA with (2^26 * 4096) in *.
  exists (Z.to_nat ((top - base + PGSIZE - 1) `div` PGSIZE)). split; [done|].
  unfold page_aligned in Ha. change PGSIZE with 4096 in *. split; zlia.
Qed.

Lemma uvmalloc_run pt s l oldsz newsz xperm :
  kmem_inv s l -> L_kmem ∉ held s -> own 2 s pt ->
  0 <= oldsz <= newsz -> newsz <= MAXVA -> 0 <= xperm < 2^10 ->
  (forall x, user_va x -> PGROUNDUP oldsz <= x < newsz ->
     has_flag (pte_at 2 (mem s) pt x) PTE_V = false) ->
  let perm := Z.lor (Z.lor PTE_R PTE_U) xperm in
  let vs := pages_between (PGROUNDUP oldsz) newsz in
  returns (uvmalloc pt oldsz newsz xperm s) (fun r s' =>
    (r = newsz /\ exists l' ps ts,
       populated pt (fun _ => perm) (fun _ _ => 0) s s' l l' vs ps ts) \/
    (r = 0 /\ exists (k : nat) ts,
       rolled_back pt s s' l (page_range (PGROUNDUP oldsz) k) ts)).
Proof.
  intros Hi Hh Ho Hsz Hmax Hx Hinv perm vs. unfold uvmalloc.
  rewrite (proj2 (Z.ltb_ge _ _)) by lia. fold vs.
  assert (Hold : 0 <= oldsz <= 2^64 - PGSIZE).
  { change MAXVA with (2^38) in Hmax. unfold PGSIZE. lia. }
  destruct (PGROUNDUP_range oldsz Hold) as [Hbr Hba].
  set (base := PGROUNDUP oldsz) in *.
  assert (Hperm : 0 <= perm < 2^10).
  { unfold perm. apply lor_range; [lia| |done]. vm_compute. split; congruence. }
  destruct (pages_between_ceil base newsz Hba ltac:(lia) Hmax) as (n & Hvs & Hn & Hend).
  fold vs in Hvs. apply returns_bind.
  eapply returns_mono.
  - apply (returns_kfor vs _ (fun pre _ s' => exists l' ps ts,
        populated pt (fun _ => perm) (fun _ _ => 0) s s' l l' pre ps ts)
      (fun r s' => r = 0 /\ exists (k : nat) ts, rolled_back pt s s' l (page_range base k) ts)).
    + intros pre a todo _ s' Heq (l' & ps & ts & Hpop). rewrite Hvs in Heq.
      apply page_range_split in Heq as (Hpre & -> & Hlt). rewrite Hpre in Hpop |- *.
      rewrite length_page_range, <- page_range_snoc.
      assert (Hlast : base + length pre * PGSIZE < newsz).
      { unfold PGSIZE in *. lia. }
      assert (Hbm : base <= MAXVA).
      { unfold page_aligned in Hba. change MAXVA with (2^26 * 4096) in *.
        change PGSIZE with 4096 in *. zlia. }
      specialize (Hend Hbm).
      assert (Hk : base + S (length pre) * PGSIZE <= MAXVA) by (unfold PGSIZE in *; lia).
      eapply returns_mono; [eapply (uvmalloc_page_spec pt base perm s l); try done; [lia|]|].
      * apply Hinv; [split; [unfold PGSIZE in *; lia|by apply page_aligned_add]|].
        unfold PGSIZE in *; lia.
      * intros [[]|r] s1; [|by intros [-> H]; split; eauto]. done.
    + exists l, [], []. by apply populated_nil.
  - intros [[]|r] s'; cbn; [|tauto]. intros H. by left.
Qed.

(** [uvmalloc] growing a user address space: either it returns the new
    size, and every page of the growth is mapped, readable, to a fresh page of
    zeroes of its own; or memory ran out, it returns 0, and nothing of the
    growth stays mapped and no page is lost: the reference counts are as
    before except for the table pages the table itself has gained. *)
Theorem uvmalloc_spec pt s l oldsz newsz xperm :
  kmem_inv s l -> L_kmem ∉ held s -> own 2 s pt ->
  0 <= oldsz <= newsz -> newsz <= MAXVA -> 0 <= xperm < 2^10 ->
  (forall x, user_va x -> PGROUNDUP oldsz <= x < newsz ->
     has_flag (pte_at 2 (mem s) pt x) PTE_V = false) ->
  let perm := Z.lor (Z.lor PTE_R PTE_U) xperm in
  let vs := pages_between (PGROUNDUP oldsz) newsz in
  returns (uvmalloc pt oldsz newsz xperm s) (fun r s' =>
    (r = newsz /\ exists l' ps ts,
       populated pt (fun _ => perm) (fun _ _ => 0) s s' l l' vs ps ts) \/
    (r = 0 /\ exists (k : nat) ts,
       rolled_back pt s s' l (page_range (PGROUNDUP oldsz) k) ts)).
Proof. apply uvmalloc_run. Qed.

(** ** [uvmcopy] *)

Section Copy.
Context (old new : Z) (s0 : kernel) (l0 : list Z).
Context (Hi0 : kmem_inv s0 l0) (Hh0 : L_kmem ∉ held s0).
Context (Hold : own 2 s0 old) (Hnew : own 2 s0 new).
Context (Hdisj : forall p, p ∈ tables 2 (mem s0) old -> p ∉ tables 2 (mem s0) new).

Let V (x : Z) : Z := pte_at 2 (mem s0) old x.

Definition copied (x : Z) : bool := has_flag (V x) PTE_V.

(** The pages the parent has mapped are referenced and not table pages. *)
Definition source_ok (x : Z) : Prop :=
  copied x = true -> page_ok (PTE2PA (V x)) /\
    1 <= refcnt s0 (refindex (PTE2PA (V x))) /\ (PTE2PA (V x) ∉ tables 2 (mem s0) new).

Let perm (x : Z) : Z := PTE_FLAGS (V x).
Let content (x o : Z) : Z := mem s0 (PTE2PA (V x) + o).
Let pop := populated new perm content s0.

Lemma flags_range e : 0 <= PTE_FLAGS e < 2^10.
Proof.
  unfold PTE_FLAGS. change 0x3FF with (2^10 - 1). rewrite land_low_mask by lia.
  apply Z.mod_pos_bound. lia.
Qed.

(** The parent is not affected while the child is being populated. *)
Lemma old_kept s l vs ps ts :
  pop s l0 l vs ps ts ->
  (forall x, slot 2 (mem s) old x = slot 2 (mem s0) old x) /\
  (forall x, pte_at 2 (mem s) old x = V x) /\ own 2 s old /\
  (forall x o, source_ok x -> copied x = true -> 0 <= o < PGSIZE ->
     mem s (PTE2PA (V x) + o) = content x o).
Proof.
  intros Hpop. destruct (po_grown _ _ _ _ _ _ _ _ _ _ Hpop) as (nw & Hg & Hnw).
  destruct (own_frame 2 s0 s old (tables 2 (mem s0) new ++ l0) Hold) as (Ho & _ & Hs & Hv).
  - by apply own_or_free_aligned.
  - intros p Hp [Hn|Hl]%elem_of_app; [exact (Hdisj p Hp Hn)|].
    exact (own_not_in_free _ _ _ _ p Hold Hi0 Hp Hl).
  - apply (po_mem _ _ _ _ _ _ _ _ _ _ Hpop).
  - intros q Hq _. rewrite (grown_ref_occ _ _ _ _ _ q Hi0 Hg Hq).
    pose proof (occ_nonneg q nw). lia.
  - split_and!; try done. intros x o Hsrc Hc Hoff. destruct (Hsrc Hc) as (Hp & Hr & Hn).
    apply (other_page_kept new s0 l0); try done; [apply (po_mem _ _ _ _ _ _ _ _ _ _ Hpop)|].
    by eapply owned_not_free.
Qed.

Lemma filter_snoc (f : Z -> bool) (l : list Z) x :
  filter f (l ++ [x]) = filter f l ++ if f x then [x] else [].
Proof. rewrite filter_app. f_equal. rewrite filter_cons. by destruct (f x). Qed.

Lemma copied_user (k : nat) :
  k * PGSIZE <= MAXVA -> Forall user_va (filter copied (page_range 0 k)).
Proof.
  intros Hk. apply Forall_forall. intros x [_ Hx]%list_elem_of_filter.
  assert (Hr : Forall user_va (page_range 0 k)) by by apply page_range_user.
  rewrite Forall_forall in Hr. auto.
Qed.

(** The fresh page holds what the parent's page held. *)
Lemma copy_content s p l vs ps ts x o :
  pop s l0 (p :: l) vs ps ts -> source_ok x -> copied x = true -> 0 <= o < PGSIZE ->
  mem_copy (mem (kalloc_post p s)) p (PTE2PA (V x)) PGSIZE (p + o) = content x o.
Proof.
  intros Hpop Hsrc Hc Hoff. destruct (old_kept _ _ _ _ _ Hpop) as (_ & _ & _ & Hcon).
  rewrite <- (Hcon _ o Hsrc Hc Hoff). unfold mem_copy. rewrite decide_True by lia.
  unfold kalloc_post; cbn [mem set_mem]. replace (p + o - p) with o by lia.
  rewrite mem_fill_outside; [done|]. destruct (Hsrc Hc) as (Hq & Hr & _).
  destruct (populated_pages _ _ _ _ _ _ _ _ _ _ Hi0 Hnew Hpop) as (_ & Hi & _).
  destruct (free_elem _ _ p Hi) as [Hpo _]; [by apply elem_of_cons; left|].
  apply (page_outside p _ (PTE2PA (V x)) o); try done; [apply Hpo|apply Hq|].
  intros ->. apply (owned_not_free s0 l0 _ Hi0 Hr).
  destruct (po_grown _ _ _ _ _ _ _ _ _ _ Hpop) as (nw & Hg & _).
  rewrite (g_list _ _ _ _ _ Hg). apply elem_of_app. right. by apply elem_of_cons; left.
Qed.

Lemma uvmcopy_page_spec s l (k : nat) ps ts :
  S k * PGSIZE <= MAXVA -> source_ok (k * PGSIZE) ->
  pop s l0 l (filter copied (page_range 0 k)) ps ts ->
  has_flag (pte_at 2 (mem s0) new (k * PGSIZE)) PTE_V = false ->
  returns (uvmcopy_page old new (k * PGSIZE) s) (fun x s' =>
    match x with
    | inl _ => exists l' ps' ts', pop s' l0 l' (filter copied (page_range 0 (S k))) ps' ts'
    | inr r => r = k * PGSIZE /\ copied r = true /\ exists l' ts', (length l' <= 1)%nat /\
        pop s' l0 l' (filter copied (page_range 0 k)) ps ts'
    end).
Proof.
  intros Hend Hsrc Hpop Hinv. unfold uvmcopy_page.
  destruct (populated_pages _ _ _ _ _ _ _ _ _ _ Hi0 Hnew Hpop) as (_ & Hi & Hom).
  assert (Hh : L_kmem ∉ held s) by by rewrite (only_mem_held _ _ Hom).
  assert (Ho : own 2 s new) by apply (po_own _ _ _ _ _ _ _ _ _ _ Hpop).
  destruct (old_kept _ _ _ _ _ Hpop) as (Hs & Hv & Hos & Hcon).
  rewrite page_range_snoc, filter_snoc, Z.add_0_l.
  assert (Hva : user_va (k * PGSIZE)).
  { split; [unfold PGSIZE in *; lia|]. by apply (page_aligned_add 0). }
  kstep (walk_read s old (k * PGSIZE) (proj2 (proj1 Hva))).
  destruct (copied (k * PGSIZE)) eqn:Hc.
  2: { rewrite app_nil_r. unfold copied in Hc.
       destruct (slot 2 (mem s) old (k * PGSIZE)) as [a|] eqn:Ha; cbn [from_option id];
         [|by exists l, ps, ts].
       destruct (a =? 0); [by exists l, ps, ts|]. kstep (ld64_run a s).
       rewrite (pte_at_slot _ _ _ _ _ Ha), Hv, Hc. by exists l, ps, ts. }
  destruct (slot 2 (mem s) old (k * PGSIZE)) as [a|] eqn:Ha.
  2: { exfalso. unfold copied, V, pte_at in Hc. rewrite <- Hs, Ha in Hc. done. }
  cbn [from_option id]. rewrite (proj2 (Z.eqb_neq a 0)) by by eapply slot_nonzero.
  kstep (ld64_run a s). rewrite (pte_at_slot _ _ _ _ _ Ha), Hv.
  unfold copied in Hc. rewrite Hc. cbn [negb]. fold (perm (k * PGSIZE)).
  destruct l as [|p l].
  { kstep (kalloc_none [] s Hh Hi). cbn [Z.eqb]. split; [done|]. split; [done|]. exists [], ts. split; [cbn; lia|done]. }
  destruct (free_elem _ _ p Hi) as [Hpo _]; [by apply elem_of_cons; left|].
  kstep (kalloc_some [] s p l Hh Hi).
  rewrite (proj2 (Z.eqb_neq p 0)) by by apply page_ok_nonzero.
  kstep (kmemmove_run p (PTE2PA (V (k * PGSIZE))) PGSIZE (kalloc_post p s)).
  set (m1 := mem_copy (mem (kalloc_post p s)) p (PTE2PA (V (k * PGSIZE))) PGSIZE).
  assert (Hm1 : forall o, 0 <= o < PGSIZE -> m1 (p + o) = content (k * PGSIZE) o)
    by (intros o; by eapply copy_content).
  assert (Hus := copied_user k ltac:(unfold PGSIZE in *; lia)).
  assert (Hnv : k * PGSIZE ∉ filter copied (page_range 0 k)).
  { rewrite list_elem_of_filter. intros [_ Hin].
    apply elem_of_page_range_user in Hin; [lia|done|apply Hva]. }
  apply returns_bind. eapply returns_mono;
    [apply (map_fresh new s p l); [exact Hi|exact Hh|exact Ho|exact Hva|apply flags_range| |]|].
  { by rewrite (po_rest _ _ _ _ _ _ _ _ _ _ Hpop) by (done || by apply user_page_va). }
  { intros x Hx. specialize (Hx p ltac:(by apply list_elem_of_singleton)).
    unfold m1, mem_copy. rewrite decide_False by lia. unfold kalloc_post; cbn [mem set_mem].
    by rewrite mem_fill_outside. }
  intros r s1 (l1 & tabs & Hf & [[-> Hv1]|(-> & -> & Hv1)]); cbn [negb Z.eqb].
  - exists l1, (ps ++ [p]), (ts ++ tabs). by eapply populated_snoc.
  - destruct (fresh_step_undo _ _ _ _ _ _ _ _ Hi Ho Hh Hf) as (s2 & Hk & Hg & Ho2 & Ht & Hm & Hv2).
    rewrite bind_run, Hk. cbn [obind]. split; [done|]. split; [done|]. exists [p], (ts ++ tabs). split; [cbn; lia|].
    eapply (populated_keep _ _ _ s0 s s2); try done. intros x Hx. by rewrite Hv2, Hv1.
Qed.

Lemma mapped_filter (W : Z -> Z) (f : Z -> bool) ws :
  (forall x, x ∈ ws -> f x = false -> has_flag (W x) PTE_V = false) ->
  mapped W ws = mapped W (filter f ws).
Proof.
  unfold mapped. induction ws as [|x ws IH]; intros H; [done|].
  rewrite filter_cons. cbn [mbind list_bind].
  rewrite IH by (intros y Hy; apply H; by apply elem_of_cons; right).
  destruct (f x) eqn:E; [done|]. cbn. rewrite (H x); [done|by apply elem_of_cons; left|done].
Qed.

Lemma uvmcopy_undo s l (k : nat) ps ts :
  k * PGSIZE <= MAXVA -> pop s l0 l (filter copied (page_range 0 k)) ps ts ->
  (forall x, user_va x -> x < k * PGSIZE -> has_flag (pte_at 2 (mem s0) new x) PTE_V = false) ->
  returns (uvmunmap new 0 k true s)
    (fun _ s' => rolled_back new s0 s' l0 (filter copied (page_range 0 k)) ts).
Proof.
  intros Hk Hpop Hinv.
  destruct (populated_pages _ _ _ _ _ _ _ _ _ _ Hi0 Hnew Hpop) as (_ & Hi & Hom).
  destruct (populated_mapped _ _ _ _ _ _ _ _ _ _ Hi0 Hnew Hpop) as [Hmap _];
    [intros; apply flags_range|].
  assert (Hr : Forall user_va (page_range 0 k)) by by apply page_range_user.
  rewrite Forall_forall in Hr.
  assert (Hout : forall x, x ∈ page_range 0 k -> (x ∉ filter copied (page_range 0 k)) ->
    has_flag (pte_at 2 (mem s) new x) PTE_V = false).
  { intros x Hx Hn. rewrite (po_rest _ _ _ _ _ _ _ _ _ _ Hpop) by auto using user_page_va.
    apply Hinv; [auto|]. apply elem_of_page_range_user in Hx; [lia|done|]. by apply Hr. }
  assert (Hdead : mapped (pte_at 2 (mem s) new) (page_range 0 k) = ps).
  { rewrite (mapped_filter _ copied); [done|]. intros x Hx Hc. apply Hout; [done|].
    rewrite list_elem_of_filter, Hc. by intros [[] _]. }
  eapply returns_mono; [apply (uvmunmap_run new s l 0 k true Hi);
    [by rewrite (only_mem_held _ _ Hom)|apply (po_own _ _ _ _ _ _ _ _ _ _ Hpop)|done|done|lia|]|].
  - unfold dead_pages. rewrite Hdead. eapply populated_freeable; [exact Hi0|exact Hnew|exact Hpop].
  - unfold dead_pages. rewrite Hdead. intros [] s' [l' Hu].
    eapply (populated_undo _ _ _ s0 s s'); [exact Hi0|exact Hnew|exact Hpop| | |exact Hout|exact Hu].
    + intros; apply flags_range.
    + intros v Hv. by apply list_elem_of_filter in Hv as [_ ?].
Qed.

(** Why the copy stopped at page [k]: this page had to be copied, and the pages
    before it, the table pages [ts] that the child has got and at most one more are
    all that was free. *)
Definition no_memory (sz : Z) (k : nat) (ts : list Z) : Prop :=
  k * PGSIZE < sz /\ copied (k * PGSIZE) = true /\
  (length l0 <= length (filter copied (page_range 0 k)) + length ts + 1)%nat.

Lemma uvmcopy_run sz :
  0 <= sz <= MAXVA ->
  (forall x, user_va x -> x < sz ->
     source_ok x /\ has_flag (pte_at 2 (mem s0) new x) PTE_V = false) ->
  returns (uvmcopy old new sz s0) (fun r s' =>
    mem_within (tables 2 (mem s0) new ++ l0) (mem s0) (mem s') /\
    ((r = 0 /\ exists l' ps ts,
        populated new perm content s0 s' l0 l' (filter copied (pages_between 0 sz)) ps ts) \/
     (r = -1 /\ exists (k : nat) ts,
        rolled_back new s0 s' l0 (filter copied (page_range 0 k)) ts /\ no_memory sz k ts))).
Proof.
  intros Hsz Hpre. unfold uvmcopy.
  destruct (pages_between_ceil 0 sz ltac:(done) ltac:(done) ltac:(lia)) as (n & Hvs & Hn & Hend).
  rewrite Hvs. apply returns_bind.
  eapply returns_mono.
  - apply (returns_kfor (page_range 0 n) _ (fun pre _ s' => exists l' ps ts,
        pop s' l0 l' (filter copied pre) ps ts)
      (fun r s' => exists (k : nat) l' ps ts, r = k * PGSIZE /\ (k < n)%nat /\
         copied r = true /\ (length l' <= 1)%nat /\ pop s' l0 l' (filter copied (page_range 0 k)) ps ts)).
    + intros pre a todo [] s Heq (l' & ps & ts & Hpop).
      apply page_range_split in Heq as (Hpre' & Ha & Hlt). rewrite Z.add_0_l in Ha.
      rewrite Hpre' in Hpop. set (k := length pre) in *. subst a.
      assert (Hk : S k * PGSIZE <= MAXVA) by (unfold PGSIZE in *; lia).
      destruct (Hpre (k * PGSIZE)) as [Hsrc Hinv].
      { split; [unfold PGSIZE in *; lia|by apply (page_aligned_add 0)]. }
      { unfold PGSIZE in *; lia. }
      eapply returns_mono; [by eapply uvmcopy_page_spec|].
      intros [[]|r] s1; [by rewrite page_range_snoc, Z.add_0_l, <- Hpre'|].
      intros (-> & Hc & l1 & ts1 & Hl & Hp). by exists k, l1, ps, ts1.
    + exists l0, [], []. by apply populated_nil.
  - intros [[]|r] s'; cbn.
    + intros (l' & ps & ts & Hpop). split; [apply (po_mem _ _ _ _ _ _ _ _ _ _ Hpop)|].
      left. split; [done|]. by exists l', ps, ts.
    + intros (k & l' & ps & ts & -> & Hk & Hc & Hl & Hpop). apply returns_bind.
      rewrite Z.div_mul by done.
      eapply returns_mono; [eapply uvmcopy_undo; [|exact Hpop|]|].
      * unfold PGSIZE in *; lia.
      * intros x Hx Hlt. apply Hpre; [done|]. unfold PGSIZE in *; lia.
      * intros [] s2 Hr. split; [apply (rb_mem _ _ _ _ _ _ Hr)|]. right. split; [done|].
        exists k, ts. split; [exact Hr|]. split; [unfold PGSIZE in *; lia|]. split; [done|].
        rewrite (populated_length _ _ _ _ _ _ _ _ _ _ Hpop). lia.
Qed.

(** C9. [uvmcopy], the copy of the parent's memory in [fork]: it returns; with
    0 every page the parent has mapped below [sz] is mapped in the child, with
    the same flags, to a fresh page of its own with the same contents, and
    pages the parent has not touched stay absent; with -1 the child has no page
    below the failing one, with all references given back, and memory ran out:
    the pages copied so far, the tables they needed and at most one more page were
    all the free pages.  In both cases nothing outside the child's table and the free pages changes. *)
Theorem uvmcopy_spec sz :
  0 <= sz <= MAXVA ->
  (forall x, user_va x -> x < sz ->
     source_ok x /\ has_flag (pte_at 2 (mem s0) new x) PTE_V = false) ->
  returns (uvmcopy old new sz s0) (fun r s' =>
    mem_within (tables 2 (mem s0) new ++ l0) (mem s0) (mem s') /\
    ((r = 0 /\ exists l' ps ts,
        populated new perm content s0 s' l0 l' (filter copied (pages_between 0 sz)) ps ts) \/
     (r = -1 /\ exists (k : nat) ts,
        rolled_back new s0 s' l0 (filter copied (page_range 0 k)) ts /\ no_memory sz k ts))).
Proof. apply uvmcopy_run. Qed.

End Copy.

(** ** [freewalk] *)

(** No page is mapped any more. *)
Fixpoint no_leaf (n : nat) (m : Z -> Z) (pt : Z) : Prop :=
  match n with
  | O => forall i, 0 <= i < 512 -> has_flag (entry m pt i) PTE_V = false
  | S n' => forall i, 0 <= i < 512 -> has_flag (entry m pt i) PTE_V = true ->
      no_leaf n' m (PTE2PA (entry m pt i))
  end.

Lemma no_leaf_agree n m m' : forall pt,
  agree (tables n m pt) m m' -> no_leaf n m pt -> no_leaf n m' pt.
Proof.
  induction n as [|n IH]; intros pt Ha H i Hi;
    rewrite (entry_agree _ m m' pt i (tables_root _ m pt) Ha Hi); [by apply H|].
  intros Hv. apply IH; [|by apply H]. eapply agree_sub; [|exact Ha].
  intros p Hp. eapply subtables_in; [exact Hi|]. by rewrite subtables_valid.
Qed.

(** A table with no mapped page whose pages nobody else refers to. *)
Definition sole (n : nat) (s : kernel) (pt : Z) : Prop :=
  own n s pt /\ no_leaf n (mem s) pt /\
  (forall p, p ∈ tables n (mem s) pt -> refcnt s (refindex p) = 1).

Lemma sole_frame n s s' pt P :
  sole n s pt -> Forall page_aligned P -> (forall p, p ∈ tables n (mem s) pt -> p ∉ P) ->
  mem_within P (mem s) (mem s') ->
  (forall q, page_ok q -> (q ∉ P) -> refcnt s' (refindex q) = refcnt s (refindex q)) ->
  sole n s' pt /\ tables n (mem s') pt = tables n (mem s) pt.
Proof.
  intros (Ho & Hl & Hr) HP Hd Hm Hq.
  destruct (own_frame n s s' pt P Ho HP Hd Hm) as (Ho' & Ht & _ & _).
  { intros q Hpq Hn. rewrite Hq by done. lia. }
  split; [|done]. split_and!; [done| |].
  - eapply no_leaf_agree; [|exact Hl]. eapply mem_within_agree; eauto using own_aligned.
  - rewrite Ht. intros p Hp. destruct (own_elem _ _ _ p Ho Hp). rewrite Hq; auto.
Qed.

(** The pages [D] have been returned to the free list. *)
Record freed (s s' : kernel) (l l' D : list Z) : Prop := {
  fr_inv : kmem_inv s' l';
  fr_list : l' ≡ₚ D ++ l;
  fr_only : only_mem s s';
  fr_ref : forall q, page_ok q -> (q ∉ D) -> refcnt s' (refindex q) = refcnt s (refindex q)
}.

Lemma freed_trans s1 s2 s3 l1 l2 l3 D1 D2 :
  freed s1 s2 l1 l2 D1 -> freed s2 s3 l2 l3 D2 -> freed s1 s3 l1 l3 (D1 ++ D2).
Proof.
  intros [I1 L1 O1 R1] [I2 L2 O2 R2]. split; try done.
  - rewrite L2, L1, !app_assoc. f_equiv. apply Permutation_app_comm.
  - by eapply only_mem_trans.
  - intros q Hq [Hn1 Hn2]%not_elem_of_app. by rewrite R2, R1.
Qed.

Lemma kfree_freed s l p :
  kmem_inv s l -> L_kmem ∉ held s -> page_ok p -> refcnt s (refindex p) = 1 ->
  exists s', kfree p s = Ok tt s' /\ freed s s' l (p :: l) [p] /\
    mem_within [p] (mem s) (mem s').
Proof.
  intros Hi Hh Hp Hr.
  destruct (kfree_effect s l p Hi Hh Hp ltac:(lia)) as (s' & Hk & Hi' & Hom & Hm & Hc).
  rewrite Hr in Hi'. exists s'. split_and!; [done| |done]. split; try done.
  intros q Hq Hn. rewrite Hc by done. rewrite decide_False; [lia|].
  intros ->. apply Hn. by apply list_elem_of_singleton.
Qed.

(** The subtree below entry [j] of [pt] is ready to be freed. *)
Definition child_ok (n : nat) (s : kernel) (pt j : Z) : Prop :=
  has_flag (entry (mem s) pt j) PTE_V = true ->
  Z.land (entry (mem s) pt j) PTE_RWX = 0 /\
  sole n s (PTE2PA (entry (mem s) pt j)) /\
  (pt ∉ tables n (mem s) (PTE2PA (entry (mem s) pt j))).

Lemma freewalk_skip rec pt j s :
  has_flag (entry (mem s) pt j) PTE_V = false -> freewalk_entry rec pt j s = Ok tt s.
Proof.
  intros Hv. unfold freewalk_entry. kstep (ld64_run (pt + 8 * j) s).
  fold (entry (mem s) pt j). by rewrite Hv.
Qed.

Section Children.
Context (n : nat) (rec : Z -> K unit) (pt : Z) (Hpt : page_ok pt).
Context (Hrec : forall s l c, kmem_inv s l -> L_kmem ∉ held s -> sole n s c ->
  returns (rec c s) (fun _ s' => exists l', freed s s' l l' (tables n (mem s) c) /\
    mem_within (tables n (mem s) c) (mem s) (mem s'))).

(** Clearing entry [j] after its subtree [D] is gone leaves the others ready. *)
Lemma child_step s s1 l l1 j k (D := subtables n (mem s) pt j) :
  0 <= j < 512 -> 0 <= k < 512 -> j <> k -> Forall page_aligned D -> (pt ∉ D) ->
  freed s s1 l l1 D -> mem_within D (mem s) (mem s1) ->
  (forall p, p ∈ subtables n (mem s) pt k -> p ∉ D) -> child_ok n s pt k ->
  let s2 := set_mem (store64 (mem s1) (pt + 8 * j) 0) s1 in
  child_ok n s2 pt k /\ subtables n (mem s2) pt k = subtables n (mem s) pt k.
Proof.
  intros Hj Hk Hne Hal Hn Hf Hm Hd Hc s2.
  assert (He : entry (mem s2) pt k = entry (mem s) pt k).
  { unfold entry, s2; cbn [mem set_mem]. rewrite load64_store64_ne by lia.
    apply load64_ext. intros x Hx. apply Hm. intros p Hp.
    rewrite Forall_forall in Hal.
    apply (page_outside p x pt (x - pt)); [auto|apply Hpt| |unfold PGSIZE; lia|lia].
    by intros ->. }
  unfold child_ok, subtables in *. rewrite He.
  destruct (has_flag (entry (mem s) pt k) PTE_V) eqn:Hv; [|done].
  destruct (Hc eq_refl) as (Hrwx & Hs & Hnk).
  assert (Hms : mem_within (pt :: D) (mem s) (mem s2)).
  { eapply mem_within_trans; [eapply mem_within_mono; [|exact Hm]|].
    - intros p Hp. by apply elem_of_cons; right.
    - intros x Hx. apply (store64_outside _ _ _ pt); [lia|unfold PGSIZE; lia|].
      apply Hx. by apply elem_of_cons; left. }
  destruct (sole_frame n s s2 _ (pt :: D) Hs) as [Hs2 Ht2]; [| |exact Hms| |].
  - apply Forall_cons. split; [apply Hpt|done].
  - intros p Hp [->|Hin]%elem_of_cons; [done|]. exact (Hd p Hp Hin).
  - intros q Hq [_ Hnd]%not_elem_of_cons. by apply (fr_ref _ _ _ _ _ Hf).
  - by rewrite Ht2.
Qed.

Lemma freewalk_valid s l j (D := subtables n (mem s) pt j) :
  kmem_inv s l -> L_kmem ∉ held s -> 1 <= refcnt s (refindex pt) -> 0 <= j < 512 ->
  has_flag (entry (mem s) pt j) PTE_V = true -> child_ok n s pt j ->
  returns (freewalk_entry rec pt j s) (fun _ s2 => exists s1 l1,
    s2 = set_mem (store64 (mem s1) (pt + 8 * j) 0) s1 /\
    freed s s1 l l1 D /\ mem_within D (mem s) (mem s1) /\
    freed s s2 l l1 D /\ mem_within (pt :: D) (mem s) (mem s2)).
Proof.
  intros Hi Hh Hr Hj Hv Hc. destruct (Hc Hv) as (Hrwx & Hs & Hpn).
  unfold freewalk_entry, D. rewrite subtables_valid by done.
  kstep (ld64_run (pt + 8 * j) s). fold (entry (mem s) pt j). rewrite Hv.
  unfold PTE_RWX in Hrwx. rewrite Hrwx. cbn [andb Z.eqb].
  apply returns_bind. eapply returns_mono; [by apply (Hrec s l)|].
  intros [] s1 (l1 & Hf & Hm). exists s1, l1.
  assert (Hms : mem_within [pt] (mem s1) (store64 (mem s1) (pt + 8 * j) 0)).
  { intros x Hx. apply (store64_outside _ _ _ pt); [lia|unfold PGSIZE; lia|].
    apply Hx. by apply list_elem_of_singleton. }
  split_and!; try done.
  - destruct Hf as [I1 L1 O1 R1]. split; try done.
    + apply (kmem_inv_within s1 l1 [pt]); try done; [by apply Forall_singleton, Hpt|].
      intros p ->%list_elem_of_singleton. eapply owned_not_free; [exact I1|]. by rewrite R1.
    + eapply only_mem_trans; [exact O1|]. by destruct s1.
  - eapply mem_within_trans; (eapply mem_within_mono; [|eassumption]); intros p Hp;
      [by apply elem_of_cons; right|]. apply list_elem_of_singleton in Hp as ->.
    by apply elem_of_cons; left.
Qed.

Lemma freewalk_children js : forall s l,
  kmem_inv s l -> L_kmem ∉ held s -> 1 <= refcnt s (refindex pt) ->
  NoDup js -> (forall j, j ∈ js -> 0 <= j < 512) -> (forall j, j ∈ js -> child_ok n s pt j) ->
  NoDup (js ≫= subtables n (mem s) pt) ->
  returns (kiter js (fun i _ => freewalk_entry rec pt i) tt s) (fun _ s' =>
    exists l', freed s s' l l' (js ≫= subtables n (mem s) pt) /\
      mem_within (pt :: (js ≫= subtables n (mem s) pt)) (mem s) (mem s')).
Proof.
  induction js as [|j js IH]; intros s l Hi Hh Hr Hnd Hrange Hok Hnt.
  { exists l. split; [|done]. split; try done. apply only_mem_refl. }
  apply NoDup_cons in Hnd as [Hjn Hnd]. cbn [kiter].
  assert (Hj : 0 <= j < 512) by (apply Hrange; by apply elem_of_cons; left).
  destruct (has_flag (entry (mem s) pt j) PTE_V) eqn:Hv.
  2: { rewrite bind_run, freewalk_skip by done. cbn [obind].
       cbn [mbind list_bind] in *. unfold subtables in Hnt |- * at 1 3. rewrite Hv in *. cbn [app] in *.
       apply IH; try done; intros k Hk; (apply Hrange || apply Hok); by apply elem_of_cons; right. }
  assert (Hcj : child_ok n s pt j) by (apply Hok; by apply elem_of_cons; left).
  destruct (Hcj Hv) as (_ & Hs & Hpn). rewrite <- subtables_valid in Hpn by done.
  apply returns_bind. eapply returns_mono; [by apply (freewalk_valid s l j)|].
  intros [] s2 (s1 & l1 & -> & Hf1 & Hm1 & Hf2 & Hm2).
  set (s2 := set_mem _ s1) in *. cbn [mbind list_bind] in Hnt |- *.
  apply NoDup_app in Hnt as (_ & Hdis & Hnt).
  assert (Hal : Forall page_aligned (subtables n (mem s) pt j)).
  { rewrite subtables_valid by done. by apply own_aligned, Hs. }
  assert (Hk : forall k, k ∈ js ->
    child_ok n s2 pt k /\ subtables n (mem s2) pt k = subtables n (mem s) pt k).
  { intros k Hk. eapply (child_step s s1 l l1 j k); try done.
    - apply Hrange. by apply elem_of_cons; right.
    - by intros ->.
    - intros p Hp Hd. apply (Hdis p Hd). apply list_elem_of_bind. by exists k.
    - apply Hok. by apply elem_of_cons; right. }
  assert (Hext : (js ≫= subtables n (mem s2) pt) = (js ≫= subtables n (mem s) pt)).
  { apply bind_ext_elem. intros k Hkj. by apply Hk. }
  rewrite <- Hext in Hnt |- *.
  eapply returns_mono; [apply (IH s2 l1); try done|].
  - apply Hf2.
  - by rewrite (only_mem_held _ _ (fr_only _ _ _ _ _ Hf2)).
  - by rewrite (fr_ref _ _ _ _ _ Hf2).
  - intros k Hkj. apply Hrange. by apply elem_of_cons; right.
  - intros k Hkj. by apply Hk.
  - intros [] s3 (l3 & Hf3 & Hm3). exists l3. split; [by eapply freed_trans|].
    eapply mem_within_trans; (eapply mem_within_mono; [|eassumption]);
      intros p; rewrite !elem_of_cons, ?elem_of_app; tauto.
Qed.
End Children.

Lemma freewalk_no_entries rec pt js s :
  (forall j, j ∈ js -> has_flag (entry (mem s) pt j) PTE_V = false) ->
  kiter js (fun i _ => freewalk_entry rec pt i) tt s = Ok tt s.
Proof.
  induction js as [|j js IH]; intros H; [done|]. cbn [kiter].
  rewrite bind_run, freewalk_skip by (apply H; by apply elem_of_cons; left). cbn [obind].
  apply IH. intros k Hk. apply H. by apply elem_of_cons; right.
Qed.

Lemma freed_perm s s' l l' D D' : D ≡ₚ D' -> freed s s' l l' D -> freed s s' l l' D'.
Proof.
  intros HD [I1 L1 O1 R1]. split; try done; [by rewrite L1, HD|].
  intros q Hq Hn. apply R1; [done|]. by rewrite HD.
Qed.

Lemma sole_children n s pt :
  sole (S n) s pt ->
  (forall j, j ∈ upto 512 -> child_ok n s pt j) /\
  NoDup (upto 512 ≫= subtables n (mem s) pt) /\ (pt ∉ (upto 512 ≫= subtables n (mem s) pt)).
Proof.
  intros (Ho & Hl & Hr).
  assert (Hnd : NoDup (tables (S n) (mem s) pt)) by apply Ho.
  rewrite tables_S in Hnd. apply NoDup_cons in Hnd as [Hpt Hnd].
  split; [|done]. intros j Hj%elem_of_upto Hv.
  assert (Hsub : forall p, p ∈ tables n (mem s) (PTE2PA (entry (mem s) pt j)) ->
    p ∈ tables (S n) (mem s) pt).
  { intros p Hp. eapply subtables_in; [exact Hj|]. by rewrite subtables_valid. }
  split_and!.
  - destruct Ho as (_ & _ & Hb). by apply (Hb j).
  - split_and!; [by apply own_child|by apply Hl|auto].
  - by apply (tree_ok_child n _ pt j (own_tree_ok _ _ _ Ho)).
Qed.

Lemma freewalk_run n : forall fuel s l pt,
  (n < fuel)%nat -> kmem_inv s l -> L_kmem ∉ held s -> sole n s pt ->
  returns (freewalk fuel pt s) (fun _ s' => exists l',
    freed s s' l l' (tables n (mem s) pt) /\ mem_within (tables n (mem s) pt) (mem s) (mem s')).
Proof.
  induction n as [|n IH]; intros [|fuel] s l pt Hf Hi Hh Hs; try lia; cbn [freewalk].
  - destruct Hs as (Ho & Hl & Hr). rewrite bind_run, freewalk_no_entries
      by (intros j Hj; by apply Hl, elem_of_upto). cbn [obind].
    destruct (own_elem _ _ _ pt Ho (tables_root _ _ _)) as [Hp _].
    destruct (kfree_freed s l pt Hi Hh Hp) as (s' & -> & Hfr & Hm); [apply Hr, tables_root|].
    by exists (pt :: l).
  - destruct (sole_children n s pt Hs) as (Hok & Hnd & Hpn). destruct Hs as (Ho & _ & Hr).
    pose proof (Hr pt (tables_root _ _ _)) as Hr1.
    destruct (own_elem _ _ _ pt Ho (tables_root _ _ _)) as [Hp _].
    apply returns_bind. eapply returns_mono; [apply (freewalk_children n _ pt Hp) with (l := l)|].
    + intros s' l' c Hi' Hh' Hs'. apply IH; try done. lia.
    + done.
    + done.
    + lia.
    + apply NoDup_upto.
    + by intros j Hj%elem_of_upto.
    + done.
    + done.
    + intros [] s1 (l1 & Hf1 & Hm1).
      destruct (kfree_freed s1 l1 pt (fr_inv _ _ _ _ _ Hf1)) as (s' & -> & Hfr & Hm); [|done| |].
      * by rewrite (only_mem_held _ _ (fr_only _ _ _ _ _ Hf1)).
      * by rewrite (fr_ref _ _ _ _ _ Hf1).
      * exists (pt :: l1). rewrite tables_S. split.
        -- eapply freed_perm; [|by eapply freed_trans]. by rewrite Permutation_app_comm.
        -- eapply mem_within_trans; [exact Hm1|]. eapply mem_within_mono; [|exact Hm].
           intros p ->%list_elem_of_singleton. by apply elem_of_cons; left.
Qed.

(** An address space without translation has no leaf. *)
Lemma no_view_no_leaf m pt :
  (forall x, page_va x -> has_flag (pte_at 2 m pt x) PTE_V = false) -> no_leaf 2 m pt.
Proof.
  intros H i2 H2 V2 i1 H1 V1 i0 H0.
  set (x := i2 * 2^30 + i1 * 2^21 + i0 * 2^12).
  assert (Hpx : PX 2%nat x = i2 /\ PX 1%nat x = i1 /\ PX 0%nat x = i0).
  { rewrite !PX_eq by lia. unfold x. split_and!; zlia. }
  destruct Hpx as (E2 & E1 & E0).
  specialize (H x ltac:(unfold page_va, page_aligned, PGSIZE, x; split; zlia)).
  rewrite !pte_at_S, E2, V2, E1, V1 in H. unfold pte_at in H. rewrite <- E0. exact H.
Qed.

Lemma freed_ref_occ s s' l l' D q :
  kmem_inv s l -> freed s s' l l' D -> NoDup D ->
  (forall p, p ∈ D -> page_ok p /\ refcnt s (refindex p) = 1) -> page_ok q ->
  refcnt s' (refindex q) = refcnt s (refindex q) - occ q D.
Proof.
  intros Hi Hf Hnd HD Hq. destruct (decide (q ∈ D)) as [Hin|Hn].
  - destruct (HD q Hin) as [_ ->].
    destruct (free_elem s' l' q (fr_inv _ _ _ _ _ Hf)) as [_ ->].
    { rewrite (fr_list _ _ _ _ _ Hf), elem_of_app. by left. }
    pose proof (occ_NoDup q D Hnd). apply occ_elem in Hin. lia.
  - rewrite (fr_ref _ _ _ _ _ Hf q Hq Hn), occ_not by done. lia.
Qed.

(** After the unmapping in [uvmfree] the table is ready for [freewalk]. *)
Lemma unmapped_sole pt s s1 vs dead l1 :
  unmap_post pt s s1 vs dead l1 -> freeable pt s dead ->
  (forall p, p ∈ tables 2 (mem s) pt -> refcnt s (refindex p) = 1) -> own 2 s pt ->
  (forall x, page_va x -> (x ∉ vs) -> has_flag (pte_at 2 (mem s) pt x) PTE_V = false) ->
  sole 2 s1 pt.
Proof.
  intros [Ui Uo Uw Ut Um Uv Ur] Hfr Hone Ho Hout. split_and!; [done| |].
  - apply no_view_no_leaf. intros x Hx. rewrite Uv by done. case_decide as Hd; [done|].
    destruct (decide (x ∈ vs)) as [Hin|Hn]; [|auto].
    destruct (has_flag (pte_at 2 (mem s) pt x) PTE_V); [|done]. by destruct Hd.
  - rewrite Ut. intros p Hp. destruct (own_elem _ _ _ p Ho Hp) as [Hpo _].
    rewrite Ur, Hone, occ_not; [lia| |done|done].
    intros Hd. destruct (Hfr p Hd) as (_ & Hn & _). exact (Hn Hp).
Qed.

Lemma uvmfree_unmap pt s l sz (vs := pages_between 0 (PGROUNDUP sz))
    (dead := mapped (pte_at 2 (mem s) pt) vs) :
  kmem_inv s l -> L_kmem ∉ held s -> own 2 s pt -> 0 <= sz <= MAXVA -> freeable pt s dead ->
  returns (when (0 <? sz) (uvmunmap pt 0 (PGROUNDUP sz `div` PGSIZE) true) s)
    (fun _ s1 => exists l1, unmap_post pt s s1 vs dead l1).
Proof.
  intros Hi Hh Ho Hsz Hfr. change MAXVA with (2^26 * 4096) in Hsz.
  set (k := (sz + (PGSIZE - 1)) `div` PGSIZE).
  assert (Hk : 0 <= k <= 2^26) by (unfold k; change PGSIZE with 4096; zlia).
  assert (Hup : PGROUNDUP sz = 0 + Z.to_nat k * PGSIZE).
  { rewrite PGROUNDUP_eq by (unfold PGSIZE; lia). fold k. rewrite Z2Nat.id by lia. lia. }
  assert (Hvs : vs = page_range 0 (Z.to_nat k)) by (unfold vs; rewrite Hup; apply pages_between_range).
  destruct (Z.ltb_spec 0 sz) as [Hp|Hz]; cbn [when].
  - replace (PGROUNDUP sz `div` PGSIZE) with (Z.of_nat (Z.to_nat k))
      by (rewrite Hup; change PGSIZE with 4096; zlia).
    unfold dead in *. rewrite Hvs in *.
    apply (uvmunmap_run pt s l 0 (Z.to_nat k) true); try done.
    change MAXVA with (2^26 * PGSIZE). unfold PGSIZE in *. lia.
  - replace k with 0 in Hvs by (unfold k; replace sz with 0 by lia; done).
    exists l. unfold dead. rewrite Hvs. apply unmap_post_refl; try done.
    by intros x ?%not_elem_of_nil.
Qed.

Lemma uvmfree_run pt s l sz :
  let vs := pages_between 0 (PGROUNDUP sz) in
  let dead := mapped (pte_at 2 (mem s) pt) vs in
  kmem_inv s l -> L_kmem ∉ held s -> own 2 s pt -> 0 <= sz <= MAXVA ->
  (forall p, p ∈ tables 2 (mem s) pt -> refcnt s (refindex p) = 1) ->
  freeable pt s dead ->
  (forall x, page_va x -> (x ∉ vs) -> has_flag (pte_at 2 (mem s) pt x) PTE_V = false) ->
  returns (uvmfree pt sz s) (fun _ s' =>
    (exists l', kmem_inv s' l') /\ only_mem s s' /\
    mem_within (tables 2 (mem s) pt ++ dead) (mem s) (mem s') /\
    (forall q, page_ok q -> refcnt s' (refindex q) =
       refcnt s (refindex q) - occ q (tables 2 (mem s) pt ++ dead))).
Proof.
  intros vs dead Hi Hh Ho Hsz Hone Hfr Hout. unfold uvmfree.
  apply returns_bind. eapply returns_mono; [by apply (uvmfree_unmap pt s l sz)|].
  intros [] s1 [l1 Hu]. fold vs dead in Hu.
  pose proof (unmapped_sole _ _ _ _ _ _ Hu Hfr Hone Ho Hout) as Hs.
  eapply returns_mono; [apply (freewalk_run 2 4 s1 l1); [lia|apply Hu| |exact Hs]|].
  { by rewrite (unmap_post_held _ _ _ _ _ _ Hu). }
  intros [] s2 (l2 & Hf & Hm). destruct Hu as [Ui Uo Uw Ut Um Uv Ur]. rewrite Ut in Hf, Hm.
  split_and!.
  - exists l2. apply Hf.
  - eapply only_mem_trans; [exact Uo|apply Hf].
  - eapply mem_within_trans; [exact Um|]. eapply mem_within_mono; [|exact Hm].
    intros p Hp. apply elem_of_app. by left.
  - intros q Hq. rewrite (freed_ref_occ s1 s2 l1 l2 _ q Ui Hf); [|apply Ho| |done].
    + rewrite Ur, occ_app by done. lia.
    + intros p Hp. split; [by apply (own_elem _ _ _ p Ho)|]. apply Hs. by rewrite Ut.
Qed.

(** [uvmfree] of an address space whose mapped pages all lie below [sz]:
    it returns, and gives up exactly one reference for every table page and
    one for every mapped page, so that nothing of the address space leaks;
    memory outside those pages is not written. *)
Theorem uvmfree_spec pt s l sz :
  let vs := pages_between 0 (PGROUNDUP sz) in
  let dead := mapped (pte_at 2 (mem s) pt) vs in
  kmem_inv s l -> L_kmem ∉ held s -> own 2 s pt -> 0 <= sz <= MAXVA ->
  (forall p, p ∈ tables 2 (mem s) pt -> refcnt s (refindex p) = 1) ->
  freeable pt s dead ->
  (forall x, page_va x -> (x ∉ vs) -> has_flag (pte_at 2 (mem s) pt x) PTE_V = false) ->
  returns (uvmfree pt sz s) (fun _ s' =>
    (exists l', kmem_inv s' l') /\ only_mem s s' /\
    mem_within (tables 2 (mem s) pt ++ dead) (mem s) (mem s') /\
    (forall q, page_ok q -> refcnt s' (refindex q) =
       refcnt s (refindex q) - occ q (tables 2 (mem s) pt ++ dead))).
Proof. apply uvmfree_run. Qed.

End Uvm.

Lemma mapped_one (V : Z -> Z) x p :
  mapped V [x] = [p] -> has_flag (V x) PTE_V = true -> PTE2PA (V x) = p.
Proof. unfold mapped. cbn. intros H Hv. rewrite Hv in H. by injection H. Qed.

(** ** Witnesses: a process with one page of memory *)

Section Witness.
#[local] Existing Instance small_layout.
#[local] Existing Instance small_layout_ok.

Definition child_pt : Z := PHYSTOP - PGSIZE.
Definition user_pt : Z := PHYSTOP - 2 * PGSIZE.
Definition with_child : kernel := zalloc_post child_pt booted.
Definition with_pt : kernel := zalloc_post user_pt with_child.
Definition free6 : list Z := reverse (page_range (PHYSTOP - 8 * PGSIZE) 6).

(** A fresh page is an empty table of the caller. *)
Lemma zalloc_table s p l :
  kmem_inv s (p :: l) -> L_kmem ∉ held s ->
  let s' := zalloc_post p s in
  kmem_inv s' l /\ (L_kmem ∉ held s') /\ own 2 s' p /\ tables 2 (mem s') p = [p] /\
  (forall x, pte_at 2 (mem s') p x = 0) /\ refcnt s' (refindex p) = 1.
Proof.
  intros Hi Hh s'. destruct (zalloc_grown s p l Hi) as (Hg & _ & Hz).
  destruct (zero_table 2 _ p Hz) as (Ht & Hv & Hb). fold s' in Hg, Hz, Ht, Hv, Hb.
  assert (Hr : refcnt s' (refindex p) = 1)
    by (apply (g_new _ _ _ _ _ Hg); by apply elem_of_cons; left).
  split_and!; [apply Hg| |split_and!|exact Ht|exact Hv|exact Hr].
  - by rewrite (only_mem_held _ _ (g_only _ _ _ _ _ Hg)).
  - rewrite Ht. apply NoDup_singleton.
  - rewrite Ht. apply Forall_singleton. split; [|rewrite Hr; lia].
    apply (free_elem _ _ _ Hi), elem_of_cons. by left.
  - exact Hb.
Qed.

Lemma with_child_ok :
  kmem_inv with_child (user_pt :: free6) /\ (L_kmem ∉ held with_child) /\
  own 2 with_child child_pt /\ tables 2 (mem with_child) child_pt = [child_pt] /\
  (forall x, pte_at 2 (mem with_child) child_pt x = 0) /\
  refcnt with_child (refindex child_pt) = 1.
Proof.
  pose proof (proj1 booted_inv) as Hi.
  change (reverse (page_range (PHYSTOP - 8 * PGSIZE) 8)) with (child_pt :: user_pt :: free6) in Hi.
  exact (zalloc_table booted child_pt _ Hi booted_unlocked).
Qed.

#[local] Opaque with_child.

Lemma with_pt_ok :
  kmem_inv with_pt free6 /\ (L_kmem ∉ held with_pt) /\ own 2 with_pt user_pt /\
  tables 2 (mem with_pt) user_pt = [user_pt] /\
  (forall x, pte_at 2 (mem with_pt) user_pt x = 0) /\
  refcnt with_pt (refindex user_pt) = 1.
Proof.
  destruct with_child_ok as (Hi & Hh & _). exact (zalloc_table with_child user_pt free6 Hi Hh).
Qed.

Lemma with_pt_child :
  own 2 with_pt child_pt /\ tables 2 (mem with_pt) child_pt = [child_pt] /\
  (forall x, pte_at 2 (mem with_pt) child_pt x = 0).
Proof.
  destruct with_child_ok as (Hi & Hh & Ho & Ht & Hv & _).
  destruct (zalloc_grown with_child user_pt free6 Hi) as (Hg & Hm & _).
  assert (Hne : child_pt <> user_pt) by discriminate.
  destruct (own_frame 2 with_child with_pt child_pt [user_pt] Ho) as (Ho' & Ht' & _ & Hv').
  - by apply Forall_singleton.
  - rewrite Ht. by intros q ->%list_elem_of_singleton ?%list_elem_of_singleton.
  - exact Hm.
  - intros q Hq Hn. unfold with_pt. rewrite (g_ref _ _ _ _ _ Hg q Hq Hn). lia.
  - split_and!; [exact Ho'|rewrite Ht'; exact Ht|]. intros x. rewrite Hv'. apply Hv.
Qed.

#[local] Opaque with_pt.

Lemma mappages_spec_witness :
  returns (mappages user_pt 0 (1%nat * PGSIZE) KERNBASE PTE_R with_pt) (fun r s' =>
    own 2 s' user_pt /\ mappages_result with_pt user_pt 0 KERNBASE PTE_R 1 free6 r s').
Proof.
  destruct with_pt_ok as (Hi & Hh & Ho & _ & Hv & _).
  apply mappages_spec; [exact Hi|exact Hh|exact Ho|lia| | | | | |].
  - by vm_compute.
  - by vm_compute.
  - by vm_compute.
  - by vm_compute.
  - by vm_compute.
  - by intros x _ _; rewrite Hv.
Defined.

Lemma uvmalloc_spec_witness : returns (uvmalloc user_pt 0 PGSIZE PTE_W with_pt) (fun r s' =>
    (r = PGSIZE /\ exists l' ps ts, populated user_pt (fun _ => Z.lor (Z.lor PTE_R PTE_U) PTE_W)
       (fun _ _ => 0) with_pt s' free6 l' [0] ps ts) \/
    (r = 0 /\ exists (k : nat) ts, rolled_back user_pt with_pt s' free6 (page_range 0 k) ts)).
Proof.
  destruct with_pt_ok as (Hi & Hh & Ho & _ & Hv & _).
  apply (uvmalloc_spec user_pt with_pt free6 0 PGSIZE PTE_W); try done.
  by intros x _ _; rewrite Hv.
Defined.

Definition one_page : kernel := after (uvmalloc user_pt 0 PGSIZE PTE_W) with_pt.

(** The value of a run. *)
Definition result {A} (m : K A) (s : kernel) : option A :=
  match m s with Ok a _ => Some a | _ => None end.

Lemma one_page_value : result (uvmalloc user_pt 0 PGSIZE PTE_W) with_pt = Some PGSIZE.
Proof. vm_compute. reflexivity. Qed.

Lemma one_page_populated : exists l' p ts,
  populated user_pt (fun _ => Z.lor (Z.lor PTE_R PTE_U) PTE_W) (fun _ _ => 0)
    with_pt one_page free6 l' [0] [p] ts.
Proof.
  destruct with_pt_ok as (Hi & Hh & Ho & _ & Hv & _).
  pose proof (uvmalloc_run user_pt with_pt free6 0 PGSIZE PTE_W Hi Hh Ho
    ltac:(by vm_compute) ltac:(by vm_compute) ltac:(by vm_compute)
    ltac:(by intros x _ _; rewrite Hv)) as H0.
  destruct (after_ok _ _ _ H0) as (r & Hr & H). clear H0.
  fold one_page in Hr, H. pose proof one_page_value as Hval. unfold result in Hval.
  rewrite Hr in Hval. injection Hval as ->.
  destruct H as [[_ (l' & ps & ts & Hpop)]|[Hz _]]; [|discriminate Hz].
  change (pages_between (PGROUNDUP 0) PGSIZE) with [0] in Hpop.
  pose proof (po_maps _ _ _ _ _ _ _ _ _ _ Hpop) as Hm.
  apply Forall2_cons_inv_l in Hm as (p & ps' & _ & Hnil & ->).
  apply Forall2_nil_inv_l in Hnil as ->. exists l', p, ts. exact Hpop.
Qed.

#[local] Opaque one_page.

Lemma one_page_ok : exists l' p,
  kmem_inv one_page l' /\ (L_kmem ∉ held one_page) /\ own 2 one_page user_pt /\
  mapped (pte_at 2 (mem one_page) user_pt) [0] = [p] /\ freeable user_pt one_page [p] /\
  (forall q, q ∈ tables 2 (mem one_page) user_pt -> refcnt one_page (refindex q) = 1) /\
  (forall x, page_va x -> (x ∉ [0]) -> has_flag (pte_at 2 (mem one_page) user_pt x) PTE_V = false).
Proof.
  destruct with_pt_ok as (Hi & Hh & Ho & Ht & Hv & Hr).
  destruct one_page_populated as (l' & p & ts & Hpop). exists l', p.
  destruct (populated_pages _ _ _ _ _ _ _ _ _ _ Hi Ho Hpop) as (_ & Hi' & Hom).
  destruct (populated_mapped _ _ _ _ _ _ _ _ _ _ Hi Ho Hpop) as [Hmap _];
    [intros v _; split; [discriminate|reflexivity]|].
  pose proof (populated_freeable _ _ _ _ _ _ _ _ _ _ Hi Ho Hpop) as Hfr.
  destruct Hpop as [(new & Hg & Hnew) Ho' Ht' _ _ Hrest].
  split_and!; [exact Hi'| |exact Ho'|exact Hmap|exact Hfr| |].
  - rewrite (only_mem_held _ _ Hom). exact Hh.
  - intros q. rewrite Ht', Ht. intros [->%list_elem_of_singleton|Hq]%elem_of_app.
    + rewrite (g_ref _ _ _ _ _ Hg); [exact Hr|apply (own_elem _ _ _ _ Ho), tables_root|].
      intros Hin. destruct (grown_disjoint _ _ _ _ _ _ Hi Ho Hg _ Hin) as (_ & Hn & _).
      apply Hn, tables_root.
    + apply (g_new _ _ _ _ _ Hg). rewrite Hnew. apply elem_of_app. by right.
  - intros x Hx Hn. rewrite (Hrest x Hx Hn), Hv. reflexivity.
Qed.

Lemma uvmunmap_spec_witness :
  returns (uvmunmap user_pt 0 1%nat true one_page) (fun _ s' => exists l',
    unmap_post user_pt one_page s' (page_range 0 1)
      (dead_pages true (pte_at 2 (mem one_page) user_pt) (page_range 0 1)) l').
Proof.
  destruct one_page_ok as (l' & p & Hi & Hh & Ho & Hmap & Hfr & _).
  apply (uvmunmap_spec user_pt one_page l');
    [exact Hi|exact Hh|exact Ho|reflexivity|lia|by vm_compute|].
  unfold dead_pages. change (page_range 0 1) with [0]. rewrite Hmap. exact Hfr.
Defined.

Lemma uvmfree_spec_witness :
  returns (uvmfree user_pt PGSIZE one_page) (fun _ s' =>
    (exists l', kmem_inv s' l') /\
    refcnt s' (refindex user_pt) = 0).
Proof.
  destruct one_page_ok as (l' & p & Hi & Hh & Ho & Hmap & Hfr & Hone & Hout).
  pose proof (uvmfree_spec user_pt one_page l' PGSIZE) as H. cbv zeta in H.
  change (pages_between 0 (PGROUNDUP PGSIZE)) with [0] in H. rewrite Hmap in H.
  assert (Hsz : 0 <= PGSIZE <= MAXVA) by (split; vm_compute; discriminate).
  eapply returns_mono; [exact (H Hi Hh Ho Hsz Hone Hfr Hout)|].
  - intros [] s' (Hinv & _ & _ & Hr). split; [exact Hinv|].
    destruct (own_elem _ _ _ user_pt Ho (tables_root _ _ _)) as [Hp _].
    rewrite Hr, (Hone user_pt (tables_root _ _ _)), occ_app by exact Hp.
    pose proof (occ_NoDup user_pt _ (proj1 Ho)).
    pose proof (proj1 (occ_elem user_pt _) (tables_root 2 (mem one_page) user_pt)).
    rewrite (occ_not user_pt [p]); [lia|]. intros Hin.
    destruct (Hfr _ Hin) as (_ & Hn & _). apply Hn, tables_root.
Defined.

(** The child's empty table while the parent has one page. *)
Lemma one_page_child :
  own 2 one_page child_pt /\ tables 2 (mem one_page) child_pt = [child_pt] /\
  (forall x, pte_at 2 (mem one_page) child_pt x = 0) /\
  (child_pt ∉ tables 2 (mem one_page) user_pt) /\
  (child_pt ∉ mapped (pte_at 2 (mem one_page) user_pt) [0]).
Proof.
  destruct with_pt_ok as (Hi & Hh & Ho & Ht & Hv & Hr).
  destruct with_pt_child as (Hoc & Htc & Hvc).
  destruct one_page_populated as (l' & p & ts & Hpop).
  destruct (populated_mapped _ _ _ _ _ _ _ _ _ _ Hi Ho Hpop) as [Hmap _];
    [intros v _; split; [discriminate|reflexivity]|].
  destruct (po_grown _ _ _ _ _ _ _ _ _ _ Hpop) as (new & Hg & Hnew).
  assert (Hcf : child_pt ∉ free6).
  { apply (own_not_in_free _ _ _ _ _ Hoc Hi). apply tables_root. }
  assert (Hcn : child_pt ∉ [p] ++ ts).
  { rewrite <- Hnew. intros Hin. apply Hcf. rewrite (g_list _ _ _ _ _ Hg).
    apply elem_of_app. left. exact Hin. }
  apply not_elem_of_app in Hcn as [Hcp Hct].
  assert (Hne : child_pt ∉ [user_pt]) by (intros Hin%list_elem_of_singleton; discriminate Hin).
  destruct (own_frame 2 with_pt one_page child_pt (tables 2 (mem with_pt) user_pt ++ free6) Hoc)
    as (Ho' & Ht' & _ & Hv').
  - apply (own_or_free_aligned _ _ _ Hi Ho).
  - rewrite Htc, Ht. intros q ->%list_elem_of_singleton [Hq|Hq]%elem_of_app;
      [exact (Hne Hq)|exact (Hcf Hq)].
  - apply (po_mem _ _ _ _ _ _ _ _ _ _ Hpop).
  - intros q Hq _. rewrite (grown_ref_occ _ _ _ _ _ q Hi Hg Hq).
    pose proof (occ_nonneg q new). lia.
  - split_and!; [exact Ho'|rewrite Ht'; exact Htc| | |].
    + intros x. rewrite Hv'. apply Hvc.
    + rewrite (po_tables _ _ _ _ _ _ _ _ _ _ Hpop), Ht. apply not_elem_of_app.
      split; [exact Hne|exact Hct].
    + rewrite Hmap. exact Hcp.
Qed.

Lemma one_page_copy_value : result (uvmcopy user_pt child_pt PGSIZE) one_page = Some 0.
Proof. vm_compute. reflexivity. Qed.

Lemma uvmcopy_spec_witness : returns (uvmcopy user_pt child_pt PGSIZE one_page) (fun r s' =>
  r = 0 /\ exists l l' vs ps ts,
    populated child_pt (fun x => PTE_FLAGS (pte_at 2 (mem one_page) user_pt x))
      (fun x o => mem one_page (PTE2PA (pte_at 2 (mem one_page) user_pt x) + o))
      one_page s' l l' vs ps ts).
Proof.
  destruct one_page_ok as (l & p & Hi & Hh & Ho & Hmap & Hfr & _ & _).
  destruct one_page_child as (Hoc & Htc & Hvc & Hcu & Hcm). rewrite Hmap in Hcm.
  assert (Hdis : forall q, q ∈ tables 2 (mem one_page) user_pt ->
    q ∉ tables 2 (mem one_page) child_pt).
  { intros q Hq. rewrite Htc. intros ->%list_elem_of_singleton. exact (Hcu Hq). }
  assert (Hsz : 0 <= PGSIZE <= MAXVA) by (split; vm_compute; discriminate).
  assert (H : forall x, user_va x -> x < PGSIZE ->
    source_ok user_pt child_pt one_page x /\ has_flag (pte_at 2 (mem one_page) child_pt x) PTE_V = false).
  { intros x [Hx Ha] Hlt. split; [|rewrite Hvc; reflexivity].
    assert (x = 0) as -> by (unfold page_aligned in Ha; unfold PGSIZE in *; clear -Hx Ha Hlt; zlia).
    intros Hc. unfold copied in Hc. rewrite (mapped_one _ _ _ Hmap Hc).
    destruct (Hfr p) as (Hpo & _ & Hr); [apply list_elem_of_singleton; reflexivity|].
    split_and!; [exact Hpo| |].
    + cbn [occ] in Hr. rewrite decide_True in Hr by reflexivity. lia.
    + rewrite Htc. intros Hin%list_elem_of_singleton. apply Hcm. rewrite Hin.
      apply list_elem_of_singleton. reflexivity. }
  apply (uvmcopy_spec user_pt child_pt one_page l Hi Hh Ho Hoc Hdis PGSIZE Hsz) in H.
  pose proof one_page_copy_value as Hval. unfold result in Hval.
  destruct (uvmcopy user_pt child_pt PGSIZE one_page) as [r s'| | |]; try discriminate Hval.
  injection Hval as ->. destruct H as [_ [[_ (l' & ps & ts & H)]|[Hz _]]]; [|discriminate Hz].
  split; [reflexivity|]. eexists _, _, _, _, _. exact H.
Defined.

End Witness.
