(* ===== verification/Sched.v ===== *)
(** * The EEVDF scheduler ([kernel/proc.c], [kernel/trap.c])

    The run-queue statistics, the eligibility test and the choice of the next
    process; [sched], [yield], [sleep] and [wakeup]; the accounting on timer
    interrupts.  The theory shows what the integer arithmetic computes, which
    process the scheduler picks, that it always picks one when it can, and that
    the policy is fair. *)

From S2P Require Import Prelude Riscv Mem State.

#[local] Open Scope Z_scope.

(** ** The code *)

Definition nice_to_weight : list Z :=
  [ 88761; 71755; 56483; 46273; 36291;
    29154; 23254; 18705; 14949; 11916;
     9548;  7620;  6100;  4904;  3906;
     3121;  2501;  1991;  1586;  1277;
     1024;   820;   655;   526;   423;
      335;   272;   215;   172;   137;
      110;    87;    70;    56;    45;
       36;    29;    23;    18;    15 ].

Record eevdf_rq_stats : Type := mkStats {
  v0 : Z;
  sum_weight : Z;
  avg_numer : Z;
  nr : Z
}.

(** Reading [nice_to_weight[nice]]; outside the array C has no meaning. *)
Definition weight_of (nice : Z) : K Z :=
  if decide (0 <= nice) then
    match nice_to_weight !! Z.to_nat nice with
    | Some w => mret w
    | None => stuck "nice_to_weight: index"
    end
  else stuck "nice_to_weight: index".

(** Division of unsigned 64-bit numbers. *)
Definition udiv (a b : Z) : K Z :=
  if b =? 0 then stuck "division by zero" else mret (a `div` b).

Definition eevdf_slice_delta (weight : Z) : K Z :=
  udiv (u64 (u64 (BASE_SLICE * MILLI_TICK) * NICE_20_WEIGHT)) (u64 weight).

Definition eevdf_tick (p : option nat) : K unit :=
  match p with
  | None => mret tt
  | Some i =>
      setp i (fun q => set_p_runtime (u64 (p_runtime q + MILLI_TICK)) q) ;;
      q ← getp i;
      d ← udiv (u64 (MILLI_TICK * NICE_20_WEIGHT)) (u64 (p_weight q));
      setp i (fun q => set_p_vruntime (u64 (p_vruntime q + d)) q) ;;
      when (0 <? p_remain_slice q)
        (setp i (fun q => set_p_remain_slice (p_remain_slice q - 1) q))
  end.

Definition eevdf_refresh_deadline (p : option nat) : K unit :=
  match p with
  | None => mret tt
  | Some i =>
      q ← getp i;
      d ← eevdf_slice_delta (p_weight q);
      setp i (fun q => set_p_vdeadline (u64 (p_vruntime q + d)) q)
  end.

Definition on_rq (p : proc) : bool :=
  match p_state p with
  | RUNNABLE | RUNNING => true
  | _ => false
  end.

(** The loop of [eevdf_find_min_vruntime]; [found], [st->v0] and [st->nr] are
    the values it carries. *)
Definition find_min_step (i : nat) (c : bool * Z * Z) : K (bool * Z * Z) :=
  acquire (L_proc i) ;;
  p ← getp i;
  let '(found, v, n) := c in
  let c' :=
    if on_rq p then
      (true, if negb found || (p_vruntime p <? v) then p_vruntime p else v, i32 (n + 1))
    else c in
  release (L_proc i) ;;
  mret c'.

Definition eevdf_find_min_vruntime (st : eevdf_rq_stats) : K eevdf_rq_stats :=
  c ← kiter all_procs find_min_step (false, 0, 0);
  let '(_, v, n) := c in
  mret (mkStats v (sum_weight st) (avg_numer st) n).

Definition calc_step (v : Z) (i : nat) (c : Z * Z) : K (Z * Z) :=
  acquire (L_proc i) ;;
  p ← getp i;
  let '(sw, an) := c in
  let c' :=
    if on_rq p then
      (u64 (sw + u64 (p_weight p)),
       u64 (an + u64 (u64 (p_vruntime p - v) * u64 (p_weight p))))
    else c in
  release (L_proc i) ;;
  mret c'.

Definition eevdf_calc_rq_stats (st : eevdf_rq_stats) : K eevdf_rq_stats :=
  if nr st =? 0 then mret (mkStats (v0 st) 0 0 (nr st))
  else
    c ← kiter all_procs (calc_step (v0 st)) (0, 0);
    mret (mkStats (v0 st) (fst c) (snd c) (nr st)).

Definition eevdf_collect_rq_stats (st : eevdf_rq_stats) : K eevdf_rq_stats :=
  st' ← eevdf_find_min_vruntime st;
  eevdf_calc_rq_stats st'.

Definition eevdf_is_eligible (p : proc) (st : eevdf_rq_stats) : bool :=
  if (nr st =? 0) || (sum_weight st =? 0) then false
  else if negb (on_rq p) then false
  else if p_vruntime p <? v0 st then false
  else
    let rhs := u64 (u64 (p_vruntime p - v0 st) * sum_weight st) in
    rhs <=? avg_numer st.

(** The body of the loop of [scheduler] that looks for the best process;
    [best] is an index and the lock of that process stays held. *)
Definition pick_step (st : eevdf_rq_stats) (i : nat) (best : option nat) : K (option nat) :=
  acquire (L_proc i) ;;
  p ← getp i;
  match p_state p with
  | RUNNABLE =>
      let e := eevdf_is_eligible p st in
      setp i (set_p_eligible (if e then 1 else 0)) ;;
      if e then
        match best with
        | None => mret (Some i)
        | Some b =>
            pb ← getp b;
            if p_vdeadline p <? p_vdeadline pb then
              release (L_proc b) ;; mret (Some i)
            else
              release (L_proc i) ;; mret best
        end
      else release (L_proc i) ;; mret best
  | _ =>
      setp i (set_p_eligible 0) ;;
      release (L_proc i) ;;
      mret best
  end.

(** One turn of the [for(;;)] of [scheduler].  [intr_on] opens the CPU to
    interrupts between turns and changes no kernel variable. *)
Definition scheduler_round (st0 : eevdf_rq_stats) : K eevdf_rq_stats :=
  st ← eevdf_collect_rq_stats st0;
  best ← kiter all_procs (pick_step st) None;
  match best with
  | None => mret st
  | Some b =>
      setp b (set_p_state RUNNING) ;;
      modify (set_cur (Some b)) ;;
      swtch ;;
      modify (set_cur None) ;;
      release (L_proc b) ;;
      mret st
  end.

(** [scheduler] for [fuel] turns; it never returns in the code. *)
Fixpoint scheduler_loop (fuel : nat) (st : eevdf_rq_stats) : K unit :=
  match fuel with
  | O => mret tt
  | S f => st' ← scheduler_round st; scheduler_loop f st'
  end.

Definition scheduler (fuel : nat) (st : eevdf_rq_stats) : K unit :=
  modify (set_cur None) ;;
  scheduler_loop fuel st.

(** The tests of [sched]; interrupts are off while a lock is held. *)
Definition sched : K unit :=
  i ← curproc;
  h ← holding (L_proc i);
  if negb h then panic "sched p->lock"
  else
    noff ← gets (fun s => length (held s));
    if negb (noff =? 1)%nat then panic "sched locks"
    else
      p ← getp i;
      if bool_decide (p_state p = RUNNING) then panic "sched RUNNING"
      else swtch.

Definition yield : K unit :=
  i ← curproc;
  acquire (L_proc i) ;;
  setp i (set_p_state RUNNABLE) ;;
  sched ;;
  release (L_proc i).

Definition sleep (c : chan) (lk : lock) : K unit :=
  i ← curproc;
  acquire (L_proc i) ;;
  release lk ;;
  setp i (set_p_chan (Some c)) ;;
  setp i (set_p_state SLEEPING) ;;
  sched ;;
  setp i (set_p_chan None) ;;
  release (L_proc i) ;;
  acquire lk.

(** The body of the loop of [wakeup]; [None] is the null channel. *)
Definition wakeup_one (c : option chan) (i : nat) : K unit :=
  me ← myproc;
  if bool_decide (me = Some i) then mret tt
  else
    acquire (L_proc i) ;;
    p ← getp i;
    when (bool_decide (p_state p = SLEEPING /\ p_chan p = c))
      (setp i (set_p_remain_slice BASE_SLICE) ;;
       eevdf_refresh_deadline (Some i) ;;
       setp i (set_p_state RUNNABLE)) ;;
    release (L_proc i).

Definition wakeup (c : option chan) : K unit :=
  kiter all_procs (fun i _ => wakeup_one c i) tt.

(** The timer part of [usertrap] ([which_dev == 2]). *)
Definition user_timer (p : option nat) : K unit :=
  match p with
  | None => mret tt
  | Some i =>
      eevdf_tick (Some i) ;;
      q ← getp i;
      when (p_remain_slice q <=? 0)
        (setp i (set_p_remain_slice BASE_SLICE) ;;
         eevdf_refresh_deadline (Some i) ;;
         yield)
  end.

(** The timer part of [kerneltrap], for the process of this CPU. *)
Definition kernel_timer : K unit :=
  o ← myproc;
  match o with
  | None => mret tt
  | Some i =>
      p ← getp i;
      if bool_decide (p_state p = RUNNING) then user_timer (Some i) else mret tt
  end.

(** [clockintr] on CPU 0. *)
Definition clockintr : K unit :=
  acquire L_ticks ;;
  modify (fun s => set_ticks (u32 (ticks s + 1)) s) ;;
  wakeup (Some C_ticks) ;;
  release L_ticks.

(** ** Scanning the process table *)

Definition table_ok (s : kernel) : Prop := length (procs s) = Z.to_nat NPROC.

(** A loop over the table whose body only looks at the entry. *)
Lemma scan_run {A} (step : nat -> A -> K A) (f : A -> proc -> A) s a :
  (forall i p a, procs s !! i = Some p -> step i a s = Ok (f a p) s) -> table_ok s ->
  kiter all_procs step a s = Ok (foldl f a (procs s)) s.
Proof.
  intros Hstep Hlen. unfold all_procs.
  assert (H : forall n k a, (k + n = length (procs s))%nat ->
    kiter (seq k n) step a s = Ok (foldl f a (drop k (procs s))) s).
  { induction n as [|n IH]; intros k b Hk.
    - rewrite drop_ge by lia. done.
    - destruct (lookup_lt_is_Some_2 (procs s) k) as [p Hp]; [lia|].
      cbn [seq kiter]. rewrite bind_run, (Hstep k p) by done. cbn [obind].
      rewrite IH by lia. by rewrite (drop_S _ p k) by done. }
  rewrite H; [done|]. unfold table_ok in Hlen. lia.
Qed.

(** Looking at an entry under its lock. *)
Lemma locked_read {A} s i p (g : proc -> A) :
  L_proc i ∉ held s -> procs s !! i = Some p ->
  (acquire (L_proc i) ;; q ← getp i; let r := g q in release (L_proc i) ;; mret r) s
    = Ok (g p) s.
Proof.
  intros Hh Hp. rewrite bind_run, acquire_ok by done. cbn [obind].
  rewrite bind_run, (getp_run _ i p) by done. cbn [obind].
  rewrite bind_run, (release_head _ (held s)) by done. by destruct s.
Qed.

(** ** The run queue and its statistics *)

Lemma u64_add_l a b : u64 (u64 a + b) = u64 (a + b).
Proof. apply Zplus_mod_idemp_l. Qed.

Lemma u64_add_r a b : u64 (a + u64 b) = u64 (a + b).
Proof. apply Zplus_mod_idemp_r. Qed.

Definition runq (l : list proc) : list proc := filter (fun p => on_rq p = true) l.

(** Sums over a list of processes. *)
Definition psum (f : proc -> Z) (l : list proc) : Z := foldr (fun p a => f p + a) 0 l.

Lemma psum_cons f p l : psum f (p :: l) = f p + psum f l.
Proof. done. Qed.

Lemma psum_app f l1 l2 : psum f (l1 ++ l2) = psum f l1 + psum f l2.
Proof. induction l1 as [|p l1 IH]; [done|]. cbn [app]. rewrite !psum_cons, IH. lia. Qed.

Lemma psum_bounds f l lo hi :
  (forall p, p ∈ l -> lo <= f p <= hi) -> length l * lo <= psum f l <= length l * hi.
Proof.
  induction l as [|p l IH]; intros H; [done|]. rewrite psum_cons. cbn [length].
  assert (lo <= f p <= hi) by (apply H; set_solver).
  assert (length l * lo <= psum f l <= length l * hi) by (apply IH; set_solver). lia.
Qed.

Lemma psum_ext f g l : (forall p, p ∈ l -> f p = g p) -> psum f l = psum g l.
Proof.
  induction l as [|p l IH]; intros H; [done|]. rewrite !psum_cons, IH, H; [done| |]; set_solver.
Qed.

Lemma psum_scale f c l : psum (fun p => c * f p) l = c * psum f l.
Proof. induction l as [|p l IH]; [cbn; lia|]. rewrite !psum_cons, IH. lia. Qed.

Lemma psum_sub f g l : psum (fun p => f p - g p) l = psum f l - psum g l.
Proof. induction l as [|p l IH]; [done|]. rewrite !psum_cons, IH. lia. Qed.

Definition find_min_pure (c : bool * Z * Z) (p : proc) : bool * Z * Z :=
  let '(found, v, n) := c in
  if on_rq p then
    (true, if negb found || (p_vruntime p <? v) then p_vruntime p else v, i32 (n + 1))
  else c.

Lemma find_min_run s :
  held s = [] -> table_ok s ->
  kiter all_procs find_min_step (false, 0, 0) s
    = Ok (foldl find_min_pure (false, 0, 0) (procs s)) s.
Proof.
  intros Hh Ht. apply scan_run; [|done]. intros i p c Hp. destruct c as [[found v] n].
  apply (locked_read s i p (find_min_pure (found, v, n))); [|done].
  rewrite Hh. apply not_elem_of_nil.
Qed.

Lemma runq_app l1 l2 : runq (l1 ++ l2) = runq l1 ++ runq l2.
Proof. apply filter_app. Qed.

Lemma runq_one p : runq [p] = if on_rq p then [p] else [].
Proof. unfold runq. rewrite filter_cons, filter_nil. by destruct (on_rq p). Qed.

(** [v] is the least virtual run time of [l], and 0 if there is none. *)
Definition is_min_vruntime (l : list proc) (v : Z) : Prop :=
  match l with
  | [] => v = 0
  | _ => Forall (fun p => v <= p_vruntime p) l /\ Exists (fun p => p_vruntime p = v) l
  end.

Lemma find_min_fold l :
  length l < 2^31 ->
  let '(found, v, n) := foldl find_min_pure (false, 0, 0) l in
  found = negb (bool_decide (runq l = [])) /\ n = length (runq l) /\ is_min_vruntime (runq l) v.
Proof.
  induction l as [|p l IH] using rev_ind; intros Hlen; [done|].
  rewrite length_app in Hlen. specialize (IH ltac:(lia)).
  rewrite foldl_app, runq_app, runq_one. cbn [foldl].
  destruct (foldl find_min_pure (false, 0, 0) l) as [[found v] n].
  destruct IH as (Hf & Hn & Hv). unfold find_min_pure.
  destruct (on_rq p); [|by rewrite app_nil_r].
  assert (Hle : (length (runq l) <= length l)%nat) by apply length_filter.
  rewrite bool_decide_eq_false_2 by (by intros [_ ?]%app_nil).
  rewrite length_app, i32_small by (cbn [length] in Hlen; ints; lia).
  split_and!; [done|cbn; lia|].
  destruct (runq l) as [|q k]; cbn [app is_min_vruntime].
  - rewrite Hf. cbn. by split; constructor.
  - rewrite Hf. cbn [negb bool_decide]. destruct Hv as [Hall Hex].
    rewrite bool_decide_eq_false_2 by done. cbn [negb orb].
    destruct (Z.ltb_spec (p_vruntime p) v) as [Hlt|Hge].
    + split.
      * apply (Forall_app _ (q :: k)). split; [|by constructor].
        eapply Forall_impl; [exact Hall|]. cbn. lia.
      * apply (Exists_app _ (q :: k)). right. by constructor.
    + split.
      * apply (Forall_app _ (q :: k)). split; [done|]. by constructor.
      * apply (Exists_app _ (q :: k)). by left.
Qed.

Definition calc_pure (v : Z) (c : Z * Z) (p : proc) : Z * Z :=
  if on_rq p then
    (u64 (fst c + u64 (p_weight p)),
     u64 (snd c + u64 (u64 (p_vruntime p - v) * u64 (p_weight p))))
  else c.

Lemma calc_run s v :
  held s = [] -> table_ok s ->
  kiter all_procs (calc_step v) (0, 0) s = Ok (foldl (calc_pure v) (0, 0) (procs s)) s.
Proof.
  intros Hh Ht. apply scan_run; [|done]. intros i p c Hp. destruct c as [sw an].
  apply (locked_read s i p (calc_pure v (sw, an))); [|done].
  rewrite Hh. apply not_elem_of_nil.
Qed.

Lemma calc_fold v l :
  foldl (calc_pure v) (0, 0) l =
    (u64 (psum (fun p => u64 (p_weight p)) (runq l)),
     u64 (psum (fun p => u64 (p_vruntime p - v) * u64 (p_weight p)) (runq l))).
Proof.
  induction l as [|p l IH] using rev_ind; [done|].
  rewrite foldl_app, runq_app, runq_one. cbn [foldl]. rewrite IH. unfold calc_pure.
  destruct (on_rq p); [|by rewrite app_nil_r]. rewrite !psum_app. cbn [fst snd psum foldr].
  rewrite !Z.add_0_r, !u64_add_l, (u64_add_r _ (_ * _)). done.
Qed.

(** Bounds under which the 64-bit arithmetic is exact: weights from the table
    and virtual run times within 2^40 of each other. *)
Definition rq_bounded (l : list proc) : Prop :=
  (forall p, p ∈ runq l -> 15 <= p_weight p <= 88761 /\ 0 <= p_vruntime p < 2^64) /\
  (forall p q, p ∈ runq l -> q ∈ runq l -> p_vruntime p - p_vruntime q < 2^40).

Definition total_weight (l : list proc) : Z := psum p_weight (runq l).
Definition weighted_sum (l : list proc) : Z :=
  psum (fun p => p_weight p * p_vruntime p) (runq l).

(** What the statistics mean. *)
Definition stats_ok (l : list proc) (st : eevdf_rq_stats) : Prop :=
  nr st = length (runq l) /\ is_min_vruntime (runq l) (v0 st) /\
  sum_weight st = total_weight l /\
  avg_numer st = weighted_sum l - total_weight l * v0 st.

Lemma min_vruntime_elem l v p :
  is_min_vruntime l v -> p ∈ l -> v <= p_vruntime p /\ exists q, q ∈ l /\ p_vruntime q = v.
Proof.
  intros Hm Hp. destruct l as [|a l]; [by apply not_elem_of_nil in Hp|].
  destruct Hm as [Hall Hex]. rewrite Forall_forall in Hall. apply Exists_exists in Hex.
  split; [auto|]. destruct Hex as (q & Hq & E). by exists q.
Qed.

(** The distance of an entry from the minimum, as the code computes it. *)
Lemma spread_exact l v p :
  rq_bounded l -> is_min_vruntime (runq l) v -> p ∈ runq l ->
  u64 (p_vruntime p - v) = p_vruntime p - v /\ 0 <= p_vruntime p - v < 2^40.
Proof.
  intros [Hw Hs] Hm Hp. destruct (min_vruntime_elem _ _ _ Hm Hp) as (Hle & q & Hq & <-).
  specialize (Hs p q Hp Hq). split; [|lia]. apply u64_small. ints. lia.
Qed.

Lemma weighted_spread l v :
  psum (fun p => (p_vruntime p - v) * p_weight p) (runq l)
    = weighted_sum l - total_weight l * v.
Proof.
  unfold weighted_sum, total_weight. induction (runq l) as [|p k IH]; [done|].
  rewrite !psum_cons, IH. lia.
Qed.

Lemma total_weight_range l :
  (length l <= 64)%nat -> rq_bounded l ->
  15 * length (runq l) <= total_weight l <= 64 * 88761.
Proof.
  intros Hlen [Hw _]. unfold total_weight.
  assert (H : length (runq l) * 15 <= psum p_weight (runq l) <= length (runq l) * 88761).
  { apply psum_bounds. intros p Hp. by apply Hw. }
  assert ((length (runq l) <= length l)%nat) by apply length_filter. lia.
Qed.

Lemma spread_sum_range l v :
  (length l <= 64)%nat -> rq_bounded l -> is_min_vruntime (runq l) v ->
  0 <= weighted_sum l - total_weight l * v < 2^64.
Proof.
  intros Hlen Hb Hm. rewrite <- weighted_spread.
  assert (H : length (runq l) * 0 <= psum (fun p => (p_vruntime p - v) * p_weight p) (runq l)
    <= length (runq l) * (2^40 * 88761)).
  { apply psum_bounds. intros p Hp. destruct (spread_exact l v p Hb Hm Hp) as [_ Hs].
    destruct Hb as [Hw _]. destruct (Hw p Hp) as [Hwp _]. nia. }
  assert ((length (runq l) <= length l)%nat) by apply length_filter. lia.
Qed.

Lemma collect_run s st0 :
  table_ok s -> held s = [] -> rq_bounded (procs s) ->
  exists st, eevdf_collect_rq_stats st0 s = Ok st s /\ stats_ok (procs s) st.
Proof.
  intros Ht Hh Hb. assert (Hlen : (length (procs s) <= 64)%nat) by (unfold table_ok, NPROC in Ht; lia).
  unfold eevdf_collect_rq_stats, eevdf_find_min_vruntime.
  pose proof (find_min_fold (procs s) ltac:(lia)) as Hmin.
  rewrite !bind_run, find_min_run by done. cbn [obind].
  destruct (foldl find_min_pure (false, 0, 0) (procs s)) as [[found v] n].
  destruct Hmin as (_ & Hn & Hv). cbn [obind mret K_ret].
  unfold eevdf_calc_rq_stats. cbn [nr]. destruct (Z.eqb_spec n 0) as [Hz|Hnz].
  - assert (Hnil : runq (procs s) = []) by (apply length_zero_iff_nil; lia).
    eexists. split; [done|]. unfold stats_ok, total_weight, weighted_sum.
    rewrite Hnil in *. cbn [v0 nr sum_weight avg_numer]. by split_and!.
  - cbn [v0]. rewrite bind_run, calc_run by done. cbn [obind]. rewrite calc_fold.
    eexists. split; [done|]. cbn [fst snd]. unfold stats_ok. cbn [v0 nr sum_weight avg_numer].
    pose proof (total_weight_range _ Hlen Hb) as Hw.
    pose proof (spread_sum_range _ v Hlen Hb Hv) as Hs.
    split_and!; [done|done| |].
    + rewrite (psum_ext _ p_weight), u64_small; [done|ints; unfold total_weight in Hw; lia|].
      intros p Hp. destruct Hb as [Hb _]. apply u64_small. ints. destruct (Hb p Hp). lia.
    + rewrite (psum_ext _ (fun p => (p_vruntime p - v) * p_weight p)).
      * rewrite weighted_spread. apply u64_small. ints. lia.
      * intros p Hp. destruct (spread_exact _ v p Hb Hv Hp) as [-> _].
        destruct Hb as [Hb _]. rewrite (u64_small (p_weight p)); [done|].
        ints. destruct (Hb p Hp). lia.
Qed.

Lemma elem_of_runq p l : p ∈ runq l <-> p ∈ l /\ on_rq p = true.
Proof. unfold runq. rewrite list_elem_of_filter. tauto. Qed.

Lemma eligible_iff l st p :
  (length l <= 64)%nat -> rq_bounded l -> stats_ok l st -> p ∈ l ->
  eevdf_is_eligible p st = true <->
    on_rq p = true /\ total_weight l * p_vruntime p <= weighted_sum l.
Proof.
  intros Hlen Hb (Hn & Hmin & Hsw & Han) Hp. unfold eevdf_is_eligible.
  destruct (on_rq p) eqn:Hon.
  2: { cbn [negb]. destruct (_ || _); split; try done; by intros [? _]. }
  assert (Hq : p ∈ runq l) by by apply elem_of_runq.
  pose proof (total_weight_range l Hlen Hb) as Hw.
  assert (Hlen' : (1 <= length (runq l))%nat).
  { destruct (runq l); [by apply not_elem_of_nil in Hq|cbn; lia]. }
  destruct (spread_exact l (v0 st) p Hb Hmin Hq) as [Hsp Hr].
  rewrite (proj2 (Z.eqb_neq (nr st) 0)), (proj2 (Z.eqb_neq (sum_weight st) 0)) by lia.
  rewrite (proj2 (Z.ltb_ge _ _)) by lia. cbn [negb orb].
  rewrite Hsp, Hsw, Han, u64_small by (ints; nia).
  rewrite Z.leb_le. split; [intros; split; [done|lia]|intros [_ ?]; lia].
Qed.

(** ** The choice of the next process *)

(** A process the scheduler may pick. *)
Definition cand (st : eevdf_rq_stats) (p : proc) : bool :=
  bool_decide (p_state p = RUNNABLE) && eevdf_is_eligible p st.

(** The loop records the outcome of the test in every entry. *)
Definition mark (st : eevdf_rq_stats) (p : proc) : proc :=
  set_p_eligible (if cand st p then 1 else 0) p.

Definition best_lock (best : option nat) : list lock :=
  match best with None => [] | Some b => [L_proc b] end.

(** [best] is the first of the candidates of [l] with the earliest deadline. *)
Definition is_best (st : eevdf_rq_stats) (l : list proc) (best : option nat) : Prop :=
  match best with
  | None => forall i p, l !! i = Some p -> cand st p = false
  | Some b => exists pb, l !! b = Some pb /\ cand st pb = true /\
      forall i p, l !! i = Some p -> cand st p = true ->
        p_vdeadline pb < p_vdeadline p \/ (p_vdeadline pb = p_vdeadline p /\ (b <= i)%nat)
  end.

Definition better (st : eevdf_rq_stats) (l : list proc) (p : proc) (best : option nat) : bool :=
  cand st p &&
  match best with
  | None => true
  | Some b => match l !! b with
              | Some pb => p_vdeadline p <? p_vdeadline pb
              | None => false
              end
  end.

Lemma release_second lk lk' h s :
  lk <> lk' -> held s = lk :: lk' :: h -> release lk' s = Ok tt (set_held (lk :: h) s).
Proof.
  intros Hne H. unfold release. rewrite decide_True by (rewrite H; set_solver).
  rewrite H. cbn [remove_lock]. by rewrite decide_False, decide_True.
Qed.

Lemma pick_step_run st s i p best :
  procs s !! i = Some p -> held s = best_lock best -> best <> Some i ->
  (forall b, best = Some b -> is_Some (procs s !! b)) ->
  let best' := if better st (procs s) p best then Some i else best in
  pick_step st i best s =
    Ok best' (set_held (best_lock best') (set_procs (<[i := mark st p]> (procs s)) s)).
Proof.
  intros Hp Hh Hne Hb best'. unfold pick_step.
  assert (Hn : L_proc i ∉ held s).
  { rewrite Hh. destruct best as [b|]; [|apply not_elem_of_nil].
    intros [= ->]%list_elem_of_singleton. done. }
  rewrite bind_run, acquire_ok by done. cbn [obind].
  rewrite bind_run, (getp_run _ i p) by done. cbn [obind].
  unfold best', better, cand, mark, cand.
  destruct (p_state p) eqn:Est; cbn [bool_decide andb];
    try (rewrite bind_run, (setp_run _ i _ p) by done; cbn [obind];
         rewrite bind_run, (release_head _ (held s)) by done; cbn [obind]; by rewrite Hh).
  rewrite bind_run, (setp_run _ i _ p) by done. cbn [obind].
  destruct (eevdf_is_eligible p st).
  2: { rewrite bind_run, (release_head _ (held s)) by done. cbn [obind]. by rewrite Hh. }
  destruct best as [b|]; cbn [best_lock] in *; [|by rewrite Hh].
  destruct (Hb b eq_refl) as [pb Hpb].
  assert (Hib : i <> b) by (by intros ->).
  rewrite bind_run, (getp_run _ b pb) by (cbn [procs set_procs set_held]; by rewrite list_lookup_insert_ne).
  cbn [obind]. rewrite Hpb. destruct (p_vdeadline p <? p_vdeadline pb).
  - rewrite bind_run, (release_second (L_proc i) (L_proc b) []) by (by rewrite ?Hh || congruence || (cbn; by rewrite Hh)).
    done.
  - rewrite bind_run, (release_head _ (held s)) by done. cbn [obind]. by rewrite Hh.
Qed.

Lemma is_best_lookup st l b : is_best st l (Some b) -> exists pb, l !! b = Some pb.
Proof. intros (pb & H & _). by exists pb. Qed.

Lemma is_best_snoc st l p best :
  is_best st l best ->
  is_best st (l ++ [p]) (if better st l p best then Some (length l) else best).
Proof.
  intros H. unfold better. destruct (cand st p) eqn:Hc; cbn [andb].
  - destruct best as [b|].
    + destruct H as (pb & Hb & Hcb & Hmin). rewrite Hb.
      destruct (Z.ltb_spec (p_vdeadline p) (p_vdeadline pb)) as [Hlt|Hge].
      * exists p. rewrite list_lookup_middle by done. split_and!; [done|done|].
        intros i q Hq Hcq. apply lookup_snoc_Some in Hq as [[_ Hq]|[-> <-]]; [|right; lia].
        left. destruct (Hmin i q Hq Hcq); lia.
      * exists pb. rewrite lookup_app_l by (by eapply lookup_lt_Some). split_and!; [done|done|].
        intros i q Hq Hcq. apply lookup_snoc_Some in Hq as [[_ Hq]|[-> <-]]; [by apply Hmin|].
        apply lookup_lt_Some in Hb. lia.
    + exists p. rewrite list_lookup_middle by done. split_and!; [done|done|].
      intros i q Hq Hcq. apply lookup_snoc_Some in Hq as [[_ Hq]|[-> <-]]; [|right; lia].
      by rewrite (H i q Hq) in Hcq.
  - destruct best as [b|].
    + destruct H as (pb & Hb & Hcb & Hmin). exists pb.
      rewrite lookup_app_l by (by eapply lookup_lt_Some). split_and!; [done|done|].
      intros i q Hq Hcq. apply lookup_snoc_Some in Hq as [[_ Hq]|[-> <-]]; [by apply Hmin|].
      by rewrite Hc in Hcq.
    + intros i q Hq. apply lookup_snoc_Some in Hq as [[_ Hq]|[-> <-]]; [by apply (H i)|done].
Qed.

(** The table after the loop has passed the first [k] entries. *)
Definition marked (st : eevdf_rq_stats) (k : nat) (l : list proc) : list proc :=
  (mark st <$> take k l) ++ drop k l.

Lemma marked_S st k l p :
  l !! k = Some p -> <[k := mark st p]> (marked st k l) = marked st (S k) l.
Proof.
  intros Hp. unfold marked. assert (Hk : (k < length l)%nat) by by eapply lookup_lt_Some.
  rewrite (take_S_r _ _ p), fmap_app, (drop_S l p k) by done.
  rewrite insert_app_r_alt by (rewrite length_fmap, length_take; lia).
  rewrite length_fmap, length_take, Nat.min_l, Nat.sub_diag by lia.
  cbn. by rewrite <- app_assoc.
Qed.

Lemma marked_lookup st k l i :
  marked st k l !! i = if decide (i < k)%nat then mark st <$> (l !! i) else l !! i.
Proof.
  unfold marked. case_decide as Hi.
  - destruct (l !! i) as [p|] eqn:Hp.
    + rewrite lookup_app_l by (rewrite length_fmap, length_take; apply lookup_lt_Some in Hp; lia).
      by rewrite list_lookup_fmap, lookup_take_lt, Hp.
    + apply lookup_ge_None in Hp. apply lookup_ge_None.
      rewrite length_app, length_fmap, length_take, length_drop. lia.
  - destruct (decide (i < length l)%nat) as [Hl|Hl].
    + rewrite lookup_app_r by (rewrite length_fmap, length_take; lia).
      rewrite length_fmap, length_take, lookup_drop. f_equal. lia.
    + rewrite !(proj2 (lookup_ge_None _ _)); [done|lia|].
      rewrite length_app, length_fmap, length_take, length_drop. lia.
Qed.

Lemma better_marked st k l p best :
  (forall b, best = Some b -> (b < k)%nat) ->
  better st (marked st k l) p best = better st (take k l) p best.
Proof.
  intros Hb. unfold better. destruct best as [b|]; [|done]. specialize (Hb b eq_refl).
  rewrite marked_lookup, decide_True, lookup_take_lt by done. by destruct (l !! b).
Qed.

Lemma pick_loop st s n : forall k best,
  (k + n = length (procs s))%nat -> is_best st (take k (procs s)) best ->
  exists best',
    kiter (seq k n) (pick_step st) best
      (set_held (best_lock best) (set_procs (marked st k (procs s)) s))
    = Ok best' (set_held (best_lock best') (set_procs (mark st <$> procs s) s)) /\
    is_best st (procs s) best'.
Proof.
  induction n as [|n IH]; intros k best Hk Hbest.
  - exists best. unfold marked. rewrite !take_ge, drop_ge, app_nil_r in * by lia. done.
  - destruct (lookup_lt_is_Some_2 (procs s) k) as [p Hp]; [lia|].
    assert (Hlt : forall b, best = Some b -> (b < k)%nat).
    { intros b ->. apply is_best_lookup in Hbest as [pb Hpb].
      apply lookup_lt_Some in Hpb. rewrite length_take in Hpb. lia. }
    cbn [seq kiter]. rewrite bind_run, (pick_step_run st _ k p best); cbn [held set_held procs set_procs].
    + cbn [obind]. rewrite marked_S, better_marked by done.
      set (best' := if better st (take k (procs s)) p best then Some k else best).
      apply (IH (S k) best'); [lia|]. rewrite (take_S_r _ _ p) by done.
      pose proof (is_best_snoc st _ p best Hbest) as H.
      by rewrite length_take, Nat.min_l in H by lia.
    + rewrite marked_lookup, decide_False by lia. done.
    + done.
    + intros ->. specialize (Hlt k eq_refl). lia.
    + intros b ->. specialize (Hlt b eq_refl). rewrite marked_lookup, decide_True by done.
      apply fmap_is_Some, lookup_lt_is_Some. lia.
Qed.

Lemma pick_run st s :
  table_ok s -> held s = [] ->
  exists best, kiter all_procs (pick_step st) None s
    = Ok best (set_held (best_lock best) (set_procs (mark st <$> procs s) s)) /\
    is_best st (procs s) best.
Proof.
  intros Ht Hh. destruct (pick_loop st s (length (procs s)) 0 None) as (best & Hr & Hb);
    [done|by intros i p Hi|].
  exists best. split; [|done]. unfold all_procs. rewrite <- Ht, <- Hr. f_equal.
  unfold marked. cbn. destruct s. cbn in *. by subst.
Qed.

(** ** One turn of the scheduler *)

(** What eligibility means: the process has received no more service than the
    weighted average of the run queue. *)
Definition deserves (l : list proc) (p : proc) : Prop :=
  p_state p = RUNNABLE /\ total_weight l * p_vruntime p <= weighted_sum l.

Lemma cand_iff l st p :
  (length l <= 64)%nat -> rq_bounded l -> stats_ok l st -> p ∈ l ->
  cand st p = true <-> deserves l p.
Proof.
  intros Hlen Hb Hst Hp. unfold cand, deserves. rewrite andb_true_iff, bool_decide_eq_true.
  rewrite (eligible_iff l st p) by done. unfold on_rq.
  split; [tauto|]. intros [Hs Hle]. by rewrite Hs.
Qed.

(** The process [b] is the one to run: it deserves it, and no other that does
    has an earlier deadline, or the same deadline and a lower index. *)
Definition best_choice (l : list proc) (b : nat) (pb : proc) : Prop :=
  l !! b = Some pb /\ deserves l pb /\
  forall i p, l !! i = Some p -> deserves l p ->
    p_vdeadline pb < p_vdeadline p \/ (p_vdeadline pb = p_vdeadline p /\ (b <= i)%nat).

Lemma is_best_choice l st best :
  (length l <= 64)%nat -> rq_bounded l -> stats_ok l st -> is_best st l best ->
  match best with
  | None => forall i p, l !! i = Some p -> ~ deserves l p
  | Some b => exists pb, best_choice l b pb
  end.
Proof.
  intros Hlen Hb Hst H.
  assert (Hc : forall i p, l !! i = Some p -> cand st p = true <-> deserves l p).
  { intros i p Hi. apply cand_iff; try done. by eapply list_elem_of_lookup_2. }
  destruct best as [b|].
  - destruct H as (pb & Hp & Hcb & Hmin). exists pb. split_and!; [done|by apply (Hc b)|].
    intros i p Hi Hd. eapply Hmin; [done|]. by apply (Hc i).
  - intros i p Hi Hd. apply (Hc i p Hi) in Hd. by rewrite (H i p Hi) in Hd.
Qed.

(** The state at the moment [scheduler] switches to process [b]. *)
Definition dispatched (st : eevdf_rq_stats) (b : nat) (s : kernel) : kernel :=
  set_cur (Some b)
    (set_procs (alter (set_p_state RUNNING) b (mark st <$> procs s)) (set_held [L_proc b] s)).

(** The rest of the turn, once the process has switched back. *)
Definition after_switch (st : eevdf_rq_stats) (b : nat) : kernel -> outcome eevdf_rq_stats :=
  fun s => (modify (set_cur None) ;; release (L_proc b) ;; mret st) s.

Lemma scheduler_round_run s st0 :
  table_ok s -> held s = [] -> rq_bounded (procs s) ->
  exists st, stats_ok (procs s) st /\
  ((scheduler_round st0 s = Ok st (set_procs (mark st <$> procs s) s) /\
    forall i p, procs s !! i = Some p -> ~ deserves (procs s) p) \/
   (exists b pb k, scheduler_round st0 s = Swtch (dispatched st b s) k /\
      best_choice (procs s) b pb /\ forall s', k s' = after_switch st b s')).
Proof.
  intros Ht Hh Hb. assert (Hlen : (length (procs s) <= 64)%nat) by (unfold table_ok, NPROC in Ht; lia).
  destruct (collect_run s st0 Ht Hh Hb) as (st & Hrun & Hst). exists st. split; [done|].
  unfold scheduler_round. rewrite bind_run, Hrun. cbn [obind].
  destruct (pick_run st s Ht Hh) as (best & Hp & Hbest). rewrite bind_run, Hp. cbn [obind].
  apply (is_best_choice _ st) in Hbest; try done.
  destruct best as [b|].
  - right. destruct Hbest as (pb & Hc). exists b, pb.
    assert (Hlk : (mark st <$> procs s) !! b = Some (mark st pb)).
    { rewrite list_lookup_fmap. by rewrite (proj1 Hc). }
    rewrite bind_run, (setp_run _ b _ (mark st pb)) by done.
    eexists. split; [|split; [done|]].
    + unfold dispatched. rewrite <- (list_insert_lookup_alter _ _ _ _ Hlk). done.
    + intros s'. done.
  - left. split; [|done]. cbn. destruct s. cbn in *. by subst.
Qed.

(** C3. One turn of [scheduler] on a quiescent process table: it computes the
    weighted average of the run queue without overflow, and switches to the
    runnable process that deserves the CPU and has the earliest virtual
    deadline (the first in the table on a tie), holding exactly that process's
    lock; every other entry changes at most in its [eligible] flag.  If no
    process deserves the CPU it runs none and holds no lock. *)
Theorem scheduler_picks_best s st0 :
  table_ok s -> held s = [] -> rq_bounded (procs s) ->
  match scheduler_round st0 s with
  | Ok _ s' => held s' = [] /\
      forall i p, procs s !! i = Some p -> ~ deserves (procs s) p
  | Swtch s' k => exists b pb, best_choice (procs s) b pb /\
      cur s' = Some b /\ held s' = [L_proc b] /\
      (exists q, procs s' !! b = Some q /\ p_state q = RUNNING) /\
      (forall i p, i <> b -> procs s !! i = Some p ->
         exists e, procs s' !! i = Some (set_p_eligible e p)) /\
      (forall s2, held s2 = [L_proc b] ->
         exists st, k s2 = Ok st (set_held [] (set_cur None s2)))
  | _ => False
  end.
Proof.
  intros Ht Hh Hb.
  destruct (scheduler_round_run s st0 Ht Hh Hb)
    as (st & _ & [[-> Hnone]|(b & pb & k & -> & Hc & Hk)]); [done|].
  exists b, pb. split_and!; try done.
  - exists (set_p_state RUNNING (mark st pb)). cbn [dispatched procs set_cur set_procs].
    rewrite list_lookup_alter_eq, list_lookup_fmap, (proj1 Hc). done.
  - intros i p Hi Hp. eexists. cbn [dispatched procs set_cur set_procs].
    rewrite list_lookup_alter_ne, list_lookup_fmap, Hp by done. done.
  - intros s2 H2. exists st. rewrite Hk. unfold after_switch. kunfold.
    rewrite (release_head _ []) by done. done.
Qed.

Lemma min_deserves l p :
  (length l <= 64)%nat -> rq_bounded l -> p ∈ runq l -> p_state p = RUNNABLE ->
  (forall q, q ∈ runq l -> p_vruntime p <= p_vruntime q) -> deserves l p.
Proof.
  intros Hlen Hb Hp Hs Hmin. split; [done|]. unfold total_weight, weighted_sum.
  assert (H : forall k, (forall q, q ∈ k -> q ∈ runq l) ->
    psum p_weight k * p_vruntime p <= psum (fun q => p_weight q * p_vruntime q) k).
  { induction k as [|q k IH]; intros Hk; [cbn; lia|]. rewrite !psum_cons.
    specialize (IH ltac:(set_solver)). destruct Hb as [Hw _].
    specialize (Hmin q ltac:(set_solver)). destruct (Hw q ltac:(set_solver)). nia. }
  by apply H.
Qed.

Lemma exists_min_vruntime k : k <> [] ->
  exists p, p ∈ k /\ forall q, q ∈ k -> p_vruntime p <= p_vruntime q.
Proof.
  induction k as [|a k IH]; [done|]. intros _. destruct k as [|b k].
  - exists a. split; [set_solver|]. intros q ->%list_elem_of_singleton. lia.
  - destruct IH as (p & Hp & Hmin); [done|].
    destruct (Z.le_gt_cases (p_vruntime a) (p_vruntime p)).
    + exists a. split; [set_solver|]. intros q [->|Hq]%elem_of_cons; [lia|].
      specialize (Hmin q Hq). lia.
    + exists p. split; [set_solver|]. intros q [->|Hq]%elem_of_cons; [lia|auto].
Qed.

(** C35. The scheduler does not idle when no CPU runs anything: if some process is
    runnable, none is running, and the virtual run times of the run queue are within
    2^40 of each other, the turn switches to a process. *)
Theorem scheduler_work_conserving s st0 i p :
  table_ok s -> held s = [] -> rq_bounded (procs s) ->
  procs s !! i = Some p -> p_state p = RUNNABLE ->
  (forall j q, procs s !! j = Some q -> p_state q <> RUNNING) ->
  exists s' k b, scheduler_round st0 s = Swtch s' k /\ cur s' = Some b.
Proof.
  intros Ht Hh Hb Hi Hp Hnr.
  assert (Hlen : (length (procs s) <= 64)%nat) by (unfold table_ok, NPROC in Ht; lia).
  destruct (scheduler_round_run s st0 Ht Hh Hb)
    as (st & _ & [[_ Hnone]|(b & pb & k & -> & _ & _)]).
  2: { by exists (dispatched st b s), k, b. }
  exfalso. destruct (exists_min_vruntime (runq (procs s))) as (q & Hq & Hmin).
  { intros Hnil. apply (not_elem_of_nil p). rewrite <- Hnil. apply elem_of_runq.
    split; [by eapply list_elem_of_lookup_2|]. unfold on_rq. by rewrite Hp. }
  pose proof (proj1 (elem_of_runq q _) Hq) as [Hql Hon].
  apply list_elem_of_lookup in Hql as [j Hj]. apply (Hnone j q Hj).
  apply min_deserves; try done.
  specialize (Hnr j q Hj). unfold on_rq in Hon. by destruct (p_state q).
Qed.

(** ** Accounting *)

(** Virtual time of one tick and of a slice for a weight. *)
Definition tick_delta (w : Z) : Z := 1024000 `div` w.
Definition slice_delta (w : Z) : Z := 5120000 `div` w.

Definition ticked (p : proc) : proc :=
  set_p_remain_slice (if 0 <? p_remain_slice p then p_remain_slice p - 1 else p_remain_slice p)
    (set_p_vruntime (u64 (p_vruntime p + tick_delta (p_weight p)))
      (set_p_runtime (u64 (p_runtime p + MILLI_TICK)) p)).

Definition refreshed (p : proc) : proc :=
  set_p_vdeadline (u64 (p_vruntime p + slice_delta (p_weight p))) p.

Definition weight_ok (p : proc) : Prop := 0 < p_weight p < 2^31.

Lemma weight_u64 p : weight_ok p -> u64 (p_weight p) = p_weight p /\ p_weight p <> 0.
Proof. intros H. split; [|unfold weight_ok in H; lia]. apply u64_small. unfold weight_ok in H. ints. lia. Qed.

Lemma eevdf_tick_run s i p :
  procs s !! i = Some p -> weight_ok p ->
  eevdf_tick (Some i) s = Ok tt (set_procs (<[i := ticked p]> (procs s)) s).
Proof.
  intros Hp Hw. destruct (weight_u64 p Hw) as [Hu Hz].
  assert (Hi : (i < length (procs s))%nat) by by eapply lookup_lt_Some.
  unfold eevdf_tick. kstep (setp_run s i _ p Hp). kstep (getp_ins s i _ _ Hi).
  cbn [p_weight set_p_runtime]. unfold udiv. rewrite Hu, (proj2 (Z.eqb_neq _ 0)) by done.
  rewrite bind_run. cbn [obind mret K_ret]. kstep (setp_ins s i _ _ _ Hi).
  unfold ticked. cbn [p_remain_slice set_p_runtime]. destruct (0 <? p_remain_slice p); cbn [when].
  - by rewrite setp_ins.
  - by destruct p.
Qed.

Lemma eevdf_refresh_run s i p :
  procs s !! i = Some p -> weight_ok p ->
  eevdf_refresh_deadline (Some i) s = Ok tt (set_procs (<[i := refreshed p]> (procs s)) s).
Proof.
  intros Hp Hw. destruct (weight_u64 p Hw) as [Hu Hz].
  unfold eevdf_refresh_deadline. kstep (getp_run s i p Hp).
  unfold eevdf_slice_delta, udiv. rewrite Hu, (proj2 (Z.eqb_neq _ 0)) by done.
  rewrite bind_run. cbn [obind mret K_ret]. by rewrite (setp_run s i _ p Hp).
Qed.

Lemma eevdf_refresh_ins s i q l :
  (i < length l)%nat -> weight_ok q ->
  eevdf_refresh_deadline (Some i) (set_procs (<[i := q]> l) s)
    = Ok tt (set_procs (<[i := refreshed q]> l) s).
Proof.
  intros Hi Hw. rewrite (eevdf_refresh_run _ i q); [|cbn; by apply list_lookup_insert_eq|done].
  cbn [procs set_procs]. by rewrite list_insert_insert_eq.
Qed.

(** [sched] gives the CPU away when its conditions hold. *)
Lemma sched_run s i p :
  cur s = Some i -> held s = [L_proc i] -> procs s !! i = Some p -> p_state p <> RUNNING ->
  sched s = Swtch s (fun s' => Ok tt s').
Proof.
  intros Hc Hh Hp Hs. unfold sched. kstep (curproc_run s i Hc).
  rewrite bind_run. change (holding (L_proc i) s) with (Ok (bool_decide (L_proc i ∈ held s)) s).
  cbn [obind]. rewrite bool_decide_eq_true_2 by (rewrite Hh; set_solver). cbn [negb].
  rewrite bind_run. change (gets (fun s => length (held s)) s) with (Ok (length (held s)) s).
  cbn [obind]. rewrite Hh. cbn [length Nat.eqb negb]. kstep (getp_run s i p Hp).
  by rewrite bool_decide_eq_false_2.
Qed.

(** The end of a slice. *)
Definition expired (p : proc) : proc :=
  set_p_state RUNNABLE (refreshed (set_p_remain_slice BASE_SLICE p)).

Lemma yield_run s i q l :
  (i < length l)%nat -> cur s = Some i -> held s = [] ->
  exists k, yield (set_procs (<[i := q]> l) s)
    = Swtch (set_held [L_proc i] (set_procs (<[i := set_p_state RUNNABLE q]> l) s)) k /\
    forall s', k s' = release (L_proc i) s'.
Proof.
  intros Hi Hc Hh. unfold yield. kstep (curproc_run (set_procs (<[i := q]> l) s) i Hc).
  kstep (acquire_ok (L_proc i) (set_procs (<[i := q]> l) s) ltac:(cbn; rewrite Hh; apply not_elem_of_nil)).
  change (set_held (L_proc i :: held (set_procs (<[i := q]> l) s)) (set_procs (<[i := q]> l) s))
    with (set_procs (<[i := q]> l) (set_held (L_proc i :: held s) s)).
  kstep (setp_ins (set_held (L_proc i :: held s) s) i q l (set_p_state RUNNABLE) Hi).
  rewrite bind_run, (sched_run _ i (set_p_state RUNNABLE q)).
  - eexists. split; [by rewrite Hh|]. done.
  - done.
  - cbn. by rewrite Hh.
  - cbn. by apply list_lookup_insert_eq.
  - done.
Qed.

Lemma user_timer_tick s i p :
  procs s !! i = Some p -> weight_ok p -> 1 < p_remain_slice p ->
  user_timer (Some i) s = Ok tt (set_procs (<[i := ticked p]> (procs s)) s).
Proof.
  intros Hp Hw Hr. assert (Hi : (i < length (procs s))%nat) by by eapply lookup_lt_Some.
  unfold user_timer. kstep (eevdf_tick_run s i p Hp Hw). kstep (getp_ins s i (ticked p) _ Hi).
  cbn [ticked p_remain_slice set_p_remain_slice set_p_vruntime set_p_runtime].
  rewrite (proj2 (Z.ltb_lt _ _)) by lia. by rewrite (proj2 (Z.leb_gt _ _)) by lia.
Qed.

Lemma user_timer_expire s i p :
  procs s !! i = Some p -> weight_ok p -> p_remain_slice p <= 1 ->
  cur s = Some i -> held s = [] ->
  exists k, user_timer (Some i) s =
    Swtch (set_held [L_proc i] (set_procs (<[i := expired (ticked p)]> (procs s)) s)) k /\
    forall s', k s' = release (L_proc i) s'.
Proof.
  intros Hp Hw Hr Hc Hh. assert (Hi : (i < length (procs s))%nat) by by eapply lookup_lt_Some.
  unfold user_timer. kstep (eevdf_tick_run s i p Hp Hw). kstep (getp_ins s i (ticked p) _ Hi).
  assert (Hle : p_remain_slice (ticked p) <= 0).
  { cbn. destruct (Z.ltb_spec 0 (p_remain_slice p)); lia. }
  rewrite (proj2 (Z.leb_le _ _)) by done. cbn [when].
  kstep (setp_ins s i (ticked p) _ (set_p_remain_slice BASE_SLICE) Hi).
  kstep (eevdf_refresh_ins s i (set_p_remain_slice BASE_SLICE (ticked p)) _ Hi Hw).
  apply (yield_run s i _ _ Hi Hc Hh).
Qed.

(** A process that only computes: it runs, one timer interrupt after the other,
    until it gives the CPU away. *)
Fixpoint run_until_switch (fuel : nat) (i : nat) (s : kernel) : option kernel :=
  match fuel with
  | O => None
  | S f =>
      match user_timer (Some i) s with
      | Ok _ s' => run_until_switch f i s'
      | Swtch s' _ => Some s'
      | _ => None
      end
  end.

(** [ticked] [n] times. *)
Definition ticks_of (n : nat) (p : proc) : proc := Nat.iter n ticked p.

Lemma ticks_of_S n p : ticks_of (S n) p = ticks_of n (ticked p).
Proof. unfold ticks_of. symmetry. apply Nat.iter_swap. Qed.

Lemma run_slice n : forall s i p,
  procs s !! i = Some p -> weight_ok p -> p_remain_slice p = S n ->
  cur s = Some i -> held s = [] ->
  run_until_switch (S n) i s =
    Some (set_held [L_proc i] (set_procs (<[i := expired (ticks_of (S n) p)]> (procs s)) s)).
Proof.
  induction n as [|n IH]; intros s i p Hp Hw Hr Hc Hh; cbn [run_until_switch].
  - destruct (user_timer_expire s i p Hp Hw ltac:(lia) Hc Hh) as (k & -> & _). done.
  - rewrite (user_timer_tick s i p Hp Hw) by lia.
    assert (Hi : (i < length (procs s))%nat) by by eapply lookup_lt_Some.
    specialize (IH (set_procs (<[i := ticked p]> (procs s)) s) i (ticked p)).
    cbn [run_until_switch] in IH. rewrite IH; cbn [procs set_procs cur held].
    + rewrite list_insert_insert_eq, <- ticks_of_S. done.
    + by apply list_lookup_insert_eq.
    + done.
    + cbn. rewrite (proj2 (Z.ltb_lt _ _)) by lia. lia.
    + done.
    + done.
Qed.

(** ** Fairness of the policy on one CPU *)

(** One turn of [scheduler] when the chosen process only computes: the switch,
    the release of the process's lock on the other side, the timer interrupts
    of its slice, and the switch back. *)
Definition cpu_turn (c : eevdf_rq_stats * kernel) : option (eevdf_rq_stats * kernel) :=
  match scheduler_round (fst c) (snd c) with
  | Swtch s1 k =>
      match cur s1 with
      | Some b =>
          match release (L_proc b) s1 with
          | Ok _ s2 =>
              s3 ← run_until_switch (Z.to_nat BASE_SLICE) b s2;
              match k s3 with
              | Ok st s4 => Some (st, s4)
              | _ => None
              end
          | _ => None
          end
      | None => None
      end
  | _ => None
  end.

Fixpoint cpu_turns (n : nat) (c : eevdf_rq_stats * kernel) : option (eevdf_rq_stats * kernel) :=
  match n with
  | O => Some c
  | S n' => c' ← cpu_turn c; cpu_turns n' c'
  end.

(** The process that the turn switches to. *)
Definition chosen (c : eevdf_rq_stats * kernel) : option nat :=
  match scheduler_round (fst c) (snd c) with Swtch s1 _ => cur s1 | _ => None end.

(** The slots of the processes that get the CPU in [n] turns, for a slice each; the
    service of slot [i] is the number of its slices. *)
Fixpoint slices (n : nat) (c : eevdf_rq_stats * kernel) : list nat :=
  match n with
  | O => []
  | S n' => option_list (chosen c) ++ match cpu_turn c with Some c' => slices n' c' | None => [] end
  end.

Definition service (n : nat) (c : eevdf_rq_stats * kernel) (i : nat) : nat :=
  length (filter (fun b => b = i) (slices n c)).

(** The entry of the chosen process after its slice. *)
Definition sliced (st : eevdf_rq_stats) (p : proc) : proc :=
  expired (ticks_of 5 (set_p_state RUNNING (mark st p))).

Lemma cpu_turn_run c :
  let s := snd c in
  table_ok s -> held s = [] -> cur s = None -> rq_bounded (procs s) ->
  (forall p, p ∈ runq (procs s) -> p_state p = RUNNABLE /\ p_remain_slice p = BASE_SLICE) ->
  runq (procs s) <> [] ->
  exists st b pb, best_choice (procs s) b pb /\ chosen c = Some b /\
    cpu_turn c = Some (st, set_procs (<[b := sliced st pb]> (mark st <$> procs s)) s).
Proof.
  intros s Ht Hh Hc Hb Hrun Hne.
  assert (Hlen : (length (procs s) <= 64)%nat) by (unfold table_ok, NPROC in Ht; lia).
  destruct (scheduler_round_run s (fst c) Ht Hh Hb)
    as (st & _ & [[_ Hnone]|(b & pb & k & Hr & Hbest & Hk)]).
  { exfalso. destruct (exists_min_vruntime _ Hne) as (q & Hq & Hmin).
    pose proof (proj1 (elem_of_runq q _) Hq) as [Hql _].
    apply list_elem_of_lookup in Hql as [j Hj]. apply (Hnone j q Hj).
    apply min_deserves; try done. by apply Hrun. }
  exists st, b, pb. split; [done|]. unfold chosen, cpu_turn. fold s. rewrite Hr. split; [done|].
  cbn [dispatched cur set_cur]. rewrite (release_head _ []) by done.
  destruct Hbest as (Hpb & [Hst _] & _).
  assert (Hq : pb ∈ runq (procs s)).
  { apply elem_of_runq. split; [by eapply list_elem_of_lookup_2|]. unfold on_rq. by rewrite Hst. }
  assert (Hlk : (mark st <$> procs s) !! b = Some (mark st pb))
    by (rewrite list_lookup_fmap; by rewrite Hpb).
  assert (Hbl : (b < length (mark st <$> procs s))%nat) by by eapply lookup_lt_Some.
  change (Z.to_nat BASE_SLICE) with 5%nat.
  rewrite (run_slice 4 _ b (set_p_state RUNNING (mark st pb))); cbn [procs set_procs set_cur set_held].
  - cbn [mbind option_bind]. rewrite Hk. unfold after_switch. kunfold.
    rewrite (release_head _ []) by done. cbn [obind]. do 2 f_equal.
    unfold dispatched. cbn [procs set_procs set_cur set_held].
    rewrite <- (list_insert_lookup_alter _ _ _ _ Hlk), list_insert_insert_eq.
    unfold sliced. clear -Hh Hc. destruct s. cbn in *. by subst.
  - unfold dispatched. cbn [procs set_procs set_cur]. by rewrite list_lookup_alter_eq, Hlk.
  - destruct Hb as [Hw _]. destruct (Hw pb Hq) as [? _]. unfold weight_ok. cbn. lia.
  - destruct (Hrun pb Hq) as [_ Hr5]. exact Hr5.
  - done.
  - done.
Qed.

Lemma runq_psum f l : psum f (runq l) = psum (fun p => if on_rq p then f p else 0) l.
Proof.
  induction l as [|p l IH]; [done|]. unfold runq in *. rewrite filter_cons, psum_cons.
  destruct (on_rq p); [rewrite decide_True by done|rewrite decide_False by done];
    rewrite ?psum_cons, IH; lia.
Qed.

Lemma psum_insert f l i p q :
  l !! i = Some p -> psum f (<[i := q]> l) = psum f l - f p + f q.
Proof.
  revert i. induction l as [|a l IH]; intros [|i] H; try done; cbn in H.
  - injection H as ->. cbn [insert list_insert]. rewrite !psum_cons. lia.
  - change (<[S i := q]> (a :: l)) with (a :: <[i := q]> l).
    rewrite !psum_cons, (IH i H). lia.
Qed.

Lemma psum_fmap f (h : proc -> proc) l : psum f (h <$> l) = psum (fun p => f (h p)) l.
Proof. induction l as [|a l IH]; [done|]. cbn [fmap list_fmap]. by rewrite !psum_cons, <- IH. Qed.

(** What a run of ticks does to the fields that matter. *)
Lemma ticks_of_fields n p :
  p_weight (ticks_of n p) = p_weight p /\ p_state (ticks_of n p) = p_state p /\
  p_vruntime (ticks_of n p) = if decide (n = 0%nat) then p_vruntime p
                              else u64 (p_vruntime p + n * tick_delta (p_weight p)).
Proof.
  induction n as [|n (Hw & Hs & Hv)]; [done|].
  change (ticks_of (S n) p) with (ticked (ticks_of n p)).
  unfold ticked. cbn [p_weight p_state p_vruntime set_p_remain_slice set_p_vruntime set_p_runtime].
  split_and!; [done|done|]. rewrite decide_False by done. rewrite Hw, Hv. case_decide.
  - subst. f_equal. lia.
  - rewrite u64_add_l. f_equal. lia.
Qed.

Lemma sliced_fields st p :
  0 <= p_vruntime p -> p_vruntime p + 5 * tick_delta (p_weight p) < 2^64 -> 15 <= p_weight p ->
  p_weight (sliced st p) = p_weight p /\ p_state (sliced st p) = RUNNABLE /\
  p_remain_slice (sliced st p) = BASE_SLICE /\
  p_vruntime (sliced st p) = p_vruntime p + 5 * tick_delta (p_weight p).
Proof.
  intros H0 Hv Hw. unfold sliced.
  pose proof (ticks_of_fields 5 (set_p_state RUNNING (mark st p))) as H. revert H.
  generalize (ticks_of 5 (set_p_state RUNNING (mark st p))). intros q (Hqw & _ & Hqv).
  rewrite decide_False in Hqv by done.
  change (p_weight (expired q)) with (p_weight q). change (p_vruntime (expired q)) with (p_vruntime q).
  split_and!; [exact Hqw|reflexivity|reflexivity|]. rewrite Hqv. apply u64_small.
  assert (0 <= tick_delta (p_weight p)) by (apply Z.div_pos; lia). ints. cbn in *. lia.
Qed.

(** Each process is at most one slice ahead of the average. *)
Definition lag_ok (l : list proc) : Prop :=
  forall p, p ∈ runq l ->
    total_weight l * p_vruntime p <=
      weighted_sum l + total_weight l * (5 * tick_delta (p_weight p)).

Record fair_state (B : Z) (s : kernel) : Prop := {
  fa_table : table_ok s;
  fa_held : held s = [];
  fa_cur : cur s = None;
  fa_some : runq (procs s) <> [];
  fa_proc : forall p, p ∈ runq (procs s) ->
    p_state p = RUNNABLE /\ p_remain_slice p = BASE_SLICE /\
    15 <= p_weight p <= 88761 /\ 0 <= p_vruntime p <= B;
  fa_lag : lag_ok (procs s)
}.

Lemma psum_elem_lower f U l q :
  psum f l = 0 -> (forall p, p ∈ l -> f p <= U) -> q ∈ l -> - ((length l - 1) * U) <= f q.
Proof.
  intros Hs HU Hq. apply list_elem_of_split in Hq as (l1 & l2 & ->).
  rewrite psum_app, psum_cons in Hs.
  assert (Hup : forall k, (forall p, p ∈ k -> p ∈ l1 ++ q :: l2) -> psum f k <= length k * U).
  { induction k as [|a k IH]; intros Hk; [cbn; lia|]. rewrite psum_cons. cbn [length].
    specialize (HU a ltac:(apply Hk; set_solver)). specialize (IH ltac:(set_solver)). lia. }
  pose proof (Hup l1 ltac:(set_solver)). pose proof (Hup l2 ltac:(set_solver)).
  rewrite length_app. cbn [length]. lia.
Qed.

Lemma tick_delta_bounds w : 15 <= w -> 0 <= tick_delta w <= 68266 /\ w * tick_delta w <= 1024000.
Proof.
  intros. unfold tick_delta. split; [split|].
  - apply Z.div_pos; lia.
  - change 68266 with (1024000 `div` 15). apply Z.div_le_compat_l; lia.
  - apply Z.mul_div_le. lia.
Qed.

(** The lags of the run queue cancel out. *)
Lemma lag_sum_zero l :
  psum (fun p => p_weight p * (total_weight l * p_vruntime p - weighted_sum l)) (runq l) = 0.
Proof.
  rewrite (psum_ext _ (fun p => total_weight l * (p_weight p * p_vruntime p) - weighted_sum l * p_weight p))
    by (intros; lia).
  rewrite psum_sub, !psum_scale. unfold total_weight, weighted_sum. lia.
Qed.

Lemma total_weight_nonneg l :
  (forall q, q ∈ runq l -> 15 <= p_weight q) -> 15 * length (runq l) <= total_weight l.
Proof.
  unfold total_weight. induction (runq l) as [|a k IH]; intros Hk; [done|].
  rewrite psum_cons. specialize (IH ltac:(set_solver)). specialize (Hk a ltac:(set_solver)).
  cbn [length]. lia.
Qed.

(** Hence each process is at most a slice per other process behind. *)
Lemma lag_lower l p :
  (forall q, q ∈ runq l -> 15 <= p_weight q) -> lag_ok l -> p ∈ runq l ->
  p_weight p * (weighted_sum l - total_weight l * p_vruntime p)
    <= (length (runq l) - 1) * (total_weight l * 5120000).
Proof.
  intros Hw Hlag Hp.
  pose proof (total_weight_nonneg l Hw) as HW.
  pose proof (psum_elem_lower _ (total_weight l * 5120000) _ p (lag_sum_zero l)) as H.
  cbv beta in H. specialize (H ltac:(
    intros q Hq; specialize (Hlag q Hq); specialize (Hw q Hq);
    destruct (tick_delta_bounds _ Hw) as [? ?]; nia) Hp). lia.
Qed.

Lemma fair_bounded B s : fair_state B s -> B < 2^64 -> rq_bounded (procs s).
Proof.
  intros [Ht _ _ _ Hp Hlag] HB. split.
  - intros p Hin. destruct (Hp p Hin) as (_ & _ & ? & ?). lia.
  - intros p q Hpin Hqin.
    assert (Hw : forall x, x ∈ runq (procs s) -> 15 <= p_weight x) by (intros x Hx; by apply Hp).
    pose proof (total_weight_nonneg _ Hw) as HW.
    assert (Hne : (1 <= length (runq (procs s)) <= 64)%nat).
    { split; [destruct (runq (procs s)); [by apply not_elem_of_nil in Hpin|cbn; lia]|].
      assert ((length (runq (procs s)) <= length (procs s))%nat) by apply length_filter.
      unfold table_ok, NPROC in Ht. lia. }
    pose proof (lag_lower _ q Hw Hlag Hqin) as Hlow. specialize (Hlag p Hpin).
    destruct (tick_delta_bounds _ (Hw p Hpin)) as [Hd _]. specialize (Hw q Hqin).
    set (W := total_weight (procs s)) in *. set (S := weighted_sum (procs s)) in *.
    set (n := length (runq (procs s))) in *. clearbody W S n. clear -Hne HW Hlow Hlag Hd Hw.
    assert (H1 : (n - 1) * (W * 5120000) <= 63 * (W * 5120000)) by nia.
    assert (H2 : 15 * (S - W * p_vruntime q) <= 63 * (W * 5120000)) by nia.
    assert (H3 : 15 * (W * p_vruntime p) <= 15 * S + 15 * (W * 341330)) by nia.
    nia.
Qed.

Lemma sums_after_slice st l b pb :
  l !! b = Some pb -> on_rq pb = true -> 0 <= p_vruntime pb ->
  p_vruntime pb + 5 * tick_delta (p_weight pb) < 2^64 -> 15 <= p_weight pb ->
  let l' := <[b := sliced st pb]> (mark st <$> l) in
  total_weight l' = total_weight l /\
  weighted_sum l' = weighted_sum l + p_weight pb * (5 * tick_delta (p_weight pb)).
Proof.
  intros Hb Hon H0 Hv Hw l'.
  destruct (sliced_fields st pb H0 Hv Hw) as (Ew & Es & _ & Ev).
  assert (Hlk : (mark st <$> l) !! b = Some (mark st pb)) by (rewrite list_lookup_fmap; by rewrite Hb).
  assert (Hon' : on_rq (sliced st pb) = true) by (unfold on_rq; by rewrite Es).
  unfold total_weight, weighted_sum, l'.
  rewrite !runq_psum, !(psum_insert _ _ _ _ _ Hlk), !psum_fmap.
  rewrite Hon', Ew, Ev. change (on_rq (mark st pb)) with (on_rq pb). rewrite Hon.
  cbn [p_weight p_vruntime mark set_p_eligible].
  change (psum (fun p => if on_rq (mark st p) then p_weight p else 0) l)
    with (psum (fun p => if on_rq p then p_weight p else 0) l).
  change (psum (fun p => if on_rq (mark st p) then p_weight p * p_vruntime p else 0) l)
    with (psum (fun p => if on_rq p then p_weight p * p_vruntime p else 0) l).
  split; lia.
Qed.

Lemma elem_after_slice st l b pb p' :
  p' ∈ runq (<[b := sliced st pb]> (mark st <$> l)) ->
  p' = sliced st pb \/ exists p, p ∈ runq l /\ p' = mark st p.
Proof.
  intros [Hin Hon]%elem_of_runq. apply list_elem_of_lookup in Hin as [i Hi].
  destruct (decide (i = b)) as [->|Hne].
  - left. apply list_lookup_insert_Some in Hi as [(_ & -> & _)|(? & _)]; [done|congruence].
  - right. rewrite list_lookup_insert_ne in Hi by done.
    rewrite list_lookup_fmap in Hi. destruct (l !! i) as [p|] eqn:E; [|done].
    injection Hi as <-. exists p. split; [|done]. apply elem_of_runq.
    split; [by eapply list_elem_of_lookup_2|done].
Qed.

Lemma runq_length l : Z.of_nat (length (runq l)) = psum (fun _ => 1) (runq l).
Proof. induction (runq l) as [|p k IH]; [done|]. rewrite psum_cons. cbn [length]. lia. Qed.

Lemma length_after_slice st l b pb :
  l !! b = Some pb -> on_rq pb = true -> p_state (sliced st pb) = RUNNABLE ->
  length (runq (<[b := sliced st pb]> (mark st <$> l))) = length (runq l).
Proof.
  intros Hb Hon Hs. apply Nat2Z.inj. rewrite !runq_length, !runq_psum.
  rewrite (psum_insert _ _ _ (mark st pb)) by (rewrite list_lookup_fmap; by rewrite Hb).
  rewrite psum_fmap. replace (on_rq (sliced st pb)) with true by (unfold on_rq; by rewrite Hs).
  change (on_rq (mark st pb)) with (on_rq pb). rewrite Hon.
  change (psum (fun p => if on_rq (mark st p) then 1 else 0) l)
    with (psum (fun p => if on_rq p then 1 else 0) l). lia.
Qed.

(** The virtual time between the table entries [l] and [l']: every process of the
    run queue has paid for the slices [k] it got, and nothing else. *)
Definition paid (k : nat -> nat) (l l' : list proc) : Prop :=
  forall i p, l !! i = Some p -> on_rq p = true ->
    exists p', l' !! i = Some p' /\ on_rq p' = true /\ p_weight p' = p_weight p /\
      p_vruntime p' = p_vruntime p + k i * (5 * tick_delta (p_weight p)).

Lemma paid_slice st l b pb :
  l !! b = Some pb -> 0 <= p_vruntime pb ->
  p_vruntime pb + 5 * tick_delta (p_weight pb) < 2^64 -> 15 <= p_weight pb ->
  paid (fun i => if decide (b = i) then 1%nat else 0%nat) l (<[b := sliced st pb]> (mark st <$> l)).
Proof.
  intros Hb H0 Hv Hw i p Hi Hon. destruct (sliced_fields st pb H0 Hv Hw) as (Ew & Es & _ & Ev).
  destruct (decide (b = i)) as [->|Hne].
  - rewrite Hb in Hi. injection Hi as ->. exists (sliced st p).
    split; [apply list_lookup_insert_eq; rewrite length_fmap; by eapply lookup_lt_Some|].
    split; [unfold on_rq; by rewrite Es|]. split; [exact Ew|]. rewrite Ev. lia.
  - exists (mark st p). rewrite list_lookup_insert_ne, list_lookup_fmap, Hi by done.
    split; [done|]. split; [done|]. split; [done|]. cbn [mark p_vruntime set_p_eligible]. lia.
Qed.

Lemma paid_trans k1 k2 l1 l2 l3 :
  paid k1 l1 l2 -> paid k2 l2 l3 -> paid (fun i => (k1 i + k2 i)%nat) l1 l3.
Proof.
  intros H1 H2 i p Hi Hon. destruct (H1 i p Hi Hon) as (p2 & Hi2 & Hon2 & W2 & V2).
  destruct (H2 i p2 Hi2 Hon2) as (p3 & Hi3 & Hon3 & W3 & V3). exists p3.
  split; [done|]. split; [done|]. split; [congruence|]. rewrite V3, V2, W2. lia.
Qed.

Lemma fair_step B c :
  fair_state B (snd c) -> B + 341330 < 2^64 ->
  exists c' b, cpu_turn c = Some c' /\ chosen c = Some b /\ fair_state (B + 341330) (snd c') /\
    length (runq (procs (snd c'))) = length (runq (procs (snd c))) /\
    total_weight (procs (snd c')) = total_weight (procs (snd c)) /\
    paid (fun i => if decide (b = i) then 1%nat else 0%nat) (procs (snd c)) (procs (snd c')).
Proof.
  intros Hf HB. pose proof (fair_bounded B _ Hf ltac:(lia)) as Hb.
  destruct Hf as [Ht Hh Hc Hne Hp Hlag].
  destruct (cpu_turn_run c Ht Hh Hc Hb) as (st & b & pb & Hbest & Hch & Hr);
    [intros p Hin; by destruct (Hp p Hin) as (? & ? & _)|done|].
  set (s := snd c) in *. set (l := procs s) in *.
  destruct Hbest as (Hpb & [Hst Hdes] & _).
  assert (Hon : on_rq pb = true) by (unfold on_rq; by rewrite Hst).
  assert (Hin : pb ∈ runq l) by (apply elem_of_runq; split; [by eapply list_elem_of_lookup_2|done]).
  destruct (Hp pb Hin) as (_ & _ & Hw & Hv).
  destruct (tick_delta_bounds (p_weight pb) ltac:(lia)) as [Hd _].
  destruct (sums_after_slice st l b pb Hpb Hon) as [HW HS]; [lia|lia|lia|].
  destruct (sliced_fields st pb) as (Ew & Es & Er & Ev); [lia|lia|lia|].
  pose proof (length_after_slice st l b pb Hpb Hon Es) as Hlen.
  eexists _, b. split; [exact Hr|]. split; [exact Hch|]. cbn [snd]. set (l' := <[b := sliced st pb]> (mark st <$> l)) in *.
  split_and!; [|exact Hlen|exact HW|by apply paid_slice; try done; lia]. split; cbn [procs set_procs held cur]; try done.
  - unfold table_ok in *. cbn [procs set_procs]. unfold l'. by rewrite length_insert, length_fmap.
  - intros Hnil. apply Hne. apply length_zero_iff_nil. rewrite Hnil in Hlen. cbn in Hlen. lia.
  - intros p' [->|(p & Hpin & ->)]%elem_after_slice.
    + rewrite Es, Er, Ew, Ev. split_and!; try done; lia.
    + destruct (Hp p Hpin) as (? & ? & ? & ?). cbn. split_and!; try done; lia.
  - intros p' Hp'. rewrite HW, HS.
    assert (0 <= p_weight pb * (5 * tick_delta (p_weight pb))) by nia.
    apply elem_after_slice in Hp' as [->|(p & Hpin & ->)].
    + rewrite Ew, Ev. nia.
    + specialize (Hlag p Hpin). cbn. lia.
Qed.

Lemma service_S n c c1 b i :
  chosen c = Some b -> cpu_turn c = Some c1 ->
  service (S n) c i = ((if decide (b = i) then 1 else 0) + service n c1 i)%nat.
Proof.
  intros Hch Hr. unfold service. cbn [slices]. rewrite Hch, Hr. change (option_list (Some b)) with [b]. cbn [app].
  rewrite filter_cons. by destruct (decide (b = i)).
Qed.

Lemma fair_turns B (n : nat) c :
  fair_state B (snd c) -> B + n * 341330 < 2^64 ->
  exists c', cpu_turns n c = Some c' /\ fair_state (B + n * 341330) (snd c') /\
    length (slices n c) = n /\
    length (runq (procs (snd c'))) = length (runq (procs (snd c))) /\
    total_weight (procs (snd c')) = total_weight (procs (snd c)) /\
    paid (service n c) (procs (snd c)) (procs (snd c')).
Proof.
  revert B c. induction n as [|n IH]; intros B c Hf HB.
  - exists c. split_and!; try done; [by replace (B + 0%nat * 341330) with B by lia|].
    intros i p Hi Hon. exists p. split_and!; try done. cbn. lia.
  - destruct (fair_step B c Hf ltac:(lia)) as (c1 & b & Hr & Hch & Hf1 & Hlen & HW & Hpay).
    destruct (IH (B + 341330) c1 Hf1 ltac:(lia)) as (c' & Hr' & Hf' & Hn & Hlen' & HW' & Hpay').
    exists c'. cbn [cpu_turns]. rewrite Hr. split; [exact Hr'|].
    replace (B + S n * 341330) with (B + 341330 + n * 341330) by lia. split; [exact Hf'|].
    split; [cbn [slices]; rewrite Hch, Hr; cbn; by rewrite Hn|].
    split; [by rewrite Hlen', Hlen|]. split; [by rewrite HW', HW|].
    intros i p Hi Hon. destruct (paid_trans _ _ _ _ _ Hpay Hpay' i p Hi Hon) as (p' & H1 & H2 & H3 & H4).
    exists p'. split_and!; try done. by rewrite (service_S n c c1 b i Hch Hr).
Qed.

(** The virtual run times of two processes of the run queue stay together. *)
Lemma lag_pair l p q :
  (forall x, x ∈ runq l -> 15 <= p_weight x) -> lag_ok l -> p ∈ runq l -> q ∈ runq l ->
  p_weight q * (p_vruntime p - p_vruntime q) <=
    p_weight q * (5 * tick_delta (p_weight p)) + (length (runq l) - 1) * 5120000.
Proof.
  intros Hw Hlag Hp Hq. pose proof (lag_lower l q Hw Hlag Hq) as Hlow. specialize (Hlag p Hp).
  pose proof (total_weight_nonneg l Hw) as HW. specialize (Hw q Hq).
  assert (Hn : (1 <= length (runq l))%nat) by (destruct (runq l); [by apply not_elem_of_nil in Hp|cbn; lia]).
  set (W := total_weight l) in *. set (S := weighted_sum l) in *. set (n := length (runq l)) in *.
  apply (Z.mul_le_mono_pos_l _ _ W); [lia|]. clearbody W S n.
  assert (p_weight q * (W * p_vruntime p) <= p_weight q * (S + W * (5 * tick_delta (p_weight p)))) by nia. lia.
Qed.

(** C32. Fairness on one CPU.  A fixed set of processes that only compute, with
    virtual run times that start at most one slice ahead of the weighted average:
    for any number [n] of turns the scheduler gives one slice of five ticks to one of
    them in each turn.  The virtual run time of a process grows by the slices it got
    times the charge for a slice, five times [1024000 / weight] rounded down, and
    stays at most one slice ahead of the weighted average and, in units of service,
    at most one slice for every other process behind it.  Hence the slices that
    two processes got, each times its charge, differ by a bound that does not depend
    on [n]: up to the rounding, the service is in proportion to the weights. *)
Theorem eevdf_fair B (n : nat) c :
  fair_state B (snd c) -> B + n * 341330 < 2^64 ->
  exists c', cpu_turns n c = Some c' /\ length (slices n c) = n /\
    let l0 := procs (snd c) in
    let l := procs (snd c') in
    total_weight l = total_weight l0 /\ paid (service n c) l0 l /\
    (forall p, p ∈ runq l ->
      total_weight l * p_vruntime p <=
        weighted_sum l + total_weight l * (5 * tick_delta (p_weight p)) /\
      p_weight p * (weighted_sum l - total_weight l * p_vruntime p)
        <= (length (runq l0) - 1) * (total_weight l * 5120000)) /\
    (forall i j p q, l0 !! i = Some p -> l0 !! j = Some q -> on_rq p = true -> on_rq q = true ->
      let charge x := 5 * tick_delta (p_weight x) in
      p_weight q * (service n c i * charge p - service n c j * charge q) <=
        p_weight q * (p_vruntime q - p_vruntime p + charge p) + (length (runq l0) - 1) * 5120000).
Proof.
  intros Hf HB. destruct (fair_turns B n c Hf HB) as (c' & Hr & Hf' & Hn & Hlen & HW & Hpay).
  assert (Hw : forall x, x ∈ runq (procs (snd c')) -> 15 <= p_weight x) by (intros x Hx; by apply (fa_proc _ _ Hf')).
  pose proof (fa_lag _ _ Hf') as Hlag. exists c'. split; [done|]. split; [done|]. cbv zeta.
  split; [done|]. split; [done|]. rewrite <- Hlen. split.
  - intros p Hp. split; [by apply Hlag|by apply lag_lower].
  - intros i j p q Hi Hj Hp Hq. destruct (Hpay i p Hi Hp) as (p' & Hi' & Hp' & Wp & Vp).
    destruct (Hpay j q Hj Hq) as (q' & Hj' & Hq' & Wq & Vq).
    pose proof (lag_pair _ p' q' Hw Hlag) as H. rewrite Vp, Vq, Wp, Wq in H.
    specialize (H ltac:(apply elem_of_runq; split; [by eapply list_elem_of_lookup_2|done])
      ltac:(apply elem_of_runq; split; [by eapply list_elem_of_lookup_2|done])). lia.
Qed.

(** ** The slice invariant *)

(** The deadline is far enough away for what is left of the slice. *)
Definition slice_ok (p : proc) : Prop :=
  15 <= p_weight p < 2^31 /\ 1 <= p_remain_slice p <= BASE_SLICE /\ 0 <= p_vruntime p /\
  p_vruntime p + p_remain_slice p * tick_delta (p_weight p) <= p_vdeadline p.

Lemma slice_delta_ge w : 15 <= w -> 5 * tick_delta w <= slice_delta w <= 341333.
Proof.
  intros Hw. unfold tick_delta, slice_delta. split.
  - apply Z.div_le_lower_bound; [lia|].
    pose proof (Z.mul_div_le 1024000 w ltac:(lia)). nia.
  - change 341333 with (5120000 `div` 15). apply Z.div_le_compat_l; lia.
Qed.

(** A timer interrupt in user mode charges the running process one tick of
    real and of virtual time; while its slice lasts it keeps the CPU and its
    deadline; at the end of the slice it gets a new slice and the deadline
    that goes with it and gives up the CPU holding only its own lock.  Its
    virtual run time never passes its deadline. *)
Theorem user_timer_spec s i p :
  procs s !! i = Some p -> slice_ok p -> p_vruntime p < 2^63 ->
  cur s = Some i -> held s = [] ->
  let v' := p_vruntime p + tick_delta (p_weight p) in
  match user_timer (Some i) s with
  | Ok _ s' => 1 < p_remain_slice p /\ held s' = [] /\ exists p',
      procs s' = <[i := p']> (procs s) /\ slice_ok p' /\ p_state p' = p_state p /\
      p_vruntime p' = v' /\ p_runtime p' = u64 (p_runtime p + MILLI_TICK) /\
      p_vdeadline p' = p_vdeadline p /\ p_remain_slice p' = p_remain_slice p - 1
  | Swtch s' k => p_remain_slice p = 1 /\ held s' = [L_proc i] /\ exists p',
      procs s' = <[i := p']> (procs s) /\ slice_ok p' /\ p_state p' = RUNNABLE /\
      p_vruntime p' = v' /\ p_runtime p' = u64 (p_runtime p + MILLI_TICK) /\
      p_vdeadline p' = v' + slice_delta (p_weight p) /\ p_remain_slice p' = BASE_SLICE
  | _ => False
  end.
Proof.
  intros Hp Hs Hb Hc Hh v'. pose proof Hs as (Hw & Hr & Hv & Hd).
  destruct (tick_delta_bounds (p_weight p) ltac:(lia)) as [Ht _].
  destruct (slice_delta_ge (p_weight p) ltac:(lia)) as [Hg1 Hg2].
  assert (Hwo : weight_ok p) by (unfold weight_ok; lia).
  assert (Hv' : u64 v' = v') by (apply u64_small; unfold v'; ints; lia).
  destruct (decide (1 < p_remain_slice p)) as [Hlt|Hge].
  - rewrite (user_timer_tick s i p Hp Hwo Hlt). split_and!; [done|done|].
    exists (ticked p). unfold slice_ok, ticked.
    cbn [procs set_procs p_state p_weight p_remain_slice p_vruntime p_runtime p_vdeadline
         set_p_remain_slice set_p_vruntime set_p_runtime].
    fold v'. rewrite Hv', (proj2 (Z.ltb_lt _ _)) by lia.
    split_and!; try done; unfold v'; lia.
  - destruct (user_timer_expire s i p Hp Hwo ltac:(lia) Hc Hh) as (k & -> & _).
    split_and!; [lia|done|]. exists (expired (ticked p)). unfold slice_ok, expired, refreshed, ticked.
    cbn [procs set_procs set_held p_state p_weight p_remain_slice p_vruntime p_runtime p_vdeadline
         set_p_remain_slice set_p_vruntime set_p_runtime set_p_vdeadline set_p_state].
    fold v'. rewrite !Hv', u64_small by (unfold v'; ints; lia).
    unfold BASE_SLICE. split_and!; try done; unfold v'; lia.
Qed.

(** ** Sleep and wakeup *)

Definition woken (p : proc) : proc :=
  set_p_state RUNNABLE (refreshed (set_p_remain_slice BASE_SLICE p)).

(** The entry [i] after [wakeup c] by the process [me]. *)
Definition wake (c : option chan) (me : option nat) (i : nat) (p : proc) : proc :=
  if bool_decide (me <> Some i /\ p_state p = SLEEPING /\ p_chan p = c) then woken p else p.

Lemma wakeup_one_run c s i p :
  procs s !! i = Some p -> L_proc i ∉ held s -> (p_state p = SLEEPING -> weight_ok p) ->
  wakeup_one c i s = Ok tt (set_procs (<[i := wake c (cur s) i p]> (procs s)) s).
Proof.
  intros Hp Hh Hw. assert (Hi : (i < length (procs s))%nat) by by eapply lookup_lt_Some.
  unfold wakeup_one, wake. kstep (myproc_run s).
  destruct (decide (cur s = Some i)) as [Hme|Hme].
  { rewrite bool_decide_eq_true_2, bool_decide_eq_false_2 by (done || tauto).
    rewrite list_insert_id by done. by rewrite set_procs_id. }
  rewrite bool_decide_eq_false_2 by done.
  kstep (acquire_ok (L_proc i) s Hh).
  kstep (getp_run (set_held (L_proc i :: held s) s) i p Hp).
  destruct (decide (p_state p = SLEEPING /\ p_chan p = c)) as [Hs|Hs].
  - rewrite !bool_decide_eq_true_2 by tauto. cbn [when].
    rewrite bind_run.
    kstep (setp_run (set_held (L_proc i :: held s) s) i (set_p_remain_slice BASE_SLICE) p Hp).
    cbn [procs set_held].
    kstep (eevdf_refresh_ins (set_held (L_proc i :: held s) s) i (set_p_remain_slice BASE_SLICE p) _ Hi (Hw (proj1 Hs))).
    rewrite setp_ins by done. cbn [obind]. rewrite (release_head _ (held s)) by done.
    by destruct s.
  - rewrite !bool_decide_eq_false_2 by tauto. cbn [when].
    rewrite bind_run. cbn [obind mret K_ret]. rewrite (release_head _ (held s)) by done.
    rewrite list_insert_id by done. by destruct s.
Qed.

(** A loop over the table that updates each entry by itself. *)
Lemma update_run (step : nat -> K unit) (f : nat -> proc -> proc) s :
  (forall i p l, length l = length (procs s) -> procs s !! i = Some p -> l !! i = Some p ->
     step i (set_procs l s) = Ok tt (set_procs (<[i := f i p]> l) s)) -> table_ok s ->
  kiter all_procs (fun i _ => step i) tt s = Ok tt (set_procs (imap f (procs s)) s).
Proof.
  intros Hstep Ht. unfold all_procs. rewrite <- Ht.
  set (tab := fun k => imap f (take k (procs s)) ++ drop k (procs s)).
  assert (Hgen : forall n k, (k + n = length (procs s))%nat ->
    kiter (seq k n) (fun i _ => step i) tt (set_procs (tab k) s)
      = Ok tt (set_procs (imap f (procs s)) s)).
  { induction n as [|n IH]; intros k Hk.
    - unfold tab. by rewrite take_ge, drop_ge, app_nil_r by lia.
    - destruct (lookup_lt_is_Some_2 (procs s) k) as [p Hp]; [lia|].
      assert (Hlt : length (take k (procs s)) = k) by (rewrite length_take; lia).
      assert (Htk : tab k !! k = Some p).
      { unfold tab. rewrite lookup_app_r by (rewrite length_imap; lia).
        rewrite length_imap, Hlt, Nat.sub_diag, lookup_drop, Nat.add_0_r. done. }
      cbn [seq kiter]. rewrite bind_run, (Hstep k p) by
        (done || unfold tab; rewrite length_app, length_imap, length_drop; lia).
      cbn [obind]. rewrite <- (IH (S k)) by lia. do 2 f_equal. unfold tab.
      rewrite (take_S_r _ _ p), imap_app, (drop_S (procs s) p k) by done.
      rewrite insert_app_r_alt by (rewrite length_imap; lia).
      rewrite length_imap, Hlt, Nat.sub_diag. cbn. rewrite <- app_assoc. cbn.
      do 3 f_equal. lia. }
  specialize (Hgen (length (procs s)) 0%nat eq_refl). 
  change (tab 0%nat) with (procs s) in Hgen. by rewrite set_procs_id in Hgen.
Qed.

Definition no_proc_locks (s : kernel) : Prop := forall i, L_proc i ∉ held s.

Definition sleepers_ok (s : kernel) : Prop :=
  forall i p, procs s !! i = Some p -> p_state p = SLEEPING -> weight_ok p.

Lemma wakeup_run c s :
  table_ok s -> no_proc_locks s -> sleepers_ok s ->
  wakeup c s = Ok tt (set_procs (imap (wake c (cur s)) (procs s)) s).
Proof.
  intros Ht Hn Hw. unfold wakeup.
  apply (update_run (wakeup_one c) (wake c (cur s)) s); [|exact Ht]. intros i p l Hlen Hp Hl.
  rewrite (wakeup_one_run c _ i p); [done|done|apply Hn|by apply (Hw i)].
Qed.

(** The entry of a process that has gone to sleep. *)
Definition asleep (c : chan) (p : proc) : proc := set_p_state SLEEPING (set_p_chan (Some c) p).

Lemma sleep_run s i p c lk :
  cur s = Some i -> procs s !! i = Some p -> held s = [lk] -> lk <> L_proc i ->
  exists k, sleep c lk s =
    Swtch (set_held [L_proc i] (set_procs (<[i := asleep c p]> (procs s)) s)) k /\
    forall s', k s' = (setp i (set_p_chan None) ;; release (L_proc i) ;; acquire lk) s'.
Proof.
  intros Hc Hp Hh Hne. assert (Hi : (i < length (procs s))%nat) by by eapply lookup_lt_Some.
  unfold sleep. kstep (curproc_run s i Hc).
  kstep (acquire_ok (L_proc i) s ltac:(rewrite Hh; set_solver)). rewrite Hh.
  kstep (release_second (L_proc i) lk [] (set_held [L_proc i; lk] s) ltac:(done) eq_refl).
  kstep (setp_run (set_held [L_proc i] (set_held [L_proc i; lk] s)) i (set_p_chan (Some c)) p Hp).
  cbn [procs set_held].
  kstep (setp_ins (set_held [L_proc i] (set_held [L_proc i; lk] s)) i (set_p_chan (Some c) p) _ (set_p_state SLEEPING) Hi).
  rewrite bind_run, (sched_run _ i (asleep c p)).
  - eexists. split; [by destruct s|]. done.
  - done.
  - done.
  - cbn. by apply list_lookup_insert_eq.
  - done.
Qed.

(** C36. Sleep and wakeup, without lost wakeups: a process that calls [sleep] has
    given up the condition lock only after it holds its own lock and is
    marked as sleeping, and it is off the CPU with only that lock held.  From
    then on a [wakeup] of the channel by another process makes it runnable
    with a fresh slice, and leaves alone every process that does not sleep on
    the channel.  Once it runs again [sleep] returns with the condition lock. *)
Theorem sleep_wakeup s i p c lk :
  cur s = Some i -> procs s !! i = Some p -> held s = [lk] -> lk <> L_proc i ->
  exists s1 k, sleep c lk s = Swtch s1 k /\ held s1 = [L_proc i] /\
    (forall s2, table_ok s2 -> no_proc_locks s2 -> sleepers_ok s2 -> cur s2 <> Some i ->
       procs s2 !! i = procs s1 !! i ->
       exists s3, wakeup (Some c) s2 = Ok tt s3 /\ held s3 = held s2 /\
         (exists q, procs s3 !! i = Some q /\ p_state q = RUNNABLE /\
            p_remain_slice q = BASE_SLICE) /\
         (forall j q, procs s2 !! j = Some q ->
            ~ (p_state q = SLEEPING /\ p_chan q = Some c) -> procs s3 !! j = Some q)) /\
    (forall s4 q, held s4 = [L_proc i] -> procs s4 !! i = Some q ->
       k s4 = Ok tt (set_held [lk] (set_procs (<[i := set_p_chan None q]> (procs s4)) s4))).
Proof.
  intros Hc Hp Hh Hne. destruct (sleep_run s i p c lk Hc Hp Hh Hne) as (k & Hr & Hk).
  assert (Hi : (i < length (procs s))%nat) by by eapply lookup_lt_Some.
  eexists _, k. split; [exact Hr|]. split; [done|]. split.
  - intros s2 Ht Hn Hs Hme Heq. rewrite (wakeup_run _ s2 Ht Hn Hs). eexists. split; [done|].
    cbn [procs held set_procs set_held] in *. rewrite list_lookup_insert_eq in Heq by done.
    split; [done|]. split.
    + rewrite list_lookup_imap, Heq. eexists. split; [done|]. unfold wake.
      rewrite bool_decide_eq_true_2 by done. done.
    + intros j q Hq Hno. rewrite list_lookup_imap, Hq. cbn. unfold wake.
      by rewrite bool_decide_eq_false_2 by tauto.
  - intros s4 q H4 Hq. rewrite Hk. kstep (setp_run s4 i (set_p_chan None) q Hq).
    rewrite bind_run, (release_head _ []) by done. cbn [obind].
    rewrite acquire_ok by (cbn; apply not_elem_of_nil). by destruct s4.
Qed.

(** ** Witnesses *)

Section Witness.

(** A process of nice value 20 with the given state and virtual times. *)
Definition sample (st : procstate) (v d : Z) : proc :=
  set_p_state st (set_p_weight 1024 (set_p_nice 20 (set_p_vruntime v
    (set_p_vdeadline d (set_p_remain_slice BASE_SLICE zero_proc))))).

Definition no_stats : eevdf_rq_stats := mkStats 0 0 0 0.

(** The first entries of the table, the rest unused. *)
Definition with_procs (l : list proc) : kernel :=
  set_procs (l ++ replicate (Z.to_nat NPROC - length l) zero_proc) boot.

Lemma with_procs_table l : (length l <= 64)%nat -> table_ok (with_procs l).
Proof.
  intros H. unfold table_ok, with_procs. cbn [procs set_procs].
  rewrite length_app, length_replicate. change (Z.to_nat NPROC) with 64%nat. lia.
Qed.

Lemma with_procs_runq l : runq (procs (with_procs l)) = runq l.
Proof.
  unfold with_procs. cbn [procs set_procs]. rewrite runq_app.
  assert (H : forall n, runq (replicate n zero_proc) = []).
  { induction n as [|n IH]; [done|]. cbn [replicate]. unfold runq in *.
    rewrite filter_cons, decide_False by done. exact IH. }
  by rewrite H, app_nil_r.
Qed.

Definition two_runnable : kernel :=
  with_procs [sample RUNNABLE 2000 6000; sample RUNNABLE 1000 7000].

Lemma two_runnable_table : table_ok two_runnable.
Proof. apply with_procs_table. cbn. lia. Qed.

Lemma two_runnable_runq :
  runq (procs two_runnable) = [sample RUNNABLE 2000 6000; sample RUNNABLE 1000 7000].
Proof. unfold two_runnable. by rewrite with_procs_runq. Qed.

Lemma two_runnable_bounded : rq_bounded (procs two_runnable).
Proof.
  unfold rq_bounded. rewrite two_runnable_runq. split.
  - by intros p [->|[->|[]%not_elem_of_nil]%elem_of_cons]%elem_of_cons; vm_compute.
  - by intros p q [->|[->|[]%not_elem_of_nil]%elem_of_cons]%elem_of_cons
      [->|[->|[]%not_elem_of_nil]%elem_of_cons]%elem_of_cons; vm_compute.
Qed.

Lemma scheduler_picks_best_witness : exists b pb,
  best_choice (procs two_runnable) b pb /\ p_vruntime pb = 1000.
Proof.
  pose proof (scheduler_picks_best two_runnable no_stats two_runnable_table
    eq_refl two_runnable_bounded) as H.
  destruct (scheduler_round no_stats two_runnable) as [? ?|?|s' k|?] eqn:E.
  - exfalso. destruct H as [_ H]. apply (H 1%nat _ eq_refl).
    split; [reflexivity|]. apply Z.leb_le. vm_compute. reflexivity.
  - exact (False_ind _ H).
  - destruct H as (b & pb & Hb & _). exists b, pb. split; [exact Hb|].
    destruct Hb as (Hl & (Hs & Hd) & _).
    assert (Hin : pb ∈ runq (procs two_runnable)).
    { apply elem_of_runq. split; [by eapply list_elem_of_lookup_2|]. unfold on_rq. by rewrite Hs. }
    rewrite two_runnable_runq in Hin.
    apply elem_of_cons in Hin as [->|[->|[]%not_elem_of_nil]%elem_of_cons]; [|reflexivity].
    exfalso. apply Z.leb_le in Hd. vm_compute in Hd. discriminate Hd.
  - exact (False_ind _ H).
Defined.

Lemma scheduler_work_conserving_witness : exists s' k b,
  scheduler_round no_stats two_runnable = Swtch s' k /\ cur s' = Some b.
Proof.
  apply (scheduler_work_conserving two_runnable no_stats 0%nat (sample RUNNABLE 2000 6000));
    [exact two_runnable_table|reflexivity|exact two_runnable_bounded|reflexivity|reflexivity|].
  intros j q Hj Hs. assert (Hin : q ∈ runq (procs two_runnable)).
  { apply elem_of_runq. split; [by eapply list_elem_of_lookup_2|]. unfold on_rq. by rewrite Hs. }
  rewrite two_runnable_runq in Hin.
  apply elem_of_cons in Hin as [->|[->|[]%not_elem_of_nil]%elem_of_cons]; discriminate Hs.
Defined.

Lemma two_runnable_fair : fair_state 2000 two_runnable.
Proof.
  split; [exact two_runnable_table|reflexivity|reflexivity| | |].
  - rewrite two_runnable_runq. discriminate.
  - rewrite two_runnable_runq.
    by intros p [->|[->|[]%not_elem_of_nil]%elem_of_cons]%elem_of_cons; vm_compute.
  - intros p. rewrite two_runnable_runq.
    intros [->|[->|[]%not_elem_of_nil]%elem_of_cons]%elem_of_cons;
      apply Z.leb_le; vm_compute; reflexivity.
Qed.

Lemma eevdf_fair_witness : exists c',
  let c := (no_stats, two_runnable) in
  cpu_turns 1000 c = Some c' /\ total_weight (procs (snd c')) = 2048 /\
  5000 * (service 1000 c 0 - service 1000 c 1) <= 9000.
Proof.
  destruct (eevdf_fair 2000 1000 (no_stats, two_runnable) two_runnable_fair ltac:(lia))
    as (c' & Hr & _ & HW & _ & _ & Hpair).
  exists c'. split; [exact Hr|]. split; [rewrite HW; vm_compute; reflexivity|].
  specialize (Hpair 0%nat 1%nat (sample RUNNABLE 2000 6000) (sample RUNNABLE 1000 7000)
    eq_refl eq_refl eq_refl eq_refl). cbn [snd] in Hpair. rewrite two_runnable_runq in Hpair.
  set (a := Z.of_nat (service 1000 _ 0)) in *. set (b := Z.of_nat (service 1000 _ 1)) in *. clearbody a b.
  vm_compute (tick_delta _) in Hpair. cbn in Hpair. lia.
Defined.

Definition one_running : kernel :=
  set_cur (Some 0%nat) (with_procs [sample RUNNING 1000 6000]).

Lemma user_timer_spec_witness :
  match user_timer (Some 0%nat) one_running with
  | Ok _ s' => exists p', procs s' = <[0%nat := p']> (procs one_running) /\
      p_vruntime p' = 2000 /\ p_remain_slice p' = 4
  | _ => False
  end.
Proof.
  assert (Hs : slice_ok (sample RUNNING 1000 6000)).
  { unfold slice_ok. cbn. unfold tick_delta, BASE_SLICE. split_and!; try lia. by vm_compute. }
  pose proof (user_timer_spec one_running 0%nat (sample RUNNING 1000 6000) eq_refl Hs
    ltac:(reflexivity) eq_refl eq_refl) as H. cbv zeta in H.
  destruct (user_timer (Some 0%nat) one_running) as [u s'|m|s' k|w]; try (exact (False_ind _ H)).
  - destruct H as (_ & _ & p' & Hp & _ & _ & Hv & _ & _ & Hr). exists p'.
    split; [exact Hp|]. split; [exact Hv|exact Hr].
  - destruct H as [H _]. discriminate H.
Defined.

Lemma sleep_wakeup_witness :
  let s := set_held [L_wait] one_running in
  exists s1 k, sleep (C_proc 0) L_wait s = Swtch s1 k /\ held s1 = [L_proc 0].
Proof.
  intros s. destruct (sleep_wakeup s 0%nat (sample RUNNING 1000 6000) (C_proc 0) L_wait
    eq_refl eq_refl eq_refl ltac:(discriminate)) as (s1 & k & Hr & Hh & _).
  exists s1, k. split; [exact Hr|exact Hh].
Defined.

End Witness.

(** With several CPUs the scheduler is not work-conserving: the statistics
    include the process that runs on another CPU, so that when that process is
    the one with the least virtual run time, a runnable process can be held
    back and the CPU idles. *)
Theorem scheduler_idles_with_runnable :
  let s := with_procs [sample RUNNING 0 5000; sample RUNNABLE 5000 10000] in
  table_ok s /\ rq_bounded (procs s) /\
  (exists p, procs s !! 1%nat = Some p /\ p_state p = RUNNABLE) /\
  match scheduler_round no_stats s with Ok _ s' => cur s' = None | _ => False end.
Proof.
  intros s. split_and!.
  - apply with_procs_table. cbn. lia.
  - unfold s, rq_bounded. rewrite with_procs_runq. split.
    + by intros p [->|[->|[]%not_elem_of_nil]%elem_of_cons]%elem_of_cons; vm_compute.
    + by intros p q [->|[->|[]%not_elem_of_nil]%elem_of_cons]%elem_of_cons
        [->|[->|[]%not_elem_of_nil]%elem_of_cons]%elem_of_cons; vm_compute.
  - eexists. split; reflexivity.
  - vm_compute. reflexivity.
Qed.
