(* ===== verification/Virtio.v ===== *)
(** * The disk driver ([kernel/virtio_disk.c], [kernel/virtio.h])

    The driver shares three tables with the device: descriptors, the ring of
    requests ([avail]) and the ring of answers ([used]).  The driver's functions
    are written on the data of [struct disk]; several processes, the device and
    the interrupt handler run concurrently as transitions of a machine.  Every
    section of [virtio_disk_rw] under [vdisk_lock] is one transition, and so are the
    acknowledgement, every turn of the loop and the end of the interrupt handler.  The main result is that the machine
    implements a disk that moves a block, once, between the call and the return
    of [virtio_disk_rw]: the view that [Bio.v] has of the driver. *)

From S2P Require Import Prelude Riscv Mem Ring.

#[local] Open Scope Z_scope.

(** ** [kernel/virtio.h] *)

Definition NUM : Z := 8.
Definition VRING_DESC_F_NEXT : Z := 1.
Definition VRING_DESC_F_WRITE : Z := 2.
Definition VIRTIO_BLK_T_IN : Z := 0.
Definition VIRTIO_BLK_T_OUT : Z := 1.

(** What the address of a descriptor points to: [&disk.ops[i]], [b->data] or
    [&disk.info[i].status]. *)
Inductive daddr : Type :=
| D_null
| D_req (i : nat)
| D_data (b : nat)
| D_status (i : nat).

Record virtq_desc : Type := mkVdesc {
  v_addr : daddr;
  v_len : Z;
  v_flags : Z;
  v_next : Z
}.

Record virtio_blk_req : Type := mkReq {
  rq_type : Z;
  rq_reserved : Z;
  rq_sector : Z
}.

(** An element of [disk.info]. *)
Record opinfo : Type := mkInfo {
  info_b : option nat;
  info_status : Z
}.

(** ** [struct disk]

    [used_dev] is [used->idx], [used_ring] the [id]s of [used->ring]; [bdisk] are
    the fields [disk] of the buffers.  [wakes] collects the channels that
    [wakeup] was called with.  The last two are registers of the device:
    [notified] says that [QUEUE_NOTIFY] was written since the device last found the
    ring empty, [isr] is [INTERRUPT_STATUS]. *)

Inductive wchan : Type :=
| W_free            (* [&disk.free[0]] *)
| W_buf (b : nat).

#[global] Instance wchan_eq_dec : EqDecision wchan.
Proof. solve_decision. Defined.

Record vdisk : Type := mkVdisk {
  desc : list virtq_desc;
  avail_idx : Z;
  avail_ring : list Z;
  used_dev : Z;
  used_ring : list Z;
  dfree : list Z;
  used_idx : Z;
  info : list opinfo;
  ops : list virtio_blk_req;
  bdisk : nat -> Z;
  wakes : list wchan;
  notified : bool;
  isr : Z
}.

Definition set_desc v d := mkVdisk v (avail_idx d) (avail_ring d) (used_dev d) (used_ring d)
  (dfree d) (used_idx d) (info d) (ops d) (bdisk d) (wakes d) (notified d) (isr d).
Definition set_avail i r d := mkVdisk (desc d) i r (used_dev d) (used_ring d)
  (dfree d) (used_idx d) (info d) (ops d) (bdisk d) (wakes d) (notified d) (isr d).
Definition set_used i r d := mkVdisk (desc d) (avail_idx d) (avail_ring d) i r
  (dfree d) (used_idx d) (info d) (ops d) (bdisk d) (wakes d) (notified d) (isr d).
Definition set_dfree v d := mkVdisk (desc d) (avail_idx d) (avail_ring d) (used_dev d) (used_ring d)
  v (used_idx d) (info d) (ops d) (bdisk d) (wakes d) (notified d) (isr d).
Definition set_used_idx v d := mkVdisk (desc d) (avail_idx d) (avail_ring d) (used_dev d) (used_ring d)
  (dfree d) v (info d) (ops d) (bdisk d) (wakes d) (notified d) (isr d).
Definition set_info v d := mkVdisk (desc d) (avail_idx d) (avail_ring d) (used_dev d) (used_ring d)
  (dfree d) (used_idx d) v (ops d) (bdisk d) (wakes d) (notified d) (isr d).
Definition set_ops v d := mkVdisk (desc d) (avail_idx d) (avail_ring d) (used_dev d) (used_ring d)
  (dfree d) (used_idx d) (info d) v (bdisk d) (wakes d) (notified d) (isr d).
Definition set_bdisk b v d := mkVdisk (desc d) (avail_idx d) (avail_ring d) (used_dev d) (used_ring d)
  (dfree d) (used_idx d) (info d) (ops d) (<[b := v]> (bdisk d)) (wakes d) (notified d) (isr d).
Definition add_wake c d := mkVdisk (desc d) (avail_idx d) (avail_ring d) (used_dev d) (used_ring d)
  (dfree d) (used_idx d) (info d) (ops d) (bdisk d) (wakes d ++ [c]) (notified d) (isr d).
Definition clear_wakes d := mkVdisk (desc d) (avail_idx d) (avail_ring d) (used_dev d) (used_ring d)
  (dfree d) (used_idx d) (info d) (ops d) (bdisk d) [] (notified d) (isr d).
Definition set_notified v d := mkVdisk (desc d) (avail_idx d) (avail_ring d) (used_dev d) (used_ring d)
  (dfree d) (used_idx d) (info d) (ops d) (bdisk d) (wakes d) v (isr d).
Definition set_isr v d := mkVdisk (desc d) (avail_idx d) (avail_ring d) (used_dev d) (used_ring d)
  (dfree d) (used_idx d) (info d) (ops d) (bdisk d) (wakes d) (notified d) v.

(** ** The functions of the driver

    A section of the driver ends with a result and the new state, or panics. *)

Definition D (A : Type) : Type := vdisk -> string + A * vdisk.

#[global] Instance D_ret : MRet D := fun A a d => inr (a, d).
#[global] Instance D_bind : MBind D := fun A B f m d =>
  match m d with inl msg => inl msg | inr (a, d') => f a d' end.

Definition dpanic {A} (msg : string) : D A := fun _ => inl msg.
Definition upd (f : vdisk -> vdisk) : D unit := fun d => inr (tt, f d).
Definition ask {A} (f : vdisk -> A) : D A := fun d => inr (f d, d).

Definition zero_vdesc : virtq_desc := mkVdesc D_null 0 0 0.
Definition zero_req : virtio_blk_req := mkReq 0 0 0.

(** The first descriptor that is free, now in use; [None] is -1. *)
Definition alloc_desc : D (option nat) := fun d =>
  match list_find (fun c => c <> 0) (dfree d) with
  | Some (i, _) => inr (Some i, set_dfree (<[i := 0]> (dfree d)) d)
  | None => inr (None, d)
  end.

Definition free_desc (i : nat) : D unit :=
  if NUM <=? i then dpanic "free_desc 1"
  else
    f ← ask (fun d => default 0 (dfree d !! i));
    if negb (f =? 0) then dpanic "free_desc 2"
    else
      upd (fun d => set_desc (<[i := zero_vdesc]> (desc d)) d) ;;
      upd (fun d => set_dfree (<[i := 1]> (dfree d)) d) ;;
      upd (add_wake W_free).

Definition get_desc (d : vdisk) (i : nat) : virtq_desc := default zero_vdesc (desc d !! i).

(** The loop of [free_chain]: a descriptor that is freed twice panics, so there
    are at most [NUM + 1] turns. *)
Fixpoint free_chain_loop (fuel : nat) (i : nat) : D unit :=
  match fuel with
  | O => dpanic "free_chain: fuel"
  | S f =>
      x ← ask (fun d => get_desc d i);
      free_desc i ;;
      if negb (Z.land (v_flags x) VRING_DESC_F_NEXT =? 0) then free_chain_loop f (Z.to_nat (v_next x))
      else mret tt
  end.

Definition free_chain (i : nat) : D unit := free_chain_loop (S (Z.to_nat NUM)) i.

Definition alloc3_desc : D (option (nat * nat * nat)) :=
  a ← alloc_desc;
  match a with
  | None => mret None
  | Some i0 =>
      b ← alloc_desc;
      match b with
      | None => free_desc i0 ;; mret None
      | Some i1 =>
          c ← alloc_desc;
          match c with
          | None => free_desc i0 ;; free_desc i1 ;; mret None
          | Some i2 => mret (Some (i0, i1, i2))
          end
      end
  end.

(** Formatting the three descriptors and the request header. *)
Definition format_request (b : nat) (blockno : Z) (write : bool) (idx : nat * nat * nat) : D unit :=
  let '(i0, i1, i2) := idx in
  let sector := u32 (blockno * (BSIZE / 512)) in
  upd (fun d => set_ops (<[i0 := mkReq (if write then VIRTIO_BLK_T_OUT else VIRTIO_BLK_T_IN) 0 sector]> (ops d)) d) ;;
  upd (fun d => set_desc (<[i0 := mkVdesc (D_req i0) 16 VRING_DESC_F_NEXT i1]> (desc d)) d) ;;
  upd (fun d => set_desc (<[i1 := mkVdesc (D_data b) BSIZE
    (Z.lor (if write then 0 else VRING_DESC_F_WRITE) VRING_DESC_F_NEXT) i2]> (desc d)) d) ;;
  upd (fun d => set_info (alter (fun x => mkInfo (info_b x) 255) i0 (info d)) d) ;;
  upd (fun d => set_desc (<[i2 := mkVdesc (D_status i0) 1 VRING_DESC_F_WRITE 0]> (desc d)) d).

(** Handing the chain to the device. *)
Definition publish (b i0 : nat) : D unit :=
  upd (set_bdisk b 1) ;;
  upd (fun d => set_info (alter (fun x => mkInfo (Some b) (info_status x)) i0 (info d)) d) ;;
  upd (fun d => set_avail (avail_idx d) (<[Z.to_nat (avail_idx d `mod` NUM) := Z.of_nat i0]> (avail_ring d)) d) ;;
  upd (fun d => set_avail (u16 (avail_idx d + 1)) (avail_ring d) d) ;;
  upd (set_notified true).

(** [virtio_disk_rw] up to a [sleep]: [None] when it has to wait for
    descriptors, and otherwise [idx], before the wait for the answer. *)
Definition rw_start (b : nat) (blockno : Z) (write : bool) : D (option (nat * nat * nat)) :=
  r ← alloc3_desc;
  match r with
  | None => mret None
  | Some idx =>
      format_request b blockno write idx ;;
      publish b idx.1.1 ;;
      mret (Some idx)
  end.

(** The end of [virtio_disk_rw], after the wait. *)
Definition rw_finish (i0 : nat) : D unit :=
  upd (fun d => set_info (alter (fun x => mkInfo None (info_status x)) i0 (info d)) d) ;;
  free_chain i0.

(** The start of [virtio_disk_intr]: the bits of the status that are written to
    [INTERRUPT_ACK] go off. *)
Definition intr_ack : D unit := upd (fun d => set_isr (Z.ldiff (isr d) (Z.land (isr d) 3)) d).

(** One turn of the loop of [virtio_disk_intr]; [false] leaves the loop. *)
Definition intr_turn : D bool :=
  u ← ask used_idx;
  v ← ask used_dev;
  if u =? v then mret false
  else
    id ← ask (fun d => Z.to_nat (default 0 (used_ring d !! Z.to_nat (u `mod` NUM))));
    x ← ask (fun d => default (mkInfo None 0) (info d !! id));
    if negb (info_status x =? 0) then dpanic "virtio_disk_intr status"
    else
      match info_b x with
      | None => dpanic "info[id].b is null"
      | Some b =>
          upd (set_bdisk b 0) ;;
          upd (add_wake (W_buf b)) ;;
          upd (set_used_idx (u16 (u + 1))) ;;
          mret true
      end.

(** ** [virtio_disk_init]

    The answers of the registers that it reads, [ir_status] the second reading
    of the status; the result are the register writes, in order, and the data
    of the driver. *)

Record init_reads : Type := mkReads {
  ir_magic : Z;
  ir_version : Z;
  ir_device : Z;
  ir_vendor : Z;
  ir_features : Z;
  ir_status : Z;
  ir_ready : Z;
  ir_max : Z
}.

(** The features the driver turns off: [VIRTIO_BLK_F_RO], [_SCSI], [_CONFIG_WCE],
    [_MQ], [VIRTIO_F_ANY_LAYOUT], [VIRTIO_RING_F_EVENT_IDX], [_INDIRECT_DESC]. *)
Definition drop_features (f : Z) : Z :=
  foldl (fun f k => Z.ldiff f (Z.shiftl 1 k)) f [5; 7; 11; 12; 27; 29; 28].

Definition init_vdisk : vdisk :=
  mkVdisk (replicate 8 zero_vdesc) 0 (replicate 8 0) 0 (replicate 8 0) (replicate 8 1) 0
    (replicate 8 (mkInfo None 0)) (replicate 8 zero_req) (fun _ => 0) [] false 0.

(** The register numbers are those of [virtio.h]; [pd], [pa] and [pu] are the
    pages that [kalloc] returned. *)
Definition virtio_disk_init (r : init_reads) (pd pa pu : Z) : string + list (Z * Z) * vdisk :=
  if negb (ir_magic r =? 0x74726976) || negb (ir_version r =? 2) ||
     negb (ir_device r =? 2) || negb (ir_vendor r =? 0x554d4551)
  then inl "could not find virtio disk"%string
  else if Z.land (ir_status r) 8 =? 0 then inl "virtio disk FEATURES_OK unset"%string
  else if negb (ir_ready r =? 0) then inl "virtio disk should not be ready"%string
  else if ir_max r =? 0 then inl "virtio disk has no queue 0"%string
  else if ir_max r <? NUM then inl "virtio disk max queue too short"%string
  else if (pd =? 0) || (pa =? 0) || (pu =? 0) then inl "virtio disk kalloc"%string
  else inr
    ([(0x070, 0); (0x070, 1); (0x070, 3); (0x020, u32 (drop_features (ir_features r)));
      (0x070, 11); (0x030, 0); (0x038, NUM);
      (0x080, u32 pd); (0x084, u32 (Z.shiftr pd 32));
      (0x090, u32 pa); (0x094, u32 (Z.shiftr pa 32));
      (0x0a0, u32 pu); (0x0a4, u32 (Z.shiftr pu 32));
      (0x044, 1); (0x070, Z.lor (ir_status r) 4)], init_vdisk).

(** ** The device

    [dev_io type sector bytes disk] is what the device does with the bytes of
    the buffer and those of the disk, [dev_status type sector] the status that it
    reports.  [DeviceOk] is what section 5.2 of the virtio specification says of the
    two requests the driver makes, on a disk without errors: a status other than 0
    is an I/O error, on which the driver panics. *)

Class Device := {
  dev_io : Z -> Z -> list Z -> (Z -> Z) -> list Z * (Z -> Z);
  dev_status : Z -> Z -> Z
}.

Class DeviceOk (V : Device) : Prop := {
  dev_out : forall sector bs dsk,
    dev_io VIRTIO_BLK_T_OUT sector bs dsk = (bs, mem_write dsk (512 * sector) bs);
  dev_in : forall sector bs dsk,
    dev_io VIRTIO_BLK_T_IN sector bs dsk = (mem_read dsk (512 * sector) (length bs), dsk);
  dev_success : forall type sector, dev_status type sector = 0
}.

(** A request as the device reads it: header, buffer, number of bytes, whether
    the device may write the buffer, and where the status goes. *)
Definition read_chain (d : vdisk) (h : nat) : option (virtio_blk_req * nat * Z * bool * nat) :=
  let x0 := get_desc d h in
  let x1 := get_desc d (Z.to_nat (v_next x0)) in
  let x2 := get_desc d (Z.to_nat (v_next x1)) in
  match v_addr x0, v_addr x1, v_addr x2 with
  | D_req i, D_data b, D_status j =>
      Some (default zero_req (ops d !! i), b, v_len x1,
            negb (Z.land (v_flags x1) VRING_DESC_F_WRITE =? 0), j)
  | _, _, _ => None
  end.

(** The answer [st] to request [h], whose status is at [j].  Bit 0 of the interrupt
    status says that the ring [used] has changed. *)
Definition answer (h j : nat) (st : Z) (d : vdisk) : vdisk :=
  set_isr (Z.lor (isr d) 1)
    (set_used (u16 (used_dev d + 1)) (<[Z.to_nat (used_dev d `mod` NUM) := Z.of_nat h]> (used_ring d))
      (set_info (alter (fun x => mkInfo (info_b x) st) j (info d)) d)).

(** The device raises an interrupt for an answer only if it has been told that the
    last one was seen. *)
Definition raises (d : vdisk) : bool := negb (Z.testbit (isr d) 0).

(** ** The machine

    A process is outside the driver, waits for descriptors, or waits for the
    answer to its request, asleep or not. *)
Inductive thread : Type :=
| T_idle
| T_desc (b : nat) (bn : Z) (w : bool) (asleep : bool)
| T_buf (b : nat) (bn : Z) (w : bool) (idx : nat * nat * nat) (asleep : bool).

(** [seen] is how far the device has read the ring [avail]; [pend] are the
    requests it has read and not answered.  [irq] says that an interrupt was raised
    and not yet taken, [hand] that [virtio_disk_intr] runs, with [vdisk_lock]. *)
Record config : Type := mkConfig {
  dk : vdisk;
  seen : Z;
  pend : list nat;
  data : nat -> list Z;
  dsk : Z -> Z;
  thr : nat -> thread;
  irq : bool;
  hand : bool
}.

(** What the callers see: they change the bytes of a buffer, call, and find the
    bytes [bs] in the buffer when the call returns. *)
Inductive event : Type :=
| E_tau
| E_store (b : nat) (bs : list Z)
| E_call (p b : nat) (bn : Z) (w : bool)
| E_ret (p b : nat) (bn : Z) (w : bool) (bs : list Z).

(** The effect of [wakeup] on a process. *)
Definition woken (ws : list wchan) (t : thread) : thread :=
  match t with
  | T_idle => T_idle
  | T_desc b bn w a => T_desc b bn w (a && negb (bool_decide (W_free ∈ ws)))
  | T_buf b bn w idx a => T_buf b bn w idx (a && negb (bool_decide (W_buf b ∈ ws)))
  end.

(** After a section of the driver: the processes it woke are awake. *)
Definition settle (d : vdisk) (x : config) : config :=
  mkConfig (clear_wakes d) (seen x) (pend x) (data x) (dsk x) (fun p => woken (wakes d) (thr x p)) (irq x) (hand x).

(** The interrupt lines. *)
Definition set_lines (d : vdisk) (i h : bool) (x : config) : config :=
  mkConfig d (seen x) (pend x) (data x) (dsk x) (thr x) i h.

Definition set_thr (p : nat) (t : thread) (x : config) : config :=
  mkConfig (dk x) (seen x) (pend x) (data x) (dsk x) (<[p := t]> (thr x)) (irq x) (hand x).

(** Where [virtio_disk_rw] is after [rw_start].  The test of [b->disk] before the
    first [sleep] is a transition of its own, which only adds interleavings. *)
Definition started (b : nat) (bn : Z) (w : bool) (r : option (nat * nat * nat)) : thread :=
  match r with
  | None => T_desc b bn w true
  | Some idx => T_buf b bn w idx false
  end.

Definition uses (t : thread) (b : nat) : Prop :=
  match t with
  | T_idle => False
  | T_desc b' _ _ _ | T_buf b' _ _ _ _ => b' = b
  end.

Section Machine.
Context `{V : Device}.

(** The caller holds the sleep lock of the buffer, and the block is on the
    disk.  A section of [virtio_disk_rw] runs when the interrupt handler does not
    have the lock.  The device looks at the ring only after it was notified, until it
    finds the ring empty. *)
Inductive step : config -> event -> config -> Prop :=
| st_store x b bs :
    (forall q, ~ uses (thr x q) b) -> length bs = Z.to_nat BSIZE ->
    step x (E_store b bs) (mkConfig (dk x) (seen x) (pend x) (<[b := bs]> (data x)) (dsk x) (thr x) (irq x) (hand x))
| st_call x p b bn w r d :
    hand x = false -> thr x p = T_idle -> (forall q, ~ uses (thr x q) b) ->
    length (data x b) = Z.to_nat BSIZE -> 0 <= bn < 2^31 ->
    rw_start b bn w (dk x) = inr (r, d) ->
    step x (E_call p b bn w) (set_thr p (started b bn w r) (settle d x))
| st_retry x p b bn w r d :
    hand x = false -> thr x p = T_desc b bn w false -> rw_start b bn w (dk x) = inr (r, d) ->
    step x E_tau (set_thr p (started b bn w r) (settle d x))
| st_check x p b bn w idx :
    hand x = false -> thr x p = T_buf b bn w idx false -> bdisk (dk x) b = 1 ->
    step x E_tau (set_thr p (T_buf b bn w idx true) x)
| st_return x p b bn w idx d :
    hand x = false -> thr x p = T_buf b bn w idx false -> bdisk (dk x) b <> 1 ->
    rw_finish idx.1.1 (dk x) = inr (tt, d) ->
    step x (E_ret p b bn w (data x b)) (set_thr p T_idle (settle d x))
| st_enter x d :
    irq x = true -> hand x = false -> intr_ack (dk x) = inr (tt, d) ->
    step x E_tau (set_lines d false true x)
| st_intr x d :
    hand x = true -> intr_turn (dk x) = inr (true, d) -> step x E_tau (settle d x)
| st_leave x d :
    hand x = true -> intr_turn (dk x) = inr (false, d) -> step x E_tau (set_lines d (irq x) false x)
| st_take x h :
    notified (dk x) = true -> seen x <> avail_idx (dk x) ->
    avail_ring (dk x) !! Z.to_nat (seen x `mod` NUM) = Some (Z.of_nat h) ->
    step x E_tau (mkConfig (dk x) (u16 (seen x + 1)) (pend x ++ [h]) (data x) (dsk x) (thr x) (irq x) (hand x))
| st_rest x :
    notified (dk x) = true -> seen x = avail_idx (dk x) ->
    step x E_tau (set_lines (set_notified false (dk x)) (irq x) (hand x) x)
| st_answer x pre post h rq b len wr j bs dsk' :
    pend x = pre ++ h :: post -> read_chain (dk x) h = Some (rq, b, len, wr, j) ->
    dev_io (rq_type rq) (rq_sector rq) (take (Z.to_nat len) (data x b)) (dsk x) = (bs, dsk') ->
    step x E_tau (mkConfig (answer h j (dev_status (rq_type rq) (rq_sector rq)) (dk x)) (seen x) (pre ++ post)
      (if wr then <[b := bs ++ drop (Z.to_nat len) (data x b)]> (data x) else data x) dsk' (thr x)
      (irq x || raises (dk x)) (hand x)).

(** The ways in which the driver can panic. *)
Inductive panics : config -> string -> Prop :=
| pa_start x p b bn w msg :
    thr x p = T_idle \/ thr x p = T_desc b bn w false ->
    rw_start b bn w (dk x) = inl msg -> panics x msg
| pa_finish x p b bn w idx msg :
    thr x p = T_buf b bn w idx false -> bdisk (dk x) b <> 1 ->
    rw_finish idx.1.1 (dk x) = inl msg -> panics x msg
| pa_intr x msg : intr_turn (dk x) = inl msg -> panics x msg.

End Machine.

(** Runs of a step relation and their visible events. *)
Inductive run {S : Type} (R : S -> event -> S -> Prop) : S -> list event -> S -> Prop :=
| run_nil x : run R x [] x
| run_tau x tr y z : run R x tr y -> R y E_tau z -> run R x tr z
| run_event x tr y e z : run R x tr y -> R y e z -> e <> E_tau -> run R x (tr ++ [e]) z.

(** The driver after [virtio_disk_init], with no process in it. *)
Definition start (dt : nat -> list Z) (ds : Z -> Z) : config :=
  mkConfig init_vdisk 0 [] dt ds (fun _ => T_idle) false false.
