(* ===== verification/Disk.v ===== *)
(** * Correctness of the disk driver

    The machine of [Virtio.v] never panics, implements a disk that moves whole
    blocks, and can always complete every call. *)

From S2P Require Import Prelude Riscv Mem Ring Virtio.

#[local] Open Scope Z_scope.

(** ** What the sections of the driver do *)

(** Every table has [NUM] entries, and a descriptor is free or not. *)
Record tables (d : vdisk) : Prop := {
  tb_desc : length (desc d) = 8%nat;
  tb_avail : length (avail_ring d) = 8%nat;
  tb_used : length (used_ring d) = 8%nat;
  tb_free : length (dfree d) = 8%nat;
  tb_info : length (info d) = 8%nat;
  tb_ops : length (ops d) = 8%nat;
  tb_bits : Forall (fun c => c = 0 \/ c = 1) (dfree d)
}.

Definition three_free (d : vdisk) : Prop :=
  exists i j k, NoDup [i; j; k] /\ dfree d !! i = Some 1 /\ dfree d !! j = Some 1 /\ dfree d !! k = Some 1.

Lemma alloc_desc_run d :
  Forall (fun c => c = 0 \/ c = 1) (dfree d) ->
  (exists i, dfree d !! i = Some 1 /\ alloc_desc d = inr (Some i, set_dfree (<[i := 0]> (dfree d)) d)) \/
  ((forall i, dfree d !! i <> Some 1) /\ alloc_desc d = inr (None, d)).
Proof.
  intros Hb. unfold alloc_desc. destruct (list_find _ _) as [[i c]|] eqn:E.
  - left. exists i. apply list_find_Some in E as (Hi & Hc & _).
    pose proof (Forall_lookup_1 _ _ _ _ Hb Hi) as [->| ->]; [by destruct Hc|]. done.
  - right. split; [|done]. intros i Hi. apply list_find_None in E.
    by pose proof (Forall_lookup_1 _ _ _ _ E Hi (fun H => ltac:(discriminate H))).
Qed.

Definition freed (i : nat) (d : vdisk) : vdisk :=
  add_wake W_free (set_dfree (<[i := 1]> (dfree d)) (set_desc (<[i := zero_vdesc]> (desc d)) d)).

Lemma free_desc_run d i : (i < 8)%nat -> dfree d !! i = Some 0 -> free_desc i d = inr (tt, freed i d).
Proof.
  intros Hi Hf. unfold free_desc. rewrite (proj2 (Z.leb_gt NUM i)) by (unfold NUM; lia).
  unfold mbind, D_bind, ask. rewrite Hf. done.
Qed.

(** After a failed allocation only descriptors that are free have changed. *)
Record gave_up (d d' : vdisk) : Prop := {
  gu_free : dfree d' = dfree d;
  gu_len : length (desc d') = length (desc d);
  gu_desc : forall m, dfree d !! m <> Some 1 -> desc d' !! m = desc d !! m;
  gu_avail : avail_idx d' = avail_idx d /\ avail_ring d' = avail_ring d;
  gu_used : used_dev d' = used_dev d /\ used_ring d' = used_ring d /\ used_idx d' = used_idx d;
  gu_info : info d' = info d;
  gu_ops : ops d' = ops d;
  gu_bdisk : bdisk d' = bdisk d;
  gu_lines : notified d' = notified d /\ isr d' = isr d
}.

Lemma bits_insert l i : Forall (fun c => c = 0 \/ c = 1) l ->
  Forall (fun c => c = 0 \/ c = 1) (<[i := 0]> l).
Proof. intros. apply Forall_insert; auto. Qed.

Lemma few_free d (l : list nat) :
  (length l < 3)%nat -> (forall m, dfree d !! m = Some 1 -> m ∈ l) -> ~ three_free d.
Proof.
  intros Hl Hm (i & j & k & Hd & Hi & Hj & Hk).
  assert (Hs : [i; j; k] ⊆+ l) by (apply NoDup_submseteq; [done|]; set_solver).
  apply submseteq_length in Hs. cbn in Hs. lia.
Qed.

(** A descriptor that is taken and freed again. *)
Lemma gave_up_one d i :
  dfree d !! i = Some 1 -> gave_up d (freed i (set_dfree (<[i := 0]> (dfree d)) d)).
Proof.
  intros Hi. split; cbn; try done.
  - by rewrite list_insert_insert_eq, list_insert_id.
  - by rewrite length_insert.
  - intros m Hm. rewrite list_lookup_insert_ne; [done|]. by intros ->.
Qed.

Lemma gave_up_two d i j :
  i <> j -> dfree d !! i = Some 1 -> dfree d !! j = Some 1 ->
  gave_up d (freed j (freed i (set_dfree (<[j := 0]> (<[i := 0]> (dfree d))) d))).
Proof.
  intros Hij Hi Hj. split; cbn; try done.
  - rewrite (list_insert_insert_ne _ i j), list_insert_insert_eq, list_insert_insert_eq by done.
    by rewrite (list_insert_id _ i), list_insert_id.
  - by rewrite !length_insert.
  - intros m Hm. rewrite !list_lookup_insert_ne; [done| |]; by intros ->.
Qed.

Lemma alloc3_desc_run d :
  tables d ->
  (exists i j k, NoDup [i; j; k] /\ dfree d !! i = Some 1 /\ dfree d !! j = Some 1 /\ dfree d !! k = Some 1 /\
     alloc3_desc d = inr (Some (i, j, k), set_dfree (<[k := 0]> (<[j := 0]> (<[i := 0]> (dfree d)))) d)) \/
  (~ three_free d /\ exists d', alloc3_desc d = inr (None, d') /\ gave_up d d').
Proof.
  intros T. pose proof (tb_bits d T) as Hb. pose proof (tb_free d T) as Hl.
  unfold alloc3_desc, mbind, D_bind.
  destruct (alloc_desc_run d Hb) as [(i & Hi & ->)|[Hn ->]].
  2:{ right. split; [apply (few_free d []); [cbn; lia|]; naive_solver|]. exists d. split; [done|by split]. }
  pose proof (lookup_lt_Some _ _ _ Hi) as Li.
  destruct (alloc_desc_run (set_dfree (<[i := 0]> (dfree d)) d)) as [(j & Hj & ->)|[Hn ->]];
    [by apply bits_insert| |]; cbn [dfree set_dfree] in *.
  2:{ right. split.
      - apply (few_free d [i]); [cbn; lia|]. intros m Hm. apply list_elem_of_singleton.
        destruct (decide (m = i)) as [|Hne]; [done|]. destruct (Hn m). by rewrite list_lookup_insert_ne.
      - rewrite free_desc_run by (cbn; rewrite ?list_lookup_insert_eq; done || lia).
        eexists. split; [done|]. by apply gave_up_one. }
  apply list_lookup_insert_Some in Hj as [(_ & ? & _)|[Hij Hj]]; [done|].
  pose proof (lookup_lt_Some _ _ _ Hj) as Lj.
  destruct (alloc_desc_run (set_dfree (<[j := 0]> (<[i := 0]> (dfree d))) (set_dfree (<[i := 0]> (dfree d)) d)))
    as [(k & Hk & ->)|[Hn ->]]; [by apply (bits_insert (<[i := 0]> (dfree d))), bits_insert| |]; cbn [dfree set_dfree] in *.
  - left. exists i, j, k.
    apply list_lookup_insert_Some in Hk as [(_ & ? & _)|[Hjk Hk]]; [done|].
    apply list_lookup_insert_Some in Hk as [(_ & ? & _)|[Hik Hk]]; [done|].
    split; [|done]. repeat constructor; set_solver.
  - right. split.
    + apply (few_free d [i; j]); [cbn; lia|]. intros m Hm. rewrite !elem_of_cons.
      destruct (decide (m = i)), (decide (m = j)); auto. destruct (Hn m).
      by rewrite !list_lookup_insert_ne.
    + rewrite (free_desc_run _ i); [|lia|cbn; rewrite list_lookup_insert_ne, list_lookup_insert_eq by done; done].
      rewrite (free_desc_run _ j).
      * eexists. split; [done|]. exact (gave_up_two d i j Hij Hi Hj).
      * lia.
      * cbn. rewrite list_lookup_insert_ne, list_lookup_insert_eq by (done || rewrite length_insert; done). done.
Qed.

(** The driver's tables after the request for buffer [b] has been handed over. *)
Definition issue (b : nat) (bn : Z) (w : bool) (i j k : nat) (d : vdisk) : vdisk :=
  mkVdisk
    (<[k := mkVdesc (D_status i) 1 VRING_DESC_F_WRITE 0]>
      (<[j := mkVdesc (D_data b) BSIZE (Z.lor (if w then 0 else VRING_DESC_F_WRITE) VRING_DESC_F_NEXT) k]>
        (<[i := mkVdesc (D_req i) 16 VRING_DESC_F_NEXT j]> (desc d))))
    (u16 (avail_idx d + 1)) (<[Z.to_nat (avail_idx d `mod` NUM) := Z.of_nat i]> (avail_ring d))
    (used_dev d) (used_ring d) (<[k := 0]> (<[j := 0]> (<[i := 0]> (dfree d)))) (used_idx d)
    (alter (fun x => mkInfo (Some b) (info_status x)) i (alter (fun x => mkInfo (info_b x) 255) i (info d)))
    (<[i := mkReq (if w then VIRTIO_BLK_T_OUT else VIRTIO_BLK_T_IN) 0 (u32 (bn * (BSIZE / 512)))]> (ops d))
    (<[b := 1]> (bdisk d)) (wakes d) true (isr d).

Lemma rw_start_run b bn w d :
  tables d ->
  (exists i j k, NoDup [i; j; k] /\ dfree d !! i = Some 1 /\ dfree d !! j = Some 1 /\ dfree d !! k = Some 1 /\
     rw_start b bn w d = inr (Some (i, j, k), issue b bn w i j k d)) \/
  (~ three_free d /\ exists d', rw_start b bn w d = inr (None, d') /\ gave_up d d').
Proof.
  intros T. unfold rw_start, mbind, D_bind.
  destruct (alloc3_desc_run d T) as [(i & j & k & Hd & Hi & Hj & Hk & ->)|(Hn & d' & -> & G)].
  - left. by exists i, j, k.
  - right. split; [done|]. by exists d'.
Qed.

(** The three descriptors of a request, linked in this order. *)
Record chain_ok (d : vdisk) (b : nat) (bn : Z) (w : bool) (i j k : nat) : Prop := {
  ch_nodup : NoDup [i; j; k];
  ch_free : dfree d !! i = Some 0 /\ dfree d !! j = Some 0 /\ dfree d !! k = Some 0;
  ch_head : desc d !! i = Some (mkVdesc (D_req i) 16 VRING_DESC_F_NEXT j);
  ch_data : desc d !! j = Some (mkVdesc (D_data b) BSIZE
              (Z.lor (if w then 0 else VRING_DESC_F_WRITE) VRING_DESC_F_NEXT) k);
  ch_status : desc d !! k = Some (mkVdesc (D_status i) 1 VRING_DESC_F_WRITE 0);
  ch_op : ops d !! i = Some (mkReq (if w then VIRTIO_BLK_T_OUT else VIRTIO_BLK_T_IN) 0
            (u32 (bn * (BSIZE / 512))));
  ch_info : info_b <$> info d !! i = Some (Some b)
}.

Lemma nodup3 (i j k : nat) : NoDup [i; j; k] <-> i <> j /\ i <> k /\ j <> k.
Proof.
  rewrite !NoDup_cons, !not_elem_of_cons. split; [naive_solver|].
  intros (? & ? & ?). repeat split; try done; try apply not_elem_of_nil. constructor.
Qed.

Lemma chain_range d b bn w i j k :
  tables d -> chain_ok d b bn w i j k -> (i < 8 /\ j < 8 /\ k < 8)%nat.
Proof.
  intros T C. rewrite <- (tb_free d T). destruct (ch_free _ _ _ _ _ _ _ C) as (? & ? & ?).
  split_and!; by eapply lookup_lt_Some.
Qed.

Definition finish (i j k : nat) (d : vdisk) : vdisk :=
  freed k (freed j (freed i (set_info (alter (fun x => mkInfo None (info_status x)) i (info d)) d))).

Lemma free_chain_turn f d i x :
  (i < 8)%nat -> dfree d !! i = Some 0 -> desc d !! i = Some x ->
  free_chain_loop (S f) i d =
    if negb (Z.land (v_flags x) VRING_DESC_F_NEXT =? 0) then free_chain_loop f (Z.to_nat (v_next x)) (freed i d)
    else inr (tt, freed i d).
Proof.
  intros Hi Hf Hx. cbn [free_chain_loop]. unfold mbind, D_bind, ask, get_desc.
  rewrite (free_desc_run d i), Hx by done. cbn [default from_option id]. by destruct (negb _).
Qed.

Lemma rw_finish_run d b bn w i j k :
  tables d -> chain_ok d b bn w i j k -> rw_finish i d = inr (tt, finish i j k d).
Proof.
  intros T C. destruct (chain_range d b bn w i j k T C) as (Li & Lj & Lk).
  destruct C as [N (Fi & Fj & Fk) C0 C1 C2 _ _]. apply nodup3 in N as (? & ? & ?).
  unfold rw_finish, mbind, D_bind, upd, finish. set (d0 := set_info _ d).
  unfold free_chain. change (S (Z.to_nat NUM)) with 9%nat.
  rewrite (free_chain_turn 8 d0 _ _ Li Fi C0). cbn [v_flags v_next].
  change (negb (Z.land VRING_DESC_F_NEXT VRING_DESC_F_NEXT =? 0)) with true. cbv iota. rewrite Nat2Z.id.
  erewrite (free_chain_turn _ _ j); [|done|cbn; by rewrite list_lookup_insert_ne..]. cbn [v_flags v_next].
  replace (negb (Z.land (Z.lor _ _) _ =? 0)) with true by (by destruct w). cbv iota. rewrite Nat2Z.id.
  erewrite (free_chain_turn _ _ k); [|done|cbn; by rewrite !list_lookup_insert_ne..]. done.
Qed.

Definition acknowledge (b : nat) (d : vdisk) : vdisk :=
  set_used_idx (u16 (used_idx d + 1)) (add_wake (W_buf b) (set_bdisk b 0 d)).

Lemma intr_turn_run d h b :
  used_idx d <> used_dev d -> used_ring d !! Z.to_nat (used_idx d `mod` NUM) = Some (Z.of_nat h) ->
  info d !! h = Some (mkInfo (Some b) 0) -> intr_turn d = inr (true, acknowledge b d).
Proof.
  intros Hne Hr Hi. unfold intr_turn, mbind, D_bind, ask, upd.
  rewrite (proj2 (Z.eqb_neq _ _)) by done. rewrite Hr. cbn [default from_option id]. by rewrite Nat2Z.id, Hi.
Qed.

Lemma read_chain_run d b bn w i j k :
  chain_ok d b bn w i j k ->
  read_chain d i = Some (mkReq (if w then VIRTIO_BLK_T_OUT else VIRTIO_BLK_T_IN) 0 (u32 (bn * (BSIZE / 512))),
                         b, BSIZE, negb w, i).
Proof.
  intros C. unfold read_chain, get_desc. rewrite (ch_head _ _ _ _ _ _ _ C). cbn [default from_option id v_next v_addr].
  rewrite Nat2Z.id, (ch_data _ _ _ _ _ _ _ C). cbn [default from_option id v_next v_addr v_len v_flags].
  rewrite Nat2Z.id, (ch_status _ _ _ _ _ _ _ C), (ch_op _ _ _ _ _ _ _ C). by destruct w.
Qed.

(** ** The invariant

    [q] are the requests the device has not read, [dn] those it has answered and
    the interrupt handler has not seen. *)

Definition owns (t : thread) (m : nat) : Prop :=
  match t with T_buf _ _ _ (i, j, k) _ => m = i \/ m = j \/ m = k | _ => False end.

(** [fl] are the requests in flight, [dn] those of them that are answered. *)
Definition thread_ok (d : vdisk) (dt : nat -> list Z) (fl dn : list nat) (t : thread) : Prop :=
  match t with
  | T_idle => True
  | T_desc b bn w a =>
      (length (dt b) = Z.to_nat BSIZE /\ 0 <= bn < 2^31) /\ (a = true -> ~ three_free d)
  | T_buf b bn w (i, j, k) a =>
      (length (dt b) = Z.to_nat BSIZE /\ 0 <= bn < 2^31) /\ chain_ok d b bn w i j k /\
      (bdisk d b = 1 <-> i ∈ fl) /\ (i ∈ dn -> info_status <$> info d !! i = Some 0) /\
      (a = true -> bdisk d b = 1)
  end.

(** The registers and the interrupt lines: the device has been told of a request
    that waits in the ring; the handler runs, or will run, when there is an answer to
    look at; an answer that was announced and not acknowledged has its interrupt
    still to come. *)
Record lines (x : config) (q dn : list nat) : Prop := {
  ln_notified : q <> [] -> notified (dk x) = true;
  ln_irq : dn <> [] -> hand x = true \/ irq x = true;
  ln_isr : Z.testbit (isr (dk x)) 0 = true -> irq x = true
}.

Record inv (x : config) (q dn : list nat) : Prop := {
  iv_tables : tables (dk x);
  iv_seen : avail_idx (dk x) = u16 (seen x + length q);
  iv_avail : ring_holds NUM (avail_ring (dk x)) (seen x) (Z.of_nat <$> q);
  iv_used_idx : used_dev (dk x) = u16 (used_idx (dk x) + length dn);
  iv_used : ring_holds NUM (used_ring (dk x)) (used_idx (dk x)) (Z.of_nat <$> dn);
  iv_words : u16 (seen x) = seen x /\ u16 (used_idx (dk x)) = used_idx (dk x);
  iv_nodup : NoDup (q ++ pend x ++ dn);
  iv_heads : forall h, h ∈ q ++ pend x ++ dn ->
    exists p b bn w j k a, thr x p = T_buf b bn w (h, j, k) a;
  iv_thr : forall p, thread_ok (dk x) (data x) (q ++ pend x ++ dn) dn (thr x p);
  iv_bufs : forall p p' b, uses (thr x p) b -> uses (thr x p') b -> p = p';
  iv_own : forall p p' m, owns (thr x p) m -> owns (thr x p') m -> p = p';
  iv_free : forall m, dfree (dk x) !! m = Some 0 -> exists p, owns (thr x p) m;
  iv_lines : lines x q dn
}.

Lemma uses_woken ws t b : uses (woken ws t) b <-> uses t b.
Proof. by destruct t. Qed.

Lemma owns_woken ws t m : owns (woken ws t) m <-> owns t m.
Proof. by destruct t. Qed.

Lemma thread_ok_woken d dt fl dn ws t : thread_ok d dt fl dn t -> thread_ok d dt fl dn (woken ws t).
Proof.
  destruct t as [|b bn w a|b bn w [[i j] k] a]; cbn; [done|..].
  - intros [Hc Ha]. split; [done|]. intros [-> _]%andb_true_iff. by apply Ha.
  - intros (Hc & C & Hf & Hs & Ha). do 4 (split; [done|]). intros [-> _]%andb_true_iff. by apply Ha.
Qed.

(** A thread whose condition only depends on what two states agree about. *)
Lemma chain_ok_frame d d' b bn w i j k :
  chain_ok d b bn w i j k ->
  (forall m, m = i \/ m = j \/ m = k -> dfree d' !! m = dfree d !! m /\ desc d' !! m = desc d !! m) ->
  ops d' !! i = ops d !! i -> info_b <$> info d' !! i = info_b <$> info d !! i ->
  chain_ok d' b bn w i j k.
Proof.
  intros [N (F0 & F1 & F2) C0 C1 C2 Co Ci] Hm Ho Hi.
  destruct (Hm i), (Hm j), (Hm k); auto. split; [done|split_and!; congruence|congruence..].
Qed.

Lemma heads_range x q dn h : inv x q dn -> h ∈ q ++ pend x ++ dn -> (h < 8)%nat.
Proof.
  intros I Hh. destruct (iv_heads x q dn I h Hh) as (p & b & bn & w & j & k & a & E).
  pose proof (iv_thr x q dn I p) as Ht. rewrite E in Ht. destruct Ht as (_ & C & _).
  apply (chain_range _ _ _ _ _ _ _ (iv_tables x q dn I) C).
Qed.

(** There are never more than eight requests in flight. *)
Lemma flight_bound x q dn : inv x q dn -> (length (q ++ pend x ++ dn) <= 8)%nat.
Proof.
  intros I. rewrite <- (length_seq 8 0). apply submseteq_length, NoDup_submseteq; [apply (iv_nodup x q dn I)|].
  intros h Hh%(heads_range x q dn h I). apply elem_of_seq. lia.
Qed.

(** The owner of a request in flight. *)
Lemma head_owner x q dn h :
  inv x q dn -> h ∈ q ++ pend x ++ dn ->
  exists p b bn w j k a, thr x p = T_buf b bn w (h, j, k) a /\
    thread_ok (dk x) (data x) (q ++ pend x ++ dn) dn (T_buf b bn w (h, j, k) a).
Proof.
  intros I Hh. destruct (iv_heads x q dn I h Hh) as (p & b & bn & w & j & k & a & E).
  exists p, b, bn, w, j, k, a. split; [done|]. rewrite <- E. apply (iv_thr x q dn I).
Qed.

(** What a transition may change without disturbing thread [t]. *)
Record undisturbed (d d' : vdisk) (dt dt' : nat -> list Z) (fl fl' dn dn' : list nat) (t : thread) : Prop := {
  un_desc : forall m, owns t m -> dfree d' !! m = dfree d !! m /\ desc d' !! m = desc d !! m;
  un_ops : forall m, owns t m -> ops d' !! m = ops d !! m;
  un_info : forall m, owns t m -> info_b <$> info d' !! m = info_b <$> info d !! m;
  un_buf : forall b, uses t b -> bdisk d' b = bdisk d b /\ length (dt' b) = length (dt b);
  un_flight : forall m, owns t m -> m ∈ fl' <-> m ∈ fl;
  un_done : forall m, owns t m -> m ∈ dn' ->
    (m ∈ dn /\ info d' !! m = info d !! m) \/ info_status <$> info d' !! m = Some 0;
  un_wait : forall b bn w, t = T_desc b bn w true -> three_free d' -> three_free d
}.

Lemma thread_ok_frame d d' dt dt' fl fl' dn dn' t :
  undisturbed d d' dt dt' fl fl' dn dn' t -> thread_ok d dt fl dn t -> thread_ok d' dt' fl' dn' t.
Proof.
  intros [Hd Ho Hi Hb Hf Hn Hw]. destruct t as [|b bn w a|b bn w [[i j] k] a]; cbn in *; [done|..].
  - destruct (Hb b eq_refl) as [_ ->]. intros [Hc Ha]. split; [done|]. intros -> H3. by eapply Ha, Hw.
  - destruct (Hb b eq_refl) as [-> ->]. intros (Hc & C & Hfl & Hs & Ha). split; [done|].
    split; [eapply chain_ok_frame; eauto|]. split; [rewrite Hf; auto|]. split; [|done].
    intros H. destruct (Hn i) as [[Hin ->]|]; auto.
Qed.

Lemma u16_add_l x y : u16 (u16 x + y) = u16 (x + y).
Proof. unfold u16. apply Zplus_mod_idemp_l. Qed.

Lemma NUM_div : (NUM | 2^16).
Proof. by exists (2^13). Qed.

(** Every transition but a call leaves the owners as they are. *)
Lemma inv_take x h q dn :
  inv x (h :: q) dn ->
  inv (mkConfig (dk x) (u16 (seen x + 1)) (pend x ++ [h]) (data x) (dsk x) (thr x) (irq x) (hand x)) q dn.
Proof.
  intros I. assert (Hp : (h :: q) ++ pend x ++ dn ≡ₚ q ++ (pend x ++ [h]) ++ dn).
  { rewrite <- app_assoc. cbn. by rewrite <- (Permutation_middle (pend x)), <- (Permutation_middle q). }
  destruct I as [T Hs Ha Hu Hr [Ws Wu] Nd Hh Ht Hb Ho Hf L]. split; cbn [dk seen pend data dsk thr] in *; try done.
  - rewrite Hs, u16_add_l. f_equal. cbn [length]. lia.
  - eapply ring_pop; [done|apply NUM_div|done|]. exact Ha.
  - split; [|done]. unfold u16. by rewrite Z.mod_mod.
  - by rewrite <- Hp.
  - intros h'. rewrite <- Hp. apply Hh.
  - intros p. eapply thread_ok_frame; [|apply Ht]. split; try done; [|naive_solver].
    intros m _. by rewrite Hp.
  - by destruct L; split; auto.
Qed.

Lemma lines_answer x q dn h pe dt ds :
  lines x q dn ->
  lines (mkConfig (answer h h 0 (dk x)) (seen x) pe dt ds (thr x) (irq x || raises (dk x)) (hand x)) q (dn ++ [h]).
Proof.
  intros [Ln Li Ls]. assert (Hi : irq x || raises (dk x) = true).
  { unfold raises. destruct (Z.testbit (isr (dk x)) 0) eqn:E; [by rewrite Ls|apply orb_true_r]. }
  split; [exact Ln|by right|done].
Qed.

Lemma inv_answer x pre h post q dn dt ds :
  inv x q dn -> pend x = pre ++ h :: post ->
  (forall b, length (dt b) = length (data x b)) ->
  inv (mkConfig (answer h h 0 (dk x)) (seen x) (pre ++ post) dt ds (thr x)
    (irq x || raises (dk x)) (hand x)) q (dn ++ [h]).
Proof.
  intros I Hpe Hl. pose proof (flight_bound x q dn I) as Hle.
  assert (Hp : q ++ pend x ++ dn ≡ₚ q ++ (pre ++ post) ++ dn ++ [h]).
  { rewrite Hpe. f_equiv. rewrite <- !app_assoc. f_equiv. cbn. rewrite app_assoc, Permutation_middle.
    by rewrite <- app_assoc, (Permutation_app_comm dn). }
  assert (Hhi : h ∈ q ++ pend x ++ dn) by (rewrite Hpe; set_solver).
  assert (Hb1 : (length dn < 8)%nat) by (rewrite Hpe, !length_app in Hle; cbn in Hle; lia).
  pose proof (heads_range x q dn h I Hhi) as Hh8.
  destruct I as [T Hs Ha Hu Hr [Ws Wu] Nd Hh Ht Hb Ho Hf L]. split; cbn [dk seen pend data dsk thr] in *; try done.
  - destruct T. split; cbn; rewrite ?length_insert, ?length_alter; done.
  - cbn. rewrite Hu, u16_add_l, length_app. f_equal. cbn. lia.
  - cbn. rewrite fmap_app, Hu. unfold u16.
    rewrite <- (length_fmap Z.of_nat dn). apply (ring_push NUM (2^16)); try done.
    + apply NUM_div.
    + apply (tb_used _ T).
    + rewrite length_fmap. unfold NUM. lia.
  - by rewrite <- Hp.
  - intros h'. rewrite <- Hp. apply Hh.
  - intros p. eapply thread_ok_frame; [|apply Ht]. split; try done.
    + intros m _. cbn. destruct (decide (m = h)) as [->|]; [|by rewrite list_lookup_alter_ne].
      rewrite list_lookup_alter_eq. by destruct (info (dk x) !! h).
    + intros m _. by rewrite Hp.
    + intros m _ Hm. cbn. destruct (decide (m = h)) as [->|Hne].
      * right. rewrite list_lookup_alter_eq. destruct (lookup_lt_is_Some_2 (info (dk x)) h) as [y ->]; [by rewrite (tb_info _ T)|done].
      * left. rewrite list_lookup_alter_ne by done. set_solver.
  - by apply lines_answer.
Qed.

Lemma inv_acknowledge x p h b bn w j k a q dn :
  inv x q (h :: dn) -> thr x p = T_buf b bn w (h, j, k) a ->
  inv (settle (acknowledge b (dk x)) x) q dn.
Proof.
  intros [T Hs Ha Hu Hr [Ws Wu] Nd Hh Ht Hb Ho Hf L] Hp.
  assert (Hfl : q ++ pend x ++ h :: dn ≡ₚ h :: q ++ pend x ++ dn)
    by (by rewrite <- (Permutation_middle (pend x)), <- (Permutation_middle q)).
  rewrite Hfl in Nd. apply NoDup_cons in Nd as [Nh Nd].
  split; cbn [dk seen pend data dsk thr settle clear_wakes acknowledge set_used_idx add_wake set_bdisk] in *; try done.
  - by destruct T.
  - cbn. rewrite Hu, u16_add_l. f_equal. cbn [length]. lia.
  - cbn. eapply ring_pop; [done|apply NUM_div|done|]. exact Hr.
  - split; [done|]. cbn. unfold u16. by rewrite Z.mod_mod.
  - intros h' Hin. destruct (Hh h') as (p' & b' & bn' & w' & j' & k' & a' & E); [rewrite Hfl; set_solver|].
    exists p', b', bn', w', j', k'. eexists. by rewrite E.
  - intros p'. destruct (decide (p' = p)) as [->|Hne].
    + specialize (Ht p). rewrite Hp in Ht |- *. destruct Ht as (Hc & C & _ & Hst & _).
      cbn [woken thread_ok]. split; [done|]. split; [by eapply chain_ok_frame|].
      cbn [bdisk clear_wakes acknowledge set_used_idx add_wake set_bdisk]. rewrite fn_lookup_insert.
      split; [split; [done|by intros ?%Nh]|]. split; [intros ?; apply Hst; set_solver|].
      rewrite bool_decide_eq_true_2 by (cbn; set_solver). by rewrite andb_false_r.
    + eapply thread_ok_frame; [|apply thread_ok_woken, Ht]. split; try done.
      * intros b' Hu'%uses_woken. cbn. rewrite fn_lookup_insert_ne; [done|].
        intros <-. destruct Hne. apply (Hb p' p b Hu'). by rewrite Hp.
      * intros m Hm%owns_woken. rewrite Hfl, elem_of_cons. split; [auto|]. intros [->|]; [|done].
        destruct Hne. apply (Ho p' p h Hm). rewrite Hp. by left.
      * intros m _ Hm. left. split; [set_solver|done].
  - intros p1 p2 b'. rewrite !uses_woken. apply Hb.
  - intros p1 p2 m. rewrite !owns_woken. apply Ho.
  - intros m Hm. destruct (Hf m Hm) as [p' Hm']. exists p'. by apply owns_woken.
  - destruct L as [Ln Li Ls]. split; [exact Ln|intros _; by apply Li|exact Ls].
Qed.

Lemma inv_check x p b bn w idx q dn :
  inv x q dn -> thr x p = T_buf b bn w idx false -> bdisk (dk x) b = 1 ->
  inv (set_thr p (T_buf b bn w idx true) x) q dn.
Proof.
  intros [T Hs Ha Hu Hr W Nd Hh Ht Hb Ho Hf L] Hp Hd.
  assert (Hus : forall p' b', uses (<[p := T_buf b bn w idx true]> (thr x) p') b' <-> uses (thr x p') b').
  { intros p' b'. destruct (decide (p' = p)) as [->|]; [|by rewrite fn_lookup_insert_ne].
    by rewrite fn_lookup_insert, Hp. }
  assert (How : forall p' m, owns (<[p := T_buf b bn w idx true]> (thr x) p') m <-> owns (thr x p') m).
  { intros p' m. destruct (decide (p' = p)) as [->|]; [|by rewrite fn_lookup_insert_ne].
    by rewrite fn_lookup_insert, Hp. }
  split; cbn [dk seen pend data dsk thr set_thr] in *; try done.
  - intros h Hin. destruct (Hh h Hin) as (p' & b' & bn' & w' & j' & k' & a' & E).
    destruct (decide (p' = p)) as [->|].
    + rewrite Hp in E. simplify_eq. exists p, b', bn', w', j', k', true. by rewrite fn_lookup_insert.
    + exists p', b', bn', w', j', k', a'. by rewrite fn_lookup_insert_ne.
  - intros p'. destruct (decide (p' = p)) as [->|]; [|by rewrite fn_lookup_insert_ne].
    rewrite fn_lookup_insert. specialize (Ht p). rewrite Hp in Ht. destruct idx as [[i j] k].
    destruct Ht as (Hc & C & Hx & Hy & _). by do 4 (split; [done|]).
  - intros p1 p2 b'. rewrite !Hus. apply Hb.
  - intros p1 p2 m. rewrite !How. apply Ho.
  - intros m Hm. destruct (Hf m Hm) as [p' Hm']. exists p'. by apply How.
  - by destruct L.
Qed.

(** The rest of the invariant is not about the registers. *)
Lemma inv_registers x n v i h q dn :
  inv x q dn -> let y := set_lines (set_isr v (set_notified n (dk x))) i h x in
  lines y q dn -> inv y q dn.
Proof.
  intros [T Hs Ha Hu Hr W Nd Hh Ht Hb Ho Hf _] y L. split; try done; [by destruct T|].
  intros p. eapply thread_ok_frame; [|apply Ht]. split; try done. intros m _ Hm. by left.
Qed.

(** The interrupt handler acknowledges and starts. *)
Lemma inv_enter x d q dn :
  inv x q dn -> intr_ack (dk x) = inr (tt, d) -> inv (set_lines d false true x) q dn.
Proof.
  intros I E. unfold intr_ack, upd in E. injection E as <-. destruct (iv_lines _ _ _ I) as [Ln Li Ls].
  apply (inv_registers x (notified (dk x)) _ _ _ _ _ I).
  split; [exact Ln|by left|]. cbn [dk set_lines isr set_isr].
  rewrite Z.ldiff_spec, Z.land_spec. by destruct (Z.testbit (isr (dk x)) 0).
Qed.

(** It ends when it has seen every answer. *)
Lemma inv_leave x q : inv x q [] -> inv (set_lines (dk x) (irq x) false x) q [].
Proof.
  intros I. destruct (iv_lines _ _ _ I) as [Ln Li Ls].
  pose proof (inv_registers x (notified (dk x)) (isr (dk x)) (irq x) false q [] I) as H.
  destruct x as [[] ? ? ? ? ? ? ?]. by apply H.
Qed.

(** The device stops to look at the ring when it has read all of it. *)
Lemma inv_rest x dn :
  inv x [] dn -> inv (set_lines (set_notified false (dk x)) (irq x) (hand x) x) [] dn.
Proof.
  intros I. destruct (iv_lines _ _ _ I) as [Ln Li Ls]. by apply (inv_registers x false (isr (dk x)) _ _ _ _ I).
Qed.

(** A transition that replaces thread [p] and wakes others. *)
Lemma thr_settle_ne d x p t p' :
  p' <> p -> thr (set_thr p t (settle d x)) p' = woken (wakes d) (thr x p').
Proof. intros. cbn. by rewrite fn_lookup_insert_ne. Qed.

Lemma thr_settle_eq d x p t : thr (set_thr p t (settle d x)) p = t.
Proof. cbn. by rewrite fn_lookup_insert. Qed.

Lemma inv_return x p b bn w i j k q dn :
  inv x q dn -> thr x p = T_buf b bn w (i, j, k) false -> bdisk (dk x) b <> 1 ->
  inv (set_thr p T_idle (settle (finish i j k (dk x)) x)) q dn.
Proof.
  intros [T Hs Ha Hu Hr W Nd Hh Ht Hb Ho Hf L] Hp Hd.
  pose proof (Ht p) as Hpo. rewrite Hp in Hpo. destruct Hpo as (_ & C & Hfl & _).
  assert (Hi : i ∉ q ++ pend x ++ dn) by (rewrite <- Hfl; done).
  assert (Hne : forall p' m, p' <> p -> owns (thr x p') m -> m <> i /\ m <> j /\ m <> k).
  { intros p' m Hpp Hm. split_and!; intros ->; destruct Hpp; eapply Ho; try exact Hm; rewrite Hp; cbn; auto. }
  split; try done.
  - destruct T. split; cbn; rewrite ?length_insert, ?length_alter; try done.
    repeat (apply Forall_insert; [|auto]). done.
  - intros h Hin. destruct (Hh h Hin) as (p' & b' & bn' & w' & j' & k' & a' & E).
    assert (p' <> p) by (intros ->; rewrite Hp in E; simplify_eq; done).
    exists p', b', bn', w', j', k'. eexists. by rewrite thr_settle_ne, E.
  - intros p'. destruct (decide (p' = p)) as [->|Hpp]; [by rewrite thr_settle_eq|].
    rewrite thr_settle_ne by done. eapply thread_ok_frame; [|apply thread_ok_woken, Ht].
    split; try done.
    + intros m Hm%owns_woken%Hne; [|done]. cbn. by rewrite !list_lookup_insert_ne by naive_solver.
    + intros m Hm%owns_woken%Hne; [|done]. cbn. by rewrite list_lookup_alter_ne by naive_solver.
    + intros m Hm%owns_woken%Hne Hin; [|done]. left. split; [done|]. cbn.
      by rewrite list_lookup_alter_ne by naive_solver.
    + intros b' bn' w' E. destruct (thr x p'); try done. injection E as _ _ _ E.
      rewrite bool_decide_eq_true_2 in E by (cbn; set_solver).
      by rewrite andb_false_r in E.
  - intros p1 p2 b'. destruct (decide (p1 = p)) as [->|]; [by rewrite thr_settle_eq|].
    destruct (decide (p2 = p)) as [->|]; [by rewrite thr_settle_eq|].
    rewrite !thr_settle_ne, !uses_woken by done. apply Hb.
  - intros p1 p2 m. destruct (decide (p1 = p)) as [->|]; [by rewrite thr_settle_eq|].
    destruct (decide (p2 = p)) as [->|]; [by rewrite thr_settle_eq|].
    rewrite !thr_settle_ne, !owns_woken by done. apply Ho.
  - intros m Hm. cbn in Hm. repeat (apply list_lookup_insert_Some in Hm as [(_ & ? & _)|[? Hm]]; [done|]).
    destruct (Hf m Hm) as [p' Hm']. exists p'. rewrite thr_settle_ne; [by apply owns_woken|].
    intros ->. rewrite Hp in Hm'. cbn in Hm'. naive_solver.
  - by destruct L.
Qed.

(** Process [p] is about to allocate descriptors. *)
Record ready (x : config) (p b : nat) (bn : Z) : Prop := {
  rd_own : forall m, ~ owns (thr x p) m;
  rd_buf : forall p', p' <> p -> ~ uses (thr x p') b;
  rd_call : length (data x b) = Z.to_nat BSIZE /\ 0 <= bn < 2^31
}.

Lemma owned_busy x q dn p m : inv x q dn -> owns (thr x p) m -> dfree (dk x) !! m = Some 0.
Proof.
  intros I Hm. pose proof (iv_thr x q dn I p) as Ht. destruct (thr x p) as [| |b bn w [[i j] k] a]; try done.
  destruct Ht as (_ & C & _). destruct (ch_free _ _ _ _ _ _ _ C) as (? & ? & ?). by destruct Hm as [->|[->| ->]].
Qed.

(** Threads other than [p] keep their buffers when [p] starts to use [b]. *)
Lemma bufs_start x q dn p b bn d t :
  inv x q dn -> ready x p b bn -> (forall b', uses t b' -> b' = b) ->
  forall p1 p2 b', uses (thr (set_thr p t (settle d x)) p1) b' ->
    uses (thr (set_thr p t (settle d x)) p2) b' -> p1 = p2.
Proof.
  intros I R Ht p1 p2 b'.
  destruct (decide (p1 = p)) as [->|], (decide (p2 = p)) as [->|]; [done|..];
    rewrite ?thr_settle_eq, ?thr_settle_ne, ?uses_woken by done.
  - intros ->%Ht Hu. by destruct (rd_buf x p b bn R p2).
  - intros Hu ->%Ht. by destruct (rd_buf x p b bn R p1).
  - apply (iv_bufs x q dn I).
Qed.

Lemma inv_wait x p b bn w d' q dn :
  inv x q dn -> ready x p b bn -> gave_up (dk x) d' -> ~ three_free (dk x) ->
  inv (set_thr p (T_desc b bn w true) (settle d' x)) q dn.
Proof.
  intros I R G N3. pose proof (owned_busy x q dn) as Hbusy.
  pose proof (bufs_start x q dn p b bn d' (T_desc b bn w true) I R) as Hbufs.
  destruct G as [Gf Gl Gd [Ga1 Ga2] (Gu1 & Gu2 & Gu3) Gi Go Gb [Gn Gs]].
  assert (N3' : ~ three_free (clear_wakes d')) by (unfold three_free; cbn; by rewrite Gf).
  pose proof I as [T Hs Ha Hu Hr W Nd Hh Ht Hb Ho Hf L].
  split; cbn [dk seen pend settle set_thr data]; try done.
  - destruct T. split; cbn; congruence.
  - cbn. congruence.
  - cbn. by rewrite Ga2.
  - cbn. congruence.
  - cbn. by rewrite Gu2, Gu3.
  - cbn. by rewrite Gu3.
  - intros h Hin. destruct (Hh h Hin) as (p' & b' & bn' & w' & j' & k' & a' & E).
    assert (p' <> p) by (intros ->; destruct (rd_own _ _ _ _ R h); rewrite E; by left).
    exists p', b', bn', w', j', k'. eexists. by rewrite thr_settle_ne, E.
  - intros p'. destruct (decide (p' = p)) as [->|Hpp].
    { rewrite thr_settle_eq. by split; [apply (rd_call _ _ _ _ R)|]. }
    rewrite thr_settle_ne by done. eapply thread_ok_frame; [|apply thread_ok_woken, Ht].
    split; try done; cbn.
    + intros m Hm%owns_woken. rewrite Gf. split; [done|]. apply Gd. by rewrite (Hbusy p' m I Hm).
    + intros m _. by rewrite Go.
    + intros m _. by rewrite Gi.
    + intros b' _. by rewrite Gb.
    + intros m _ Hin. left. by rewrite Gi.
  - apply Hbufs. by intros ? <-.
  - intros p1 p2 m. destruct (decide (p1 = p)) as [->|]; [by rewrite thr_settle_eq|].
    destruct (decide (p2 = p)) as [->|]; [by rewrite thr_settle_eq|].
    rewrite !thr_settle_ne, !owns_woken by done. apply Ho.
  - intros m Hm. cbn in Hm. rewrite Gf in Hm. destruct (Hf m Hm) as [p' Hm'].
    exists p'. rewrite thr_settle_ne; [by apply owns_woken|]. intros ->. by destruct (rd_own _ _ _ _ R m).
  - destruct L as [Ln Li Ls]. split; cbn; rewrite ?Gn, ?Gs; done.
Qed.

(** Reading a table after writes to other entries. *)
Ltac table_lookup :=
  repeat first [ rewrite list_lookup_insert_ne by done
               | rewrite list_lookup_insert_eq by (rewrite ?length_insert; lia) ].

Lemma issue_chain b bn w i j k d :
  tables d -> NoDup [i; j; k] -> (i < 8)%nat -> (j < 8)%nat -> (k < 8)%nat ->
  chain_ok (issue b bn w i j k d) b bn w i j k.
Proof.
  intros T Hd Hi Hj Hk. pose proof Hd as (? & ? & ?)%nodup3. destruct T as [T1 _ _ T4 T5 T6 _].
  split; cbn; try done; try by table_lookup.
  rewrite !list_lookup_alter_eq. by destruct (lookup_lt_is_Some_2 (info d) i) as [y ->]; [rewrite T5|].
Qed.

(** A descriptor that is free has no owner, and no request in flight starts
    with it. *)
Lemma free_unowned x q dn m : inv x q dn -> dfree (dk x) !! m = Some 1 ->
  (forall p, ~ owns (thr x p) m) /\ m ∉ q ++ pend x ++ dn.
Proof.
  intros I Hm. assert (Hn : forall p, ~ owns (thr x p) m).
  { intros p Ho. rewrite (owned_busy x q dn p m I Ho) in Hm. done. }
  split; [done|]. intros (p & b & bn & w & j & k & a & E)%(iv_heads x q dn I).
  apply (Hn p). rewrite E. by left.
Qed.

Lemma issue_tables b bn w i j k d : tables d -> tables (issue b bn w i j k d).
Proof.
  intros []. split; cbn; rewrite ?length_insert, ?length_alter; try done.
  repeat (apply Forall_insert; [|auto]). done.
Qed.

(** The threads that do not start a request see nothing of it. *)
Lemma issue_undisturbed x p p' b bn w i j k q dn ws :
  inv x q dn -> ready x p b bn -> NoDup [i; j; k] -> p' <> p ->
  dfree (dk x) !! i = Some 1 -> dfree (dk x) !! j = Some 1 -> dfree (dk x) !! k = Some 1 ->
  undisturbed (dk x) (clear_wakes (issue b bn w i j k (dk x))) (data x) (data x)
    (q ++ pend x ++ dn) ((q ++ [i]) ++ pend x ++ dn) dn dn (woken ws (thr x p')).
Proof.
  intros I R Hd Hp Fi Fj Fk. destruct (free_unowned x q dn i I Fi) as [Oi Ni].
  assert (Hne : forall m, owns (woken ws (thr x p')) m -> m <> i /\ m <> j /\ m <> k).
  { assert (Hno : forall m, dfree (dk x) !! m = Some 1 -> ~ owns (thr x p') m)
      by (intros m Hm; apply (free_unowned x q dn m I Hm)).
    intros m Hm%owns_woken. split_and!; intros ->; (eapply Hno; [|exact Hm]; done). }
  split; cbn.
  - intros m (? & ? & ?)%Hne. split; by table_lookup.
  - intros m (? & ? & ?)%Hne. by table_lookup.
  - intros m (? & ? & ?)%Hne. by rewrite !list_lookup_alter_ne.
  - intros b' Hu%uses_woken. split; [|done]. apply fn_lookup_insert_ne.
    intros <-. by destruct (rd_buf _ _ _ _ R p').
  - intros m (? & ? & ?)%Hne. set_solver.
  - intros m (? & ? & ?)%Hne Hin. left. by rewrite !list_lookup_alter_ne.
  - intros b' bn' w' _ (i' & j' & k' & Hd' & Hi & Hj & Hk). exists i', j', k'. split; [done|].
    cbn in Hi, Hj, Hk. by rewrite !list_lookup_insert_Some in Hi, Hj, Hk; naive_solver.
Qed.

Lemma lookup_lt3 {A} (l : list A) i j k c :
  l !! i = Some c -> l !! j = Some c -> l !! k = Some c -> (i < length l /\ j < length l /\ k < length l)%nat.
Proof. intros. split_and!; by eapply lookup_lt_Some. Qed.

(** The ring has room for a request whose head is free. *)
Lemma queue_room x q dn i : inv x q dn -> dfree (dk x) !! i = Some 1 -> (length q < 8)%nat.
Proof.
  intros I Fi. pose proof (lookup_lt_Some _ _ _ Fi) as Li. rewrite (tb_free _ (iv_tables _ _ _ I)) in Li.
  destruct (free_unowned x q dn i I Fi) as [_ Ni]. pose proof (iv_nodup x q dn I) as Nd.
  assert (Hs : i :: q ++ pend x ++ dn ⊆+ seq 0 8).
  { apply NoDup_submseteq; [by constructor|]. intros h [->|Hh]%elem_of_cons; apply elem_of_seq; [lia|].
    pose proof (heads_range x q dn h I Hh). lia. }
  apply submseteq_length in Hs. rewrite length_seq in Hs. cbn in Hs. rewrite length_app in Hs. lia.
Qed.

Lemma inv_issue x p b bn w i j k q dn :
  inv x q dn -> ready x p b bn -> NoDup [i; j; k] ->
  dfree (dk x) !! i = Some 1 -> dfree (dk x) !! j = Some 1 -> dfree (dk x) !! k = Some 1 ->
  inv (set_thr p (T_buf b bn w (i, j, k) false) (settle (issue b bn w i j k (dk x)) x)) (q ++ [i]) dn.
Proof.
  intros I R Hd Fi Fj Fk. set (d' := issue b bn w i j k (dk x)).
  destruct (free_unowned x q dn i I Fi) as [Oi Ni].
  assert (Hno : forall p' m, owns (T_buf b bn w (i, j, k) false) m -> ~ owns (thr x p') m).
  { intros p' m Hm. apply (free_unowned x q dn m I). by destruct Hm as [->|[->| ->]]. }
  destruct (lookup_lt3 _ i j k 1 Fi Fj Fk) as (Li & Lj & Lk).
  assert (Hfb : (length q < 8)%nat) by (by eapply queue_room).
  pose proof (bufs_start x q dn p b bn d' (T_buf b bn w (i, j, k) false) I R) as Hbufs.
  pose proof (iv_tables _ _ _ I) as T. pose proof (iv_thr _ _ _ I) as Ht.
  rewrite (tb_free _ T) in Li, Lj, Lk.
  pose proof (fun p' Hp => issue_undisturbed x p p' b bn w i j k q dn (wakes d') I R Hd Hp Fi Fj Fk) as Hun.
  assert (Hp : q ++ [i] ++ pend x ++ dn ≡ₚ i :: q ++ pend x ++ dn) by (symmetry; apply Permutation_middle).
  rewrite app_assoc in Hp.
  destruct I as [_ Hs Ha Hu Hr W Nd Hh _ Hb Ho Hf L].
  split; cbn [dk seen pend settle set_thr data]; try done.
  - destruct (issue_tables b bn w i j k _ T). by split.
  - cbn. rewrite Hs, u16_add_l, length_app. f_equal. cbn. lia.
  - cbn. rewrite fmap_app, Hs. unfold u16. rewrite <- (length_fmap Z.of_nat q).
    apply (ring_push NUM (2^16)); try done; [apply NUM_div|apply (tb_avail _ T)|].
    rewrite length_fmap. unfold NUM. lia.
  - rewrite Hp. by constructor.
  - intros h. rewrite Hp, elem_of_cons. intros [->|Hin].
    { exists p, b, bn, w, j, k, false. apply thr_settle_eq. }
    destruct (Hh h Hin) as (p' & b' & bn' & w' & j' & k' & a' & E).
    assert (p' <> p) by (intros ->; destruct (rd_own _ _ _ _ R h); rewrite E; by left).
    exists p', b', bn', w', j', k'. eexists. by rewrite thr_settle_ne, E.
  - intros p'. destruct (decide (p' = p)) as [->|Hpp].
    { rewrite thr_settle_eq. split; [apply (rd_call _ _ _ _ R)|].
      split; [by eapply chain_ok_frame; [by apply issue_chain|..]|]. split; [|split; [intros Hin; set_solver|done]].
      cbn. rewrite fn_lookup_insert, Hp. set_solver. }
    rewrite thr_settle_ne by done. eapply thread_ok_frame; [by apply Hun|apply thread_ok_woken, Ht].
  - apply Hbufs. by intros ? <-.
  - intros p1 p2 m.
    destruct (decide (p1 = p)) as [->|], (decide (p2 = p)) as [->|]; [done|..];
      rewrite ?thr_settle_eq, ?thr_settle_ne, ?owns_woken by done; [| |apply Ho].
    + intros Hm Hm'. by destruct (Hno p2 m).
    + intros Hm' Hm. by destruct (Hno p1 m).
  - intros m Hm. destruct (decide (owns (T_buf b bn w (i, j, k) false) m)) as [Hm'|Hm'].
    { exists p. by rewrite thr_settle_eq. }
    cbn in Hm, Hm'. rewrite !list_lookup_insert_ne in Hm by naive_solver.
    destruct (Hf m Hm) as [p' Ho']. exists p'. rewrite thr_settle_ne; [by apply owns_woken|].
    intros ->. by destruct (rd_own _ _ _ _ R m).
  - destruct L as [_ Lq Ls]. by split.
Qed.

Lemma inv_store x b bs q dn :
  inv x q dn -> (forall p, ~ uses (thr x p) b) ->
  inv (mkConfig (dk x) (seen x) (pend x) (<[b := bs]> (data x)) (dsk x) (thr x) (irq x) (hand x)) q dn.
Proof.
  intros [T Hs Ha Hu Hr W Nd Hh Ht Hb Ho Hf L] Hn. split; cbn [dk seen pend data dsk thr]; try done.
  2:{ by destruct L. }
  intros p. eapply thread_ok_frame; [|apply Ht]. split; try done; [|naive_solver].
  intros b' Hu'. split; [done|]. rewrite fn_lookup_insert_ne; [done|]. intros <-. by destruct (Hn p).
Qed.

Lemma inv_start dt ds : inv (start dt ds) [] [].
Proof.
  split; cbn; try done; try set_solver.
  - split; try done. by repeat (constructor; [auto|]).
  - constructor.
  - intros m Hm. do 8 (destruct m as [|m]; [done|]). done.
Qed.

(** ** The abstract disk

    It holds whole blocks.  A call is idle, or busy and [moved] says whether its
    block has been copied; this happens in one step. *)

Inductive athread : Type :=
| A_idle
| A_busy (b : nat) (bn : Z) (w moved : bool).

Record adisk : Type := mkAdisk {
  a_data : nat -> list Z;
  a_blocks : Z -> list Z;
  a_thr : nat -> athread
}.

Definition a_uses (t : athread) (b : nat) : Prop :=
  match t with A_idle => False | A_busy b' _ _ _ => b' = b end.

(** The copy of one block, as [virtio_disk_rw] of [Bio.v] does it. *)
Definition a_move (p b : nat) (bn : Z) (w : bool) (a : adisk) : adisk :=
  mkAdisk (if w then a_data a else <[b := a_blocks a bn]> (a_data a))
          (if w then <[bn := a_data a b]> (a_blocks a) else a_blocks a)
          (<[p := A_busy b bn w true]> (a_thr a)).

Inductive astep : adisk -> event -> adisk -> Prop :=
| as_store a b bs :
    (forall p, ~ a_uses (a_thr a p) b) -> length bs = Z.to_nat BSIZE ->
    astep a (E_store b bs) (mkAdisk (<[b := bs]> (a_data a)) (a_blocks a) (a_thr a))
| as_call a p b bn w :
    a_thr a p = A_idle -> (forall p', ~ a_uses (a_thr a p') b) ->
    astep a (E_call p b bn w) (mkAdisk (a_data a) (a_blocks a) (<[p := A_busy b bn w false]> (a_thr a)))
| as_move a p b bn w :
    a_thr a p = A_busy b bn w false -> astep a E_tau (a_move p b bn w a)
| as_ret a p b bn w :
    a_thr a p = A_busy b bn w true ->
    astep a (E_ret p b bn w (a_data a b)) (mkAdisk (a_data a) (a_blocks a) (<[p := A_idle]> (a_thr a))).

(** Block [bn] of a disk of bytes. *)
Definition block_of (ds : Z -> Z) (bn : Z) : list Z := mem_read ds (BSIZE * bn) (Z.to_nat BSIZE).

Definition a_start (dt : nat -> list Z) (ds : Z -> Z) : adisk := mkAdisk dt (block_of ds) (fun _ => A_idle).

(** ** The simulation *)

Definition abs_thr (fl : list nat) (t : thread) : athread :=
  match t with
  | T_idle => A_idle
  | T_desc b bn w _ => A_busy b bn w false
  | T_buf b bn w (i, _, _) _ => A_busy b bn w (bool_decide (i ∉ fl))
  end.

Record sim (x : config) (q : list nat) (a : adisk) : Prop := {
  sm_data : forall b, a_data a b = data x b;
  sm_blocks : forall bn, 0 <= bn -> a_blocks a bn = block_of (dsk x) bn;
  sm_thr : forall p, a_thr a p = abs_thr (q ++ pend x) (thr x p)
}.

Lemma abs_thr_woken fl ws t : abs_thr fl (woken ws t) = abs_thr fl t.
Proof. by destruct t as [| |? ? ? [[? ?] ?] ?]. Qed.

Lemma abs_thr_flight fl fl' t : (forall m, owns t m -> m ∈ fl' <-> m ∈ fl) -> abs_thr fl' t = abs_thr fl t.
Proof.
  destruct t as [| |b bn w [[i j] k] a]; try done. cbn. intros H. f_equal. apply bool_decide_ext.
  rewrite (H i); auto.
Qed.

Lemma a_uses_abs fl t b : a_uses (abs_thr fl t) b <-> uses t b.
Proof. by destruct t as [| |? ? ? [[? ?] ?] ?]. Qed.

Lemma block_of_write ds bn bn' l :
  length l = Z.to_nat BSIZE ->
  block_of (mem_write ds (BSIZE * bn) l) bn' = if decide (bn' = bn) then l else block_of ds bn'.
Proof.
  intros Hl. unfold block_of, mem_read. apply list_eq. intros i.
  destruct (decide (i < Z.to_nat BSIZE)%nat) as [Hi|Hi].
  2:{ rewrite list_lookup_fmap, lookup_seq_ge by lia. destruct (decide _).
      - by rewrite lookup_ge_None_2 by lia.
      - by rewrite list_lookup_fmap, lookup_seq_ge by lia. }
  rewrite list_lookup_fmap, lookup_seq_lt by done. cbn [fmap option_fmap option_map]. unfold mem_write.
  rewrite Hl. destruct (decide (bn' = bn)) as [->|Hne].
  - rewrite decide_True by lia. replace (Z.to_nat _) with i by lia.
    by destruct (lookup_lt_is_Some_2 l i) as [c ->]; [lia|].
  - rewrite decide_False by (unfold BSIZE in *; lia). by rewrite list_lookup_fmap, lookup_seq_lt.
Qed.

(** How a transition is answered by the abstract disk. *)
Definition answered (x : config) (a : adisk) (e : event) (y : config) : Prop :=
  exists q dn a', inv y q dn /\ sim y q a' /\ (astep a e a' \/ e = E_tau /\ a' = a).

Lemma ready_call x p b bn :
  thr x p = T_idle -> (forall p', ~ uses (thr x p') b) -> length (data x b) = Z.to_nat BSIZE -> 0 <= bn < 2^31 ->
  ready x p b bn.
Proof. intros Hp Hn Hl Hb. split; [rewrite Hp; by intros m []|intros p' _; apply Hn|done]. Qed.

Lemma ready_retry x q dn p b bn w :
  inv x q dn -> thr x p = T_desc b bn w false -> ready x p b bn.
Proof.
  intros I Hp. pose proof (iv_thr _ _ _ I p) as Ht. rewrite Hp in Ht. split; [rewrite Hp; by intros m []| |apply Ht].
  intros p' Hne Hu. destruct Hne. apply (iv_bufs _ _ _ I p' p b Hu). by rewrite Hp.
Qed.

(** Starting a request: the other threads look the same from outside. *)
Lemma start_sim x q dn a p b bn w r d :
  inv x q dn -> sim x q a -> ready x p b bn -> rw_start b bn w (dk x) = inr (r, d) ->
  exists q', inv (set_thr p (started b bn w r) (settle d x)) q' dn /\
    forall f, (forall p', p' <> p -> f p' = a_thr a p') -> f p = A_busy b bn w false ->
      sim (set_thr p (started b bn w r) (settle d x)) q' (mkAdisk (a_data a) (a_blocks a) f).
Proof.
  intros I [Sd Sb St] R E.
  destruct (rw_start_run b bn w (dk x) (iv_tables _ _ _ I))
    as [(i & j & k & Hd & Fi & Fj & Fk & E')|(N3 & d' & E' & G)]; rewrite E in E'; simplify_eq.
  - exists (q ++ [i]). split; [by apply inv_issue|]. intros f Hf Hp. split; [done|done|]. cbn [a_thr started].
    intros p'. destruct (decide (p' = p)) as [->|Hne].
    + rewrite thr_settle_eq, Hp. cbn. by rewrite bool_decide_eq_false_2 by set_solver.
    + rewrite thr_settle_ne, Hf, St, abs_thr_woken by done. symmetry. apply abs_thr_flight.
      intros m Hm. destruct (free_unowned x q dn i I Fi) as [Ho _].
      assert (m <> i) by (intros ->; by destruct (Ho p')). cbn. set_solver.
  - exists q. split; [by apply inv_wait|]. intros f Hf Hp. split; [done|done|]. cbn [a_thr started].
    intros p'. destruct (decide (p' = p)) as [->|Hne]; [by rewrite thr_settle_eq|].
    by rewrite thr_settle_ne, Hf, St, abs_thr_woken.
Qed.

Lemma call_sim x q dn a p b bn w r d :
  inv x q dn -> sim x q a -> thr x p = T_idle -> (forall p', ~ uses (thr x p') b) ->
  length (data x b) = Z.to_nat BSIZE -> 0 <= bn < 2^31 -> rw_start b bn w (dk x) = inr (r, d) ->
  answered x a (E_call p b bn w) (set_thr p (started b bn w r) (settle d x)).
Proof.
  intros I S Hp Hn Hl Hb E. pose proof (ready_call x p b bn Hp Hn Hl Hb) as R.
  destruct (start_sim x q dn a p b bn w r d I S R E) as (q' & I' & S').
  exists q', dn. eexists. split; [done|]. split; [apply (S' (<[p := A_busy b bn w false]> (a_thr a)))|].
  - intros. by apply fn_lookup_insert_ne.
  - apply fn_lookup_insert.
  - left. constructor; [by rewrite (sm_thr _ _ _ S), Hp|].
    intros p'. rewrite (sm_thr _ _ _ S), a_uses_abs. apply Hn.
Qed.

Lemma retry_sim x q dn a p b bn w r d :
  inv x q dn -> sim x q a -> thr x p = T_desc b bn w false -> rw_start b bn w (dk x) = inr (r, d) ->
  answered x a E_tau (set_thr p (started b bn w r) (settle d x)).
Proof.
  intros I S Hp E. destruct (start_sim x q dn a p b bn w r d I S (ready_retry _ _ _ _ _ _ _ I Hp) E) as (q' & I' & S').
  exists q', dn, a. split; [done|]. split; [|by right]. destruct a as [ad ab at']. apply (S' at'); [done|].
  cbn. by rewrite (sm_thr _ _ _ S), Hp.
Qed.

Lemma return_sim x q dn a p b bn w idx d :
  inv x q dn -> sim x q a -> thr x p = T_buf b bn w idx false -> bdisk (dk x) b <> 1 ->
  rw_finish idx.1.1 (dk x) = inr (tt, d) ->
  answered x a (E_ret p b bn w (data x b)) (set_thr p T_idle (settle d x)).
Proof.
  intros I [Sd Sb St] Hp Hd E. destruct idx as [[i j] k]. cbn [fst] in E.
  pose proof (iv_thr _ _ _ I p) as Ht. rewrite Hp in Ht. destruct Ht as (_ & C & Hfl & _).
  rewrite (rw_finish_run _ _ _ _ _ _ _ (iv_tables _ _ _ I) C) in E. simplify_eq.
  exists q, dn. eexists. split; [by eapply inv_return|]. split; cycle 1.
  - left. rewrite <- Sd. apply as_ret. rewrite St, Hp. cbn. rewrite bool_decide_eq_true_2; [done|].
    intros Hi. apply Hd, Hfl. set_solver.
  - split; [done|done|]. cbn [a_thr]. intros p'. destruct (decide (p' = p)) as [->|Hne].
    + by rewrite fn_lookup_insert, thr_settle_eq.
    + by rewrite fn_lookup_insert_ne, thr_settle_ne, abs_thr_woken, St.
Qed.

(** The interrupt handler finds an answer exactly if there is one. *)
Lemma intr_cases x q dn :
  inv x q dn ->
  (dn = [] /\ intr_turn (dk x) = inr (false, dk x)) \/
  (exists h dn' p b bn w j k a, dn = h :: dn' /\ thr x p = T_buf b bn w (h, j, k) a /\
     intr_turn (dk x) = inr (true, acknowledge b (dk x))).
Proof.
  intros I. pose proof (flight_bound _ _ _ I) as Hle. rewrite !length_app in Hle. pose proof (iv_used_idx _ _ _ I) as Hu.
  pose proof (iv_words _ _ _ I) as [_ W]. destruct dn as [|h dn].
  - left. split; [done|]. unfold intr_turn, mbind, D_bind, ask. rewrite Hu, Z.add_0_r, W, Z.eqb_refl. done.
  - right. destruct (head_owner _ _ _ h I) as (p & b & bn & w & j & k & a & Hp & _ & C & _ & Hst & _); [set_solver|].
    exists h, dn, p, b, bn, w, j, k, a. split; [done|]. split; [done|]. eapply intr_turn_run.
    + rewrite Hu. rewrite <- W at 1. intros E. unfold u16 in E. cbn in Hle. Z.div_mod_to_equations. cbn in *. lia.
    + eapply ring_front. exact (iv_used _ _ _ I).
    + pose proof (ch_info _ _ _ _ _ _ _ C) as Hi. specialize (Hst ltac:(by left)).
      destruct (info (dk x) !! h) as [[b' s']|]; simplify_eq/=. done.
Qed.

Lemma take_sim x h q dn a :
  inv x (h :: q) dn -> sim x (h :: q) a ->
  answered x a E_tau (mkConfig (dk x) (u16 (seen x + 1)) (pend x ++ [h]) (data x) (dsk x) (thr x) (irq x) (hand x)).
Proof.
  intros I [Sd Sb St]. exists q, dn, a. split; [by apply inv_take|]. split; [|by right]. split; [done|done|].
  intros p. rewrite St. apply abs_thr_flight. intros m _. cbn. set_solver.
Qed.

(** The device reads a ring entry exactly if there is one. *)
Lemma take_cases x q dn :
  inv x q dn -> seen x <> avail_idx (dk x) ->
  exists h q', q = h :: q' /\ avail_ring (dk x) !! Z.to_nat (seen x `mod` NUM) = Some (Z.of_nat h).
Proof.
  intros I Hne. pose proof (iv_seen _ _ _ I) as Hs. pose proof (iv_words _ _ _ I) as [W _].
  destruct q as [|h q]; [rewrite Z.add_0_r in Hs; congruence|].
  exists h, q. split; [done|]. eapply ring_front. exact (iv_avail _ _ _ I).
Qed.

(** A request that waits in the ring can be read. *)
Lemma queue_nonempty x h q dn :
  inv x (h :: q) dn ->
  seen x <> avail_idx (dk x) /\ avail_ring (dk x) !! Z.to_nat (seen x `mod` NUM) = Some (Z.of_nat h).
Proof.
  intros I. pose proof (flight_bound _ _ _ I) as Hle. rewrite !length_app in Hle. cbn in Hle.
  split; [|eapply ring_front; exact (iv_avail _ _ _ I)].
  pose proof (iv_words _ _ _ I) as [W _]. rewrite (iv_seen _ _ _ I). rewrite <- W at 1.
  unfold u16. cbn [length]. intros E. Z.div_mod_to_equations. lia.
Qed.

Section Refinement.
Context `{V : Device} {VO : DeviceOk V}.

(** What the device does with a request of the driver. *)
Lemma device_effect bn (w : bool) (bs bs' : list Z) ds ds' :
  length bs = Z.to_nat BSIZE -> 0 <= bn < 2^31 ->
  dev_io (if w then VIRTIO_BLK_T_OUT else VIRTIO_BLK_T_IN) (u32 (bn * (BSIZE / 512)))
    (take (Z.to_nat BSIZE) bs) ds = (bs', ds') ->
  (w = false -> bs' ++ drop (Z.to_nat BSIZE) bs = block_of ds bn) /\
  (ds' = if w then mem_write ds (BSIZE * bn) bs else ds).
Proof using VO.
  intros Hl Hb. rewrite take_ge, drop_ge, app_nil_r by lia.
  assert (Hs : 512 * u32 (bn * (BSIZE / 512)) = BSIZE * bn).
  { change (BSIZE / 512) with 2. rewrite u32_small by (unfold is_u32; lia). unfold BSIZE. lia. }
  destruct w; rewrite ?dev_out, ?dev_in, Hs; intros [= <- <-]; [done|]. split; [|done]. by rewrite Hl.
Qed.

(** The request that the device answers, and the state after it. *)
Record answers (x : config) (q dn pre post : list nat) (rq : virtio_blk_req) (h p b : nat) (bn : Z) (w : bool)
    (len : Z) (wr : bool) (j : nat) (bs : list Z) (ds : Z -> Z) : Prop := {
  an_owner : exists j' k a, thr x p = T_buf b bn w (h, j', k) a;
  an_block : 0 <= bn;
  an_length : length (data x b) = Z.to_nat BSIZE;
  an_chain : j = h /\ wr = negb w /\ len = BSIZE;
  an_read : w = false -> bs ++ drop (Z.to_nat len) (data x b) = block_of (dsk x) bn;
  an_write : ds = if w then mem_write (dsk x) (BSIZE * bn) (data x b) else dsk x;
  an_inv : inv (mkConfig (answer h j (dev_status (rq_type rq) (rq_sector rq)) (dk x)) (seen x) (pre ++ post)
    (if wr then <[b := bs ++ drop (Z.to_nat len) (data x b)]> (data x) else data x) ds (thr x)
    (irq x || raises (dk x)) (hand x)) q (dn ++ [h])
}.

Lemma answer_run x q dn pre post h rq b len wr j bs ds :
  inv x q dn -> pend x = pre ++ h :: post -> read_chain (dk x) h = Some (rq, b, len, wr, j) ->
  dev_io (rq_type rq) (rq_sector rq) (take (Z.to_nat len) (data x b)) (dsk x) = (bs, ds) ->
  exists p bn w, answers x q dn pre post rq h p b bn w len wr j bs ds.
Proof using VO.
  intros I Hpe Hr Hio.
  destruct (head_owner _ _ _ h I) as (p & b' & bn & w & j' & k & a & Hp & [Hl Hb] & C & _); [rewrite Hpe; set_solver|].
  rewrite (read_chain_run _ _ _ _ _ _ _ C) in Hr. simplify_eq. cbn [rq_type rq_sector] in Hio.
  destruct (device_effect bn w _ _ _ _ Hl Hb Hio) as [Hbs ->].
  assert (Hlen : length (block_of (dsk x) bn) = Z.to_nat BSIZE) by (unfold block_of, mem_read; by rewrite length_fmap, length_seq).
  exists p, bn, w. split; [by exists j', k, a|lia|exact Hl|by split_and!|exact Hbs|reflexivity|].
  rewrite dev_success. apply inv_answer; [done..|]. intros b'. destruct w; [done|]. cbn [negb]. rewrite Hbs by done.
  destruct (decide (b' = b)) as [->|]; [by rewrite fn_lookup_insert, Hl, Hlen|by rewrite fn_lookup_insert_ne].
Qed.

Lemma answer_sim x q dn a pre post h rq b len wr j bs ds :
  inv x q dn -> sim x q a -> pend x = pre ++ h :: post ->
  read_chain (dk x) h = Some (rq, b, len, wr, j) ->
  dev_io (rq_type rq) (rq_sector rq) (take (Z.to_nat len) (data x b)) (dsk x) = (bs, ds) ->
  answered x a E_tau (mkConfig (answer h j (dev_status (rq_type rq) (rq_sector rq)) (dk x)) (seen x) (pre ++ post)
    (if wr then <[b := bs ++ drop (Z.to_nat len) (data x b)]> (data x) else data x) ds (thr x)
    (irq x || raises (dk x)) (hand x)).
Proof using VO.
  intros I [Sd Sb St] Hpe Hr Hio. pose proof (iv_nodup _ _ _ I) as Nd.
  destruct (answer_run _ _ _ _ _ _ _ _ _ _ _ _ _ I Hpe Hr Hio) as (p & bn & w & [(j' & k & a0 & Hp) Hb Hl (-> & -> & ->) Hbs -> I']).
  assert (Nh : h ∉ q ++ pre ++ post).
  { rewrite Hpe, <- (Permutation_middle pre) in Nd. cbn [app] in Nd.
    rewrite <- (Permutation_middle q) in Nd. apply NoDup_cons in Nd as [Nh _]. set_solver. }
  exists q, (dn ++ [h]), (a_move p b bn w a). split; [done|]. split; [|left; apply as_move].
  - split.
    + intros b'. destruct w; cbn; [apply Sd|]. rewrite Hbs by done. destruct (decide (b' = b)) as [->|].
      * rewrite !fn_lookup_insert. by apply Sb.
      * by rewrite !fn_lookup_insert_ne.
    + intros bn' Hbn. destruct w; cbn; [|by apply Sb]. rewrite block_of_write by done.
      destruct (decide (bn' = bn)) as [->|]; [by rewrite fn_lookup_insert, Sd|].
      rewrite fn_lookup_insert_ne by done. by apply Sb.
    + intros p'. cbn. destruct (decide (p' = p)) as [->|Hne].
      * rewrite fn_lookup_insert, Hp. cbn. by rewrite bool_decide_eq_true_2.
      * rewrite fn_lookup_insert_ne, St by done. symmetry. apply abs_thr_flight. intros m Hm.
        assert (m <> h) by (intros ->; destruct Hne; apply (iv_own _ _ _ I p' p h Hm); rewrite Hp; by left).
        rewrite Hpe. set_solver.
  - rewrite St, Hp. cbn. rewrite bool_decide_eq_false_2; [done|]. rewrite Hpe. set_solver.
Qed.

Lemma step_sim x q dn a e y : inv x q dn -> sim x q a -> step x e y -> answered x a e y.
Proof using VO.
  intros I S St. destruct St as [x b bs Hn Hl|x p b bn w r d _ Hp Hn Hl Hb E|x p b bn w r d _ Hp E
    |x p b bn w idx _ Hp Hd|x p b bn w idx d _ Hp Hd E|x d _ _ E|x d _ E|x d _ E|x h _ Hne Hr|x _ Hs|x pre post h rq b len wr j bs ds Hpe Hr Hio].
  - exists q, dn. eexists. split; [by apply inv_store|]. split; cycle 1.
    + left. apply as_store; [|done]. intros p. rewrite (sm_thr _ _ _ S), a_uses_abs. apply Hn.
    + destruct S as [Sd Sb St]. split; [|done|done]. intros b'. cbn.
      destruct (decide (b' = b)) as [->|]; [by rewrite !fn_lookup_insert|by rewrite !fn_lookup_insert_ne].
  - by eapply call_sim.
  - by eapply retry_sim.
  - exists q, dn, a. split; [by apply inv_check|]. split; [|by right]. destruct S as [Sd Sb St]. split; [done|done|].
    intros p'. rewrite St. cbn. destruct (decide (p' = p)) as [->|]; [|by rewrite fn_lookup_insert_ne].
    rewrite fn_lookup_insert, Hp. by destruct idx as [[??]?].
  - by eapply return_sim.
  - exists q, dn, a. split; [by eapply inv_enter|]. split; [by destruct S|by right].
  - destruct (intr_cases x q dn I) as [[_ E']|(h & dn' & p & b & bn & w & j & k & a0 & -> & Hp & E')];
      rewrite E in E'; simplify_eq.
    exists q, dn', a. split; [by eapply inv_acknowledge|]. split; [|by right]. destruct S as [Sd Sb St]. split; [done|done|].
    intros p'. rewrite St. symmetry. apply abs_thr_woken.
  - destruct (intr_cases x q dn I) as [[-> E']|(h & dn' & p & b & bn & w & j & k & a0 & -> & Hp & E')];
      rewrite E in E'; simplify_eq.
    exists q, [], a. split; [by apply inv_leave|]. split; [by destruct S|by right].
  - destruct (take_cases x q dn I Hne) as (h' & q' & -> & Hr'). rewrite Hr in Hr'. simplify_eq. by eapply take_sim.
  - destruct q as [|h q]; [|by destruct (queue_nonempty x h q dn I)].
    exists [], dn, a. split; [by apply inv_rest|]. split; [by destruct S|by right].
  - by eapply answer_sim.
Qed.

Lemma run_sim dt ds tr x :
  run step (start dt ds) tr x ->
  exists q dn a, inv x q dn /\ sim x q a /\ run astep (a_start dt ds) tr a.
Proof using VO.
  intros R. remember (start dt ds) as x0 eqn:Ex.
  induction R as [x|x tr y z R IH St|x tr y e z R IH St He]; subst.
  - exists [], [], (a_start dt ds). split; [apply inv_start|]. split; [by split|constructor].
  - destruct IH as (q & dn & a & I & S & R'); [done|].
    destruct (step_sim y q dn a _ z I S St) as (q' & dn' & a' & I' & S' & [A|[_ ->]]);
      exists q', dn'; eexists; (split; [done|]; split; [done|]); [by eapply run_tau|done].
  - destruct IH as (q & dn & a & I & S & R'); [done|].
    destruct (step_sim y q dn a _ z I S St) as (q' & dn' & a' & I' & S' & [A|[? _]]); [|done].
    exists q', dn', a'. split; [done|]. split; [done|]. by eapply run_event.
Qed.

End Refinement.

(** ** Every call can be completed *)

(** A run without new calls: the device, the interrupt handler and the processes
    that are in the driver. *)
Inductive finishing `{V : Device} : config -> config -> Prop :=
| fi_nil x : finishing x x
| fi_step x e y z : step x e y -> e = E_tau \/ (exists p b bn w bs, e = E_ret p b bn w bs) ->
    finishing y z -> finishing x z.

Lemma finishing_trans `{V : Device} x y z : finishing x y -> finishing y z -> finishing x z.
Proof. induction 1; [done|]. intros. econstructor; eauto. Qed.

Lemma finishing_tau `{V : Device} x y : step x E_tau y -> finishing x y.
Proof. intros. econstructor; [done|by left|constructor]. Qed.

Section Completion.
Context `{V : Device} {VO : DeviceOk V}.

(** The request of a thread, if any: what [finishing] leaves alone until the
    thread returns. *)
Definition same_call (t t' : thread) : Prop :=
  match t, t' with
  | T_idle, T_idle => True
  | T_desc b bn w _, T_desc b' bn' w' _ => b = b' /\ bn = bn' /\ w = w'
  | T_buf b bn w idx _, T_buf b' bn' w' idx' _ => b = b' /\ bn = bn' /\ w = w' /\ idx = idx'
  | _, _ => False
  end.

Lemma same_call_refl t : same_call t t.
Proof. by destruct t. Qed.

Lemma same_call_woken ws t : same_call t (woken ws t).
Proof. by destruct t. Qed.

Lemma same_call_trans t1 t2 t3 : same_call t1 t2 -> same_call t2 t3 -> same_call t1 t3.
Proof. destruct t1, t2, t3; naive_solver congruence. Qed.

(** What is left to do for the device and the interrupt handler. *)
Definition work (x : config) (q dn : list nat) : nat :=
  4 * (3 * length q + 2 * length (pend x) + length dn) +
  (if hand x then 1 else match dn with [] => 0 | _ => 2 end).

(** Everything is answered and seen, and the handler is not running. *)
Definition calm (x : config) : Prop := inv x [] [] /\ pend x = [] /\ hand x = false.

(** The device or the interrupt handler can do one more thing. *)
Lemma progress x q dn :
  inv x q dn -> calm x /\ q = [] /\ dn = [] \/
  exists y q' dn', step x E_tau y /\ inv y q' dn' /\ (work y q' dn' < work x q dn)%nat /\
    dfree (dk y) = dfree (dk x) /\ forall p, same_call (thr x p) (thr y p).
Proof using VO.
  intros I. pose proof (iv_lines _ _ _ I) as [Ln Li _]. unfold work.
  destruct (intr_cases x q dn I) as [[-> E]|(h & dn' & p & b & bn & w & j & k & a & -> & Hp & E)];
    destruct (hand x) eqn:Hh.
  - right. eexists _, q, []. split; [by apply st_leave|]. split; [by apply inv_leave|]. cbn. split; [lia|].
    split; [done|]. intros; apply same_call_refl.
  - destruct (pend x) as [|h pe] eqn:Hpe; [destruct q as [|h q]; [by left|]|]; right.
    + pose proof (queue_nonempty x h q [] I) as [Hne Hr]. eexists _, q, [].
      split; [apply st_take; [by apply Ln|done..]|]. split; [by apply inv_take|]. cbn. rewrite Hpe, Hh. cbn.
      split; [lia|]. split; [done|]. intros; apply same_call_refl.
    + destruct (head_owner _ _ _ h I) as (p & b & bn & w & j & k & a & Hp & _ & C & _); [rewrite Hpe; set_solver|].
      pose proof (read_chain_run _ _ _ _ _ _ _ C) as Hr.
      destruct (dev_io (if w then VIRTIO_BLK_T_OUT else VIRTIO_BLK_T_IN) (u32 (bn * (BSIZE / 512)))
        (take (Z.to_nat BSIZE) (data x b)) (dsk x)) as [bs ds] eqn:Hio.
      destruct (answer_run x q [] [] pe h _ _ _ _ _ _ _ I Hpe Hr Hio) as (p' & bn' & w' & A).
      eexists _, q, ([] ++ [h]). split; [by eapply (st_answer x [])|]. split; [exact (an_inv _ _ _ _ _ _ _ _ _ _ _ _ _ _ _ _ A)|].
      cbn. rewrite Hh. split; [lia|]. split; [done|]. intros; apply same_call_refl.
  - right. eexists _, q, dn'. split; [by apply st_intr|]. split; [by eapply inv_acknowledge|]. cbn. rewrite Hh.
    split; [lia|]. split; [done|]. intros p'. apply same_call_woken.
  - right. destruct Li as [?|Hq]; [done..|]. eexists _, q, (h :: dn'). split; [by apply st_enter|].
    split; [by eapply inv_enter|]. cbn. split; [lia|]. split; [done|]. intros; apply same_call_refl.
Qed.

(** The device and the interrupt handler can deal with all requests. *)
Lemma drain x q dn :
  inv x q dn ->
  exists y, finishing x y /\ calm y /\ dfree (dk y) = dfree (dk x) /\ forall p, same_call (thr x p) (thr y p).
Proof using VO.
  remember (work x q dn) as n eqn:En. revert x q dn En. induction n as [n IH] using lt_wf_ind. intros x q dn -> I.
  destruct (progress x q dn I) as [[Cx _]|(y & q' & dn' & St & I' & Hlt & Hf & Ht)].
  - exists x. split; [constructor|]. split; [done|]. split; [done|]. intros; apply same_call_refl.
  - destruct (IH _ Hlt y q' dn' eq_refl I') as (z & F & Cz & Fz & Tz).
    exists z. split; [eapply finishing_trans; [by apply finishing_tau|done]|]. split; [done|].
    split; [congruence|]. intros p. by eapply same_call_trans.
Qed.

(** A thread that waits for its answer when nothing is in flight can return. *)
Lemma finish_one x p b bn w idx a :
  calm x -> thr x p = T_buf b bn w idx a ->
  exists y, finishing x y /\ calm y /\ thr y p = T_idle /\
    (forall m, dfree (dk x) !! m = Some 1 \/ owns (thr x p) m -> dfree (dk y) !! m = Some 1) /\
    (forall p', p' <> p -> same_call (thr x p') (thr y p')).
Proof using VO.
  intros (I & Hpe & Hh) Hp. destruct idx as [[i j] k]. pose proof (iv_thr _ _ _ I p) as Ht. rewrite Hp, Hpe in Ht.
  destruct Ht as (_ & C & Hfl & _ & Ha). pose proof (iv_tables _ _ _ I) as T.
  destruct (chain_range _ _ _ _ _ _ _ T C) as (Li & Lj & Lk).
  assert (Hd : bdisk (dk x) b <> 1) by (rewrite Hfl; set_solver).
  assert (a = false) as -> by (destruct a; [by destruct (Hd (Ha eq_refl))|done]).
  eexists. split; [|split; [split; [by eapply inv_return|done]|]].
  - eapply fi_step; [|right; by repeat eexists|constructor].
    eapply st_return; [done|done|done|]. by eapply rw_finish_run.
  - split; [apply thr_settle_eq|]. split.
    + rewrite Hp. intros m Hm. cbn. rewrite !list_lookup_insert, !length_insert, (tb_free _ T).
      cbn in Hm. repeat case_decide; naive_solver lia.
    + intros p' Hne. rewrite thr_settle_ne by done. apply same_call_woken.
Qed.

(** While a thread waits for descriptors, the others can give theirs back. *)
Lemma free_first x p b bn w a n :
  calm x -> thr x p = T_desc b bn w a -> (n <= 8)%nat ->
  exists y a', finishing x y /\ calm y /\ thr y p = T_desc b bn w a' /\
    forall m, (m < n)%nat -> dfree (dk y) !! m = Some 1.
Proof using VO.
  intros Cx Hp. induction n as [|n IH]; intros Hn.
  { exists x, a. split; [constructor|]. split_and!; try done. intros. lia. }
  destruct IH as (y & a' & F & Cy & Ty & Fy); [lia|]. pose proof (proj1 Cy) as Iy.
  destruct (lookup_lt_is_Some_2 (dfree (dk y)) n) as [c Hc]; [rewrite (tb_free _ (iv_tables _ _ _ Iy)); lia|].
  pose proof (Forall_lookup_1 _ _ _ _ (tb_bits _ (iv_tables _ _ _ Iy)) Hc) as [->| ->].
  2:{ exists y, a'. split_and!; try done. intros m Hm. destruct (decide (m = n)) as [->|]; [done|]. apply Fy. lia. }
  destruct (iv_free _ _ _ Iy n Hc) as [p' Ho]. destruct (thr y p') as [| |b' bn' w' idx a''] eqn:Tp; [done..|].
  destruct (finish_one y p' b' bn' w' idx a'' Cy Tp) as (z & Fz & Cz & _ & Dz & Tz).
  assert (Hne : p <> p') by (intros ->; congruence). specialize (Tz p Hne). rewrite Ty in Tz.
  destruct (thr z p) as [|b0 bn0 w0 a0|] eqn:Ez; try done. destruct Tz as (<- & <- & <-).
  exists z, a0. split; [by eapply finishing_trans|]. split_and!; try done. intros m Hm. apply Dz.
  destruct (decide (m = n)) as [->|]; [right; by rewrite Tp|]. left. apply Fy. lia.
Qed.

(** A thread that waits for descriptors gets them once three are free. *)
Lemma retry_succeeds x p b bn w a q dn :
  inv x q dn -> hand x = false -> thr x p = T_desc b bn w a -> three_free (dk x) ->
  exists y q' idx, finishing x y /\ inv y q' dn /\ thr y p = T_buf b bn w idx false.
Proof using V.
  intros I Hh Hp H3. pose proof (iv_thr _ _ _ I p) as Ht. rewrite Hp in Ht. destruct Ht as [_ Ha].
  assert (a = false) as -> by (destruct a; [by destruct (Ha eq_refl)|done]).
  destruct (rw_start_run b bn w (dk x) (iv_tables _ _ _ I))
    as [(i & j & k & Hd & Fi & Fj & Fk & E)|(N3 & _)]; [|done].
  eexists _, (q ++ [i]), (i, j, k). split; [apply finishing_tau; by eapply st_retry|].
  split; [|apply thr_settle_eq]. apply inv_issue; try done. by eapply ready_retry.
Qed.

Lemma complete_buf x p b bn w idx a q dn :
  inv x q dn -> thr x p = T_buf b bn w idx a -> exists y, finishing x y /\ thr y p = T_idle.
Proof using VO.
  intros I Hp. destruct (drain x q dn I) as (y & F & Cy & _ & Ty). specialize (Ty p). rewrite Hp in Ty.
  destruct (thr y p) as [| |b' bn' w' idx' a'] eqn:Ep; [done..|].
  destruct (finish_one y p b' bn' w' idx' a' Cy Ep) as (z & Fz & _ & Tz & _).
  exists z. split; [by eapply finishing_trans|done].
Qed.

Lemma complete x p q dn : inv x q dn -> exists y, finishing x y /\ thr y p = T_idle.
Proof using VO.
  intros I. destruct (thr x p) as [|b bn w a|b bn w idx a] eqn:Hp.
  - exists x. split; [constructor|done].
  - destruct (drain x q dn I) as (y & F & Cy & _ & Ty). specialize (Ty p). rewrite Hp in Ty.
    destruct (thr y p) as [|b' bn' w' a'|] eqn:Ep; try done.
    destruct (free_first y p b' bn' w' a' 3 Cy Ep) as (z & a'' & Fz & (Iz & _ & Hz) & Tz & Dz); [lia|].
    destruct (retry_succeeds z p b' bn' w' a'' [] [] Iz Hz Tz) as (u & q' & idx & Fu & Iu & Tu).
    { exists 0%nat, 1%nat, 2%nat. split; [by apply nodup3|]. split_and!; apply Dz; lia. }
    destruct (complete_buf u p b' bn' w' idx false q' [] Iu Tu) as (v & Fv & Tv).
    exists v. split; [|done]. by do 3 (eapply finishing_trans; [done|]).
  - by eapply complete_buf.
Qed.

End Completion.

(** ** The theorems *)

Section Theorems.
Context `{V : Device} {VO : DeviceOk V}.

(** C6. The disk driver implements the abstract disk.  Whatever the
    interleaving of processes, device and interrupt handler, the calls and
    returns seen by the callers, with the bytes that they store and find in the
    buffers, are those of a disk that copies the block once between a call and its
    return; the bytes in the buffers and on the disk agree at the end. *)
Theorem driver_refines_disk dt ds tr x :
  run step (start dt ds) tr x ->
  exists a, run astep (a_start dt ds) tr a /\
    (forall b, a_data a b = data x b) /\
    (forall bn, 0 <= bn -> a_blocks a bn = block_of (dsk x) bn).
Proof using VO.
  intros R. destruct (run_sim dt ds tr x R) as (q & dn & a & _ & S & R').
  exists a. split; [done|]. split; [apply (sm_data _ _ _ S)|apply (sm_blocks _ _ _ S)].
Qed.

(** The disk driver never panics: no descriptor is freed twice, and the
    interrupt handler finds a buffer and status 0 for every answer. *)
Theorem driver_never_panics dt ds tr x msg :
  run step (start dt ds) tr x -> ~ panics x msg.
Proof using VO.
  intros R P. destruct (run_sim dt ds tr x R) as (q & dn & a & I & _ & _).
  pose proof (iv_tables _ _ _ I) as T.
  destruct P as [x p b bn w msg _ E|x p b bn w idx msg Hp Hd E|x msg E].
  - destruct (rw_start_run b bn w (dk x) T) as [(i & j & k & _ & _ & _ & _ & E')|(_ & d' & E' & _)]; congruence.
  - pose proof (iv_thr _ _ _ I p) as Ht. rewrite Hp in Ht. destruct idx as [[i j] k], Ht as (_ & C & _).
    cbn [fst] in E. rewrite (rw_finish_run _ _ _ _ _ _ _ T C) in E. done.
  - destruct (intr_cases x q dn I) as [[_ E']|(h & dn' & p & b & bn & w & j & k & a0 & _ & _ & E')]; congruence.
Qed.

(** C21. No call of the disk driver hangs.  From every state that can be reached,
    the device, the interrupt handler and the processes already in the driver can
    go on, without a new call, until process [p] has returned: no wakeup is lost and
    descriptors never run out for good.  The device reads the ring only after it was
    notified, and raises an interrupt for an answer only if the last one was
    acknowledged; the handler runs only on an interrupt, and a process enters the
    driver only when the handler does not hold the lock. *)
Theorem driver_calls_complete dt ds tr x p :
  run step (start dt ds) tr x -> exists y, finishing x y /\ thr y p = T_idle.
Proof using VO.
  intros R. destruct (run_sim dt ds tr x R) as (q & dn & a & I & _ & _). by eapply complete.
Qed.

End Theorems.

(** ** A run

    A device as the specification wants it, and a process that writes block 3. *)

#[local] Instance demo_device : Device := {
  dev_io ty sector bs ds :=
    if ty =? VIRTIO_BLK_T_OUT then (bs, mem_write ds (512 * sector) bs)
    else (mem_read ds (512 * sector) (length bs), ds);
  dev_status _ _ := 0
}.

#[local] Instance demo_device_ok : DeviceOk demo_device.
Proof. by split. Qed.

Definition demo_bytes (c : Z) : list Z := replicate (Z.to_nat BSIZE) c.

Definition demo_start : config := start (fun _ => demo_bytes 0) (fun _ => 0).

Definition demo_trace : list event :=
  [E_store 0 (demo_bytes 7); E_call 0 0 3 true; E_ret 0 0 3 true (demo_bytes 7)].

Lemma demo_called : exists x, run step demo_start [E_store 0 (demo_bytes 7); E_call 0 0 3 true] x /\
  thr x 0%nat = T_buf 0 3 true (0%nat, 1%nat, 2%nat) true /\ pend x = [] /\ dk x = clear_wakes (issue 0 3 true 0 1 2 init_vdisk) /\
  seen x = 0 /\ irq x = false /\ hand x = false /\ data x 0%nat = demo_bytes 7.
Proof.
  eexists. split.
  { eapply run_tau.
    { eapply (run_event _ _ [_]); [eapply (run_event _ _ []); [constructor| |done]| |done].
      - apply st_store; [by intros p []|]. apply length_replicate.
      - eapply (st_call _ 0%nat 0%nat 3 true (Some (0, 1, 2)%nat) (issue 0 3 true 0 1 2 init_vdisk));
          [done|done|by intros p []| |lia|reflexivity]. cbn [data]. rewrite fn_lookup_insert. apply length_replicate. }
    eapply (st_check _ 0%nat); [done|apply thr_settle_eq|reflexivity]. }
  split; [cbn; by rewrite fn_lookup_insert|]. done.
Qed.

(** The disk's tables when the answer has been acknowledged and seen. *)
Definition demo_seen : vdisk :=
  let d := answer 0 0 0 (clear_wakes (issue 0 3 true 0 1 2 init_vdisk)) in
  clear_wakes (acknowledge 0 (set_isr 0 d)).

Lemma demo_answered : exists x, run step demo_start [E_store 0 (demo_bytes 7); E_call 0 0 3 true] x /\
  thr x 0%nat = T_buf 0 3 true (0%nat, 1%nat, 2%nat) false /\ dk x = demo_seen /\ hand x = false /\
  data x 0%nat = demo_bytes 7.
Proof.
  destruct demo_called as (x & R & Hp & Hpe & Hd & Hs & Hi & Hh & Hb). eexists. split.
  { eapply run_tau; [eapply run_tau; [eapply run_tau; [eapply run_tau; [eapply run_tau; [exact R|]|]|]|]|].
    - eapply (st_take _ 0%nat); rewrite Hd, ?Hs; [done|done|reflexivity].
    - eapply (st_answer _ [] [] 0%nat (mkReq VIRTIO_BLK_T_OUT 0 6) 0%nat BSIZE false 0%nat);
        cbn [pend dk]; [by rewrite Hpe|rewrite Hd; reflexivity|reflexivity].
    - eapply st_enter; cbn [dk irq hand]; [by rewrite Hd, Hi|exact Hh|reflexivity].
    - eapply (st_intr _ (acknowledge 0 (set_isr 0 (answer 0 0 0 (dk x))))); [reflexivity|].
      cbn [dk set_lines]. rewrite Hd. vm_compute. reflexivity.
    - eapply (st_leave _ demo_seen); [reflexivity|]. cbn [dk settle]. rewrite Hd. vm_compute. reflexivity. }
  cbn [dk data thr settle set_lines hand]. rewrite Hp, Hd. split; [reflexivity|]. split; [reflexivity|]. by split.
Qed.

Lemma demo_run : exists x, run step demo_start demo_trace x.
Proof.
  destruct demo_answered as (x & R & Hp & Hd & Hh & Hb). eexists.
  eapply (run_event _ _ [_; _]); [exact R|rewrite <- Hb|done].
  apply (st_return x 0%nat 0%nat 3 true (0, 1, 2)%nat (finish 0 1 2 (dk x))); [done|done|by rewrite Hd|].
  rewrite Hd. vm_compute. reflexivity.
Qed.

Lemma driver_refines_disk_witness : exists x a, run step demo_start demo_trace x /\
  run astep (a_start (fun _ => demo_bytes 0) (fun _ => 0)) demo_trace a /\ a_blocks a 3 = block_of (dsk x) 3.
Proof.
  destruct demo_run as [x R]. destruct (driver_refines_disk _ _ _ _ R) as (a & A & _ & B).
  exists x, a. split; [done|]. split; [done|]. apply B. lia.
Defined.

Lemma driver_never_panics_witness : exists x, run step demo_start demo_trace x /\
  forall msg, ~ panics x msg.
Proof.
  destruct demo_run as [x R]. exists x. split; [done|]. intros msg. exact (driver_never_panics _ _ _ _ msg R).
Defined.

Lemma driver_calls_complete_witness : exists x y,
  run step demo_start [E_store 0 (demo_bytes 7); E_call 0 0 3 true] x /\
  thr x 0%nat = T_buf 0 3 true (0%nat, 1%nat, 2%nat) true /\ finishing x y /\ thr y 0%nat = T_idle.
Proof.
  destruct demo_called as (x & R & Hp & _). destruct (driver_calls_complete _ _ _ _ 0%nat R) as (y & F & Hy).
  by exists x, y.
Defined.
