(* ===== verification/Bio.v ===== *)
(** * Sleep locks and the buffer cache ([kernel/sleeplock.c], [kernel/bio.c])

    The disk is reached through [virtio_disk_rw], which moves one block between
    a buffer and the disk (its sleeping is reduced to the check that no spin lock is
    held).  The doubly
    linked list of buffers is the list [lru] of their indices, most recently
    used first. *)

From S2P Require Import Prelude Riscv Mem State Sched.

#[local] Open Scope Z_scope.

(** How often a process that waits for a condition may find, on waking up, that
    it has to wait again: the bound of the [while(...) sleep(...)] loops. *)
Class Waits := { max_waits : nat }.

(** ** Access to the tables *)

Definition getb (b : nat) : K buf := fun s =>
  match bufs s !! b with
  | Some x => Ok x s
  | None => Stuck "buffer index out of range"
  end.

Definition setb (b : nat) (f : buf -> buf) : K unit := fun s =>
  match bufs s !! b with
  | Some x => Ok tt (set_bufs (<[b := f x]> (bufs s)) s)
  | None => Stuck "buffer index out of range"
  end.

Definition geti (i : nat) : K inode := fun s =>
  match itab s !! i with
  | Some x => Ok x s
  | None => Stuck "inode index out of range"
  end.

Definition seti (i : nat) (f : inode -> inode) : K unit := fun s =>
  match itab s !! i with
  | Some x => Ok tt (set_itab (<[i := f x]> (itab s)) s)
  | None => Stuck "inode index out of range"
  end.

Definition get_sl (n : sleep_name) : K sleeplock :=
  match n with
  | SL_buf b => x ← getb b; mret (b_lock x)
  | SL_inode i => x ← geti i; mret (i_lock x)
  end.

Definition put_sl (n : sleep_name) (l : sleeplock) : K unit :=
  match n with
  | SL_buf b => setb b (set_b_lock l)
  | SL_inode i => seti i (set_i_lock l)
  end.

#[global] Arguments getb : simpl never.
#[global] Arguments setb : simpl never.
#[global] Arguments geti : simpl never.
#[global] Arguments seti : simpl never.

Section Bio.
Context `{W : Waits}.

(** ** [sleeplock.c] *)

Definition initsleeplock (n : sleep_name) : K unit := put_sl n (mkSleeplock 0 0).

Fixpoint acquiresleep_wait (fuel : nat) (n : sleep_name) : K unit :=
  l ← get_sl n;
  if sl_locked l =? 0 then mret tt
  else
    match fuel with
    | O => stuck "acquiresleep: waits"
    | S f => sleep (C_sleep n) (L_sleep n) ;; acquiresleep_wait f n
    end.

Definition acquiresleep (n : sleep_name) : K unit :=
  acquire (L_sleep n) ;;
  acquiresleep_wait max_waits n ;;
  me ← curproc;
  p ← getp me;
  put_sl n (mkSleeplock 1 (p_pid p)) ;;
  release (L_sleep n).

Definition releasesleep (n : sleep_name) : K unit :=
  acquire (L_sleep n) ;;
  put_sl n (mkSleeplock 0 0) ;;
  wakeup (Some (C_sleep n)) ;;
  release (L_sleep n).

Definition holdingsleep (n : sleep_name) : K bool :=
  acquire (L_sleep n) ;;
  l ← get_sl n;
  me ← curproc;
  p ← getp me;
  let r := negb (sl_locked l =? 0) && (sl_pid l =? p_pid p) in
  release (L_sleep n) ;;
  mret r.

(** ** The disk *)

(** [virtio_disk_rw] always sleeps until the transfer is done.  The model
    completes the transfer at once, but keeps what [sleep] demands of its
    caller: with another spin lock held, [sched] panics. *)
Definition virtio_disk_rw (b : nat) (write : bool) : K unit :=
  h ← gets held;
  match h with
  | _ :: _ => panic "sched locks"
  | [] =>
      x ← getb b;
      if write then
        modify (fun s => set_disk (<[b_blockno x := b_data x]> (disk s))
                           (set_writes (writes s ++ [(b_blockno x, b_data x)]) s))
      else
        d ← gets (fun s => disk s (b_blockno x));
        setb b (set_b_data d)
  end.

(** ** [bio.c] *)

Definition binit : K unit :=
  modify (set_lru []) ;;
  kiter (seq 0 (Z.to_nat NBUF)) (fun b _ =>
    initsleeplock (SL_buf b) ;;
    modify (fun s => set_lru (b :: lru s) s)) tt.

(** The first loop of [bget]: a buffer that holds the block. *)
Definition bget_cached (dev blockno : Z) : K (option nat) :=
  l ← gets lru;
  x ← kfor l (fun b _ =>
        y ← getb b;
        mret (if (b_dev y =? dev) && (b_blockno y =? blockno) then inr b else inl tt)) tt;
  mret (match x with inr b => Some b | inl _ => None end).

(** The second loop: the least recently used buffer nobody uses. *)
Definition bget_unused : K (option nat) :=
  l ← gets lru;
  x ← kfor (reverse l) (fun b _ =>
        y ← getb b;
        mret (if b_refcnt y =? 0 then inr b else inl tt)) tt;
  mret (match x with inr b => Some b | inl _ => None end).

Definition bget (dev blockno : Z) : K nat :=
  acquire L_bcache ;;
  c ← bget_cached dev blockno;
  match c with
  | Some b =>
      setb b (fun x => set_b_refcnt (u32 (b_refcnt x + 1)) x) ;;
      release L_bcache ;;
      acquiresleep (SL_buf b) ;;
      mret b
  | None =>
      u ← bget_unused;
      match u with
      | Some b =>
          setb b (fun x => set_b_refcnt 1 (set_b_valid 0 (set_b_blockno blockno (set_b_dev dev x)))) ;;
          release L_bcache ;;
          acquiresleep (SL_buf b) ;;
          mret b
      | None => panic "bget: no buffers"
      end
  end.

Definition bread (dev blockno : Z) : K nat :=
  b ← bget dev blockno;
  x ← getb b;
  (if b_valid x =? 0 then
     virtio_disk_rw b false ;;
     setb b (set_b_valid 1)
   else mret tt) ;;
  mret b.

Definition bwrite (b : nat) : K unit :=
  h ← holdingsleep (SL_buf b);
  if negb h then panic "bwrite" else virtio_disk_rw b true.

(** Moving a buffer to the front of the list. *)
Definition to_front (b : nat) (l : list nat) : list nat :=
  b :: filter (fun x => x <> b) l.

Definition brelse (b : nat) : K unit :=
  h ← holdingsleep (SL_buf b);
  if negb h then panic "brelse"
  else
    releasesleep (SL_buf b) ;;
    acquire L_bcache ;;
    setb b (fun x => set_b_refcnt (u32 (b_refcnt x - 1)) x) ;;
    x ← getb b;
    when (b_refcnt x =? 0) (modify (fun s => set_lru (to_front b (lru s)) s)) ;;
    release L_bcache.

Definition bpin (b : nat) : K unit :=
  acquire L_bcache ;;
  setb b (fun x => set_b_refcnt (u32 (b_refcnt x + 1)) x) ;;
  release L_bcache.

Definition bunpin (b : nat) : K unit :=
  acquire L_bcache ;;
  setb b (fun x => set_b_refcnt (u32 (b_refcnt x - 1)) x) ;;
  release L_bcache.

(** ** Uncontended runs

    One process works with the file system and nobody waits for a buffer, an
    inode or the log. *)

(** The channels that the file system sleeps on. *)
Definition fs_chan (c : chan) : bool :=
  match c with C_sleep _ | C_log => true | _ => false end.

Record fs_ctx (me : nat) (pid : Z) (s : kernel) : Prop := {
  fx_cur : cur s = Some me;
  fx_proc : exists p, procs s !! me = Some p /\ p_pid p = pid;
  fx_held : held s = [];
  fx_table : table_ok s;
  fx_weights : sleepers_ok s;
  fx_quiet : forall i p c, procs s !! i = Some p -> p_state p = SLEEPING ->
    p_chan p = Some c -> fs_chan c = false
}.

Definition free_lock : sleeplock := mkSleeplock 0 0.
Definition my_lock (pid : Z) : sleeplock := mkSleeplock 1 pid.

Lemma imap_id {A} (f : nat -> A -> A) (l : list A) :
  (forall i x, l !! i = Some x -> f i x = x) -> imap f l = l.
Proof.
  intros H. apply list_eq. intros i. rewrite list_lookup_imap.
  destruct (l !! i) as [x|] eqn:E; [|done]. cbn. by rewrite H.
Qed.

Lemma wakeup_quiet me pid s c :
  fs_ctx me pid s -> fs_chan c = true -> forall h, (forall i, L_proc i ∉ h) ->
  wakeup (Some c) (set_held h s) = Ok tt (set_held h s).
Proof.
  intros [Hc _ _ Ht Hw Hq] Hn h Hh. rewrite wakeup_run; [|done|done|done].
  cbn [cur set_held procs]. rewrite imap_id.
  - by destruct s.
  - intros i p Hp. unfold wake. rewrite bool_decide_eq_false_2; [done|].
    intros (_ & Hs & Hch). rewrite (Hq i p c Hp Hs Hch) in Hn. done.
Qed.

Lemma not_proc_sleep n i : L_proc i ∉ [L_sleep n].
Proof. by intros ?%list_elem_of_singleton. Qed.

Section Runs.
Context (me : nat) (pid : Z).
Implicit Types (s : kernel) (b : nat) (x : buf).

Lemma getb_run s b x : bufs s !! b = Some x -> getb b s = Ok x s.
Proof. intros H. unfold getb. by rewrite H. Qed.

Lemma setb_run s b x f :
  bufs s !! b = Some x -> setb b f s = Ok tt (set_bufs (<[b := f x]> (bufs s)) s).
Proof. intros H. unfold setb. by rewrite H. Qed.

Lemma acquiresleep_run s b x :
  fs_ctx me pid s -> bufs s !! b = Some x -> b_lock x = free_lock ->
  acquiresleep (SL_buf b) s
    = Ok tt (set_bufs (<[b := set_b_lock (my_lock pid) x]> (bufs s)) s).
Proof.
  intros [Hc (p & Hp & Hpid) Hh _ _ _] Hx Hl. unfold acquiresleep.
  kstep (acquire_ok (L_sleep (SL_buf b)) s ltac:(rewrite Hh; apply not_elem_of_nil)).
  set (s1 := set_held _ s).
  assert (Hw : acquiresleep_wait max_waits (SL_buf b) s1 = Ok tt s1).
  { destruct max_waits; cbn [acquiresleep_wait get_sl];
      rewrite bind_run, bind_run, (getb_run s1 b x Hx); cbn [obind mret K_ret]; by rewrite Hl. }
  kstep Hw. kstep (curproc_run s1 me Hc). kstep (getp_run s1 me p Hp).
  cbn [put_sl]. kstep (setb_run s1 b x (set_b_lock (mkSleeplock 1 (p_pid p))) Hx).
  rewrite (release_head _ []) by (cbn; by rewrite Hh). rewrite Hpid.
  clear -Hh. by destruct s; cbn in *; subst.
Qed.

Lemma holdingsleep_run s b x :
  fs_ctx me pid s -> bufs s !! b = Some x ->
  holdingsleep (SL_buf b) s =
    Ok (negb (sl_locked (b_lock x) =? 0) && (sl_pid (b_lock x) =? pid)) s.
Proof.
  intros [Hc (p & Hp & Hpid) Hh _ _ _] Hx. unfold holdingsleep.
  kstep (acquire_ok (L_sleep (SL_buf b)) s ltac:(rewrite Hh; apply not_elem_of_nil)).
  set (s1 := set_held _ s). cbn [get_sl].
  rewrite bind_run, bind_run, (getb_run s1 b x Hx). cbn [obind mret K_ret].
  kstep (curproc_run s1 me Hc). kstep (getp_run s1 me p Hp).
  rewrite bind_run, (release_head _ []) by (cbn; by rewrite Hh). rewrite Hpid. cbn [obind].
  unfold s1. clear -Hh. by destruct s; cbn in *; subst.
Qed.

Lemma releasesleep_run s b x :
  fs_ctx me pid s -> bufs s !! b = Some x ->
  releasesleep (SL_buf b) s = Ok tt (set_bufs (<[b := set_b_lock free_lock x]> (bufs s)) s).
Proof.
  intros Hf Hx. pose proof Hf as [Hc (p & Hp & Hpid) Hh Ht Hw Hq]. unfold releasesleep.
  kstep (acquire_ok (L_sleep (SL_buf b)) s ltac:(rewrite Hh; apply not_elem_of_nil)).
  rewrite Hh. cbn [put_sl].
  kstep (setb_run (set_held [L_sleep (SL_buf b)] s) b x (set_b_lock (mkSleeplock 0 0)) Hx).
  set (s1 := set_bufs (<[b := set_b_lock free_lock x]> (bufs s)) s).
  assert (Hf1 : fs_ctx me pid s1) by (split; done || by exists p).
  pose proof (wakeup_quiet me pid s1 (C_sleep (SL_buf b)) Hf1 eq_refl [L_sleep (SL_buf b)] (not_proc_sleep _)) as Hwk.
  change (set_bufs (<[b := set_b_lock (mkSleeplock 0 0) x]> (bufs (set_held [L_sleep (SL_buf b)] s)))
    (set_held [L_sleep (SL_buf b)] s)) with (set_held [L_sleep (SL_buf b)] s1).
  kstep Hwk. rewrite (release_head _ []) by done. unfold s1. clear -Hh.
  by destruct s; cbn in *; subst.
Qed.

(** ** The cache as a view of the disk *)

Definition key (bn : Z) x : Prop := b_dev x = ROOTDEV /\ b_blockno x = bn.

(** The invariant of the cache while this process holds the buffers [L]. *)
Record bcache_ok (L : list nat) s : Prop := {
  bc_len : length (bufs s) = Z.to_nat NBUF;
  bc_lru : lru s ≡ₚ seq 0 (Z.to_nat NBUF);
  bc_uniq : forall b b' x x' bn, bufs s !! b = Some x -> bufs s !! b' = Some x' ->
    key bn x -> key bn x' -> b = b';
  bc_dev : forall b x, bufs s !! b = Some x ->
    b_dev x = ROOTDEV \/ (b_dev x = 0 /\ b_refcnt x = 0);
  bc_ref : forall b x, bufs s !! b = Some x -> 0 <= b_refcnt x < 2^31;
  bc_lock : forall b x, bufs s !! b = Some x ->
    b_lock x = if decide (b ∈ L) then my_lock pid else free_lock;
  bc_mine : forall b x, bufs s !! b = Some x -> b ∈ L -> 1 <= b_refcnt x;
  bc_clean : forall b x, bufs s !! b = Some x -> b_dev x = ROOTDEV -> b_refcnt x = 0 ->
    b_valid x <> 0 -> b_data x = disk s (b_blockno x)
}.

(** The buffer that holds a block. *)
Definition cached s (bn : Z) : option (nat * buf) := list_find (key bn) (bufs s).

(** The contents of a block as the kernel sees it. *)
Definition view s (bn : Z) : list Z :=
  match cached s bn with
  | Some (_, x) => if b_valid x =? 0 then disk s bn else b_data x
  | None => disk s bn
  end.

(** The number of references to the buffer of a block. *)
Definition refs s (bn : Z) : Z :=
  match cached s bn with
  | Some (_, x) => b_refcnt x
  | None => 0
  end.

Lemma cached_iff L s bn b x :
  bcache_ok L s -> cached s bn = Some (b, x) <-> bufs s !! b = Some x /\ key bn x.
Proof.
  intros Hok. unfold cached. rewrite list_find_Some. split; [tauto|].
  intros [Hx Hk]. split_and!; [done|done|]. intros j y Hy Hlt Hky.
  assert (j = b) by (eapply bc_uniq; eauto). lia.
Qed.

Lemma cached_none s bn : cached s bn = None <-> forall b x, bufs s !! b = Some x -> ~ key bn x.
Proof.
  unfold cached. rewrite list_find_None, Forall_forall. split.
  - intros H b x Hx. apply H. by eapply list_elem_of_lookup_2.
  - intros H x Hx. apply list_elem_of_lookup in Hx as [b Hb]. by eapply H.
Qed.

(** The scans of [bget]. *)
Lemma scan_bufs (test : buf -> bool) (l : list nat) s :
  (forall b, b ∈ l -> is_Some (bufs s !! b)) ->
  exists r, kfor l (fun b _ => y ← getb b; mret (if test y then inr b else inl tt)) tt s = Ok r s /\
    match r with
    | inr b => b ∈ l /\ exists x, bufs s !! b = Some x /\ test x = true
    | inl _ => forall b x, b ∈ l -> bufs s !! b = Some x -> test x = false
    end.
Proof.
  induction l as [|b l IH]; intros Hl.
  - exists (inl tt). split; [done|]. by intros b x ?%not_elem_of_nil.
  - destruct (Hl b) as [x Hx]; [by apply elem_of_cons; left|].
    cbn [kfor]. rewrite bind_run, bind_run, (getb_run s b x Hx). cbn [obind mret K_ret].
    destruct (test x) eqn:Ht.
    + exists (inr b). split; [done|]. split; [by apply elem_of_cons; left|]. by exists x.
    + destruct IH as (r & Hr & Hp); [intros c Hc; apply Hl; by apply elem_of_cons; right|].
      exists r. split; [exact Hr|]. destruct r as [u|c].
      * intros c y [->|Hc]%elem_of_cons Hy; [congruence|eauto].
      * destruct Hp as [Hc Hp]. split; [by apply elem_of_cons; right|done].
Qed.

Lemma lru_lookup L s b : bcache_ok L s -> b ∈ lru s -> is_Some (bufs s !! b).
Proof.
  intros Hok Hb. rewrite (bc_lru _ _ Hok) in Hb. apply elem_of_seq in Hb.
  apply lookup_lt_is_Some. rewrite (bc_len _ _ Hok). lia.
Qed.

Lemma lookup_lru L s b x : bcache_ok L s -> bufs s !! b = Some x -> b ∈ lru s.
Proof.
  intros Hok Hb. rewrite (bc_lru _ _ Hok). apply elem_of_seq.
  apply lookup_lt_Some in Hb. rewrite (bc_len _ _ Hok) in Hb. lia.
Qed.

Lemma key_bool bn x : (b_dev x =? ROOTDEV) && (b_blockno x =? bn) = true <-> key bn x.
Proof. unfold key. rewrite andb_true_iff, !Z.eqb_eq. done. Qed.

Lemma bget_cached_run L s bn :
  bcache_ok L s -> bget_cached ROOTDEV bn s = Ok (fst <$> cached s bn) s.
Proof.
  intros Hok. unfold bget_cached. rewrite bind_run. unfold gets. cbn [obind].
  destruct (scan_bufs (fun y => (b_dev y =? ROOTDEV) && (b_blockno y =? bn)) (lru s) s)
    as (r & Hr & Hp); [intros b; by eapply lru_lookup|].
  rewrite bind_run, Hr. cbn [obind]. destruct r as [u|b].
  - rewrite (proj2 (cached_none s bn)); [done|]. intros b x Hx Hk%key_bool.
    rewrite (Hp b x) in Hk; [done|by eapply lookup_lru|done].
  - destruct Hp as (_ & x & Hx & Hk%key_bool).
    by rewrite (proj2 (cached_iff L s bn b x Hok)).
Qed.

Lemma bget_unused_run L s :
  bcache_ok L s ->
  exists r, bget_unused s = Ok r s /\
    match r with
    | Some b => exists x, bufs s !! b = Some x /\ b_refcnt x = 0
    | None => forall b x, bufs s !! b = Some x -> b_refcnt x <> 0
    end.
Proof.
  intros Hok. unfold bget_unused. rewrite bind_run. unfold gets. cbn [obind].
  destruct (scan_bufs (fun y => b_refcnt y =? 0) (reverse (lru s)) s)
    as (r & Hr & Hp); [intros b; rewrite elem_of_reverse; by eapply lru_lookup|].
  rewrite bind_run, Hr. cbn [obind]. destruct r as [u|b].
  - exists None. split; [done|]. intros b x Hx. apply Z.eqb_neq, (Hp b x); [|done].
    rewrite elem_of_reverse. by eapply lookup_lru.
  - exists (Some b). split; [done|]. destruct Hp as (_ & x & Hx & Hk). exists x.
    split; [done|]. by apply Z.eqb_eq.
Qed.

(** *** One buffer changes *)

Section Update.
Context (L L' : list nat) (s s' : kernel) (b : nat) (x x' : buf).
Hypotheses (Hok : bcache_ok L s) (Hx : bufs s !! b = Some x)
  (Hbufs : bufs s' = <[b := x']> (bufs s))
  (Hdisk : forall bn, ~ key bn x' -> disk s' bn = disk s bn)
  (Hkey : forall bn, key bn x' -> cached s bn = None \/ key bn x).

Lemma upd_other b' y : b' <> b -> bufs s' !! b' = Some y -> bufs s !! b' = Some y.
Proof. intros Hne. by rewrite Hbufs, list_lookup_insert_ne. Qed.

Lemma upd_here y : bufs s' !! b = Some y -> y = x'.
Proof.
  rewrite Hbufs, list_lookup_insert_eq by (by eapply lookup_lt_Some). congruence.
Qed.

Lemma upd_fresh b' y bn : b' <> b -> bufs s !! b' = Some y -> key bn y -> ~ key bn x'.
Proof.
  intros Hne Hy Hk Hk'. destruct (Hkey bn Hk') as [Hn|Hk2].
  - rewrite cached_none in Hn. by apply (Hn b' y).
  - apply Hne. by eapply bc_uniq.
Qed.

Lemma bcache_update :
  lru s' ≡ₚ lru s -> (forall b', b' <> b -> b' ∈ L' <-> b' ∈ L) ->
  b_dev x' = ROOTDEV \/ (b_dev x' = 0 /\ b_refcnt x' = 0) ->
  0 <= b_refcnt x' < 2^31 ->
  b_lock x' = (if decide (b ∈ L') then my_lock pid else free_lock) ->
  (b ∈ L' -> 1 <= b_refcnt x') ->
  (b_dev x' = ROOTDEV -> b_refcnt x' = 0 -> b_valid x' <> 0 ->
     b_data x' = disk s' (b_blockno x')) ->
  bcache_ok L' s'.
Proof.
  intros Hlru HL Hd Hr Hl Hm Hc.
  assert (Hcase : forall b' y, bufs s' !! b' = Some y ->
    (b' = b /\ y = x') \/ (b' <> b /\ bufs s !! b' = Some y)).
  { intros b' y Hy. destruct (decide (b' = b)) as [->|Hne]; [left|right]; split; try done.
    - by apply upd_here.
    - by apply upd_other. }
  split.
  - rewrite Hbufs, length_insert. apply (bc_len _ _ Hok).
  - rewrite Hlru. apply (bc_lru _ _ Hok).
  - intros b1 b2 x1 x2 bn H1 H2 K1 K2.
    destruct (Hcase _ _ H1) as [[-> ->]|[N1 E1]], (Hcase _ _ H2) as [[-> ->]|[N2 E2]]; [done| | |].
    + by destruct (upd_fresh b2 x2 bn).
    + by destruct (upd_fresh b1 x1 bn).
    + by eapply (bc_uniq _ _ Hok).
  - intros b' y Hy. destruct (Hcase _ _ Hy) as [[-> ->]|[_ E]]; [done|]. by eapply (bc_dev _ _ Hok).
  - intros b' y Hy. destruct (Hcase _ _ Hy) as [[-> ->]|[_ E]]; [done|]. by eapply (bc_ref _ _ Hok).
  - intros b' y Hy. destruct (Hcase _ _ Hy) as [[-> ->]|[N E]]; [done|].
    rewrite (bc_lock _ _ Hok _ _ E). by rewrite (decide_ext _ _ _ _ (HL b' N)).
  - intros b' y Hy Hin. destruct (Hcase _ _ Hy) as [[-> ->]|[N E]]; [auto|].
    eapply (bc_mine _ _ Hok); [done|]. by apply HL.
  - intros b' y Hy HD H0 HV. destruct (Hcase _ _ Hy) as [[-> ->]|[N E]]; [auto|].
    rewrite Hdisk; [by eapply (bc_clean _ _ Hok)|]. eapply upd_fresh; by eauto.
Qed.

Lemma cached_here bn : bcache_ok L' s' -> key bn x' -> cached s' bn = Some (b, x').
Proof.
  intros Hok' Hk. apply (cached_iff L' s'); [done|]. split; [|done].
  rewrite Hbufs. apply list_lookup_insert_eq. by eapply lookup_lt_Some.
Qed.

Lemma cached_other bn :
  bcache_ok L' s' -> ~ key bn x' -> ~ key bn x -> cached s' bn = cached s bn.
Proof.
  intros Hok' Hk' Hk. destruct (cached s bn) as [[b' y]|] eqn:E.
  - apply (cached_iff L s) in E as [Ey Ek]; [|done]. apply (cached_iff L' s'); [done|].
    split; [|done]. destruct (decide (b' = b)) as [->|Hne]; [congruence|].
    by rewrite Hbufs, list_lookup_insert_ne.
  - apply cached_none. intros b' y Hy. rewrite cached_none in E.
    destruct (decide (b' = b)) as [->|Hne]; [by rewrite (upd_here y Hy)|].
    apply (E b'). by apply upd_other.
Qed.

Lemma cached_gone bn :
  bcache_ok L' s' -> ~ key bn x' -> key bn x -> cached s' bn = None.
Proof.
  intros Hok' Hk' Hk. apply cached_none. intros b' y Hy Hky.
  destruct (decide (b' = b)) as [->|Hne].
  - rewrite (upd_here y Hy) in Hky. done.
  - apply Hne. eapply (bc_uniq _ _ Hok); [by apply upd_other|done|done|done].
Qed.

(** The views of all blocks but that of the changed buffer stay, provided a
    buffer that changes its block was clean. *)
Lemma view_refs_other bn :
  bcache_ok L' s' -> ~ key bn x' ->
  (key bn x -> view s bn = disk s bn /\ refs s bn = 0) ->
  view s' bn = view s bn /\ refs s' bn = refs s bn.
Proof.
  intros Hok' Hk' Hcl. unfold view at 1, refs at 1.
  destruct (decide (key bn x)) as [Hk|Hk].
  - rewrite (cached_gone bn Hok' Hk' Hk), Hdisk by done. destruct (Hcl Hk). by split.
  - rewrite (cached_other bn Hok' Hk' Hk). rewrite Hdisk by done. done.
Qed.

Lemma view_refs_here bn :
  bcache_ok L' s' -> key bn x' -> b_valid x' <> 0 ->
  view s' bn = b_data x' /\ refs s' bn = b_refcnt x'.
Proof.
  intros Hok' Hk Hv. unfold view, refs. rewrite (cached_here bn Hok' Hk).
  by rewrite (proj2 (Z.eqb_neq _ _) Hv).
Qed.

End Update.

(** *** [bget] and [bread] *)

(** What the buffer code leaves alone. *)
Definition io_frame s s' : Prop :=
  s' = set_bufs (bufs s') (set_lru (lru s') (set_disk (disk s')
         (set_writes (writes s') (set_output (output s') s)))).

Lemma io_frame_refl s : io_frame s s.
Proof. by destruct s. Qed.

Lemma io_frame_trans s1 s2 s3 : io_frame s1 s2 -> io_frame s2 s3 -> io_frame s1 s3.
Proof. unfold io_frame. intros H1 H2. rewrite H2, H1. done. Qed.

Lemma io_frame_ctx s s' : io_frame s s' -> fs_ctx me pid s -> fs_ctx me pid s'.
Proof. intros -> [Hc Hp Hh Ht Hw Hq]. by split. Qed.

Lemma io_frame_lg s s' : io_frame s s' -> lg s' = lg s.
Proof. by intros ->. Qed.

(** The two ways in which [bget] gets its buffer. *)
Definition grab x : buf :=
  set_b_lock (my_lock pid) (set_b_refcnt (u32 (b_refcnt x + 1)) x).
Definition recycle (bn : Z) x : buf :=
  set_b_lock (my_lock pid)
    (set_b_refcnt 1 (set_b_valid 0 (set_b_blockno bn (set_b_dev ROOTDEV x)))).

(** Locking a buffer that was changed under [bcache.lock]. *)
Lemma bget_tail s b x f :
  fs_ctx me pid s -> bufs s !! b = Some x -> b_lock (f x) = free_lock ->
  (setb b f ;; release L_bcache ;; acquiresleep (SL_buf b) ;; mret b)
      (set_held [L_bcache] s)
    = Ok b (set_bufs (<[b := set_b_lock (my_lock pid) (f x)]> (bufs s)) s).
Proof.
  intros Hf Hx Hl. pose proof (fx_held _ _ _ Hf) as Hh.
  kstep (setb_run (set_held [L_bcache] s) b x f Hx).
  rewrite bind_run, (release_head _ []) by done. cbn [obind bufs set_held].
  set (s1 := set_bufs (<[b := f x]> (bufs s)) s).
  change (set_held [] (set_bufs (<[b:=f x]> (bufs s)) (set_held [L_bcache] s))) with (set_held [] s1).
  assert (set_held [] s1 = s1) as -> by (unfold s1; clear -Hh; by destruct s; cbn in *; subst).
  assert (Hf1 : fs_ctx me pid s1) by (destruct Hf; by split).
  assert (Hx1 : bufs s1 !! b = Some (f x)) by (apply list_lookup_insert_eq; by eapply lookup_lt_Some).
  kstep (acquiresleep_run s1 b (f x) Hf1 Hx1 Hl).
  unfold s1. cbn [bufs set_bufs]. rewrite list_insert_insert_eq. done.
Qed.

Lemma bget_run L s bn :
  fs_ctx me pid s -> bcache_ok L s ->
  (forall b x, cached s bn = Some (b, x) -> b ∉ L) ->
  (cached s bn = None -> exists b x, bufs s !! b = Some x /\ b_refcnt x = 0) ->
  exists b x x', bget ROOTDEV bn s = Ok b (set_bufs (<[b := x']> (bufs s)) s) /\
    bufs s !! b = Some x /\ (b ∉ L) /\
    ((cached s bn = Some (b, x) /\ x' = grab x) \/
     (cached s bn = None /\ b_refcnt x = 0 /\ x' = recycle bn x)).
Proof.
  intros Hf Hok HL Hroom. unfold bget. pose proof (fx_held _ _ _ Hf) as Hh.
  kstep (acquire_ok L_bcache s ltac:(rewrite Hh; apply not_elem_of_nil)). rewrite Hh.
  assert (Hok1 : bcache_ok L (set_held [L_bcache] s)) by (destruct Hok; by split).
  kstep (bget_cached_run L _ bn Hok1).
  change (cached (set_held [L_bcache] s) bn) with (cached s bn).
  assert (Hfree : forall b x, bufs s !! b = Some x -> b ∉ L -> b_lock x = free_lock).
  { intros b x Hx Hb. rewrite (bc_lock _ _ Hok b x Hx). by rewrite decide_False. }
  destruct (cached s bn) as [[b x]|] eqn:E; cbn [fmap option_fmap option_map fst].
  - pose proof E as [Hx _]%(cached_iff L s); [|done]. specialize (HL b x eq_refl).
    exists b, x, (grab x). split; [|by auto].
    apply (bget_tail s b x (fun x => set_b_refcnt (u32 (b_refcnt x + 1)) x)); [done|done|exact (Hfree b x Hx HL)].
  - destruct (bget_unused_run L _ Hok1) as (r & Hr & Hp).
    kstep Hr. destruct r as [b|].
    + destruct Hp as (x & Hx & H0). assert (Hb : b ∉ L).
      { intros Hin. pose proof (bc_mine _ _ Hok b x Hx Hin). lia. }
      exists b, x, (recycle bn x). split; [|by auto 6].
      apply (bget_tail s b x (fun x => set_b_refcnt 1 (set_b_valid 0 (set_b_blockno bn
        (set_b_dev ROOTDEV x))))); [done|done|exact (Hfree b x Hx Hb)].
    + destruct (Hroom eq_refl) as (b & x & Hx & H0). by destruct (Hp b x Hx).
Qed.

(** The effect of [bread]. *)
Record bread_post (L : list nat) s (bn : Z) (b : nat) s' : Prop := {
  br_frame : io_frame s s';
  br_ok : bcache_ok (b :: L) s';
  br_new : b ∉ L;
  br_disk : disk s' = disk s;
  br_writes : writes s' = writes s;
  br_buf : exists x, bufs s' !! b = Some x /\ key bn x /\ b_valid x <> 0 /\
    b_data x = view s bn /\ b_refcnt x = refs s bn + 1;
  br_view : forall bn', view s' bn' = view s bn';
  br_refs : forall bn', refs s' bn' = refs s bn' + (if bn' =? bn then 1 else 0);
  br_keep : forall b' y, b' ∈ L -> bufs s !! b' = Some y -> bufs s' !! b' = Some y
}.

(** Filling a buffer from the disk. *)
Definition fill s x : buf :=
  if b_valid x =? 0 then set_b_valid 1 (set_b_data (disk s (b_blockno x)) x) else x.

Lemma bread_fill s b x bn :
  held s = [] -> bget ROOTDEV bn s = Ok b (set_bufs (<[b := x]> (bufs s)) s) ->
  (b < length (bufs s))%nat ->
  bread ROOTDEV bn s = Ok b (set_bufs (<[b := fill s x]> (bufs s)) s).
Proof.
  intros Hh Hg Hb. unfold bread. kstep Hg. set (s1 := set_bufs _ s).
  assert (Hx : bufs s1 !! b = Some x) by by apply list_lookup_insert_eq.
  kstep (getb_run s1 b x Hx). unfold fill. destruct (b_valid x =? 0) eqn:E; [|done].
  rewrite !bind_run. unfold virtio_disk_rw. rewrite bind_run. unfold gets. cbn [obind held set_bufs s1].
  rewrite Hh, bind_run, (getb_run s1 b x Hx). cbn [obind]. rewrite bind_run. cbn [obind].
  rewrite (setb_run s1 b x _ Hx). cbn [obind]. set (s2 := set_bufs _ s1).
  assert (Hx2 : bufs s2 !! b = Some (set_b_data (disk s1 (b_blockno x)) x)).
  { apply list_lookup_insert_eq. unfold s1. cbn. by rewrite length_insert. }
  rewrite (setb_run s2 b _ _ Hx2). cbn [obind]. unfold s2, s1. cbn [bufs set_bufs].
  by rewrite !list_insert_insert_eq.
Qed.

Lemma bread_facts L s bn b x x' :
  bcache_ok L s -> bufs s !! b = Some x -> refs s bn < 2^31 - 1 ->
  (cached s bn = Some (b, x) /\ x' = grab x) \/
  (cached s bn = None /\ b_refcnt x = 0 /\ x' = recycle bn x) ->
  let y := fill s x' in
  key bn y /\ b_lock y = my_lock pid /\ b_valid y <> 0 /\ b_refcnt y = refs s bn + 1 /\
  b_data y = view s bn.
Proof.
  intros Hok Hx Hr H. pose proof (bc_ref _ _ Hok b x Hx) as Hrx.
  destruct H as [[Hc ->]|(Hc & H0 & ->)]; unfold view, refs in *; rewrite Hc in *; unfold fill.
  - apply (cached_iff L s) in Hc as [_ [Hd Hb]]; [|done]. unfold grab.
    rewrite u32_small by (ints; lia). cbn.
    destruct (Z.eqb_spec (b_valid x) 0); cbn; split_and!; try done; congruence.
  - split_and!; done.
Qed.

Lemma bread_spec L s bn :
  fs_ctx me pid s -> bcache_ok L s -> refs s bn < 2^31 - 1 ->
  (forall b x, cached s bn = Some (b, x) -> b ∉ L) ->
  (cached s bn = None -> exists b x, bufs s !! b = Some x /\ b_refcnt x = 0) ->
  exists b s', bread ROOTDEV bn s = Ok b s' /\ bread_post L s bn b s'.
Proof.
  intros Hf Hok Hr HL Hroom.
  destruct (bget_run L s bn Hf Hok HL Hroom) as (b & x & x' & Hg & Hx & Hb & Hcase).
  pose proof (bread_fill s b x' bn (fx_held _ _ _ Hf) Hg (lookup_lt_Some _ _ _ Hx)) as Hrun.
  destruct (bread_facts L s bn b x x' Hok Hx Hr Hcase) as (Hk & Hl & Hv & Hrf & Hd).
  set (y := fill s x') in *. set (s' := set_bufs (<[b := y]> (bufs s)) s) in *.
  exists b, s'. split; [done|].
  assert (Hkey : forall bn', key bn' y -> cached s bn' = None \/ key bn' x).
  { intros bn' [_ Hbn']. destruct Hk as [_ Hbn]. assert (bn' = bn) as -> by congruence.
    destruct Hcase as [[Hc _]|[Hc _]]; [right|by left]. by apply (cached_iff L s) in Hc as [_ ?]. }
  assert (H1 : 0 <= refs s bn).
  { unfold refs. destruct (cached s bn) as [[b0 y0]|] eqn:E; [|done].
    apply (cached_iff L s) in E as [E _]; [|done]. by apply (bc_ref _ _ Hok b0). }
  assert (Hok' : bcache_ok (b :: L) s').
  { eapply (bcache_update L (b :: L) s s' b x y); try done.
    - intros b' Hne. rewrite elem_of_cons. tauto.
    - left. apply Hk.
    - lia.
    - rewrite decide_True by (apply elem_of_cons; by left). done.
    - lia.
    - lia. }
  assert (Hcl : forall bn', key bn' x -> ~ key bn' y -> view s bn' = disk s bn' /\ refs s bn' = 0).
  { intros bn' Hkx Hky. destruct Hcase as [[Hc _]|(Hc & H0 & _)].
    - apply (cached_iff L s) in Hc as [_ [_ Hb1]]; [|done]. destruct Hkx as [Hd1 Hb2].
      destruct Hky. destruct Hk. split; congruence.
    - assert (cached s bn' = Some (b, x)) as Hc' by by apply (cached_iff L s).
      unfold view, refs. rewrite Hc'. split; [|done].
      destruct (Z.eqb_spec (b_valid x) 0); [done|].
      destruct Hkx as [Hd1 <-]. by apply (bc_clean _ _ Hok b x). }
  assert (Hvr : forall bn', view s' bn' = view s bn' /\
    refs s' bn' = refs s bn' + (if bn' =? bn then 1 else 0)).
  { intros bn'. destruct (Z.eqb_spec bn' bn) as [->|Hne].
    - rewrite <- Hd, <- Hrf. by eapply view_refs_here.
    - rewrite Z.add_0_r. assert (~ key bn' y) by (destruct Hk; intros []; congruence).
      eapply (view_refs_other L); eauto. }
  split; try done.
  - exists y. split_and!; try done. apply list_lookup_insert_eq. by eapply lookup_lt_Some.
  - intros bn'. by destruct (Hvr bn').
  - intros bn'. by destruct (Hvr bn').
  - intros b' z Hin Hz. cbn. rewrite list_lookup_insert_ne; [done|]. by intros ->.
Qed.

(** *** Operations on a buffer that is held *)

(** A step on the buffer [b] of block [bn] after which the block reads [d] and
    has [r] references. *)
Record buf_step (L' : list nat) s (bn : Z) (b : nat) (d : list Z) (r : Z) s' : Prop := {
  bs_frame : io_frame s s';
  bs_ok : bcache_ok L' s';
  bs_view : forall bn', view s' bn' = if bn' =? bn then d else view s bn';
  bs_refs : forall bn', refs s' bn' = if bn' =? bn then r else refs s bn';
  bs_keep : forall b', b' <> b -> bufs s' !! b' = bufs s !! b'
}.

(** The process holds the buffer [b], which is [x] and has the valid contents
    of block [bn]. *)
Definition holds (L : list nat) s (bn : Z) (b : nat) x : Prop :=
  bufs s !! b = Some x /\ b ∈ L /\ key bn x /\ b_valid x <> 0.

Lemma buf_step_intro L L' s s' bn b x x' :
  bcache_ok L s -> holds L s bn b x -> key bn x' -> b_valid x' <> 0 ->
  bufs s' = <[b := x']> (bufs s) -> io_frame s s' ->
  (forall bn', bn' <> bn -> disk s' bn' = disk s bn') -> lru s' ≡ₚ lru s ->
  (forall b', b' <> b -> b' ∈ L' <-> b' ∈ L) -> 0 <= b_refcnt x' < 2^31 ->
  b_lock x' = (if decide (b ∈ L') then my_lock pid else free_lock) ->
  (b ∈ L' -> 1 <= b_refcnt x') -> (b_refcnt x' = 0 -> b_data x' = disk s' bn) ->
  buf_step L' s bn b (b_data x') (b_refcnt x') s'.
Proof.
  intros Hok (Hx & HbL & Hk & Hv) Hk' Hv' Hbufs Hfr Hdisk Hlru HL Hr Hl Hm Hc.
  assert (Hdk : forall bn', ~ key bn' x' -> disk s' bn' = disk s bn').
  { intros bn' Hn. apply Hdisk. by intros ->. }
  assert (Hkk : forall bn', key bn' x' -> cached s bn' = None \/ key bn' x).
  { intros bn' [_ <-]. right. destruct Hk' as [_ ->]. done. }
  assert (Hok' : bcache_ok L' s').
  { eapply (bcache_update L L' s s' b x x'); try done; [left; apply Hk'|].
    intros _ H0 _. rewrite (Hc H0). by destruct Hk' as [_ ->]. }
  assert (Hvr : forall bn', view s' bn' = (if bn' =? bn then b_data x' else view s bn') /\
    refs s' bn' = if bn' =? bn then b_refcnt x' else refs s bn').
  { intros bn'. destruct (Z.eqb_spec bn' bn) as [->|Hne].
    - by eapply view_refs_here.
    - assert (~ key bn' x') by (destruct Hk'; intros []; congruence).
      eapply (view_refs_other L); eauto. intros [_ ?]. destruct Hk. congruence. }
  split; try done; try (intros bn'; by destruct (Hvr bn')).
  intros b' Hne. rewrite Hbufs. by apply list_lookup_insert_ne.
Qed.

Lemma holds_lock L s bn b x : bcache_ok L s -> holds L s bn b x -> b_lock x = my_lock pid.
Proof.
  intros Hok (Hx & HbL & _). rewrite (bc_lock _ _ Hok b x Hx). by rewrite decide_True.
Qed.

Lemma holds_view L s bn b x :
  bcache_ok L s -> holds L s bn b x -> view s bn = b_data x /\ refs s bn = b_refcnt x.
Proof.
  intros Hok (Hx & _ & Hk & Hv). unfold view, refs.
  rewrite (proj2 (cached_iff L s bn b x Hok)) by done. by rewrite (proj2 (Z.eqb_neq _ _) Hv).
Qed.

Lemma holds_bounds L s bn b x :
  bcache_ok L s -> holds L s bn b x -> 1 <= b_refcnt x < 2^31.
Proof.
  intros Hok (Hx & HbL & _). pose proof (bc_mine _ _ Hok b x Hx HbL).
  pose proof (bc_ref _ _ Hok b x Hx). lia.
Qed.

(** Storing into [b->data]. *)
Lemma setdata_spec L s bn b x f :
  bcache_ok L s -> holds L s bn b x ->
  exists s', setb b (fun x => set_b_data (f x) x) s = Ok tt s' /\
    buf_step L s bn b (f x) (b_refcnt x) s' /\ holds L s' bn b (set_b_data (f x) x) /\
    disk s' = disk s /\ writes s' = writes s.
Proof.
  intros Hok Hh. pose proof Hh as (Hx & HbL & Hk & Hv). eexists. split; [by apply setb_run|].
  pose proof (holds_lock L s bn b x Hok Hh). pose proof (holds_bounds L s bn b x Hok Hh).
  split_and!; try done.
  - eapply (buf_step_intro L L s _ bn b x (set_b_data (f x) x)); try done.
    + cbn. lia.
    + by rewrite decide_True.
    + cbn. lia.
    + cbn. lia.
  - split_and!; try done. apply list_lookup_insert_eq. by eapply lookup_lt_Some.
Qed.

Lemma bwrite_spec L s bn b x :
  fs_ctx me pid s -> bcache_ok L s -> holds L s bn b x ->
  exists s', bwrite b s = Ok tt s' /\
    buf_step L s bn b (b_data x) (b_refcnt x) s' /\ holds L s' bn b x /\
    disk s' = <[bn := b_data x]> (disk s) /\ writes s' = writes s ++ [(bn, b_data x)].
Proof.
  intros Hf Hok Hh. pose proof Hh as (Hx & HbL & Hk & Hv). unfold bwrite.
  pose proof (holds_lock L s bn b x Hok Hh) as Hl. pose proof (holds_bounds L s bn b x Hok Hh).
  kstep (holdingsleep_run s b x Hf Hx). rewrite Hl. cbn [sl_locked sl_pid my_lock].
  rewrite Z.eqb_refl. cbn [negb andb Z.eqb]. unfold virtio_disk_rw.
  rewrite bind_run. unfold gets. cbn [obind]. rewrite (fx_held _ _ _ Hf).
  kstep (getb_run s b x Hx). destruct Hk as [Hd Hb]. rewrite Hb. eexists. split; [done|].
  split_and!; try done.
  eapply (buf_step_intro L L s _ bn b x x); try done.
  - cbn. by rewrite list_insert_id.
  - intros bn' Hne. cbn. by rewrite fn_lookup_insert_ne.
  - lia.
  - by rewrite decide_True.
  - lia.
  - lia.
Qed.

(** Changing the reference count under [bcache.lock]. *)
Lemma set_refcnt_spec L s bn b x f :
  fs_ctx me pid s -> bcache_ok L s -> holds L s bn b x -> 1 <= f x < 2^31 ->
  exists s', (acquire L_bcache ;; setb b (fun x => set_b_refcnt (f x) x) ;; release L_bcache) s
      = Ok tt s' /\
    buf_step L s bn b (b_data x) (f x) s' /\ holds L s' bn b (set_b_refcnt (f x) x) /\
    disk s' = disk s /\ writes s' = writes s.
Proof.
  intros Hf Hok Hh Hr. pose proof Hh as (Hx & HbL & Hk & Hv). pose proof (fx_held _ _ _ Hf) as Hhd.
  pose proof (holds_lock L s bn b x Hok Hh).
  kstep (acquire_ok L_bcache s ltac:(rewrite Hhd; apply not_elem_of_nil)). rewrite Hhd.
  kstep (setb_run (set_held [L_bcache] s) b x (fun x => set_b_refcnt (f x) x) Hx).
  exists (set_bufs (<[b := set_b_refcnt (f x) x]> (bufs s)) s). split_and!; try done.
  - rewrite (release_head _ []) by done. clear -Hhd. by destruct s; cbn in *; subst.
  - eapply (buf_step_intro L L s _ bn b x (set_b_refcnt (f x) x)); try done.
    + cbn. lia.
    + by rewrite decide_True.
    + cbn. lia.
    + cbn. lia.
  - split_and!; try done. apply list_lookup_insert_eq. by eapply lookup_lt_Some.
Qed.

Lemma bunpin_spec L s bn b x :
  fs_ctx me pid s -> bcache_ok L s -> holds L s bn b x -> 2 <= b_refcnt x ->
  exists s', bunpin b s = Ok tt s' /\
    buf_step L s bn b (b_data x) (b_refcnt x - 1) s' /\
    holds L s' bn b (set_b_refcnt (b_refcnt x - 1) x) /\
    disk s' = disk s /\ writes s' = writes s.
Proof.
  intros Hf Hok Hh Hr. pose proof (holds_bounds L s bn b x Hok Hh).
  assert (E : u32 (b_refcnt x - 1) = b_refcnt x - 1) by (apply u32_small; ints; lia).
  destruct (set_refcnt_spec L s bn b x (fun x => u32 (b_refcnt x - 1)) Hf Hok Hh) as (s' & Hs);
    rewrite E in *; [lia|]. by exists s'.
Qed.

Lemma bpin_spec L s bn b x :
  fs_ctx me pid s -> bcache_ok L s -> holds L s bn b x -> b_refcnt x < 2^31 - 1 ->
  exists s', bpin b s = Ok tt s' /\
    buf_step L s bn b (b_data x) (b_refcnt x + 1) s' /\
    holds L s' bn b (set_b_refcnt (b_refcnt x + 1) x) /\
    disk s' = disk s /\ writes s' = writes s.
Proof.
  intros Hf Hok Hh Hr. pose proof (holds_bounds L s bn b x Hok Hh).
  assert (E : u32 (b_refcnt x + 1) = b_refcnt x + 1) by (apply u32_small; ints; lia).
  destruct (set_refcnt_spec L s bn b x (fun x => u32 (b_refcnt x + 1)) Hf Hok Hh) as (s' & Hs);
    rewrite E in *; [lia|]. by exists s'.
Qed.

Lemma to_front_perm (b : nat) l : NoDup l -> b ∈ l -> to_front b l ≡ₚ l.
Proof.
  intros Hn Hb. unfold to_front. apply NoDup_Permutation; [|done|].
  - constructor; [|by apply NoDup_filter]. rewrite list_elem_of_filter. by intros [? _].
  - intros c. rewrite elem_of_cons, list_elem_of_filter.
    destruct (decide (c = b)) as [->|]; naive_solver.
Qed.

(** The state after [brelse]. *)
Definition released s (b : nat) x : kernel :=
  let s1 := set_bufs (<[b := set_b_refcnt (b_refcnt x - 1) (set_b_lock free_lock x)]> (bufs s)) s in
  if b_refcnt x =? 1 then set_lru (to_front b (lru s)) s1 else s1.

Lemma brelse_run L s bn b x :
  fs_ctx me pid s -> bcache_ok L s -> holds L s bn b x -> brelse b s = Ok tt (released s b x).
Proof.
  intros Hf Hok Hh. pose proof Hh as (Hx & HbL & Hk & Hv). unfold brelse.
  pose proof (holds_lock L s bn b x Hok Hh) as Hl. pose proof (holds_bounds L s bn b x Hok Hh).
  pose proof (fx_held _ _ _ Hf) as Hhd. pose proof (lookup_lt_Some _ _ _ Hx) as Hlt.
  kstep (holdingsleep_run s b x Hf Hx). rewrite Hl. cbn [sl_locked sl_pid my_lock].
  rewrite Z.eqb_refl. cbn [negb andb Z.eqb].
  kstep (releasesleep_run s b x Hf Hx). set (s1 := set_bufs _ s).
  assert (Hh1 : held s1 = []) by done.
  kstep (acquire_ok L_bcache s1 ltac:(rewrite Hh1; apply not_elem_of_nil)). rewrite Hh1.
  set (s2 := set_held [L_bcache] s1).
  assert (Hx2 : bufs s2 !! b = Some (set_b_lock free_lock x)) by by apply list_lookup_insert_eq.
  kstep (setb_run s2 b _ (fun x => set_b_refcnt (u32 (b_refcnt x - 1)) x) Hx2).
  cbn [b_refcnt set_b_lock]. rewrite u32_small by (ints; lia).
  set (s3 := set_bufs _ s2).
  assert (Hx3 : bufs s3 !! b = Some (set_b_refcnt (b_refcnt x - 1) (set_b_lock free_lock x))).
  { apply list_lookup_insert_eq. unfold s2, s1. cbn. by rewrite length_insert. }
  kstep (getb_run s3 b _ Hx3). unfold released. cbn [b_refcnt set_b_refcnt].
  assert ((b_refcnt x - 1 =? 0) = (b_refcnt x =? 1)) as -> by (destruct (Z.eqb_spec (b_refcnt x) 1); lia).
  unfold when. destruct (b_refcnt x =? 1); rewrite bind_run; cbn [obind modify mret K_ret];
    rewrite (release_head _ []) by done; unfold s3, s2, s1; cbn [bufs set_bufs set_held];
    rewrite list_insert_insert_eq; clear -Hhd; by destruct s; cbn in *; subst.
Qed.

Lemma brelse_spec L L' s bn b x :
  fs_ctx me pid s -> bcache_ok L s -> holds L s bn b x ->
  (forall b', b' ∈ L' <-> b' ∈ L /\ b' <> b) ->
  (b_refcnt x = 1 -> b_data x = disk s bn) ->
  exists s', brelse b s = Ok tt s' /\
    buf_step L' s bn b (b_data x) (b_refcnt x - 1) s' /\
    disk s' = disk s /\ writes s' = writes s.
Proof.
  intros Hf Hok Hh HL Hc. exists (released s b x). split; [by eapply brelse_run|].
  pose proof Hh as (Hx & HbL & Hk & Hv). pose proof (holds_bounds L s bn b x Hok Hh).
  assert (bufs (released s b x) = <[b := set_b_refcnt (b_refcnt x - 1) (set_b_lock free_lock x)]> (bufs s)
    /\ disk (released s b x) = disk s /\ writes (released s b x) = writes s /\
    lru (released s b x) ≡ₚ lru s /\ io_frame s (released s b x)) as (E1 & E2 & E3 & E4 & E5).
  { unfold released. destruct (b_refcnt x =? 1); split_and!; try done. cbn. apply to_front_perm.
    - rewrite (bc_lru _ _ Hok). apply NoDup_seq.
    - by eapply lookup_lru. }
  split_and!; [|done|done].
  eapply (buf_step_intro L L' s _ bn b x (set_b_refcnt (b_refcnt x - 1) (set_b_lock free_lock x))); try done.
  - by rewrite E2.
  - intros b' Hne. rewrite HL. tauto.
  - cbn. lia.
  - rewrite decide_False; [done|]. rewrite HL. tauto.
  - rewrite HL. tauto.
  - cbn. intros H0. rewrite E2. apply Hc. lia.
Qed.

(** *** Room in the cache: fewer than [NBUF] blocks are in use. *)
Lemma cache_room L s (R : list Z) :
  bcache_ok L s -> (length R < Z.to_nat NBUF)%nat ->
  (forall bn, refs s bn <> 0 -> bn ∈ R) ->
  exists b x, bufs s !! b = Some x /\ b_refcnt x = 0.
Proof.
  intros Hok Hlen HR. destruct (decide (Exists (fun x => b_refcnt x = 0) (bufs s))) as [He|Hn].
  { apply Exists_exists in He as (x & Hx & H0). apply list_elem_of_lookup in Hx as [b Hb]. eauto. }
  exfalso. rewrite <- Forall_Exists_neg in Hn.
  assert (Hall : forall b x, bufs s !! b = Some x -> b_refcnt x <> 0 /\ b_dev x = ROOTDEV).
  { intros b x Hx. rewrite Forall_lookup in Hn. pose proof (Hn b x Hx).
    destruct (bc_dev _ _ Hok b x Hx) as [|[]]; done. }
  assert (Hnd : NoDup (b_blockno <$> bufs s)).
  { apply NoDup_alt. intros i j bn Hi Hj.
    apply list_lookup_fmap_Some in Hi as (xi & -> & Hi). apply list_lookup_fmap_Some in Hj as (xj & Hij & Hj).
    eapply (bc_uniq _ _ Hok); [exact Hi|exact Hj| |].
    - split; [by eapply Hall|done].
    - split; [by eapply Hall|done]. }
  assert (Hsub : b_blockno <$> bufs s ⊆ R).
  { intros bn Hbn. apply list_elem_of_fmap in Hbn as (x & -> & Hx).
    apply list_elem_of_lookup in Hx as [b Hb]. apply HR. destruct (Hall b x Hb) as [Hr Hd].
    unfold refs. by rewrite (proj2 (cached_iff L s (b_blockno x) b x Hok)). }
  pose proof (submseteq_length _ _ (NoDup_submseteq _ _ Hnd Hsub)) as Hle.
  rewrite length_fmap, (bc_len _ _ Hok) in Hle. lia.
Qed.

End Runs.

End Bio.
