(* ===== verification/Log.v ===== *)
(** * The write-ahead log ([kernel/log.c])

    A transaction is a set of blocks that are changed in the buffer cache and
    pinned there; [commit] writes them to the log area, then the header, then
    the blocks to their places, then clears the header. *)

From S2P Require Import Prelude Riscv Mem State Printf Sched Bio.

#[local] Open Scope Z_scope.

(** ** Words in a block *)

(** The little-endian number of [n] bytes at offset [off]; what lies beyond the
    block reads as 0. *)
Fixpoint get_le (n : nat) (l : list Z) (off : nat) : Z :=
  match n with
  | O => 0
  | S n' => default 0 (l !! off) + 256 * get_le n' l (S off)
  end.

Fixpoint put_le (n : nat) (v : Z) (off : nat) (l : list Z) : list Z :=
  match n with
  | O => l
  | S n' => put_le n' (v `div` 256) (S off) (<[off := v `mod` 256]> l)
  end.

Definition get32 (l : list Z) (off : nat) : Z := get_le 4 l off.
Definition put32 (v : Z) (off : nat) (l : list Z) : list Z := put_le 4 v off l.

(** ** The log header in a block: [n] and [block[]], as [int]s *)

Definition hdr_n (d : list Z) : Z := i32 (get32 d 0).
Definition hdr_block (d : list Z) (i : nat) : Z := i32 (get32 d (4 + 4 * i)).

Fixpoint put_blocks (bl : list Z) (i : nat) (d : list Z) : list Z :=
  match bl with
  | [] => d
  | x :: bl' => put_blocks bl' (S i) (put32 (u32 x) (4 + 4 * i) d)
  end.

Definition put_header (n : Z) (bl : list Z) (d : list Z) : list Z :=
  put_blocks (take (Z.to_nat n) bl) 0 (put32 (u32 n) 0 d).

Section Log.
Context `{W : Waits}.

Definition getlg : K loginfo := gets lg.
Definition setlg (f : loginfo -> loginfo) : K unit := modify (fun s => set_lg (f (lg s)) s).

(** Reading [log.lh.block[i]]. *)
Definition lh_block (i : nat) : K Z :=
  l ← getlg;
  match lg_block l !! i with
  | Some b => mret b
  | None => stuck "log.lh.block: index"
  end.

Definition recovering_fmt : list Z := str "recovering tail %d dst %d" ++ [10].

(** The body of the loop of [install_trans]. *)
Definition install_block (recovering : bool) (l : loginfo) (tail : nat) : K unit :=
  (if recovering then
     dst ← lh_block tail;
     printf recovering_fmt [A_num tail; A_num dst]
   else mret tt) ;;
  lbuf ← bread (lg_dev l) (u32 (lg_start l + tail + 1));
  dst ← lh_block tail;
  dbuf ← bread (lg_dev l) (u32 dst);
  x ← getb lbuf;
  setb dbuf (set_b_data (b_data x)) ;;
  bwrite dbuf ;;
  when (negb recovering) (bunpin dbuf) ;;
  brelse lbuf ;;
  brelse dbuf.

Definition install_trans (recovering : bool) : K unit :=
  l ← getlg;
  kiter (seq 0 (Z.to_nat (lg_n l))) (fun tail _ => install_block recovering l tail) tt.

Definition read_head : K unit :=
  l ← getlg;
  b ← bread (lg_dev l) (u32 (lg_start l));
  x ← getb b;
  setlg (set_lg_n (hdr_n (b_data x))) ;;
  kiter (seq 0 (Z.to_nat (hdr_n (b_data x)))) (fun i _ =>
    if decide (i < Z.to_nat LOGBLOCKS)%nat then
      setlg (fun l => set_lg_block (<[i := hdr_block (b_data x) i]> (lg_block l)) l)
    else stuck "log.lh.block: index") tt ;;
  brelse b.

Definition write_head : K unit :=
  l ← getlg;
  b ← bread (lg_dev l) (u32 (lg_start l));
  setb b (fun x => set_b_data (put_header (lg_n l) (lg_block l) (b_data x)) x) ;;
  bwrite b ;;
  brelse b.

Definition recover_from_log : K unit :=
  read_head ;;
  install_trans true ;;
  setlg (set_lg_n 0) ;;
  write_head.

(** [sizeof(struct logheader)] *)
Definition sizeof_logheader : Z := 4 + 4 * LOGBLOCKS.

Definition initlog (dev : Z) (b : superblock) : K unit :=
  if BSIZE <=? sizeof_logheader then panic "initlog: too big logheader" else
  setlg (fun l => set_lg_dev dev (set_lg_start (i32 (sb_logstart b)) l)) ;;
  recover_from_log.

(** The loop of [begin_op]: it waits while a commit is under way or the log
    could overflow. *)
Fixpoint begin_wait (fuel : nat) : K unit :=
  l ← getlg;
  if negb (lg_committing l =? 0)
     || (LOGBLOCKS <? lg_n l + (lg_outstanding l + 1) * MAXOPBLOCKS) then
    match fuel with
    | O => stuck "begin_op: waits"
    | S f => sleep C_log L_log ;; begin_wait f
    end
  else
    setlg (fun l => set_lg_outstanding (lg_outstanding l + 1) l) ;;
    release L_log.

Definition begin_op : K unit :=
  acquire L_log ;;
  begin_wait max_waits.

(** The body of the loop of [write_log]. *)
Definition write_log_block (l : loginfo) (tail : nat) : K unit :=
  to ← bread (lg_dev l) (u32 (lg_start l + tail + 1));
  src ← lh_block tail;
  from ← bread (lg_dev l) (u32 src);
  x ← getb from;
  setb to (set_b_data (b_data x)) ;;
  bwrite to ;;
  brelse from ;;
  brelse to.

Definition write_log : K unit :=
  l ← getlg;
  kiter (seq 0 (Z.to_nat (lg_n l))) (fun tail _ => write_log_block l tail) tt.

Definition commit : K unit :=
  l ← getlg;
  when (0 <? lg_n l)
    (write_log ;;
     write_head ;;
     install_trans false ;;
     setlg (set_lg_n 0) ;;
     write_head).

Definition end_op : K unit :=
  acquire L_log ;;
  setlg (fun l => set_lg_outstanding (lg_outstanding l - 1) l) ;;
  l ← getlg;
  if negb (lg_committing l =? 0) then panic "log.committing"
  else
    let do_commit := lg_outstanding l =? 0 in
    (if do_commit then setlg (set_lg_committing 1) else wakeup (Some C_log)) ;;
    release L_log ;;
    when do_commit
      (commit ;;
       acquire L_log ;;
       setlg (set_lg_committing 0) ;;
       wakeup (Some C_log) ;;
       release L_log).

(** The loop of [log_write] that looks for the block: its index in the header,
    or [n]. *)
Fixpoint absorb (bl : list Z) (bn : Z) (n : nat) (i : nat) : nat :=
  match n, bl with
  | S n', x :: bl' => if u32 x =? bn then i else absorb bl' bn n' (S i)
  | _, _ => i
  end.

Definition log_write (b : nat) : K unit :=
  acquire L_log ;;
  l ← getlg;
  if LOGBLOCKS <=? lg_n l then panic "too big a transaction"
  else if lg_outstanding l <? 1 then panic "log_write outside of trans"
  else
    x ← getb b;
    let i := absorb (lg_block l) (b_blockno x) (Z.to_nat (lg_n l)) 0 in
    setlg (fun l => set_lg_block (<[i := i32 (b_blockno x)]> (lg_block l)) l) ;;
    when (i =? Z.to_nat (lg_n l))%nat
      (bpin b ;;
       setlg (fun l => set_lg_n (lg_n l + 1) l)) ;;
    release L_log.

(** ** The header in a block reads back *)

Lemma length_put_le n v off l : length (put_le n v off l) = length l.
Proof. revert v off l. induction n as [|n IH]; intros; [done|]. cbn. by rewrite IH, length_insert. Qed.

Lemma lookup_put_le n v off l i :
  (i < off \/ off + n <= i)%nat -> put_le n v off l !! i = l !! i.
Proof.
  revert v off l. induction n as [|n IH]; intros v off l H; [done|]. cbn.
  rewrite IH by lia. apply list_lookup_insert_ne. lia.
Qed.

Lemma get_le_ext n l l' off :
  (forall i, (off <= i < off + n)%nat -> l !! i = l' !! i) -> get_le n l off = get_le n l' off.
Proof.
  revert off. induction n as [|n IH]; intros off H; [done|]. cbn. rewrite H by lia.
  by rewrite (IH (S off)) by (intros; apply H; lia).
Qed.

Lemma get_put_le n v off l :
  (off + n <= length l)%nat -> 0 <= v < 256 ^ n -> get_le n (put_le n v off l) off = v.
Proof.
  revert v off l. induction n as [|n IH]; intros v off l Hl Hv.
  - cbn in *. lia.
  - cbn [get_le put_le]. rewrite lookup_put_le, list_lookup_insert_eq by lia. cbn [default from_option id].
    rewrite IH; [|rewrite length_insert; lia|].
    + unfold id. pose proof (Z.div_mod v 256). lia.
    + rewrite Nat2Z.inj_succ, Z.pow_succ_r in Hv by lia.
      split; [apply Z.div_pos; lia|apply Z.div_lt_upper_bound; lia].
Qed.

Lemma get_put_le_other n m v off off' l :
  (off + n <= off' \/ off' + m <= off)%nat -> get_le n (put_le m v off' l) off = get_le n l off.
Proof. intros H. apply get_le_ext. intros i Hi. apply lookup_put_le. lia. Qed.

Lemma get_put32 v off l : (off + 4 <= length l)%nat -> is_u32 v -> get32 (put32 v off l) off = v.
Proof. intros Hl Hv. by apply get_put_le. Qed.

Lemma length_put_blocks bl i d : length (put_blocks bl i d) = length d.
Proof.
  revert i d. induction bl as [|x bl IH]; intros i d; [done|].
  cbn [put_blocks]. rewrite IH. apply length_put_le.
Qed.

Lemma get_put_blocks_before bl i d off :
  (off + 4 <= 4 + 4 * i)%nat -> get32 (put_blocks bl i d) off = get32 d off.
Proof.
  revert i d. induction bl as [|x bl IH]; intros i d H; [done|]. cbn [put_blocks].
  rewrite IH by lia. unfold get32, put32. apply get_put_le_other. lia.
Qed.

Lemma get_put_blocks bl i d (j : nat) x :
  (4 + 4 * (i + length bl) <= length d)%nat -> bl !! j = Some x ->
  get32 (put_blocks bl i d) (4 + 4 * (i + j)) = u32 x.
Proof.
  revert i j d. induction bl as [|y bl IH]; intros i j d Hl Hj; [done|]. cbn [put_blocks length] in *.
  destruct j as [|j].
  - injection Hj as ->. rewrite Nat.add_0_r, get_put_blocks_before by lia.
    apply get_put32; [lia|apply u32_range].
  - replace (i + S j)%nat with (S i + j)%nat by lia. apply IH; [|done].
    unfold put32. rewrite length_put_le. lia.
Qed.

(** Reading a header that was written. *)
Lemma header_roundtrip (n : Z) bl d :
  0 <= n <= LOGBLOCKS -> (Z.to_nat n <= length bl)%nat -> length d = Z.to_nat BSIZE ->
  hdr_n (put_header n bl d) = n /\
  forall (i : nat) x, i < n -> bl !! i = Some x -> is_i32 x -> hdr_block (put_header n bl d) i = x.
Proof.
  intros Hn Hbl Hd. unfold LOGBLOCKS, MAXOPBLOCKS, BSIZE in *. unfold hdr_n, hdr_block, put_header. split.
  - rewrite get_put_blocks_before by lia. rewrite get_put32; [|lia|apply u32_range].
    rewrite u32_small by (ints; lia). apply i32_small. ints. lia.
  - intros i x Hi Hx Hr. erewrite (get_put_blocks _ 0 _ i x).
    + ints. unfold i32, u32. rewrite Zplus_mod_idemp_l. apply i32_small. ints. lia.
    + unfold put32. rewrite length_put_le, length_take. lia.
    + rewrite lookup_take_lt by lia. done.
Qed.

(** ** Sequences of block writes *)

Definition apply_writes (w : list (Z * list Z)) (d : Z -> list Z) : Z -> list Z :=
  foldl (fun d x => <[x.1 := x.2]> d) d w.

Lemma apply_writes_app w1 w2 d : apply_writes (w1 ++ w2) d = apply_writes w2 (apply_writes w1 d).
Proof. apply foldl_app. Qed.

Lemma apply_writes_cons k x w d :
  apply_writes ((k, x) :: w) d = apply_writes w (<[k := x]> d).
Proof. done. Qed.

Lemma apply_writes_ext w d d' bn :
  d bn = d' bn -> apply_writes w d bn = apply_writes w d' bn.
Proof.
  revert d d'. induction w as [|[k x] w IH]; intros d d' H; [done|].
  rewrite !apply_writes_cons. apply IH. unfold insert, fn_insert. by case_decide.
Qed.

Lemma apply_writes_other w d bn : bn ∉ w.*1 -> apply_writes w d bn = d bn.
Proof.
  revert d. induction w as [|[k x] w IH]; intros d H; [done|]. rewrite apply_writes_cons.
  apply not_elem_of_cons in H as [H1 H2]. rewrite IH by done. by rewrite fn_lookup_insert_ne.
Qed.

Lemma apply_writes_in w d bn x : NoDup w.*1 -> (bn, x) ∈ w -> apply_writes w d bn = x.
Proof.
  revert d. induction w as [|[k y] w IH]; intros d Hn Hin; [by apply not_elem_of_nil in Hin|].
  rewrite apply_writes_cons. apply NoDup_cons in Hn as [H1 H2]. apply elem_of_cons in Hin as [[= -> ->]|Hin].
  - rewrite apply_writes_other by done. by rewrite fn_lookup_insert.
  - by apply IH.
Qed.

(** ** Runs on the buffers *)

Section Runs.
Context (me : nat) (pid : Z).
Implicit Types (s : kernel) (w : list (Z * list Z)).

(** A run that holds no buffer before and after and writes [w] to the disk. *)
Record io_run s w s' : Prop := {
  ir_frame : io_frame s s';
  ir_ok : bcache_ok pid [] s';
  ir_disk : forall bn, disk s' bn = apply_writes w (disk s) bn;
  ir_view : forall bn, view s' bn = apply_writes w (view s) bn;
  ir_writes : writes s' = writes s ++ w
}.

Lemma io_run_trans s1 w1 s2 w2 s3 : io_run s1 w1 s2 -> io_run s2 w2 s3 -> io_run s1 (w1 ++ w2) s3.
Proof.
  intros [F1 O1 D1 V1 W1] [F2 O2 D2 V2 W2]. split; [by eapply io_frame_trans|done|..].
  - intros bn. rewrite D2, apply_writes_app. apply apply_writes_ext, D1.
  - intros bn. rewrite V2, apply_writes_app. apply apply_writes_ext, V1.
  - by rewrite W2, W1, app_assoc.
Qed.

(** At most [NBUF] blocks are in use, all of them in [R]. *)
Definition fits s (R : list Z) : Prop :=
  (length R <= Z.to_nat NBUF)%nat /\ (forall bn, refs s bn <> 0 -> bn ∈ R).

Lemma clean_view L s bn : bcache_ok pid L s -> refs s bn = 0 -> view s bn = disk s bn.
Proof.
  intros Hok. unfold refs, view. destruct (cached s bn) as [[b x]|] eqn:E; [|done].
  apply (cached_iff pid L s) in E as [Hx [Hd Hb]]; [|done]. intros H0.
  destruct (Z.eqb_spec (b_valid x) 0); [done|]. rewrite <- Hb. by eapply bc_clean.
Qed.

Lemma bread_fits L s bn R :
  fs_ctx me pid s -> bcache_ok pid L s -> fits s R -> bn ∈ R -> refs s bn < 2^31 - 1 ->
  (forall b x, b ∈ L -> bufs s !! b = Some x -> ~ key bn x) ->
  exists b s', bread ROOTDEV bn s = Ok b s' /\ bread_post pid L s bn b s'.
Proof.
  intros Hf Hok (Hlen & HR) Hin Hb HL. apply (bread_spec me); [done|done|done| |].
  - intros b x Hc Hbl. apply (cached_iff pid L s) in Hc as [Hx Hk]; [|done]. by eapply HL.
  - intros Hc. apply (cache_room pid L s (filter (fun x => x <> bn) R) Hok).
    + assert (E : (length (filter (fun x => x <> bn) R) < length R)%nat); [|lia].
      apply list_elem_of_split in Hin as (l1 & l2 & ->).
      rewrite filter_app, filter_cons_False, !length_app by tauto. cbn.
      pose proof (length_filter (fun x => x <> bn) l1). pose proof (length_filter (fun x => x <> bn) l2). lia.
    + intros bn' Hr. apply list_elem_of_filter. split; [|by apply HR].
      intros ->. apply Hr. unfold refs. by rewrite Hc.
Qed.

(** *** Two buffers at a time *)

(** The buffers [a] of block [A] and [b] of block [B] are held, all blocks have
    the contents [v], [r] references, and the disk contains [d] after the
    writes [w]. *)
Record two_held (L : list nat) (A : Z) (a : nat) x (B : Z) (b : nat) y
    (v : Z -> list Z) (r : Z -> Z) (d : Z -> list Z) w s : Prop := {
  th_ctx : fs_ctx me pid s;
  th_ok : bcache_ok pid L s;
  th_L : forall c, c ∈ L <-> c = a \/ c = b;
  th_ne : a <> b;
  th_a : holds L s A a x;
  th_b : holds L s B b y;
  th_view : forall bn, view s bn = v bn;
  th_refs : forall bn, refs s bn = r bn;
  th_disk : disk s = d;
  th_writes : writes s = w
}.

Lemma two_held_sym L A a x B b y v r d w s :
  two_held L A a x B b y v r d w s -> two_held L B b y A a x v r d w s.
Proof.
  intros [? ? HL Hne ? ? ? ? ? ?]. split; try done.
  intros c. rewrite HL. tauto.
Qed.

Lemma holds_other L L' s s' A a B b y dt rc :
  buf_step pid L' s A a dt rc s' -> holds L s B b y -> b <> a -> b ∈ L' -> holds L' s' B b y.
Proof.
  intros [_ _ _ _ Hk] (Hy & _ & ? & ?) Hne Hin. split_and!; try done. by rewrite Hk.
Qed.

Lemma two_held_ne L A a x B b y v r d w s : two_held L A a x B b y v r d w s -> A <> B.
Proof.
  intros [_ Hok _ Hne (Ha & _ & Ka & _) (Hb & _ & Kb & _) _ _ _ _] ->.
  apply Hne. by eapply bc_uniq.
Qed.

Lemma read_two s A B R :
  fs_ctx me pid s -> bcache_ok pid [] s -> fits s R -> A ∈ R -> B ∈ R -> A <> B ->
  refs s A < 2^31 - 1 -> refs s B < 2^31 - 1 ->
  exists a s1 b s2 x y, bread ROOTDEV A s = Ok a s1 /\ io_frame s s1 /\
    bread ROOTDEV B s1 = Ok b s2 /\ io_frame s s2 /\
    two_held [b; a] A a x B b y (view s)
      (fun bn => refs s bn + (if bn =? A then 1 else 0) + (if bn =? B then 1 else 0))
      (disk s) (writes s) s2 /\
    b_data x = view s A /\ b_data y = view s B.
Proof.
  intros Hf Hok Hfit HA HB Hne HrA HrB.
  destruct (bread_fits [] s A R Hf Hok Hfit HA HrA) as (a & s1 & Ha & Pa).
  { by intros b x ?%not_elem_of_nil. }
  destruct Pa as [F1 Ok1 N1 D1 W1 (x & Hx & Kx & Vx & Dx & Rx) V1 R1 _].
  destruct (bread_fits [a] s1 B R) as (b & s2 & Hb & Pb); [by eapply io_frame_ctx|done| |done| | |].
  { destruct Hfit as (Hl & Hin). split; [done|]. intros bn. rewrite R1.
    destruct (Z.eqb_spec bn A) as [->|]; [done|]. rewrite Z.add_0_r. apply Hin. }
  { rewrite R1. destruct (Z.eqb_spec B A); [congruence|lia]. }
  { intros c z ->%list_elem_of_singleton Hz [_ Hk]. destruct Kx. congruence. }
  destruct Pb as [F2 Ok2 N2 D2 W2 (y & Hy & Ky & Vy & Dy & Ry) V2 R2 Keep].
  exists a, s1, b, s2, x, y. split_and!; try done; [by eapply io_frame_trans| |by rewrite Dy].
  split; try done.
  - eapply io_frame_ctx; [exact F2|]. by eapply io_frame_ctx.
  - intros c. rewrite elem_of_cons, list_elem_of_singleton. tauto.
  - intros ->. by apply N2, list_elem_of_singleton.
  - split_and!; try done; [|by right; left]. apply Keep; [by left|done].
  - split_and!; try done. by left.
  - intros bn. by rewrite V2.
  - intros bn. by rewrite R2, R1.
  - by rewrite D2.
  - by rewrite W2.
Qed.

(** A step on the first buffer. *)
Lemma two_held_step L A a x x' B b y v r d w s v' r' d' w' s' dt rc :
  two_held L A a x B b y v r d w s -> buf_step pid L s A a dt rc s' -> holds L s' A a x' ->
  (forall bn, (if bn =? A then dt else v bn) = v' bn) ->
  (forall bn, (if bn =? A then rc else r bn) = r' bn) ->
  disk s' = d' -> writes s' = w' ->
  two_held L A a x' B b y v' r' d' w' s'.
Proof.
  intros [Hf Hok HL Hne Ha Hb Hv Hr Hd Hw] Hs Ha' Hv' Hr' Hd' Hw'. split; try done.
  - eapply io_frame_ctx; [apply Hs|done].
  - apply Hs.
  - eapply holds_other; [done|done|congruence|apply Hb].
  - intros bn. rewrite (bs_view _ _ _ _ _ _ _ _ Hs), Hv. apply Hv'.
  - intros bn. rewrite (bs_refs _ _ _ _ _ _ _ _ Hs), Hr. apply Hr'.
Qed.

Lemma two_held_data L A a x B b y v r d w s :
  two_held L A a x B b y v r d w s -> v A = b_data x /\ r A = b_refcnt x.
Proof.
  intros [Hf Hok HL Hne Ha Hb Hv Hr Hd Hw]. rewrite <- Hv, <- Hr. by eapply holds_view.
Qed.

Lemma eqb_case {T} (f : Z -> T) (A bn : Z) (t : T) :
  f A = t -> (if bn =? A then t else f bn) = f bn.
Proof. destruct (Z.eqb_spec bn A); congruence. Qed.

Lemma insert_case (f : Z -> list Z) (A bn : Z) t :
  (if bn =? A then t else f bn) = <[A := t]> f bn.
Proof. unfold insert, fn_insert. by destruct (Z.eqb_spec bn A); case_decide. Qed.

(** Overwriting the first buffer with the second and writing it out. *)
Lemma copy_dst L T t x S u y v r d w s :
  two_held L T t x S u y v r d w s ->
  exists s1 s', setb t (set_b_data (b_data y)) s = Ok tt s1 /\ bwrite t s1 = Ok tt s' /\
    io_frame s s' /\
    two_held L T t (set_b_data (b_data y) x) S u y (<[T := b_data y]> v) r
      (<[T := b_data y]> d) (w ++ [(T, b_data y)]) s'.
Proof.
  intros Hth. destruct (two_held_data _ _ _ _ _ _ _ _ _ _ _ _ Hth) as [Hvx Hrx].
  destruct (setdata_spec pid L s T t x (fun _ => b_data y) (th_ok _ _ _ _ _ _ _ _ _ _ _ _ Hth)
    (th_a _ _ _ _ _ _ _ _ _ _ _ _ Hth)) as (s1 & H1 & S1 & Ha1 & D1 & W1).
  assert (Hth1 : two_held L T t (set_b_data (b_data y) x) S u y (<[T := b_data y]> v) r d w s1).
  { eapply two_held_step; try done.
    - intros bn. apply insert_case.
    - intros bn. by apply eqb_case.
    - rewrite D1. apply Hth.
    - rewrite W1. apply Hth. }
  destruct (bwrite_spec me pid L s1 T t _ (th_ctx _ _ _ _ _ _ _ _ _ _ _ _ Hth1)
    (th_ok _ _ _ _ _ _ _ _ _ _ _ _ Hth1) (th_a _ _ _ _ _ _ _ _ _ _ _ _ Hth1))
    as (s2 & H2 & S2 & Ha2 & D2 & W2).
  exists s1, s2. split_and!; try done.
  - eapply io_frame_trans; [apply S1|apply S2].
  - eapply two_held_step; try done.
    + intros bn. apply eqb_case. by rewrite fn_lookup_insert.
    + intros bn. by apply eqb_case.
    + by rewrite D2, (th_disk _ _ _ _ _ _ _ _ _ _ _ _ Hth1).
    + by rewrite W2, (th_writes _ _ _ _ _ _ _ _ _ _ _ _ Hth1).
Qed.

Definition is_ (A bn : Z) : Z := if bn =? A then 1 else 0.

Lemma unpin_dst L A a x B b y v r d w s :
  two_held L A a x B b y v r d w s -> 2 <= b_refcnt x ->
  exists s', bunpin a s = Ok tt s' /\ io_frame s s' /\
    two_held L A a (set_b_refcnt (b_refcnt x - 1) x) B b y v (fun bn => r bn - is_ A bn) d w s'.
Proof.
  intros Hth H2. destruct (two_held_data _ _ _ _ _ _ _ _ _ _ _ _ Hth) as [Hvx Hrx].
  destruct (bunpin_spec me pid L s A a x (th_ctx _ _ _ _ _ _ _ _ _ _ _ _ Hth)
    (th_ok _ _ _ _ _ _ _ _ _ _ _ _ Hth) (th_a _ _ _ _ _ _ _ _ _ _ _ _ Hth) H2)
    as (s1 & H1 & S1 & Ha1 & D1 & W1).
  exists s1. split_and!; [done|apply S1|]. eapply two_held_step; try done.
  - intros bn. by apply eqb_case.
  - intros bn. unfold is_. destruct (Z.eqb_spec bn A); subst; lia.
  - rewrite D1. apply Hth.
  - rewrite W1. apply Hth.
Qed.

Lemma release_two L A a x B b y v r d w s :
  two_held L A a x B b y v r d w s ->
  (b_refcnt x = 1 -> b_data x = d A) -> (b_refcnt y = 1 -> b_data y = d B) ->
  exists s1 s', brelse a s = Ok tt s1 /\ brelse b s1 = Ok tt s' /\ io_frame s s' /\
    bcache_ok pid [] s' /\ (forall bn, view s' bn = v bn) /\
    (forall bn, refs s' bn = r bn - is_ A bn - is_ B bn) /\ disk s' = d /\ writes s' = w.
Proof.
  intros Hth Hca Hcb. destruct (two_held_data _ _ _ _ _ _ _ _ _ _ _ _ Hth) as [Hvx Hrx].
  destruct (two_held_data _ _ _ _ _ _ _ _ _ _ _ _ (two_held_sym _ _ _ _ _ _ _ _ _ _ _ _ Hth)) as [Hvy Hry].
  pose proof (two_held_ne _ _ _ _ _ _ _ _ _ _ _ _ Hth) as HAB.
  destruct Hth as [Hf Hok HL Hne Ha Hb Hv Hr Hd Hw].
  destruct (brelse_spec me pid L [b] s A a x Hf Hok Ha) as (s1 & H1 & S1 & D1 & W1).
  { intros c. rewrite list_elem_of_singleton, HL. naive_solver. }
  { by rewrite Hd. }
  assert (Hb1 : holds [b] s1 B b y) by (eapply holds_other; [done|done|congruence|by left]).
  assert (Hf1 : fs_ctx me pid s1) by (eapply io_frame_ctx; [apply S1|done]).
  destruct (brelse_spec me pid [b] [] s1 B b y Hf1 (bs_ok _ _ _ _ _ _ _ _ S1) Hb1) as (s2 & H2 & S2 & D2 & W2).
  { intros c. rewrite list_elem_of_singleton, elem_of_nil. tauto. }
  { by rewrite D1, Hd. }
  exists s1, s2. split_and!; try done.
  - eapply io_frame_trans; [apply S1|apply S2].
  - apply S2.
  - intros bn. rewrite (bs_view _ _ _ _ _ _ _ _ S2), (bs_view _ _ _ _ _ _ _ _ S1), !Hv.
    destruct (Z.eqb_spec bn B); subst; [done|]. destruct (Z.eqb_spec bn A); by subst.
  - intros bn. rewrite (bs_refs _ _ _ _ _ _ _ _ S2), (bs_refs _ _ _ _ _ _ _ _ S1), !Hr. unfold is_.
    destruct (Z.eqb_spec bn B); subst; destruct (Z.eqb_spec bn A) || idtac; subst; try lia.
    destruct (Z.eqb_spec B A); subst; lia.
  - by rewrite D2, D1.
  - by rewrite W2, W1.
Qed.

(** *** The loops of [write_log] and [install_trans] *)

(** A block outside the log area. *)
Definition home (start bn : Z) : Prop := 0 <= bn < 2^31 /\ ~ (start <= bn <= start + LOGBLOCKS).

(** The log as a transaction finds it: its area on the disk and the blocks [bl]
    in the header. *)
Record log_ok (l : loginfo) (bl : list Z) : Prop := {
  lo_dev : lg_dev l = ROOTDEV;
  lo_start : 0 <= lg_start l /\ lg_start l + LOGBLOCKS < 2^31;
  lo_n : lg_n l = length bl;
  lo_len : (length bl <= Z.to_nat LOGBLOCKS)%nat;
  lo_block : forall i bn, bl !! i = Some bn -> lg_block l !! i = Some bn;
  lo_home : Forall (home (lg_start l)) bl;
  lo_nodup : NoDup bl
}.

Lemma home_u32 start bn : home start bn -> u32 bn = bn.
Proof. intros [H _]. apply u32_small. ints. lia. Qed.

Lemma log_slot l bl (i : nat) :
  log_ok l bl -> (i < length bl)%nat -> u32 (lg_start l + i + 1) = lg_start l + i + 1.
Proof.
  intros Hl Hi. pose proof (lo_start _ _ Hl). pose proof (lo_len _ _ Hl). unfold LOGBLOCKS, MAXOPBLOCKS in *.
  apply u32_small. ints. lia.
Qed.

Lemma lh_block_run l bl s (i : nat) bn :
  lg s = l -> log_ok l bl -> bl !! i = Some bn -> lh_block i s = Ok bn s.
Proof.
  intros Hs Hl Hi. unfold lh_block, getlg. rewrite bind_run. unfold gets. cbn [obind].
  rewrite Hs, (lo_block _ _ Hl i bn Hi). done.
Qed.

Lemma log_slot_home l bl (i : nat) bn :
  log_ok l bl -> bl !! i = Some bn -> bn <> lg_start l + i + 1 /\ home (lg_start l) bn.
Proof.
  intros Hl Hi. pose proof (lo_home _ _ Hl) as Hh. rewrite Forall_lookup in Hh.
  pose proof (Hh i bn Hi) as H. split; [|done]. destruct H as [_ H].
  apply lookup_lt_Some in Hi. pose proof (lo_len _ _ Hl). unfold LOGBLOCKS, MAXOPBLOCKS in *. lia.
Qed.

Lemma write_log_block_spec l bl s R (i : nat) bn :
  fs_ctx me pid s -> bcache_ok pid [] s -> lg s = l -> log_ok l bl -> bl !! i = Some bn ->
  fits s R -> bn ∈ R -> lg_start l + i + 1 ∈ R -> (forall bn, refs s bn < 2^30) ->
  exists s', write_log_block l i s = Ok tt s' /\
    io_run s [(lg_start l + i + 1, view s bn)] s' /\ (forall bn, refs s' bn = refs s bn).
Proof.
  intros Hf Hok Hs Hl Hi Hfit HbR HlR Hsm. destruct (log_slot_home l bl i bn Hl Hi) as [Hne Hh].
  pose proof (lookup_lt_Some _ _ _ Hi) as Hlt. set (D := lg_start l + i + 1) in *.
  destruct (read_two s D bn R Hf Hok Hfit HlR HbR (not_eq_sym Hne))
    as (a & s1 & b & s2 & x & y & H1 & F1 & H2 & F2 & Hth & Hdx & Hdy);
    [pose proof (Hsm D); lia|pose proof (Hsm bn); lia|].
  destruct (two_held_data _ _ _ _ _ _ _ _ _ _ _ _ (two_held_sym _ _ _ _ _ _ _ _ _ _ _ _ Hth)) as [_ Hry].
  destruct (copy_dst _ _ _ _ _ _ _ _ _ _ _ _ Hth) as (s3 & s4 & H3 & H4 & F4 & Hth4).
  destruct (release_two _ _ _ _ _ _ _ _ _ _ _ _ (two_held_sym _ _ _ _ _ _ _ _ _ _ _ _ Hth4))
    as (s5 & s6 & H5 & H6 & F6 & Ok6 & V6 & R6 & D6 & W6).
  { rewrite <- Hry. rewrite (proj2 (Z.eqb_neq bn D)), Z.eqb_refl by done. intros H0.
    rewrite fn_lookup_insert_ne by done. rewrite Hdy. apply (clean_view [] s bn Hok). lia. }
  { intros _. by rewrite fn_lookup_insert. }
  exists s6. split_and!.
  - unfold write_log_block. rewrite (lo_dev _ _ Hl), (log_slot l bl i Hl Hlt). fold D.
    kstep H1. kstep (lh_block_run l bl s1 i bn ltac:(by rewrite (io_frame_lg _ _ F1)) Hl Hi).
    rewrite (home_u32 _ _ Hh). kstep H2.
    kstep (getb_run s2 b y (proj1 (th_b _ _ _ _ _ _ _ _ _ _ _ _ Hth))).
    kstep H3. kstep H4. kstep H5. done.
  - rewrite Hdy in *. split; [|done|intros bn'; by rewrite D6|done|done].
    eapply io_frame_trans; [exact F2|]. by eapply io_frame_trans.
  - intros bn'. rewrite R6. unfold is_. lia.
Qed.

Lemma recovering_msg (tail : nat) dst s :
  held s = [] -> exists o, printf recovering_fmt [A_num tail; A_num dst] s = Ok tt (set_output o s).
Proof.
  intros Hh. destruct (printf_prints recovering_fmt [A_num tail; A_num dst] s) as [w Hw].
  - rewrite Hh. apply not_elem_of_nil.
  - change recovering_fmt with
      (str "recovering tail " ++ 37 :: 100 :: str " dst " ++ 37 :: 100 :: [10] ++ []).
    apply prints_text; [by repeat constructor|]. apply prints_d.
    apply prints_text; [by repeat constructor|]. apply prints_d.
    apply prints_text; [by repeat constructor|]. apply prints_ret.
  - by eexists.
Qed.

Lemma unpin_if (recovering : bool) L A a x B b y v r d w s :
  two_held L A a x B b y v r d w s -> (recovering = false -> 2 <= b_refcnt x) ->
  exists x' s', when (negb recovering) (bunpin a) s = Ok tt s' /\ io_frame s s' /\
    b_data x' = b_data x /\
    two_held L A a x' B b y v (fun bn => r bn - if recovering then 0 else is_ A bn) d w s'.
Proof.
  intros Hth Hr. destruct recovering; cbn [negb when].
  - exists x, s. split_and!; try done; [apply io_frame_refl|].
    destruct Hth; split; try done. intros bn. rewrite Z.sub_0_r. auto.
  - destruct (unpin_dst _ _ _ _ _ _ _ _ _ _ _ _ Hth (Hr eq_refl)) as (s' & ? & ? & ?).
    exists (set_b_refcnt (b_refcnt x - 1) x), s'. by split_and!.
Qed.

Lemma install_copy_spec (recovering : bool) l bl s R (i : nat) bn :
  fs_ctx me pid s -> bcache_ok pid [] s -> lg s = l -> log_ok l bl -> bl !! i = Some bn ->
  fits s R -> bn ∈ R -> lg_start l + i + 1 ∈ R -> (forall bn, refs s bn < 2^30) ->
  (recovering = false -> 1 <= refs s bn) ->
  exists s', (lbuf ← bread (lg_dev l) (u32 (lg_start l + i + 1));
      dst ← lh_block i;
      dbuf ← bread (lg_dev l) (u32 dst);
      x ← getb lbuf;
      setb dbuf (set_b_data (b_data x)) ;;
      bwrite dbuf ;;
      when (negb recovering) (bunpin dbuf) ;;
      brelse lbuf ;;
      brelse dbuf) s = Ok tt s' /\
    io_run s [(bn, view s (lg_start l + i + 1))] s' /\
    (forall bn', refs s' bn' = refs s bn' - if recovering then 0 else is_ bn bn').
Proof.
  intros Hf Hok Hs Hl Hi Hfit HbR HlR Hsm Hpin. destruct (log_slot_home l bl i bn Hl Hi) as [Hne Hh].
  pose proof (lookup_lt_Some _ _ _ Hi) as Hlt. rewrite (lo_dev _ _ Hl), (log_slot l bl i Hl Hlt).
  set (D := lg_start l + i + 1) in *.
  destruct (read_two s D bn R Hf Hok Hfit HlR HbR (not_eq_sym Hne))
    as (a & s1 & b & s2 & x & y & H1 & F1 & H2 & F2 & Hth & Hdx & Hdy);
    [pose proof (Hsm D); lia|pose proof (Hsm bn); lia|].
  destruct (two_held_data _ _ _ _ _ _ _ _ _ _ _ _ Hth) as [_ Hrx].
  apply two_held_sym in Hth.
  destruct (two_held_data _ _ _ _ _ _ _ _ _ _ _ _ Hth) as [_ Hry].
  rewrite Z.eqb_refl, (proj2 (Z.eqb_neq D bn)) in Hrx by done.
  rewrite Z.eqb_refl, (proj2 (Z.eqb_neq bn D)) in Hry by done.
  destruct (copy_dst _ _ _ _ _ _ _ _ _ _ _ _ Hth) as (s3 & s4 & H3 & H4 & F4 & Hth4).
  destruct (unpin_if recovering _ _ _ _ _ _ _ _ _ _ _ _ Hth4) as (y' & s5 & H5 & F5 & Hd5 & Hth5).
  { intros E. specialize (Hpin E). cbn. lia. }
  destruct (release_two _ _ _ _ _ _ _ _ _ _ _ _ (two_held_sym _ _ _ _ _ _ _ _ _ _ _ _ Hth5))
    as (s6 & s7 & H6 & H7 & F7 & Ok7 & V7 & R7 & D7 & W7).
  { intros H0. rewrite fn_lookup_insert_ne by done. rewrite Hdx. apply (clean_view [] s D Hok). lia. }
  { intros _. rewrite fn_lookup_insert. by rewrite Hd5. }
  exists s7. split_and!.
  - kstep H1. kstep (lh_block_run l bl s1 i bn ltac:(by rewrite (io_frame_lg _ _ F1)) Hl Hi).
    rewrite (home_u32 _ _ Hh). kstep H2.
    kstep (getb_run s2 a x (proj1 (th_b _ _ _ _ _ _ _ _ _ _ _ _ Hth))).
    kstep H3. kstep H4. kstep H5. kstep H6. done.
  - rewrite Hdx in *. split; [|done|intros bn'; by rewrite D7|done|done].
    eapply io_frame_trans; [exact F2|]. eapply io_frame_trans; [exact F4|]. by eapply io_frame_trans.
  - intros bn'. rewrite R7. unfold is_. destruct recovering; lia.
Qed.

(** Printing changes nothing the buffer code looks at. *)
Lemma io_run_output o s w s' : io_run (set_output o s) w s' -> io_run s w s'.
Proof. intros [F O D V W']. by split. Qed.

Lemma install_block_spec (recovering : bool) l bl s R (i : nat) bn :
  fs_ctx me pid s -> bcache_ok pid [] s -> lg s = l -> log_ok l bl -> bl !! i = Some bn ->
  fits s R -> bn ∈ R -> lg_start l + i + 1 ∈ R -> (forall bn, refs s bn < 2^30) ->
  (recovering = false -> 1 <= refs s bn) ->
  exists s', install_block recovering l i s = Ok tt s' /\
    io_run s [(bn, view s (lg_start l + i + 1))] s' /\
    (forall bn', refs s' bn' = refs s bn' - if recovering then 0 else is_ bn bn').
Proof.
  intros Hf Hok Hs Hl Hi Hfit HbR HlR Hsm Hpin. unfold install_block.
  assert (Hp : exists s0, (if recovering then dst ← lh_block i; printf recovering_fmt [A_num i; A_num dst]
     else mret tt) s = Ok tt s0 /\ (s0 = s \/ exists o, s0 = set_output o s)).
  { destruct recovering; [|by exists s; auto]. rewrite (bind_ok _ _ _ _ _ (lh_block_run l bl s i bn Hs Hl Hi)).
    destruct (recovering_msg i bn s (fx_held _ _ _ Hf)) as [o Ho]. eauto. }
  destruct Hp as (s0 & H0 & Hs0). kstep H0. destruct Hs0 as [->|[o ->]].
  - by eapply install_copy_spec.
  - destruct (install_copy_spec recovering l bl (set_output o s) R i bn) as (s' & H' & Hr & Hrf); try done.
    + destruct Hf; by split.
    + destruct Hok; by split.
    + exists s'. split_and!; [done|by eapply io_run_output|done].
Qed.

(** The blocks that the two loops write: block [k + j] of the log gets the
    contents of the home block [bl[j]], and back. *)
Fixpoint log_writes (start : Z) (k : nat) (bl : list Z) (v : Z -> list Z) : list (Z * list Z) :=
  match bl with
  | [] => []
  | bn :: bl' => (start + k + 1, v bn) :: log_writes start (S k) bl' v
  end.

Fixpoint home_writes (start : Z) (k : nat) (bl : list Z) (v : Z -> list Z) : list (Z * list Z) :=
  match bl with
  | [] => []
  | bn :: bl' => (bn, v (start + k + 1)) :: home_writes start (S k) bl' v
  end.

Lemma log_writes_ext start k bl v v' :
  (forall bn, bn ∈ bl -> v bn = v' bn) -> log_writes start k bl v = log_writes start k bl v'.
Proof.
  revert k. induction bl as [|bn bl IH]; intros k H; [done|]. cbn.
  rewrite H by by left. f_equal. apply IH. intros. apply H. by right.
Qed.

Lemma home_writes_ext start k bl v v' :
  (forall j : nat, (k <= j < k + length bl)%nat -> v (start + j + 1) = v' (start + j + 1)) ->
  home_writes start k bl v = home_writes start k bl v'.
Proof.
  revert k. induction bl as [|bn bl IH]; intros k H; [done|]. cbn in *.
  rewrite H by lia. f_equal. apply IH. intros. apply H. lia.
Qed.

Lemma fits_cons s s' R bn :
  (forall bn, refs s' bn <> 0 -> refs s bn <> 0) -> (length R < Z.to_nat NBUF)%nat ->
  (forall bn, refs s bn <> 0 -> bn ∈ R) -> fits s' (bn :: R).
Proof. intros Hr Hl HR. split; [cbn; lia|]. intros bn' H. right. by apply HR, Hr. Qed.

Lemma drop_cons_lookup {A} (l : list A) (k : nat) x t :
  drop k l = x :: t -> l !! k = Some x /\ drop (S k) l = t.
Proof.
  intros H. split.
  - rewrite <- (Nat.add_0_r k), <- lookup_drop, H. done.
  - rewrite <- (Nat.add_1_r k), <- drop_drop, H. done.
Qed.

Lemma write_log_loop l bl R : forall (tl : list Z) (k : nat) s,
  fs_ctx me pid s -> bcache_ok pid [] s -> lg s = l -> log_ok l bl -> drop k bl = tl ->
  (length R < Z.to_nat NBUF)%nat -> (forall bn, refs s bn <> 0 -> bn ∈ R) ->
  (forall bn, bn ∈ tl -> bn ∈ R) -> (forall bn, refs s bn < 2^30) ->
  exists s', kiter (seq k (length tl)) (fun tail _ => write_log_block l tail) tt s = Ok tt s' /\
    io_run s (log_writes (lg_start l) k tl (view s)) s' /\ (forall bn, refs s' bn = refs s bn).
Proof.
  induction tl as [|bn tl IH]; intros k s Hf Hok Hs Hl Htl Hlen HR HtR Hsm.
  - exists s. split_and!; [done| |done]. split; [apply io_frame_refl|done..|]. by rewrite app_nil_r.
  - destruct (drop_cons_lookup _ _ _ _ Htl) as [Hi Htl'].
    destruct (write_log_block_spec l bl s (lg_start l + k + 1 :: R) k bn) as (s1 & H1 & Hr1 & Rf1); try done.
    { by apply (fits_cons s). }
    { right. apply HtR. by left. }
    { by left. }
    destruct (IH (S k) s1) as (s2 & H2 & Hr2 & Rf2); try done.
    { eapply io_frame_ctx; [apply Hr1|done]. }
    { apply Hr1. }
    { by rewrite (io_frame_lg _ _ (ir_frame _ _ _ Hr1)). }
    { intros bn'. rewrite Rf1. apply HR. }
    { intros bn' Hb. apply HtR. by right. }
    { intros bn'. by rewrite Rf1. }
    exists s2. split_and!.
    + cbn [length seq kiter]. by rewrite (bind_ok _ _ _ _ _ H1).
    + cbn [log_writes]. erewrite (log_writes_ext _ _ _ (view s) (view s1)); [by eapply (io_run_trans s [_] s1)|].
      intros bn' Hb. rewrite (ir_view _ _ _ Hr1). symmetry. apply apply_writes_other. cbn.
      intros ->%list_elem_of_singleton.
      assert (Hin : lg_start l + k + 1 ∈ bl) by (rewrite <- (take_drop (S k) bl), Htl'; apply elem_of_app; by right).
      pose proof (lo_home _ _ Hl) as Hh. rewrite Forall_forall in Hh. apply Hh in Hin as [_ Hn].
      apply Hn. apply lookup_lt_Some in Hi. pose proof (lo_len _ _ Hl). unfold LOGBLOCKS, MAXOPBLOCKS in *. lia.
    + intros bn'. by rewrite Rf2.
Qed.

Lemma log_slot_not_home l bl (i : nat) bn :
  log_ok l bl -> (i < length bl)%nat -> bn ∈ bl -> bn <> lg_start l + i + 1.
Proof.
  intros Hl Hi Hb ->. pose proof (lo_home _ _ Hl) as Hh. rewrite Forall_forall in Hh.
  apply Hh in Hb as [_ Hn]. pose proof (lo_len _ _ Hl). unfold LOGBLOCKS, MAXOPBLOCKS in *. lia.
Qed.

Lemma occ_cons_is bn bn' tl : occ bn' (bn :: tl) = is_ bn bn' + occ bn' tl.
Proof. cbn. unfold is_. destruct (Z.eqb_spec bn' bn); by case_decide. Qed.

Lemma install_loop (recovering : bool) l bl R : forall (tl : list Z) (k : nat) s,
  fs_ctx me pid s -> bcache_ok pid [] s -> lg s = l -> log_ok l bl -> drop k bl = tl -> NoDup tl ->
  (length R + (if recovering then 2 else 1) <= Z.to_nat NBUF)%nat ->
  (forall bn, refs s bn <> 0 -> bn ∈ R) ->
  (recovering = false -> forall bn, bn ∈ tl -> bn ∈ R /\ 1 <= refs s bn) ->
  (forall bn, refs s bn < 2^30) ->
  exists s', kiter (seq k (length tl)) (fun tail _ => install_block recovering l tail) tt s = Ok tt s' /\
    io_run s (home_writes (lg_start l) k tl (view s)) s' /\
    (forall bn, refs s' bn = refs s bn - if recovering then 0 else occ bn tl).
Proof.
  induction tl as [|bn tl IH]; intros k s Hf Hok Hs Hl Htl Hnd Hlen HR Hpin Hsm.
  - exists s. split_and!; [done| |intros bn; destruct recovering; cbn; lia].
    split; [apply io_frame_refl|done..|]. by rewrite app_nil_r.
  - destruct (drop_cons_lookup _ _ _ _ Htl) as [Hi Htl']. apply NoDup_cons in Hnd as [Hbn Hnd].
    pose proof (lookup_lt_Some _ _ _ Hi) as Hlt. pose proof (length_drop bl k) as Hld.
    rewrite Htl in Hld. cbn in Hld.
    set (R' := if recovering then bn :: lg_start l + k + 1 :: R else lg_start l + k + 1 :: R).
    destruct (install_block_spec recovering l bl s R' k bn) as (s1 & H1 & Hr1 & Rf1); try done.
    { unfold R'. split; [destruct recovering; cbn; lia|]. intros bn' Hb. apply HR in Hb.
      destruct recovering; rewrite !elem_of_cons; auto. }
    { unfold R'. destruct recovering; [by left|right]. apply Hpin; [done|by left]. }
    { unfold R'. destruct recovering; [right|]; by left. }
    { intros E. apply Hpin; [done|by left]. }
    destruct (IH (S k) s1) as (s2 & H2 & Hr2 & Rf2); try done.
    { eapply io_frame_ctx; [apply Hr1|done]. }
    { apply Hr1. }
    { by rewrite (io_frame_lg _ _ (ir_frame _ _ _ Hr1)). }
    { intros bn'. rewrite Rf1. intros Hb. apply HR. destruct recovering; [lia|].
      unfold is_ in Hb. destruct (Z.eqb_spec bn' bn); [subst|lia].
      specialize (Hpin eq_refl bn ltac:(by left)). lia. }
    { intros E bn' Hb. destruct (Hpin E bn' ltac:(by right)). split; [done|].
      rewrite Rf1, E. unfold is_. destruct (Z.eqb_spec bn' bn); [by subst|lia]. }
    { intros bn'. rewrite Rf1. specialize (Hsm bn'). unfold is_. destruct recovering, (bn' =? bn); lia. }
    exists s2. split_and!.
    + cbn [length seq kiter]. by rewrite (bind_ok _ _ _ _ _ H1).
    + cbn [home_writes]. erewrite (home_writes_ext _ _ _ (view s) (view s1)); [by eapply (io_run_trans s [_] s1)|].
      intros j Hj. rewrite (ir_view _ _ _ Hr1). symmetry. apply apply_writes_other. cbn.
      intros Hin%list_elem_of_singleton. eapply (log_slot_not_home l bl j); [done| | |symmetry; exact Hin]; [lia|].
      by eapply list_elem_of_lookup_2.
    + intros bn'. rewrite Rf2, Rf1. destruct recovering; [lia|]. rewrite occ_cons_is. lia.
Qed.

(** *** One buffer: the header *)

Lemma modify_block s R bn f :
  fs_ctx me pid s -> bcache_ok pid [] s -> fits s R -> bn ∈ R -> refs s bn < 2^31 - 1 ->
  exists s', (b ← bread ROOTDEV bn;
      setb b (fun x => set_b_data (f (b_data x)) x) ;;
      bwrite b ;;
      brelse b) s = Ok tt s' /\
    io_run s [(bn, f (view s bn))] s' /\ (forall bn, refs s' bn = refs s bn).
Proof.
  intros Hf Hok Hfit HbR Hr.
  destruct (bread_fits [] s bn R Hf Hok Hfit HbR Hr) as (b & s1 & H1 & P1).
  { by intros b x ?%not_elem_of_nil. }
  destruct P1 as [F1 Ok1 N1 D1 W1 (x & Hx & Kx & Vx & Dx & Rx) V1 R1 _].
  assert (Hh1 : holds [b] s1 bn b x) by (split_and!; [done|by left|done|done]).
  destruct (setdata_spec pid [b] s1 bn b x (fun x => f (b_data x)) Ok1 Hh1) as (s2 & H2 & S2 & Hh2 & D2 & W2).
  assert (Hf2 : fs_ctx me pid s2).
  { eapply io_frame_ctx; [apply S2|]. by eapply io_frame_ctx. }
  destruct (bwrite_spec me pid [b] s2 bn b _ Hf2 (bs_ok _ _ _ _ _ _ _ _ S2) Hh2) as (s3 & H3 & S3 & Hh3 & D3 & W3).
  assert (Hf3 : fs_ctx me pid s3) by (eapply io_frame_ctx; [apply S3|done]).
  destruct (brelse_spec me pid [b] [] s3 bn b _ Hf3 (bs_ok _ _ _ _ _ _ _ _ S3) Hh3) as (s4 & H4 & S4 & D4 & W4).
  { intros c. rewrite list_elem_of_singleton, elem_of_nil. tauto. }
  { intros _. rewrite D3, fn_lookup_insert. done. }
  cbn [b_data b_refcnt set_b_data] in *.
  exists s4. split_and!.
  - kstep H1. kstep H2. kstep H3. done.
  - split.
    + do 3 (eapply io_frame_trans; [|apply S4 || apply S3 || apply S2]). done.
    + apply S4.
    + intros bn'. by rewrite D4, D3, D2, D1, Dx.
    + intros bn'. rewrite (bs_view _ _ _ _ _ _ _ _ S4), (bs_view _ _ _ _ _ _ _ _ S3),
        (bs_view _ _ _ _ _ _ _ _ S2), V1, Dx. cbn. rewrite <- insert_case. by destruct (bn' =? bn).
    + by rewrite W4, W3, W2, W1, Dx.
  - intros bn'. rewrite (bs_refs _ _ _ _ _ _ _ _ S4), (bs_refs _ _ _ _ _ _ _ _ S3),
      (bs_refs _ _ _ _ _ _ _ _ S2), R1, Rx. destruct (Z.eqb_spec bn' bn); subst; lia.
Qed.

Lemma write_head_spec l bl s R :
  fs_ctx me pid s -> bcache_ok pid [] s -> lg s = l -> log_ok l bl ->
  (length R < Z.to_nat NBUF)%nat -> (forall bn, refs s bn <> 0 -> bn ∈ R) ->
  (forall bn, refs s bn < 2^30) ->
  exists s', write_head s = Ok tt s' /\
    io_run s [(lg_start l, put_header (lg_n l) (lg_block l) (view s (lg_start l)))] s' /\
    (forall bn, refs s' bn = refs s bn).
Proof.
  intros Hf Hok Hs Hl Hlen HR Hsm. pose proof (lo_start _ _ Hl) as Hst. unfold LOGBLOCKS, MAXOPBLOCKS in Hst.
  unfold write_head, getlg. rewrite bind_run. unfold gets. cbn [obind]. rewrite Hs, (lo_dev _ _ Hl), u32_small by (ints; lia).
  apply (modify_block s (lg_start l :: R) (lg_start l) (put_header (lg_n l) (lg_block l))); try done.
  - by apply (fits_cons s).
  - by left.
  - specialize (Hsm (lg_start l)). lia.
Qed.

(** *** Reading the header *)

Definition hdr_blocks (d : list Z) : list Z :=
  (fun i => hdr_block d i) <$> seq 0 (Z.to_nat (hdr_n d)).

Lemma lookup_hdr_blocks d (i : nat) :
  (i < Z.to_nat (hdr_n d))%nat -> hdr_blocks d !! i = Some (hdr_block d i).
Proof. intros H. unfold hdr_blocks. by rewrite list_lookup_fmap, lookup_seq_lt. Qed.

Lemma length_hdr_blocks d : length (hdr_blocks d) = Z.to_nat (hdr_n d).
Proof. unfold hdr_blocks. by rewrite length_fmap, length_seq. Qed.

(** The copy loop of [read_head]. *)
Lemma read_blocks_run (f : nat -> Z) : forall (m k : nat) s,
  (k + m <= Z.to_nat LOGBLOCKS)%nat -> length (lg_block (lg s)) = Z.to_nat LOGBLOCKS ->
  exists bl, kiter (seq k m) (fun i _ =>
      if decide (i < Z.to_nat LOGBLOCKS)%nat then
        setlg (fun l => set_lg_block (<[i := f i]> (lg_block l)) l)
      else stuck "log.lh.block: index") tt s = Ok tt (set_lg (set_lg_block bl (lg s)) s) /\
    length bl = Z.to_nat LOGBLOCKS /\
    (forall i, (k <= i < k + m)%nat -> bl !! i = Some (f i)) /\
    (forall i, (i < k)%nat -> bl !! i = lg_block (lg s) !! i).
Proof.
  induction m as [|m IH]; intros k s Hk Hlen.
  - exists (lg_block (lg s)). cbn. split_and!; [|done|lia|done]. f_equal. by destruct s as [??????????????[]].
  - destruct (IH (S k) (set_lg (set_lg_block (<[k := f k]> (lg_block (lg s))) (lg s)) s))
      as (bl & Hrun & Hl & Hin & Hout); [lia|cbn; by rewrite length_insert|].
    exists bl. cbn [seq kiter]. rewrite bind_run, decide_True by lia. cbn [setlg modify obind].
    split_and!; [exact Hrun|done| |].
    + intros i Hi. destruct (decide (i = k)) as [->|]; [|apply Hin; lia].
      rewrite Hout by lia. cbn. apply list_lookup_insert_eq. lia.
    + intros i Hi. rewrite Hout by lia. cbn. apply list_lookup_insert_ne. lia.
Qed.

Lemma read_head_spec s :
  fs_ctx me pid s -> bcache_ok pid [] s -> lg_dev (lg s) = ROOTDEV ->
  0 <= lg_start (lg s) /\ lg_start (lg s) + LOGBLOCKS < 2^31 ->
  length (lg_block (lg s)) = Z.to_nat LOGBLOCKS -> (forall bn, refs s bn = 0) ->
  let d := disk s (lg_start (lg s)) in
  0 <= hdr_n d <= LOGBLOCKS ->
  exists bl s', read_head s = Ok tt s' /\
    io_run (set_lg (set_lg_block bl (set_lg_n (hdr_n d) (lg s))) s) [] s' /\
    (forall bn, refs s' bn = 0) /\ length bl = Z.to_nat LOGBLOCKS /\
    (forall i x, hdr_blocks d !! i = Some x -> bl !! i = Some x).
Proof.
  intros Hf Hok Hdev Hst Hlen Hr0 d Hn. set (st := lg_start (lg s)) in *.
  assert (Hst' : u32 st = st) by (apply u32_small; ints; unfold LOGBLOCKS, MAXOPBLOCKS in *; lia).
  destruct (bread_fits [] s st [st] Hf Hok) as (b & s1 & H1 & P1).
  { split; [cbn; unfold NBUF, MAXOPBLOCKS; lia|]. intros bn. by rewrite Hr0. }
  { by left. }
  { by rewrite Hr0. }
  { by intros b x ?%not_elem_of_nil. }
  destruct P1 as [F1 Ok1 N1 D1 W1 (x & Hx & Kx & Vx & Dx & Rx) V1 R1 _].
  rewrite (clean_view [] s st Hok (Hr0 st)) in Dx. fold d in Dx. rewrite Hr0 in Rx.
  assert (Hlg1 : lg s1 = lg s) by by apply io_frame_lg.
  destruct (read_blocks_run (fun i => hdr_block (b_data x) i) (Z.to_nat (hdr_n d)) 0
    (set_lg (set_lg_n (hdr_n d) (lg s1)) s1)) as (bl & Hrun & Hl & Hin & _).
  { cbn. unfold LOGBLOCKS in *. lia. }
  { cbn. by rewrite Hlg1. }
  set (s2 := set_lg (set_lg_block bl (set_lg_n (hdr_n d) (lg s1))) s1).
  assert (Hf2 : fs_ctx me pid s2) by (apply (io_frame_ctx _ _ _ _ F1) in Hf; destruct Hf; by split).
  assert (Hok2 : bcache_ok pid [b] s2) by (destruct Ok1; by split).
  assert (Hh2 : holds [b] s2 st b x) by (split_and!; [done|by left|done|done]).
  destruct (brelse_spec me pid [b] [] s2 st b x Hf2 Hok2 Hh2) as (s3 & H3 & S3 & D3 & W3).
  { intros c. rewrite list_elem_of_singleton, elem_of_nil. tauto. }
  { intros _. rewrite Dx. cbn. by rewrite D1. }
  exists bl, s3. split_and!.
  - unfold read_head, getlg. rewrite bind_run. unfold gets. cbn [obind]. rewrite Hdev. fold st. rewrite Hst'.
    kstep H1. kstep (getb_run s1 b x Hx). rewrite Dx.
    rewrite bind_run. cbn [setlg modify obind]. rewrite Dx in Hrun. kstep Hrun. exact H3.
  - split.
    + eapply io_frame_trans; [|apply S3]. unfold s2. rewrite Hlg1. unfold io_frame in *. cbn. rewrite F1. done.
    + apply S3.
    + intros bn. rewrite D3. cbn. by rewrite D1.
    + intros bn. rewrite (bs_view _ _ _ _ _ _ _ _ S3). change (view s2 bn) with (view s1 bn). rewrite V1, Dx. cbn.
      apply (eqb_case (view s)). by apply (clean_view []).
    + rewrite W3, app_nil_r. cbn. by rewrite W1.
  - intros bn. rewrite (bs_refs _ _ _ _ _ _ _ _ S3), Rx. change (refs s2 bn) with (refs s1 bn). rewrite R1, Hr0.
    destruct (bn =? st); lia.
  - done.
  - intros i y Hi. pose proof (lookup_lt_Some _ _ _ Hi) as Hlt. rewrite length_hdr_blocks in Hlt.
    rewrite lookup_hdr_blocks in Hi by done. injection Hi as <-. rewrite Hin by lia. by rewrite Dx.
Qed.

(** *** Recovery *)

Definition hdr_ok (start : Z) (d : list Z) : Prop :=
  0 <= hdr_n d <= LOGBLOCKS /\ Forall (home start) (hdr_blocks d) /\ NoDup (hdr_blocks d).

(** A machine that starts with an empty cache; the log is at [start]. *)
Record fresh_boot (start : Z) s : Prop := {
  fb_ctx : fs_ctx me pid s;
  fb_ok : bcache_ok pid [] s;
  fb_refs : forall bn, refs s bn = 0;
  fb_dev : lg_dev (lg s) = ROOTDEV;
  fb_start : lg_start (lg s) = start;
  fb_range : 0 <= start /\ start + LOGBLOCKS < 2^31;
  fb_len : length (lg_block (lg s)) = Z.to_nat LOGBLOCKS
}.

(** The blocks that recovery writes when the disk contains [d]. *)
Definition recovery_writes (start : Z) (d : Z -> list Z) : list (Z * list Z) :=
  home_writes start 0 (hdr_blocks (d start)) d ++ [(start, put_header 0 [] (d start))].

Lemma put_header_0 bl d : put_header 0 bl d = put_header 0 [] d.
Proof. done. Qed.

Lemma home_writes_fst start k bl v : (home_writes start k bl v).*1 = bl.
Proof. revert k. induction bl as [|bn bl IH]; intros k; [done|]. cbn. by rewrite IH. Qed.

Lemma start_not_home start bl : Forall (home start) bl -> start ∉ bl.
Proof. intros H Hin. rewrite Forall_forall in H. apply H in Hin as [_ []]. unfold LOGBLOCKS, MAXOPBLOCKS. lia. Qed.

Lemma fs_ctx_lg l s : fs_ctx me pid s -> fs_ctx me pid (set_lg l s).
Proof. intros []. by split. Qed.

Lemma bcache_ok_lg L l s : bcache_ok pid L s -> bcache_ok pid L (set_lg l s).
Proof. intros []. by split. Qed.

(** Erasing the header, at the end of a commit and of recovery. *)
Lemma clear_head_spec l bl s R :
  fs_ctx me pid s -> bcache_ok pid [] s -> lg s = l -> log_ok l bl ->
  (length R < Z.to_nat NBUF)%nat -> (forall bn, refs s bn <> 0 -> bn ∈ R) ->
  (forall bn, refs s bn < 2^30) ->
  exists s', (setlg (set_lg_n 0) ;; write_head) s = Ok tt s' /\
    io_run (set_lg (set_lg_n 0 l) s)
      [(lg_start l, put_header 0 [] (view s (lg_start l)))] s' /\
    (forall bn, refs s' bn = refs s bn).
Proof.
  intros Hf Hok Hs Hl Hlen HR Hsm. subst l.
  apply (write_head_spec (set_lg_n 0 (lg s)) [] (set_lg (set_lg_n 0 (lg s)) s) R); try done.
  - by apply fs_ctx_lg.
  - by apply bcache_ok_lg.
  - destruct Hl. split; try done; cbn; lia || constructor.
Qed.

(** Installing the blocks of the log and erasing it: the second half of a
    commit, and recovery. *)
Lemma install_clear_run (recovering : bool) l bl R s :
  fs_ctx me pid s -> bcache_ok pid [] s -> lg s = l -> log_ok l bl ->
  (length R + (if recovering then 2 else 1) <= Z.to_nat NBUF)%nat ->
  (forall bn, refs s bn <> 0 -> bn ∈ R) ->
  (recovering = false -> forall bn, bn ∈ bl -> bn ∈ R /\ 1 <= refs s bn) ->
  (forall bn, 0 <= refs s bn < 2^30) ->
  exists s', (install_trans recovering ;; setlg (set_lg_n 0) ;; write_head) s = Ok tt s' /\
    io_run (set_lg (set_lg_n 0 l) s)
      (home_writes (lg_start l) 0 bl (view s) ++ [(lg_start l, put_header 0 [] (view s (lg_start l)))]) s' /\
    (forall bn, refs s' bn = refs s bn - if recovering then 0 else occ bn bl).
Proof.
  intros Hf Hok Hs Hl Hlen HR Hpin Hsm.
  destruct (install_loop recovering l bl R bl 0 s) as (s1 & H1 & Hr1 & R1); try done.
  { apply Hl. }
  { intros bn. apply Hsm. }
  assert (Hlg1 : lg s1 = l) by (by rewrite (io_frame_lg _ _ (ir_frame _ _ _ Hr1))).
  assert (Hle : forall bn, 0 <= (if recovering then 0 else occ bn bl)).
  { intros bn. pose proof (occ_nonneg bn bl). by destruct recovering. }
  destruct (clear_head_spec l bl s1 R) as (s2 & H2 & Hr2 & R2); try done.
  { eapply io_frame_ctx; [apply Hr1|done]. }
  { apply Hr1. }
  { destruct recovering; lia. }
  { intros bn. rewrite R1. intros Hb. apply HR. specialize (Hpin). destruct recovering; [lia|].
    destruct (decide (bn ∈ bl)) as [Hin|Hin].
    - destruct (Hpin eq_refl bn Hin). lia.
    - rewrite occ_not in Hb by done. lia. }
  { intros bn. rewrite R1. specialize (Hle bn). destruct (Hsm bn). lia. }
  exists s2. split_and!.
  - unfold install_trans, getlg. rewrite bind_run, bind_run. unfold gets. cbn [obind].
    rewrite Hs, (lo_n _ _ Hl), Nat2Z.id, H1. cbn [obind]. exact H2.
  - rewrite (ir_view _ _ _ Hr1), apply_writes_other in Hr2.
    + eapply io_run_trans; [|exact Hr2]. destruct Hr1 as [F O D V W']. split; try done.
      * unfold io_frame in *. by rewrite F.
      * by apply bcache_ok_lg.
    + rewrite home_writes_fst. by apply start_not_home, Hl.
  - intros bn. by rewrite R2, R1.
Qed.

Lemma recover_run start s :
  fresh_boot start s -> hdr_ok start (disk s start) ->
  exists s', recover_from_log s = Ok tt s' /\ bcache_ok pid [] s' /\ lg_n (lg s') = 0 /\
    writes s' = writes s ++ recovery_writes start (disk s) /\
    (forall bn, disk s' bn = apply_writes (recovery_writes start (disk s)) (disk s) bn).
Proof.
  intros [Hf Hok Hr0 Hdev Hst Hrg Hlen] (Hn & Hhome & Hnd). unfold recover_from_log.
  destruct (read_head_spec s) as (bl & s1 & H1 & Hr1 & R1 & Hbl & Hin); try done; rewrite ?Hst; try done.
  rewrite Hst in *. set (d := disk s start) in *.
  set (l1 := set_lg_block bl (set_lg_n (hdr_n d) (lg s))) in *.
  assert (Hl1 : log_ok l1 (hdr_blocks d)).
  { split; try done; unfold l1; cbn; rewrite ?Hst; try done.
    - rewrite length_hdr_blocks. lia.
    - rewrite length_hdr_blocks. unfold LOGBLOCKS in *. lia. }
  destruct (install_clear_run true l1 (hdr_blocks d) [] s1) as (s2 & H2 & Hr2 & R2); try done.
  { eapply io_frame_ctx; [apply Hr1|]. by apply fs_ctx_lg. }
  { apply Hr1. }
  { apply (io_frame_lg _ _ (ir_frame _ _ _ Hr1)). }
  { cbn. unfold NBUF, MAXOPBLOCKS. lia. }
  { intros bn. by rewrite R1. }
  { intros bn. by rewrite R1. }
  assert (HV : forall bn, view s1 bn = disk s bn).
  { intros bn. rewrite (ir_view _ _ _ Hr1). by apply (clean_view [] s). }
  change (lg_start l1) with (lg_start (lg s)) in Hr2. rewrite Hst, HV in Hr2. fold d in Hr2.
  rewrite (home_writes_ext _ _ _ (view s1) (disk s)) in Hr2 by (intros; apply HV).
  exists s2. split_and!.
  - kstep H1. exact H2.
  - apply Hr2.
  - rewrite (io_frame_lg _ _ (ir_frame _ _ _ Hr2)). done.
  - rewrite (ir_writes _ _ _ Hr2). cbn. rewrite (ir_writes _ _ _ Hr1). cbn. by rewrite app_nil_r.
  - intros bn. rewrite (ir_disk _ _ _ Hr2). apply apply_writes_ext. apply (ir_disk _ _ _ Hr1).
Qed.

(** *** Commit *)

(** A transaction that is ready to commit: the blocks [bl] are changed in the
    cache and pinned; at most [NBUF - 1] blocks [R] are in use; the header on
    the disk is empty. *)
Record txn_ok s (bl R : list Z) : Prop := {
  tx_ctx : fs_ctx me pid s;
  tx_ok : bcache_ok pid [] s;
  tx_log : log_ok (lg s) bl;
  tx_room : (length R < Z.to_nat NBUF)%nat;
  tx_used : forall bn, refs s bn <> 0 -> bn ∈ R;
  tx_pin : forall bn, bn ∈ bl -> 1 <= refs s bn;
  tx_small : forall bn, 0 <= refs s bn < 2^30;
  tx_hdr : length (view s (lg_start (lg s))) = Z.to_nat BSIZE;
  tx_empty : hdr_n (disk s (lg_start (lg s))) = 0
}.

(** The new contents of the blocks. *)
Definition new_home (bl : list Z) (v : Z -> list Z) : list (Z * list Z) :=
  (fun bn => (bn, v bn)) <$> bl.

(** The writes of a commit, in order. *)
Definition commit_writes (start : Z) (bl : list Z) (v : Z -> list Z) : list (Z * list Z) :=
  let h := put_header (length bl) bl (v start) in
  (log_writes start 0 bl v ++ [(start, h)]) ++ new_home bl v ++ [(start, put_header 0 [] h)].

Lemma log_writes_fst start k bl v :
  (log_writes start k bl v).*1 = (fun j : nat => start + j + 1) <$> seq k (length bl).
Proof. revert k. induction bl as [|bn bl IH]; intros k; [done|]. cbn. by rewrite IH. Qed.

Lemma length_log_writes start k bl v : length (log_writes start k bl v) = length bl.
Proof. revert k. induction bl as [|bn bl IH]; intros k; [done|]. cbn. by rewrite IH. Qed.

Lemma log_writes_elem start k bl v (j : nat) bn :
  bl !! j = Some bn -> (start + (k + j)%nat + 1, v bn) ∈ log_writes start k bl v.
Proof.
  revert k j. induction bl as [|b bl IH]; intros k j Hj; [done|]. destruct j as [|j]; cbn.
  - injection Hj as ->. rewrite Nat.add_0_r. by left.
  - right. replace (k + S j)%nat with (S k + j)%nat by lia. by apply IH.
Qed.

Lemma apply_log_writes start bl v d (j : nat) bn :
  bl !! j = Some bn -> apply_writes (log_writes start 0 bl v) d (start + j + 1) = v bn.
Proof.
  intros Hj. apply apply_writes_in; [|by apply (log_writes_elem start 0 bl v j bn)].
  rewrite log_writes_fst. apply NoDup_fmap_2; [|apply NoDup_seq]. intros i i' H. lia.
Qed.

Lemma home_writes_new start k bl v v' :
  (forall (j : nat) bn, bl !! j = Some bn -> v' (start + (k + j)%nat + 1) = v bn) ->
  home_writes start k bl v' = new_home bl v.
Proof.
  revert k. induction bl as [|b bl IH]; intros k H; [done|]. cbn. f_equal.
  - f_equal. rewrite <- (H 0%nat b eq_refl). by rewrite Nat.add_0_r.
  - apply IH. intros j bn Hj. rewrite <- (H (S j) bn Hj). f_equal. lia.
Qed.

Lemma log_block_take l bl : log_ok l bl -> take (length bl) (lg_block l) = bl.
Proof.
  intros Hl. apply list_eq. intros i. destruct (decide (i < length bl)%nat) as [Hi|Hi].
  - rewrite lookup_take_lt by done. destruct (lookup_lt_is_Some_2 bl i Hi) as [bn Hbn].
    by rewrite Hbn, (lo_block _ _ Hl i bn Hbn).
  - rewrite lookup_take_ge, lookup_ge_None_2 by lia. done.
Qed.

Lemma put_header_take n bl bl' d :
  0 <= n -> take (Z.to_nat n) bl = bl' -> put_header n bl d = put_header n bl' d.
Proof. intros Hn <-. unfold put_header. by rewrite take_take, Nat.min_id. Qed.

Lemma slot_ne_start (start : Z) (j : nat) : start + j + 1 <> start.
Proof. lia. Qed.

Lemma commit_run s bl R :
  txn_ok s bl R -> bl <> [] ->
  let start := lg_start (lg s) in
  exists s', commit s = Ok tt s' /\
    io_run (set_lg (set_lg_n 0 (lg s)) s) (commit_writes start bl (view s)) s' /\
    (forall bn, refs s' bn = refs s bn - occ bn bl).
Proof.
  intros [Hf Hok Hl Hroom HR Hpin Hsm Hhd He] Hne start. pose proof (lo_n _ _ Hl) as Hn.
  destruct (write_log_loop (lg s) bl R bl 0 s) as (s1 & H1 & Hr1 & R1); try done.
  { intros bn Hb. apply HR. pose proof (Hpin bn Hb). lia. }
  { intros bn. apply Hsm. }
  assert (Hf1 : fs_ctx me pid s1) by (eapply io_frame_ctx; [apply Hr1|done]).
  assert (Hlg1 : lg s1 = lg s) by apply (io_frame_lg _ _ (ir_frame _ _ _ Hr1)).
  destruct (write_head_spec (lg s) bl s1 R) as (s2 & H2 & Hr2 & R2); try done.
  { apply Hr1. }
  { intros bn. rewrite R1. apply HR. }
  { intros bn. rewrite R1. apply Hsm. }
  destruct (install_clear_run false (lg s) bl R s2) as (s3 & H3 & Hr3 & R3); try done.
  { eapply io_frame_ctx; [apply Hr2|done]. }
  { apply Hr2. }
  { by rewrite (io_frame_lg _ _ (ir_frame _ _ _ Hr2)). }
  { lia. }
  { intros bn. rewrite R2, R1. apply HR. }
  { intros _ bn Hb. rewrite R2, R1. pose proof (Hpin bn Hb). split; [apply HR; lia|lia]. }
  { intros bn. rewrite R2, R1. apply Hsm. }
  exists s3. fold start in Hr1, Hr2, Hr3. split_and!.
  - unfold commit, getlg. rewrite bind_run. unfold gets. cbn [obind].
    assert ((0 <? lg_n (lg s)) = true) as -> by (rewrite Hn; destruct bl; [done|apply Z.ltb_lt; cbn; lia]). cbn [when].
    rewrite bind_run. unfold write_log, getlg. rewrite bind_run. unfold gets. cbn [obind].
    rewrite Hn, Nat2Z.id, H1. cbn [obind]. kstep H2. exact H3.
  - rewrite (ir_view _ _ _ Hr1 start) in Hr2.
    rewrite apply_writes_other, Hn, (put_header_take _ _ bl) in Hr2;
      [|lia|rewrite Nat2Z.id; by apply log_block_take|].
    2:{ rewrite log_writes_fst, list_elem_of_fmap. intros (j & Hj & _). lia. }
    pose proof (io_run_trans _ _ _ _ _ Hr1 Hr2) as Hr12.
    rewrite (home_writes_new start 0 bl (view s)) in Hr3.
    2:{ intros j bn Hj. rewrite (ir_view _ _ _ Hr12), apply_writes_app, apply_writes_other.
        - by apply apply_log_writes.
        - cbn. rewrite list_elem_of_singleton. lia. }
    rewrite (ir_view _ _ _ Hr2 start) in Hr3.
    replace (apply_writes [(start, put_header (length bl) bl (view s start))] (view s1) start)
      with (put_header (length bl) bl (view s start)) in Hr3 by (cbn; by rewrite fn_lookup_insert).
    unfold commit_writes. eapply io_run_trans; [|exact Hr3]. destruct Hr12 as [F O D V W']. split; try done.
    + unfold io_frame in *. by rewrite F.
    + by apply bcache_ok_lg.
  - intros bn. by rewrite R3, R2, R1.
Qed.

(** *** [log_write] *)

Lemma absorb_in (bl rest : list Z) bn (i : nat) :
  Forall (fun x => u32 x = x) bl -> bn ∈ bl ->
  exists j, bl !! j = Some bn /\ absorb (bl ++ rest) bn (length bl) i = (i + j)%nat.
Proof.
  intros Hu. revert i. induction Hu as [|x bl Hx Hu IH]; intros i Hin; [by apply not_elem_of_nil in Hin|].
  cbn [absorb length app]. rewrite Hx. destruct (Z.eqb_spec x bn) as [->|Hne].
  - exists 0%nat. split; [done|lia].
  - apply elem_of_cons in Hin as [->|Hin]; [done|]. destruct (IH (S i) Hin) as (j & Hj & E).
    exists (S j). split; [done|]. rewrite E. lia.
Qed.

Lemma absorb_out (bl rest : list Z) bn (i : nat) :
  Forall (fun x => u32 x = x) bl -> bn ∉ bl ->
  absorb (bl ++ rest) bn (length bl) i = (i + length bl)%nat.
Proof.
  intros Hu. revert i. induction Hu as [|x bl Hx Hu IH]; intros i Hout; [cbn; by destruct rest; cbn; lia|].
  apply not_elem_of_cons in Hout as [Hne Hout]. cbn [absorb length app]. rewrite Hx.
  destruct (Z.eqb_spec x bn); [done|]. rewrite IH by done. lia.
Qed.

Lemma log_block_split l bl : log_ok l bl -> exists rest, lg_block l = bl ++ rest.
Proof.
  intros Hl. exists (drop (length bl) (lg_block l)).
  rewrite <- (take_drop (length bl) (lg_block l)) at 1. by rewrite log_block_take.
Qed.

Lemma log_ok_u32 l bl : log_ok l bl -> Forall (fun x => u32 x = x) bl.
Proof. intros Hl. eapply Forall_impl; [apply Hl|]. intros x. apply home_u32. Qed.

Lemma log_ok_snoc l bl bn :
  log_ok l bl -> home (lg_start l) bn -> bn ∉ bl -> length (lg_block l) = Z.to_nat LOGBLOCKS ->
  lg_n l < LOGBLOCKS ->
  log_ok (set_lg_n (lg_n l + 1) (set_lg_block (<[length bl := bn]> (lg_block l)) l)) (bl ++ [bn]).
Proof.
  intros Hl Hh Hn Hlen Hlt. pose proof (lo_n _ _ Hl) as En. destruct Hl as [D S N Le B H Nd].
  split; try done; cbn.
  - rewrite length_app. cbn. lia.
  - rewrite length_app. cbn. lia.
  - intros i x Hx. destruct (decide (i = length bl)) as [->|Hi].
    + rewrite list_lookup_middle in Hx by done. injection Hx as ->. apply list_lookup_insert_eq. lia.
    + rewrite list_lookup_insert_ne by done. apply B. rewrite lookup_app_Some in Hx.
      destruct Hx as [|[Hge Hx]]; [done|]. apply list_lookup_singleton_Some in Hx as [Hx _]. lia.
  - apply Forall_app. split; [done|]. by apply Forall_singleton.
  - apply NoDup_app. split_and!; [done| |apply NoDup_singleton]. intros x Hx ->%list_elem_of_singleton. done.
Qed.

(** The effect of [log_write] on the header and the cache. *)
Record log_write_post (L : list nat) s (bl : list Z) (bn : Z) (b : nat) s' : Prop := {
  lw_log : log_ok (lg s') (if decide (bn ∈ bl) then bl else bl ++ [bn]);
  lw_len : length (lg_block (lg s')) = Z.to_nat LOGBLOCKS;
  lw_rest : lg_start (lg s') = lg_start (lg s) /\ lg_outstanding (lg s') = lg_outstanding (lg s) /\
    lg_committing (lg s') = lg_committing (lg s);
  lw_ctx : fs_ctx me pid s';
  lw_ok : bcache_ok pid L s';
  lw_buf : exists x', holds L s' bn b x';
  lw_view : forall bn', view s' bn' = view s bn';
  lw_refs : forall bn', refs s' bn' = refs s bn' + if decide (bn ∈ bl) then 0 else is_ bn bn';
  lw_disk : disk s' = disk s;
  lw_writes : writes s' = writes s;
  lw_frame : io_frame (set_lg (lg s') s) s'
}.

Lemma set_lg_block_same l bl (j : nat) bn :
  log_ok l bl -> bl !! j = Some bn -> set_lg_block (<[j := bn]> (lg_block l)) l = l.
Proof.
  intros Hl Hj. rewrite list_insert_id by by eapply lo_block. by destruct l.
Qed.

(** What [absorb] finds in the header. *)
Lemma absorb_log l bl bn :
  log_ok l bl ->
  if decide (bn ∈ bl)
  then exists j, bl !! j = Some bn /\ absorb (lg_block l) bn (Z.to_nat (lg_n l)) 0 = j
  else absorb (lg_block l) bn (Z.to_nat (lg_n l)) 0 = length bl.
Proof.
  intros Hl. destruct (log_block_split _ _ Hl) as [rest ->]. rewrite (lo_n _ _ Hl), Nat2Z.id.
  pose proof (log_ok_u32 _ _ Hl) as Hu. case_decide; [by apply (absorb_in _ _ _ 0)|by apply absorb_out].
Qed.

Lemma bpin_run s b x :
  L_bcache ∉ held s -> bufs s !! b = Some x ->
  bpin b s = Ok tt (set_bufs (<[b := set_b_refcnt (u32 (b_refcnt x + 1)) x]> (bufs s)) s).
Proof.
  intros Hh Hx. unfold bpin. kstep (acquire_ok L_bcache s Hh).
  kstep (setb_run (set_held (L_bcache :: held s) s) b x (fun x => set_b_refcnt (u32 (b_refcnt x + 1)) x) Hx).
  rewrite (release_head _ (held s)) by done. by destruct s.
Qed.

Lemma log_write_run L s bl bn b x :
  fs_ctx me pid s -> bcache_ok pid L s -> holds L s bn b x -> b_refcnt x < 2^31 - 1 ->
  log_ok (lg s) bl -> home (lg_start (lg s)) bn -> length (lg_block (lg s)) = Z.to_nat LOGBLOCKS ->
  lg_n (lg s) < LOGBLOCKS -> 1 <= lg_outstanding (lg s) ->
  exists s', log_write b s = Ok tt s' /\ log_write_post L s bl bn b s'.
Proof.
  intros Hf Hok Hh Hr Hl Hhm Hlen Hn Ho. pose proof Hh as (Hx & HbL & Hk & Hv).
  pose proof (fx_held _ _ _ Hf) as Hhd. unfold log_write.
  kstep (acquire_ok L_log s ltac:(rewrite Hhd; apply not_elem_of_nil)). rewrite Hhd.
  unfold getlg. rewrite bind_run. unfold gets. cbn [obind lg set_held].
  rewrite (proj2 (Z.leb_gt _ _)) by done. rewrite (proj2 (Z.ltb_ge _ _)) by done.
  kstep (getb_run (set_held [L_log] s) b x Hx). assert (Hbn : b_blockno x = bn) by apply Hk. rewrite Hbn.
  cbv zeta. pose proof (absorb_log (lg s) bl bn Hl) as Hab. rewrite (lo_n _ _ Hl), Nat2Z.id in *.
  assert (Hi : i32 bn = bn) by (destruct Hhm as [? _]; apply i32_small; ints; lia). rewrite Hi.
  destruct (decide (bn ∈ bl)) as [Hin|Hout].
  - destruct Hab as (j & Hj & ->). pose proof (lookup_lt_Some _ _ _ Hj) as Hlt.
    rewrite (proj2 (Nat.eqb_neq _ _)) by lia.
    rewrite bind_run. cbn [setlg modify obind lg set_held]. cbn [when].
    rewrite (set_lg_block_same _ bl j bn Hl Hj). cbn [mret K_ret].
    rewrite bind_run. cbn [obind mret K_ret]. rewrite (release_head _ []) by done.
    exists s. split; [f_equal; clear -Hhd; by destruct s; cbn in *; subst|].
    split; rewrite ?decide_True by done; try done; [by exists x| |by destruct s].
    intros bn'. rewrite decide_True by done. lia.
  - rewrite Hab, Nat.eqb_refl. cbn [when].
    rewrite bind_run. cbn [setlg modify obind lg set_held].
    set (l1 := set_lg_block (<[length bl := bn]> (lg_block (lg s))) (lg s)).
    set (s1 := set_lg l1 (set_held [L_log] s)).
    assert (Hb1 : bpin b s1 = Ok tt (set_bufs (<[b := set_b_refcnt (u32 (b_refcnt x + 1)) x]> (bufs s)) s1)).
    { apply (bpin_run s1 b x); [|done]. by intros ?%list_elem_of_singleton. }
    rewrite bind_run, bind_run, Hb1. cbn [obind setlg modify]. rewrite (release_head _ []) by done.
    destruct (bpin_spec me pid L s bn b x Hf Hok Hh Hr) as (s2 & H2 & S2 & Hh2 & D2 & W2).
    rewrite (bpin_run s b x) in H2 by (done || (rewrite Hhd; apply not_elem_of_nil)). injection H2 as H2.
    exists (set_lg (set_lg_n (lg_n (lg s) + 1) l1) s2). split.
    { rewrite <- H2. f_equal. clear -Hhd. by destruct s; cbn in *; subst. }
    assert (Hrx : refs s bn = b_refcnt x) by (by eapply holds_view).
    assert (Hvx : view s bn = b_data x) by (by eapply holds_view).
    split; rewrite ?decide_False by done; try done.
    + by apply log_ok_snoc; rewrite ?(lo_n _ _ Hl).
    + cbn. by rewrite length_insert.
    + apply fs_ctx_lg. eapply io_frame_ctx; [apply S2|done].
    + apply bcache_ok_lg, S2.
    + eexists. exact Hh2.
    + intros bn'. change (view s2 bn' = view s bn'). rewrite (bs_view _ _ _ _ _ _ _ _ S2). by apply eqb_case.
    + intros bn'. change (refs s2 bn' = refs s bn' + if decide (bn ∈ bl) then 0 else is_ bn bn').
      rewrite (bs_refs _ _ _ _ _ _ _ _ S2), decide_False by done. unfold is_.
      destruct (Z.eqb_spec bn' bn); subst; lia.
    + pose proof (bs_frame _ _ _ _ _ _ _ _ S2) as F2. unfold io_frame in *. rewrite F2. by destruct s.
Qed.

(** *** [begin_op] and [end_op] *)

(** Setting the counters of the log. *)
Definition set_busy (out com : Z) (l : loginfo) : loginfo :=
  set_lg_committing com (set_lg_outstanding out l).

Lemma log_ok_busy out com l bl : log_ok l bl -> log_ok (set_busy out com l) bl.
Proof. intros []. by split. Qed.

Lemma txn_ok_busy out com s bl R :
  txn_ok s bl R -> txn_ok (set_lg (set_busy out com (lg s)) s) bl R.
Proof.
  intros []. split; try done; [by apply fs_ctx_lg|by apply bcache_ok_lg|by apply log_ok_busy].
Qed.

Lemma begin_op_run s :
  fs_ctx me pid s -> lg_committing (lg s) = 0 ->
  lg_n (lg s) + (lg_outstanding (lg s) + 1) * MAXOPBLOCKS <= LOGBLOCKS ->
  begin_op s = Ok tt (set_lg (set_lg_outstanding (lg_outstanding (lg s) + 1) (lg s)) s).
Proof.
  intros Hf Hc Hn. pose proof (fx_held _ _ _ Hf) as Hhd. unfold begin_op.
  kstep (acquire_ok L_log s ltac:(rewrite Hhd; apply not_elem_of_nil)). rewrite Hhd.
  destruct max_waits; cbn [begin_wait]; unfold getlg; rewrite bind_run; unfold gets; cbn [obind lg set_held];
    rewrite Hc, (proj2 (Z.ltb_ge _ _)) by done; cbn [negb orb Z.eqb];
    rewrite bind_run; cbn [setlg modify obind]; rewrite (release_head _ []) by done;
    clear -Hhd; by destruct s; cbn in *; subst.
Qed.

(** The tail of [end_op] when this was the last operation. *)
Lemma end_op_run s s1 :
  fs_ctx me pid s -> lg_committing (lg s) = 0 -> lg_outstanding (lg s) = 1 ->
  commit (set_lg (set_busy 0 1 (lg s)) s) = Ok tt s1 -> fs_ctx me pid s1 ->
  end_op s = Ok tt (set_lg (set_lg_committing 0 (lg s1)) s1).
Proof.
  intros Hf Hc Ho Hcm Hf1. pose proof (fx_held _ _ _ Hf) as Hhd. pose proof (fx_held _ _ _ Hf1) as Hhd1.
  unfold end_op.
  kstep (acquire_ok L_log s ltac:(rewrite Hhd; apply not_elem_of_nil)). rewrite Hhd.
  rewrite bind_run. cbn [setlg modify obind]. unfold getlg. rewrite bind_run. unfold gets.
  cbn [obind lg set_lg set_held lg_committing lg_outstanding set_lg_outstanding].
  rewrite Hc, Ho. change (1 - 1) with 0. cbn [negb Z.eqb].
  rewrite bind_run. cbn [setlg modify obind]. rewrite bind_run, (release_head _ []) by done. cbn [obind when].
  set (s0 := set_held [] _). assert (s0 = set_lg (set_busy 0 1 (lg s)) s) as ->.
  { unfold s0. clear -Hhd. destruct s as [??????????????[]]; cbn in *; by subst. }
  kstep Hcm. kstep (acquire_ok L_log s1 ltac:(rewrite Hhd1; apply not_elem_of_nil)). rewrite Hhd1.
  rewrite bind_run. cbn [setlg modify obind].
  set (s2 := set_lg (set_lg_committing 0 (lg s1)) s1).
  change (set_lg _ (set_held [L_log] s1)) with (set_held [L_log] s2).
  assert (Hf2 : fs_ctx me pid s2) by by apply fs_ctx_lg.
  kstep (wakeup_quiet me pid s2 C_log Hf2 eq_refl [L_log] ltac:(by intros i ?%list_elem_of_singleton)).
  rewrite (release_head _ []) by done. f_equal. unfold s2. clear -Hhd1. by destruct s1; cbn in *; subst.
Qed.

End Runs.

End Log.
