(* ===== verification/Crash.v ===== *)
(** * Crashes during a commit

    The disk as a crash leaves it contains a prefix of the writes that were
    issued ([kernel/virtio_disk.c] completes one request before the next).  The
    theorems say what [recover_from_log] makes of each such prefix. *)

From S2P Require Import Prelude Riscv Mem State Printf Sched Bio Log.

#[local] Open Scope Z_scope.

Section Crash.
Context `{W : Waits} (me : nat) (pid : Z).
Implicit Types (s r : kernel) (w : list (Z * list Z)) (d v : Z -> list Z).

(** ** What recovery makes of a disk *)

(** The disk after recovery from [d]. *)
Definition recovered (start : Z) d : Z -> list Z :=
  apply_writes (recovery_writes start d) d.

Lemma recovered_ext start d d' bn : (forall b, d b = d' b) -> recovered start d bn = recovered start d' bn.
Proof.
  intros E. unfold recovered, recovery_writes. rewrite E, (home_writes_ext _ _ _ d d') by done. by apply apply_writes_ext.
Qed.

Lemma hdr_blocks_0 h : hdr_n h = 0 -> hdr_blocks h = [].
Proof. intros H. unfold hdr_blocks. by rewrite H. Qed.

Lemma apply_new_home bl v d bn :
  NoDup bl -> apply_writes (new_home bl v) d bn = if decide (bn ∈ bl) then v bn else d bn.
Proof.
  intros Hn. assert (Hf : (new_home bl v).*1 = bl).
  { unfold new_home. rewrite <- list_fmap_compose. apply list_fmap_id. }
  case_decide as Hb.
  - apply apply_writes_in; [by rewrite Hf|]. apply list_elem_of_fmap. by exists bn.
  - apply apply_writes_other. by rewrite Hf.
Qed.

Lemma recovered_empty start d bn :
  hdr_n (d start) = 0 -> bn <> start -> recovered start d bn = d bn.
Proof.
  intros H0 Hne. unfold recovered, recovery_writes. rewrite hdr_blocks_0 by done. cbn.
  by rewrite fn_lookup_insert_ne.
Qed.

Lemma recovered_full start d bl v bn :
  hdr_blocks (d start) = bl -> (forall (j : nat) b, bl !! j = Some b -> d (start + j + 1) = v b) ->
  bn <> start -> recovered start d bn = apply_writes (new_home bl v) d bn.
Proof.
  intros Hb Hj Hne. unfold recovered, recovery_writes. rewrite Hb, apply_writes_app.
  rewrite (home_writes_new start 0 bl v d Hj). rewrite apply_writes_other; [done|].
  cbn. by rewrite list_elem_of_singleton.
Qed.

Lemma home_ne_start start bn : home start bn -> bn <> start.
Proof. intros [_ H] ->. apply H. unfold LOGBLOCKS, MAXOPBLOCKS. lia. Qed.

(** Blocks of a transaction and a header that names them. *)
Record blocks_ok (start : Z) (bl : list Z) : Prop := {
  bk_home : Forall (home start) bl;
  bk_nodup : NoDup bl;
  bk_len : (length bl <= Z.to_nat LOGBLOCKS)%nat
}.

Lemma header_names start bl h :
  blocks_ok start bl -> length h = Z.to_nat BSIZE ->
  let h' := put_header (length bl) bl h in
  hdr_n h' = length bl /\ hdr_blocks h' = bl.
Proof.
  intros [Hh Hn Hl] Hlen h'. destruct (header_roundtrip (length bl) bl h) as [H1 H2]; [|lia|done|].
  { unfold LOGBLOCKS, MAXOPBLOCKS in *. lia. }
  split; [done|]. apply list_eq. intros i. destruct (decide (i < length bl)%nat) as [Hi|Hi].
  - rewrite lookup_hdr_blocks by (unfold h'; rewrite H1; lia).
    destruct (lookup_lt_is_Some_2 bl i Hi) as [x Hx]. rewrite Hx. f_equal. apply H2; [lia|done|].
    rewrite Forall_lookup in Hh. destruct (Hh i x Hx) as [? _]. ints. lia.
  - rewrite !lookup_ge_None_2; [done|lia|]. rewrite length_hdr_blocks. unfold h'. rewrite H1. lia.
Qed.

Lemma header_0 h : length h = Z.to_nat BSIZE -> hdr_n (put_header 0 [] h) = 0.
Proof. intros H. apply (header_roundtrip 0 [] h); [done|cbn; lia|done]. Qed.

Lemma length_put_header n bl h : length (put_header n bl h) = length h.
Proof. unfold put_header, put32. by rewrite length_put_blocks, length_put_le. Qed.

Lemma hdr_ok_0 start h : hdr_n h = 0 -> hdr_ok start h.
Proof. intros H. unfold hdr_ok. rewrite hdr_blocks_0, H by done. split_and!; try constructor; unfold LOGBLOCKS, MAXOPBLOCKS; lia. Qed.

Lemma refs_nonneg s bn : bcache_ok pid [] s -> 0 <= refs s bn.
Proof.
  intros Hok. unfold refs. destruct (cached s bn) as [[b x]|] eqn:E; [|done].
  apply (cached_iff pid [] s) in E as [E _]; [|done]. by apply (bc_ref _ _ _ Hok b).
Qed.

(** ** The three phases of a commit *)

Section Phases.
Context (start : Z) (bl : list Z) (v d0 : Z -> list Z).
Hypotheses (Hbl : blocks_ok start bl) (Hv : length (v start) = Z.to_nat BSIZE)
  (H0 : hdr_n (d0 start) = 0).

Let hdr := put_header (length bl) bl (v start).

Lemma slots_not_home w0 bn :
  w0 `prefix_of` log_writes start 0 bl v -> home start bn \/ bn = start -> bn ∉ w0.*1.
Proof using Hbl.
  clear Hv H0.
  intros [w1 Hw] Hbn Hin. assert (Hin' : bn ∈ (log_writes start 0 bl v).*1).
  { rewrite Hw, fmap_app. apply elem_of_app. by left. }
  rewrite log_writes_fst, list_elem_of_fmap in Hin'. destruct Hin' as (j & -> & Hj%elem_of_seq).
  pose proof (bk_len _ _ Hbl). unfold LOGBLOCKS, MAXOPBLOCKS in *.
  destruct Hbn as [[_ Hn]|]; [|lia]. apply Hn. unfold LOGBLOCKS, MAXOPBLOCKS. lia.
Qed.

(** Before the header is written. *)
Lemma phase_log w0 :
  w0 `prefix_of` log_writes start 0 bl v ->
  let d := apply_writes w0 d0 in
  hdr_ok start (d start) /\ forall bn, home start bn -> recovered start d bn = d0 bn.
Proof.
  intros Hp d. assert (Hs : d start = d0 start) by (apply apply_writes_other, slots_not_home; auto).
  split; [rewrite Hs; by apply hdr_ok_0|]. intros bn Hb.
  rewrite recovered_empty; [|by rewrite Hs|by apply home_ne_start].
  apply apply_writes_other, slots_not_home; auto.
Qed.

(** After the header is written. *)
Lemma phase_install w0 :
  w0 `prefix_of` new_home bl v ->
  let d := apply_writes ((log_writes start 0 bl v ++ [(start, hdr)]) ++ w0) d0 in
  hdr_ok start (d start) /\
  forall bn, home start bn -> recovered start d bn = apply_writes (new_home bl v) d0 bn.
Proof.
  intros [w1 Hw] d. destruct (header_names start bl (v start) Hbl Hv) as [Hn Hb]. fold hdr in Hn, Hb.
  assert (Hsub : forall bn, bn ∈ w0.*1 -> bn ∈ bl).
  { intros bn Hin. assert (Hin' : bn ∈ (new_home bl v).*1) by (rewrite Hw, fmap_app; apply elem_of_app; by left).
    unfold new_home in Hin'. rewrite <- list_fmap_compose in Hin'.
    apply list_elem_of_fmap in Hin' as (x & -> & Hx). done. }
  assert (Hhome : forall bn, bn ∈ w0.*1 -> home start bn).
  { intros bn Hin. pose proof (bk_home _ _ Hbl) as Hh. rewrite Forall_forall in Hh. auto. }
  assert (Hs : d start = hdr).
  { unfold d. rewrite !apply_writes_app, apply_writes_other.
    - cbn. by rewrite fn_lookup_insert.
    - intros Hin%Hhome. by apply home_ne_start in Hin. }
  assert (Hslot : forall (j : nat) b, bl !! j = Some b -> d (start + j + 1) = v b).
  { intros j b Hj. unfold d. rewrite !apply_writes_app, apply_writes_other, apply_writes_other.
    - by apply apply_log_writes.
    - cbn. rewrite list_elem_of_singleton. lia.
    - intros Hin%Hhome. destruct Hin as [_ Hno]. apply Hno. apply lookup_lt_Some in Hj.
      pose proof (bk_len _ _ Hbl). unfold LOGBLOCKS, MAXOPBLOCKS in *. lia. }
  split.
  - rewrite Hs. unfold hdr_ok. rewrite Hn, Hb. split; [|split; apply Hbl].
    pose proof (bk_len _ _ Hbl). unfold LOGBLOCKS, MAXOPBLOCKS in *. lia.
  - intros bn Hh. rewrite (recovered_full start d bl v); [|by rewrite Hs|done|by apply home_ne_start].
    rewrite !apply_new_home by apply Hbl. case_decide as Hin; [done|].
    unfold d. rewrite !apply_writes_app, !apply_writes_other; [done| | |].
    + apply slots_not_home; [done|auto].
    + cbn. rewrite list_elem_of_singleton. by apply home_ne_start.
    + intros Hi. by apply Hin, Hsub.
Qed.

(** After the header is erased. *)
Lemma phase_done :
  let d := apply_writes (commit_writes start bl v) d0 in
  hdr_ok start (d start) /\
  forall bn, home start bn -> recovered start d bn = apply_writes (new_home bl v) d0 bn.
Proof.
  intros d. set (h0 := put_header 0 [] hdr).
  assert (E : d = <[start := h0]> (apply_writes (new_home bl v) (apply_writes (log_writes start 0 bl v ++ [(start, hdr)]) d0))).
  { unfold d, commit_writes. rewrite !apply_writes_app. done. }
  assert (Hs : d start = h0) by by rewrite E, fn_lookup_insert.
  assert (Hn : hdr_n h0 = 0) by (apply header_0; unfold hdr; by rewrite length_put_header).
  split; [rewrite Hs; by apply hdr_ok_0|]. intros bn Hb.
  rewrite recovered_empty; [|by rewrite Hs|by apply home_ne_start].
  rewrite E, fn_lookup_insert_ne by (apply not_eq_sym; by apply home_ne_start).
  apply apply_writes_ext. rewrite apply_writes_app, !apply_writes_other; [done| |].
  - apply slots_not_home; [done|auto].
  - cbn. rewrite list_elem_of_singleton. by apply home_ne_start.
Qed.

(** The first [length bl] writes leave the old contents, one more makes the new
    ones permanent. *)
Lemma commit_prefix w0 w1 :
  commit_writes start bl v = w0 ++ w1 ->
  let d := apply_writes w0 d0 in
  hdr_ok start (d start) /\
  forall bn, home start bn -> recovered start d bn =
    if decide (length w0 <= length bl)%nat then d0 bn else apply_writes (new_home bl v) d0 bn.
Proof.
  intros Hw d. unfold commit_writes in Hw. fold hdr in Hw. case_decide as Hk.
  - apply phase_log. apply (f_equal (take (length w0))) in Hw.
    rewrite (take_app_length w0 w1) in Hw. rewrite <- app_assoc, take_app_le in Hw by (rewrite length_log_writes; lia).
    rewrite <- Hw. apply prefix_take.
  - destruct w1 as [|x w1'] using rev_ind; [|clear IHw1'].
    + rewrite app_nil_r in Hw. unfold d. rewrite <- Hw. apply phase_done.
    + rewrite app_assoc, app_assoc in Hw. apply app_inj_tail in Hw as [Hw _].
      set (A := log_writes start 0 bl v ++ [(start, hdr)]) in *.
      assert (HA : length A = S (length bl)) by (unfold A; rewrite length_app, length_log_writes; cbn; lia).
      assert (Hd : exists p, w0 = A ++ p /\ p `prefix_of` new_home bl v).
      { exists (drop (length A) w0). symmetry in Hw. split.
        - rewrite <- (take_drop (length A) w0) at 1. f_equal.
          apply (f_equal (take (length A))) in Hw. rewrite take_app_length, take_app_le in Hw by lia. done.
        - exists w1'. apply (f_equal (drop (length A))) in Hw.
          rewrite drop_app_length, drop_app_le in Hw by lia. done. }
      destruct Hd as (p & -> & Hp). by apply phase_install.
Qed.

End Phases.

(** ** Crashes during recovery *)

(** A prefix of the home writes changes neither the header nor the log blocks. *)
Lemma recovery_home_prefix start d w0 :
  hdr_ok start (d start) -> w0 `prefix_of` home_writes start 0 (hdr_blocks (d start)) d ->
  hdr_ok start (apply_writes w0 d start) /\
  forall bn, home start bn -> recovered start (apply_writes w0 d) bn = recovered start d bn.
Proof.
  intros Hok [w1 Hp]. pose proof Hok as (Hn & Hh & Hnd). set (bl := hdr_blocks (d start)) in *.
  set (d1 := apply_writes w0 d).
  assert (Hfst : forall bn, bn ∈ w0.*1 -> bn ∈ bl).
  { intros bn Hin. rewrite <- (home_writes_fst start 0 bl d), Hp, fmap_app. apply elem_of_app. by left. }
  assert (Hout : forall bn, bn ∉ bl -> d1 bn = d bn).
  { intros bn Hb. apply apply_writes_other. auto. }
  assert (Hs : d1 start = d start) by by apply Hout, start_not_home.
  split; [by rewrite Hs|]. intros bn Hb. pose proof (home_ne_start _ _ Hb) as Hne.
  assert (Hlen : (length bl <= Z.to_nat LOGBLOCKS)%nat) by (unfold bl; rewrite length_hdr_blocks; lia).
  unfold recovered, recovery_writes. rewrite Hs. fold bl. rewrite !apply_writes_app.
  rewrite !(apply_writes_other [_]) by (cbn; by rewrite list_elem_of_singleton).
  rewrite (home_writes_ext start 0 bl d1 d).
  - destruct (decide (bn ∈ bl)) as [Hin|Hin].
    + apply list_elem_of_lookup in Hin as [j Hj].
      assert (Hel : exists x, (bn, x) ∈ home_writes start 0 bl d).
      { assert (Hf : bn ∈ (home_writes start 0 bl d).*1) by (rewrite home_writes_fst; by eapply list_elem_of_lookup_2).
        apply list_elem_of_fmap in Hf as ([? x] & -> & Hx). eauto. }
      destruct Hel as [x Hx]. rewrite !(apply_writes_in _ _ bn x); rewrite ?home_writes_fst; done.
    + rewrite !apply_writes_other by by rewrite home_writes_fst. by apply Hout.
  - intros j Hj. apply Hout. intros Hin. rewrite Forall_forall in Hh. apply Hh in Hin as [_ Hno].
    apply Hno. unfold LOGBLOCKS, MAXOPBLOCKS in *. lia.
Qed.

Lemma recovery_prefix start d w0 w1 :
  hdr_ok start (d start) -> length (d start) = Z.to_nat BSIZE ->
  recovery_writes start d = w0 ++ w1 ->
  hdr_ok start (apply_writes w0 d start) /\
  forall bn, home start bn -> recovered start (apply_writes w0 d) bn = recovered start d bn.
Proof.
  intros Hok Hlen Hw. destruct w1 as [|x w1'] using rev_ind; [|clear IHw1'].
  - rewrite app_nil_r in Hw. rewrite <- Hw. set (d1 := apply_writes _ _).
    assert (Hs : d1 start = put_header 0 [] (d start)).
    { unfold d1, recovery_writes. rewrite apply_writes_app. cbn. by rewrite fn_lookup_insert. }
    assert (H0 : hdr_n (d1 start) = 0) by (rewrite Hs; by apply header_0).
    split; [by apply hdr_ok_0|]. intros bn Hb. rewrite recovered_empty; [done|done|by apply home_ne_start].
  - unfold recovery_writes in Hw. rewrite app_assoc in Hw. apply app_inj_tail in Hw as [Hw _].
    apply recovery_home_prefix; [done|]. by exists w1'.
Qed.

(** ** The theorems *)

(** What a crash after the first writes [w0] of a transaction leads to: recovery
    returns and the blocks outside the log are the old ones, or all the new
    ones once the header is on the disk. *)
Definition crash_atomic (start : Z) (bl : list Z) v d0 w0 : Prop :=
  forall me' pid' r, fresh_boot me' pid' start r -> (forall bn, disk r bn = apply_writes w0 d0 bn) ->
  exists r', recover_from_log r = Ok tt r' /\
    forall bn, home start bn -> disk r' bn =
      if decide (length w0 <= length bl)%nat then d0 bn
      else if decide (bn ∈ bl) then v bn else d0 bn.

Lemma log_blocks_ok l bl : log_ok l bl -> blocks_ok (lg_start l) bl.
Proof. intros []. by split. Qed.

Lemma crash_atomic_prefix start bl v d0 w0 w1 :
  blocks_ok start bl -> length (v start) = Z.to_nat BSIZE -> hdr_n (d0 start) = 0 ->
  commit_writes start bl v = w0 ++ w1 -> crash_atomic start bl v d0 w0.
Proof.
  intros Hb Hv H0 Hw me' pid' r Hr Hd.
  destruct (commit_prefix start bl v d0 Hb Hv H0 w0 w1 Hw) as [Hok Hrec].
  destruct (recover_run me' pid' start r Hr) as (r' & Hrun & _ & _ & _ & Hdisk); [by rewrite Hd|].
  exists r'. split; [done|]. intros bn Hh. rewrite Hdisk.
  change (recovered start (disk r) bn = if decide (length w0 <= length bl)%nat then d0 bn
    else if decide (bn ∈ bl) then v bn else d0 bn).
  rewrite (recovered_ext _ _ _ _ Hd), (Hrec bn Hh). case_decide; [done|]. by apply apply_new_home, Hb.
Qed.

Lemma crash_atomic_nil start v d0 : hdr_n (d0 start) = 0 -> crash_atomic start [] v d0 [].
Proof.
  intros H0 me' pid' r Hr Hd. cbn in Hd.
  destruct (recover_run me' pid' start r Hr) as (r' & Hrun & _ & _ & _ & Hdisk).
  { rewrite Hd. by apply hdr_ok_0. }
  exists r'. split; [done|]. intros bn Hh. rewrite Hdisk. cbn. etrans; [exact (recovered_ext start _ _ bn Hd)|].
  apply (recovered_empty start d0 bn H0). by apply home_ne_start.
Qed.


(** What a commit does to the buffers and to the header of the log. *)
Record committed s bl s' : Prop := {
  cm_refs : forall bn, refs s' bn = refs s bn - occ bn bl;
  cm_view : forall bn, home (lg_start (lg s)) bn -> view s' bn = view s bn;
  cm_hdr : hdr_n (disk s' (lg_start (lg s))) = 0;
  cm_len : length (disk s (lg_start (lg s))) = Z.to_nat BSIZE -> length (disk s' (lg_start (lg s))) = Z.to_nat BSIZE
}.

Lemma apply_commit_home start bl v d bn :
  blocks_ok start bl -> home start bn ->
  apply_writes (commit_writes start bl v) d bn = if decide (bn ∈ bl) then v bn else d bn.
Proof.
  intros Hb Hh. unfold commit_writes. rewrite !apply_writes_app.
  rewrite apply_writes_other by (cbn; rewrite list_elem_of_singleton; by apply home_ne_start).
  rewrite apply_new_home by apply Hb. case_decide; [done|].
  rewrite !apply_writes_other; [done| |].
  - apply (slots_not_home start bl v); [done|reflexivity|by left].
  - cbn. rewrite list_elem_of_singleton. by apply home_ne_start.
Qed.

Lemma apply_commit_start start bl v d :
  apply_writes (commit_writes start bl v) d start = put_header 0 [] (put_header (length bl) bl (v start)).
Proof. unfold commit_writes. rewrite !apply_writes_app, apply_writes_cons. cbn. by rewrite fn_lookup_insert. Qed.

Lemma commit_atomic s bl R :
  txn_ok me pid s bl R ->
  exists s' w, commit s = Ok tt s' /\ io_run pid (set_lg (set_lg_n 0 (lg s)) s) w s' /\
    (forall bn, home (lg_start (lg s)) bn ->
       disk s' bn = if decide (bn ∈ bl) then view s bn else disk s bn) /\
    (forall w0 w1, w = w0 ++ w1 -> crash_atomic (lg_start (lg s)) bl (view s) (disk s) w0) /\ committed s bl s'.
Proof.
  intros Ht. pose proof (log_blocks_ok _ _ (tx_log _ _ _ _ _ Ht)) as Hb.
  destruct (decide (bl = [])) as [->|Hne].
  - pose proof (lo_n _ _ (tx_log _ _ _ _ _ Ht)) as Hn. cbn in Hn. exists s, []. split_and!.
    + unfold commit, getlg. rewrite bind_run. unfold gets. cbn [obind]. by rewrite Hn.
    + assert (set_lg (set_lg_n 0 (lg s)) s = s) as ->.
      { clear -Hn. destruct s as [??????????????[]]; cbn in *; by subst. }
      split; [apply io_frame_refl|apply Ht|done|done|by rewrite app_nil_r].
    + intros bn _. by rewrite decide_False by apply not_elem_of_nil.
    + intros w0 w1 Hw. symmetry in Hw. apply app_eq_nil in Hw as [-> ->]. by apply crash_atomic_nil, Ht.
    + split; try done; [intros bn; cbn; lia|apply Ht].
  - destruct (commit_run me pid s bl R Ht Hne) as (s' & Hrun & Hr & Hrefs).
    exists s', (commit_writes (lg_start (lg s)) bl (view s)). split_and!; [done|done| | |].
    + intros bn Hh. rewrite (ir_disk _ _ _ _ Hr). by apply apply_commit_home.
    + intros w0 w1 Hw. by eapply crash_atomic_prefix; [done|apply Ht|apply Ht|].
    + split; [done|..].
      * intros bn Hh. rewrite (ir_view _ _ _ _ Hr), apply_commit_home by done. by case_decide.
      * rewrite (ir_disk _ _ _ _ Hr), apply_commit_start. apply header_0. rewrite length_put_header. apply Ht.
      * intros _. rewrite (ir_disk _ _ _ _ Hr), apply_commit_start, !length_put_header. apply Ht.
Qed.

(** C30. Recovery can itself be interrupted: if the machine crashes after any
    number of the writes of [recover_from_log] and recovery runs again, it
    reaches the same contents of all blocks outside the log as one
    uninterrupted recovery. *)
Theorem recover_idempotent start s :
  fresh_boot me pid start s -> hdr_ok start (disk s start) ->
  length (disk s start) = Z.to_nat BSIZE ->
  exists s' w, recover_from_log s = Ok tt s' /\ writes s' = writes s ++ w /\ lg_n (lg s') = 0 /\
    forall w0 w1 r, w = w0 ++ w1 -> fresh_boot me pid start r -> disk r = apply_writes w0 (disk s) ->
    exists r', recover_from_log r = Ok tt r' /\
      forall bn, home start bn -> disk r' bn = disk s' bn.
Proof.
  intros Hb Hh Hlen. destruct (recover_run me pid start s Hb Hh) as (s' & Hrun & _ & Hn & Hw & Hd).
  exists s', (recovery_writes start (disk s)). split_and!; [done|done|done|].
  intros w0 w1 r Hsp Hr Hdr. set (d := disk s) in *. set (bl := hdr_blocks (d start)) in *.
  destruct Hh as (Hrange & Hhome & Hnd). fold bl in Hhome, Hnd.
  assert (Hph : hdr_ok start (apply_writes w0 d start) /\
    forall bn, home start bn -> recovered start (apply_writes w0 d) bn = recovered start d bn).
  { by apply (recovery_prefix start d w0 w1). }
  destruct Hph as [Hok Hrec].
  destruct (recover_run me pid start r Hr) as (r' & Hrun' & _ & _ & _ & Hd'); [by rewrite Hdr|].
  exists r'. split; [done|]. intros bn Hbn. rewrite Hd', Hd, Hdr. by apply Hrec.
Qed.

(** [log_write] on a held buffer: it panics when the transaction is full or
    there is none; otherwise the block is in the header exactly once (a block
    that is already there is absorbed), it is pinned when it is new, and no
    block changes in the cache or on the disk. *)
Theorem log_write_spec L s bl bn b x :
  fs_ctx me pid s -> bcache_ok pid L s -> holds L s bn b x -> b_refcnt x < 2^31 - 1 ->
  log_ok (lg s) bl -> home (lg_start (lg s)) bn -> length (lg_block (lg s)) = Z.to_nat LOGBLOCKS ->
  (LOGBLOCKS <= lg_n (lg s) -> log_write b s = Panic "too big a transaction") /\
  (lg_n (lg s) < LOGBLOCKS -> lg_outstanding (lg s) < 1 ->
     log_write b s = Panic "log_write outside of trans") /\
  (lg_n (lg s) < LOGBLOCKS -> 1 <= lg_outstanding (lg s) ->
     exists s', log_write b s = Ok tt s' /\ log_write_post me pid L s bl bn b s').
Proof.
  intros Hf Hok Hh Hr Hl Hhm Hlen. pose proof (fx_held _ _ _ Hf) as Hhd.
  assert (Hstart : forall m, log_write b s = m ->
    (l ← getlg;
     if LOGBLOCKS <=? lg_n l then panic "too big a transaction"
     else if lg_outstanding l <? 1 then panic "log_write outside of trans"
     else
       x ← getb b;
       let i := absorb (lg_block l) (b_blockno x) (Z.to_nat (lg_n l)) 0 in
       setlg (fun l => set_lg_block (<[i := i32 (b_blockno x)]> (lg_block l)) l) ;;
       when (i =? Z.to_nat (lg_n l))%nat
         (bpin b ;; setlg (fun l => set_lg_n (lg_n l + 1) l)) ;;
       release L_log) (set_held [L_log] s) = m).
  { intros m <-. unfold log_write.
    rewrite (bind_ok _ _ _ _ _ (acquire_ok L_log s ltac:(rewrite Hhd; apply not_elem_of_nil))).
    by rewrite Hhd. }
  split_and!.
  - intros Hn. rewrite <- (Hstart _ eq_refl). unfold getlg. rewrite bind_run. unfold gets. cbn [obind lg set_held].
    by rewrite (proj2 (Z.leb_le _ _)).
  - intros Hn Ho. rewrite <- (Hstart _ eq_refl). unfold getlg. rewrite bind_run. unfold gets. cbn [obind lg set_held].
    by rewrite (proj2 (Z.leb_gt _ _)), (proj2 (Z.ltb_lt _ _)).
  - intros Hn Ho. by eapply log_write_run.
Qed.

(** ** A whole operation *)

(** The state inside an operation that holds no buffer: the blocks [bl] are in
    the header and pinned. *)
Record op_ok s (bl : list Z) : Prop := {
  op_ctx : fs_ctx me pid s;
  op_cache : bcache_ok pid [] s;
  op_log : log_ok (lg s) bl;
  op_len : length (lg_block (lg s)) = Z.to_nat LOGBLOCKS;
  op_out : 1 <= lg_outstanding (lg s);
  op_pin : forall bn, bn ∈ bl -> 1 <= refs s bn
}.

(** Changing one block inside an operation, the way the comment of [log_write]
    recommends. *)
Definition log_update (bn : Z) (f : list Z -> list Z) : K unit :=
  b ← bread ROOTDEV bn;
  setb b (fun x => set_b_data (f (b_data x)) x) ;;
  log_write b ;;
  brelse b.

Lemma log_update_run s bl R bn f :
  op_ok s bl -> fits s R -> bn ∈ R -> refs s bn < 2^30 -> home (lg_start (lg s)) bn ->
  lg_n (lg s) < LOGBLOCKS ->
  let bl' := if decide (bn ∈ bl) then bl else bl ++ [bn] in
  exists s', log_update bn f s = Ok tt s' /\ op_ok s' bl' /\
    lg_start (lg s') = lg_start (lg s) /\ lg_outstanding (lg s') = lg_outstanding (lg s) /\
    lg_committing (lg s') = lg_committing (lg s) /\
    (forall bn', view s' bn' = if bn' =? bn then f (view s bn) else view s bn') /\
    (forall bn', refs s' bn' = refs s bn' + if decide (bn ∈ bl) then 0 else is_ bn bn') /\
    disk s' = disk s /\ writes s' = writes s /\ io_frame (set_lg (lg s') s) s'.
Proof.
  intros [Hf Hok Hl Hlen Ho Hpin] Hfit HbR Hr Hhm Hn bl'.
  destruct (bread_fits me pid [] s bn R Hf Hok Hfit HbR) as (b & s2 & H2 & P2); [lia| |].
  { by intros b x ?%not_elem_of_nil. }
  destruct P2 as [F2 Ok2 N2 D2 W2 (x & Hx & Kx & Vx & Dx & Rx) V2 R2 _].
  assert (Hh2 : holds [b] s2 bn b x) by (split_and!; [done|by left|done|done]).
  destruct (setdata_spec pid [b] s2 bn b x (fun x => f (b_data x)) Ok2 Hh2) as (s3 & H3 & S3 & Hh3 & D3 & W3).
  assert (Hf3 : fs_ctx me pid s3).
  { eapply io_frame_ctx; [apply S3|]. by eapply io_frame_ctx. }
  assert (Hlg3 : lg s3 = lg s).
  { by rewrite (io_frame_lg _ _ (bs_frame _ _ _ _ _ _ _ _ S3)), (io_frame_lg _ _ F2). }
  destruct (log_write_run me pid [b] s3 bl bn b _ Hf3 (bs_ok _ _ _ _ _ _ _ _ S3) Hh3) as (s4 & H4 & P4);
    rewrite ?Hlg3; try done; [cbn; lia|].
  destruct P4 as [Hl4 Hlen4 (Hs4 & Ho4 & Hc4) Hf4 Ok4 [x4 Hh4] V4 R4 D4 W4 F4]. rewrite Hlg3 in Hs4, Ho4, Hc4.
  destruct (holds_view _ _ _ _ _ _ Ok4 Hh4) as [Hd4 Hr4].
  rewrite V4, (bs_view _ _ _ _ _ _ _ _ S3), Z.eqb_refl, Dx in Hd4.
  rewrite R4, (bs_refs _ _ _ _ _ _ _ _ S3), Z.eqb_refl, Rx in Hr4.
  destruct (brelse_spec me pid [b] [] s4 bn b x4 Hf4 Ok4 Hh4) as (s5 & H5 & S5 & D5 & W5).
  { intros c. rewrite list_elem_of_singleton, elem_of_nil. tauto. }
  { rewrite <- Hr4. case_decide as Hin; [specialize (Hpin bn Hin)|unfold is_; rewrite Z.eqb_refl].
    - lia.
    - pose proof (refs_nonneg s bn Hok). lia. }
  assert (Hlg5 : lg s5 = lg s4) by apply (io_frame_lg _ _ (bs_frame _ _ _ _ _ _ _ _ S5)).
  assert (HR5 : forall bn', refs s5 bn' = refs s bn' + if decide (bn ∈ bl) then 0 else is_ bn bn').
  { intros bn'. rewrite (bs_refs _ _ _ _ _ _ _ _ S5), R4, (bs_refs _ _ _ _ _ _ _ _ S3), R2, <- Hr4.
    unfold is_. destruct (Z.eqb_spec bn' bn); [subst; rewrite Z.eqb_refl|]; case_decide; lia. }
  exists s5. split_and!; rewrite ?Hlg5; try done.
  - unfold log_update. kstep H2. kstep H3. kstep H4. exact H5.
  - split; rewrite ?Hlg5, ?Ho4; try done.
    + eapply io_frame_ctx; [apply S5|done].
    + apply S5.
    + intros bn' Hin. rewrite HR5. unfold bl' in Hin. unfold is_. pose proof (refs_nonneg s bn' Hok).
      case_decide; [specialize (Hpin bn' Hin); lia|]. apply elem_of_app in Hin as [Hin|Hin%list_elem_of_singleton].
      * specialize (Hpin bn' Hin). destruct (bn' =? bn); lia.
      * subst. rewrite Z.eqb_refl. lia.
  - intros bn'. rewrite (bs_view _ _ _ _ _ _ _ _ S5), V4, (bs_view _ _ _ _ _ _ _ _ S3), V2, <- Hd4.
    by destruct (bn' =? bn).
  - by rewrite D5, D4, D3, D2.
  - by rewrite W5, W4, W3, W2.
  - eapply io_frame_trans; [|apply S5]. eapply io_frame_trans; [|exact F4].
    pose proof (bs_frame _ _ _ _ _ _ _ _ S3) as F3. clear -F2 F3. unfold io_frame in *. by rewrite F3, F2.
Qed.

(** No operation is under way and nothing is pinned. *)
Record idle (start : Z) s : Prop := {
  id_boot : fresh_boot me pid start s;
  id_n : lg_n (lg s) = 0;
  id_out : lg_outstanding (lg s) = 0;
  id_com : lg_committing (lg s) = 0;
  id_hdr : length (disk s start) = Z.to_nat BSIZE;
  id_empty : hdr_n (disk s start) = 0
}.

Lemma begin_op_idle start s :
  idle start s -> exists s1, begin_op s = Ok tt s1 /\ op_ok s1 [] /\
    lg_outstanding (lg s1) = 1 /\ lg_committing (lg s1) = 0 /\ lg_n (lg s1) = 0 /\
    lg_start (lg s1) = start /\ disk s1 = disk s /\ writes s1 = writes s /\
    (forall bn, refs s1 bn = 0) /\ (forall bn, view s1 bn = disk s bn).
Proof.
  intros [[Hf Hok Hr0 Hdev Hst Hrg Hlen] Hn Ho Hc Hhd He].
  pose proof (begin_op_run me pid s Hf Hc) as Hbeg. rewrite Hn, Ho in Hbeg.
  specialize (Hbeg ltac:(done)). eexists. split; [exact Hbeg|]. split_and!; try done.
  - split; try done; [by apply fs_ctx_lg|by apply bcache_ok_lg|..].
    + split; try done; cbn; rewrite ?Hst; try done; try constructor. lia.
    + by intros bn ?%not_elem_of_nil.
  - intros bn. by apply (clean_view pid [] s).
Qed.

(** A transaction that changed one block. *)
Lemma update_txn start s bn f :
  idle start s -> home start bn ->
  let m := begin_op ;; log_update bn f in
  m s = Ok tt (after m s) /\ txn_ok me pid (after m s) [bn] [bn] /\
  lg_committing (lg (after m s)) = 0 /\ lg_outstanding (lg (after m s)) = 1 /\
  lg_start (lg (after m s)) = start /\ disk (after m s) = disk s /\ writes (after m s) = writes s /\
  view (after m s) bn = f (disk s bn).
Proof.
  intros Hid Hhm m. destruct (begin_op_idle start s Hid) as
    (s1 & H1 & Hop & Ho & Hc & Hn & Hst & Hd & Hw & Hr0 & Hv).
  destruct (log_update_run s1 [] [bn] bn f Hop) as (s2 & H2 & Hop2 & Hst2 & Ho2 & Hc2 & V2 & R2 & D2 & W2 & _).
  { split; [cbn; unfold NBUF, MAXOPBLOCKS; lia|]. intros bn'. by rewrite Hr0. }
  { by left. }
  { by rewrite Hr0. }
  { by rewrite Hst. }
  { by rewrite Hn. }
  assert (Hm : m s = Ok tt s2) by (unfold m; rewrite (bind_ok _ _ _ _ _ H1); exact H2).
  unfold after. rewrite Hm. rewrite decide_False in Hop2 by apply not_elem_of_nil. cbn [app] in Hop2.
  assert (HR : forall bn', refs s2 bn' = is_ bn bn').
  { intros bn'. by rewrite R2, Hr0, decide_False by apply not_elem_of_nil. }
  split_and!; try congruence; [|by rewrite V2, Z.eqb_refl, Hv].
  destruct Hop2 as [Hf2 Hok2 Hl2 Hlen2 _ Hpin2]. split; try done.
  - cbn. unfold NBUF, MAXOPBLOCKS. lia.
  - intros bn'. rewrite HR. unfold is_. destruct (Z.eqb_spec bn' bn); [subst; by left|done].
  - intros bn'. rewrite HR. unfold is_. destruct (bn' =? bn); lia.
  - rewrite Hst2, Hst, V2, !Hv. rewrite (proj2 (Z.eqb_neq _ _)); [apply Hid|]. apply not_eq_sym. by apply home_ne_start.
  - rewrite Hst2, Hst, D2, Hd. apply Hid.
Qed.

Lemma crash_atomic_ext start bl v v' d0 w0 :
  (forall bn, bn ∈ bl -> v bn = v' bn) -> crash_atomic start bl v d0 w0 -> crash_atomic start bl v' d0 w0.
Proof.
  intros Hv H me' pid' r Hr Hd. destruct (H me' pid' r Hr Hd) as (r' & Hrun & Hbn). exists r'.
  split; [done|]. intros bn Hh. rewrite (Hbn bn Hh). repeat case_decide; auto.
Qed.

Lemma end_op_txn s bl R :
  txn_ok me pid s bl R -> lg_committing (lg s) = 0 -> lg_outstanding (lg s) = 1 ->
  exists s' w, end_op s = Ok tt s' /\ lg s' = set_busy 0 0 (set_lg_n 0 (lg s)) /\ bcache_ok pid [] s' /\ io_frame (set_lg (lg s') s) s' /\
    writes s' = writes s ++ w /\
    (forall bn, home (lg_start (lg s)) bn ->
       disk s' bn = if decide (bn ∈ bl) then view s bn else disk s bn) /\
    (forall w0 w1, w = w0 ++ w1 -> crash_atomic (lg_start (lg s)) bl (view s) (disk s) w0) /\ committed s bl s' /\
    (forall bn, disk s' bn = apply_writes w (disk s) bn).
Proof.
  intros Ht Hc Ho.
  destruct (commit_atomic _ bl R (txn_ok_busy me pid 0 1 s bl R Ht)) as (s1 & w & Hcm & Hr & Hd & Hcr & Hcom).
  pose proof (io_frame_lg _ _ (ir_frame _ _ _ _ Hr)) as Hlg.
  assert (Hf1 : fs_ctx me pid s1).
  { eapply io_frame_ctx; [apply Hr|]. by do 2 apply fs_ctx_lg; apply Ht. }
  exists (set_lg (set_lg_committing 0 (lg s1)) s1), w.
  split_and!; [|cbn; by rewrite Hlg|by apply bcache_ok_lg, Hr| |apply (ir_writes _ _ _ _ Hr)|exact Hd|exact Hcr|by destruct Hcom|exact (ir_disk _ _ _ _ Hr)].
  - by apply (end_op_run me pid); [apply Ht|..].
  - pose proof (ir_frame _ _ _ _ Hr) as F. unfold io_frame in *. cbn [lg set_lg]. rewrite F. by destruct s.
Qed.

Lemma end_op_atomic s bl R :
  txn_ok me pid s bl R -> lg_committing (lg s) = 0 -> lg_outstanding (lg s) = 1 ->
  exists s' w, end_op s = Ok tt s' /\
    lg_n (lg s') = 0 /\ lg_outstanding (lg s') = 0 /\ lg_committing (lg s') = 0 /\
    writes s' = writes s ++ w /\
    (forall bn, home (lg_start (lg s)) bn ->
       disk s' bn = if decide (bn ∈ bl) then view s bn else disk s bn) /\
    (forall w0 w1, w = w0 ++ w1 -> crash_atomic (lg_start (lg s)) bl (view s) (disk s) w0).
Proof.
  intros Ht Hc Ho. destruct (end_op_txn s bl R Ht Hc Ho) as (s' & w & H & Hlg & _ & _ & Hw & Hd & Hcr & _).
  exists s', w. rewrite Hlg. by split_and!.
Qed.

(** C1. A file-system operation is atomic: when the last operation of a
    transaction ends, [end_op] returns with the log empty and every block of
    the transaction on the disk in its new version, and if the machine crashes
    after any number of the disk writes it makes, recovery returns and leaves
    either all blocks outside the log in their old version, or all blocks of
    the transaction in their new one and the others untouched. *)
Theorem end_op_crash_atomic s bl R :
  txn_ok me pid s bl R -> lg_committing (lg s) = 0 -> lg_outstanding (lg s) = 1 ->
  let start := lg_start (lg s) in
  exists s' w, end_op s = Ok tt s' /\
    lg_n (lg s') = 0 /\ lg_outstanding (lg s') = 0 /\ lg_committing (lg s') = 0 /\
    writes s' = writes s ++ w /\
    (forall bn, home start bn ->
       disk s' bn = if decide (bn ∈ bl) then view s bn else disk s bn) /\
    (forall w0 w1, w = w0 ++ w1 -> crash_atomic start bl (view s) (disk s) w0).
Proof. intros. by apply (end_op_atomic s bl R). Qed.

(** A complete operation that changes one block through the log - [begin_op],
    read, modify, [log_write], release, [end_op] - changes exactly this block
    on the disk, and a crash at any point of its disk writes leaves, after
    recovery, the old block or the new one. *)
Theorem block_update_durable start s bn f :
  idle start s -> home start bn ->
  exists s' w, (begin_op ;; log_update bn f ;; end_op) s = Ok tt s' /\
    writes s' = writes s ++ w /\
    (forall bn', home start bn' -> disk s' bn' = if decide (bn' = bn) then f (disk s bn) else disk s bn') /\
    (forall w0 w1, w = w0 ++ w1 -> crash_atomic start [bn] (fun _ => f (disk s bn)) (disk s) w0).
Proof.
  intros Hid Hhm. destruct (update_txn start s bn f Hid Hhm) as (H1 & Ht & Hc & Ho & Hst & Hd & Hw & Hv).
  set (s1 := after _ s) in *.
  destruct (end_op_atomic s1 [bn] [bn] Ht Hc Ho) as (s2 & w & H2 & _ & _ & _ & Hw2 & Hd2 & Hcr).
  rewrite Hst, Hd in *. exists s2, w. split_and!.
  - rewrite bind_run in H1. rewrite bind_run. destruct (begin_op s) as [[] s0| | |]; try done. cbn [obind] in *.
    rewrite (bind_ok _ _ _ _ _ H1). exact H2.
  - by rewrite Hw2, Hw.
  - intros bn' Hb. rewrite (Hd2 bn' Hb). rewrite (decide_ext _ _ _ _ (list_elem_of_singleton bn' bn)).
    case_decide; [by subst|done].
  - intros w0 w1 E. eapply crash_atomic_ext; [|by eapply Hcr].
    by intros b ->%list_elem_of_singleton.
Qed.

End Crash.

(** ** A machine to evaluate the theorems on *)

Definition three_waits : Waits := {| max_waits := 3 |}.

(** The cache as [binit] leaves it, a log at block 2, process 0 running. *)
Definition idle_machine : kernel :=
  set_cur (Some 0%nat) (set_procs (<[0%nat := set_p_state RUNNING (set_p_pid 1 zero_proc)]> (procs boot))
    (set_lru (seq 0 (Z.to_nat NBUF))
      (set_lg (mkLog 2 0 0 ROOTDEV 0 (replicate (Z.to_nat LOGBLOCKS) 0)) boot))).

Lemma idle_machine_buf b x : bufs idle_machine !! b = Some x -> x = zero_buf.
Proof. intros H. apply lookup_replicate in H. apply H. Qed.

Lemma idle_machine_ctx : fs_ctx 0 1 idle_machine.
Proof.
  assert (Hp : forall i p, procs idle_machine !! i = Some p -> p_state p <> SLEEPING).
  { intros i p Hi. cbn [procs idle_machine set_cur set_procs] in Hi.
    apply list_lookup_insert_Some in Hi as [(_ & <- & _)|[_ Hi]]; [done|].
    apply lookup_replicate in Hi as [-> _]. done. }
  split; try done.
  - eexists. split; [apply list_lookup_insert_eq; by apply Nat.ltb_lt|done].
  - intros i p Hi Hs. by destruct (Hp i p Hi).
  - intros i p c Hi Hs. by destruct (Hp i p Hi).
Qed.

Lemma idle_machine_cache : bcache_ok 1 [] idle_machine.
Proof.
  split; try done.
  - intros b b' x x' bn ->%idle_machine_buf ->%idle_machine_buf [? _] _. done.
  - intros b x ->%idle_machine_buf. by right.
  - intros b x ->%idle_machine_buf. done.
  - intros b x ->%idle_machine_buf. by rewrite decide_False by apply not_elem_of_nil.
  - by intros b x _ ?%not_elem_of_nil.
  - intros b x ->%idle_machine_buf. done.
Qed.

Lemma idle_machine_idle : idle 0 1 2 idle_machine.
Proof.
  split; try reflexivity.
  split; try reflexivity; [apply idle_machine_ctx|apply idle_machine_cache|].
  unfold LOGBLOCKS, MAXOPBLOCKS. lia.
Qed.

Lemma home_100 : home 2 100.
Proof. split; [lia|]. unfold LOGBLOCKS, MAXOPBLOCKS. lia. Qed.

Definition fill_block (c : Z) (d : list Z) : list Z := replicate (length d) c.

Lemma block_update_durable_witness :
  exists s' w, (@begin_op three_waits ;; @log_update three_waits 100 (fill_block 7) ;; @end_op three_waits) idle_machine = Ok tt s' /\
    writes s' = writes idle_machine ++ w /\
    disk s' 100 = replicate 1024 7.
Proof.
  destruct (@block_update_durable three_waits 0 1 2 idle_machine 100 (fill_block 7) idle_machine_idle home_100)
    as (s' & w & H & Hw & Hd & _).
  exists s', w. split; [exact H|]. split; [exact Hw|]. rewrite (Hd 100 home_100). reflexivity.
Defined.

Lemma end_op_crash_atomic_witness :
  exists s' w, @end_op three_waits
      (after (@begin_op three_waits ;; @log_update three_waits 100 (fill_block 7)) idle_machine) = Ok tt s' /\
    writes s' = w.
Proof.
  destruct (@update_txn three_waits 0 1 2 idle_machine 100 (fill_block 7) idle_machine_idle home_100)
    as (_ & Ht & Hc & Ho & _ & _ & Hw & _).
  destruct (@end_op_crash_atomic three_waits 0 1 _ _ _ Ht Hc Ho) as (s' & w & H & _ & _ & _ & Hw' & _).
  exists s', (writes s'). split; [exact H|reflexivity].
Defined.

Lemma recover_idempotent_witness :
  exists s', @recover_from_log three_waits idle_machine = Ok tt s' /\ lg_n (lg s') = 0.
Proof.
  destruct (@recover_idempotent three_waits 0 1 2 idle_machine (id_boot _ _ _ _ idle_machine_idle)
    (hdr_ok_0 2 _ (id_empty _ _ _ _ idle_machine_idle)) (id_hdr _ _ _ _ idle_machine_idle))
    as (s' & w & H & _ & Hn & _).
  exists s'. split; [exact H|exact Hn].
Defined.

Lemma log_write_spec_witness :
  exists s1 b s2 s3, @begin_op three_waits idle_machine = Ok tt s1 /\
    @bread three_waits ROOTDEV 100 s1 = Ok b s2 /\ log_write b s2 = Ok tt s3 /\
    log_ok (lg s3) [100].
Proof.
  destruct (@begin_op_idle three_waits 0 1 2 idle_machine idle_machine_idle)
    as (s1 & H1 & [Hf Hok Hl Hlen Ho Hpin] & Hout & _ & Hn & Hst & _ & _ & Hr0 & _).
  destruct (@bread_fits three_waits 0 1 [] s1 100 [100] Hf Hok) as (b & s2 & H2 & [F2 Ok2 _ _ _ Hb _ _ _]).
  { split; [unfold NBUF, MAXOPBLOCKS; cbn; lia|]. intros bn Hbn. destruct Hbn. apply Hr0. }
  { by left. }
  { by rewrite Hr0. }
  { by intros b x ?%not_elem_of_nil. }
  destruct Hb as (x & Hx & Hk & Hv & _ & Hrx). rewrite Hr0 in Hrx.
  pose proof (io_frame_lg _ _ F2) as Hlg.
  destruct (@log_write_spec 0 1 [b] s2 [] 100 b x) as (_ & _ & Hw).
  - exact (io_frame_ctx _ _ _ _ F2 Hf).
  - exact Ok2.
  - split_and!; [exact Hx|by left|exact Hk|exact Hv].
  - lia.
  - by rewrite Hlg.
  - rewrite Hlg, Hst. exact home_100.
  - by rewrite Hlg.
  - rewrite Hlg, Hn, Hout in Hw. destruct Hw as (s3 & H3 & P3); [done|done|].
    exists s1, b, s2, s3. split; [exact H1|]. split; [exact H2|]. split; [exact H3|].
    exact (lw_log _ _ _ _ _ _ _ _ P3).
Defined.
