(* ===== verification/Fs.v ===== *)
(** * The file system ([kernel/fs.c])

    Blocks, inodes, directories and path names on top of the log.  A pointer to
    an entry of the inode table is its index.  Names and paths are lists of
    characters without the terminating NUL. *)

From S2P Require Import Prelude Riscv Mem State Printf Sched Bio Log.

#[local] Open Scope Z_scope.

(** ** The disk format ([kernel/fs.h]) *)

Definition IBLOCK (i : Z) (s : superblock) : Z := u32 (u32 i / IPB + sb_inodestart s).
Definition BBLOCK (b : Z) (s : superblock) : Z := u32 (u32 b / BPB + sb_bmapstart s).

(** The super block in the bytes of block 1. *)
Definition get_superblock (d : list Z) : superblock :=
  mkSuperblock (get32 d 0) (get32 d 4) (get32 d 8) (get32 d 12) (get32 d 16)
    (get32 d 20) (get32 d 24) (get32 d 28).

(** [struct dinode]: [type], [major], [minor], [nlink], [size], [addrs]. *)
Record dinode : Type := mkDinode {
  d_type : Z;
  d_major : Z;
  d_minor : Z;
  d_nlink : Z;
  d_size : Z;
  d_addrs : list Z
}.

(** The dinode at byte [o] of a block. *)
Definition get_dinode (d : list Z) (o : nat) : dinode :=
  mkDinode (i16 (get_le 2 d o)) (i16 (get_le 2 d (o + 2))) (i16 (get_le 2 d (o + 4)))
    (i16 (get_le 2 d (o + 6))) (get32 d (o + 8))
    ((fun k : nat => get32 d (o + 12 + 4 * k)) <$> seq 0 13).

Fixpoint put_addrs (l : list Z) (o : nat) (d : list Z) : list Z :=
  match l with
  | [] => d
  | x :: l' => put_addrs l' (o + 4) (put32 (u32 x) o d)
  end.

Definition put_dinode (x : dinode) (o : nat) (d : list Z) : list Z :=
  put_addrs (d_addrs x) (o + 12) (put32 (u32 (d_size x)) (o + 8)
    (put_le 2 (u16 (d_nlink x)) (o + 6) (put_le 2 (u16 (d_minor x)) (o + 4)
      (put_le 2 (u16 (d_major x)) (o + 2) (put_le 2 (u16 (d_type x)) o d))))).

Definition zero_dinode : dinode := mkDinode 0 0 0 0 0 (replicate 13 0).

(** The byte offset of inode [inum] in its block. *)
Definition dinode_off (inum : Z) : nat := Z.to_nat (64 * (inum `mod` IPB)).

(** [struct dirent] *)
Record dirent : Type := mkDirent {
  de_inum : Z;
  de_name : list Z
}.

Definition get_dirent (d : list Z) : dirent := mkDirent (get_le 2 d 0) (take 14 (drop 2 d)).

Definition put_dirent (x : dirent) : list Z :=
  put_le 2 (u16 (de_inum x)) 0 (replicate 2 0) ++ de_name x.

Definition sizeof_dirent : Z := 16.

(** ** Strings of bounded length *)

(** [strncmp] on the characters up to the NUL. *)
Fixpoint strncmp_list (n : nat) (s t : list Z) : Z :=
  match n with
  | O => 0
  | S n' =>
      let a := default 0 (head s) in
      let b := default 0 (head t) in
      if (a =? 0) || negb (a =? b) then a - b
      else strncmp_list n' (tail s) (tail t)
  end.

Definition namecmp (s t : list Z) : Z := strncmp_list (Z.to_nat DIRSIZ) s t.

(** [strncpy(de.name, name, DIRSIZ)] *)
Definition strncpy_name (name : list Z) : list Z :=
  take (Z.to_nat DIRSIZ) (name ++ replicate (Z.to_nat DIRSIZ) 0).

Fixpoint skip_slashes (p : list Z) : list Z :=
  match p with
  | c :: p' => if c =? 47 then skip_slashes p' else p
  | [] => []
  end.

(** The characters up to the next slash, and the rest. *)
Fixpoint take_elem (p : list Z) : list Z * list Z :=
  match p with
  | c :: p' => if c =? 47 then ([], p) else let '(e, r) := take_elem p' in (c :: e, r)
  | [] => ([], [])
  end.

(** [None] is the null pointer; otherwise the element, cut to [DIRSIZ]
    characters, and the rest of the path. *)
Definition skipelem (path : list Z) : option (list Z * list Z) :=
  match skip_slashes path with
  | [] => None
  | p => let '(e, r) := take_elem p in
         Some (take (Z.to_nat DIRSIZ) e, skip_slashes r)
  end.

Section Fs.
Context `{W : Waits}.

(** ** Blocks *)

Definition readsb (dev : Z) : K unit :=
  bp ← bread dev 1;
  x ← getb bp;
  modify (set_sb (get_superblock (b_data x))) ;;
  brelse bp.

Definition set_data (b : nat) (f : list Z -> list Z) : K unit :=
  setb b (fun x => set_b_data (f (b_data x)) x).

Definition bzero (dev bno : Z) : K unit :=
  bp ← bread dev (u32 bno);
  set_data bp (fun _ => replicate (Z.to_nat BSIZE) 0) ;;
  log_write bp ;;
  brelse bp.

(** Bit [bi] of a bitmap block. *)
Definition bit_byte (d : list Z) (bi : Z) : Z := default 0 (d !! Z.to_nat (bi / 8)).
Definition bit_mask (bi : Z) : Z := Z.shiftl 1 (bi `mod` 8).
Definition bit_free (d : list Z) (bi : Z) : bool := Z.land (bit_byte d bi) (bit_mask bi) =? 0.

Definition set_bit (bi : Z) (d : list Z) : list Z :=
  <[Z.to_nat (bi / 8) := u8 (Z.lor (bit_byte d bi) (bit_mask bi))]> d.
Definition clear_bit (bi : Z) (d : list Z) : list Z :=
  <[Z.to_nat (bi / 8) := Z.land (bit_byte d bi) (255 - bit_mask bi)]> d.

(** The inner loop of [balloc]: the first free bit from [bi] on. *)
Fixpoint find_free (n : nat) (d : list Z) (b size bi : Z) : option Z :=
  match n with
  | O => None
  | S n' =>
      if b + bi <? size then
        if bit_free d bi then Some bi else find_free n' d b size (bi + 1)
      else None
  end.

(** The values of [b] in the outer loop. *)
Definition bitmap_steps (size : Z) : list Z :=
  (fun k => k * BPB) <$> upto ((size + BPB - 1) / BPB).

Definition balloc (dev : Z) : K Z :=
  s ← gets sb;
  r ← kfor (bitmap_steps (sb_size s)) (fun b _ =>
        bp ← bread dev (BBLOCK b s);
        x ← getb bp;
        match find_free (Z.to_nat BPB) (b_data x) b (sb_size s) 0 with
        | Some bi =>
            set_data bp (set_bit bi) ;;
            log_write bp ;;
            brelse bp ;;
            bzero dev (b + bi) ;;
            mret (inr (b + bi))
        | None => brelse bp ;; mret (inl tt)
        end) tt;
  match r with
  | inr b => mret b
  | inl _ => printf (str "balloc: out of blocks" ++ [10]) [] ;; mret 0
  end.

Definition bfree (dev b : Z) : K unit :=
  s ← gets sb;
  bp ← bread dev (BBLOCK b s);
  let bi := b `mod` BPB in
  x ← getb bp;
  if bit_free (b_data x) bi then panic "freeing free block"
  else
    set_data bp (clear_bit bi) ;;
    log_write bp ;;
    brelse bp.

(** ** Inodes *)

Definition iinit : K unit :=
  kiter (seq 0 (Z.to_nat NINODE)) (fun i _ => initsleeplock (SL_inode i)) tt.

(** The scan of [iget]; it carries the first empty entry. *)
Definition iget_scan (dev inum : Z) : K (option nat + nat) :=
  kfor (seq 0 (Z.to_nat NINODE)) (fun i empty =>
    ip ← geti i;
    mret (if (0 <? i_ref ip) && (i_dev ip =? dev) && (i_inum ip =? inum) then inr i
          else inl (match empty with
                    | None => if i_ref ip =? 0 then Some i else None
                    | Some _ => empty
                    end))) None.

Definition iget (dev inum : Z) : K nat :=
  acquire L_itable ;;
  r ← iget_scan dev inum;
  match r with
  | inr i =>
      seti i (fun ip => set_i_ref (i_ref ip + 1) ip) ;;
      release L_itable ;;
      mret i
  | inl None => panic "iget: no inodes"
  | inl (Some i) =>
      seti i (fun ip => set_i_valid 0 (set_i_ref 1 (set_i_inum inum (set_i_dev dev ip)))) ;;
      release L_itable ;;
      mret i
  end.

(** The values of [inum] in the loops over all inodes. *)
Definition inums (s : superblock) : list Z := seqZ 1 (sb_ninodes s - 1).

Definition ialloc (dev type : Z) : K (option nat) :=
  s ← gets sb;
  r ← kfor (inums s) (fun inum _ =>
        bp ← bread dev (IBLOCK inum s);
        x ← getb bp;
        if d_type (get_dinode (b_data x) (dinode_off inum)) =? 0 then
          set_data bp (put_dinode (mkDinode type 0 0 0 0 (replicate 13 0)) (dinode_off inum)) ;;
          log_write bp ;;
          brelse bp ;;
          i ← iget dev inum;
          mret (inr i)
        else brelse bp ;; mret (inl tt)) tt;
  match r with
  | inr i => mret (Some i)
  | inl _ => printf (str "ialloc: no inodes" ++ [10]) [] ;; mret None
  end.

(** The dinode of an in-memory inode. *)
Definition to_dinode (ip : inode) : dinode :=
  mkDinode (i_type ip) (i_major ip) (i_minor ip) (i_nlink ip) (i_size ip) (i_addrs ip).

Definition iupdate (i : nat) : K unit :=
  s ← gets sb;
  ip ← geti i;
  bp ← bread (i_dev ip) (IBLOCK (i_inum ip) s);
  set_data bp (put_dinode (to_dinode ip) (dinode_off (i_inum ip))) ;;
  log_write bp ;;
  brelse bp.

Definition idup (i : nat) : K nat :=
  acquire L_itable ;;
  seti i (fun ip => set_i_ref (i_ref ip + 1) ip) ;;
  release L_itable ;;
  mret i.

Definition load_dinode (d : dinode) (ip : inode) : inode :=
  set_i_addrs (d_addrs d) (set_i_size (d_size d) (set_i_nlink (d_nlink d)
    (set_i_minor (d_minor d) (set_i_major (d_major d) (set_i_type (d_type d) ip))))).

Definition ilock (p : option nat) : K unit :=
  match p with
  | None => panic "ilock"
  | Some i =>
      ip0 ← geti i;
      if i_ref ip0 <? 1 then panic "ilock"
      else
        acquiresleep (SL_inode i) ;;
        ip ← geti i;
        if i_valid ip =? 0 then
          s ← gets sb;
          bp ← bread (i_dev ip) (IBLOCK (i_inum ip) s);
          x ← getb bp;
          seti i (load_dinode (get_dinode (b_data x) (dinode_off (i_inum ip)))) ;;
          brelse bp ;;
          seti i (set_i_valid 1) ;;
          ip' ← geti i;
          if i_type ip' =? 0 then panic "ilock: no type" else mret tt
        else mret tt
  end.

Definition iunlock (p : option nat) : K unit :=
  match p with
  | None => panic "iunlock"
  | Some i =>
      h ← holdingsleep (SL_inode i);
      ip ← geti i;
      if negb h || (i_ref ip <? 1) then panic "iunlock"
      else releasesleep (SL_inode i)
  end.

(** [itrunc]: the direct blocks, then the blocks of the indirect block. *)
Definition addr_of (ip : inode) (k : nat) : Z := default 0 (i_addrs ip !! k).

Definition set_addr (k : nat) (a : Z) (ip : inode) : inode :=
  set_i_addrs (<[k := a]> (i_addrs ip)) ip.

Definition itrunc (i : nat) : K unit :=
  kiter (seq 0 (Z.to_nat NDIRECT)) (fun k _ =>
    ip ← geti i;
    when (negb (addr_of ip k =? 0))
      (bfree (i_dev ip) (addr_of ip k) ;;
       seti i (set_addr k 0))) tt ;;
  ip ← geti i;
  let ind := addr_of ip (Z.to_nat NDIRECT) in
  when (negb (ind =? 0))
    (bp ← bread (i_dev ip) ind;
     kiter (seq 0 (Z.to_nat NINDIRECT)) (fun j _ =>
       x ← getb bp;
       let a := get32 (b_data x) (4 * j) in
       when (negb (a =? 0)) (bfree (i_dev ip) a)) tt ;;
     brelse bp ;;
     bfree (i_dev ip) ind ;;
     seti i (set_addr (Z.to_nat NDIRECT) 0)) ;;
  seti i (set_i_size 0) ;;
  iupdate i.

Definition iput (i : nat) : K unit :=
  acquire L_itable ;;
  ip ← geti i;
  when ((i_ref ip =? 1) && negb (i_valid ip =? 0) && (i_nlink ip =? 0))
    (acquiresleep (SL_inode i) ;;
     release L_itable ;;
     itrunc i ;;
     seti i (set_i_type 0) ;;
     iupdate i ;;
     seti i (set_i_valid 0) ;;
     releasesleep (SL_inode i) ;;
     acquire L_itable) ;;
  seti i (fun ip => set_i_ref (i_ref ip - 1) ip) ;;
  release L_itable.

Definition iunlockput (i : nat) : K unit :=
  iunlock (Some i) ;;
  iput i.

Definition ireclaim (dev : Z) : K unit :=
  s ← gets sb;
  kiter (inums s) (fun inum _ =>
    bp ← bread dev (IBLOCK inum s);
    x ← getb bp;
    let dip := get_dinode (b_data x) (dinode_off inum) in
    p ← (if negb (d_type dip =? 0) && (d_nlink dip =? 0) then
           printf (str "ireclaim: orphaned inode %d" ++ [10]) [A_num inum] ;;
           i ← iget dev inum;
           mret (Some i)
         else mret None);
    brelse bp ;;
    match p with
    | Some i =>
        begin_op ;;
        ilock (Some i) ;;
        iunlock (Some i) ;;
        iput i ;;
        end_op
    | None => mret tt
    end) tt.

Definition fsinit (dev : Z) : K unit :=
  readsb dev ;;
  s ← gets sb;
  if negb (sb_magic s =? FSMAGIC) then panic "invalid file system"
  else
    initlog dev s ;;
    ireclaim dev.

(** ** Inode content *)

(** Entry [k] of [addrs], allocated if it is 0: the two uses in [bmap]. *)
Definition bmap_slot (i : nat) (k : nat) : K Z :=
  ip ← geti i;
  if addr_of ip k =? 0 then
    addr ← balloc (i_dev ip);
    if addr =? 0 then mret 0
    else seti i (set_addr k addr) ;; mret addr
  else mret (addr_of ip k).

Definition bmap (i : nat) (bn : Z) : K Z :=
  if bn <? NDIRECT then bmap_slot i (Z.to_nat bn)
  else
    let bn' := bn - NDIRECT in
    if bn' <? NINDIRECT then
      ind ← bmap_slot i (Z.to_nat NDIRECT);
      if ind =? 0 then mret 0
      else
        ip ← geti i;
        bp ← bread (i_dev ip) ind;
        x ← getb bp;
        let o := Z.to_nat (4 * bn') in
        addr ← (if get32 (b_data x) o =? 0 then
                  addr ← balloc (i_dev ip);
                  when (negb (addr =? 0))
                    (set_data bp (put32 addr o) ;;
                     log_write bp) ;;
                  mret addr
                else mret (get32 (b_data x) o));
        brelse bp ;;
        mret addr
    else panic "bmap: out of range".

(** [struct stat] *)
Record stat : Type := mkStat {
  st_dev : Z;
  st_ino : Z;
  st_type : Z;
  st_nlink : Z;
  st_size : Z
}.

Definition stati (i : nat) : K stat :=
  ip ← geti i;
  mret (mkStat (i_dev ip) (i_inum ip) (i_type ip) (i_nlink ip) (i_size ip)).

(** [readi] and [writei] move bytes to and from a place that the caller
    chooses: a user address, a kernel address or a local variable.  [put a d]
    is [either_copyout(user_dst, dst, d, m)] at place [a], with the place after
    the bytes as its result or [None] for -1; [get a m] is
    [either_copyin(.., user_src, src, m)], with the bytes it copied, also when
    it fails half way. *)

Section Transfer.
Context {A : Type} (put : A -> list Z -> K (option A)).

(** The loop of [readi]: at most [fuel] blocks. *)
Fixpoint readi_loop (fuel : nat) (i : nat) (tot off n : Z) (a : A) : K (Z * A) :=
  if tot <? n then
    match fuel with
    | O => stuck "readi: fuel"
    | S f =>
        addr ← bmap i (off / BSIZE);
        if addr =? 0 then mret (tot, a)
        else
          ip ← geti i;
          bp ← bread (i_dev ip) addr;
          x ← getb bp;
          let m := Z.min (n - tot) (BSIZE - off `mod` BSIZE) in
          r ← put a (take (Z.to_nat m) (drop (Z.to_nat (off `mod` BSIZE)) (b_data x)));
          brelse bp ;;
          match r with
          | None => mret (-1, a)
          | Some a' => readi_loop f i (tot + m) (off + m) n a'
          end
    end
  else mret (tot, a).

Definition readi (i : nat) (a : A) (off n : Z) : K (Z * A) :=
  ip ← geti i;
  if (i_size ip <? off) || (u32 (off + n) <? off) then mret (0, a)
  else
    let n' := if i_size ip <? u32 (off + n) then i_size ip - off else n in
    readi_loop (Z.to_nat (n' / BSIZE + 2)) i 0 off n' a.

Context (get : A -> Z -> K (list Z * bool * A)).

(** Overwriting part of a block. *)
Definition overwrite (o : nat) (bs : list Z) (d : list Z) : list Z :=
  take o d ++ bs ++ drop (o + length bs) d.

Fixpoint writei_loop (fuel : nat) (i : nat) (tot off n : Z) (a : A) : K (Z * Z) :=
  if tot <? n then
    match fuel with
    | O => stuck "writei: fuel"
    | S f =>
        addr ← bmap i (off / BSIZE);
        if addr =? 0 then mret (tot, off)
        else
          ip ← geti i;
          bp ← bread (i_dev ip) addr;
          let m := Z.min (n - tot) (BSIZE - off `mod` BSIZE) in
          r ← get a m;
          set_data bp (overwrite (Z.to_nat (off `mod` BSIZE)) r.1.1) ;;
          if negb r.1.2 then
            brelse bp ;;
            mret (tot, off)
          else
            log_write bp ;;
            brelse bp ;;
            writei_loop f i (tot + m) (off + m) n r.2
    end
  else mret (tot, off).

Definition writei (i : nat) (a : A) (off n : Z) : K Z :=
  ip ← geti i;
  if (i_size ip <? off) || (u32 (off + n) <? off) then mret (-1)
  else if MAXFILE * BSIZE <? u32 (off + n) then mret (-1)
  else
    r ← writei_loop (Z.to_nat (n / BSIZE + 2)) i 0 off n a;
    ip' ← geti i;
    when (i_size ip' <? r.2) (seti i (set_i_size r.2)) ;;
    iupdate i ;;
    mret r.1.

End Transfer.

(** Reading into and writing from a local variable of the kernel. *)
Definition put_local (a d : list Z) : K (option (list Z)) := mret (Some (a ++ d)).
Definition get_local (a : list Z) (m : Z) : K (list Z * bool * list Z) :=
  mret (take (Z.to_nat m) a, true, drop (Z.to_nat m) a).

(** ** Directories *)

(** The offsets of the entries below [size]. *)
Definition dir_offs (size : Z) : list Z :=
  (fun k => k * sizeof_dirent) <$> upto ((size + sizeof_dirent - 1) / sizeof_dirent).

(** [readi(dp, 0, (uint64)&de, off, sizeof(de))], with the panic on a short read. *)
Definition read_dirent (dp : nat) (off : Z) (msg : string) : K dirent :=
  r ← readi put_local dp [] off sizeof_dirent;
  if negb (r.1 =? sizeof_dirent) then panic msg else mret (get_dirent r.2).

(** The result is the inode and the offset of its entry. *)
Definition dirlookup (dp : nat) (name : list Z) : K (option (nat * Z)) :=
  ip ← geti dp;
  if negb (i_type ip =? T_DIR) then panic "dirlookup not DIR"
  else
    r ← kfor (dir_offs (i_size ip)) (fun off _ =>
          de ← read_dirent dp off "dirlookup read";
          if de_inum de =? 0 then mret (inl tt)
          else if namecmp name (de_name de) =? 0 then
            i ← iget (i_dev ip) (de_inum de);
            mret (inr (i, off))
          else mret (inl tt)) tt;
    mret (match r with inr x => Some x | inl _ => None end).

Definition dirlink (dp : nat) (name : list Z) (inum : Z) : K Z :=
  r ← dirlookup dp name;
  match r with
  | Some (ip, _) => iput ip ;; mret (-1)
  | None =>
      d ← geti dp;
      e ← kfor (dir_offs (i_size d)) (fun off _ =>
            de ← read_dirent dp off "dirlink read";
            mret (if de_inum de =? 0 then inr off else inl tt)) tt;
      let off := match e with
                 | inr off => off
                 | inl _ => length (dir_offs (i_size d)) * sizeof_dirent
                 end in
      n ← writei get_local dp (put_dirent (mkDirent inum (strncpy_name name))) off sizeof_dirent;
      mret (if negb (n =? sizeof_dirent) then -1 else 0)
  end.

(** ** Paths *)

(** The loop of [namex]; every element consumes a character, so [fuel] is the
    length of the path. *)
Fixpoint namex_loop (fuel : nat) (ip : nat) (path : list Z) (parent : bool) (name : list Z)
  : K (option (nat * list Z)) :=
  match skipelem path with
  | None =>
      if parent then iput ip ;; mret None else mret (Some (ip, name))
  | Some (name', path') =>
      match fuel with
      | O => stuck "namex: fuel"
      | S f =>
          ilock (Some ip) ;;
          x ← geti ip;
          if negb (i_type x =? T_DIR) then iunlockput ip ;; mret None
          else if parent && (match path' with [] => true | _ => false end) then
            iunlock (Some ip) ;; mret (Some (ip, name'))
          else
            next ← dirlookup ip name';
            match next with
            | None => iunlockput ip ;; mret None
            | Some (n, _) => iunlockput ip ;; namex_loop f n path' parent name'
            end
      end
  end.

Definition namex (path : list Z) (parent : bool) : K (option (nat * list Z)) :=
  ip ← (match path with
        | c :: _ =>
            if c =? 47 then iget ROOTDEV ROOTINO
            else
              me ← curproc; p ← getp me;
              match p_cwd p with Some i => idup i | None => stuck "cwd is null" end
        | [] =>
            me ← curproc; p ← getp me;
            match p_cwd p with Some i => idup i | None => stuck "cwd is null" end
        end);
  namex_loop (length path) ip path parent [].

Definition namei (path : list Z) : K (option nat) :=
  r ← namex path false;
  mret (fst <$> r).

Definition nameiparent (path : list Z) : K (option (nat * list Z)) := namex path true.

End Fs.
