(* ===== verification/Balloc.v ===== *)
(** * The free-block bitmap

    [balloc] and [bfree] against the set of the blocks in use: inside a
    transaction they change that set by one block, and log what they change. *)

From S2P Require Import Prelude Riscv Mem State Printf Sched Bio Log Crash Fs.

#[local] Open Scope Z_scope.

(** ** Bits of a bitmap block *)

Lemma bit_free_testbit d bi : bit_free d bi = negb (Z.testbit (bit_byte d bi) (bi `mod` 8)).
Proof.
  unfold bit_free, bit_mask. set (x := bit_byte d bi). set (k := bi `mod` 8).
  assert (Hk : 0 <= k) by (unfold k; pose proof (Z.mod_pos_bound bi 8); lia).
  assert (H : Z.land x (Z.shiftl 1 k) = if Z.testbit x k then Z.shiftl 1 k else 0).
  { apply Z.bits_inj'. intros j Hj. rewrite Z.land_spec, Z.shiftl_1_l, Z.pow2_bits_eqb by done.
    destruct (Z.eqb_spec k j) as [<-|Hne].
    - rewrite andb_true_r. destruct (Z.testbit x k); [by rewrite Z.pow2_bits_true|by rewrite Z.bits_0].
    - rewrite andb_false_r. destruct (Z.testbit x k); [|by rewrite Z.bits_0].
      by rewrite Z.pow2_bits_eqb, (proj2 (Z.eqb_neq _ _) Hne). }
  rewrite H. destruct (Z.testbit x k); [|done]. rewrite Z.shiftl_1_l. apply Z.eqb_neq.
  pose proof (Z.pow_pos_nonneg 2 k). lia.
Qed.

(** Two positions in the same byte differ in their bit. *)
Lemma bit_position bi bj : bi / 8 = bj / 8 -> (bj `mod` 8 =? bi `mod` 8) = (bj =? bi).
Proof.
  intros H. destruct (Z.eqb_spec bj bi) as [->|Hne]; [apply Z.eqb_refl|]. apply Z.eqb_neq.
  intros E. apply Hne. rewrite (Z.div_mod bj 8), (Z.div_mod bi 8) by done. lia.
Qed.

Lemma bit_byte_insert d bi bj c :
  0 <= bi -> 0 <= bj -> bi / 8 < length d ->
  bit_byte (<[Z.to_nat (bi / 8) := c]> d) bj = if bj / 8 =? bi / 8 then c else bit_byte d bj.
Proof.
  intros Hi Hj Hlt. unfold bit_byte. pose proof (Z.div_pos bi 8). pose proof (Z.div_pos bj 8).
  destruct (Z.eqb_spec (bj / 8) (bi / 8)) as [->|Hne].
  - rewrite list_lookup_insert_eq by lia. done.
  - rewrite list_lookup_insert_ne by lia. done.
Qed.

Lemma bit_free_set d bi bj :
  0 <= bi -> 0 <= bj -> bi / 8 < length d ->
  bit_free (set_bit bi d) bj = negb (bj =? bi) && bit_free d bj.
Proof.
  intros Hi Hj Hlt. rewrite !bit_free_testbit. unfold set_bit. rewrite bit_byte_insert by done.
  pose proof (Z.mod_pos_bound bi 8 ltac:(lia)). pose proof (Z.mod_pos_bound bj 8 ltac:(lia)).
  destruct (Z.eqb_spec (bj / 8) (bi / 8)) as [E|Hne].
  - unfold u8. change 256 with (2 ^ 8). rewrite Z.mod_pow2_bits_low by lia.
    unfold bit_mask. rewrite Z.lor_spec, Z.shiftl_1_l, Z.pow2_bits_eqb by lia.
    rewrite (Z.eqb_sym (bi `mod` 8)), (bit_position bi bj) by done.
    assert (bit_byte d bi = bit_byte d bj) as -> by (unfold bit_byte; by rewrite E).
    destruct (Z.testbit _ _), (bj =? bi); done.
  - rewrite (proj2 (Z.eqb_neq bj bi)); [done|]. by intros ->.
Qed.

Lemma clear_mask_bits k j :
  0 <= k < 8 -> 0 <= j < 8 -> Z.testbit (255 - Z.shiftl 1 k) j = negb (j =? k).
Proof.
  intros Hk Hj.
  assert (H : Forall (fun k => Forall (fun j => Z.testbit (255 - Z.shiftl 1 k) j = negb (j =? k))
    (seqZ 0 8)) (seqZ 0 8)) by (vm_compute; repeat constructor).
  rewrite Forall_forall in H. specialize (H k ltac:(apply elem_of_seqZ; lia)).
  rewrite Forall_forall in H. apply H, elem_of_seqZ. lia.
Qed.

Lemma bit_free_clear d bi bj :
  0 <= bi -> 0 <= bj -> bi / 8 < length d ->
  bit_free (clear_bit bi d) bj = (bj =? bi) || bit_free d bj.
Proof.
  intros Hi Hj Hlt. rewrite !bit_free_testbit. unfold clear_bit. rewrite bit_byte_insert by done.
  pose proof (Z.mod_pos_bound bi 8 ltac:(lia)). pose proof (Z.mod_pos_bound bj 8 ltac:(lia)).
  destruct (Z.eqb_spec (bj / 8) (bi / 8)) as [E|Hne].
  - unfold bit_mask. rewrite Z.land_spec, clear_mask_bits, bit_position by done.
    assert (bit_byte d bi = bit_byte d bj) as -> by (unfold bit_byte; by rewrite E).
    destruct (Z.testbit _ _), (bj =? bi); done.
  - rewrite (proj2 (Z.eqb_neq bj bi)); [done|]. by intros ->.
Qed.

Lemma length_set_bit bi d : length (set_bit bi d) = length d.
Proof. apply length_insert. Qed.

Lemma length_clear_bit bi d : length (clear_bit bi d) = length d.
Proof. apply length_insert. Qed.

(** ** The scan of one bitmap block *)

Lemma find_free_Some n d b size bi0 bi :
  find_free n d b size bi0 = Some bi ->
  bi0 <= bi < bi0 + n /\ b + bi < size /\ bit_free d bi = true /\
  forall j, bi0 <= j < bi -> bit_free d j = false.
Proof.
  revert bi0. induction n as [|n IH]; intros bi0; cbn; [done|].
  destruct (Z.ltb_spec (b + bi0) size); [|done]. destruct (bit_free d bi0) eqn:E.
  - intros [= <-]. split_and!; [lia|lia|lia|done|]. intros j ?. lia.
  - intros Hf. destruct (IH _ Hf) as (H1 & H2 & H3 & H4). split_and!; [lia|lia|lia|done|].
    intros j Hj. destruct (decide (j = bi0)) as [->|]; [done|]. apply H4. lia.
Qed.

Lemma find_free_None n d b size bi0 :
  find_free n d b size bi0 = None ->
  forall j, bi0 <= j < bi0 + n -> b + j < size -> bit_free d j = false.
Proof.
  revert bi0. induction n as [|n IH]; intros bi0; cbn; [lia|].
  destruct (Z.ltb_spec (b + bi0) size); [|lia]. destruct (bit_free d bi0) eqn:E; [done|].
  intros Hf j Hj Hs. destruct (decide (j = bi0)) as [->|]; [done|]. eapply IH; eauto. lia.
Qed.

(** ** Blocks in use *)

Section Balloc.
Context `{W : Waits} (me : nat) (pid : Z).
Implicit Types s : kernel.

(** Block [b] is marked in the bitmap, as the kernel sees the bitmap. *)
Definition used s (b : Z) : bool := negb (bit_free (view s (BBLOCK b (sb s))) (b `mod` BPB)).

Definition fs_block s (b : Z) : Prop := 0 <= b < sb_size (sb s).

(** What [mkfs] lays out: the bitmap follows the log, and a block that is free
    is neither in the log nor in the bitmap. *)
Record bitmap_ok s : Prop := {
  bm_start : 0 <= sb_bmapstart (sb s) /\ sb_bmapstart (sb s) + sb_size (sb s) < 2^31;
  bm_home : forall b, fs_block s b -> home (lg_start (lg s)) (BBLOCK b (sb s));
  bm_len : forall b, fs_block s b -> length (view s (BBLOCK b (sb s))) = Z.to_nat BSIZE;
  bm_free : forall b, fs_block s b -> used s b = false ->
    home (lg_start (lg s)) b /\ forall b', fs_block s b' -> BBLOCK b' (sb s) <> b
}.

(** An operation that may still log [n] blocks. *)
Record may_log (n : nat) s (bl R : list Z) : Prop := {
  ml_op : op_ok me pid s bl;
  ml_room : (length R + n <= Z.to_nat NBUF)%nat;
  ml_used : forall bn, refs s bn <> 0 -> bn ∈ R;
  ml_small : forall bn, refs s bn + n < 2^30;
  ml_log : lg_n (lg s) + n <= LOGBLOCKS
}.

(** Nothing but the state of the buffers changed, and no contents. *)
Record same_view s s' : Prop := {
  sv_frame : io_frame s s';
  sv_cache : bcache_ok pid [] s';
  sv_view : forall bn, view s' bn = view s bn;
  sv_refs : forall bn, refs s' bn = refs s bn;
  sv_disk : disk s' = disk s;
  sv_writes : writes s' = writes s
}.

Definition logged (bn : Z) (bl : list Z) : list Z := if decide (bn ∈ bl) then bl else bl ++ [bn].

(** The buffers in use are those of the blocks of the transaction. *)
Definition pins s (bl : list Z) : Prop := forall bn, refs s bn = if decide (bn ∈ bl) then 1 else 0.

Lemma elem_of_logged b bn bl : b ∈ logged bn bl <-> b = bn \/ b ∈ bl.
Proof.
  unfold logged. case_decide as H; [|rewrite elem_of_app, list_elem_of_singleton; tauto].
  split; [by right|]. intros [->|]; done.
Qed.

(** The blocks [bns] were logged with their new contents; [v] is what the
    kernel sees afterwards. *)
Record logged_step s (bl : list Z) (v : Z -> list Z) s' : Prop := {
  ls_op : op_ok me pid s' bl;
  ls_view : forall bn, view s' bn = v bn;
  ls_sb : sb s' = sb s;
  ls_start : lg_start (lg s') = lg_start (lg s);
  ls_out : lg_outstanding (lg s') = lg_outstanding (lg s);
  ls_com : lg_committing (lg s') = lg_committing (lg s);
  ls_disk : disk s' = disk s;
  ls_writes : writes s' = writes s;
  ls_frame : io_frame (set_lg (lg s') s) s'
}.

Lemma same_view_refl s bl : op_ok me pid s bl -> same_view s s.
Proof. intros [_ Hc _ _ _ _]. split; try done. apply io_frame_refl. Qed.

Lemma same_view_trans s1 s2 s3 : same_view s1 s2 -> same_view s2 s3 -> same_view s1 s3.
Proof.
  intros [F1 C1 V1 R1 D1 W1] [F2 C2 V2 R2 D2 W2]. split; [by eapply io_frame_trans|done|..]; intros; congruence.
Qed.

Lemma same_view_op s s' bl : same_view s s' -> op_ok me pid s bl -> op_ok me pid s' bl.
Proof.
  intros [F C V R _ _] [Hf Hc Hl Hn Ho Hp]. rewrite <- (io_frame_lg _ _ F) in Hl, Hn, Ho.
  split; try done; [by eapply io_frame_ctx|]. intros bn Hbn. rewrite R. by apply Hp.
Qed.

Lemma same_view_may_log n s s' bl R : same_view s s' -> may_log n s bl R -> may_log n s' bl R.
Proof.
  intros Hs [Hop Hr Hu Hsm Hlg]. pose proof (same_view_op _ _ _ Hs Hop). destruct Hs as [F _ _ Rf _ _].
  split; try done.
  - intros bn. rewrite Rf. apply Hu.
  - intros bn. rewrite Rf. apply Hsm.
  - by rewrite (io_frame_lg _ _ F).
Qed.

Lemma io_frame_sb s s' : io_frame s s' -> sb s' = sb s.
Proof. by intros ->. Qed.

Lemma same_view_used s s' b : same_view s s' -> used s' b = used s b.
Proof. intros [F _ V _ _ _]. unfold used. by rewrite V, (io_frame_sb _ _ F). Qed.

(** ** One block inside an operation *)

(** Reading a block and letting it go. *)
Lemma bread_peek n s bl R bn :
  may_log (S n) s bl R ->
  exists b x s1 s2, bread ROOTDEV bn s = Ok b s1 /\ getb b s1 = Ok x s1 /\ b_data x = view s bn /\
    brelse b s1 = Ok tt s2 /\ same_view s s2 /\ io_frame s s1.
Proof.
  intros [[Hf Hok Hl Hlen Ho Hpin] Hroom Hu Hsm Hlog].
  destruct (bread_fits me pid [] s bn (bn :: R) Hf Hok) as (b & s1 & H1 & P1).
  { split; [cbn; lia|]. intros bn' ?. right. by apply Hu. }
  { by left. }
  { specialize (Hsm bn). lia. }
  { by intros b x ?%not_elem_of_nil. }
  destruct P1 as [F1 Ok1 N1 D1 W1 (x & Hx & Kx & Vx & Dx & Rx) V1 R1 _].
  assert (Hh1 : holds [b] s1 bn b x) by (split_and!; [done|by left|done|done]).
  destruct (brelse_spec me pid [b] [] s1 bn b x (io_frame_ctx _ _ _ _ F1 Hf) Ok1 Hh1) as (s2 & H2 & S2 & D2 & W2).
  { intros c. rewrite list_elem_of_singleton, elem_of_nil. tauto. }
  { intros H. rewrite Dx, D1. apply (clean_view pid [] s bn Hok). lia. }
  exists b, x, s1, s2. split_and!; [done|by apply getb_run|done|done| |done].
  destruct S2 as [F2 Ok2 V2 R2 _]. split; try done.
  - by eapply io_frame_trans.
  - intros bn'. rewrite V2, V1, Dx. by destruct (Z.eqb_spec bn' bn) as [->|].
  - intros bn'. rewrite R2, R1, Rx. destruct (Z.eqb_spec bn' bn) as [->|]; lia.
  - by rewrite D2.
  - by rewrite W2.
Qed.

Lemma then_ok {A B C} (m : K A) (n : K B) (p : K C) s a s' :
  (m ;; n) s = Ok a s' -> (m ;; n ;; p) s = p s'.
Proof.
  rewrite !bind_run. destruct (m s) as [? s1|?|?|?]; cbn; try discriminate.
  intros H. by rewrite bind_run, H.
Qed.

Lemma log_tail {B} b f (p : K B) s s' :
  (set_data b f ;; log_write b ;; brelse b) s = Ok tt s' ->
  (set_data b f ;; log_write b ;; brelse b ;; p) s = p s'.
Proof.
  rewrite !bind_run. destruct (set_data b f s) as [? s1|?|?|?]; cbn [obind]; try discriminate.
  apply then_ok.
Qed.

(** Logging a change of one block. *)
Lemma update_block n s bl R bn f :
  may_log (S n) s bl R -> home (lg_start (lg s)) bn ->
  exists b x s1 s2, bread ROOTDEV bn s = Ok b s1 /\ getb b s1 = Ok x s1 /\ b_data x = view s bn /\
    (set_data b f ;; log_write b ;; brelse b) s1 = Ok tt s2 /\
    logged_step s (logged bn bl) (fun bn' => if bn' =? bn then f (view s bn) else view s bn') s2 /\
    may_log n s2 (logged bn bl) (bn :: R) /\ io_frame s s1 /\ (pins s bl -> pins s2 (logged bn bl)).
Proof.
  intros Hml Hhm. destruct (bread_peek n s bl R bn Hml) as (b & x & s1 & _ & H1 & Hx & Dx & _ & _ & F1).
  destruct Hml as [Hop Hroom Hu Hsm Hlog].
  destruct (log_update_run me pid s bl (bn :: R) bn f Hop) as (s2 & H2 & Hop2 & Hst & Hou & Hcm & V2 & R2 & D2 & W2 & F2).
  { split; [cbn; lia|]. intros bn' ?. right. by apply Hu. }
  { by left. }
  { specialize (Hsm bn). lia. }
  { done. }
  { lia. }
  unfold log_update in H2. rewrite (bind_ok _ _ _ _ _ H1) in H2.
  exists b, x, s1, s2. split_and!; [done|done|done|exact H2|split; try done; by rewrite F2| |done|].
  2:{ intros Hp bn'. rewrite R2, Hp. unfold is_, logged. destruct (Z.eqb_spec bn' bn) as [->|Hne]; repeat case_decide; try done.
      all: match goal with H : _ ∈ _ ++ _ |- _ => apply elem_of_app in H as [H|H%list_elem_of_singleton]; done
           | H : _ ∉ _ ++ _ |- _ => exfalso; apply H; apply elem_of_app; first [by left|by right; left] end. }
  split; try done.
  - cbn. lia.
  - intros bn'. rewrite R2. destruct (Z.eqb_spec bn' bn) as [->|Hne]; [by left|]. right. apply Hu.
    unfold is_ in *. rewrite (proj2 (Z.eqb_neq bn' bn)) in * by done. case_decide; lia.
  - intros bn'. rewrite R2. specialize (Hsm bn'). unfold is_. case_decide; [|destruct (bn' =? bn)]; lia.
  - rewrite (lo_n _ _ (op_log _ _ _ _ Hop2)). rewrite (lo_n _ _ (op_log _ _ _ _ Hop)) in Hlog.
    case_decide; [|rewrite length_app; cbn]; lia.
Qed.

Lemma bzero_run n s bl R bn :
  may_log (S n) s bl R -> home (lg_start (lg s)) bn ->
  exists s', bzero ROOTDEV bn s = Ok tt s' /\
    logged_step s (logged bn bl)
      (fun bn' => if bn' =? bn then replicate (Z.to_nat BSIZE) 0 else view s bn') s' /\
    may_log n s' (logged bn bl) (bn :: R) /\ (pins s bl -> pins s' (logged bn bl)).
Proof.
  intros Hml Hhm.
  destruct (update_block n s bl R bn (fun _ => replicate (Z.to_nat BSIZE) 0) Hml Hhm)
    as (b & x & s1 & s2 & H1 & _ & _ & H2 & Hs & Hm & _ & Hpn).
  exists s2. split; [|done]. unfold bzero. rewrite (home_u32 _ _ Hhm). by kstep H1.
Qed.

(** ** Positions in the bitmap *)

Lemma BBLOCK_exact s b : bitmap_ok s -> fs_block s b -> BBLOCK b (sb s) = b / BPB + sb_bmapstart (sb s).
Proof.
  intros Hb Hr. pose proof (bm_start _ Hb). unfold fs_block in Hr. unfold BBLOCK.
  assert (0 <= b / BPB <= b) by (unfold BPB, BSIZE in *; Z.div_mod_to_equations; lia).
  rewrite (u32_small b), u32_small; unfold is_u32; lia.
Qed.

Lemma BBLOCK_eq s b b' :
  bitmap_ok s -> fs_block s b -> fs_block s b' -> BBLOCK b (sb s) = BBLOCK b' (sb s) <-> b / BPB = b' / BPB.
Proof. intros Hb H H'. rewrite !BBLOCK_exact by done. lia. Qed.

Lemma bitmap_index b : 0 <= b -> 0 <= b `mod` BPB < BPB /\ (b `mod` BPB) / 8 < Z.to_nat BSIZE.
Proof.
  intros H. pose proof (Z.mod_pos_bound b BPB ltac:(done)). unfold BPB, BSIZE in *.
  split; [done|]. change (Z.of_nat (Z.to_nat 1024)) with 1024. Z.div_mod_to_equations. lia.
Qed.

(** Changing bit [b] of the bitmap changes whether [b] is in use and nothing
    else. *)
Lemma used_change s s' b c (g : Z -> list Z -> list Z) :
  bitmap_ok s -> fs_block s b -> sb s' = sb s ->
  (forall b', fs_block s b' -> view s' (BBLOCK b' (sb s)) =
     if BBLOCK b' (sb s) =? BBLOCK b (sb s) then g (b `mod` BPB) (view s (BBLOCK b (sb s)))
     else view s (BBLOCK b' (sb s))) ->
  (forall d bi bj, 0 <= bi -> 0 <= bj -> bi / 8 < length d ->
     bit_free (g bi d) bj = if bj =? bi then negb c else bit_free d bj) ->
  forall b', fs_block s b' -> used s' b' = if b' =? b then c else used s b'.
Proof.
  intros Hb Hr Hsb Hv Hg b' Hr'. unfold used. rewrite Hsb, (Hv b' Hr').
  destruct (bitmap_index b) as [Hi Hlt]; [apply Hr|]. destruct (bitmap_index b') as [Hi' _]; [apply Hr'|].
  destruct (Z.eqb_spec (BBLOCK b' (sb s)) (BBLOCK b (sb s))) as [E|E].
  - rewrite Hg; [|lia|lia|by rewrite (bm_len _ Hb b Hr)]. rewrite E.
    apply (BBLOCK_eq s b' b) in E; [|done|done|done].
    assert ((b' `mod` BPB =? b `mod` BPB) = (b' =? b)) as ->.
    { destruct (Z.eqb_spec b' b) as [->|Hne]; [apply Z.eqb_refl|]. apply Z.eqb_neq. intros Em. apply Hne.
      rewrite (Z.div_mod b' BPB), (Z.div_mod b BPB) by done. lia. }
    destruct (b' =? b); [apply negb_involutive|done].
  - rewrite (proj2 (Z.eqb_neq b' b)); [done|]. by intros ->.
Qed.

Lemma bitmap_ok_step s s' :
  bitmap_ok s -> sb s' = sb s -> lg_start (lg s') = lg_start (lg s) ->
  (forall b, fs_block s b -> length (view s' (BBLOCK b (sb s))) = length (view s (BBLOCK b (sb s)))) ->
  (forall b, fs_block s b -> used s' b = false ->
     home (lg_start (lg s)) b /\ forall b', fs_block s b' -> BBLOCK b' (sb s) <> b) ->
  bitmap_ok s'.
Proof.
  intros [Hs Hh Hl Hf] Hsb Hst Hlen Hfree. split; unfold fs_block; rewrite ?Hsb, ?Hst; try done.
  intros b Hb. rewrite Hlen by done. by apply Hl.
Qed.

Lemma same_view_bitmap s s' : same_view s s' -> bitmap_ok s -> bitmap_ok s'.
Proof.
  intros Hs Hb. pose proof Hs as [F _ V _ _ _]. apply (bitmap_ok_step s s' Hb).
  - by apply io_frame_sb.
  - by rewrite (io_frame_lg _ _ F).
  - intros b _. by rewrite V.
  - intros b Hr. rewrite (same_view_used _ _ _ Hs). by apply bm_free.
Qed.

(** Block [b] was taken from the free blocks: its bit is set, its contents are
    zero, and both are part of the transaction. *)
Record taken s (bl : list Z) (b : Z) s' : Prop := {
  tk_op : op_ok me pid s' (logged b (logged (BBLOCK b (sb s)) bl));
  tk_used : forall b', fs_block s b' -> used s' b' = (b' =? b) || used s b';
  tk_zero : view s' b = replicate (Z.to_nat BSIZE) 0;
  tk_rest : forall bn, bn <> b -> bn <> BBLOCK b (sb s) -> view s' bn = view s bn;
  tk_bitmap : bitmap_ok s';
  tk_pins : pins s bl -> pins s' (logged b (logged (BBLOCK b (sb s)) bl));
  tk_out : lg_outstanding (lg s') = lg_outstanding (lg s);
  tk_com : lg_committing (lg s') = lg_committing (lg s);
  tk_frame : io_frame (set_lg (lg s') s) s';
  tk_start : lg_start (lg s') = lg_start (lg s);
  tk_disk : disk s' = disk s;
  tk_writes : writes s' = writes s
}.

(** With what is left of the budget. *)
Definition taken_with (n : nat) (R : list Z) s (bl : list Z) (b : Z) s' : Prop :=
  taken s bl b s' /\ may_log n s' (logged b (logged (BBLOCK b (sb s)) bl)) (b :: BBLOCK b (sb s) :: R).

Lemma balloc_take n s bl R b :
  may_log (S (S n)) s bl R -> bitmap_ok s -> fs_block s b -> used s b = false ->
  exists bp x s1 s2 s3, bread ROOTDEV (BBLOCK b (sb s)) s = Ok bp s1 /\ getb bp s1 = Ok x s1 /\
    b_data x = view s (BBLOCK b (sb s)) /\
    (set_data bp (set_bit (b `mod` BPB)) ;; log_write bp ;; brelse bp) s1 = Ok tt s2 /\
    bzero ROOTDEV b s2 = Ok tt s3 /\ taken_with n R s bl b s3.
Proof.
  intros Hml Hb Hr Hu. destruct (bm_free _ Hb b Hr Hu) as [Hhb Hne].
  destruct (update_block (S n) s bl R _ (set_bit (b `mod` BPB)) Hml (bm_home _ Hb b Hr))
    as (bp & x & s1 & s2 & H1 & Hx & Dx & H2 & L2 & M2 & _ & N2).
  rewrite <- (ls_start _ _ _ _ L2) in Hhb.
  destruct (bzero_run n s2 _ _ b M2 Hhb) as (s3 & H3 & L3 & M3 & N3).
  exists bp, x, s1, s2, s3. split_and!; try done. split; [|done].
  destruct L2 as [_ V2 B2 T2 U2 C2 D2 W2 F2], L3 as [O3 V3 B3 T3 U3 C3 D3 W3 F3]. rewrite T2 in *.
  assert (Hbv : forall b', fs_block s b' -> view s3 (BBLOCK b' (sb s)) =
    if BBLOCK b' (sb s) =? BBLOCK b (sb s) then set_bit (b `mod` BPB) (view s (BBLOCK b (sb s)))
    else view s (BBLOCK b' (sb s))).
  { intros b' Hr'. rewrite V3, (proj2 (Z.eqb_neq _ _) (Hne b' Hr')). apply V2. }
  assert (Huse : forall b', fs_block s b' -> used s3 b' = (b' =? b) || used s b').
  { intros b' Hr'. rewrite (used_change s s3 b true set_bit Hb Hr); try done; [by rewrite B3|].
    intros d bi bj Hi Hj Hlt. rewrite bit_free_set by done. by destruct (bj =? bi). }
  split; try done.
  - by rewrite V3, Z.eqb_refl.
  - intros bn Hn1 Hn2. rewrite V3, V2. by rewrite !(proj2 (Z.eqb_neq _ _)).
  - apply (bitmap_ok_step s s3 Hb); [by rewrite B3|by rewrite T3| |].
    + intros b' Hr'. rewrite (Hbv b' Hr'). destruct (Z.eqb_spec (BBLOCK b' (sb s)) (BBLOCK b (sb s))) as [->|]; [|done].
      apply length_set_bit.
    + intros b' Hr'. rewrite (Huse b' Hr'). intros [_ H]%orb_false_iff. by apply bm_free.
  - intros Hp. by apply N3, N2.
  - by rewrite U3.
  - by rewrite C3.
  - unfold io_frame in *. rewrite F3, F2. by destruct s.
  - by rewrite D3.
  - by rewrite W3.
Qed.

(** ** [balloc] *)

(** The first free block, if there is one. *)
Definition first_free s (b : Z) : Prop :=
  fs_block s b /\ used s b = false /\ forall b', 0 <= b' < b -> used s b' = true.

Lemma same_view_taken n R s0 s bl b s' : same_view s0 s -> taken_with n R s bl b s' -> taken_with n R s0 bl b s'.
Proof.
  intros Hs [[O U Z0 Re B Pn Uo Uc Fr St D Wr] Hm]. pose proof Hs as [F _ V _ D0 W0]. pose proof (io_frame_sb _ _ F) as Hsb.
  pose proof (io_frame_lg _ _ F) as Hlg. rewrite Hsb in O, Re, Hm, Pn. rewrite Hlg in *. split; [|done]. split; try done.
  - intros b' Hr'. rewrite <- (same_view_used s0 s b' Hs). apply U. unfold fs_block in *. by rewrite Hsb.
  - intros bn H1 H2. rewrite Re by done. apply V.
  - intros Hp. apply Pn. intros bn. by rewrite (sv_refs _ _ Hs).
  - unfold io_frame in *. rewrite Fr, F. by destruct s0.
  - by rewrite D.
  - by rewrite Wr.
Qed.

Definition balloc_body (sb0 : superblock) : Z -> unit -> K (unit + Z) := fun b _ =>
  bp ← bread ROOTDEV (BBLOCK b sb0);
  x ← getb bp;
  match find_free (Z.to_nat BPB) (b_data x) b (sb_size sb0) 0 with
  | Some bi =>
      set_data bp (set_bit bi) ;; log_write bp ;; brelse bp ;;
      bzero ROOTDEV (b + bi) ;; mret (inr (b + bi))
  | None => brelse bp ;; mret (inl tt)
  end.

(** One turn of the outer loop: the bitmap block of the blocks from
    [k * BPB] on. *)
Lemma balloc_turn n s bl R k :
  may_log (S (S n)) s bl R -> bitmap_ok s -> fs_block s (k * BPB) ->
  (forall b', 0 <= b' < k * BPB -> used s b' = true) ->
  (exists b s', balloc_body (sb s) (k * BPB) tt s = Ok (inr b) s' /\ first_free s b /\ taken_with n R s bl b s') \/
  (exists s', balloc_body (sb s) (k * BPB) tt s = Ok (inl tt) s' /\ same_view s s' /\
     forall b', 0 <= b' < (k + 1) * BPB -> fs_block s b' -> used s b' = true).
Proof.
  intros Hml Hb Hr Hbefore. set (d := view s (BBLOCK (k * BPB) (sb s))).
  assert (Hin : forall j, 0 <= j < BPB -> fs_block s (k * BPB + j) ->
    BBLOCK (k * BPB + j) (sb s) = BBLOCK (k * BPB) (sb s) /\ (k * BPB + j) `mod` BPB = j /\
    used s (k * BPB + j) = negb (bit_free d j)).
  { intros j Hj Hrj. assert (E : BBLOCK (k * BPB + j) (sb s) = BBLOCK (k * BPB) (sb s)).
    { apply BBLOCK_eq; [done..|]. rewrite Z.div_add_l, Z.div_mul, Z.div_small by done. lia. }
    assert (M : (k * BPB + j) `mod` BPB = j).
    { rewrite Z.add_comm, Z.mod_add by done. by apply Z.mod_small. }
    split_and!; [done|done|]. unfold used. by rewrite E, M. }
  assert (Hpos : Z.of_nat (Z.to_nat BPB) = BPB) by by apply Z2Nat.id. unfold balloc_body.
  destruct (find_free (Z.to_nat BPB) d (k * BPB) (sb_size (sb s)) 0) as [bi|] eqn:Hff.
  - left. apply find_free_Some in Hff as Hf. destruct Hf as (Hbi & Hsz & Hfr & Hlow). rewrite Hpos in Hbi.
    assert (Hrb : fs_block s (k * BPB + bi)) by (unfold fs_block in *; lia).
    destruct (Hin bi ltac:(lia) Hrb) as (E & M & U). rewrite Hfr in U.
    destruct (balloc_take n s bl R (k * BPB + bi) Hml Hb Hrb U) as (bp & x & s1 & s2 & s3 & H1 & H2 & H3 & H4 & H5 & T).
    rewrite E in H1, H3. rewrite M in H4.
    exists (k * BPB + bi), s3. split; [|split; [split_and!; [exact Hrb|exact U|]|exact T]].
    + kstep H1. kstep H2. rewrite H3. fold d. rewrite Hff. rewrite (log_tail _ _ _ _ _ H4). by kstep H5.
    + intros b' Hb'. destruct (decide (b' < k * BPB)); [apply Hbefore; lia|].
      destruct (Hin (b' - k * BPB)) as (_ & _ & U'); [lia|unfold fs_block in *; lia|].
      rewrite Z.add_comm, Z.sub_add in U'. rewrite U', Hlow by lia. done.
  - right. destruct (bread_peek (S n) s bl R (BBLOCK (k * BPB) (sb s)) Hml) as (bp & x & s1 & s2 & H1 & H2 & H3 & H4 & Hs & _).
    exists s2. split_and!; [|done|].
    + kstep H1. kstep H2. rewrite H3. fold d. rewrite Hff. by kstep H4.
    + intros b' Hb' Hr'. destruct (decide (b' < k * BPB)); [apply Hbefore; lia|].
      destruct (Hin (b' - k * BPB)) as (_ & _ & U'); [lia|by rewrite Z.add_comm, Z.sub_add|].
      rewrite Z.add_comm, Z.sub_add in U'. rewrite U'.
      rewrite (find_free_None _ _ _ _ _ Hff); [done|lia|]. unfold fs_block in *. lia.
Qed.

Lemma balloc_loop m s0 bl R (n : nat) k s :
  may_log (S (S m)) s bl R -> bitmap_ok s -> same_view s0 s -> 0 <= k ->
  (n = 0%nat -> sb_size (sb s) <= k * BPB) -> (n <> 0%nat -> (k + n - 1) * BPB < sb_size (sb s) <= (k + n) * BPB) ->
  (forall b', 0 <= b' < k * BPB -> fs_block s b' -> used s b' = true) ->
  (exists b s', kfor ((fun k => k * BPB) <$> seqZ k n) (balloc_body (sb s0)) tt s = Ok (inr b) s' /\
     first_free s0 b /\ taken_with m R s0 bl b s') \/
  (exists s', kfor ((fun k => k * BPB) <$> seqZ k n) (balloc_body (sb s0)) tt s = Ok (inl tt) s' /\
     same_view s0 s' /\ forall b', fs_block s0 b' -> used s0 b' = true).
Proof.
  revert k s. induction n as [|n IH]; intros k s Hml Hb Hs Hk Hz Hnz Hbefore.
  - right. exists s. split_and!; [done|done|]. intros b' Hr. pose proof (sv_frame _ _ Hs) as F.
    rewrite <- (same_view_used s0 s b' Hs). specialize (Hz eq_refl).
    unfold fs_block in *. rewrite (io_frame_sb _ _ F) in *. apply Hbefore; lia.
  - pose proof (io_frame_sb _ _ (sv_frame _ _ Hs)) as Hsb. specialize (Hnz ltac:(done)).
    assert (HB : BPB = 8192) by done. rewrite seqZ_cons by lia. cbn [fmap list_fmap kfor].
    replace (Z.pred (S n)) with (Z.of_nat n) by lia. rewrite <- Z.add_1_r.
    assert (Hr : fs_block s (k * BPB)) by (unfold fs_block; nia).
    destruct (balloc_turn m s bl R k Hml Hb Hr) as [(b & s' & Hrun & Hff & Ht)|(s' & Hrun & Hs' & Hall)].
    { intros b' Hb'. apply Hbefore; [done|]. unfold fs_block in *. lia. }
    + left. exists b, s'. split_and!; [|..].
      * rewrite <- Hsb. kstep Hrun. done.
      * destruct Hff as (H1 & H2 & H3). unfold fs_block in H1. rewrite Hsb in H1.
        split_and!; [done|by rewrite <- (same_view_used s0 s b Hs)|].
        intros b' Hb'. rewrite <- (same_view_used s0 s b' Hs). by apply H3.
      * by eapply same_view_taken.
    + pose proof (io_frame_sb _ _ (sv_frame _ _ Hs')) as Hsb'.
      destruct (IH (k + 1) s') as [H|H].
      * by eapply same_view_may_log.
      * by eapply same_view_bitmap.
      * by eapply same_view_trans.
      * lia.
      * intros ->. rewrite Hsb'. lia.
      * intros _. rewrite Hsb'. lia.
      * intros b' Hb' Hr'. rewrite (same_view_used s s' b' Hs'). apply Hall; [done|].
        unfold fs_block in *. by rewrite <- Hsb'.
      * left. destruct H as (b & s'' & H & P). exists b, s''. split; [|done].
        rewrite <- Hsb in *. by kstep Hrun.
      * right. destruct H as (s'' & H & P). exists s''. split; [|done]. rewrite <- Hsb in *. by kstep Hrun.
Qed.

Lemma bitmap_steps_seq size :
  0 < size -> exists n : nat, bitmap_steps size = (fun k => k * BPB) <$> seqZ 0 n /\
    (0 + Z.of_nat n - 1) * BPB < size <= (0 + Z.of_nat n) * BPB.
Proof.
  intros H. exists (Z.to_nat ((size + BPB - 1) / BPB)). unfold bitmap_steps, upto.
  assert (HB : BPB = 8192) by done. rewrite Z2Nat.id; rewrite HB; [split; [done|]|]; Z.div_mod_to_equations; lia.
Qed.

Lemma same_view_output s s' w : same_view s s' -> same_view s (set_output w s').
Proof.
  intros [F [Cl Cr Cu Cd Cf Ck Cm Cc] V R D Wr]. split; [|split|..]; try done. unfold io_frame in *. rewrite F. done.
Qed.

Lemma balloc_run n s bl R :
  may_log (S (S n)) s bl R -> bitmap_ok s ->
  (exists b s', balloc ROOTDEV s = Ok b s' /\ first_free s b /\ taken_with n R s bl b s') \/
  (exists s', balloc ROOTDEV s = Ok 0 s' /\ same_view s s' /\ forall b, fs_block s b -> used s b = true).
Proof.
  intros Hml Hb. pose proof (same_view_refl _ _ (ml_op _ _ _ _ Hml)) as Hsv. unfold balloc.
  rewrite bind_run. cbn [gets obind]. change (kfor _ _ tt) with (kfor (bitmap_steps (sb_size (sb s))) (balloc_body (sb s)) tt).
  assert (Hl : (exists b s', kfor (bitmap_steps (sb_size (sb s))) (balloc_body (sb s)) tt s = Ok (inr b) s' /\
      first_free s b /\ taken_with n R s bl b s') \/
    (exists s', kfor (bitmap_steps (sb_size (sb s))) (balloc_body (sb s)) tt s = Ok (inl tt) s' /\
      same_view s s' /\ forall b', fs_block s b' -> used s b' = true)).
  { destruct (decide (0 < sb_size (sb s))) as [Hpos|Hneg].
    - destruct (bitmap_steps_seq _ Hpos) as (k & -> & Hk). eapply balloc_loop; try done.
      + assert (HB : BPB = 8192) by done. intros ->. lia.
      + intros b' Hb'. lia.
    - right. exists s. assert (HB : BPB = 8192) by done. split_and!; [|done|unfold fs_block; lia].
      unfold bitmap_steps, upto. rewrite seqZ_nil; [done|]. rewrite HB. Z.div_mod_to_equations. lia. }
  destruct Hl as [(b & s' & H & P)|(s' & H & Hs & Hall)].
  - left. exists b, s'. split; [|done]. by kstep H.
  - right. kstep H. destruct (printf_prints (str "balloc: out of blocks" ++ [10]) [] s') as [w Hw].
    + pose proof (same_view_op _ _ _ Hs (ml_op _ _ _ _ Hml)) as [Hf _ _ _ _ _].
      rewrite (fx_held _ _ _ Hf). apply not_elem_of_nil.
    + rewrite <- (app_nil_r (str _ ++ [10])). apply prints_text; [by vm_compute; repeat constructor|].
      cbn. apply prints_ret.
    + eexists. kstep Hw. split_and!; [done| |done]. by apply same_view_output.
Qed.

(** C19. [balloc] inside an operation with room for two more logged blocks
    returns the first free block of the bitmap: the block is marked in use and
    no other is, its contents are zero, both changes are in the transaction and
    nothing was written to the disk.  When no block is free it returns 0 and
    changes no contents. *)
Theorem balloc_spec s bl R :
  may_log 2 s bl R -> bitmap_ok s ->
  (exists b s', balloc ROOTDEV s = Ok b s' /\ first_free s b /\ taken s bl b s') \/
  (exists s', balloc ROOTDEV s = Ok 0 s' /\ same_view s s' /\ forall b, fs_block s b -> used s b = true).
Proof.
  intros Hml Hb. destruct (balloc_run 0 s bl R Hml Hb) as [(b & s' & H & Hf & [T _])|H]; [|by right]. left. by exists b, s'.
Qed.

(** ** [bfree] *)

Record given_back s (bl : list Z) (b : Z) s' : Prop := {
  fr_op : op_ok me pid s' (logged (BBLOCK b (sb s)) bl);
  fr_used : forall b', fs_block s b' -> used s' b' = negb (b' =? b) && used s b';
  fr_rest : forall bn, bn <> BBLOCK b (sb s) -> view s' bn = view s bn;
  fr_bitmap : home (lg_start (lg s)) b -> (forall b', fs_block s b' -> BBLOCK b' (sb s) <> b) -> bitmap_ok s';
  fr_disk : disk s' = disk s;
  fr_writes : writes s' = writes s
}.

Lemma bfree_run s bl R b :
  may_log 1 s bl R -> bitmap_ok s -> fs_block s b -> used s b = true ->
  exists s', bfree ROOTDEV b s = Ok tt s' /\ given_back s bl b s'.
Proof.
  intros Hml Hb Hr Hu.
  destruct (update_block 0 s bl R _ (clear_bit (b `mod` BPB)) Hml (bm_home _ Hb b Hr))
    as (bp & x & s1 & s2 & H1 & Hx & Dx & H2 & [O2 V2 B2 T2 _ _ D2 W2 _] & _).
  exists s2. split.
  { unfold bfree. rewrite bind_run. cbn [gets obind]. kstep H1. cbv zeta. kstep Hx. rewrite Dx.
    unfold used in Hu. apply negb_true_iff in Hu. by rewrite Hu. }
  assert (Huse : forall b', fs_block s b' -> used s2 b' = negb (b' =? b) && used s b').
  { intros b' Hr'. rewrite (used_change s s2 b false clear_bit Hb Hr); try done; [by destruct (b' =? b)|].
    intros d bi bj Hi Hj Hlt. rewrite bit_free_clear by done. by destruct (bj =? bi). }
  split; try done.
  - intros bn Hn. by rewrite V2, (proj2 (Z.eqb_neq _ _)).
  - intros Hh Hne. apply (bitmap_ok_step s s2 Hb B2 T2).
    + intros b' Hr'. rewrite V2. destruct (Z.eqb_spec (BBLOCK b' (sb s)) (BBLOCK b (sb s))) as [->|]; [|done].
      apply length_clear_bit.
    + intros b' Hr'. rewrite (Huse b' Hr'). destruct (Z.eqb_spec b' b) as [->|]; [done|]. cbn. by apply bm_free.
Qed.

(** [bfree] of a block in use inside an operation takes exactly that block
    out of the set of blocks in use, in the transaction, and writes nothing to
    the disk; freeing a free block panics. *)
Theorem bfree_spec s bl R b :
  may_log 1 s bl R -> bitmap_ok s -> fs_block s b ->
  if used s b then exists s', bfree ROOTDEV b s = Ok tt s' /\ given_back s bl b s'
  else bfree ROOTDEV b s = Panic "freeing free block".
Proof.
  intros Hml Hb Hr. destruct (used s b) eqn:Hu; [by eapply bfree_run|].
  destruct (bread_peek 0 s bl R (BBLOCK b (sb s)) Hml) as (bp & x & s1 & _ & H1 & Hx & Dx & _).
  unfold bfree. rewrite bind_run. cbn [gets obind]. kstep H1. cbv zeta. kstep Hx. rewrite Dx.
  unfold used in Hu. apply negb_false_iff in Hu. by rewrite Hu.
Qed.

End Balloc.

(** ** A file system as [mkfs] makes it: 47 blocks of meta data *)

Definition fs_sb : superblock := mkSuperblock FSMAGIC 2000 1953 200 31 2 33 46.

Definition fs_bitmap : list Z := replicate 5 255 ++ [127] ++ replicate (Z.to_nat BSIZE - 6) 0.

Definition fs_machine : kernel :=
  set_sb fs_sb (set_disk (<[46 := fs_bitmap]> (disk idle_machine)) idle_machine).

(** The file system inside an operation. *)
Definition fs_in_op : kernel := after (@begin_op three_waits) fs_machine.

Lemma fs_machine_idle : idle 0 1 2 fs_machine.
Proof.
  destruct idle_machine_idle as [[Hf Hok Hr0 Hdev Hst Hrg Hlen] Hn Ho Hc Hhd He].
  split; try done. split; try done.
  - destruct Hf as [H1 H2 H3 H4 H5 H6]. by split.
  - destruct Hok as [Cl Cr Cu Cd Cf Ck Cm Cc]. split; try done.
    intros b x ->%idle_machine_buf. done.
Qed.

Lemma fs_in_op_ok :
  op_ok 0 1 fs_in_op [] /\ lg_n (lg fs_in_op) = 0 /\ lg_start (lg fs_in_op) = 2 /\ sb fs_in_op = fs_sb /\
  (forall bn, refs fs_in_op bn = 0) /\ forall bn, view fs_in_op bn = disk fs_machine bn.
Proof.
  destruct (@begin_op_idle three_waits 0 1 2 fs_machine fs_machine_idle)
    as (s1 & H1 & Hop & _ & _ & Hn & Hst & _ & _ & Hr & Hv).
  assert (fs_in_op = s1) as E by (unfold fs_in_op, after; by rewrite H1).
  assert (Hsb : sb fs_in_op = fs_sb) by reflexivity. rewrite E in *. done.
Qed.

Lemma fs_in_op_may_log n : (n <= 30)%nat -> may_log 0 1 n fs_in_op [] [].
Proof.
  intros Hle. destruct fs_in_op_ok as (Hop & Hn & _ & _ & Hr & _). split; [exact Hop|..].
  - change (Z.to_nat NBUF) with 30%nat. exact Hle.
  - intros bn H. by destruct (H (Hr bn)).
  - intros bn. rewrite Hr. change (2^30) with 1073741824. lia.
  - rewrite Hn. change LOGBLOCKS with 30. lia.
Qed.

Lemma fs_bitmap_block b : 0 <= b < 2000 -> BBLOCK b fs_sb = 46.
Proof.
  intros Hb. unfold BBLOCK. rewrite (u32_small b) by (unfold is_u32; lia).
  rewrite Z.div_small; [done|]. change BPB with 8192. lia.
Qed.

Lemma fs_used b : 0 <= b < 2000 -> used fs_in_op b = negb (bit_free fs_bitmap b).
Proof.
  intros Hb. destruct fs_in_op_ok as (_ & _ & _ & Hsb & _ & Hv). unfold used.
  rewrite Hsb, fs_bitmap_block, Hv by done. rewrite Z.mod_small; [done|]. change BPB with 8192. lia.
Qed.

Lemma fs_meta_used b : 0 <= b < 47 -> bit_free fs_bitmap b = false.
Proof.
  intros Hb. assert (H : Forall (fun b => bit_free fs_bitmap b = false) (seqZ 0 47)) by (vm_compute; repeat constructor).
  rewrite Forall_forall in H. apply H, elem_of_seqZ. lia.
Qed.

Lemma fs_in_op_bitmap : bitmap_ok fs_in_op.
Proof.
  destruct fs_in_op_ok as (_ & _ & Hst & Hsb & _ & Hv).
  split; unfold fs_block; rewrite ?Hsb, ?Hst; cbn [sb_size sb_bmapstart fs_sb].
  - lia.
  - intros b Hb. rewrite fs_bitmap_block by done. split; [lia|]. change LOGBLOCKS with 30. lia.
  - intros b Hb. by rewrite fs_bitmap_block, Hv.
  - intros b Hb. rewrite fs_used by done. intros Hu%negb_false_iff.
    assert (47 <= b). { destruct (decide (47 <= b)); [done|]. rewrite fs_meta_used in Hu by lia. done. }
    split; [split; [lia|]; change LOGBLOCKS with 30; lia|]. intros b' Hb'. rewrite fs_bitmap_block by done. lia.
Qed.

Lemma balloc_spec_witness :
  exists s', @balloc three_waits ROOTDEV fs_in_op = Ok 47 s' /\ view s' 47 = replicate 1024 0 /\
    used s' 47 = true /\ used s' 48 = false.
Proof.
  assert (R47 : 0 <= 47 < 2000) by lia. assert (R48 : 0 <= 48 < 2000) by lia.
  destruct (@balloc_spec three_waits 0 1 fs_in_op [] [] (fs_in_op_may_log 2 ltac:(lia)) fs_in_op_bitmap)
    as [(b & s' & H & (Hb & Hu & Hlow) & T)|(s' & _ & _ & Hall)].
  - destruct fs_in_op_ok as (_ & _ & _ & Hsb & _ & _). unfold fs_block in Hb. rewrite Hsb in Hb.
    cbn [sb_size fs_sb] in Hb. assert (b = 47) as ->.
    { destruct (Z.lt_trichotomy b 47) as [Hlt|[Heq|Hgt]]; [|exact Heq|].
      - rewrite fs_used, fs_meta_used in Hu by lia. discriminate Hu.
      - specialize (Hlow 47 ltac:(lia)). rewrite fs_used in Hlow by lia. discriminate Hlow. }
    exists s'. split; [exact H|]. split; [exact (tk_zero _ _ _ _ _ _ T)|].
    split; rewrite (tk_used _ _ _ _ _ _ T) by (unfold fs_block; rewrite Hsb; cbn [sb_size fs_sb]; lia); [reflexivity|].
    rewrite fs_used by lia. reflexivity.
  - destruct fs_in_op_ok as (_ & _ & _ & Hsb & _ & _).
    specialize (Hall 47 ltac:(unfold fs_block; rewrite Hsb; cbn [sb_size fs_sb]; lia)).
    rewrite fs_used in Hall by lia. discriminate Hall.
Defined.

Lemma bfree_spec_witness :
  (exists s', @bfree three_waits ROOTDEV 46 fs_in_op = Ok tt s' /\ used s' 46 = false) /\
  @bfree three_waits ROOTDEV 47 fs_in_op = Panic "freeing free block".
Proof.
  destruct fs_in_op_ok as (_ & _ & _ & Hsb & _ & _).
  assert (Hr : forall b, 0 <= b < 2000 -> fs_block fs_in_op b) by (intros b Hb; unfold fs_block; rewrite Hsb; exact Hb).
  pose proof (fs_in_op_may_log 1 ltac:(lia)) as Hml. split.
  - pose proof (@bfree_spec three_waits 0 1 fs_in_op [] [] 46 Hml fs_in_op_bitmap (Hr 46 ltac:(lia))) as H.
    rewrite fs_used, fs_meta_used in H by lia. destruct H as (s' & H & F). exists s'. split; [exact H|].
    rewrite (fr_used _ _ _ _ _ _ F 46 (Hr 46 ltac:(lia))). reflexivity.
  - pose proof (@bfree_spec three_waits 0 1 fs_in_op [] [] 47 Hml fs_in_op_bitmap (Hr 47 ltac:(lia))) as H.
    rewrite fs_used in H by lia. exact H.
Defined.
