(* ===== verification/FsData.v ===== *)
(** * The formats of the file system

    Encodings on disk ([struct dinode]) and names: what [iupdate] stores,
    [ilock] reads back; [skipelem] takes a path apart into its elements;
    [namecmp] decides which directory entry a name denotes. *)

From S2P Require Import Prelude Riscv Mem State Printf Sched Bio Log Fs.

#[local] Open Scope Z_scope.

(** ** Dinodes *)

Record dinode_ok (x : dinode) : Prop := {
  do_type : -2^15 <= d_type x < 2^15;
  do_major : -2^15 <= d_major x < 2^15;
  do_minor : -2^15 <= d_minor x < 2^15;
  do_nlink : -2^15 <= d_nlink x < 2^15;
  do_size : is_u32 (d_size x);
  do_len : length (d_addrs x) = 13%nat;
  do_addrs : Forall is_u32 (d_addrs x)
}.

Lemma i16_u16 x : -2^15 <= x < 2^15 -> i16 (u16 x) = x.
Proof. unfold i16, u16. intros. Z.div_mod_to_equations. lia. Qed.

Lemma length_put_addrs l o d : length (put_addrs l o d) = length d.
Proof.
  revert o d. induction l as [|x l IH]; intros o d; [done|]. cbn [put_addrs].
  rewrite IH. apply length_put_le.
Qed.

Lemma length_put_dinode x o d : length (put_dinode x o d) = length d.
Proof. unfold put_dinode, put32. by rewrite length_put_addrs, !length_put_le. Qed.

(** Bytes outside the array are not touched. *)
Lemma get_put_addrs_other n l o d off :
  (off + n <= o \/ o + 4 * length l <= off)%nat -> get_le n (put_addrs l o d) off = get_le n d off.
Proof.
  revert o d. induction l as [|x l IH]; intros o d H; [done|]. cbn [put_addrs length] in *.
  rewrite IH by lia. apply get_put_le_other. lia.
Qed.

Lemma get_put_addrs l o d (k : nat) x :
  (o + 4 * length l <= length d)%nat -> l !! k = Some x ->
  get32 (put_addrs l o d) (o + 4 * k) = u32 x.
Proof.
  revert o d k. induction l as [|y l IH]; intros o d k Hl Hk; [done|]. cbn [put_addrs length] in *.
  destruct k as [|k].
  - injection Hk as ->. rewrite Nat.add_0_r. unfold get32.
    rewrite get_put_addrs_other by lia. apply get_put32; [lia|apply u32_range].
  - replace (o + 4 * S k)%nat with (o + 4 + 4 * k)%nat by lia.
    apply IH; [unfold put32; rewrite length_put_le; lia|done].
Qed.

Lemma get_dinode_addrs l o d :
  (o + 52 <= length d)%nat -> length l = 13%nat -> Forall is_u32 l ->
  ((fun k : nat => get32 (put_addrs l o d) (o + 4 * k)) <$> seq 0 13) = l.
Proof.
  intros Hd Hl Hu. apply list_eq. intros k. rewrite list_lookup_fmap.
  destruct (l !! k) as [x|] eqn:E.
  - pose proof (lookup_lt_Some _ _ _ E). rewrite lookup_seq_lt by lia.
    cbn [fmap option_fmap option_map Nat.add]. f_equal.
    rewrite (get_put_addrs l o d k x) by (done || lia). apply u32_small.
    rewrite Forall_lookup in Hu. by apply (Hu k).
  - rewrite lookup_seq_ge by (apply lookup_ge_None in E; lia). done.
Qed.

Lemma get_put_u16 v off d :
  (off + 2 <= length d)%nat -> get_le 2 (put_le 2 (u16 v) off d) off = u16 v.
Proof. intros. apply get_put_le; [done|]. apply Z.mod_pos_bound. lia. Qed.

(** Reads that skip over the stores behind them. *)
Ltac other :=
  repeat first [rewrite get_put_addrs_other by lia | rewrite get_put_le_other by lia].

Lemma get_put_dinode x o d :
  (o + 64 <= length d)%nat -> dinode_ok x -> get_dinode (put_dinode x o d) o = x.
Proof.
  intros Hl [H1 H2 H3 H4 H5 H6 H7]. destruct x as [ty ma mi nl sz ad]. cbn [d_type d_major d_minor d_nlink d_size d_addrs] in H1, H2, H3, H4, H5, H6, H7.
  unfold get_dinode, put_dinode. cbn [d_type d_major d_minor d_nlink d_size d_addrs].
  unfold get32 at 1, put32. f_equal.
  - other. by rewrite get_put_u16, i16_u16 by lia.
  - other. by rewrite get_put_u16, i16_u16 by (rewrite ?length_put_le; lia).
  - other. by rewrite get_put_u16, i16_u16 by (rewrite ?length_put_le; lia).
  - other. by rewrite get_put_u16, i16_u16 by (rewrite ?length_put_le; lia).
  - other. rewrite get_put_le; [by apply u32_small|rewrite !length_put_le; lia|apply u32_range].
  - apply get_dinode_addrs; [rewrite !length_put_le; lia|done|done].
Qed.

Lemma get_put_dinode_other x o o' d :
  length (d_addrs x) = 13%nat -> (o + 64 <= o' \/ o' + 64 <= o)%nat ->
  get_dinode (put_dinode x o d) o' = get_dinode d o'.
Proof.
  intros Hl Ho. unfold get_dinode, put_dinode, get32, put32. f_equal; try (by other).
  apply list_fmap_ext. intros i k Hk. apply lookup_seq in Hk as [-> Hk]. by other.
Qed.

Lemma dinode_off_bound inum : (dinode_off inum + 64 <= Z.to_nat BSIZE)%nat.
Proof.
  unfold dinode_off. change IPB with 16. change BSIZE with 1024.
  pose proof (Z.mod_pos_bound inum 16). lia.
Qed.

Lemma dinode_off_apart i j :
  i `mod` IPB <> j `mod` IPB -> (dinode_off i + 64 <= dinode_off j \/ dinode_off j + 64 <= dinode_off i)%nat.
Proof.
  unfold dinode_off. change IPB with 16.
  pose proof (Z.mod_pos_bound i 16). pose proof (Z.mod_pos_bound j 16). lia.
Qed.

(** What [iupdate] writes into a block for an inode, [ilock] reads back:
    type, device numbers, link count, size and all thirteen block addresses;
    and the other fifteen inodes of the block are unchanged. *)
Theorem inode_roundtrip ip ip' d inum :
  length d = Z.to_nat BSIZE -> dinode_ok (to_dinode ip) ->
  let d' := put_dinode (to_dinode ip) (dinode_off inum) d in
  to_dinode (load_dinode (get_dinode d' (dinode_off inum)) ip') = to_dinode ip /\
  (forall j, j `mod` IPB <> inum `mod` IPB ->
     get_dinode d' (dinode_off j) = get_dinode d (dinode_off j)) /\
  length d' = length d.
Proof.
  intros Hd Hok d'. pose proof (dinode_off_bound inum). split_and!.
  - unfold d'. rewrite get_put_dinode by (done || lia). by destruct ip.
  - intros j Hj. apply get_put_dinode_other; [apply Hok|]. apply dinode_off_apart. congruence.
  - apply length_put_dinode.
Qed.

Definition sample_inode : inode := mkInode 1 7 1 (mkSleeplock 0 0) 1 T_FILE (-3) 4 1 70000 (seqZ 100 13).

Lemma inode_roundtrip_witness :
  to_dinode (load_dinode (get_dinode (put_dinode (to_dinode sample_inode) (dinode_off 7)
    (replicate 1024 9)) (dinode_off 7)) zero_inode) = to_dinode sample_inode.
Proof.
  apply (inode_roundtrip sample_inode zero_inode (replicate 1024 9) 7); [reflexivity|].
  split; try (split; [discriminate|reflexivity]); try reflexivity.
  repeat (constructor; [split; [discriminate|reflexivity]|]). constructor.
Defined.

(** ** Paths *)

(** Reference: the pieces between slashes. *)
Fixpoint pieces (p : list Z) : list (list Z) :=
  match p with
  | [] => [[]]
  | c :: p' =>
      if c =? 47 then [] :: pieces p'
      else match pieces p' with
           | e :: es => (c :: e) :: es
           | [] => [[c]]
           end
  end.

(** The elements of a path: the non-empty pieces, cut to the length of a
    directory entry's name. *)
Definition path_elements (p : list Z) : list (list Z) :=
  take (Z.to_nat DIRSIZ) <$> filter (fun e => e <> []) (pieces p).

(** What the loop of [namex] gets from [skipelem]. *)
Fixpoint walk_path (fuel : nat) (p : list Z) : option (list (list Z)) :=
  match fuel with
  | O => None
  | S f =>
      match skipelem p with
      | None => Some []
      | Some (e, r) => (cons e) <$> walk_path f r
      end
  end.

Lemma pieces_nonempty p : pieces p <> [].
Proof. destruct p as [|c p]; [done|]. cbn. by destruct (c =? 47), (pieces p). Qed.

Lemma path_elements_slash p : path_elements (47 :: p) = path_elements p.
Proof. unfold path_elements. cbn [pieces Z.eqb Pos.eqb]. by rewrite filter_cons_False by naive_solver. Qed.

Lemma path_elements_skip p : path_elements (skip_slashes p) = path_elements p.
Proof.
  induction p as [|c p IH]; [done|]. cbn [skip_slashes].
  destruct (Z.eqb_spec c 47) as [->|]; [|done]. by rewrite path_elements_slash.
Qed.

Lemma skip_slashes_head p : match skip_slashes p with c :: _ => c <> 47 | [] => True end.
Proof. induction p as [|c p IH]; [done|]. cbn. by destruct (Z.eqb_spec c 47). Qed.

Lemma skip_slashes_length p : (length (skip_slashes p) <= length p)%nat.
Proof. induction p as [|c p IH]; [done|]. cbn. destruct (c =? 47); cbn; lia. Qed.

Lemma take_elem_pieces p :
  exists es, pieces p = (take_elem p).1 :: es /\
    (((take_elem p).2 = [] /\ es = []) \/ exists r, (take_elem p).2 = 47 :: r /\ es = pieces r).
Proof.
  induction p as [|c p IH]; cbn [pieces take_elem].
  - exists []. naive_solver.
  - destruct (Z.eqb_spec c 47) as [->|Hc].
    + exists (pieces p). split; [done|]. right. by exists p.
    + destruct IH as (es & He & Hr). rewrite He. destruct (take_elem p) as [e r]. cbn in *. eauto.
Qed.

Lemma take_elem_length p : (length (take_elem p).1 + length (take_elem p).2 = length p)%nat.
Proof.
  induction p as [|c p IH]; [done|]. cbn. destruct (c =? 47); [done|].
  destruct (take_elem p). cbn in *. lia.
Qed.

Lemma skipelem_spec p :
  match skipelem p with
  | None => path_elements p = []
  | Some (e, r) => path_elements p = e :: path_elements r /\ (length r < length p)%nat /\
      match r with c :: _ => c <> 47 | [] => True end
  end.
Proof.
  unfold skipelem. rewrite <- (path_elements_skip p).
  pose proof (skip_slashes_head p) as Hh. pose proof (skip_slashes_length p) as Hlen.
  destruct (skip_slashes p) as [|c q] eqn:Eq; [done|].
  destruct (take_elem_pieces (c :: q)) as (es & Hp & Hr).
  pose proof (take_elem_length (c :: q)) as Hl.
  assert (Hne : (take_elem (c :: q)).1 <> []).
  { cbn. rewrite (proj2 (Z.eqb_neq _ _)) by done. by destruct (take_elem q). }
  destruct (take_elem (c :: q)) as [e r]. cbn [fst snd] in *.
  pose proof (skip_slashes_length r). split_and!; [|destruct e; [done|cbn in *; lia]|apply skip_slashes_head].
  unfold path_elements at 1. rewrite Hp, filter_cons_True by done. cbn. f_equal.
  rewrite path_elements_skip. destruct Hr as [[-> ->]|(r' & -> & ->)]; [done|].
  by rewrite path_elements_slash.
Qed.

(** C38. The loop of [namex] over [skipelem] ends for every path and visits
    exactly the elements of the path: the non-empty pieces between slashes, in
    order, each cut to the 14 characters of a directory entry; so repeated,
    leading and trailing slashes do not matter. *)
Theorem skipelem_elements p : walk_path (S (length p)) p = Some (path_elements p).
Proof.
  remember (S (length p)) as n eqn:Hn.
  assert (H : (length p < n)%nat) by lia. clear Hn. revert p H.
  induction n as [|n IH]; intros p H; [lia|]. cbn.
  pose proof (skipelem_spec p) as Hs. destruct (skipelem p) as [[e r]|]; [|by rewrite Hs].
  destruct Hs as (-> & Hr & _). rewrite IH by lia. done.
Qed.

(** ** Names in directories *)

Lemma strncmp_zero n s t :
  Forall (fun c => c <> 0) s -> Forall (fun c => c <> 0) t ->
  strncmp_list n s t = 0 <-> take n s = take n t.
Proof.
  revert s t. induction n as [|n IH]; intros s t Hs Ht; [done|].
  destruct Hs as [|a s Ha Hs], Ht as [|b t Hb Ht]; cbn [strncmp_list head tail default take].
  - done.
  - cbn. split; [|done]. intros. lia.
  - cbn. rewrite (proj2 (Z.eqb_neq a 0)) by done. cbn. split; [|done]. intros. lia.
  - cbn. rewrite (proj2 (Z.eqb_neq a 0)) by done. destruct (Z.eqb_spec a b) as [->|Hab]; cbn.
    + rewrite IH by done. split; [by intros ->|congruence].
    + split; [intros; lia|congruence].
Qed.

(** NUL bytes behind a name do not matter. *)
Lemma strncmp_pad n s t k : strncmp_list n s (t ++ replicate k 0) = strncmp_list n s t.
Proof.
  revert s t k. induction n as [|n IH]; intros s t k; [done|].
  destruct t as [|b t]; cbn [app strncmp_list head tail default].
  - destruct k as [|k]; [done|]. cbn.
    destruct (default 0 (head s) =? 0); [done|]. destruct (negb _); [done|]. apply (IH (tail s) [] k).
  - by rewrite IH.
Qed.

Lemma strncmp_take n s t : strncmp_list n s (take n t) = strncmp_list n s t.
Proof.
  revert s t. induction n as [|n IH]; intros s t; [done|].
  destruct t as [|b t]; cbn; [done|]. by rewrite IH.
Qed.

Lemma length_put_dirent inum name : length (put_dirent (mkDirent inum (strncpy_name name))) = 16%nat.
Proof.
  unfold put_dirent, strncpy_name. cbn [de_inum de_name]. rewrite length_app, length_put_le, length_take, length_app, !length_replicate.
  change (Z.to_nat DIRSIZ) with 14%nat. lia.
Qed.

Lemma get_put_dirent inum name : 0 <= inum < 65536 -> get_dirent (put_dirent (mkDirent inum (strncpy_name name))) = mkDirent inum (strncpy_name name).
Proof.
  intros H. unfold get_dirent, put_dirent. cbn [de_inum de_name]. set (a := put_le 2 _ 0 _).
  assert (La : length a = 2%nat) by (unfold a; by rewrite length_put_le).
  f_equal.
  - transitivity (get_le 2 a 0).
    + apply get_le_ext. intros i Hi. apply lookup_app_l. lia.
    + unfold a. unfold u16. rewrite Z.mod_small by lia. apply get_put_le; [cbn; lia|]. change (256 ^ 2%nat) with 65536. lia.
  - rewrite drop_app_length' by done. apply take_ge. unfold strncpy_name. rewrite length_take. change (Z.to_nat DIRSIZ) with 14%nat. lia.
Qed.

(** A name finds the entry that was stored under a name, exactly if the two
    agree in their first 14 characters, the part that [strncpy] keeps. *)
Theorem namecmp_stored name stored :
  Forall (fun c => c <> 0) name -> Forall (fun c => c <> 0) stored ->
  namecmp name (strncpy_name stored) = 0 <->
  take (Z.to_nat DIRSIZ) name = take (Z.to_nat DIRSIZ) stored.
Proof.
  intros Hn Hs. unfold namecmp, strncpy_name. rewrite strncmp_take, strncmp_pad.
  by apply strncmp_zero.
Qed.

Lemma namecmp_stored_witness :
  namecmp (str "a-very-long-name-1") (strncpy_name (str "a-very-long-name-2")) = 0.
Proof.
  apply (namecmp_stored (str "a-very-long-name-1") (str "a-very-long-name-2"));
    [repeat (constructor; [discriminate|]); constructor
    |repeat (constructor; [discriminate|]); constructor|reflexivity].
Defined.
