(* ===== verification/Inode.v ===== *)
(** * The inode table

    [iget] finds the entry of an inode or takes a free one, and keeps at most one
    entry per inode in use. *)

From S2P Require Import Prelude Riscv Mem State Printf Sched Bio Log Fs.

#[local] Open Scope Z_scope.

(** An entry that is in use for inode [inum] of device [dev]. *)
Definition entry_for (dev inum : Z) (ip : inode) : Prop :=
  0 < i_ref ip /\ i_dev ip = dev /\ i_inum ip = inum.

#[global] Instance entry_for_dec dev inum ip : Decision (entry_for dev inum ip).
Proof. unfold entry_for. apply _. Defined.

Record itab_ok (t : list inode) : Prop := {
  it_len : length t = Z.to_nat NINODE;
  it_ref : Forall (fun ip => 0 <= i_ref ip) t;
  it_unique : forall i j x y, t !! i = Some x -> t !! j = Some y ->
    entry_for (i_dev y) (i_inum y) x -> 0 < i_ref y -> i = j
}.

(** The scan of [iget]: the entry in use, or the first free one. *)
Fixpoint find_empty (t : list inode) (k : nat) : option nat :=
  match t with
  | [] => None
  | ip :: t' => if i_ref ip =? 0 then Some k else find_empty t' (S k)
  end.

Fixpoint find_entry (dev inum : Z) (t : list inode) (k : nat) : option nat :=
  match t with
  | [] => None
  | ip :: t' => if decide (entry_for dev inum ip) then Some k else find_entry dev inum t' (S k)
  end.

Lemma geti_run s i ip : itab s !! i = Some ip -> geti i s = Ok ip s.
Proof. intros H. unfold geti. by rewrite H. Qed.

Lemma seti_run s i f ip :
  itab s !! i = Some ip -> seti i f s = Ok tt (set_itab (<[i := f ip]> (itab s)) s).
Proof. intros H. unfold seti. by rewrite H. Qed.

Lemma find_entry_Some dev inum t k i :
  find_entry dev inum t k = Some i -> exists ip, t !! (i - k)%nat = Some ip /\ (k <= i)%nat /\ entry_for dev inum ip.
Proof.
  revert k. induction t as [|x t IH]; intros k; cbn; [done|]. case_decide as E.
  - intros [= <-]. exists x. by rewrite Nat.sub_diag.
  - intros H. destruct (IH (S k) H) as (ip & Hip & Hk & He). exists ip. split_and!; [|lia|done].
    by replace (i - k)%nat with (S (i - S k)) by lia.
Qed.

Lemma find_entry_None dev inum t k :
  find_entry dev inum t k = None -> forall i ip, t !! i = Some ip -> ~ entry_for dev inum ip.
Proof.
  revert k. induction t as [|x t IH]; intros k; cbn; [done|]. case_decide as E; [done|].
  intros H [|i] ip Hi; [by injection Hi as ->|]. by eapply IH.
Qed.

Lemma find_empty_Some t k i :
  find_empty t k = Some i -> exists ip, t !! (i - k)%nat = Some ip /\ (k <= i)%nat /\ i_ref ip = 0.
Proof.
  revert k. induction t as [|x t IH]; intros k; cbn; [done|].
  destruct (Z.eqb_spec (i_ref x) 0) as [E|E].
  - intros [= <-]. exists x. by rewrite Nat.sub_diag.
  - intros H. destruct (IH (S k) H) as (ip & Hip & Hk & He). exists ip. split_and!; [|lia|done].
    by replace (i - k)%nat with (S (i - S k)) by lia.
Qed.

Lemma find_empty_None t k : find_empty t k = None -> Forall (fun ip => i_ref ip <> 0) t.
Proof.
  revert k. induction t as [|x t IH]; intros k; cbn; [constructor|].
  destruct (Z.eqb_spec (i_ref x) 0) as [E|E]; [done|]. intros H. constructor; [done|eauto].
Qed.

Lemma entry_for_bool dev inum ip :
  (0 <? i_ref ip) && (i_dev ip =? dev) && (i_inum ip =? inum) = bool_decide (entry_for dev inum ip).
Proof.
  apply eq_true_iff_eq. rewrite bool_decide_eq_true, !andb_true_iff, Z.ltb_lt, !Z.eqb_eq.
  unfold entry_for. tauto.
Qed.

(** The loop over the rest of the table from entry [k] on. *)
Lemma iget_scan_from dev inum s (n : nat) : forall (k : nat) empty,
  (k + n = length (itab s))%nat ->
  kfor (seq k n) (fun i empty =>
    ip ← geti i;
    mret (if (0 <? i_ref ip) && (i_dev ip =? dev) && (i_inum ip =? inum) then inr i
          else inl (match empty with
                    | None => if i_ref ip =? 0 then Some i else None
                    | Some _ => empty
                    end))) empty s =
  Ok (match find_entry dev inum (drop k (itab s)) k with
      | Some i => inr i
      | None => inl (match empty with None => find_empty (drop k (itab s)) k | Some _ => empty end)
      end) s.
Proof.
  induction n as [|n IH]; intros k empty Hk.
  - rewrite drop_ge by lia. by destruct empty.
  - destruct (lookup_lt_is_Some_2 (itab s) k) as [ip Hip]; [lia|].
    rewrite (drop_S _ ip k) by done. cbn [seq kfor]. rewrite bind_run.
    rewrite bind_run, (geti_run s k ip Hip). cbn [obind mret K_ret].
    rewrite entry_for_bool. cbn [find_entry find_empty].
    case_decide as E; [rewrite bool_decide_eq_true_2 by done; done|].
    rewrite bool_decide_eq_false_2 by done. rewrite IH by lia.
    destruct (find_entry _ _ _ _); [done|]. destruct empty; [done|]. by destruct (i_ref ip =? 0).
Qed.

Lemma iget_scan_run dev inum s :
  length (itab s) = Z.to_nat NINODE ->
  iget_scan dev inum s =
  Ok (match find_entry dev inum (itab s) 0 with
      | Some i => inr i
      | None => inl (find_empty (itab s) 0)
      end) s.
Proof. intros Hl. unfold iget_scan. rewrite iget_scan_from by lia. by rewrite drop_0. Qed.

(** Changing the reference count of an entry in use, or taking a free entry
    for an inode that has none, keeps the table well formed. *)
Lemma itab_ok_keep t i ip ip' :
  itab_ok t -> t !! i = Some ip -> i_dev ip' = i_dev ip -> i_inum ip' = i_inum ip -> 0 <= i_ref ip' ->
  (0 < i_ref ip' -> 0 < i_ref ip) -> itab_ok (<[i := ip']> t).
Proof.
  intros [Hl Hr Hu] Hi Hd Hm Hn Hp. split.
  - by rewrite length_insert.
  - by apply Forall_insert.
  - assert (Hold : forall j x, <[i := ip']> t !! j = Some x ->
      exists x0, t !! j = Some x0 /\ i_dev x0 = i_dev x /\ i_inum x0 = i_inum x /\
        (0 < i_ref x -> 0 < i_ref x0)).
    { intros j x Hj. apply list_lookup_insert_Some in Hj as [(<- & <- & _)|[_ Hj]]; eauto 10. }
    intros a b x y Ha Hb (Hx & Hd' & Hm') Hy.
    destruct (Hold a x Ha) as (x0 & Ha0 & Hd0 & Hm0 & Hx0).
    destruct (Hold b y Hb) as (y0 & Hb0 & Hd1 & Hm1 & Hy0).
    apply (Hu a b x0 y0 Ha0 Hb0); [|auto]. split_and!; [auto|congruence|congruence].
Qed.

Lemma itab_ok_ref t i ip n :
  itab_ok t -> t !! i = Some ip -> 0 < i_ref ip -> 0 <= n -> itab_ok (<[i := set_i_ref n ip]> t).
Proof. intros H Hi Hp Hn. by apply (itab_ok_keep t i ip). Qed.

Definition fresh_entry (dev inum : Z) (ip : inode) : inode :=
  set_i_valid 0 (set_i_ref 1 (set_i_inum inum (set_i_dev dev ip))).

Lemma itab_ok_fresh t i ip dev inum :
  itab_ok t -> t !! i = Some ip -> (forall j x, t !! j = Some x -> ~ entry_for dev inum x) ->
  itab_ok (<[i := fresh_entry dev inum ip]> t).
Proof.
  intros [Hl Hr Hu] Hi Hno. split.
  - by rewrite length_insert.
  - by apply Forall_insert.
  - intros a b x y Ha Hb (Hx & Hd & Hm) Hy.
    apply list_lookup_insert_Some in Ha as [(<- & <- & _)|[Hne Ha]];
      apply list_lookup_insert_Some in Hb as [(<- & <- & _)|[Hne' Hb]]; cbn in *.
    + done.
    + destruct (Hno b y Hb). split; [done|by split].
    + destruct (Hno a x Ha). split; [done|by split].
    + by apply (Hu a b x y).
Qed.

Lemma iget_run dev inum s :
  itab_ok (itab s) -> (L_itable ∉ held s) ->
  match iget dev inum s with
  | Ok i s' => exists ip ip', itab s !! i = Some ip /\ s' = set_itab (<[i := ip']> (itab s)) s /\
      entry_for dev inum ip' /\ itab_ok (itab s') /\
      (if decide (entry_for dev inum ip) then ip' = set_i_ref (i_ref ip + 1) ip
       else ip' = fresh_entry dev inum ip /\ i_ref ip = 0 /\
            (forall j x, itab s !! j = Some x -> ~ entry_for dev inum x))
  | Panic msg => msg = "iget: no inodes"%string /\ Forall (fun ip => 0 < i_ref ip) (itab s)
  | _ => False
  end.
Proof.
  intros Hok Hh. unfold iget. kstep (acquire_ok _ _ Hh).
  set (s1 := set_held (L_itable :: held s) s).
  kstep (iget_scan_run dev inum s1 (it_len _ Hok)). cbn [itab s1 set_held].
  assert (Hrel : forall t, release L_itable (set_itab t s1) = Ok tt (set_itab t s)).
  { intros t. rewrite (release_head L_itable (held s)) by done. by destruct s. }
  destruct (find_entry dev inum (itab s) 0) as [i|] eqn:Ef.
  - destruct (find_entry_Some _ _ _ _ _ Ef) as (ip & Hip & _ & He). rewrite Nat.sub_0_r in Hip.
    kstep (seti_run s1 i (fun ip => set_i_ref (i_ref ip + 1) ip) ip Hip). kstep (Hrel (<[i := set_i_ref (i_ref ip + 1) ip]> (itab s))).
    cbn. exists ip, (set_i_ref (i_ref ip + 1) ip). destruct He as (He1 & He2 & He3).
    rewrite decide_True by done. split; [done|]. split; [done|].
    split; [split; [cbn; lia|done]|]. split; [|done].
    apply itab_ok_ref; [done|done|lia|lia].
  - pose proof (find_entry_None _ _ _ _ Ef) as Hno.
    destruct (find_empty (itab s) 0) as [i|] eqn:Ee.
    + destruct (find_empty_Some _ _ _ Ee) as (ip & Hip & _ & H0). rewrite Nat.sub_0_r in Hip.
      kstep (seti_run s1 i (fresh_entry dev inum) ip Hip). kstep (Hrel (<[i := fresh_entry dev inum ip]> (itab s))).
      cbn. exists ip, (fresh_entry dev inum ip). rewrite decide_False by (by eapply Hno).
      split_and!; try done. by apply itab_ok_fresh.
    + cbn. split; [done|]. apply find_empty_None in Ee.
      pose proof (it_ref _ Hok) as Hr. rewrite Forall_forall in *. intros ip Hip.
      specialize (Ee ip Hip). specialize (Hr ip Hip). cbn in *. lia.
Qed.

(** [iget]: if the inode has an entry in use, that entry gets one more
    reference; otherwise the first free entry becomes the inode's, with one
    reference and nothing read yet; without a free entry it panics.  Either
    way the result is an entry for the inode, no other entry changes, and the
    table still has at most one entry per inode. *)
Theorem iget_spec dev inum s :
  itab_ok (itab s) -> (L_itable ∉ held s) ->
  match iget dev inum s with
  | Ok i s' => exists ip ip', itab s !! i = Some ip /\ s' = set_itab (<[i := ip']> (itab s)) s /\
      entry_for dev inum ip' /\ itab_ok (itab s') /\
      (if decide (entry_for dev inum ip) then ip' = set_i_ref (i_ref ip + 1) ip
       else ip' = fresh_entry dev inum ip /\ i_ref ip = 0 /\
            (forall j x, itab s !! j = Some x -> ~ entry_for dev inum x))
  | Panic msg => msg = "iget: no inodes"%string /\ Forall (fun ip => 0 < i_ref ip) (itab s)
  | _ => False
  end.
Proof. apply iget_run. Qed.

Lemma iget_spec_witness :
  exists ip, iget 1 7 boot = Ok 0%nat (set_itab (<[0%nat := ip]> (itab boot)) boot) /\ entry_for 1 7 ip.
Proof.
  assert (Hok : itab_ok (itab boot)).
  { split; [reflexivity|apply Forall_replicate; discriminate|].
    intros i j x y _ Hj _ Hy. apply lookup_replicate in Hj as [-> _]. discriminate Hy. }
  pose proof (iget_spec 1 7 boot Hok ltac:(apply not_elem_of_nil)) as H.
  destruct (iget 1 7 boot) as [i s'|msg|s' k|w] eqn:E; try (exact (False_ind _ H)).
  - vm_compute in E. injection E as <- <-. destruct H as (ip & ip' & _ & _ & He & _).
    exists (fresh_entry 1 7 zero_inode). split; [reflexivity|by split].
  - vm_compute in E. discriminate E.
Defined.
