(* ===== verification/Readi.v ===== *)
(** * Reading files

    [readi] against the bytes of a file: the blocks that an inode's addresses name, as
    the kernel sees them through the cache.  What the bytes are copied to is left
    open: a place is anything for which [put] delivers bytes without touching the
    file system. *)

From S2P Require Import Prelude Riscv Mem State Printf Sched Bio Log Crash Fs Balloc Inode.

#[local] Open Scope Z_scope.

(** ** The bytes of a file *)

(** The block that holds the bytes from [BSIZE * k] on; 0 if there is none. *)
Definition block_of (v : Z -> list Z) (ip : inode) (k : Z) : Z :=
  if k <? NDIRECT then addr_of ip (Z.to_nat k)
  else
    let ind := addr_of ip (Z.to_nat NDIRECT) in
    if ind =? 0 then 0 else get32 (v ind) (Z.to_nat (4 * (k - NDIRECT))).

Definition blocks_for (n : Z) : Z := (n + BSIZE - 1) / BSIZE.

(** The first [n] blocks, and the bytes up to the size. *)
Definition block_bytes (v : Z -> list Z) (ip : inode) (n : Z) : list Z :=
  concat ((fun k => v (block_of v ip k)) <$> seqZ 0 n).

Definition file_bytes (v : Z -> list Z) (ip : inode) : list Z :=
  take (Z.to_nat (i_size ip)) (block_bytes v ip (blocks_for (i_size ip))).

(** An inode whose blocks are all there. *)
Record file_ok (v : Z -> list Z) (ip : inode) : Prop := {
  fo_dev : i_dev ip = ROOTDEV;
  fo_size : 0 <= i_size ip <= MAXFILE * BSIZE;
  fo_block : forall k, 0 <= k < blocks_for (i_size ip) ->
    block_of v ip k <> 0 /\ length (v (block_of v ip k)) = Z.to_nat BSIZE
}.

Lemma blocks_for_bounds n : 0 <= n -> 0 <= blocks_for n /\ BSIZE * (blocks_for n - 1) < n + 1 /\ n <= BSIZE * blocks_for n.
Proof. intros H. unfold blocks_for. change BSIZE with 1024. Z.div_mod_to_equations. lia. Qed.

Lemma block_bytes_S v ip n : 0 <= n -> block_bytes v ip (n + 1) = block_bytes v ip n ++ v (block_of v ip n).
Proof.
  intros Hn. unfold block_bytes. rewrite seqZ_app, fmap_app, concat_app by lia. rewrite (seqZ_cons (0 + n) 1), (seqZ_nil _ (Z.pred 1)) by lia.
  cbn [fmap list_fmap concat]. by rewrite app_nil_r.
Qed.

Lemma length_block_bytes v ip n :
  (forall k, 0 <= k < n -> length (v (block_of v ip k)) = Z.to_nat BSIZE) -> 0 <= n ->
  length (block_bytes v ip n) = Z.to_nat (BSIZE * n).
Proof.
  intros H Hn. revert H. pattern n. apply natlike_ind; [done| |done]. clear n Hn. intros n Hn IH H.
  rewrite <- Z.add_1_r, block_bytes_S, length_app, IH, H by (intros; try apply H; lia). change BSIZE with 1024. lia.
Qed.

(** A piece of one block is a piece of the file. *)
Lemma block_bytes_piece v ip n off m :
  (forall k, 0 <= k < n -> length (v (block_of v ip k)) = Z.to_nat BSIZE) ->
  0 <= off < BSIZE * n -> 0 <= m <= BSIZE - off `mod` BSIZE ->
  take (Z.to_nat m) (drop (Z.to_nat (off `mod` BSIZE)) (v (block_of v ip (off / BSIZE)))) =
  take (Z.to_nat m) (drop (Z.to_nat off) (block_bytes v ip n)).
Proof.
  intros H Ho Hm. assert (Hn : 0 <= n) by (change BSIZE with 1024 in *; lia). revert H Ho. pattern n.
  apply natlike_ind; [lia| |done]. clear n Hn.
  intros n Hn IH H Ho. rewrite <- Z.add_1_r in *. rewrite block_bytes_S by lia.
  assert (L : length (block_bytes v ip n) = Z.to_nat (BSIZE * n)) by (apply length_block_bytes; [intros; apply H; lia|lia]).
  assert (Hd : off = BSIZE * (off / BSIZE) + off `mod` BSIZE) by (apply Z.div_mod; done).
  pose proof (Z.mod_pos_bound off BSIZE eq_refl) as Hmod. change BSIZE with 1024 in *.
  destruct (decide (off / 1024 < n)).
  - rewrite IH by (intros; try apply H; lia). rewrite drop_app_le by (rewrite L; lia).
    rewrite take_app_le; [done|]. rewrite length_drop, L. lia.
  - assert (E : off / 1024 = n) by (Z.div_mod_to_equations; lia). rewrite E.
    rewrite drop_app_ge by (rewrite L; lia). rewrite L. do 2 f_equal. lia.
Qed.

(** ** Looking at a block *)

Section Readi.
Context `{W : Waits} (me : nat) (pid : Z).
Implicit Types s : kernel.

(** The process may read another block: a buffer is free for it. *)
Record can_read s : Prop := {
  rd_ctx : fs_ctx me pid s;
  rd_cache : bcache_ok pid [] s;
  rd_room : exists R, (length R < Z.to_nat NBUF)%nat /\ forall bn, refs s bn <> 0 -> bn ∈ R;
  rd_small : forall bn, refs s bn < 2^30
}.

Lemma may_log_read n s bl R : may_log me pid (S n) s bl R -> can_read s.
Proof.
  intros [[Hf Hok _ _ _ _] Hr Hu Hs _]. split; [done|done| |].
  - exists R. split; [lia|done].
  - intros bn. specialize (Hs bn). lia.
Qed.

(** [s'] differs from [s] at most in memory, in the inode table and in the file table. *)
Definition others s s' : Prop := s' = set_mem (mem s') (set_itab (itab s') (set_ftab (ftab s') s)).

(** The blocks are as before; the buffers and these three may have changed. *)
Definition same_fs s s' : Prop := same_view pid (set_mem (mem s') (set_itab (itab s') (set_ftab (ftab s') s))) s'.

(** The file system is as before; memory may have changed. *)
Definition same_but_mem s s' : Prop := same_view pid (set_mem (mem s') s) s'.

Lemma set_mem_ctx m s : fs_ctx me pid s -> fs_ctx me pid (set_mem m s).
Proof. intros [Hc Hp Hh Ht Hw Hq]. by split. Qed.

Lemma set_mem_cache L m s : bcache_ok pid L s -> bcache_ok pid L (set_mem m s).
Proof. intros [Cl Cr Cu Cd Cf Ck Cm Cc]. by split. Qed.

Lemma same_but_mem_refl s : can_read s -> same_but_mem s s.
Proof. intros [Hf Hc _ _]. unfold same_but_mem. split; [by destruct s|done..]. Qed.

Lemma same_but_mem_trans s1 s2 s3 : same_but_mem s1 s2 -> same_but_mem s2 s3 -> same_but_mem s1 s3.
Proof.
  intros [F1 C1 V1 R1 D1 W1] [F2 C2 V2 R2 D2 W2]. split; [|done|..].
  - unfold io_frame in *. rewrite F2, F1. by destruct s1.
  - intros bn. rewrite V2. exact (V1 bn).
  - intros bn. rewrite R2. exact (R1 bn).
  - rewrite D2. exact D1.
  - rewrite W2. exact W1.
Qed.

Lemma same_view_read s : can_read s -> same_view pid s s.
Proof. intros [_ Hc _ _]. split; [apply io_frame_refl|done..]. Qed.

Lemma same_view_mem s s' : same_view pid s s' -> same_but_mem s s'.
Proof.
  intros [F C V R D Wr]. split; [|done..]. unfold io_frame in *. rewrite F. by destruct s.
Qed.

Lemma same_but_mem_same s s' : same_but_mem s s' -> mem s' = mem s -> same_view pid s s'.
Proof.
  intros [F C V R D Wr] E. rewrite E in *. split; [|done..]. unfold io_frame in *. rewrite F. by destruct s.
Qed.

Lemma io_frame_mem s s' : io_frame s s' -> mem s' = mem s.
Proof. by intros ->. Qed.

Lemma same_but_mem_view s s' bn : same_but_mem s s' -> view s' bn = view s bn.
Proof. intros H. exact (sv_view _ _ _ H bn). Qed.

Lemma same_but_mem_itab s s' : same_but_mem s s' -> itab s' = itab s.
Proof. intros [F _ _ _ _ _]. by rewrite F. Qed.

Lemma same_but_mem_read s s' : same_but_mem s s' -> can_read s -> can_read s'.
Proof.
  intros [F C V R D Wr] [Hf Hc (X & HX & HR) Hs]. split; [|done| |].
  - by eapply io_frame_ctx; [exact F|apply set_mem_ctx].
  - exists X. split; [done|]. intros bn. rewrite R. exact (HR bn).
  - intros bn. rewrite R. exact (Hs bn).
Qed.

Lemma others_ctx s s' : others s s' -> fs_ctx me pid s -> fs_ctx me pid s'.
Proof. intros -> [Hc Hp Hh Ht Hw Hq]. by split. Qed.

Lemma others_cache L s s' : others s s' -> bcache_ok pid L s -> bcache_ok pid L s'.
Proof. intros -> [Cl Cr Cu Cd Cf Ck Cm Cc]. by split. Qed.

Lemma others_mem m s : others s (set_mem m s).
Proof. unfold others. by destruct s. Qed.

Lemma others_refl s : others s s.
Proof. unfold others. by destruct s. Qed.

Lemma same_fs_mem s s' : same_fs s s' -> itab s' = itab s -> ftab s' = ftab s -> same_but_mem s s'.
Proof.
  intros [F C V R D Wr] E1 E2. split; [|done..]. unfold io_frame in *. rewrite F, E1, E2. by destruct s.
Qed.

Lemma others_read s s' : others s s' -> can_read s -> can_read s'.
Proof. intros E [Hf Hc Hr Hs]. split; [by eapply others_ctx|by eapply others_cache|..]; rewrite E; done. Qed.

Lemma same_fs_others s s' : can_read s -> others s s' -> same_fs s s'.
Proof. intros [_ Hc _ _] E. split; [|by eapply others_cache|by rewrite E..]. unfold io_frame. rewrite E. by destruct s. Qed.

Lemma same_fs_trans s1 s2 s3 : same_fs s1 s2 -> same_fs s2 s3 -> same_fs s1 s3.
Proof.
  intros [F1 C1 V1 R1 D1 W1] [F2 C2 V2 R2 D2 W2]. split; [|done|..].
  - unfold io_frame in *. rewrite F2, F1. by destruct s1.
  - intros bn. rewrite V2. exact (V1 bn).
  - intros bn. rewrite R2. exact (R1 bn).
  - rewrite D2. exact D1.
  - rewrite W2. exact W1.
Qed.

Lemma same_mem_fs s s' : same_but_mem s s' -> same_fs s s'.
Proof. intros [F C V R D Wr]. split; [|done..]. unfold io_frame in *. rewrite F. by destruct s. Qed.

(** Reading a block, doing something with its bytes, and letting it go. *)
Lemma bread_use s bn :
  can_read s ->
  exists b x s1, bread ROOTDEV bn s = Ok b s1 /\ getb b s1 = Ok x s1 /\ b_data x = view s bn /\ io_frame s s1 /\
    forall s2, others s1 s2 ->
    exists s3, brelse b s2 = Ok tt s3 /\ io_frame s2 s3 /\ same_fs s s3.
Proof.
  intros [Hf Hok (R & HR & Hu) Hsm].
  destruct (bread_fits me pid [] s bn (bn :: R) Hf Hok) as (b & s1 & H1 & P1).
  { split; [cbn; lia|]. intros bn' ?. right. by apply Hu. }
  { by left. }
  { specialize (Hsm bn). lia. }
  { by intros b x ?%not_elem_of_nil. }
  destruct P1 as [F1 Ok1 N1 D1 W1 (x & Hx & Kx & Vx & Dx & Rx) V1 R1 _].
  exists b, x, s1. split_and!; [done|by apply getb_run|done|done|]. intros s2 E2.
  assert (Hh : holds [b] s2 bn b x) by (rewrite E2; split_and!; [done|by left|done..]).
  assert (Hf2 : fs_ctx me pid s2) by (eapply others_ctx; [exact E2|by eapply io_frame_ctx]).
  assert (Ok2 : bcache_ok pid [b] s2) by by eapply others_cache.
  destruct (brelse_spec me pid [b] [] s2 bn b x Hf2 Ok2 Hh) as (s3 & H3 & [F3 Ok3 V3 R3 _] & D3 & W3).
  { intros c. rewrite list_elem_of_singleton, elem_of_nil. tauto. }
  { intros H. rewrite Dx, E2. cbn [disk set_mem set_itab set_ftab]. rewrite D1. apply (clean_view pid [] s bn Hok). lia. }
  assert (V2 : forall k, view s2 k = view s k) by (intros k; rewrite E2; apply V1).
  assert (R2 : forall k, refs s2 k = refs s k + (if k =? bn then 1 else 0)) by (intros k; rewrite E2; apply R1).
  exists s3. split_and!; [done|done|]. split; [|done|..].
  - unfold io_frame, others in *. rewrite F3, E2, F1. by destruct s.
  - intros k. rewrite V3, V2, Dx. by destruct (Z.eqb_spec k bn) as [->|].
  - intros k. rewrite R3, R2, Rx. change (refs (set_mem _ _) k) with (refs s k). destruct (Z.eqb_spec k bn) as [->|]; lia.
  - rewrite D3, E2. exact D1.
  - rewrite W3, E2. exact W1.
Qed.

Lemma io_frame_tables s s' : io_frame s s' -> itab s' = itab s /\ ftab s' = ftab s /\ mem s' = mem s.
Proof. intros ->. done. Qed.

Lemma same_fs_frame s s' : same_fs s s' -> io_frame s s' -> same_view pid s s'.
Proof.
  intros H F. destruct (io_frame_tables _ _ F) as (E1 & E2 & E3). apply same_but_mem_same; [by apply same_fs_mem|done].
Qed.

Lemma bread_look s bn :
  can_read s -> exists b x s1 s2, bread ROOTDEV bn s = Ok b s1 /\ getb b s1 = Ok x s1 /\ b_data x = view s bn /\
    brelse b s1 = Ok tt s2 /\ same_view pid s s2.
Proof.
  intros H. destruct (bread_use s bn H) as (b & x & s1 & H1 & H2 & H3 & F1 & K).
  destruct (K s1 (others_refl s1)) as (s2 & H4 & F2 & H5). exists b, x, s1, s2. split_and!; try done.
  apply same_fs_frame; [done|by eapply io_frame_trans].
Qed.

(** ** Finding a block that is there *)

Lemma bmap_slot_there s i ip k :
  itab s !! i = Some ip -> addr_of ip k <> 0 -> bmap_slot i k s = Ok (addr_of ip k) s.
Proof. intros Hi Ha. unfold bmap_slot. kstep (geti_run s i ip Hi). by rewrite (proj2 (Z.eqb_neq _ _) Ha). Qed.

Lemma bmap_there s i ip k :
  can_read s -> itab s !! i = Some ip -> i_dev ip = ROOTDEV -> 0 <= k < MAXFILE -> block_of (view s) ip k <> 0 ->
  exists s', bmap i k s = Ok (block_of (view s) ip k) s' /\ same_view pid s s'.
Proof.
  intros Hr Hi Hd Hk Hb. unfold bmap, block_of in *. destruct (Z.ltb_spec k NDIRECT) as [Hlt|Hge].
  { exists s. split; [by apply bmap_slot_there|by apply same_view_read]. }
  cbv zeta in *. rewrite (proj2 (Z.ltb_lt (k - NDIRECT) NINDIRECT)) by (unfold MAXFILE in Hk; lia).
  destruct (Z.eqb_spec (addr_of ip (Z.to_nat NDIRECT)) 0) as [E|E]; [done|].
  kstep (bmap_slot_there s i ip (Z.to_nat NDIRECT) Hi E). rewrite (proj2 (Z.eqb_neq _ _) E).
  kstep (geti_run s i ip Hi). rewrite Hd.
  destruct (bread_look s (addr_of ip (Z.to_nat NDIRECT)) Hr) as (b & x & s1 & s2 & H1 & H2 & H3 & H4 & S2).
  kstep H1. kstep H2. rewrite H3, (proj2 (Z.eqb_neq _ _) Hb). rewrite bind_run. cbn [obind mret K_ret]. kstep H4.
  by exists s2.
Qed.

Lemma block_of_ext (v v' : Z -> list Z) ip k : (forall bn, v bn = v' bn) -> block_of v ip k = block_of v' ip k.
Proof. intros H. unfold block_of. by rewrite H. Qed.

Lemma block_bytes_ext (v v' : Z -> list Z) ip n : (forall bn, v bn = v' bn) -> block_bytes v ip n = block_bytes v' ip n.
Proof.
  intros H. unfold block_bytes. f_equal. apply list_fmap_ext. intros j k _. by rewrite H, (block_of_ext v v').
Qed.

Lemma file_bytes_ext (v v' : Z -> list Z) ip : (forall bn, v bn = v' bn) -> file_bytes v ip = file_bytes v' ip.
Proof. intros H. unfold file_bytes. by rewrite (block_bytes_ext v v'). Qed.

Lemma file_ok_ext (v v' : Z -> list Z) ip : (forall bn, v bn = v' bn) -> file_ok v ip -> file_ok v' ip.
Proof. intros H [Hd Hs Hb]. split; [done..|]. intros k Hk. rewrite <- !H, <- (block_of_ext v v') by done. by apply Hb. Qed.

(** ** [readi] *)

Section Deliver.
Context {A : Type} (put : A -> list Z -> K (option A)) (Done : A -> list Z -> kernel -> Prop) (N : nat).

(** [Done a l s]: the bytes [l] are where they should go, and [a] is the place for
    the next ones.  There is room for [N] bytes. *)
Record delivers : Prop := {
  dl_put : forall a l d s, Done a l s -> (length l + length d <= N)%nat ->
    exists a' s', put a d s = Ok (Some a') s' /\ s' = set_mem (mem s') s /\ Done a' (l ++ d) s';
  dl_frame : forall a l s s', io_frame s s' -> Done a l s -> Done a l s'
}.

Lemma readi_loop_run i ip v n : delivers -> file_ok v ip -> forall (fuel : nat) tot off a l s,
  can_read s -> itab s !! i = Some ip -> (forall bn, view s bn = v bn) ->
  0 <= tot <= n -> 0 <= off -> off + (n - tot) <= i_size ip -> (tot < n -> off `mod` BSIZE + (n - tot) <= BSIZE * fuel) ->
  Done a l s -> length l + (n - tot) <= N ->
  exists a' s', readi_loop put fuel i tot off n a s = Ok (n, a') s' /\ same_but_mem s s' /\
    Done a' (l ++ take (Z.to_nat (n - tot)) (drop (Z.to_nat off) (block_bytes v ip (blocks_for (i_size ip))))) s'.
Proof.
  intros [Hput Hdf] Hfo. pose proof Hfo as [Hdev Hsz Hblk]. pose proof (blocks_for_bounds (i_size ip) ltac:(lia)) as Hnb.
  set (B := blocks_for (i_size ip)) in *.
  induction fuel as [|fuel IH]; intros tot off a l s Hr Hi Hv Ht Ho Hs Hf HD HN; cbn [readi_loop].
  all: pose proof (Z.mod_pos_bound off BSIZE eq_refl) as Hmod; destruct (Z.ltb_spec tot n) as [Hlt|Hge].
  1: change BSIZE with 1024 in *; lia.
  1,3: exists a, s; replace (n - tot) with 0 by lia; cbn [Z.to_nat take]; rewrite app_nil_r;
    replace tot with n by lia; by split_and!; [|apply same_but_mem_refl|].
  assert (Hk : 0 <= off / BSIZE < B) by (change BSIZE with 1024 in *; Z.div_mod_to_equations; lia).
  assert (HkM : 0 <= off / BSIZE < MAXFILE) by (change BSIZE with 1024 in *; Z.div_mod_to_equations; lia).
  destruct (Hblk _ Hk) as [Ha Hl]. rewrite <- (block_of_ext (view s) v) in Ha by done.
  destruct (bmap_there s i ip _ Hr Hi Hdev HkM Ha) as (s1 & E1 & V1). kstep E1. rewrite (proj2 (Z.eqb_neq _ _) Ha).
  pose proof (same_view_mem _ _ V1) as S1. pose proof (sv_frame _ _ _ V1) as F1.
  pose proof (same_but_mem_read _ _ S1 Hr) as Hr1. pose proof (same_but_mem_itab _ _ S1) as I1.
  kstep (geti_run s1 i ip ltac:(by rewrite I1)). rewrite Hdev.
  destruct (bread_use s1 (block_of (view s) ip (off / BSIZE)) Hr1) as (b & x & s2 & E2 & E2' & E2'' & F2 & K).
  kstep E2. kstep E2'. cbv zeta. set (m := Z.min (n - tot) (BSIZE - off `mod` BSIZE)).
  rewrite E2'', (same_but_mem_view _ _ _ S1), Hv, (block_of_ext (view s) v) by done.
  rewrite (block_bytes_piece v ip B) by (try (intros; by apply Hblk); unfold m; change BSIZE with 1024 in *; lia).
  set (d := take (Z.to_nat m) _).
  assert (Ld : length d = Z.to_nat m).
  { unfold d. rewrite length_take, length_drop, length_block_bytes by (try (intros; by apply Hblk); lia).
    unfold m. change BSIZE with 1024 in *. lia. }
  destruct (Hput a l d s2) as (a' & s3 & E3 & M3 & D3).
  { apply (Hdf _ _ s1); [done|]. by apply (Hdf _ _ s). }
  { rewrite Ld. lia. }
  kstep E3. destruct (K s3 ltac:(rewrite M3; apply others_mem)) as (s4 & E4 & F4 & S4'). kstep E4.
  assert (S4 : same_but_mem s1 s4).
  { destruct (io_frame_tables _ _ F4) as (T1 & T2 & _), (io_frame_tables _ _ F2) as (T3 & T4 & _).
    apply same_fs_mem; [done|by rewrite T1, M3|by rewrite T2, M3]. }
  pose proof (same_but_mem_trans _ _ _ S1 S4) as S.
  destruct (IH (tot + m) (off + m) a' (l ++ d) s4) as (a'' & s5 & E5 & S5 & D5).
  { by eapply same_but_mem_read. }
  { by rewrite (same_but_mem_itab _ _ S). }
  { intros bn. by rewrite (same_but_mem_view _ _ _ S). }
  { lia. } { lia. } { lia. }
  { intros Hlt'. specialize (Hf Hlt). assert (m = BSIZE - off `mod` BSIZE) as -> by (unfold m in *; lia).
    change BSIZE with 1024 in *. replace ((off + (1024 - off `mod` 1024)) `mod` 1024) with 0 by (Z.div_mod_to_equations; lia). lia. }
  { by apply (Hdf _ _ s3). }
  { rewrite length_app, Ld. lia. }
  exists a'', s5. split_and!; [done|by eapply same_but_mem_trans|].
  rewrite <- app_assoc in D5. replace (take (Z.to_nat (n - tot)) _) with
    (d ++ take (Z.to_nat (n - (tot + m))) (drop (Z.to_nat (off + m)) (block_bytes v ip B))); [done|].
  unfold d. rewrite (Z2Nat.inj_add off m) by lia. rewrite <- drop_drop, take_take_drop. f_equal. lia.
Qed.

(** The bytes that a read of [n] bytes at [off] returns: none if the end of the range
    is no 32-bit number. *)
Definition read_range (v : Z -> list Z) (ip : inode) (off n : Z) : list Z :=
  if 2^32 <=? off + n then [] else take (Z.to_nat n) (drop (Z.to_nat off) (file_bytes v ip)).

Lemma length_file_bytes v ip : file_ok v ip -> length (file_bytes v ip) = Z.to_nat (i_size ip).
Proof.
  intros [_ Hs Hb]. pose proof (blocks_for_bounds (i_size ip) ltac:(lia)). unfold file_bytes.
  rewrite length_take, length_block_bytes by (try (intros; by apply Hb); lia). change BSIZE with 1024 in *. lia.
Qed.

Lemma readi_run i ip s off n a :
  delivers -> can_read s -> itab s !! i = Some ip -> file_ok (view s) ip -> is_u32 off -> is_u32 n -> Done a [] s ->
  let d := read_range (view s) ip off n in
  (length d <= N)%nat ->
  exists a' s', readi put i a off n s = Ok (Z.of_nat (length d), a') s' /\ same_but_mem s s' /\ Done a' d s'.
Proof.
  intros Hdl Hr Hi Hfo Ho Hn HD d HN. unfold is_u32 in *. pose proof (length_file_bytes _ _ Hfo) as Lf.
  assert (Hsz : 0 <= i_size ip <= MAXFILE * BSIZE) by apply Hfo. change (MAXFILE * BSIZE) with 274432 in Hsz.
  unfold readi. kstep (geti_run s i ip Hi). unfold d, read_range in *.
  assert (Hend : exists a' s', @mret K _ _ (0, a) s = Ok (Z.of_nat (@length Z []), a') s' /\ same_but_mem s s' /\ Done a' [] s')
    by (exists a, s; split_and!; [done|by apply same_but_mem_refl|done]).
  destruct (Z.leb_spec (2^32) (off + n)).
  { assert (u32 (off + n) = off + n - 2^32) as -> by (unfold u32; Z.div_mod_to_equations; lia).
    rewrite (proj2 (Z.ltb_lt (off + n - 2^32) off)) by lia. rewrite orb_true_r. exact Hend. }
  rewrite (u32_small (off + n)) by (unfold is_u32; lia). rewrite (proj2 (Z.ltb_ge (off + n) off)) by lia. rewrite orb_false_r.
  destruct (Z.ltb_spec (i_size ip) off) as [Hbig|Hle].
  { rewrite (drop_ge (file_bytes _ _)) by (rewrite Lf; lia). rewrite take_nil. exact Hend. }
  set (n' := if i_size ip <? off + n then i_size ip - off else n).
  assert (Hn' : 0 <= n' /\ off + n' <= i_size ip /\ n' <= n) by (unfold n'; destruct (Z.ltb_spec (i_size ip) (off + n)); lia).
  assert (Ed : take (Z.to_nat n) (drop (Z.to_nat off) (file_bytes (view s) ip)) =
    take (Z.to_nat n') (drop (Z.to_nat off) (block_bytes (view s) ip (blocks_for (i_size ip))))).
  { unfold file_bytes. rewrite !take_drop_commute, take_take. do 2 f_equal.
    unfold n'. destruct (Z.ltb_spec (i_size ip) (off + n)); lia. }
  rewrite Ed in *. pose proof (blocks_for_bounds (i_size ip) ltac:(lia)).
  assert (Ld : length (take (Z.to_nat n') (drop (Z.to_nat off) (block_bytes (view s) ip (blocks_for (i_size ip))))) = Z.to_nat n').
  { rewrite length_take, length_drop, length_block_bytes by (try (intros; by apply (fo_block _ _ Hfo)); lia).
    change BSIZE with 1024 in *. lia. }
  rewrite Ld in HN |- *.
  destruct (readi_loop_run i ip (view s) n' Hdl Hfo (Z.to_nat (n' / BSIZE + 2)) 0 off a [] s) as (a' & s' & E & S & D); try done; try lia.
  - intros _. pose proof (Z.mod_pos_bound off BSIZE eq_refl). change BSIZE with 1024 in *. Z.div_mod_to_equations. lia.
  - cbn [length]. lia.
  - exists a', s'. rewrite Z2Nat.id by lia. rewrite Z.sub_0_r in D. by split_and!.
Qed.
End Deliver.

(** A local variable of the kernel. *)
Lemma delivers_local N m : delivers put_local (fun a l s => a = l /\ mem s = m) N.
Proof.
  split.
  - intros a l d s [-> E] _. exists (l ++ d), s. by split_and!; [|destruct s|..].
  - intros a l s s' F [-> <-]. split; [done|]. by apply io_frame_mem.
Qed.

Lemma readi_local_run i ip s off n :
  can_read s -> itab s !! i = Some ip -> file_ok (view s) ip -> is_u32 off -> is_u32 n ->
  exists s', readi put_local i [] off n s =
      Ok (Z.of_nat (length (read_range (view s) ip off n)), read_range (view s) ip off n) s' /\ same_view pid s s'.
Proof.
  intros Hr Hi Hfo Ho Hn.
  destruct (readi_run put_local _ (length (read_range (view s) ip off n)) i ip s off n [] (delivers_local _ (mem s)) Hr Hi Hfo Ho Hn)
    as (a' & s' & E & S & -> & M); [done|apply le_n|]. exists s'. split; [done|]. by apply same_but_mem_same.
Qed.
End Readi.
