(* ===== verification/Ilock.v ===== *)
(** * Locked inodes

    [ilock], [iunlock], [idup] and [iput] on the inode table: an entry in use caches
    the inode on disk, the sleep lock of an entry is taken and given back, and
    references are counted. *)

From S2P Require Import Prelude Riscv Mem State Printf Sched Bio Log Crash Fs FsData Balloc Inode Readi.

#[local] Open Scope Z_scope.

(** The inode [inum] on disk, as the kernel sees the disk. *)
Definition dinode_on (v : Z -> list Z) (b : superblock) (inum : Z) : dinode :=
  get_dinode (v (IBLOCK inum b)) (dinode_off inum).

Section Ilock.
Context `{W : Waits} (me : nat) (pid : Z).
Implicit Types s : kernel.

(** The table while this process holds the locks of the entries [H]: what is cached
    agrees with the disk. *)
Record icache_ok (H : list nat) s : Prop := {
  ic_tab : itab_ok (itab s);
  ic_dev : forall i ip, itab s !! i = Some ip -> 0 < i_ref ip -> i_dev ip = ROOTDEV;
  ic_lock : forall i ip, itab s !! i = Some ip -> i_lock ip = if decide (i ∈ H) then my_lock pid else free_lock;
  ic_valid : forall i ip, itab s !! i = Some ip -> 0 < i_ref ip -> i_valid ip <> 0 ->
    i_valid ip = 1 /\ to_dinode ip = dinode_on (view s) (sb s) (i_inum ip);
  ic_held : forall i ip, itab s !! i = Some ip -> i ∈ H -> 0 < i_ref ip /\ i_valid ip = 1
}.

(** Everything but the inode table is as before. *)
Definition same_but_itab s s' : Prop := same_view pid (set_itab (itab s') s) s'.

Lemma set_itab_ctx t s : fs_ctx me pid s -> fs_ctx me pid (set_itab t s).
Proof. intros [Hc Hp Hh Ht Hw Hq]. by split. Qed.

Lemma set_itab_cache L t s : bcache_ok pid L s -> bcache_ok pid L (set_itab t s).
Proof. intros [Cl Cr Cu Cd Cf Ck Cm Cc]. by split. Qed.

Lemma set_itab_read t s : can_read me pid s -> can_read me pid (set_itab t s).
Proof. intros [Hf Hc Hr Hs]. split; [by apply set_itab_ctx|by apply set_itab_cache|done|done]. Qed.

Lemma same_but_itab_refl s : can_read me pid s -> same_but_itab s s.
Proof. intros [_ Hc _ _]. split; [by destruct s|done..]. Qed.

Lemma same_but_itab_set t s : can_read me pid s -> same_but_itab s (set_itab t s).
Proof. intros [_ Hc _ _]. split; [by destruct s|by apply set_itab_cache|done..]. Qed.

Lemma same_but_itab_trans s1 s2 s3 : same_but_itab s1 s2 -> same_but_itab s2 s3 -> same_but_itab s1 s3.
Proof.
  intros [F1 C1 V1 R1 D1 W1] [F2 C2 V2 R2 D2 W2]. split; [|done|..].
  - unfold io_frame in *. rewrite F2, F1. by destruct s1.
  - intros bn. rewrite V2. exact (V1 bn).
  - intros bn. rewrite R2. exact (R1 bn).
  - rewrite D2. exact D1.
  - rewrite W2. exact W1.
Qed.

Lemma same_view_itab s s' : same_view pid s s' -> same_but_itab s s'.
Proof. intros [F C V R D Wr]. split; [|done..]. unfold io_frame in *. rewrite F. by destruct s. Qed.

Lemma same_itab_fs s s' : same_but_itab s s' -> same_fs pid s s'.
Proof. intros [F C V R D Wr]. split; [|done..]. unfold io_frame in *. rewrite F. by destruct s. Qed.

Lemma same_but_itab_view s s' bn : same_but_itab s s' -> view s' bn = view s bn.
Proof. intros H. exact (sv_view _ _ _ H bn). Qed.

Lemma same_but_itab_sb s s' : same_but_itab s s' -> sb s' = sb s.
Proof. intros [F _ _ _ _ _]. by rewrite F. Qed.

Lemma same_but_itab_procs s s' : same_but_itab s s' -> procs s' = procs s.
Proof. intros [F _ _ _ _ _]. by rewrite F. Qed.

Lemma same_view_procs s s' : same_view pid s s' -> itab s' = itab s /\ held s' = held s.
Proof. intros [F _ _ _ _ _]. rewrite F. done. Qed.

Lemma same_but_itab_read s s' : same_but_itab s s' -> can_read me pid s -> can_read me pid s'.
Proof.
  intros [F C V R D Wr] [Hf Hc (X & HX & HR) Hs]. split; [|done| |].
  - by eapply io_frame_ctx; [exact F|apply set_itab_ctx].
  - exists X. split; [done|]. intros bn. rewrite R. exact (HR bn).
  - intros bn. rewrite R. exact (Hs bn).
Qed.

(** ** The sleep lock of an entry *)

Lemma acquiresleep_inode s i ip :
  fs_ctx me pid s -> itab s !! i = Some ip -> i_lock ip = free_lock ->
  acquiresleep (SL_inode i) s = Ok tt (set_itab (<[i := set_i_lock (my_lock pid) ip]> (itab s)) s).
Proof.
  intros [Hc (p & Hp & Hpid) Hh _ _ _] Hx Hl. unfold acquiresleep.
  kstep (acquire_ok (L_sleep (SL_inode i)) s ltac:(rewrite Hh; apply not_elem_of_nil)).
  set (s1 := set_held _ s).
  assert (Hw : acquiresleep_wait max_waits (SL_inode i) s1 = Ok tt s1).
  { destruct max_waits; cbn [acquiresleep_wait get_sl];
      rewrite bind_run, bind_run, (geti_run s1 i ip Hx); cbn [obind mret K_ret]; by rewrite Hl. }
  kstep Hw. kstep (curproc_run s1 me Hc). kstep (getp_run s1 me p Hp).
  cbn [put_sl]. kstep (seti_run s1 i (set_i_lock (mkSleeplock 1 (p_pid p))) ip Hx).
  rewrite (release_head _ []) by (cbn; by rewrite Hh). rewrite Hpid.
  clear -Hh. by destruct s; cbn in *; subst.
Qed.

Lemma holdingsleep_inode s i ip :
  fs_ctx me pid s -> itab s !! i = Some ip ->
  holdingsleep (SL_inode i) s = Ok (negb (sl_locked (i_lock ip) =? 0) && (sl_pid (i_lock ip) =? pid)) s.
Proof.
  intros [Hc (p & Hp & Hpid) Hh _ _ _] Hx. unfold holdingsleep.
  kstep (acquire_ok (L_sleep (SL_inode i)) s ltac:(rewrite Hh; apply not_elem_of_nil)).
  set (s1 := set_held _ s). cbn [get_sl].
  rewrite bind_run, bind_run, (geti_run s1 i ip Hx). cbn [obind mret K_ret].
  kstep (curproc_run s1 me Hc). kstep (getp_run s1 me p Hp).
  rewrite bind_run, (release_head _ []) by (cbn; by rewrite Hh). rewrite Hpid. cbn [obind].
  unfold s1. clear -Hh. by destruct s; cbn in *; subst.
Qed.

Lemma releasesleep_inode s i ip :
  fs_ctx me pid s -> itab s !! i = Some ip ->
  releasesleep (SL_inode i) s = Ok tt (set_itab (<[i := set_i_lock free_lock ip]> (itab s)) s).
Proof.
  intros Hf Hx. pose proof Hf as [Hc (p & Hp & Hpid) Hh Ht Hw Hq]. unfold releasesleep.
  kstep (acquire_ok (L_sleep (SL_inode i)) s ltac:(rewrite Hh; apply not_elem_of_nil)).
  rewrite Hh. cbn [put_sl].
  kstep (seti_run (set_held [L_sleep (SL_inode i)] s) i (set_i_lock (mkSleeplock 0 0)) ip Hx).
  set (s1 := set_itab (<[i := set_i_lock free_lock ip]> (itab s)) s).
  pose proof (wakeup_quiet me pid s1 (C_sleep (SL_inode i)) (set_itab_ctx _ _ Hf) eq_refl [L_sleep (SL_inode i)]
    (not_proc_sleep _)) as Hwk.
  change (set_itab _ (set_held _ s)) with (set_held [L_sleep (SL_inode i)] s1).
  kstep Hwk. rewrite (release_head _ []) by done. unfold s1. clear -Hh.
  by destruct s; cbn in *; subst.
Qed.

(** ** Changes of one entry *)

Lemma icache_keep H H' s s' i ip ip' :
  icache_ok H s -> same_but_itab s s' -> itab s !! i = Some ip -> itab s' = <[i := ip']> (itab s) ->
  i_dev ip' = i_dev ip -> i_inum ip' = i_inum ip -> 0 <= i_ref ip' -> (0 < i_ref ip' -> 0 < i_ref ip) ->
  i_lock ip' = (if decide (i ∈ H') then my_lock pid else free_lock) -> (forall j, j <> i -> j ∈ H' <-> j ∈ H) ->
  (0 < i_ref ip' -> i_valid ip' <> 0 -> i_valid ip' = 1 /\ to_dinode ip' = dinode_on (view s) (sb s) (i_inum ip)) ->
  (i ∈ H' -> 0 < i_ref ip' /\ i_valid ip' = 1) -> icache_ok H' s'.
Proof.
  intros [Ht Hd Hl Hv Hh] S Hi E Ed Em Hr Hr' El HH Hv' Hh'.
  assert (Hdin : forall inum, dinode_on (view s') (sb s') inum = dinode_on (view s) (sb s) inum).
  { intros inum. unfold dinode_on. by rewrite (same_but_itab_sb _ _ S), (same_but_itab_view _ _ _ S). }
  assert (Hlook : forall j x, itab s' !! j = Some x -> (j = i /\ x = ip') \/ (j <> i /\ itab s !! j = Some x)).
  { intros j x Hj. rewrite E in Hj. apply list_lookup_insert_Some in Hj as [(-> & -> & _)|[Hne Hj]]; [by left|by right]. }
  split.
  - rewrite E. by apply (itab_ok_keep _ i ip).
  - intros j x [[-> ->]|[_ Hj]]%Hlook Hp; [rewrite Ed; by apply (Hd i ip); auto|by apply (Hd j x)].
  - intros j x [[-> ->]|[Hne Hj]]%Hlook; [done|]. rewrite (Hl j x Hj).
    destruct (decide (j ∈ H)) as [A|A], (decide (j ∈ H')) as [B|B]; try done; apply HH in Hne; tauto.
  - intros j x [[-> ->]|[_ Hj]]%Hlook Hp; rewrite Hdin; [rewrite Em; by apply Hv'|by apply (Hv j x)].
  - intros j x [[-> ->]|[Hne Hj]]%Hlook Hin; [by apply Hh'|]. apply (Hh j x Hj). by apply HH.
Qed.

Lemma icache_same H s s' :
  icache_ok H s -> itab s' = itab s -> sb s' = sb s -> (forall bn, view s' bn = view s bn) -> icache_ok H s'.
Proof.
  intros [I1 I2 I3 I4 I5] T B V. split; rewrite ?T, ?B; try done. intros j x Hj Hp Hv.
  destruct (I4 j x Hj Hp Hv) as [-> ->]. split; [done|]. unfold dinode_on. by rewrite V.
Qed.

(** The entry with the inode [d] in it and its lock held. *)
Record locked_as (d : dinode) (ip ip' : inode) : Prop := {
  la_dev : i_dev ip' = i_dev ip;
  la_inum : i_inum ip' = i_inum ip;
  la_ref : i_ref ip' = i_ref ip;
  la_lock : i_lock ip' = my_lock pid;
  la_valid : i_valid ip' = 1;
  la_data : to_dinode ip' = d
}.

Lemma ilock_run H s i ip :
  can_read me pid s -> icache_ok H s -> i ∉ H -> itab s !! i = Some ip -> 0 < i_ref ip ->
  let d := dinode_on (view s) (sb s) (i_inum ip) in
  d_type d <> 0 ->
  exists ip' s', ilock (Some i) s = Ok tt s' /\ same_but_itab s s' /\ itab s' = <[i := ip']> (itab s) /\
    locked_as d ip ip' /\ icache_ok (i :: H) s'.
Proof.
  intros Hr Hic HiH Hi Hp d Hd. pose proof Hic as [Ht Hdv Hl Hv Hh].
  assert (Hlk : i_lock ip = free_lock) by (rewrite (Hl i ip Hi), decide_False by done; done).
  assert (Hfin : forall s' ip', same_but_itab s s' -> itab s' = <[i := ip']> (itab s) -> locked_as d ip ip' -> icache_ok (i :: H) s').
  { intros s' ip' S E [A1 A2 A3 A4 A5 A6]. apply (icache_keep H _ s s' i ip ip'); try done; rewrite ?A3; try done; try lia.
    - rewrite A4. rewrite decide_True by by left. done.
    - intros j Hj. rewrite elem_of_cons. tauto. }
  unfold ilock. kstep (geti_run s i ip Hi). rewrite (proj2 (Z.ltb_ge _ _)) by lia.
  kstep (acquiresleep_inode s i ip (rd_ctx _ _ _ Hr) Hi Hlk).
  set (ip1 := set_i_lock (my_lock pid) ip). set (s1 := set_itab _ s).
  assert (Hi1 : itab s1 !! i = Some ip1) by (apply list_lookup_insert_eq; by eapply lookup_lt_Some).
  pose proof (set_itab_read (<[i := ip1]> (itab s)) s Hr : can_read me pid s1) as Hr1.
  kstep (geti_run s1 i ip1 Hi1). change (i_valid ip1) with (i_valid ip).
  destruct (Z.eqb_spec (i_valid ip) 0) as [E0|E0].
  - rewrite bind_run. cbn [gets obind]. change (sb s1) with (sb s). change (i_dev ip1) with (i_dev ip). rewrite (Hdv i ip Hi Hp).
    change (i_inum ip1) with (i_inum ip).
    destruct (bread_use me pid s1 (IBLOCK (i_inum ip) (sb s)) Hr1) as (b & x & s2 & E2 & E2' & E2'' & F2 & K).
    kstep E2. kstep E2'. rewrite E2''. change (view s1 _) with (view s (IBLOCK (i_inum ip) (sb s))). fold (dinode_on (view s) (sb s) (i_inum ip)).
    fold d. destruct (io_frame_tables _ _ F2) as (T2 & _).
    kstep (seti_run s2 i (load_dinode d) ip1 ltac:(by rewrite T2)). set (s3 := set_itab _ s2).
    destruct (K s3 ltac:(unfold others, s3; by destruct s2)) as (s4 & E4 & F4 & S4). kstep E4.
    destruct (io_frame_tables _ _ F4) as (T4 & G4 & M4). destruct (io_frame_tables _ _ F2) as (_ & G2 & M2).
    assert (Ti : itab s4 = <[i := load_dinode d ip1]> (itab s)).
    { rewrite T4. unfold s3, s1. cbn [itab set_itab]. rewrite T2. unfold s1. cbn [itab set_itab]. apply list_insert_insert_eq. }
    assert (Hi4 : itab s4 !! i = Some (load_dinode d ip1)) by (rewrite Ti; apply list_lookup_insert_eq; by eapply lookup_lt_Some).
    kstep (seti_run s4 i (set_i_valid 1) _ Hi4). set (ip' := set_i_valid 1 (load_dinode d ip1)). set (s5 := set_itab _ s4).
    assert (Ti5 : itab s5 = <[i := ip']> (itab s)) by (unfold s5; cbn [itab set_itab]; rewrite Ti; apply list_insert_insert_eq).
    kstep (geti_run s5 i ip' ltac:(rewrite Ti5; apply list_lookup_insert_eq; by eapply lookup_lt_Some)).
    change (i_type ip') with (d_type d). rewrite (proj2 (Z.eqb_neq _ _) Hd).
    assert (S5 : same_but_itab s s5).
    { destruct S4 as [F C V R D Wr]. split; [|by apply set_itab_cache|done..].
      unfold io_frame in *. unfold s5. rewrite F, M4, G4. unfold s3. cbn [mem ftab set_itab]. rewrite M2, G2. by destruct s. }
    assert (LA : locked_as d ip ip') by (split; try done; by destruct d).
    exists ip', s5. split_and!; try done. by apply (Hfin _ ip').
  - assert (S1 : same_but_itab s s1) by by apply same_but_itab_set.
    destruct (Hv i ip Hi Hp E0) as [E1 E2]. assert (LA : locked_as d ip ip1) by by split.
    exists ip1, s1. split_and!; try done. by apply (Hfin _ ip1).
Qed.

Lemma iunlock_run H s i ip :
  can_read me pid s -> icache_ok (i :: H) s -> i ∉ H -> itab s !! i = Some ip ->
  let s' := set_itab (<[i := set_i_lock free_lock ip]> (itab s)) s in
  iunlock (Some i) s = Ok tt s' /\ same_but_itab s s' /\ icache_ok H s'.
Proof.
  intros Hr Hic HiH Hi s'. pose proof Hic as [Ht Hdv Hl Hv Hh].
  destruct (Hh i ip Hi ltac:(by left)) as [Hp Hval].
  assert (Hlk : i_lock ip = my_lock pid) by (rewrite (Hl i ip Hi); apply decide_True; by left).
  assert (S : same_but_itab s s') by by apply same_but_itab_set. split; [|split; [done|]].
  - unfold iunlock. kstep (holdingsleep_inode s i ip (rd_ctx _ _ _ Hr) Hi). rewrite Hlk. cbn [sl_locked sl_pid my_lock].
    rewrite Z.eqb_refl. kstep (geti_run s i ip Hi). rewrite (proj2 (Z.ltb_ge _ _)) by lia. cbn [negb andb orb Z.eqb].
    apply releasesleep_inode; [apply Hr|done].
  - apply (icache_keep (i :: H) H s s' i ip (set_i_lock free_lock ip)); try done; cbn.
    + lia.
    + by rewrite decide_False.
    + intros j Hj. rewrite elem_of_cons. tauto.
    + intros _ _. split; [done|]. apply (Hv i ip Hi Hp). lia.
Qed.

(** Dropping a reference that is not the last one to a deleted file. *)
Lemma iput_run H s i ip :
  can_read me pid s -> icache_ok H s -> i ∉ H -> itab s !! i = Some ip -> 0 < i_ref ip ->
  (i_ref ip = 1 -> i_valid ip <> 0 -> i_nlink ip <> 0) ->
  let s' := set_itab (<[i := set_i_ref (i_ref ip - 1) ip]> (itab s)) s in
  iput i s = Ok tt s' /\ same_but_itab s s' /\ icache_ok H s'.
Proof.
  intros Hr Hic HiH Hi Hp Hn s'. pose proof Hic as [Ht Hdv Hl Hv Hh]. pose proof (fx_held _ _ _ (rd_ctx _ _ _ Hr)) as Hhd.
  assert (S : same_but_itab s s') by by apply same_but_itab_set. split; [|split; [done|]].
  - unfold iput. kstep (acquire_ok L_itable s ltac:(rewrite Hhd; apply not_elem_of_nil)).
    set (s1 := set_held _ s). kstep (geti_run s1 i ip Hi).
    assert ((i_ref ip =? 1) && negb (i_valid ip =? 0) && (i_nlink ip =? 0) = false) as ->.
    { apply not_true_iff_false. rewrite !andb_true_iff, negb_true_iff, Z.eqb_neq, !Z.eqb_eq. tauto. }
    cbn [when]. rewrite bind_run. cbn [obind mret K_ret]. kstep (seti_run s1 i (fun ip => set_i_ref (i_ref ip - 1) ip) ip Hi).
    rewrite (release_head _ []) by (cbn; by rewrite Hhd). unfold s', s1. clear -Hhd. by destruct s; cbn in *; subst.
  - apply (icache_keep H H s s' i ip (set_i_ref (i_ref ip - 1) ip)); try done; cbn.
    + lia.
    + apply (Hl i ip Hi).
    + intros Hp' Hv'. by apply (Hv i ip Hi Hp).
Qed.

Lemma idup_run H s i ip :
  can_read me pid s -> icache_ok H s -> itab s !! i = Some ip -> 0 < i_ref ip ->
  let s' := set_itab (<[i := set_i_ref (i_ref ip + 1) ip]> (itab s)) s in
  idup i s = Ok i s' /\ same_but_itab s s' /\ icache_ok H s'.
Proof.
  intros Hr Hic Hi Hp s'. pose proof Hic as [Ht Hdv Hl Hv Hh]. pose proof (fx_held _ _ _ (rd_ctx _ _ _ Hr)) as Hhd.
  assert (S : same_but_itab s s') by by apply same_but_itab_set. split; [|split; [done|]].
  - unfold idup. kstep (acquire_ok L_itable s ltac:(rewrite Hhd; apply not_elem_of_nil)).
    set (s1 := set_held _ s). kstep (seti_run s1 i (fun ip => set_i_ref (i_ref ip + 1) ip) ip Hi).
    rewrite bind_run, (release_head _ []) by (cbn; by rewrite Hhd). unfold s', s1. clear -Hhd. by destruct s; cbn in *; subst.
  - apply (icache_keep H H s s' i ip (set_i_ref (i_ref ip + 1) ip)); try done; cbn.
    + lia.
    + apply (Hl i ip Hi).
    + intros Hp' Hv'. by apply (Hv i ip Hi Hp).
    + intros Hin. split; [lia|]. by apply (Hh i ip Hi).
Qed.
End Ilock.
