(* ===== verification/Path.v ===== *)
(** * Directories and paths

    [dirlookup] and [namex] against the directory tree on disk: a directory is the
    list of its entries, and a path names the inode that a walk over these lists
    finds.  References to inodes are counted: the walk leaves one on its result and
    none on the directories it went through. *)

From S2P Require Import Prelude Riscv Mem State Printf Sched Bio Log Crash Fs FsData Balloc Inode Readi Ilock.

#[local] Open Scope Z_scope.

(** ** Directories as lists of entries *)

Definition dir_entry (d : list Z) (k : Z) : dirent := get_dirent (take 16 (drop (Z.to_nat (16 * k)) d)).

Definition is_entry (name : list Z) (e : dirent) : bool := negb (de_inum e =? 0) && (namecmp name (de_name e) =? 0).

(** The first entry with a name, from entry [k] on. *)
Fixpoint find_name (n : nat) (d name : list Z) (k : Z) : option (Z * dirent) :=
  match n with
  | O => None
  | S n' => if is_entry name (dir_entry d k) then Some (k, dir_entry d k) else find_name n' d name (k + 1)
  end.

Definition lookup_name (d name : list Z) : option (Z * dirent) := find_name (length d / 16) d name 0.

(** The part of an inode that says where its bytes are. *)
Definition inode_of (d : dinode) : inode := load_dinode d (set_i_dev ROOTDEV zero_inode).

Lemma file_bytes_same v ip ip' : to_dinode ip = to_dinode ip' -> file_bytes v ip = file_bytes v ip'.
Proof.
  intros E. unfold to_dinode in E. injection E as E1 E2 E3 E4 E5 E6.
  unfold file_bytes, block_bytes, block_of, addr_of. by rewrite E5, E6.
Qed.

Lemma file_ok_same v ip ip' : to_dinode ip = to_dinode ip' -> i_dev ip' = ROOTDEV -> file_ok v ip -> file_ok v ip'.
Proof.
  intros E Hd [_ Hs Hb]. unfold to_dinode in E. injection E as E1 E2 E3 E4 E5 E6.
  split; [done|by rewrite <- E5|]. unfold block_of, addr_of in *. rewrite <- E5, <- E6. exact Hb.
Qed.

Lemma to_dinode_inode_of d : to_dinode (inode_of d) = d.
Proof. by destruct d. Qed.

(** The tree that starts at an inode. *)
Section Tree.
Context (v : Z -> list Z) (b : superblock).
#[local] Abbreviation inode_at inum := (dinode_on v b inum).

Definition dir_bytes (inum : Z) : list Z := file_bytes v (inode_of (inode_at inum)).

Record dir_ok (inum : Z) : Prop := {
  do_file : file_ok v (inode_of (inode_at inum));
  do_size : d_size (inode_at inum) `mod` 16 = 0
}.

(** The walk of [namex] over the elements of a path: the inode and the last element;
    with [parent] it ends in front of the last element. *)
Fixpoint walk (parent : bool) (inum : Z) (names : list (list Z)) (name : list Z) : option (Z * list Z) :=
  match names with
  | [] => if parent then None else Some (inum, name)
  | n :: ns =>
      if negb (d_type (inode_at inum) =? T_DIR) then None
      else if parent && bool_decide (ns = []) then Some (inum, n)
      else
        match lookup_name (dir_bytes inum) n with
        | None => None
        | Some (_, e) => walk parent (de_inum e) ns n
        end
  end.

(** The inodes on the way are in use, and the directories among them are readable. *)
Fixpoint walk_ok (inum : Z) (names : list (list Z)) : Prop :=
  d_type (inode_at inum) <> 0 /\ d_nlink (inode_at inum) <> 0 /\
  match names with
  | [] => True
  | n :: ns => d_type (inode_at inum) = T_DIR ->
      dir_ok inum /\ forall k e, lookup_name (dir_bytes inum) n = Some (k, e) -> walk_ok (de_inum e) ns
  end.
End Tree.

Lemma dinode_on_ext (v v' : Z -> list Z) b inum : (forall bn, v bn = v' bn) -> dinode_on v b inum = dinode_on v' b inum.
Proof. intros H. unfold dinode_on. by rewrite H. Qed.

Lemma dir_bytes_ext (v v' : Z -> list Z) b inum : (forall bn, v bn = v' bn) -> dir_bytes v b inum = dir_bytes v' b inum.
Proof. intros H. unfold dir_bytes. by rewrite (dinode_on_ext v v'), (file_bytes_ext v v'). Qed.

Lemma walk_ok_ext (v v' : Z -> list Z) b inum names :
  (forall bn, v bn = v' bn) -> walk_ok v b inum names -> walk_ok v' b inum names.
Proof.
  intros H. revert inum. induction names as [|n ns IH]; intros inum; cbn [walk_ok]; rewrite (dinode_on_ext v v') by done; [done|].
  intros (? & ? & Hd). split_and!; try done. intros E. destruct (Hd E) as [[F M] N]. split.
  - split; rewrite <- (dinode_on_ext v v') by done; [|done]. by eapply file_ok_ext.
  - intros k e. rewrite <- (dir_bytes_ext v v') by done. intros L. by eapply IH, N.
Qed.

Lemma walk_ext (v v' : Z -> list Z) b parent inum names name :
  (forall bn, v bn = v' bn) -> walk v b parent inum names name = walk v' b parent inum names name.
Proof.
  intros H. revert inum name. induction names as [|n ns IH]; intros inum name; [done|]. cbn [walk].
  rewrite (dinode_on_ext v v'), (dir_bytes_ext v v') by done. destruct (negb _); [done|]. destruct (_ && _); [done|].
  by destruct (lookup_name _ _) as [[k e]|].
Qed.

(** ** Counting references *)

Definition entry_refs (inum : Z) (ip : inode) : Z := if decide (entry_for ROOTDEV inum ip) then i_ref ip else 0.

Definition irefs (t : list inode) (inum : Z) : Z := foldr (fun ip n => entry_refs inum ip + n) 0 t.

Lemma irefs_cons x t inum : irefs (x :: t) inum = entry_refs inum x + irefs t inum.
Proof. done. Qed.

Lemma irefs_insert t i ip ip' inum :
  t !! i = Some ip -> irefs (<[i := ip']> t) inum = irefs t inum - entry_refs inum ip + entry_refs inum ip'.
Proof.
  revert i. induction t as [|x t IH]; intros [|i] H; [done|done|..].
  - injection H as ->. change (<[0%nat := ip']> (ip :: t)) with (ip' :: t). rewrite !irefs_cons. lia.
  - change (<[S i := ip']> (x :: t)) with (x :: <[i := ip']> t). rewrite !irefs_cons, (IH i H). lia.
Qed.

Lemma entry_refs_nonneg inum ip : 0 <= entry_refs inum ip.
Proof. unfold entry_refs. case_decide as E; [|done]. destruct E. lia. Qed.

Lemma irefs_nonneg t inum : 0 <= irefs t inum.
Proof. induction t as [|x t IH]; [done|]. rewrite irefs_cons. pose proof (entry_refs_nonneg inum x). lia. Qed.

Lemma irefs_in t i ip inum : t !! i = Some ip -> entry_for ROOTDEV inum ip -> i_ref ip <= irefs t inum.
Proof.
  revert i. induction t as [|x t IH]; intros [|i] H E; [done|done|..]; rewrite irefs_cons.
  - injection H as ->. pose proof (irefs_nonneg t inum). unfold entry_refs. rewrite decide_True by done. lia.
  - specialize (IH i H E). pose proof (entry_refs_nonneg inum x). lia.
Qed.

Lemma entry_refs_for inum ip k : entry_for ROOTDEV inum ip -> entry_refs k ip = if k =? inum then i_ref ip else 0.
Proof.
  intros (H1 & H2 & H3). unfold entry_refs, entry_for. destruct (Z.eqb_spec k inum) as [->|Hne].
  - by rewrite decide_True.
  - rewrite decide_False; [done|]. naive_solver.
Qed.

Lemma entry_refs_free k ip : i_ref ip = 0 -> entry_refs k ip = 0.
Proof. intros H. unfold entry_refs, entry_for. rewrite decide_False; [done|]. lia. Qed.

(** At most [NINODE - n] inodes are in use. *)
Definition iroom (r : Z -> Z) (n : nat) : Prop :=
  exists X, (length X + n <= Z.to_nat NINODE)%nat /\ forall inum, 0 < r inum -> inum ∈ X.

Definition one (a x : Z) : Z := if x =? a then 1 else 0.

Section Path.
Context `{W : Waits} (me : nat) (pid : Z).
Implicit Types s : kernel.

Lemma table_not_full H s n :
  icache_ok pid H s -> iroom (irefs (itab s)) (S n) -> ~ Forall (fun ip => 0 < i_ref ip) (itab s).
Proof.
  intros [[Hl Hr Hu] Hd _ _ _] (X & HX & Hin) Hall. rewrite Forall_lookup in Hall.
  assert (Hsub : length (i_inum <$> itab s) <= length X).
  { apply Nat2Z.inj_le, submseteq_length, NoDup_submseteq.
    - apply NoDup_alt. intros i j x Hi Hj. apply list_lookup_fmap_Some in Hi as (a & -> & Ha).
      apply list_lookup_fmap_Some in Hj as (b & E & Hb). apply (Hu i j a b Ha Hb); [|by apply (Hall j)].
      split_and!; [by apply (Hall i)| |done]. rewrite (Hd i a), (Hd j b); [done|done|by apply (Hall j)|done|by apply (Hall i)].
    - intros x Hx. apply list_elem_of_fmap in Hx as (a & -> & Ha). apply list_elem_of_lookup in Ha as [i Ha]. apply Hin.
      pose proof (Hall i a Ha). cbn in *.
      pose proof (irefs_in (itab s) i a (i_inum a) Ha ltac:(split_and!; [done|by apply (Hd i)|done])). lia. }
  rewrite length_fmap, Hl in Hsub. lia.
Qed.

(** [iget] with the cache. *)
Lemma iget_icache H s inum n :
  can_read me pid s -> icache_ok pid H s -> iroom (irefs (itab s)) (S n) ->
  exists i ip' s', iget ROOTDEV inum s = Ok i s' /\ same_but_itab pid s s' /\ icache_ok pid H s' /\
    itab s' = <[i := ip']> (itab s) /\ (i < length (itab s))%nat /\ entry_for ROOTDEV inum ip' /\
    (forall ip, i ∈ H -> itab s !! i = Some ip -> ip' = set_i_ref (i_ref ip + 1) ip) /\
    forall k, irefs (itab s') k = irefs (itab s) k + one inum k.
Proof.
  intros Hr Hic Hroom. pose proof Hic as [Ht Hd Hl Hv Hh].
  pose proof (iget_run ROOTDEV inum s Ht) as G. rewrite (fx_held _ _ _ (rd_ctx _ _ _ Hr)) in G.
  specialize (G ltac:(apply not_elem_of_nil)). destruct (iget ROOTDEV inum s) as [i s'|msg|?|?]; [|exfalso|done|done].
  2:{ by eapply table_not_full, G. }
  destruct G as (ip & ip' & Hi & -> & He & Ht' & Hc).
  assert (S : same_but_itab pid s (set_itab (<[i := ip']> (itab s)) s)) by by eapply same_but_itab_set.
  exists i, ip', (set_itab (<[i := ip']> (itab s)) s). split; [done|]. split; [done|].
  assert (Hrest : forall k, irefs (<[i := ip']> (itab s)) k = irefs (itab s) k + one inum k).
  { intros k. rewrite (irefs_insert _ _ ip), (entry_refs_for inum ip') by done. unfold one. case_decide as E.
    - subst ip'. rewrite (entry_refs_for inum ip) by done. cbn. destruct (k =? inum); lia.
    - destruct Hc as (-> & E0 & _). rewrite (entry_refs_free k ip) by done. cbn. destruct (k =? inum); lia. }
  split; [|split_and!; [done|by eapply lookup_lt_Some|done| |exact Hrest]].
  2:{ intros ip0 Hin Hi0. assert (ip0 = ip) as -> by congruence. case_decide; [done|]. destruct Hc as (_ & E0 & _).
      destruct (Hh i ip Hi Hin). lia. }
  case_decide as E.
  - subst ip'. destruct E as (E1 & E2 & E3). eapply (icache_keep pid H H s _ i ip (set_i_ref (i_ref ip + 1) ip)); try done; cbn.
    + lia.
    + by apply Hl.
    + intros Hp Hv'. by apply (Hv i ip Hi).
    + intros Hin. split; [lia|]. by apply (Hh i ip Hi).
  - destruct Hc as (-> & E0 & Hno). split; [done|..]; cbn [itab set_itab].
    + intros j x [(-> & <- & _)|[_ Hj]]%list_lookup_insert_Some Hp; [done|by apply (Hd j)].
    + intros j x [(-> & <- & _)|[_ Hj]]%list_lookup_insert_Some; [|by apply Hl]. cbn. by apply Hl.
    + intros j x [(-> & <- & _)|[_ Hj]]%list_lookup_insert_Some Hp Hvx; [done|]. by apply (Hv j x).
    + intros j x [(-> & <- & _)|[_ Hj]]%list_lookup_insert_Some Hin; [|by apply (Hh j)]. destruct (Hh _ _ Hi Hin). lia.
Qed.

(** ** [dirlookup] *)

Lemma read_dirent_run s i ip k msg :
  can_read me pid s -> itab s !! i = Some ip -> file_ok (view s) ip -> 0 <= k -> 16 * (k + 1) <= i_size ip ->
  exists s', read_dirent i (k * sizeof_dirent) msg s = Ok (dir_entry (file_bytes (view s) ip) k) s' /\ same_view pid s s'.
Proof.
  intros Hr Hi Hfo Hk Hsz. pose proof (length_file_bytes _ _ Hfo) as Lf. pose proof (fo_size _ _ Hfo) as Hs.
  change (MAXFILE * BSIZE) with 274432 in Hs. change sizeof_dirent with 16.
  destruct (readi_local_run me pid i ip s (k * 16) 16 Hr Hi Hfo) as (s' & E & S); [unfold is_u32; lia..|].
  unfold read_range in E. rewrite (proj2 (Z.leb_gt _ _)) in E by lia. change (Z.to_nat 16) with 16%nat in E.
  exists s'. split; [|done]. unfold read_dirent. change sizeof_dirent with 16. kstep E.
  cbn [fst snd]. rewrite length_take, length_drop, Lf, (proj2 (Z.eqb_eq _ 16)) by lia. cbn [negb]. unfold dir_entry.
  by replace (16 * k) with (k * 16) by lia.
Qed.

Definition lookup_body (dp : nat) (dev : Z) (name : list Z) : Z -> unit -> K (unit + nat * Z) := fun off _ =>
  de ← read_dirent dp off "dirlookup read";
  if de_inum de =? 0 then mret (inl tt)
  else if namecmp name (de_name de) =? 0 then
    i ← iget dev (de_inum de);
    mret (inr (i, off))
  else mret (inl tt).

Lemma lookup_loop dp ip v name (n : nat) : forall k s,
  can_read me pid s -> itab s !! dp = Some ip -> (forall bn, view s bn = v bn) -> file_ok v ip -> 0 <= k ->
  16 * (k + n) <= i_size ip ->
  let d := file_bytes v ip in
  match find_name n d name k with
  | None => exists s', kfor ((fun k => k * sizeof_dirent) <$> seqZ k n) (lookup_body dp ROOTDEV name) tt s = Ok (inl tt) s' /\
      same_view pid s s'
  | Some (j, e) => exists s', same_view pid s s' /\ forall i s2, iget ROOTDEV (de_inum e) s' = Ok i s2 ->
      kfor ((fun k => k * sizeof_dirent) <$> seqZ k n) (lookup_body dp ROOTDEV name) tt s = Ok (inr (i, j * sizeof_dirent)) s2
  end.
Proof.
  induction n as [|n IH]; intros k s Hr Hi Hv Hfo Hk Hsz d; cbn [find_name].
  { exists s. split; [done|by eapply same_view_read]. }
  rewrite seqZ_cons by lia. cbn [fmap list_fmap kfor]. replace (Z.pred (S n)) with (Z.of_nat n) by lia. rewrite <- Z.add_1_r.
  destruct (read_dirent_run s dp ip k "dirlookup read" Hr Hi) as (s1 & E1 & S1); [apply (file_ok_ext v); [intros bn; by rewrite Hv|done]|done|lia|].
  rewrite (file_bytes_ext (view s) v) in E1 by done. fold d in E1.
  pose proof (same_but_mem_read me pid _ _ (same_view_mem _ _ _ S1) Hr) as Hr1. destruct (same_view_procs _ _ _ S1) as [T1 _].
  specialize (IH (k + 1) s1 Hr1 ltac:(by rewrite T1) ltac:(intros bn; by rewrite (sv_view _ _ _ S1)) Hfo ltac:(lia) ltac:(lia)).
  cbv zeta in IH. fold d in IH.
  assert (Hgo : is_entry name (dir_entry d k) = false ->
    lookup_body dp ROOTDEV name (k * sizeof_dirent) tt s = Ok (inl tt) s1).
  { intros Hn. unfold lookup_body. kstep E1. unfold is_entry in Hn. destruct (de_inum _ =? 0); [done|]. cbn [negb andb] in Hn. by rewrite Hn. }
  destruct (is_entry name (dir_entry d k)) eqn:Ee.
  - exists s1. split; [done|]. unfold is_entry in Ee. apply andb_prop in Ee as [Ea%negb_true_iff Eb].
    intros i s2 Eg. rewrite bind_run. unfold lookup_body at 2. kstep E1. rewrite Ea, Eb. by kstep Eg.
  - rewrite bind_run, Hgo by done. cbn [obind].
    destruct (find_name n d name (k + 1)) as [[j e]|]; [destruct IH as (s2 & S2 & E2)|destruct IH as (s2 & E2 & S2)];
      exists s2; (split; [first [exact E2|by eapply same_view_trans]|first [exact E2|by eapply same_view_trans]]).
Qed.

Lemma dirlookup_run s dp ip name :
  can_read me pid s -> itab s !! dp = Some ip -> i_type ip = T_DIR -> file_ok (view s) ip -> i_size ip `mod` 16 = 0 ->
  match lookup_name (file_bytes (view s) ip) name with
  | None => exists s', dirlookup dp name s = Ok None s' /\ same_view pid s s'
  | Some (k, e) => exists s', same_view pid s s' /\ forall i s2, iget ROOTDEV (de_inum e) s' = Ok i s2 ->
      dirlookup dp name s = Ok (Some (i, k * sizeof_dirent)) s2
  end.
Proof.
  intros Hr Hi Ht Hfo Hm. unfold lookup_name. pose proof (length_file_bytes _ _ Hfo) as Lf. pose proof (fo_size _ _ Hfo) as Hs.
  assert (En : Z.of_nat (length (file_bytes (view s) ip) / 16) = (i_size ip + sizeof_dirent - 1) / sizeof_dirent).
  { rewrite Lf, Nat2Z.inj_div, Z2Nat.id by lia. change (Z.of_nat 16) with 16. change sizeof_dirent with 16. Z.div_mod_to_equations. lia. }
  pose proof (lookup_loop dp ip (view s) name (length (file_bytes (view s) ip) / 16) 0 s Hr Hi ltac:(done) Hfo ltac:(lia)) as L.
  assert (Hd : dirlookup dp name s = obind (fun r => mret (match r with inr x => Some x | inl _ => None end))
    (kfor ((fun k => k * sizeof_dirent) <$> seqZ 0 (Z.of_nat (length (file_bytes (view s) ip) / 16))) (lookup_body dp ROOTDEV name) tt s)).
  { unfold dirlookup. kstep (geti_run s dp ip Hi). rewrite Ht. cbn [negb Z.eqb Pos.eqb]. unfold dir_offs, upto.
    by rewrite <- En, (fo_dev _ _ Hfo). }
  lapply L; [clear L; intros L|rewrite Z.add_0_l, En; change sizeof_dirent with 16; Z.div_mod_to_equations; lia]. cbv zeta in L.
  destruct (find_name _ _ name 0) as [[k e]|].
  - destruct L as (s' & S & E). exists s'. split; [done|]. intros i s2 Eg. by rewrite Hd, (E i s2 Eg).
  - destruct L as (s' & E & S). exists s'. split; [|done]. by rewrite Hd, E.
Qed.

(** ** Dropping references *)

Lemma iput_drop s i ip inum :
  can_read me pid s -> icache_ok pid [] s -> itab s !! i = Some ip -> entry_for ROOTDEV inum ip ->
  d_nlink (dinode_on (view s) (sb s) inum) <> 0 ->
  let s' := set_itab (<[i := set_i_ref (i_ref ip - 1) ip]> (itab s)) s in
  iput i s = Ok tt s' /\ same_but_itab pid s s' /\ icache_ok pid [] s' /\
  forall k, irefs (itab s') k = irefs (itab s) k - one inum k.
Proof.
  intros Hr Hic Hi He Hn s'. pose proof He as (He1 & He2 & He3).
  destruct (iput_run me pid [] s i ip Hr Hic (not_elem_of_nil i) Hi He1) as (E & S & Hic').
  { intros _ Hv. destruct (ic_valid _ _ _ Hic i ip Hi He1 Hv) as [_ Hd]. rewrite He3 in Hd. rewrite <- Hd in Hn. exact Hn. }
  split_and!; [done|done|done|]. intros k. unfold s'. cbn [itab set_itab]. rewrite (irefs_insert _ _ ip) by done.
  rewrite (entry_refs_for inum ip) by done. unfold one.
  destruct (decide (i_ref ip = 1)) as [H1|H1].
  - rewrite entry_refs_free by (cbn; lia). destruct (k =? inum); lia.
  - rewrite (entry_refs_for inum) by (split_and!; cbn; [lia|done|done]). cbn. destruct (k =? inum); lia.
Qed.

(** Unlocking first. *)
Lemma iunlockput_drop s i ip inum :
  can_read me pid s -> icache_ok pid [i] s -> itab s !! i = Some ip -> i_inum ip = inum ->
  d_nlink (dinode_on (view s) (sb s) inum) <> 0 ->
  exists s', iunlockput i s = Ok tt s' /\ same_but_itab pid s s' /\ icache_ok pid [] s' /\
    s' = set_itab (<[i := set_i_ref (i_ref ip - 1) (set_i_lock free_lock ip)]> (itab s)) s /\
    forall k, irefs (itab s') k = irefs (itab s) k - one inum k.
Proof.
  intros Hr Hic Hi He Hn. destruct (ic_held _ _ _ Hic i ip Hi ltac:(by left)) as [Hp Hv].
  destruct (iunlock_run me pid [] s i ip Hr Hic (not_elem_of_nil i) Hi) as (E1 & S1 & Hic1). set (s1 := set_itab _ s) in *.
  assert (Hi1 : itab s1 !! i = Some (set_i_lock free_lock ip)) by (apply list_lookup_insert_eq; by eapply lookup_lt_Some).
  pose proof (same_but_itab_read me pid _ _ S1 Hr) as Hr1.
  destruct (iput_drop s1 i (set_i_lock free_lock ip) inum Hr1 Hic1 Hi1) as (E2 & S2 & Hic2 & R2).
  { split_and!; [done|exact (ic_dev _ _ _ Hic i ip Hi Hp)|done]. }
  { exact Hn. }
  eexists. split; [unfold iunlockput; kstep E1; exact E2|]. split; [by eapply same_but_itab_trans|]. split; [done|].
  split; [cbn [itab set_itab s1]; by rewrite list_insert_insert_eq|]. intros k. rewrite R2. f_equal. unfold s1. cbn [itab set_itab].
  pose proof (ic_dev _ _ _ Hic i ip Hi Hp). rewrite (irefs_insert _ _ ip) by done. rewrite !(entry_refs_for inum) by by split. cbn. lia.
Qed.

(** ** [namex] *)

Lemma skipelem_rest p e r : skipelem p = Some (e, r) ->
  path_elements p = e :: path_elements r /\ (length r < length p)%nat /\ (r = [] <-> path_elements r = []).
Proof.
  intros E. pose proof (skipelem_spec p) as H. rewrite E in H. destruct H as (H1 & H2 & H3). split_and!; [done|done|].
  split; [by intros ->|]. intros H. pose proof (skipelem_spec r) as Hr. unfold skipelem in Hr. destruct r as [|c r]; [done|].
  cbn [skip_slashes] in Hr. rewrite (proj2 (Z.eqb_neq _ _) H3) in Hr. destruct (take_elem (c :: r)). rewrite H in Hr. by destruct Hr.
Qed.

Lemma iroom_more r r' inum n : iroom r (S n) -> (forall k, r' k = r k + one inum k) -> iroom r' n.
Proof.
  intros (X & HX & Hin) H. exists (inum :: X). split; [cbn; lia|]. intros k. rewrite H. unfold one.
  destruct (Z.eqb_spec k inum) as [->|]; [by left|]. intros Hk. right. apply Hin. lia.
Qed.

Section Namex.
Context (r0 : Z -> Z) (v : Z -> list Z) (b : superblock) (parent : bool).
Hypothesis r0_room : iroom r0 2.

(** The state of the walk: it has a reference to the inode [inum], in entry [i]. *)
Record walking s (i : nat) (inum : Z) : Prop := {
  wk_read : can_read me pid s;
  wk_cache : icache_ok pid [] s;
  wk_view : forall bn, view s bn = v bn;
  wk_sb : sb s = b;
  wk_entry : exists ip, itab s !! i = Some ip /\ entry_for ROOTDEV inum ip;
  wk_refs : forall k, irefs (itab s) k = r0 k + one inum k
}.

(** The two ways in which it ends. *)
Definition walk_end s (o : outcome (option (nat * list Z))) (w : option (Z * list Z)) : Prop :=
  exists s', same_but_itab pid s s' /\ icache_ok pid [] s' /\
    match w with
    | Some (inum, name) => exists i, o = Ok (Some (i, name)) s' /\ walking s' i inum
    | None => o = Ok None s' /\ forall k, irefs (itab s') k = r0 k
    end.

Lemma walk_end_step s s1 o w : same_but_itab pid s s1 -> walk_end s1 o w -> walk_end s o w.
Proof. intros S (s' & S' & H). exists s'. split; [by eapply same_but_itab_trans|done]. Qed.

Lemma walking_dinode s i inum : walking s i inum -> forall k, dinode_on (view s) (sb s) k = dinode_on v b k.
Proof. intros [_ _ Hv <- _ _] k. by apply dinode_on_ext. Qed.

(** The locked state between [ilock] and [iunlock]. *)
Record walking_locked s (i : nat) (inum : Z) (ip : inode) : Prop := {
  wl_read : can_read me pid s;
  wl_cache : icache_ok pid [i] s;
  wl_view : forall bn, view s bn = v bn;
  wl_sb : sb s = b;
  wl_entry : itab s !! i = Some ip;
  wl_inum : i_inum ip = inum;
  wl_data : to_dinode ip = dinode_on v b inum;
  wl_refs : forall k, irefs (itab s) k = r0 k + one inum k
}.

Lemma namex_lock s i inum :
  walking s i inum -> d_type (dinode_on v b inum) <> 0 ->
  exists s1 ip, ilock (Some i) s = Ok tt s1 /\ same_but_itab pid s s1 /\ walking_locked s1 i inum ip.
Proof.
  intros Hw Ht. pose proof (walking_dinode _ _ _ Hw) as Hd. destruct Hw as [Hr Hic Hv Hb (ip & Hi & He) Hrf].
  pose proof He as (He1 & He2 & He3).
  destruct (ilock_run me pid [] s i ip Hr Hic (not_elem_of_nil i) Hi He1) as (ip' & s1 & E & S & T & [L1 L2 L3 L4 L5 L6] & Hic1).
  { rewrite Hd, He3. exact Ht. }
  exists s1, ip'. split; [done|]. split; [done|]. split; [by eapply same_but_itab_read|done|..].
  - intros bn. by rewrite (same_but_itab_view _ _ _ _ S).
  - by rewrite (same_but_itab_sb _ _ _ S).
  - rewrite T. apply list_lookup_insert_eq. by eapply lookup_lt_Some.
  - congruence.
  - by rewrite L6, Hd, He3.
  - intros k. rewrite T, (irefs_insert _ _ ip) by done. rewrite !(entry_refs_for inum) by (split_and!; lia || congruence).
    rewrite L3, Hrf. lia.
Qed.

Lemma namex_unlockput s i inum ip :
  walking_locked s i inum ip -> d_nlink (dinode_on v b inum) <> 0 ->
  exists s', iunlockput i s = Ok tt s' /\ same_but_itab pid s s' /\ icache_ok pid [] s' /\ forall k, irefs (itab s') k = r0 k.
Proof.
  intros [Hr Hic Hv Hb Hi Hn Hd Hrf] Hl.
  destruct (iunlockput_drop s i ip inum Hr Hic Hi Hn) as (s' & E & S & Hic' & _ & R).
  { rewrite Hb, (dinode_on_ext _ v) by done. done. }
  exists s'. split_and!; try done. intros k. rewrite R, Hrf. lia.
Qed.

Lemma same_view_locked s s' i inum ip : same_view pid s s' -> walking_locked s i inum ip -> walking_locked s' i inum ip.
Proof.
  intros S [Hr Hic Hv Hb Hi Hn Hd Hrf]. pose proof (same_view_itab _ _ _ S) as S'.
  destruct (same_view_procs _ _ _ S) as [T _].
  split; rewrite ?T; try done; [by eapply same_but_itab_read| | |].
  - apply (icache_same pid _ s); [done|done|by apply (same_but_itab_sb _ _ _ S')|apply S].
  - intros bn. by rewrite (sv_view _ _ _ S).
  - by rewrite (same_but_itab_sb _ _ _ S').
Qed.

(** The next element: a reference to its inode is taken while the directory is locked. *)
Lemma namex_next s i inum ip n j s2 x' :
  walking_locked s i inum ip -> d_nlink (dinode_on v b inum) <> 0 ->
  iget ROOTDEV n s = Ok j s2 -> same_but_itab pid s s2 -> icache_ok pid [i] s2 -> itab s2 = <[j := x']> (itab s) ->
  (j < length (itab s))%nat -> entry_for ROOTDEV n x' ->
  (forall x, j ∈ [i] -> itab s !! j = Some x -> x' = set_i_ref (i_ref x + 1) x) ->
  (forall k, irefs (itab s2) k = irefs (itab s) k + one n k) ->
  exists s3, iunlockput i s2 = Ok tt s3 /\ same_but_itab pid s s3 /\ walking s3 j n.
Proof.
  intros [Hr Hic Hv Hb Hi Hn Hd Hrf] Hl E S Hic2 T Hj He Hsame R. pose proof (same_but_itab_read me pid _ _ S Hr) as Hr2.
  destruct (ic_held _ _ _ Hic i ip Hi ltac:(by left)) as [Hp _].
  assert (exists ip2, itab s2 !! i = Some ip2 /\ i_inum ip2 = inum /\ (j = i -> x' = ip2 /\ 1 < i_ref ip2)) as (ip2 & Hi2 & Hn2 & Hji).
  { destruct (decide (j = i)) as [->|Hne].
    - exists x'. rewrite (Hsame ip ltac:(by left) Hi). split_and!; [|done|intros _; split; [done|cbn; lia]].
      rewrite T, (Hsame ip ltac:(by left) Hi). by apply list_lookup_insert_eq.
    - exists ip. split_and!; [|done|done]. by rewrite T, list_lookup_insert_ne. }
  destruct (iunlockput_drop s2 i ip2 inum Hr2 Hic2 Hi2 Hn2) as (s3 & E3 & S3 & Hic3 & T3 & R3).
  { rewrite (same_but_itab_sb _ _ _ S), Hb, (dinode_on_ext _ v) by (intros bn; by rewrite (same_but_itab_view _ _ _ _ S)). done. }
  pose proof (same_but_itab_trans _ _ _ _ S S3) as S'. exists s3. split_and!; [done|done|].
  split; [by eapply same_but_itab_read|done|..].
  - intros bn. by rewrite (same_but_itab_view _ _ _ _ S').
  - by rewrite (same_but_itab_sb _ _ _ S').
  - rewrite T3. cbn [itab set_itab]. destruct (decide (j = i)) as [->|Hne].
    + destruct (Hji eq_refl) as [-> Hr1]. eexists. split; [apply list_lookup_insert_eq; by eapply lookup_lt_Some|].
      destruct He as (_ & He2 & He3). split_and!; cbn; [lia|done|done].
    + exists x'. split; [|done]. rewrite list_lookup_insert_ne by done. rewrite T. by apply list_lookup_insert_eq.
  - intros k. rewrite R3, R, Hrf. lia.
Qed.

(** A walk that fails with the directory locked. *)
Lemma namex_fail s i inum ip :
  walking_locked s i inum ip -> d_nlink (dinode_on v b inum) <> 0 ->
  walk_end s ((iunlockput i ;; mret None) s) None.
Proof.
  intros Hw Hl. destruct (namex_unlockput s i inum ip Hw Hl) as (s' & E & S & Hic & R).
  exists s'. split_and!; [done|done| |done]. by kstep E.
Qed.

(** A walk at the end of the path. *)
Lemma namex_done s i inum name :
  walking s i inum -> d_nlink (dinode_on v b inum) <> 0 ->
  walk_end s ((if parent then iput i ;; mret None else mret (Some (i, name))) s) (walk v b parent inum [] name).
Proof.
  intros Hw Hl. pose proof (walking_dinode _ _ _ Hw) as Hd. pose proof Hw as [Hr Hic Hv Hb (ip & Hi & He) Hrf].
  cbn [walk]. destruct parent.
  - destruct (iput_drop s i ip inum Hr Hic Hi He ltac:(by rewrite Hd)) as (E & S & Hic' & R).
    eexists. split_and!; [exact S|exact Hic'|by kstep E|]. intros k. rewrite R, Hrf. lia.
  - exists s. split_and!; [by eapply same_but_itab_refl|done|by exists i].
Qed.

(** [nameiparent] in front of the last element. *)
Lemma namex_here s i inum ip name :
  walking_locked s i inum ip ->
  walk_end s ((iunlock (Some i) ;; mret (Some (i, name))) s) (Some (inum, name)).
Proof.
  intros [Hr Hic Hv Hb Hi Hn Hd Hrf].
  destruct (iunlock_run me pid [] s i ip Hr Hic (not_elem_of_nil i) Hi) as (E & S & Hic2). set (s2 := set_itab _ s) in *.
  exists s2. split_and!; [done|done|]. exists i. split; [by kstep E|].
  destruct (ic_held _ _ _ Hic i ip Hi ltac:(by left)) as [Hp _]. pose proof (ic_dev _ _ _ Hic i ip Hi Hp).
  split; try done; [by eapply same_but_itab_read|..].
  - eexists. split; [apply list_lookup_insert_eq; by eapply lookup_lt_Some|]. by split.
  - intros k. unfold s2. cbn [itab set_itab]. rewrite (irefs_insert _ _ ip) by done. rewrite !(entry_refs_for inum) by by split.
    rewrite Hrf. cbn. lia.
Qed.

Lemma namex_loop_run : forall (fuel : nat) s i inum path name,
  walking s i inum -> walk_ok v b inum (path_elements path) -> (length path <= fuel)%nat ->
  walk_end s (namex_loop fuel i path parent name s) (walk v b parent inum (path_elements path) name).
Proof.
  induction fuel as [|fuel IH]; intros s i inum path name Hw Hok Hf.
  all: cbn [namex_loop]; destruct (skipelem path) as [[e r]|] eqn:Es.
  1: pose proof (skipelem_rest _ _ _ Es) as (_ & H & _); lia.
  2: pose proof (skipelem_rest _ _ _ Es) as (Hpe & Hlen & Hnil); rewrite Hpe in *.
  1,3: pose proof (skipelem_spec path) as Hp; rewrite Es in Hp; rewrite Hp in *; apply namex_done; [done|apply Hok].
  cbn [walk_ok] in Hok. destruct Hok as (Ht & Hl & Hdir). destruct (namex_lock s i inum Hw Ht) as (s1 & ip & E1 & S1 & Hw1). kstep E1.
  apply (walk_end_step s s1); [done|]. pose proof Hw1 as [Hr1 Hic1 Hv1 Hb1 Hi1 Hn1 Hd1 Hrf1]. kstep (geti_run s1 i ip Hi1).
  assert (i_type ip = d_type (dinode_on v b inum)) as -> by by rewrite <- Hd1. cbn [walk].
  destruct (Z.eqb_spec (d_type (dinode_on v b inum)) T_DIR) as [HD|HD]; cbn [negb]; [|by eapply namex_fail].
  destruct (Hdir HD) as [[Hfo Hsz] Hnext].
  assert (parent && bool_decide (path_elements r = []) = parent && match r with [] => true | _ => false end) as ->.
  { f_equal. destruct r as [|c r]; [done|]. apply bool_decide_eq_false_2. rewrite <- Hnil. done. }
  destruct (parent && _) eqn:Ep.
  { by eapply namex_here. }
  assert (Hfo1 : file_ok (view s1) ip).
  { apply (file_ok_ext v); [intros bn; by rewrite Hv1|]. apply (file_ok_same v (inode_of (dinode_on v b inum))); [|..|done].
    - by rewrite to_dinode_inode_of.
    - apply (ic_dev _ _ _ Hic1 i ip Hi1). by apply (ic_held _ _ _ Hic1 i ip Hi1); left. }
  pose proof (dirlookup_run s1 i ip e Hr1 Hi1) as L. rewrite (file_bytes_ext _ v) in L by done.
  rewrite (file_bytes_same v ip (inode_of (dinode_on v b inum))) in L by by rewrite to_dinode_inode_of.
  fold (dir_bytes v b inum) in L. specialize (L ltac:(rewrite <- HD, <- Hd1; done) Hfo1 ltac:(rewrite <- Hsz, <- Hd1; done)).
  destruct (lookup_name (dir_bytes v b inum) e) as [[k en]|] eqn:El.
  - destruct L as (s2 & S2 & E2). pose proof (same_view_locked _ _ _ _ _ S2 Hw1) as Hw2.
    destruct (iget_icache [i] s2 (de_inum en) 0 (wl_read _ _ _ _ Hw2) (wl_cache _ _ _ _ Hw2)) as (j & x' & s3 & E3 & S3 & Hic3 & T3 & Hj & He3 & Hs3 & R3).
    { eapply iroom_more; [exact r0_room|]. apply Hw2. }
    kstep (E2 j s3 E3).
    destruct (namex_next s2 i inum ip (de_inum en) j s3 x' Hw2 Hl E3 S3 Hic3 T3 Hj He3 Hs3 R3) as (s4 & E4 & S4 & Hw4).
    kstep E4. apply (walk_end_step s1 s4); [eapply same_but_itab_trans; [by apply same_view_itab|done]|].
    apply IH; [done|by eapply Hnext|lia].
  - destruct L as (s2 & E2 & S2). kstep E2. apply (walk_end_step s1 s2); [by apply same_view_itab|].
    eapply namex_fail; [by eapply same_view_locked|done].
Qed.
End Namex.

(** Where the walk over a path starts: at the root or at the current directory. *)
Definition starts_at s (path : list Z) (inum : Z) : Prop :=
  if bool_decide (head path = Some 47) then inum = ROOTINO
  else exists p i ip, procs s !! me = Some p /\ p_cwd p = Some i /\ itab s !! i = Some ip /\ entry_for ROOTDEV inum ip.

Lemma namex_start s path inum :
  can_read me pid s -> icache_ok pid [] s -> iroom (irefs (itab s)) 2 -> starts_at s path inum ->
  exists s1 i, same_but_itab pid s s1 /\ walking (irefs (itab s)) (view s) (sb s) s1 i inum /\
    forall parent, namex path parent s = namex_loop (length path) i path parent [] s1.
Proof.
  intros Hr Hic Hroom Hst. unfold starts_at in Hst. case_bool_decide as Ha.
  - subst inum. destruct (iget_icache [] s ROOTINO 1 Hr Hic Hroom) as (i & x' & s1 & E & S & Hic1 & T & Hj & He & _ & R).
    exists s1, i. split; [done|]. split.
    + split; [by eapply same_but_itab_read|done|..|done].
      * intros bn. by rewrite (same_but_itab_view _ _ _ _ S).
      * by rewrite (same_but_itab_sb _ _ _ S).
      * exists x'. rewrite T. split; [by apply list_lookup_insert_eq|done].
    + intros parent. destruct path as [|c path]; [done|]. injection Ha as ->. unfold namex. by kstep E.
  - destruct Hst as (p & i & ip & Hp & Hc & Hi & He). pose proof He as (He1 & He2 & He3).
    destruct (idup_run me pid [] s i ip Hr Hic Hi He1) as (E & S & Hic1). set (s1 := set_itab _ s) in *.
    exists s1, i. split; [done|]. split.
    + split; [by eapply same_but_itab_read|done|done|done|..].
      * eexists. split; [apply list_lookup_insert_eq; by eapply lookup_lt_Some|]. split_and!; cbn; [lia|done|done].
      * intros k. unfold s1. cbn [itab set_itab]. rewrite (irefs_insert _ _ ip) by done.
        rewrite !(entry_refs_for inum) by (split_and!; cbn; lia || done). unfold one. cbn. destruct (k =? inum); lia.
    + intros parent. pose proof (fx_cur _ _ _ (rd_ctx _ _ _ Hr)) as Hcur.
      assert (Hcwd : (me ← curproc; p ← getp me; match p_cwd p with Some i => idup i | None => stuck "cwd is null" end) s = Ok i s1).
      { kstep (curproc_run s me Hcur). kstep (getp_run s me p Hp). by rewrite Hc. }
      unfold namex. destruct path as [|c path]; [by kstep Hcwd|].
      rewrite (proj2 (Z.eqb_neq c 47)) by (intros ->; by apply Ha). by kstep Hcwd.
Qed.

Lemma namex_run s path parent inum :
  can_read me pid s -> icache_ok pid [] s -> iroom (irefs (itab s)) 2 -> starts_at s path inum ->
  walk_ok (view s) (sb s) inum (path_elements path) ->
  exists s', same_but_itab pid s s' /\ icache_ok pid [] s' /\
    match walk (view s) (sb s) parent inum (path_elements path) [] with
    | Some (n, name) => exists i ip, namex path parent s = Ok (Some (i, name)) s' /\
        itab s' !! i = Some ip /\ entry_for ROOTDEV n ip /\ forall k, irefs (itab s') k = irefs (itab s) k + one n k
    | None => namex path parent s = Ok None s' /\ forall k, irefs (itab s') k = irefs (itab s) k
    end.
Proof.
  intros Hr Hic Hroom Hst Hok. destruct (namex_start s path inum Hr Hic Hroom Hst) as (s1 & i & S1 & Hw & E).
  destruct (namex_loop_run _ _ _ parent Hroom (length path) s1 i inum path [] Hw Hok (le_n _)) as (s' & S & Hic' & Hend).
  exists s'. split; [by eapply same_but_itab_trans|]. split; [done|]. rewrite (E parent).
  destruct (walk _ _ _ _ _ _) as [[n name]|]; [|done]. destruct Hend as (j & Ej & [_ _ _ _ (ip & Hi & He) Hrf]). by exists j, ip.
Qed.

(** C13. Path lookup finds what the directories on the disk say: the walk over the
    elements of the path that starts at the root or at the current directory,
    element by element through the first entry with that name, and stops in front of
    the last element for [nameiparent].  The result is an entry of the inode table
    for the inode of the walk, with one reference more than before; if an element is
    missing or is no directory the result is null.  All the references that the walk
    takes on the way are given back, every lock is released, and neither blocks nor
    the rest of the kernel change. *)
Theorem namex_spec s path parent inum :
  can_read me pid s -> icache_ok pid [] s -> iroom (irefs (itab s)) 2 -> starts_at s path inum ->
  walk_ok (view s) (sb s) inum (path_elements path) ->
  exists s', same_but_itab pid s s' /\ icache_ok pid [] s' /\
    match walk (view s) (sb s) parent inum (path_elements path) [] with
    | Some (n, name) => exists i ip, namex path parent s = Ok (Some (i, name)) s' /\
        itab s' !! i = Some ip /\ entry_for ROOTDEV n ip /\ forall k, irefs (itab s') k = irefs (itab s) k + one n k
    | None => namex path parent s = Ok None s' /\ forall k, irefs (itab s') k = irefs (itab s) k
    end.
Proof. exact (namex_run s path parent inum). Qed.
End Path.

(** ** A mounted file system

    Process 0 is running with the address space of [s0]; the disk is [D], none of it
    cached, and the super block is the one that [mkfs] writes. *)

Definition mounted_proc (p : proc) : proc := set_p_state RUNNING (set_p_pid 1 p).

Definition mounted (D : Z -> list Z) (p : proc) (s0 : kernel) : kernel :=
  set_mem (mem s0) (set_refcnt (refcnt s0) (set_sb fs_sb (set_disk D
    (set_procs (<[0%nat := mounted_proc p]> (procs boot)) idle_machine)))).

Lemma mounted_ctx D p s0 : fs_ctx 0 1 (mounted D p s0).
Proof.
  assert (Hp : forall i x, procs (mounted D p s0) !! i = Some x -> p_state x <> SLEEPING).
  { intros i x [(_ & <- & _)|[_ Hi]]%list_lookup_insert_Some; [done|]. by apply lookup_replicate in Hi as [-> _]. }
  split; try done.
  - by exists (mounted_proc p).
  - intros i x Hi Hs. by destruct (Hp i x Hi).
  - intros i x c Hi Hs. by destruct (Hp i x Hi).
Qed.

Lemma mounted_cached D p s0 bn : view (mounted D p s0) bn = D bn /\ refs (mounted D p s0) bn = 0.
Proof.
  unfold view, refs, cached. cbn [bufs disk mounted set_mem set_refcnt set_sb set_disk set_procs].
  destruct (list_find (key bn) (bufs idle_machine)) as [[i x]|] eqn:F; [|done].
  apply list_find_Some in F as (Hx & _ & _). by apply idle_machine_buf in Hx as ->.
Qed.

Lemma mounted_view D p s0 bn : view (mounted D p s0) bn = D bn.
Proof. apply mounted_cached. Qed.

Lemma mounted_read D p s0 : can_read 0 1 (mounted D p s0).
Proof.
  split.
  - apply mounted_ctx.
  - destruct idle_machine_cache as [Cl Cr Cu Cd Cf Ck Cm Cc]. split; try done. by intros b x ->%idle_machine_buf.
  - exists []. split; [by apply Nat.ltb_lt|]. intros bn H. by destruct H; apply mounted_cached.
  - intros bn. by rewrite (proj2 (mounted_cached D p s0 bn)).
Qed.

Lemma mounted_inode D p s0 i ip : itab (mounted D p s0) !! i = Some ip -> ip = zero_inode.
Proof. intros H. apply lookup_replicate in H. apply H. Qed.

Lemma mounted_icache D p s0 : icache_ok 1 [] (mounted D p s0).
Proof.
  split.
  - split; [done|..].
    + apply Forall_replicate. done.
    + intros i j x y ->%mounted_inode _ (H & _). done.
  - by intros i ip ->%mounted_inode.
  - intros i ip ->%mounted_inode. by rewrite decide_False by apply not_elem_of_nil.
  - by intros i ip ->%mounted_inode.
  - by intros i ip _ ?%not_elem_of_nil.
Qed.

Lemma mounted_refs D p s0 k : irefs (itab (mounted D p s0)) k = 0.
Proof.
  change (itab (mounted D p s0)) with (replicate (Z.to_nat NINODE) zero_inode). induction (Z.to_nat NINODE) as [|n IH]; [done|].
  cbn [replicate]. rewrite irefs_cons, IH, entry_refs_free; done.
Qed.

Lemma mounted_room D p s0 : iroom (irefs (itab (mounted D p s0))) 2.
Proof. exists []. split; [by apply Nat.leb_le|]. intros k. rewrite mounted_refs. lia. Qed.

(** ** A directory with one file *)

Definition one_file_inodes : list Z :=
  put_dinode (mkDinode T_DIR 0 0 1 48 (47 :: replicate 12 0)) (dinode_off 1)
    (put_dinode (mkDinode T_FILE 0 0 1 5 (48 :: replicate 12 0)) (dinode_off 2) (replicate 1024 0)).

Definition one_file_root : list Z :=
  put_dirent (mkDirent 1 (strncpy_name (str "."))) ++ put_dirent (mkDirent 1 (strncpy_name (str ".."))) ++
  put_dirent (mkDirent 2 (strncpy_name (str "a"))) ++ replicate (1024 - 48) 0.

Definition one_file : Z -> list Z :=
  <[33 := one_file_inodes]> (<[47 := one_file_root]> (<[48 := str "hello" ++ replicate 1019 0]> (fun _ => replicate 1024 0))).

Lemma one_file_inode_1 : dinode_on one_file fs_sb 1 = mkDinode T_DIR 0 0 1 48 (47 :: replicate 12 0).
Proof. vm_compute. reflexivity. Qed.

Lemma one_file_inode_2 : dinode_on one_file fs_sb 2 = mkDinode T_FILE 0 0 1 5 (48 :: replicate 12 0).
Proof. vm_compute. reflexivity. Qed.

Lemma one_file_lookup : exists e, lookup_name (dir_bytes one_file fs_sb 1) (str "a") = Some (2, e) /\ de_inum e = 2.
Proof. eexists. split; vm_compute; reflexivity. Qed.

Lemma one_block_ok v ty sz b :
  0 < sz <= 1024 -> b <> 0 -> length (v b) = 1024%nat -> file_ok v (inode_of (mkDinode ty 0 0 1 sz (b :: replicate 12 0))).
Proof.
  intros Hs Hb Hl. split; [done|..].
  - change (0 <= sz <= 274432). lia.
  - intros k Hk. change (0 <= k < blocks_for sz) in Hk. assert (k = 0) as ->; [|done].
    unfold blocks_for in Hk. change BSIZE with 1024 in Hk. Z.div_mod_to_equations. lia.
Qed.

Lemma one_file_walk : walk_ok one_file fs_sb ROOTINO (path_elements (str "/a")).
Proof.
  change (path_elements (str "/a")) with [str "a"]. change ROOTINO with 1. cbn [walk_ok]. rewrite one_file_inode_1.
  split; [done|]. split; [done|]. intros _. split.
  - split; rewrite one_file_inode_1; [|done]. apply one_block_ok; [lia|done|by vm_compute].
  - intros k e. destruct one_file_lookup as (e' & -> & He). intros [= _ <-]. by rewrite He, one_file_inode_2.
Qed.

Lemma namex_spec_witness :
  exists s' i ip, @namex three_waits (str "/a") false (mounted one_file zero_proc boot) = Ok (Some (i, str "a")) s' /\
    itab s' !! i = Some ip /\ i_inum ip = 2 /\ irefs (itab s') 2 = 1 /\ irefs (itab s') 1 = 0.
Proof.
  set (s := mounted one_file zero_proc boot).
  assert (Hv : forall bn, view s bn = one_file bn) by (intros bn; apply mounted_view).
  assert (Hok : walk_ok (view s) fs_sb ROOTINO (path_elements (str "/a"))).
  { apply (walk_ok_ext one_file); [intros bn; symmetry; apply Hv|exact one_file_walk]. }
  destruct (@namex_spec three_waits 0 1 s (str "/a") false ROOTINO (mounted_read _ _ _) (mounted_icache _ _ _) (mounted_room _ _ _)
    eq_refl Hok) as (s' & _ & _ & H).
  change (sb s) with fs_sb in H. rewrite (walk_ext _ one_file) in H by exact Hv.
  assert (E : walk one_file fs_sb false ROOTINO (path_elements (str "/a")) [] = Some (2, str "a")) by (vm_compute; reflexivity).
  rewrite E in H. destruct H as (i & ip & H & Hi & (_ & _ & Hn) & R). exists s', i, ip.
  rewrite !R. unfold s. rewrite !mounted_refs. split_and!; [exact H|exact Hi|exact Hn|reflexivity|reflexivity].
Defined.
