(* ===== verification/Writei.v ===== *)
(** * Writing files

    [bmap] and [writei] inside an operation of the log, for the blocks that the inode
    addresses directly: the bytes reach the blocks of this file, a block that was
    missing is taken from the bitmap, and no block of another file changes. *)

From S2P Require Import Prelude Riscv Mem State Printf Sched Bio Log Crash Fs FsData Balloc Inode Readi Ilock.

#[local] Open Scope Z_scope.

Section Writei.
Context `{W : Waits} (me : nat) (pid : Z).
Implicit Types s : kernel.

(** ** Blocks and their owners *)

Definition inode_number s (inum : Z) : Prop := 0 <= inum < sb_ninodes (sb s).

(** A block in use that is neither part of the log nor of the bitmap. *)
Record plain_block s (b : Z) : Prop := {
  pb_fs : fs_block s b;
  pb_pos : b <> 0;
  pb_used : used s b = true;
  pb_home : home (lg_start (lg s)) b;
  pb_bitmap : forall b', fs_block s b' -> BBLOCK b' (sb s) <> b;
  pb_len : length (view s b) = Z.to_nat BSIZE
}.

(** The blocks of the inodes are such blocks. *)
Definition inodes_ok s : Prop := forall inum, inode_number s inum -> plain_block s (IBLOCK inum (sb s)).

(** The blocks that an inode addresses directly: its own, and not of the inodes. *)
Record direct_ok s (ip : inode) : Prop := {
  dr_dev : i_dev ip = ROOTDEV;
  dr_len : length (i_addrs ip) = 13%nat;
  dr_block : forall k, (k < 12)%nat -> addr_of ip k <> 0 ->
    plain_block s (addr_of ip k) /\ forall inum, inode_number s inum -> IBLOCK inum (sb s) <> addr_of ip k;
  dr_apart : forall k k', (k < 12)%nat -> (k' < 12)%nat -> addr_of ip k <> 0 -> addr_of ip k = addr_of ip k' -> k = k'
}.

(** Byte [x] of the directly addressed part. *)
Definition byte_of (v : Z -> list Z) (ip : inode) (x : nat) : option Z :=
  v (addr_of ip (x / 1024)) !! (x mod 1024)%nat.

(** ** One step inside an operation *)

Record fs_inv s : Prop := {
  fi_bitmap : bitmap_ok s;
  fi_boot : fs_block s 0 /\ used s 0 = true;
  fi_start : 0 <= sb_inodestart (sb s) /\ sb_inodestart (sb s) + sb_ninodes (sb s) < 2^31;
  fi_inodes : inodes_ok s
}.

(** From [s] to [s'] the entry [i] of the inode table went from [ip] to [ip'], which
    has at most more blocks; the blocks of others did not change. *)
Record grows s (i : nat) (ip : inode) s' (ip' : inode) : Prop := {
  gr_frame : io_frame (set_itab (<[i := ip']> (itab s)) (set_lg (lg s') s)) s';
  gr_start : lg_start (lg s') = lg_start (lg s);
  gr_out : lg_outstanding (lg s') = lg_outstanding (lg s);
  gr_com : lg_committing (lg s') = lg_committing (lg s);
  gr_disk : disk s' = disk s;
  gr_writes : writes s' = writes s;
  gr_inode : ip' = set_i_addrs (i_addrs ip') ip;
  gr_keep : forall k, addr_of ip k <> 0 -> addr_of ip' k = addr_of ip k;
  gr_slots : forall k, (12 <= k)%nat -> addr_of ip' k = addr_of ip k;
  gr_new : forall k, (k < 12)%nat -> addr_of ip k = 0 -> addr_of ip' k <> 0 ->
    fs_block s (addr_of ip' k) /\ used s (addr_of ip' k) = false;
  gr_inv : fs_inv s';
  gr_direct : direct_ok s' ip';
  gr_used : forall b, fs_block s b -> used s b = true -> used s' b = true;
  gr_others : forall b, plain_block s b -> (forall k, (k < 12)%nat -> addr_of ip k <> b) -> view s' b = view s b
}.

Lemma may_log_le n m s bl R : (m <= n)%nat -> may_log me pid n s bl R -> may_log me pid m s bl R.
Proof.
  intros Hle [Hop Hr Hu Hs Hl]. split; try done; [lia| |lia]. intros bn. specialize (Hs bn). lia.
Qed.

Lemma grows_itab s i ip s' ip' : grows s i ip s' ip' -> itab s' = <[i := ip']> (itab s).
Proof. intros H. pose proof (gr_frame _ _ _ _ _ H) as F. by rewrite F. Qed.

Lemma grows_sb s i ip s' ip' : grows s i ip s' ip' -> sb s' = sb s.
Proof. intros H. pose proof (gr_frame _ _ _ _ _ H) as F. by rewrite F. Qed.

(** What stays a plain block. *)
Lemma plain_block_step s s' b :
  plain_block s b -> sb s' = sb s -> lg_start (lg s') = lg_start (lg s) -> used s' b = true -> length (view s' b) = Z.to_nat BSIZE ->
  plain_block s' b.
Proof. intros [H1 H0 H2 H3 H4 H5] Es El Hu Hl. split; unfold fs_block in *; rewrite ?Es, ?El; done. Qed.

Lemma grows_refl s i ip : itab s !! i = Some ip -> bcache_ok pid [] s -> fs_inv s -> direct_ok s ip -> grows s i ip s ip.
Proof.
  intros Hi Hc Hv Hd. split; try done; [|by destruct ip]. rewrite list_insert_id by done. unfold io_frame. by destruct s.
Qed.

Lemma grows_trans s1 i ip1 s2 ip2 s3 ip3 :
  grows s1 i ip1 s2 ip2 -> grows s2 i ip2 s3 ip3 -> direct_ok s1 ip1 -> grows s1 i ip1 s3 ip3.
Proof.
  intros H1 H2 Hd. pose proof (grows_itab _ _ _ _ _ H1) as T1. pose proof (grows_sb _ _ _ _ _ H1) as B1.
  destruct H1 as [F1 S1 O1 C1 D1 W1 I1 K1 L1 N1 V1 R1 U1 P1], H2 as [F2 S2 O2 C2 D2 W2 I2 K2 L2 N2 V2 R2 U2 P2].
  split; try congruence.
  - rewrite T1, list_insert_insert_eq in F2. unfold io_frame in *. rewrite F2, F1. by destruct s1.
  - rewrite I2, I1. by destruct ip1.
  - intros k Hk. rewrite K2; [by apply K1|]. by rewrite K1.
  - intros k Hk. by rewrite L2, L1.
  - intros k Hk E0 Hne. destruct (decide (addr_of ip2 k = 0)) as [E2|E2].
    + destruct (N2 k Hk E2 Hne) as [Hf Hu]. unfold fs_block in *. rewrite B1 in Hf. split; [done|].
      destruct (used s1 (addr_of ip3 k)) eqn:E; [|done]. by rewrite (U1 _ Hf E) in Hu.
    + rewrite (K2 k E2) in *. by apply N1.
  - intros b Hb Hu. apply U2; [|by apply U1]. unfold fs_block in *. by rewrite B1.
  - intros b Hb Hk. rewrite P2; [by apply P1|..].
    + apply (plain_block_step s1); try done; [by apply U1; apply Hb|by rewrite P1; [apply Hb|..]].
    + intros k Hlt E. destruct (decide (addr_of ip1 k = 0)) as [E0|E0]; [|by apply (Hk k Hlt); rewrite <- K1].
      destruct (N1 k Hlt E0) as [_ Hu]; rewrite E in *; [|by rewrite (pb_used _ _ Hb) in Hu].
      apply Hb.
Qed.

(** ** Room in the transaction *)

(** [n] more blocks fit, and the buffers in use are those of the transaction. *)
Definition budget (n : nat) s (bl : list Z) : Prop := (exists R, may_log me pid n s bl R) /\ pins s bl.

Lemma budget_le n m s bl : (m <= n)%nat -> budget n s bl -> budget m s bl.
Proof. intros Hle [(R & Hm) Hp]. split; [exists R; by eapply may_log_le|done]. Qed.

Lemma budget_cache n s bl : budget n s bl -> bcache_ok pid [] s.
Proof. intros [(R & [[_ H _ _ _ _] _ _ _ _]) _]. done. Qed.

Lemma balloc_budget n s bl :
  budget (S (S n)) s bl -> bitmap_ok s ->
  (exists b s', balloc ROOTDEV s = Ok b s' /\ first_free s b /\ taken me pid s bl b s' /\
     budget n s' (logged b (logged (BBLOCK b (sb s)) bl))) \/
  (exists s', balloc ROOTDEV s = Ok 0 s' /\ same_view pid s s' /\ forall b, fs_block s b -> used s b = true).
Proof.
  intros [(R & Hm) Hp] Hb. destruct (balloc_run me pid n s bl R Hm Hb) as [(b & s' & H & Hf & [T Hm'])|H]; [|by right].
  left. exists b, s'. split_and!; try done. split; [by eexists|by apply T].
Qed.

Lemma same_view_budget n s s' bl : same_view pid s s' -> budget n s bl -> budget n s' bl.
Proof.
  intros Hs [(R & Hm) Hp]. split; [exists R; by eapply same_view_may_log|]. intros b. by rewrite (sv_refs _ _ _ Hs).
Qed.

Lemma same_view_plain s s' b : same_view pid s s' -> plain_block s b -> plain_block s' b.
Proof.
  intros S Hb. pose proof (sv_frame _ _ _ S) as F. apply (plain_block_step s); try done.
  - by apply io_frame_sb.
  - by rewrite (io_frame_lg _ _ F).
  - rewrite (same_view_used _ _ _ _ S). apply Hb.
  - rewrite (sv_view _ _ _ S). apply Hb.
Qed.

Lemma same_view_inv s s' : same_view pid s s' -> fs_inv s -> fs_inv s'.
Proof.
  intros S [Hb [H0 H0u] Hst Hi]. pose proof (io_frame_sb _ _ (sv_frame _ _ _ S)) as Hsb. split; [by eapply same_view_bitmap| |by rewrite Hsb|].
  - unfold fs_block in *. rewrite Hsb. split; [done|]. by rewrite (same_view_used _ _ _ _ S).
  - intros inum Hn. unfold inode_number in Hn. rewrite Hsb in *. by apply (same_view_plain s), Hi.
Qed.

Lemma same_view_direct s s' ip : same_view pid s s' -> direct_ok s ip -> direct_ok s' ip.
Proof.
  intros S [H1 H2 H3 H4]. pose proof (io_frame_sb _ _ (sv_frame _ _ _ S)) as Hsb. split; try done.
  intros k Hk Hk0. destruct (H3 k Hk Hk0) as [Hp Hi]. unfold inode_number. rewrite Hsb. split; [by eapply same_view_plain|done].
Qed.

Lemma same_view_grows s s' i ip :
  same_view pid s s' -> itab s !! i = Some ip -> fs_inv s -> direct_ok s ip -> grows s i ip s' ip.
Proof.
  intros S Hi Hinv Hd. pose proof (same_view_inv _ _ S Hinv). pose proof (same_view_direct _ _ _ S Hd). pose proof (sv_frame _ _ _ S) as F.
  pose proof (io_frame_lg _ _ F) as Hlg. split; rewrite ?Hlg; try done; try apply S.
  - rewrite list_insert_id by done. unfold io_frame in *. rewrite F at 1. by destruct s.
  - by destruct ip.
  - intros b _. by rewrite (same_view_used _ _ _ _ S).
  - intros b _ _. apply S.
Qed.

(** ** Taking a block *)

Lemma taken_sb s bl b s' : taken me pid s bl b s' -> sb s' = sb s.
Proof. intros T. pose proof (tk_frame _ _ _ _ _ _ T) as F. by rewrite F. Qed.

Lemma taken_plain s bl b s' x :
  taken me pid s bl b s' -> fs_block s b -> used s b = false -> plain_block s x ->
  x <> b /\ view s' x = view s x /\ plain_block s' x.
Proof.
  intros T Hb Hu Hx. pose proof (taken_sb _ _ _ _ T) as Hsb. assert (x <> b) as Hne by (intros ->; rewrite (pb_used _ _ Hx) in Hu; done).
  assert (view s' x = view s x) as Hv by (apply (tk_rest _ _ _ _ _ _ T); [done|]; apply not_eq_sym; by apply Hx).
  split_and!; [done|done|]. apply (plain_block_step s); [done|done|apply T| |rewrite Hv; apply Hx].
  rewrite (tk_used _ _ _ _ _ _ T) by apply Hx. by rewrite (pb_used _ _ Hx), orb_true_r.
Qed.

Lemma taken_new s bl b s' :
  taken me pid s bl b s' -> bitmap_ok s -> fs_block s b -> used s b = false -> b <> 0 -> plain_block s' b.
Proof.
  intros T Hbm Hb Hu H0. pose proof (taken_sb _ _ _ _ T) as Hsb. destruct (bm_free _ Hbm b Hb Hu) as [Hh Hn].
  split; unfold fs_block in *; rewrite ?Hsb, ?(tk_start _ _ _ _ _ _ T); try done.
  - rewrite (tk_used _ _ _ _ _ _ T) by done. by rewrite Z.eqb_refl.
  - rewrite (tk_zero _ _ _ _ _ _ T). by rewrite length_replicate.
Qed.

Lemma taken_inv s bl b s' :
  taken me pid s bl b s' -> fs_inv s -> fs_block s b -> used s b = false -> fs_inv s'.
Proof.
  intros T [Hbm [H0 H0u] Hst Hin] Hb Hu. pose proof (taken_sb _ _ _ _ T) as Hsb. split; [apply T| |by rewrite Hsb|].
  - unfold fs_block in *. rewrite Hsb. split; [done|]. rewrite (tk_used _ _ _ _ _ _ T) by done. by rewrite H0u, orb_true_r.
  - intros inum Hi. unfold inode_number in Hi. rewrite Hsb in *. by apply (taken_plain _ _ _ _ _ T Hb Hu), Hin.
Qed.

Lemma addr_of_set k j a ip : (k < length (i_addrs ip))%nat -> addr_of (set_addr k a ip) j = if decide (j = k) then a else addr_of ip j.
Proof.
  intros Hk. unfold addr_of, set_addr. cbn [i_addrs set_i_addrs]. case_decide as E.
  - subst. by rewrite list_lookup_insert_eq.
  - by rewrite list_lookup_insert_ne by done.
Qed.

Lemma taken_direct s bl b s' ip k :
  taken me pid s bl b s' -> fs_inv s -> fs_block s b -> used s b = false -> b <> 0 -> direct_ok s ip -> (k < 12)%nat ->
  addr_of ip k = 0 -> direct_ok s' (set_addr k b ip).
Proof.
  intros T [Hbm _ _ Hin] Hb Hu H0 [Hdev Hlen Hbl Hap] Hk Hk0. pose proof (taken_sb _ _ _ _ T) as Hsb.
  assert (Ha : forall j, addr_of (set_addr k b ip) j = if decide (j = k) then b else addr_of ip j) by (intros j; apply addr_of_set; lia).
  assert (Hne : forall j, (j < 12)%nat -> addr_of ip j <> 0 -> addr_of ip j <> b).
  { intros j Hj Hj0. destruct (Hbl j Hj Hj0) as [Hp _]. by apply (taken_plain _ _ _ _ _ T Hb Hu Hp). }
  split; [done|cbn; by rewrite length_insert|..].
  - intros j Hj. rewrite Ha. unfold inode_number. rewrite Hsb. case_decide as E; intros Hj0.
    + split; [by eapply taken_new|]. intros inum Hi E'. specialize (Hin inum Hi). rewrite E' in Hin. by rewrite (pb_used _ _ Hin) in Hu.
    + destruct (Hbl j Hj Hj0) as [Hp Hi]. split; [by apply (taken_plain _ _ _ _ _ T Hb Hu Hp)|done].
  - intros j j' Hj Hj'. rewrite !Ha. repeat case_decide; subst; try done.
    + intros _ E. destruct (decide (addr_of ip j' = 0)); [congruence|]. by destruct (Hne j' Hj').
    + intros Hj0 E. by destruct (Hne j Hj Hj0).
    + by apply Hap.
Qed.

Lemma fs_inv_itab t s : fs_inv s -> fs_inv (set_itab t s).
Proof. intros [[B1 B2 B3 B4] H0 Hs Hi]. split; [by split|done|done|]. intros inum Hn. by destruct (Hi inum Hn); split. Qed.

Lemma direct_ok_itab t s ip : direct_ok s ip -> direct_ok (set_itab t s) ip.
Proof.
  intros [H1 H2 H3 H4]. split; try done. intros k Hk H0. destruct (H3 k Hk H0) as [Hp Hi]. split; [by destruct Hp; split|done].
Qed.

Lemma budget_itab t n s bl : budget n s bl -> budget n (set_itab t s) bl.
Proof.
  intros [(R & [[Hc Hok Hl Hln Ho Hp] Hr Hus Hs Hlg]) Hpn]. split; [|done]. exists R. split; try done.
  split; try done; [by apply set_itab_ctx|by apply set_itab_cache].
Qed.

Lemma taken_grows s bl b s' i ip k :
  taken me pid s bl b s' -> fs_inv s -> fs_block s b -> used s b = false -> b <> 0 -> direct_ok s ip -> (k < 12)%nat ->
  addr_of ip k = 0 -> grows s i ip (set_itab (<[i := set_addr k b ip]> (itab s')) s') (set_addr k b ip).
Proof.
  intros T Hinv Hb Hu H0 Hd Hk Hk0. pose proof (tk_frame _ _ _ _ _ _ T) as F. assert (Ti : itab s' = itab s) by by rewrite F.
  assert (Ha : forall j, addr_of (set_addr k b ip) j = if decide (j = k) then b else addr_of ip j)
    by (intros j; apply addr_of_set; rewrite (dr_len _ _ Hd); lia).
  split; try apply T.
  - rewrite Ti. unfold io_frame in *. cbn [lg set_itab]. rewrite F. by destruct s.
  - done.
  - intros j Hj. rewrite Ha. case_decide; [by subst|done].
  - intros j Hj. rewrite Ha. case_decide; [lia|done].
  - intros j Hj Hj0. rewrite Ha. case_decide; [done|]. by intros [].
  - by apply fs_inv_itab, (taken_inv s bl b).
  - by apply direct_ok_itab, (taken_direct s bl).
  - intros x Hx Hxu. change (used s' x = true). rewrite (tk_used _ _ _ _ _ _ T) by done. by rewrite Hxu, orb_true_r.
  - intros x Hx _. by apply (taken_plain _ _ _ _ x T Hb Hu Hx).
Qed.

(** [bmap] of a direct block: it is there, or taken, or the disk is full. *)
Lemma bmap_direct_run n s bl i ip k :
  budget (S (S n)) s bl -> fs_inv s -> itab s !! i = Some ip -> direct_ok s ip -> (k < 12)%nat ->
  (exists a s' ip' bl', bmap i (Z.of_nat k) s = Ok a s' /\ addr_of ip' k = a /\ a <> 0 /\ grows s i ip s' ip' /\ budget n s' bl' /\
     (forall b, plain_block s b -> view s' b = view s b)) \/
  (exists s', bmap i (Z.of_nat k) s = Ok 0 s' /\ same_view pid s s' /\ forall b, fs_block s b -> used s b = true).
Proof.
  intros Hbg Hinv Hi Hd Hk. unfold bmap. change NDIRECT with 12. rewrite (proj2 (Z.ltb_lt _ _)), Nat2Z.id by lia. unfold bmap_slot.
  rewrite bind_run, (geti_run s i ip Hi). cbn [obind]. destruct (Z.eqb_spec (addr_of ip k) 0) as [E0|E0].
  2:{ left. exists (addr_of ip k), s, ip, bl. split_and!; try done; [|by apply (budget_le (S (S n))); [lia|]].
      apply grows_refl; try done. by eapply budget_cache. }
  rewrite (dr_dev _ _ Hd). destruct (balloc_budget n s bl Hbg (fi_bitmap _ Hinv)) as [(b & s' & E & Hf & T & Hbg')|(s' & E & S & Hall)].
  2:{ right. exists s'. split_and!; try done. by kstep E. }
  left. destruct Hf as (Hb & Hu & _). assert (b <> 0) as H0 by (intros ->; by rewrite (proj2 (fi_boot _ Hinv)) in Hu).
  pose proof (tk_frame _ _ _ _ _ _ T) as F. assert (Hi' : itab s' !! i = Some ip) by by rewrite F.
  set (ip' := set_addr k b ip). set (s2 := set_itab (<[i := ip']> (itab s')) s').
  exists b, s2, ip', (logged b (logged (BBLOCK b (sb s)) bl)). split_and!.
  - kstep E. rewrite (proj2 (Z.eqb_neq _ _) H0). by kstep (seti_run s' i (set_addr k b) ip Hi').
  - unfold ip'. rewrite addr_of_set by (rewrite (dr_len _ _ Hd); lia). by rewrite decide_True.
  - done.
  - by apply (taken_grows s bl).
  - by apply budget_itab.
  - intros x Hx. by apply (taken_plain _ _ _ _ x T Hb Hu Hx).
Qed.

(** ** Changing a block *)

(** A plain block gets new contents in the transaction; nothing else changes. *)
Record put s (bl : list Z) (a : Z) (d : list Z) s' : Prop := {
  pt_step : logged_step me pid s (logged a bl) (fun x => if x =? a then d else view s x) s';
  pt_inv : fs_inv s';
  pt_used : forall b, fs_block s b -> used s' b = used s b;
  pt_plain : forall x, plain_block s x -> plain_block s' x
}.

Lemma put_run n s bl a f :
  budget (S n) s bl -> fs_inv s -> plain_block s a -> length (f (view s a)) = Z.to_nat BSIZE ->
  exists b s1 s2, bread ROOTDEV a s = Ok b s1 /\ io_frame s s1 /\ (set_data b f ;; log_write b ;; brelse b) s1 = Ok tt s2 /\
    put s bl a (f (view s a)) s2 /\ budget n s2 (logged a bl).
Proof.
  intros [(R & Hm) Hpn] [Hbm [H0 H0u] Hst Hin] Ha Hlen.
  destruct (update_block me pid n s bl R a f Hm (pb_home _ _ Ha)) as (b & x & s1 & s2 & E1 & _ & _ & E2 & L & M & F1 & N).
  exists b, s1, s2. split_and!; try done.
  2:{ split; [by eexists|by apply N]. }
  pose proof L as [_ V B St _ _ _ _ _].
  assert (Hu : forall y, fs_block s y -> used s2 y = used s y).
  { intros y Hy. unfold used. rewrite B, V. by rewrite (proj2 (Z.eqb_neq _ _) (pb_bitmap _ _ Ha y Hy)). }
  assert (Hp : forall y, plain_block s y -> plain_block s2 y).
  { intros y Hy. apply (plain_block_step s); try done; [rewrite Hu; apply Hy|]. rewrite V. destruct (Z.eqb_spec y a) as [->|]; [done|apply Hy]. }
  split; try done. split.
  - apply (bitmap_ok_step s s2 Hbm B St).
    + intros y Hy. rewrite V. by rewrite (proj2 (Z.eqb_neq _ _) (pb_bitmap _ _ Ha y Hy)).
    + intros y Hy. rewrite Hu by done. by apply bm_free.
  - unfold fs_block in *. rewrite B. split; [done|]. by rewrite Hu.
  - by rewrite B.
  - intros inum Hi. unfold inode_number in Hi. rewrite B in *. by apply Hp, Hin.
Qed.

Lemma put_sb s bl a d s' : put s bl a d s' -> sb s' = sb s.
Proof. intros [L _ _ _]. apply L. Qed.

Lemma put_direct s bl a d s' ip : put s bl a d s' -> direct_ok s ip -> direct_ok s' ip.
Proof.
  intros P [H1 H2 H3 H4]. split; try done. intros k Hk Hk0. destruct (H3 k Hk Hk0) as [Hp Hi].
  unfold inode_number. rewrite (put_sb _ _ _ _ _ P). split; [by apply P|done].
Qed.

(** A block of the file itself. *)
Lemma put_grows s bl i ip k d s' :
  put s bl (addr_of ip k) d s' -> itab s !! i = Some ip -> direct_ok s ip -> (k < 12)%nat -> addr_of ip k <> 0 -> grows s i ip s' ip.
Proof.
  intros P Hi Hd Hk Hk0. pose proof (put_direct _ _ _ _ _ _ P Hd) as Hd'. destruct P as [[_ V B St O C D Wr F] Hinv Hu Hp].
  split; try done.
  - rewrite list_insert_id by done. unfold io_frame in *. rewrite F at 1. by destruct s.
  - by destruct ip.
  - intros b Hb Hub. by rewrite Hu.
  - intros b Hb Hne. rewrite V. rewrite (proj2 (Z.eqb_neq _ _)); [done|]. apply not_eq_sym. by apply Hne.
Qed.

(** ** Bytes *)

Lemma lookup_overwrite o bs d j :
  (o + length bs <= length d)%nat ->
  overwrite o bs d !! j = if decide (o <= j < o + length bs)%nat then bs !! (j - o)%nat else d !! j.
Proof.
  intros Hl. unfold overwrite. assert (Lt : length (take o d) = o) by (rewrite length_take; lia). case_decide as H.
  - rewrite lookup_app_r, Lt by lia. by rewrite lookup_app_l by lia.
  - destruct (decide (j < o)%nat).
    + rewrite lookup_app_l by lia. by rewrite lookup_take_lt by lia.
    + rewrite lookup_app_r, Lt by lia. rewrite lookup_app_r by lia. rewrite lookup_drop. f_equal. lia.
Qed.

Lemma length_overwrite o bs d : (o + length bs <= length d)%nat -> length (overwrite o bs d) = length d.
Proof. intros H. unfold overwrite. rewrite !length_app, length_take, length_drop. lia. Qed.

(** The bytes [bs] are at [off], the others are as they were. *)
Definition splices (v : Z -> list Z) (ip : inode) (v' : Z -> list Z) (ip' : inode) (off : nat) (bs : list Z) : Prop :=
  forall x, (x < 12 * 1024)%nat ->
    if decide (off <= x < off + length bs)%nat then addr_of ip' (x / 1024) <> 0 /\ byte_of v' ip' x = bs !! (x - off)%nat
    else addr_of ip (x / 1024) <> 0 -> byte_of v' ip' x = byte_of v ip x.

Lemma block_lt x : (x < 12 * 1024)%nat -> (x / 1024 < 12)%nat.
Proof. intros H. apply Nat.Div0.div_lt_upper_bound. lia. Qed.

Lemma splices_nil v ip off : splices v ip v ip off [].
Proof. intros x Hx. rewrite decide_False by (cbn; lia). done. Qed.

Lemma splices_app v ip v1 ip1 v2 ip2 off bs1 bs2 :
  splices v ip v1 ip1 off bs1 -> splices v1 ip1 v2 ip2 (off + length bs1) bs2 ->
  (forall k, addr_of ip k <> 0 -> addr_of ip1 k = addr_of ip k) -> (forall k, addr_of ip1 k <> 0 -> addr_of ip2 k = addr_of ip1 k) ->
  splices v ip v2 ip2 off (bs1 ++ bs2).
Proof.
  intros H1 H2 K1 K2 x Hx. specialize (H1 x Hx). specialize (H2 x Hx). rewrite length_app.
  destruct (decide (off + length bs1 <= x < off + length bs1 + length bs2)%nat) as [Hr|Hr].
  - rewrite decide_True by lia. destruct H2 as [Ha Hb]. split; [done|]. rewrite Hb, lookup_app_r by lia. f_equal. lia.
  - destruct (decide (off <= x < off + length bs1)%nat) as [Hr1|Hr1].
    + rewrite decide_True by lia. destruct H1 as [Ha Hb]. rewrite K2 by done. split; [done|]. rewrite H2, Hb by done. by rewrite lookup_app_l by lia.
    + rewrite decide_False by lia. intros Ha. rewrite H2; [by apply H1|]. by rewrite K1.
Qed.

(** One block after its [put]. *)
Lemma put_splices s bl ip k o bs s' :
  put s bl (addr_of ip k) (overwrite o bs (view s (addr_of ip k))) s' -> direct_ok s ip -> (k < 12)%nat -> addr_of ip k <> 0 ->
  (o + length bs <= 1024)%nat -> splices (view s) ip (view s') ip (1024 * k + o) bs.
Proof.
  intros [[_ V _ _ _ _ _ _ _] _ _ _] Hd Hk Hk0 Ho x Hx. unfold byte_of. rewrite V.
  assert (Lv : length (view s (addr_of ip k)) = 1024%nat) by (apply (dr_block _ _ Hd k Hk Hk0)).
  pose proof (block_lt x Hx) as Hq. clear Hx. remember 1024%nat as B eqn:HB.
  pose proof (Nat.div_mod_eq x B) as Ex. pose proof (Nat.mod_upper_bound x B ltac:(lia)) as Hm.
  set (q := (x / B)%nat) in *. set (r := (x mod B)%nat) in *.
  destruct (decide (q = k)) as [->|E].
  - rewrite Z.eqb_refl, lookup_overwrite by lia. rewrite (decide_ext (o <= r < o + length bs)%nat (B * k + o <= x < B * k + o + length bs)%nat) by lia.
    case_decide as Hr; [|done]. split; [done|]. f_equal. lia.
  - rewrite decide_False; [|nia]. intros Hx0. rewrite (proj2 (Z.eqb_neq _ _)); [done|]. intros Ea. apply E. by apply (dr_apart _ _ Hd).
Qed.

(** Taking a block keeps the bytes of the others. *)
Lemma grows_splices s i ip s' ip' off :
  grows s i ip s' ip' -> direct_ok s ip -> (forall b, plain_block s b -> view s' b = view s b) -> splices (view s) ip (view s') ip' off [].
Proof.
  intros G Hd Hv x Hx. rewrite decide_False by (cbn; lia). intros Hx0. unfold byte_of. rewrite (gr_keep _ _ _ _ _ G) by done.
  rewrite Hv; [done|]. apply (dr_block _ _ Hd); [by apply block_lt|done].
Qed.

(** ** The inode on disk *)

Lemma inode_apart s i j :
  fs_inv s -> inode_number s i -> inode_number s j -> i <> j -> IBLOCK i (sb s) = IBLOCK j (sb s) -> i `mod` IPB <> j `mod` IPB.
Proof.
  intros [_ _ Hst _] Hi Hj Hne E. unfold inode_number in *. unfold IBLOCK in E. change IPB with 16 in *.
  rewrite (u32_small i), (u32_small j), !u32_small in E by (unfold is_u32; Z.div_mod_to_equations; lia). Z.div_mod_to_equations. lia.
Qed.

Lemma iupdate_run n s bl i ip :
  budget (S n) s bl -> fs_inv s -> itab s !! i = Some ip -> i_dev ip = ROOTDEV -> inode_number s (i_inum ip) -> dinode_ok (to_dinode ip) ->
  exists s', iupdate i s = Ok tt s' /\
    put s bl (IBLOCK (i_inum ip) (sb s)) (put_dinode (to_dinode ip) (dinode_off (i_inum ip)) (view s (IBLOCK (i_inum ip) (sb s)))) s' /\
    budget n s' (logged (IBLOCK (i_inum ip) (sb s)) bl) /\
    dinode_on (view s') (sb s') (i_inum ip) = to_dinode ip /\
    forall j, inode_number s j -> j <> i_inum ip -> dinode_on (view s') (sb s') j = dinode_on (view s) (sb s) j.
Proof.
  intros Hbg Hinv Hi Hdev Hn Hok. set (inum := i_inum ip) in *. set (f := put_dinode (to_dinode ip) (dinode_off inum)).
  pose proof (fi_inodes _ Hinv inum Hn) as Hpb. set (b := IBLOCK inum (sb s)) in *.
  destruct (put_run n s bl b f Hbg Hinv Hpb) as (bp & s1 & s2 & E1 & F1 & E2 & P & Hbg2).
  { unfold f. rewrite length_put_dinode. apply Hpb. }
  exists s2. split_and!; try done.
  - unfold iupdate. rewrite bind_run. cbn [gets obind]. kstep (geti_run s i ip Hi). rewrite Hdev. fold inum b. by kstep E1.
  - pose proof P as [[_ V B _ _ _ _ _ _] _ _ _]. unfold dinode_on. rewrite B. fold b. rewrite V, Z.eqb_refl. apply get_put_dinode; [|done].
    rewrite (pb_len _ _ Hpb). apply dinode_off_bound.
  - intros j Hj Hne. pose proof P as [[_ V B _ _ _ _ _ _] _ _ _]. unfold dinode_on. rewrite B, V.
    destruct (Z.eqb_spec (IBLOCK j (sb s)) b) as [E|]; [|done]. rewrite E. apply get_put_dinode_other; [apply Hok|].
    apply dinode_off_apart. apply not_eq_sym. by eapply inode_apart.
Qed.

(** ** The bytes of the file *)

Lemma lookup_block_bytes v ip n x :
  (forall k, 0 <= k < n -> length (v (block_of v ip k)) = Z.to_nat BSIZE) -> Z.of_nat x < BSIZE * n ->
  block_bytes v ip n !! x = v (block_of v ip (Z.of_nat (x / 1024))) !! (x mod 1024)%nat.
Proof.
  intros Hl Hx. pose proof (block_bytes_piece v ip n (Z.of_nat x) 1 Hl ltac:(lia)) as H.
  pose proof (Z.mod_pos_bound (Z.of_nat x) BSIZE eq_refl). specialize (H ltac:(lia)). change BSIZE with (Z.of_nat 1024) in H.
  rewrite <- Nat2Z.inj_mod, <- Nat2Z.inj_div, !Nat2Z.id in H. apply (f_equal (lookup 0%nat)) in H.
  rewrite !lookup_take_lt, !lookup_drop, !Nat.add_0_r in H by (cbn; lia). done.
Qed.

Lemma lookup_file_bytes v ip x :
  file_ok v ip -> i_size ip <= NDIRECT * BSIZE -> Z.of_nat x < i_size ip -> file_bytes v ip !! x = byte_of v ip x.
Proof.
  intros Hfo Hs Hx. unfold file_bytes. rewrite lookup_take_lt by lia. pose proof (blocks_for_bounds (i_size ip) ltac:(lia)) as Hb.
  rewrite lookup_block_bytes; [|intros; by apply Hfo|lia]. unfold byte_of, block_of. change NDIRECT with 12 in *.
  assert (x / 1024 < 12)%nat by (apply block_lt; change BSIZE with 1024 in *; lia).
  by rewrite (proj2 (Z.ltb_lt _ _)), Nat2Z.id by lia.
Qed.
Lemma splices_file v ip v' ip' (off : nat) bs :
  file_ok v ip -> i_size ip <= NDIRECT * BSIZE -> Z.of_nat off <= i_size ip -> Z.of_nat (off + length bs) <= NDIRECT * BSIZE ->
  splices v ip v' ip' off bs -> (forall k, addr_of ip k <> 0 -> addr_of ip' k = addr_of ip k) ->
  i_size ip' = Z.max (i_size ip) (Z.of_nat (off + length bs)) -> i_dev ip' = ROOTDEV ->
  (forall k, (k < 12)%nat -> addr_of ip' k <> 0 -> length (v' (addr_of ip' k)) = Z.to_nat BSIZE) ->
  file_ok v' ip' /\ file_bytes v' ip' = overwrite off bs (file_bytes v ip).
Proof.
  intros Hfo Hs Hoff Hend Hsp Hkeep Hsz Hdev Hlen. pose proof (fo_size _ _ Hfo) as Hs0. change NDIRECT with 12 in *. change BSIZE with 1024 in *.
  pose proof (blocks_for_bounds (i_size ip) ltac:(lia)) as Hb0. pose proof (blocks_for_bounds (i_size ip') ltac:(lia)) as Hb1. change BSIZE with 1024 in *.
  assert (H12 : Readi.blocks_for (i_size ip) <= 12 /\ Readi.blocks_for (i_size ip') <= 12 /\
    (0 < Readi.blocks_for (i_size ip') -> 1024 * (Readi.blocks_for (i_size ip') - 1) < i_size ip')).
  { unfold Readi.blocks_for. change BSIZE with 1024. Z.div_mod_to_equations. lia. }
  assert (Hblk : forall k, 0 <= k -> k < 12 -> block_of v ip k = addr_of ip (Z.to_nat k) /\ block_of v' ip' k = addr_of ip' (Z.to_nat k)).
  { intros k Hk Hk'. unfold block_of. change NDIRECT with 12. by rewrite (proj2 (Z.ltb_lt _ _)) by lia. }
  assert (Haddr : forall k, 0 <= k < Readi.blocks_for (i_size ip') -> k < 12 /\ addr_of ip' (Z.to_nat k) <> 0).
  { intros k Hk. split; [lia|]. destruct (decide (k < Readi.blocks_for (i_size ip))) as [Hlt|Hge].
    - destruct (fo_block _ _ Hfo k ltac:(lia)) as [Hn _]. rewrite (proj1 (Hblk k ltac:(lia) ltac:(lia))) in Hn. by rewrite Hkeep.
    - assert (Hx : (Z.to_nat k * 1024 < 12 * 1024)%nat) by lia. specialize (Hsp (Z.to_nat k * 1024)%nat Hx).
      rewrite decide_True in Hsp by lia. rewrite Nat.div_mul in Hsp by lia. apply Hsp. }
  assert (Hfo' : file_ok v' ip').
  { split; [done|change (MAXFILE * BSIZE) with 274432; lia|]. intros k Hk. destruct (Haddr k Hk) as [Hk12 Hn].
    rewrite (proj2 (Hblk k ltac:(lia) Hk12)). split; [done|]. apply Hlen; [lia|done]. }
  split; [done|]. pose proof (length_file_bytes _ _ Hfo) as L0. pose proof (length_file_bytes _ _ Hfo') as L1.
  apply list_eq. intros x. destruct (decide (Z.of_nat x < i_size ip')) as [Hx|Hx].
  2:{ rewrite !lookup_ge_None_2; [done| |lia]. unfold overwrite. rewrite !length_app, length_take, length_drop. lia. }
  rewrite lookup_file_bytes by (try done; change NDIRECT with 12; change BSIZE with 1024; lia).
  specialize (Hsp x ltac:(lia)). unfold overwrite. assert (Lt : length (take off (file_bytes v ip)) = off) by (rewrite length_take; lia).
  destruct (decide (off <= x < off + length bs)%nat) as [Hr|Hr].
  - rewrite lookup_app_r, Lt, lookup_app_l by lia. apply Hsp.
  - assert (Hxs : Z.of_nat x < i_size ip) by lia.
    rewrite Hsp.
    + rewrite <- lookup_file_bytes by (try done; change NDIRECT with 12; change BSIZE with 1024; lia). destruct (decide (x < off)%nat).
      * rewrite lookup_app_l by lia. by rewrite lookup_take_lt by lia.
      * rewrite lookup_app_r, Lt, lookup_app_r, lookup_drop by lia. f_equal. lia.
    + assert (Hk : 0 <= Z.of_nat (x / 1024) < Readi.blocks_for (i_size ip)).
      { rewrite Nat2Z.inj_div. change (Z.of_nat 1024) with 1024. split; [apply Z.div_pos; lia|apply Z.div_lt_upper_bound; lia]. }
      destruct (fo_block _ _ Hfo _ Hk) as [Hn _]. rewrite (proj1 (Hblk (Z.of_nat (x / 1024)) ltac:(lia) ltac:(lia))), Nat2Z.id in Hn. done.
Qed.

(** ** The loop of [writei] *)

Section Source.
Context {A : Type} (get : A -> Z -> K (list Z * bool * A)) (Src : A -> list Z -> kernel -> Prop).

(** [get] hands out the bytes that are left at a place, and keeps doing so while the
    file system works. *)
Record supplies : Prop := {
  sp_get : forall a l m s, Src a l s -> 0 <= m <= length l ->
    exists a', get a m s = Ok (take (Z.to_nat m) l, true, a') s /\ Src a' (drop (Z.to_nat m) l) s;
  sp_frame : forall a l s s', io_frame (set_itab (itab s') (set_lg (lg s') s)) s' -> Src a l s -> Src a l s'
}.

Lemma grows_src a l s i ip s' ip' : supplies -> grows s i ip s' ip' -> Src a l s -> Src a l s'.
Proof.
  intros Hs G. apply (sp_frame Hs). rewrite (grows_itab _ _ _ _ _ G). apply G.
Qed.

(** Every block is in use. *)
Definition full s : Prop := forall b, fs_block s b -> used s b = true.

(** A write from [s] on stopped after [r] bytes, at the end of a block, because the disk is full. *)
Definition stopped s (off r : Z) s' : Prop := full s' /\ (r = 0 \/ (off + r) `mod` BSIZE = 0) /\ (r = 0 -> full s).

(** One turn: the piece up to the end of the block is written, or the disk is full. *)
Lemma write_turn f n s bl i ip tot off N a l :
  let m := Z.min (N - tot) (BSIZE - off `mod` BSIZE) in
  supplies -> budget (S (S (S n))) s bl -> fs_inv s -> itab s !! i = Some ip -> direct_ok s ip ->
  0 <= off -> off + (N - tot) <= NDIRECT * BSIZE -> tot < N -> length l = Z.to_nat (N - tot) -> Src a l s ->
  (exists a' s' ip' bl', writei_loop get (S f) i tot off N a s = writei_loop get f i (tot + m) (off + m) N a' s' /\
     grows s i ip s' ip' /\ splices (view s) ip (view s') ip' (Z.to_nat off) (take (Z.to_nat m) l) /\
     budget n s' bl' /\ Src a' (drop (Z.to_nat m) l) s') \/
  (exists s', writei_loop get (S f) i tot off N a s = Ok (tot, off) s' /\ same_view pid s s' /\ forall b, fs_block s b -> used s b = true).
Proof.
  intros m Hsp Hbg Hinv Hi Hd Hoff Hend Htot Hl Hsrc. cbn [writei_loop]. rewrite (proj2 (Z.ltb_lt _ _) Htot).
  change BSIZE with 1024 in *. change (NDIRECT * 1024) with 12288 in Hend.
  assert (Hk : 0 <= off / 1024 < 12) by (Z.div_mod_to_equations; lia). set (k := Z.to_nat (off / 1024)).
  pose proof (Z.mod_pos_bound off 1024 eq_refl) as Hmod. assert (Ek : off / 1024 = Z.of_nat k) by (unfold k; lia). rewrite Ek.
  destruct (bmap_direct_run (S n) s bl i ip k Hbg Hinv Hi Hd ltac:(lia)) as [(b & s1 & ip1 & bl1 & E1 & Ha & Hb0 & G1 & Hbg1 & V1)|(s1 & E1 & S1 & Hall)].
  2:{ right. exists s1. split_and!; try done. by kstep E1. }
  left. kstep E1. rewrite (proj2 (Z.eqb_neq _ _) Hb0). pose proof (gr_direct _ _ _ _ _ G1) as Hd1.
  assert (Hi1 : itab s1 !! i = Some ip1) by (rewrite (grows_itab _ _ _ _ _ G1); apply list_lookup_insert_eq; by eapply lookup_lt_Some).
  kstep (geti_run s1 i ip1 Hi1). rewrite (dr_dev _ _ Hd1). subst b.
  destruct (dr_block _ _ Hd1 k ltac:(lia) Hb0) as [Hpb _]. set (o := Z.to_nat (off `mod` 1024)). set (d := take (Z.to_nat m) l).
  assert (Hm : 0 <= m /\ m <= N - tot /\ m <= 1024 - off `mod` 1024) by (unfold m; lia).
  assert (Ld : length d = Z.to_nat m) by (unfold d; rewrite length_take; lia).
  assert (Lv : length (view s1 (addr_of ip1 k)) = Z.to_nat 1024) by apply Hpb.
  assert (Ho : (o + length d <= Z.to_nat 1024)%nat) by (rewrite Ld; unfold o; lia).
  destruct (put_run n s1 bl1 (addr_of ip1 k) (overwrite o d) Hbg1 (gr_inv _ _ _ _ _ G1) Hpb) as (bp & s2 & s3 & E2 & F2 & E3 & P3 & Hbg3).
  { rewrite length_overwrite; [done|by rewrite Lv]. }
  assert (Hsrc2 : Src a l s2).
  { apply (sp_frame Hsp a l s1); [|by eapply grows_src]. unfold io_frame in *. rewrite F2. by destruct s1. }
  destruct (sp_get Hsp a l m s2 Hsrc2 ltac:(lia)) as (a' & E4 & Hsrc4).
  pose proof (put_grows _ _ _ _ _ _ _ P3 Hi1 Hd1 ltac:(lia) Hb0) as G3.
  exists a', s3, ip1, (logged (addr_of ip1 k) bl1). split_and!.
  - kstep E2. cbv zeta. fold m. kstep E4. cbn [fst snd negb]. fold o d. exact (log_tail _ _ _ _ _ E3).
  - by eapply grows_trans.
  - pose proof (grows_splices _ _ _ _ _ (Z.to_nat off) G1 Hd V1) as Sp1. rewrite <- (app_nil_l d).
    eapply splices_app; [exact Sp1| |apply G1|apply G3]. cbn [length]. rewrite Nat.add_0_r.
    replace (Z.to_nat off) with (1024 * k + o)%nat by (unfold k, o; Z.div_mod_to_equations; lia).
    apply (put_splices s1 bl1); try done. lia.
  - done.
  - assert (Src a' (drop (Z.to_nat m) l) s1).
    { apply (sp_frame Hsp _ _ s2); [|done]. unfold io_frame in *. rewrite F2. by destruct s1. }
    by eapply grows_src.
Qed.

(** The blocks that a range touches. *)
Definition turns (off n : Z) : nat := if n <=? 0 then 0%nat else Z.to_nat ((off `mod` BSIZE + n + BSIZE - 1) / BSIZE).

Lemma turns_pos off n : 0 < n -> (0 < turns off n)%nat.
Proof.
  intros H. unfold turns. rewrite (proj2 (Z.leb_gt _ _)) by lia. pose proof (Z.mod_pos_bound off BSIZE eq_refl). change BSIZE with 1024 in *. Z.div_mod_to_equations. lia.
Qed.

Lemma turns_next off n :
  let m := Z.min n (BSIZE - off `mod` BSIZE) in 0 < n -> m < n -> turns off n = S (turns (off + m) (n - m)).
Proof.
  intros m Hn Hm. unfold turns, m in *. rewrite !(proj2 (Z.leb_gt _ _)) by lia. pose proof (Z.mod_pos_bound off BSIZE eq_refl). change BSIZE with 1024 in *.
  rewrite Z.min_r in * by lia. assert ((off + (1024 - off `mod` 1024)) `mod` 1024 = 0) as ->.
  { replace (off + (1024 - off `mod` 1024)) with ((off / 1024 + 1) * 1024) by (Z.div_mod_to_equations; lia). by apply Z.mod_mul. }
  Z.div_mod_to_equations. lia.
Qed.

Lemma writei_loop_run N c : supplies -> forall f s bl i ip tot off a l,
  budget (3 * turns off (N - tot) + c) s bl -> fs_inv s -> itab s !! i = Some ip -> direct_ok s ip ->
  0 <= off -> off + (N - tot) <= NDIRECT * BSIZE -> tot <= N -> length l = Z.to_nat (N - tot) -> Src a l s ->
  (turns off (N - tot) <= f)%nat ->
  exists r s' ip' bl', writei_loop get f i tot off N a s = Ok (tot + r, off + r) s' /\ 0 <= r <= N - tot /\
    grows s i ip s' ip' /\ splices (view s) ip (view s') ip' (Z.to_nat off) (take (Z.to_nat r) l) /\ budget c s' bl' /\
    (r = N - tot \/ stopped s off r s').
Proof.
  intros Hsp. induction f as [|f IH]; intros s bl i ip tot off a l Hbg Hinv Hi Hd Hoff Hend Htot Hl Hsrc Hf.
  all: destruct (decide (tot = N)) as [->|Hne]; [exists 0, s, ip, bl; rewrite !Z.add_0_r; split_and!; try done; try lia|].
  1,6: cbn [writei_loop]; by rewrite (proj2 (Z.ltb_ge _ _)) by lia.
  1,5: apply grows_refl; try done; by eapply budget_cache.
  1,4: apply splices_nil.
  1,3: apply (budget_le _ c) in Hbg; [done|lia].
  { pose proof (turns_pos off (N - tot) ltac:(lia)). lia. }
  assert (Hlt : tot < N) by lia. pose proof (turns_pos off (N - tot) ltac:(lia)) as Hpos.
  set (m := Z.min (N - tot) (BSIZE - off `mod` BSIZE)). pose proof (Z.mod_pos_bound off BSIZE eq_refl) as Hmod.
  assert (Hm : 0 < m <= N - tot) by (unfold m; lia).
  destruct (write_turn f (3 * (turns off (N - tot) - 1) + c) s bl i ip tot off N a l Hsp) as
    [(a' & s1 & ip1 & bl1 & E & G & Sp & Hbg1 & Hsrc1)|(s1 & E & S1 & Hall)]; try done.
  { apply (budget_le _ _ _ _ (le_n _)). by replace (S (S (S (3 * (turns off (N - tot) - 1) + c)))) with (3 * turns off (N - tot) + c)%nat by lia. }
  - fold m in E, Sp, Hsrc1. rewrite E. replace (N - tot - m) with (N - (tot + m)) in * by lia.
    assert (Hi1 : itab s1 !! i = Some ip1) by (rewrite (grows_itab _ _ _ _ _ G); apply list_lookup_insert_eq; by eapply lookup_lt_Some).
    assert (Hturn : (turns (off + m) (N - (tot + m)) <= turns off (N - tot) - 1)%nat).
    { destruct (decide (tot + m < N)) as [H|H].
      - replace (N - (tot + m)) with (N - tot - m) by lia. rewrite (turns_next off (N - tot)) by (fold m; lia). fold m. lia.
      - unfold turns at 1. rewrite (proj2 (Z.leb_le _ _)) by lia. lia. }
    destruct (IH s1 bl1 i ip1 (tot + m) (off + m) a' (drop (Z.to_nat m) l)) as (r & s2 & ip2 & bl2 & E2 & Hr & G2 & Sp2 & Hbg2 & Hend2);
      [|exact (gr_inv _ _ _ _ _ G)|done|exact (gr_direct _ _ _ _ _ G)|lia|lia|lia|rewrite length_drop; lia|done|lia|].
    { apply (budget_le (3 * (turns off (N - tot) - 1) + c)); [|done]. lia. }
    exists (m + r), s2, ip2, bl2. split_and!; try lia; [by rewrite E2, !Z.add_assoc|by eapply grows_trans| |done|].
    + assert (take (Z.to_nat (m + r)) l = take (Z.to_nat m) l ++ take (Z.to_nat r) (drop (Z.to_nat m) l)) as ->.
      { rewrite Z2Nat.inj_add by lia. by rewrite take_take_drop. }
      eapply splices_app; [exact Sp| |apply G|apply G2].
      replace (Z.to_nat off + length (take (Z.to_nat m) l))%nat with (Z.to_nat (off + m)) by (rewrite length_take; lia). done.
    + destruct Hend2 as [->|(H1 & H2 & _)]; [left; lia|]. destruct (decide (m + r = N - tot)) as [|Hlt']; [by left|right]. split_and!; [done| |lia].
      right. replace (off + (m + r)) with (off + m + r) by lia. destruct H2 as [->|H2]; [|done]. rewrite Z.add_0_r.
      unfold m in *. change BSIZE with 1024 in *. Z.div_mod_to_equations. lia.
  - exists 0, s1, ip, bl. rewrite !Z.add_0_r. split_and!; try done; try lia.
    + by eapply same_view_grows.
    + intros x Hx. change (take (Z.to_nat 0) l) with (@nil Z). rewrite decide_False by (cbn; lia). intros _.
      unfold byte_of. by rewrite (sv_view _ _ _ S1).
    + eapply same_view_budget; [exact S1|]. by eapply (budget_le _ c) in Hbg; [|lia].
    + right. split_and!; [|by left|done]. intros b Hb. rewrite (same_view_used _ _ _ _ S1). apply Hall. unfold fs_block in *. by rewrite <- (io_frame_sb _ _ (sv_frame _ _ _ S1)).
Qed.

(** ** [writei] *)

Lemma grows_dinode_ok s i ip s' ip' :
  grows s i ip s' ip' -> dinode_ok (to_dinode ip) -> dinode_ok (to_dinode ip').
Proof.
  intros G [H1 H2 H3 H4 H5 H6 H7]. pose proof (gr_inode _ _ _ _ _ G) as E. pose proof (gr_direct _ _ _ _ _ G) as Hd.
  split; try (rewrite E; done); [apply Hd|]. apply Forall_lookup. intros k a Hk. cbn [d_addrs to_dinode] in *.
  assert (Ea : addr_of ip' k = a) by (unfold addr_of; by rewrite Hk). apply lookup_lt_Some in Hk as Hlt.
  destruct (decide (12 <= k)%nat) as [Hge|Hlt12].
  - rewrite (gr_slots _ _ _ _ _ G) in Ea by done. rewrite (dr_len _ _ Hd) in Hlt. rewrite Forall_lookup in H7. apply (H7 k).
    unfold addr_of in Ea. destruct (lookup_lt_is_Some_2 (i_addrs ip) k ltac:(lia)) as [b Hb]. rewrite Hb in Ea. cbn in Ea. by subst.
  - unfold is_u32. destruct (decide (a = 0)) as [->|H0]; [lia|]. subst a. destruct (dr_block _ _ Hd k ltac:(lia) H0) as [Hp _].
    pose proof (pb_home _ _ Hp) as [Hh _]. lia.
Qed.

(** The file of inode [ip] now has the bytes [bs] at [off]; the inode is on the disk, and
    other files are as they were. *)
Record wrote s (i : nat) (ip : inode) (off : nat) (bs : list Z) s' (ip' : inode) : Prop := {
  wr_frame : io_frame (set_itab (<[i := ip']> (itab s)) (set_lg (lg s') s)) s';
  wr_start : lg_start (lg s') = lg_start (lg s);
  wr_out : lg_outstanding (lg s') = lg_outstanding (lg s);
  wr_com : lg_committing (lg s') = lg_committing (lg s);
  wr_disk : disk s' = disk s;
  wr_writes : writes s' = writes s;
  wr_inode : ip' = set_i_size (i_size ip') (set_i_addrs (i_addrs ip') ip);
  wr_size : i_size ip' = Z.max (i_size ip) (Z.of_nat (off + length bs));
  wr_file : file_ok (view s') ip';
  wr_bytes : file_bytes (view s') ip' = overwrite off bs (file_bytes (view s) ip);
  wr_dinode : dinode_on (view s') (sb s') (i_inum ip) = to_dinode ip';
  wr_inodes : forall j, inode_number s j -> j <> i_inum ip -> dinode_on (view s') (sb s') j = dinode_on (view s) (sb s) j;
  wr_inv : fs_inv s';
  wr_direct : direct_ok s' ip';
  wr_ok : dinode_ok (to_dinode ip');
  wr_used : forall b, fs_block s b -> used s b = true -> used s' b = true;
  wr_addr : forall k, (k < 12)%nat -> addr_of ip' k = addr_of ip k \/ used s (addr_of ip' k) = false;
  wr_others : forall b, plain_block s b -> (forall k, (k < 12)%nat -> addr_of ip k <> b) -> b <> IBLOCK (i_inum ip) (sb s) -> view s' b = view s b
}.

Lemma grows_addr s i ip s' ip' k :
  grows s i ip s' ip' -> (k < 12)%nat -> addr_of ip' k = addr_of ip k \/ used s (addr_of ip' k) = false.
Proof.
  intros G Hk. destruct (decide (addr_of ip k = 0)) as [E|E]; [|left; by apply G].
  destruct (decide (addr_of ip' k = 0)) as [E'|E']; [left; congruence|right]. by apply (gr_new _ _ _ _ _ G).
Qed.

Lemma grows_inodes s i ip s' ip' j :
  grows s i ip s' ip' -> fs_inv s -> direct_ok s ip -> inode_number s j -> dinode_on (view s') (sb s') j = dinode_on (view s) (sb s) j.
Proof.
  intros G Hinv Hd Hj. unfold dinode_on. rewrite (grows_sb _ _ _ _ _ G). rewrite (gr_others _ _ _ _ _ G); [done|by apply Hinv|].
  intros k Hk E. destruct (decide (addr_of ip k = 0)) as [E0|E0]; [|by apply (proj2 (dr_block _ _ Hd k Hk E0) j)].
  pose proof (pb_pos _ _ (fi_inodes _ Hinv j Hj)). congruence.
Qed.

Lemma frame_then s i ip1 s1 ip2 s2 :
  io_frame (set_itab (<[i := ip1]> (itab s)) (set_lg (lg s1) s)) s1 ->
  io_frame (set_lg (lg s2) (set_itab (<[i := ip2]> (itab s1)) s1)) s2 ->
  io_frame (set_itab (<[i := ip2]> (itab s)) (set_lg (lg s2) s)) s2.
Proof.
  intros F1 F2. assert (T1 : itab s1 = <[i := ip1]> (itab s)) by by rewrite F1. rewrite T1, list_insert_insert_eq in F2.
  unfold io_frame in *. rewrite F2, F1. by destruct s.
Qed.

(** The size and the inode block, after the loop. *)
Lemma write_end n s i ip s1 ip1 bl1 off (bs : list Z) :
  budget (S n) s1 bl1 -> grows s i ip s1 ip1 -> splices (view s) ip (view s1) ip1 off bs ->
  fs_inv s -> itab s !! i = Some ip -> direct_ok s ip -> inode_number s (i_inum ip) -> dinode_ok (to_dinode ip) ->
  file_ok (view s) ip -> i_size ip <= NDIRECT * BSIZE -> Z.of_nat off <= i_size ip -> Z.of_nat (off + length bs) <= NDIRECT * BSIZE ->
  exists s' ip' bl', (ip' ← geti i; when (i_size ip' <? Z.of_nat (off + length bs)) (seti i (set_i_size (Z.of_nat (off + length bs)))) ;; iupdate i) s1 = Ok tt s' /\
    wrote s i ip off bs s' ip' /\ budget n s' bl' /\ forall b, fs_block s b -> used s' b = used s1 b.
Proof.
  intros Hbg G Hsp Hinv Hi Hd Hn Hok Hfo Hs Hoff Hend. set (e := Z.of_nat (off + length bs)) in *.
  pose proof (gr_inode _ _ _ _ _ G) as Ei. pose proof (grows_itab _ _ _ _ _ G) as T1. pose proof (grows_sb _ _ _ _ _ G) as B1.
  assert (Hi1 : itab s1 !! i = Some ip1) by (rewrite T1; apply list_lookup_insert_eq; by eapply lookup_lt_Some).
  set (ip2 := if i_size ip1 <? e then set_i_size e ip1 else ip1). set (s2 := set_itab (<[i := ip2]> (itab s1)) s1).
  assert (E2 : when (i_size ip1 <? e) (seti i (set_i_size e)) s1 = Ok tt s2).
  { unfold s2, ip2. destruct (i_size ip1 <? e); cbn [when]; [by apply seti_run|]. rewrite list_insert_id by done. by destruct s1. }
  assert (Hi2 : itab s2 !! i = Some ip2) by (apply list_lookup_insert_eq; by eapply lookup_lt_Some).
  assert (Hsz1 : i_size ip1 = i_size ip) by (rewrite Ei; done).
  assert (Hsz : i_size ip2 = Z.max (i_size ip) e).
  { unfold ip2. destruct (Z.ltb_spec (i_size ip1) e) as [H|H]; [change (e = Z.max (i_size ip) e); lia|lia]. }
  assert (Hip2 : ip2 = set_i_size (i_size ip2) (set_i_addrs (i_addrs ip2) ip)).
  { unfold ip2. destruct (i_size ip1 <? e); rewrite Ei; by destruct ip. }
  assert (Ha2 : forall k, addr_of ip2 k = addr_of ip1 k) by (intros k; unfold ip2; by destruct (i_size ip1 <? e)).
  assert (Hnum : i_inum ip2 = i_inum ip) by by rewrite Hip2.
  assert (Hd2 : direct_ok s2 ip2).
  { destruct (direct_ok_itab (<[i := ip2]> (itab s1)) _ _ (gr_direct _ _ _ _ _ G)) as [D1 D2 D3 D4].
    unfold ip2. destruct (i_size ip1 <? e); split; try done. }
  assert (Hok2 : dinode_ok (to_dinode ip2)).
  { destruct (grows_dinode_ok _ _ _ _ _ G Hok) as [K1 K2 K3 K4 K5 K6 K7]. unfold ip2. destruct (i_size ip1 <? e); split; try done.
    change (is_u32 e). unfold is_u32. change NDIRECT with 12 in *. change BSIZE with 1024 in *. lia. }
  destruct (iupdate_run n s2 bl1 i ip2 (budget_itab _ _ _ _ Hbg) (fs_inv_itab _ _ (gr_inv _ _ _ _ _ G)) Hi2) as (s3 & E3 & P & Hbg3 & Hdn & Hoth); try done.
  { by apply Hd2. }
  { unfold inode_number. rewrite Hnum. change (sb s2) with (sb s1). by rewrite B1. }
  rewrite Hnum in *. change (sb s2) with (sb s1) in *. rewrite B1 in *.
  assert (Hne : forall k, (k < 12)%nat -> addr_of ip2 k <> 0 -> addr_of ip2 k <> IBLOCK (i_inum ip) (sb s)).
  { intros k Hk Hk0. apply not_eq_sym. rewrite <- B1. apply (dr_block _ _ Hd2 k Hk Hk0). unfold inode_number. change (sb s2) with (sb s1). by rewrite B1. }
  pose proof P as [[_ V B St O C D Wr F] Hinv3 Hu3 Hp3]. change (view s2) with (view s1) in *.
  assert (Hsp3 : splices (view s) ip (view s3) ip2 off bs).
  { intros x Hx. specialize (Hsp x Hx). unfold byte_of in *. rewrite Ha2. pose proof (Hne (x / 1024)%nat (block_lt x Hx)) as Hn2. rewrite Ha2 in Hn2. case_decide.
    - destruct Hsp as [Hsa Hsb]. split; [done|]. rewrite V, (proj2 (Z.eqb_neq _ _)); [done|by apply Hn2].
    - intros Hx0. rewrite <- Hsp by done. rewrite V, (proj2 (Z.eqb_neq _ _)); [done|]. apply Hn2. by rewrite (gr_keep _ _ _ _ _ G). }
  destruct (splices_file _ _ _ ip2 off bs Hfo Hs Hoff Hend Hsp3) as [Hfo3 Hby3]; try done.
  { intros k Hk. rewrite Ha2. by apply G. }
  { by apply Hd2. }
  { intros k Hk Hk0. apply (put_direct _ _ _ _ _ _ P Hd2 ) in Hk0 as Hk1; [|done]. apply Hk1. }
  exists s3, ip2, (logged (IBLOCK (i_inum ip) (sb s)) bl1).
  assert (Hfs : forall b, fs_block s b -> fs_block s2 b) by (intros b; unfold fs_block; change (sb s2) with (sb s1); by rewrite B1).
  split_and!; [|split; try done|done|].
  - kstep (geti_run s1 i ip1 Hi1). by kstep E2.
  - exact (frame_then _ _ _ _ _ _ (gr_frame _ _ _ _ _ G) F).
  - exact (eq_trans St (gr_start _ _ _ _ _ G)).
  - exact (eq_trans O (gr_out _ _ _ _ _ G)).
  - exact (eq_trans C (gr_com _ _ _ _ _ G)).
  - exact (eq_trans D (gr_disk _ _ _ _ _ G)).
  - exact (eq_trans Wr (gr_writes _ _ _ _ _ G)).
  - intros j Hj Hjn. rewrite Hoth; [|unfold inode_number in *; change (sb s2) with (sb s1); by rewrite B1|done].
    pose proof (grows_inodes _ _ _ _ _ j G Hinv Hd Hj) as Hg. rewrite B1 in Hg. exact Hg.
  - by apply (put_direct _ _ _ _ _ _ P).
  - intros b Hb Hub. rewrite Hu3 by by apply Hfs. by apply (gr_used _ _ _ _ _ G).
  - intros k Hk. rewrite Ha2. by apply (grows_addr _ _ _ _ _ _ G).
  - intros b Hb Hk Hbi. rewrite V, (proj2 (Z.eqb_neq _ _) Hbi). by apply (gr_others _ _ _ _ _ G).
  - intros b Hb. by rewrite Hu3 by by apply Hfs.
Qed.

Lemma writei_run n s (bl : list Z) i ip off N a l :
  supplies -> budget (3 * turns off N + S n) s bl -> fs_inv s -> itab s !! i = Some ip -> direct_ok s ip ->
  inode_number s (i_inum ip) -> dinode_ok (to_dinode ip) -> file_ok (view s) ip -> i_size ip <= NDIRECT * BSIZE ->
  0 <= off <= i_size ip -> 0 <= N -> off + N <= NDIRECT * BSIZE -> length l = Z.to_nat N -> Src a l s ->
  exists r s' ip' bl', writei get i a off N s = Ok r s' /\ 0 <= r <= N /\ (r = N \/ stopped s off r s') /\
    wrote s i ip (Z.to_nat off) (take (Z.to_nat r) l) s' ip' /\ budget n s' bl'.
Proof.
  intros Hsp Hbg Hinv Hi Hd Hn Hok Hfo Hs Hoff HN Hend Hl Hsrc.
  destruct (writei_loop_run N (S n) Hsp (Z.to_nat (N / BSIZE + 2)) s bl i ip 0 off a l) as (r & s1 & ip1 & bl1 & E1 & Hr & G & Spl & Hbg1 & Hfull);
    rewrite ?Z.sub_0_r; try done; try lia.
  { unfold turns. pose proof (Z.mod_pos_bound off BSIZE eq_refl). change BSIZE with 1024 in *. destruct (N <=? 0); [lia|]. Z.div_mod_to_equations. lia. }
  rewrite Z.sub_0_r in *. rewrite Z.add_0_l in E1.
  assert (Lt : length (take (Z.to_nat r) l) = Z.to_nat r) by (rewrite length_take; lia).
  destruct (write_end n s i ip s1 ip1 bl1 (Z.to_nat off) (take (Z.to_nat r) l) Hbg1 G Spl) as (s' & ip' & bl' & E2 & Hw & Hbg2 & Hu2);
    try done; try (rewrite ?Lt; lia).
  exists r, s', ip', bl'. split_and!; try done; try lia.
  - unfold writei. kstep (geti_run s i ip Hi). rewrite (proj2 (Z.ltb_ge _ _)) by lia. change (NDIRECT * BSIZE) with 12288 in *.
    rewrite (u32_small (off + N)) by (unfold is_u32; lia). rewrite (proj2 (Z.ltb_ge _ _)) by lia. cbn [orb].
    rewrite (proj2 (Z.ltb_ge _ _)) by (change (MAXFILE * BSIZE) with 274432; lia). kstep E1. cbn [fst snd].
    replace (Z.of_nat (Z.to_nat off + length (take (Z.to_nat r) l))) with (off + r) in E2 by (rewrite Lt; lia).
    rewrite bind_run in E2. rewrite bind_run. destruct (geti i s1) as [x s2| | |]; [|done..]. cbn [obind] in *. by rewrite (then_ok _ _ _ _ _ _ E2).
  - destruct Hfull as [->|(H1 & H2 & H3)]; [by left|]. right. split_and!; [|done|done]. pose proof (wr_frame _ _ _ _ _ _ _ Hw) as F.
    assert (B' : sb s' = sb s) by by rewrite F. intros b Hb. unfold fs_block in Hb. rewrite B' in Hb. rewrite Hu2 by done.
    apply H1. unfold fs_block. by rewrite (grows_sb _ _ _ _ _ G).
Qed.
End Source.
End Writei.
