(* ===== verification/UserMem.v ===== *)
(** * User memory: the table of mappings, page faults and copies

    The part of [kernel/vm.c] that reaches user memory: looking up [mmap]
    areas, filling a page on a fault ([vmfault], [mmap_map_page]) and the
    copies between kernel and user space, with [either_copyout] and
    [either_copyin] of [kernel/proc.c] on top. *)

From S2P Require Import Prelude Riscv Mem State Kalloc Vm Sched Bio Fs.

#[local] Open Scope Z_scope.

(** ** The table of areas *)

(** The values of [i] in the loops over the table. *)
Definition all_areas : list nat := seq 0 (Z.to_nat NMMAPAREA).

Definition get_area (i : nat) : K mmap_area := fun s =>
  match mmaptable s !! i with
  | Some a => Ok a s
  | None => Stuck "mmaptable index out of range"
  end.

Definition put_area (i : nat) (a : mmap_area) : K unit :=
  modify (fun s => set_mmaptable (<[i := a]> (mmaptable s)) s).

#[global] Arguments get_area : simpl never.

(** [area->p == p] for a process [p]. *)
Definition owned (p : nat) (a : mmap_area) : bool := bool_decide (a_p a = Some p).

(** The loop all lookups share: the first area that satisfies [test]. *)
Definition find_area (test : mmap_area -> bool) : K (option (nat * mmap_area)) :=
  r ← kfor all_areas (fun i _ =>
        a ← get_area i;
        mret (if test a then inr (i, a) else inl tt)) tt;
  mret (match r with inr x => Some x | inl _ => None end).

Definition area_covers (p : nat) (va : Z) (a : mmap_area) : bool :=
  owned p a && (a_addr a <=? va) && (va <? u64 (a_addr a + u64 (a_length a))).

Definition mmap_lookup (p : nat) (va : Z) : K (option mmap_area) :=
  acquire L_mmap ;;
  r ← find_area (area_covers p va);
  release L_mmap ;;
  mret (snd <$> r).

(** Taking an area out of the table: [mmap_take_start] and [mmap_take_any]. *)
Definition take_area (test : mmap_area -> bool) : K (option mmap_area) :=
  acquire L_mmap ;;
  r ← find_area test;
  (match r with
   | Some (i, _) => put_area i zero_area
   | None => mret tt
   end) ;;
  release L_mmap ;;
  mret (snd <$> r).

Definition mmap_take_start (p : nat) (addr : Z) : K (option mmap_area) :=
  take_area (fun a => owned p a && (a_addr a =? addr)).

Definition mmap_take_any (p : nat) : K (option mmap_area) := take_area (owned p).

Definition mmap_copy_index (p index : nat) : K (option mmap_area) :=
  acquire L_mmap ;;
  r ← (if (index <? Z.to_nat NMMAPAREA)%nat then
         a ← get_area index;
         mret (if owned p a then Some a else None)
       else mret None);
  release L_mmap ;;
  mret r.

Definition mmap_insert (newarea : mmap_area) : K Z :=
  acquire L_mmap ;;
  r ← find_area (fun a => bool_decide (a_p a = None));
  (match r with
   | Some (i, _) => put_area i newarea
   | None => mret tt
   end) ;;
  release L_mmap ;;
  mret (match r with Some _ => 0 | None => -1 end).

(** ** Protections *)

Definition mmap_valid_prot (prot : Z) : bool :=
  (prot =? PROT_READ) || (prot =? Z.lor PROT_READ PROT_WRITE).

Definition mmap_pte_perm (prot : Z) : Z :=
  let perm := Z.lor PTE_R PTE_U in
  if negb (Z.land prot PROT_WRITE =? 0) then Z.lor perm PTE_W else perm.

(** ** Files *)

Definition getf (f : nat) : K file := fun s =>
  match ftab s !! f with
  | Some x => Ok x s
  | None => Stuck "file index out of range"
  end.

Definition setf (f : nat) (g : file -> file) : K unit := fun s =>
  match ftab s !! f with
  | Some x => Ok tt (set_ftab (<[f := g x]> (ftab s)) s)
  | None => Stuck "file index out of range"
  end.

#[global] Arguments getf : simpl never.
#[global] Arguments setf : simpl never.

Definition is_inode (t : ftype) : bool := match t with FD_INODE => true | _ => false end.

Definition mmap_file_ok (f : option nat) (prot : Z) : K bool :=
  match f with
  | None => mret false
  | Some i =>
      x ← getf i;
      mret (is_inode (f_type x)
            && negb (negb (Z.land prot PROT_READ =? 0) && (f_readable x =? 0))
            && negb (negb (Z.land prot PROT_WRITE =? 0) && (f_writable x =? 0)))
  end.

Section UserMem.
Context `{L : Layout} `{W : Waits}.

(** ** Filling a page *)

(** The destination of [readi(ip, 0, mem, ..)]: kernel memory at address [a]. *)
Definition put_kernel (a : Z) (d : list Z) : K (option Z) :=
  modify (fun s => set_mem (mem_write (mem s) a d) s) ;;
  mret (Some (a + length d)).

(** The part of [mmap_map_page] that reads a file page; the result is negative
    for the two error returns. *)
Definition mmap_read_page (area : mmap_area) (va page : Z) : K Z :=
  let off := u32 (a_offset area + u32 (va - a_addr area)) in
  match a_f area with
  | None => mret (-1)
  | Some fi =>
      f ← getf fi;
      if negb (is_inode (f_type f)) then mret (-1)
      else
        ilock (f_ip f) ;;
        n ← (match f_ip f with
             | Some ip => r ← readi put_kernel ip page off PGSIZE; mret r.1
             | None => stuck "readi: null"
             end);
        iunlock (f_ip f) ;;
        mret n
  end.

Definition mmap_map_page (area : mmap_area) (pagetable va0 : Z) : K Z :=
  let va := PGROUNDDOWN va0 in
  let start := a_addr area in
  if (va <? start) || (u64 (start + u64 (a_length area)) <=? va) then mret (-1)
  else
    m ← ismapped pagetable va;
    if m : bool then mret (-1)
    else
      page ← kalloc;
      if page =? 0 then mret (-1)
      else
        kmemset page 0 PGSIZE ;;
        n ← (if Z.land (a_flags area) MAP_ANONYMOUS =? 0
             then mmap_read_page area va page else mret 0);
        if n <? 0 then kfree page ;; mret (-1)
        else
          r ← mappages pagetable va PGSIZE page (mmap_pte_perm (a_prot area));
          if negb (r =? 0) then kfree page ;; mret (-1) else mret 0.

Definition vmfault (pagetable va0 : Z) (read : bool) : K Z :=
  me ← curproc;
  let va := PGROUNDDOWN va0 in
  a ← mmap_lookup me va;
  match a with
  | Some area =>
      if negb read && (Z.land (a_prot area) PROT_WRITE =? 0) then mret (-1)
      else
        m ← ismapped pagetable va;
        if m : bool then mret (-1)
        else
          r ← mmap_map_page area pagetable va;
          mret (if r <? 0 then -1 else 1)
  | None =>
      if MMAPBASE <=? va then mret (-1)
      else
        p ← getp me;
        if p_sz p <=? va then mret (-1)
        else
          m ← ismapped pagetable va;
          if m : bool then mret (-1)
          else
            page ← kalloc;
            if page =? 0 then mret (-1)
            else
              kmemset page 0 PGSIZE ;;
              r ← mappages pagetable va PGSIZE page (Z.lor (Z.lor PTE_W PTE_U) PTE_R);
              if negb (r =? 0) then kfree page ;; mret (-1) else mret 1
  end.

(** ** Copies *)

(** The address of a user page, faulted in if it is missing; 0 for the error
    returns the three copy loops share. *)
Definition user_page (pagetable va0 : Z) (read : bool) : K Z :=
  pa0 ← walkaddr pagetable va0;
  if pa0 =? 0 then
    r ← vmfault pagetable va0 read;
    if r <? 0 then mret 0 else walkaddr pagetable va0
  else mret pa0.

(** The loops run once per page that the range touches. *)
Definition page_fuel (len : Z) : nat := Z.to_nat (len / PGSIZE + 2).

Fixpoint copyout_loop (fuel : nat) (pagetable dstva : Z) (src : list Z) : K Z :=
  match src with
  | [] => mret 0
  | _ :: _ =>
      match fuel with
      | O => stuck "copyout: fuel"
      | S f =>
          let va0 := PGROUNDDOWN dstva in
          if MAXVA <=? va0 then mret (-1)
          else
            pa0 ← user_page pagetable va0 false;
            if pa0 =? 0 then mret (-1)
            else
              pte ← walk pagetable va0 false;
              v ← ld64 pte;
              if negb (has_flag v PTE_W) then mret (-1)
              else
                let n := Z.to_nat (Z.min (PGSIZE - (dstva - va0)) (length src)) in
                modify (fun s => set_mem (mem_write (mem s) (pa0 + (dstva - va0)) (take n src)) s) ;;
                copyout_loop f pagetable (u64 (va0 + PGSIZE)) (drop n src)
      end
  end.

Definition copyout (pagetable dstva : Z) (src : list Z) : K Z :=
  copyout_loop (page_fuel (length src)) pagetable dstva src.

(** The result and the bytes that were copied, also when it fails half way. *)
Fixpoint copyin_loop (fuel : nat) (pagetable srcva len : Z) : K (Z * list Z) :=
  if 0 <? len then
    match fuel with
    | O => stuck "copyin: fuel"
    | S f =>
        let va0 := PGROUNDDOWN srcva in
        pa0 ← user_page pagetable va0 true;
        if pa0 =? 0 then mret (-1, [])
        else
          let n := Z.min (PGSIZE - (srcva - va0)) len in
          d ← gets (fun s => mem_read (mem s) (pa0 + (srcva - va0)) (Z.to_nat n));
          r ← copyin_loop f pagetable (u64 (va0 + PGSIZE)) (len - n);
          mret (r.1, d ++ r.2)
    end
  else mret (0, []).

Definition copyin (pagetable srcva len : Z) : K (Z * list Z) :=
  copyin_loop (page_fuel len) pagetable srcva len.

(** The bytes before the first NUL, [None] if there is no NUL. *)
Fixpoint upto_nul (l : list Z) : option (list Z) :=
  match l with
  | [] => None
  | c :: l' => if c =? 0 then Some [] else (cons c) <$> upto_nul l'
  end.

(** The string, without the NUL; [None] is the result -1. *)
Fixpoint copyinstr_loop (fuel : nat) (pagetable srcva max : Z) : K (option (list Z)) :=
  if 0 <? max then
    match fuel with
    | O => stuck "copyinstr: fuel"
    | S f =>
        let va0 := PGROUNDDOWN srcva in
        pa0 ← user_page pagetable va0 true;
        if pa0 =? 0 then mret None
        else
          let n := Z.min (PGSIZE - (srcva - va0)) max in
          d ← gets (fun s => mem_read (mem s) (pa0 + (srcva - va0)) (Z.to_nat n));
          match upto_nul d with
          | Some x => mret (Some x)
          | None =>
              r ← copyinstr_loop f pagetable (u64 (va0 + PGSIZE)) (max - n);
              mret (app d <$> r)
          end
    end
  else mret None.

Definition copyinstr (pagetable srcva max : Z) : K (option (list Z)) :=
  copyinstr_loop (page_fuel max) pagetable srcva max.

(** ** Either kind of address *)

Definition either_copyout (user_dst : bool) (dst : Z) (src : list Z) : K Z :=
  me ← curproc;
  if user_dst then
    p ← getp me;
    copyout (p_pagetable p) dst src
  else
    modify (fun s => set_mem (mem_write (mem s) dst src) s) ;;
    mret 0.

Definition either_copyin (user_src : bool) (src len : Z) : K (Z * list Z) :=
  me ← curproc;
  if user_src then
    p ← getp me;
    copyin (p_pagetable p) src len
  else
    d ← gets (fun s => mem_read (mem s) src (Z.to_nat len));
    mret (0, d).

(** [readi(ip, 1, dst, ..)] and [writei(ip, 1, src, ..)]. *)
Definition put_user (dst : Z) (d : list Z) : K (option Z) :=
  r ← either_copyout true dst d;
  mret (if r =? -1 then None else Some (u64 (dst + length d))).

Definition get_user (src m : Z) : K (list Z * bool * Z) :=
  r ← either_copyin true src m;
  mret (r.2, negb (r.1 =? -1), u64 (src + m)).

(** [readi(ip, 0, dst, ..)] with [dst] in kernel memory is [put_kernel]. *)
Definition get_kernel (src m : Z) : K (list Z * bool * Z) :=
  d ← gets (fun s => mem_read (mem s) src (Z.to_nat m));
  mret (d, true, src + m).

(** ** [kernel_pagetable] *)

Definition proc_mapstacks (kpgtbl : Z) : K unit :=
  kiter (seq 0 (Z.to_nat NPROC)) (fun i _ =>
    pa ← kalloc;
    if pa =? 0 then panic "kalloc"
    else kvmmap kpgtbl (KSTACK i) pa PGSIZE (Z.lor PTE_R PTE_W)) tt.

Definition kvmmake : K Z :=
  kpgtbl ← kalloc;
  kmemset kpgtbl 0 PGSIZE ;;
  kvmmap kpgtbl UART0 UART0 PGSIZE (Z.lor PTE_R PTE_W) ;;
  kvmmap kpgtbl VIRTIO0 VIRTIO0 PGSIZE (Z.lor PTE_R PTE_W) ;;
  kvmmap kpgtbl PLIC PLIC 0x4000000 (Z.lor PTE_R PTE_W) ;;
  kvmmap kpgtbl KERNBASE KERNBASE (etext - KERNBASE) (Z.lor PTE_R PTE_X) ;;
  kvmmap kpgtbl etext etext (PHYSTOP - etext) (Z.lor PTE_R PTE_W) ;;
  kvmmap kpgtbl TRAMPOLINE trampoline PGSIZE (Z.lor PTE_R PTE_X) ;;
  proc_mapstacks kpgtbl ;;
  mret kpgtbl.

Definition kvminit : K unit :=
  k ← kvmmake;
  modify (set_kernel_pagetable k).

End UserMem.
