(* ===== verification/Copy.v ===== *)
(** * Copies between the kernel and user memory

    The theory of [copyout] and [copyin] ([UserMem.v]) on ranges whose pages
    are mapped: which physical bytes they touch, and that what one writes the
    other reads. *)

From S2P Require Import Prelude Riscv Mem State Kalloc Vm Uvm Sched Bio Log Fs UserMem.

#[local] Open Scope Z_scope.

(** The page of an address, and the physical address that a view of an address
    space ([pte_at]) gives it. *)
Definition pg (va : Z) : Z := va - va `mod` PGSIZE.
Definition paddr (V : Z -> Z) (va : Z) : Z := PTE2PA (V (pg va)) + va `mod` PGSIZE.

(** The range is mapped for the user; for writing if [w]. *)
Record user_mapped (V : Z -> Z) (w : bool) (va len : Z) : Prop := {
  um_lo : 0 <= va;
  um_hi : va + len <= MAXVA;
  um_flags : forall x, va <= x < va + len ->
    has_flag (V (pg x)) PTE_V = true /\ has_flag (V (pg x)) PTE_U = true /\
    (w = true -> has_flag (V (pg x)) PTE_W = true) /\ PTE2PA (V (pg x)) <> 0
}.

(** The bytes of user memory in the range. *)
Definition uread (m V : Z -> Z) (va : Z) (n : nat) : list Z :=
  (fun i => m (paddr V (va + Z.of_nat i))) <$> seq 0 n.

Lemma pg_bounds va : pg va <= va < pg va + PGSIZE.
Proof. unfold pg, PGSIZE. pose proof (Z.mod_pos_bound va 4096). lia. Qed.

Lemma pg_aligned va : page_aligned (pg va).
Proof. unfold page_aligned, pg, PGSIZE. zlia. Qed.

Lemma pg_same va x : pg va <= x < pg va + PGSIZE -> pg x = pg va.
Proof. unfold pg, PGSIZE. intros H. zlia. Qed.

Lemma pg_rounddown va : 0 <= va < 2^64 -> PGROUNDDOWN va = pg va.
Proof. intros. unfold pg. by rewrite PGROUNDDOWN_eq by (ints; lia). Qed.

Lemma PTE2PA_aligned pte : page_aligned (PTE2PA pte).
Proof.
  unfold page_aligned, PTE2PA, PGSIZE, u64. rewrite Z.shiftl_mul_pow2 by lia.
  change (2^12) with 4096. zlia.
Qed.

Lemma paddr_page V va x :
  pg va <= x < pg va + PGSIZE -> paddr V x = PTE2PA (V (pg va)) + (x - pg va).
Proof.
  intros H. unfold paddr. rewrite (pg_same va x H). f_equal.
  pose proof (pg_same va x H) as E. unfold pg at 1 in E. lia.
Qed.

Lemma uread_app m V va (a b : nat) :
  uread m V va (a + b) = uread m V va a ++ uread m V (va + a) b.
Proof.
  unfold uread. rewrite seq_app, fmap_app. f_equal.
  replace (seq (0 + a) b) with (Nat.add a <$> seq 0 b) by (rewrite fmap_add_seq; f_equal; lia).
  rewrite <- list_fmap_compose. apply list_fmap_ext. intros i x _.
  cbn. do 2 f_equal. lia.
Qed.

Lemma uread_chunk m V va (n : nat) :
  va - pg va + n <= PGSIZE ->
  mem_read m (PTE2PA (V (pg va)) + (va - pg va)) n = uread m V va n.
Proof.
  intros Hn. unfold mem_read, uread. apply list_fmap_ext. intros i x Hx.
  apply lookup_seq in Hx as [-> Hi]. pose proof (pg_bounds va).
  rewrite (paddr_page V va) by lia. f_equal. lia.
Qed.

Section Copy.
Context `{L : Layout} {LO : LayoutOk L} `{W : Waits}.

Lemma pte_valid_slot n m pt va :
  has_flag (pte_at n m pt va) PTE_V = true ->
  exists a, slot n m pt va = Some a /\ load64 m a = pte_at n m pt va.
Proof.
  unfold pte_at. destruct (slot n m pt va) as [a|]; [by exists a|]. by rewrite invalid_zero.
Qed.

Lemma walk_mapped s pt va0 :
  own 2 s pt -> va0 < MAXVA -> has_flag (pte_at 2 (mem s) pt va0) PTE_V = true ->
  exists a, walk pt va0 false s = Ok a s /\ a <> 0 /\ load64 (mem s) a = pte_at 2 (mem s) pt va0.
Proof.
  intros Ho Hva Hv. destruct (pte_valid_slot _ _ _ _ Hv) as (a & Ha & Hl).
  exists a. rewrite walk_read by lia. rewrite Ha. split_and!; [done|by eapply slot_nonzero|done].
Qed.

Lemma user_page_mapped s pt va0 r :
  own 2 s pt -> va0 < MAXVA ->
  has_flag (pte_at 2 (mem s) pt va0) PTE_V = true ->
  has_flag (pte_at 2 (mem s) pt va0) PTE_U = true ->
  PTE2PA (pte_at 2 (mem s) pt va0) <> 0 ->
  user_page pt va0 r s = Ok (PTE2PA (pte_at 2 (mem s) pt va0)) s.
Proof.
  intros Ho Hva Hv Hu Hp. destruct (walk_mapped s pt va0 Ho Hva Hv) as (a & Hw & Ha & Hl).
  unfold user_page. erewrite bind_ok.
  2: { unfold walkaddr. rewrite (proj2 (Z.leb_gt _ _)) by lia. kstep Hw.
       rewrite (proj2 (Z.eqb_neq _ _)) by done. kstep (ld64_run a s). rewrite Hl, Hv, Hu. done. }
  cbv beta. by rewrite (proj2 (Z.eqb_neq _ _)) by done.
Qed.

(** How many pages the rest of a range touches. *)
Definition pages_left (va len : Z) : Z := (va `mod` PGSIZE + len + PGSIZE - 1) `div` PGSIZE.

Lemma pages_left_fuel va len : 0 <= len -> pages_left va len <= page_fuel len.
Proof.
  intros. unfold pages_left, page_fuel, PGSIZE. pose proof (Z.mod_pos_bound va 4096). zlia.
Qed.

Lemma pages_left_pos va len : 0 < len -> 1 <= pages_left va len.
Proof. intros. unfold pages_left, PGSIZE. pose proof (Z.mod_pos_bound va 4096). zlia. Qed.

Lemma pages_left_next va len :
  0 < len -> PGSIZE - (va - pg va) < len ->
  pages_left (pg va + PGSIZE) (len - (PGSIZE - (va - pg va))) = pages_left va len - 1.
Proof.
  intros H0 H. unfold pages_left, pg, PGSIZE in *. pose proof (Z.mod_pos_bound va 4096). zlia.
Qed.

(** The part of a range on its first page, and what is left. *)
Definition chunk (va len : Z) : Z := Z.min (PGSIZE - (va - pg va)) len.

Lemma chunk_bounds va len :
  0 < len -> 0 < chunk va len <= len /\ va - pg va + chunk va len <= PGSIZE.
Proof. unfold chunk. pose proof (pg_bounds va). lia. Qed.

Lemma pages_left_chunk va len :
  0 < len -> chunk va len < len ->
  pages_left (pg va + PGSIZE) (len - chunk va len) = pages_left va len - 1.
Proof.
  unfold chunk. intros H0 Hc. rewrite Z.min_l by lia. apply pages_left_next; lia.
Qed.

Lemma user_mapped_next V w va len :
  user_mapped V w va len -> 0 < len -> chunk va len < len ->
  pg va + PGSIZE = va + chunk va len /\
  user_mapped V w (va + chunk va len) (len - chunk va len).
Proof.
  intros [Hlo Hhi Hf] H0 Hc. unfold chunk in *. pose proof (pg_bounds va). split; [lia|].
  split; [lia|lia|]. intros x Hx. apply Hf. lia.
Qed.

Lemma copyin_loop_run s pt (fuel : nat) : forall va len,
  own 2 s pt -> 0 <= len -> user_mapped (pte_at 2 (mem s) pt) false va len ->
  pages_left va len <= fuel ->
  copyin_loop fuel pt va len s = Ok (0, uread (mem s) (pte_at 2 (mem s) pt) va (Z.to_nat len)) s.
Proof.
  set (V := pte_at 2 (mem s) pt). induction fuel as [|fuel IH]; intros va len Ho Hl Hm Hf.
  - destruct (decide (len = 0)) as [->|]; [done|].
    pose proof (pages_left_pos va len ltac:(lia)). lia.
  - destruct (decide (len = 0)) as [->|Hne]; [done|].
    cbn [copyin_loop]. rewrite (proj2 (Z.ltb_lt _ _)) by lia.
    pose proof (um_lo _ _ _ _ Hm). pose proof (um_hi _ _ _ _ Hm). change MAXVA with (2^38) in *.
    rewrite pg_rounddown by lia. pose proof (pg_bounds va).
    destruct (um_flags _ _ _ _ Hm va ltac:(lia)) as (Fv & Fu & _ & Fp).
    kstep (user_page_mapped s pt (pg va) true Ho ltac:(change MAXVA with (2^38); lia) Fv Fu Fp).
    rewrite (proj2 (Z.eqb_neq _ _)) by done. rewrite bind_run. cbn [gets obind].
    fold (chunk va len). destruct (chunk_bounds va len ltac:(lia)) as [[Hc0 Hc1] Hc2].
    fold V. rewrite uread_chunk by (rewrite Z2Nat.id by lia; lia).
    destruct (decide (chunk va len = len)) as [E|E].
    + rewrite E, Z.sub_diag. erewrite bind_ok by (destruct fuel; done). cbv beta. cbn [fst snd].
      by rewrite app_nil_r.
    + destruct (user_mapped_next _ _ _ _ Hm ltac:(lia) ltac:(lia)) as [Hn Hm'].
      rewrite u64_small by (unfold PGSIZE in *; ints; lia). rewrite Hn.
      assert (Hp : pages_left (va + chunk va len) (len - chunk va len) <= fuel).
      { rewrite <- Hn, pages_left_chunk by lia. lia. }
      kstep (IH (va + chunk va len) (len - chunk va len) Ho ltac:(lia) Hm' Hp). cbn [fst snd].
      replace (Z.to_nat len) with (Z.to_nat (chunk va len) + Z.to_nat (len - chunk va len))%nat by lia.
      rewrite uread_app. by rewrite Z2Nat.id by lia.
Qed.

Lemma copyin_run s pt va len :
  own 2 s pt -> 0 <= len -> user_mapped (pte_at 2 (mem s) pt) false va len ->
  copyin pt va len s = Ok (0, uread (mem s) (pte_at 2 (mem s) pt) va (Z.to_nat len)) s.
Proof. intros. apply copyin_loop_run; try done. by apply pages_left_fuel. Qed.

(** ** [copyinstr] *)

Lemma upto_nul_some l x r : upto_nul l = Some x -> upto_nul (l ++ r) = Some x.
Proof.
  revert x. induction l as [|c l IH]; intros x; [done|]. cbn. destruct (c =? 0); [done|].
  destruct (upto_nul l) as [y|]; [|done]. by rewrite (IH y eq_refl).
Qed.

Lemma upto_nul_none l r : upto_nul l = None -> upto_nul (l ++ r) = app l <$> upto_nul r.
Proof.
  induction l as [|c l IH]; cbn; [by destruct (upto_nul r)|]. destruct (c =? 0); [done|].
  destruct (upto_nul l); [done|]. intros _. rewrite IH by done. by destruct (upto_nul r).
Qed.

(** The bytes that are read: up to the limit, or at least up to a NUL. *)
Definition str_range (d : list Z) (k max : Z) : Prop := 0 <= k <= max /\ (k = max \/ upto_nul d <> None).

Lemma copyinstr_loop_run s pt (fuel : nat) : forall va k max,
  let V := pte_at 2 (mem s) pt in
  own 2 s pt -> user_mapped V false va k -> str_range (uread (mem s) V va (Z.to_nat k)) k max ->
  pages_left va max <= fuel ->
  copyinstr_loop fuel pt va max s = Ok (upto_nul (uread (mem s) V va (Z.to_nat k))) s.
Proof.
  induction fuel as [|fuel IH]; intros va k max V Ho Hm [Hk Hend] Hf.
  all: destruct (decide (k = 0)) as [->|Hne]; [destruct Hend as [<-|[]]; [done|done]|].
  { pose proof (pages_left_pos va max ltac:(lia)). lia. }
  cbn [copyinstr_loop]. rewrite (proj2 (Z.ltb_lt _ _)) by lia.
  pose proof (um_lo _ _ _ _ Hm). pose proof (um_hi _ _ _ _ Hm). change MAXVA with (2^38) in *.
  rewrite pg_rounddown by lia. pose proof (pg_bounds va).
  destruct (um_flags _ _ _ _ Hm va ltac:(lia)) as (Fv & Fu & _ & Fp).
  kstep (user_page_mapped s pt (pg va) true Ho ltac:(change MAXVA with (2^38); lia) Fv Fu Fp).
  rewrite (proj2 (Z.eqb_neq _ _)) by done. rewrite bind_run. cbn [gets obind].
  fold (chunk va max). destruct (chunk_bounds va max ltac:(lia)) as [[Hc0 Hc1] Hc2].
  fold V. rewrite uread_chunk by (rewrite Z2Nat.id by lia; lia). set (n := chunk va max) in *.
  destruct (decide (k < n)) as [Hkn|Hkn].
  { replace (Z.to_nat n) with (Z.to_nat k + Z.to_nat (n - k))%nat by lia. rewrite uread_app.
    destruct Hend as [->|Hs]; [lia|]. destruct (upto_nul (uread (mem s) V va (Z.to_nat k))) as [x|] eqn:E; [|done].
    by rewrite (upto_nul_some _ x) by done. }
  assert (Ek : uread (mem s) V va (Z.to_nat k) = uread (mem s) V va (Z.to_nat n) ++ uread (mem s) V (va + n) (Z.to_nat (k - n))).
  { replace (Z.to_nat k) with (Z.to_nat n + Z.to_nat (k - n))%nat by lia. rewrite uread_app. by rewrite Z2Nat.id by lia. }
  rewrite Ek in *. set (d := uread (mem s) V va (Z.to_nat n)) in *.
  destruct (upto_nul d) as [x|] eqn:E; [by rewrite (upto_nul_some _ x)|]. rewrite (upto_nul_none d) in * by done.
  destruct (decide (n = max)) as [En|En].
  - replace (k - n) with 0 by lia. rewrite En, Z.sub_diag. by erewrite bind_ok by (destruct fuel; done).
  - assert (Hn : pg va + PGSIZE = va + n) by (unfold n, chunk in *; lia). rewrite Hn, u64_small by (unfold PGSIZE in *; ints; lia).
    assert (Hp : pages_left (va + n) (max - n) <= fuel) by (unfold n in *; rewrite <- Hn, pages_left_chunk by lia; lia).
    assert (Hm' : user_mapped V false (va + n) (k - n)) by (destruct Hm as [? ? Hfl]; split; [lia|change MAXVA with (2^38); lia|intros x Hx; apply Hfl; lia]).
    assert (Hs : str_range (uread (mem s) V (va + n) (Z.to_nat (k - n))) (k - n) (max - n)).
    { split; [lia|]. destruct Hend as [->|Hs]; [by left|]. right. by destruct (upto_nul (uread (mem s) V (va + n) _)). }
    by kstep (IH (va + n) (k - n) (max - n) Ho Hm' Hs Hp).
Qed.

(** [copyinstr] gives the bytes in front of the first NUL, or -1 if there is none within
    the limit; only the pages up to the NUL have to be mapped. *)
Lemma copyinstr_run s pt va k max :
  let V := pte_at 2 (mem s) pt in
  own 2 s pt -> user_mapped V false va k -> str_range (uread (mem s) V va (Z.to_nat k)) k max ->
  copyinstr pt va max s = Ok (upto_nul (uread (mem s) V va (Z.to_nat k))) s.
Proof. intros V Ho Hm Hs. apply copyinstr_loop_run; try done. apply pages_left_fuel. destruct Hs. lia. Qed.

(** ** [copyout] *)

(** The range can be written, to pages of its own that are not part of the
    page table. *)
Record user_writable (V : Z -> Z) (T : list Z) (va len : Z) : Prop := {
  uw_mapped : user_mapped V true va len;
  uw_inj : forall x y, va <= x < va + len -> va <= y < va + len -> paddr V x = paddr V y -> x = y;
  uw_apart : forall x, va <= x < va + len -> PTE2PA (V (pg x)) ∉ T
}.

Lemma user_writable_sub V T a n b k :
  user_writable V T a n -> a <= b -> b + k <= a + n -> user_writable V T b k.
Proof.
  intros [[H1 H2 H3] Hi Ha] Hb Hk. split; [split|..].
  - lia.
  - lia.
  - intros x Hx. apply H3. lia.
  - intros x y Hx Hy. apply Hi; lia.
  - intros x Hx. apply Ha. lia.
Qed.


(** [m'] is [m] with the bytes [src] at the user address [va]. *)
Definition uwritten (V : Z -> Z) (va : Z) (src : list Z) (m m' : Z -> Z) : Prop :=
  (forall (i : nat) c, src !! i = Some c -> m' (paddr V (va + i)) = c) /\
  (forall x, (forall i : nat, (i < length src)%nat -> x <> paddr V (va + i)) -> m' x = m x).

Lemma uwritten_nil V va m : uwritten V va [] m m.
Proof. split; [done|done]. Qed.

Lemma uwritten_chunk V va src m :
  va - pg va + length src <= PGSIZE ->
  uwritten V va src m (mem_write m (PTE2PA (V (pg va)) + (va - pg va)) src).
Proof.
  intros Hn. pose proof (pg_bounds va). split.
  - intros i c Hi. pose proof (lookup_lt_Some _ _ _ Hi).
    rewrite (paddr_page V va) by lia. unfold mem_write. rewrite decide_True by lia.
    replace (Z.to_nat _) with i by lia. by rewrite Hi.
  - intros x Hx. unfold mem_write. rewrite decide_False; [done|]. intros Hr.
    apply (Hx (Z.to_nat (x - (PTE2PA (V (pg va)) + (va - pg va)))) ltac:(lia)).
    rewrite (paddr_page V va) by lia. lia.
Qed.

Lemma uwritten_app V va src (n : nat) m m1 m' :
  (n <= length src)%nat ->
  (forall x y, va <= x < va + length src -> va <= y < va + length src -> paddr V x = paddr V y -> x = y) ->
  uwritten V va (take n src) m m1 -> uwritten V (va + n) (drop n src) m1 m' ->
  uwritten V va src m m'.
Proof.
  intros Hn Hinj [A1 A2] [B1 B2]. split.
  - intros i c Hi. pose proof (lookup_lt_Some _ _ _ Hi). destruct (decide (i < n)%nat) as [Hlt|Hge].
    + rewrite B2.
      * apply A1. by rewrite lookup_take_lt by lia.
      * intros j Hj E. rewrite length_drop in Hj. apply Hinj in E; lia.
    + replace (va + i) with (va + n + (i - n)%nat) by lia. apply B1.
      rewrite lookup_drop. replace (n + (i - n))%nat with i by lia. done.
  - intros x Hx. rewrite B2, A2; [done| |].
    + intros i Hi. rewrite length_take in Hi. apply Hx. lia.
    + intros i Hi. rewrite length_drop in Hi. replace (va + n + i) with (va + (n + i)%nat) by lia.
      apply Hx. lia.
Qed.

Lemma user_writable_next V T va len :
  user_writable V T va len -> 0 < len -> chunk va len < len ->
  user_writable V T (va + chunk va len) (len - chunk va len).
Proof.
  intros [Hm Hi Ha] H0 Hc. destruct (user_mapped_next _ _ _ _ Hm H0 Hc) as [_ Hm'].
  pose proof (chunk_bounds va len H0). split; [done| |].
  - intros x y Hx Hy. apply Hi; lia.
  - intros x Hx. apply Ha. lia.
Qed.

(** Writing a page that is not part of the table keeps the table. *)
Lemma own_write s pt a bs p :
  own 2 s pt -> page_aligned p -> (p ∉ tables 2 (mem s) pt) -> p <= a -> a + length bs <= p + PGSIZE ->
  own 2 (set_mem (mem_write (mem s) a bs) s) pt /\
  tables 2 (mem_write (mem s) a bs) pt = tables 2 (mem s) pt /\
  (forall va, pte_at 2 (mem_write (mem s) a bs) pt va = pte_at 2 (mem s) pt va).
Proof.
  intros Ho Hal Hp Hlo Hhi.
  destruct (own_frame 2 s (set_mem (mem_write (mem s) a bs) s) pt [p]) as (H1 & H2 & _ & H4).
  - done.
  - by apply Forall_singleton.
  - intros q Hq Hin. apply list_elem_of_singleton in Hin as ->. done.
  - intros x Hx. specialize (Hx p ltac:(by apply list_elem_of_singleton)).
    cbn [mem set_mem]. unfold mem_write. rewrite decide_False; [done|lia].
  - done.
  - done.
Qed.

(** One iteration of [copyout]: the bytes on the first page. *)
Definition after_chunk (V : Z -> Z) (va : Z) (src : list Z) (m : Z -> Z) : Z -> Z :=
  mem_write m (PTE2PA (V (pg va)) + (va - pg va)) (take (Z.to_nat (chunk va (length src))) src).

Lemma copyout_step pt V T fuel s va src :
  own 2 s pt -> (forall x, pte_at 2 (mem s) pt x = V x) ->
  user_writable V T va (length src) -> 0 < length src ->
  copyout_loop (S fuel) pt va src s =
    copyout_loop fuel pt (pg va + PGSIZE) (drop (Z.to_nat (chunk va (length src))) src)
      (set_mem (after_chunk V va src (mem s)) s).
Proof.
  intros Ho HV Hw Hlen.
  pose proof (um_lo _ _ _ _ (uw_mapped _ _ _ _ Hw)) as Hlo.
  pose proof (um_hi _ _ _ _ (uw_mapped _ _ _ _ Hw)) as Hhi.
  pose proof (pg_bounds va) as Hpg. assert (HM : MAXVA = 2^38) by done.
  destruct (um_flags _ _ _ _ (uw_mapped _ _ _ _ Hw) va ltac:(lia)) as (Fv & Fu & Fw & Fp).
  rewrite <- HV in Fv, Fu, Fw, Fp. specialize (Fw eq_refl).
  destruct src as [|c0 src0] eqn:Es; [cbn in Hlen; lia|]. cbn [copyout_loop].
  rewrite (pg_rounddown va), (proj2 (Z.leb_gt _ _)) by lia. rewrite <- Es in *.
  kstep (user_page_mapped s pt (pg va) false Ho ltac:(lia) Fv Fu Fp).
  rewrite (proj2 (Z.eqb_neq _ _)) by done.
  destruct (walk_mapped s pt (pg va) Ho ltac:(lia) Fv) as (a & Hwk & _ & Hl).
  kstep Hwk. kstep (ld64_run a s). rewrite Hl, Fw, HV. cbn [negb].
  rewrite bind_run. cbn [modify obind].
  by rewrite u64_small by (unfold PGSIZE in *; ints; lia).
Qed.

Lemma after_chunk_spec pt V T s va src (n := Z.to_nat (chunk va (length src))) :
  own 2 s pt -> tables 2 (mem s) pt = T -> (forall x, pte_at 2 (mem s) pt x = V x) ->
  user_writable V T va (length src) -> 0 < length src ->
  let m1 := after_chunk V va src (mem s) in
  uwritten V va (take n src) (mem s) m1 /\ own 2 (set_mem m1 s) pt /\
  tables 2 m1 pt = T /\ (forall x, pte_at 2 m1 pt x = V x).
Proof.
  intros Ho HT HV Hw Hlen m1.
  destruct (chunk_bounds va (length src) Hlen) as [[Hc0 Hc1] Hc2]. pose proof (pg_bounds va).
  assert (Htl : Z.of_nat (length (take n src)) = chunk va (length src)) by (rewrite length_take; lia).
  destruct (own_write s pt (PTE2PA (V (pg va)) + (va - pg va)) (take n src) (PTE2PA (V (pg va))))
    as (Ho1 & HT1 & HV1); [done|apply PTE2PA_aligned| |lia|lia|].
  { rewrite HT. apply (uw_apart _ _ _ _ Hw). lia. }
  split_and!; [apply uwritten_chunk; lia|done|by rewrite <- HT|].
  intros x. by rewrite <- HV.
Qed.

Lemma copyout_loop_run pt V T (fuel : nat) : forall s va src,
  own 2 s pt -> tables 2 (mem s) pt = T -> (forall x, pte_at 2 (mem s) pt x = V x) ->
  user_writable V T va (length src) -> pages_left va (length src) <= fuel ->
  exists m', copyout_loop fuel pt va src s = Ok 0 (set_mem m' s) /\
    uwritten V va src (mem s) m' /\ own 2 (set_mem m' s) pt /\ (forall x, pte_at 2 m' pt x = V x) /\ tables 2 m' pt = T.
Proof.
  assert (Hnil : forall s va, own 2 s pt -> tables 2 (mem s) pt = T -> (forall x, pte_at 2 (mem s) pt x = V x) ->
    exists m', Ok 0 s = Ok 0 (set_mem m' s) /\
      uwritten V va [] (mem s) m' /\ own 2 (set_mem m' s) pt /\ (forall x, pte_at 2 m' pt x = V x) /\ tables 2 m' pt = T).
  { intros s va Ho HT HV. exists (mem s). split_and!; [by destruct s|apply uwritten_nil|by destruct s|done|done]. }
  induction fuel as [|fuel IH]; intros s va src Ho HT HV Hw Hf; (destruct (decide (src = [])) as [->|Hne];
    [by apply Hnil|assert (Hlen : 0 < length src) by (destruct src; [done|cbn; lia])]).
  { pose proof (pages_left_pos va (length src) Hlen). lia. }
  rewrite (copyout_step pt V T) by done.
  destruct (after_chunk_spec pt V T s va src Ho HT HV Hw Hlen) as (Hu1 & Ho1 & HT1 & HV1).
  set (m1 := after_chunk V va src (mem s)) in *.
  destruct (chunk_bounds va (length src) Hlen) as [[Hc0 Hc1] _].
  set (n := Z.to_nat (chunk va (length src))) in *.
  assert (Hn : Z.of_nat n = chunk va (length src)) by (subst n; lia).
  destruct (decide (chunk va (length src) = length src)) as [E|E].
  - rewrite (drop_ge src n), take_ge in * by lia.
    exists m1. split_and!; [by destruct fuel|done|done|done|done].
  - destruct (user_mapped_next _ _ _ _ (uw_mapped _ _ _ _ Hw) Hlen ltac:(lia)) as [Hnx _].
    assert (Hd : Z.of_nat (length (drop n src)) = length src - chunk va (length src))
      by (rewrite length_drop; lia).
    destruct (IH (set_mem m1 s) (va + n) (drop n src)) as (m' & Hr & Hu & Ho' & HV' & HT'); try done.
    + rewrite Hd, Hn. by apply user_writable_next; [|lia|lia].
    + rewrite Hd, Hn, <- Hnx, pages_left_chunk by lia. lia.
    + exists m'. rewrite Hnx, <- Hn. split_and!; [by rewrite Hr| |done|done|done].
      eapply (uwritten_app V va src n); [lia|apply (uw_inj _ _ _ _ Hw)|done|done].
Qed.

Lemma copyout_run pt s va src (V := pte_at 2 (mem s) pt) :
  own 2 s pt -> user_writable V (tables 2 (mem s) pt) va (length src) ->
  exists m', copyout pt va src s = Ok 0 (set_mem m' s) /\
    uwritten V va src (mem s) m' /\ own 2 (set_mem m' s) pt /\ (forall x, pte_at 2 m' pt x = V x) /\
    tables 2 m' pt = tables 2 (mem s) pt.
Proof.
  intros Ho Hw. apply (copyout_loop_run pt V (tables 2 (mem s) pt)); try done.
  apply pages_left_fuel. lia.
Qed.

Lemma user_mapped_ext V V' w va len :
  (forall x, V' x = V x) -> user_mapped V w va len -> user_mapped V' w va len.
Proof. intros E [H1 H2 H3]. split; [done|done|]. intros x Hx. rewrite !E. auto. Qed.

Lemma user_mapped_read V w va len : user_mapped V w va len -> user_mapped V false va len.
Proof. intros [H1 H2 H3]. split; [done|done|]. intros x Hx. destruct (H3 x Hx) as (?&?&_&?). done. Qed.

Lemma uwritten_read V V' va src m m' :
  (forall x, V' x = V x) -> uwritten V va src m m' -> uread m' V' va (length src) = src.
Proof.
  intros E [H _]. apply list_eq. intros i. unfold uread. rewrite list_lookup_fmap.
  destruct (src !! i) as [c|] eqn:Ei.
  - rewrite lookup_seq_lt by (by eapply lookup_lt_Some). cbn. f_equal.
    unfold paddr. rewrite E. by apply H.
  - rewrite lookup_seq_ge by (by apply lookup_ge_None). done.
Qed.

(** C25. What [copyout] writes to user memory, [copyin] reads back: on a range
    of any length and alignment whose pages are mapped writable, to distinct
    pages outside the page table, both return 0, the bytes read are the bytes
    written, the address space is unchanged, and no byte of memory outside the
    range changes. *)
Theorem copyout_copyin pt s va src (V := pte_at 2 (mem s) pt) :
  own 2 s pt -> user_writable V (tables 2 (mem s) pt) va (length src) ->
  exists m', copyout pt va src s = Ok 0 (set_mem m' s) /\
    copyin pt va (length src) (set_mem m' s) = Ok (0, src) (set_mem m' s) /\
    (forall x, pte_at 2 m' pt x = V x) /\
    (forall x, (forall i : nat, (i < length src)%nat -> x <> paddr V (va + i)) -> m' x = mem s x).
Proof.
  intros Ho Hw. destruct (copyout_run pt s va src Ho Hw) as (m' & Hr & Hu & Ho' & HV & _).
  exists m'. split_and!; [done| |done|by destruct Hu].
  rewrite copyin_run; [|done|lia|].
  - cbn [mem set_mem]. by rewrite Nat2Z.id, (uwritten_read V _ va src _ _ HV Hu).
  - apply (user_mapped_ext V); [done|]. apply (user_mapped_read _ true), (uw_mapped _ _ _ _ Hw).
Qed.

End Copy.

(** ** One mapped page

    A range inside one page, and the process of [Uvm.v] that has one. *)

Lemma one_page_range V T (va len : Z) :
  0 <= va -> 0 <= len -> va `mod` PGSIZE + len <= PGSIZE -> va < MAXVA ->
  has_flag (V (pg va)) PTE_V = true -> has_flag (V (pg va)) PTE_U = true ->
  has_flag (V (pg va)) PTE_W = true -> PTE2PA (V (pg va)) <> 0 ->
  (PTE2PA (V (pg va)) ∉ T) -> user_writable V T va len.
Proof.
  intros H0 Hl Hin Hm Fv Fu Fw Fp HT.
  assert (Hpg : forall x, va <= x < va + len -> pg va <= x < pg va + PGSIZE)
    by (intros x Hx; unfold pg; pose proof (Z.mod_pos_bound va PGSIZE ltac:(done)); lia).
  split; [split|..].
  - done.
  - change MAXVA with (2^26 * 4096) in *. unfold PGSIZE in *.
    pose proof (Z.mod_pos_bound va 4096). zlia.
  - intros x Hx. rewrite (pg_same va x) by auto. done.
  - intros x y Hx Hy. rewrite !(paddr_page V va) by auto. lia.
  - intros x Hx. by rewrite (pg_same va x) by auto.
Qed.

#[local] Existing Instance small_layout.
#[local] Existing Instance small_layout_ok.

#[local] Instance no_waits : Waits := {| max_waits := 0 |}.

#[local] Opaque one_page.

Lemma one_page_writable va len :
  0 <= va -> 0 <= len -> va + len <= PGSIZE -> va < PGSIZE ->
  own 2 one_page user_pt /\
  user_writable (pte_at 2 (mem one_page) user_pt) (tables 2 (mem one_page) user_pt) va len.
Proof.
  intros H0 Hl Hend Hva. destruct with_pt_ok as (Hi & _ & Ho & _).
  destruct one_page_populated as (l' & p & ts & Hpop).
  destruct (populated_pages _ _ _ _ _ _ _ _ _ _ Hi Ho Hpop) as (Hps & _ & _).
  destruct (Hps p) as (Hp & Hpt & _); [by apply list_elem_of_singleton|].
  pose proof (po_maps _ _ _ _ _ _ _ _ _ _ Hpop) as Hmaps.
  apply Forall2_cons_1 in Hmaps as [[Hpte _] _]. apply page_ok_valid_pa in Hp as Hpa.
  split; [exact (po_own _ _ _ _ _ _ _ _ _ _ Hpop)|].
  assert (Hperm : 0 <= Z.lor (Z.lor PTE_R PTE_U) PTE_W < 2^10) by (split; [discriminate|reflexivity]).
  assert (Em : va `mod` PGSIZE = va) by (apply Z.mod_small; lia).
  assert (E : pg va = 0) by (unfold pg; rewrite Em; lia).
  apply one_page_range; rewrite ?E, ?Em, ?Hpte, ?PTE2PA_mk_pte by assumption;
    rewrite ?has_flag_mk_pte by (split; [discriminate|reflexivity]); try assumption; try reflexivity.
  - change MAXVA with (2^38). unfold PGSIZE in *. lia.
  - by apply page_ok_nonzero.
Qed.

Lemma one_page_mapped :
  own 2 one_page user_pt /\
  user_writable (pte_at 2 (mem one_page) user_pt) (tables 2 (mem one_page) user_pt) 100 3.
Proof. apply one_page_writable; done. Qed.

Lemma copyout_copyin_witness :
  exists m', copyout user_pt 100 [7; 8; 9] one_page = Ok 0 (set_mem m' one_page) /\
    copyin user_pt 100 3 (set_mem m' one_page) = Ok (0, [7; 8; 9]) (set_mem m' one_page).
Proof.
  destruct one_page_mapped as [Ho Hw].
  destruct (copyout_copyin user_pt one_page 100 [7; 8; 9] Ho Hw) as (m' & H1 & H2 & _).
  exists m'. split; [exact H1|exact H2].
Defined.
