(* ===== verification/Fault.v ===== *)
(** * Page faults

    [vmfault] on the lazily allocated heap and on anonymous mappings: which
    faults it refuses, and that a fault it accepts maps one fresh page of
    zeroes with the permissions of the region. *)

From S2P Require Import Prelude Riscv Mem State Kalloc Vm Uvm Sched Bio Fs UserMem Copy.

#[local] Open Scope Z_scope.

(** ** The table of areas *)

Lemma get_area_run s i a : mmaptable s !! i = Some a -> get_area i s = Ok a s.
Proof. intros H. unfold get_area. by rewrite H. Qed.

Definition table_full_size s : Prop := length (mmaptable s) = Z.to_nat NMMAPAREA.

Lemma find_area_run (test : mmap_area -> bool) s :
  table_full_size s -> find_area test s = Ok (list_find test (mmaptable s)) s.
Proof.
  intros Hl. unfold find_area, all_areas. rewrite <- Hl, bind_run, (kfor_first _ test).
  - destruct (list_find test (mmaptable s)) as [[i a]|] eqn:E; [|done].
    apply list_find_Some in E as (Ha & Ht & _). rewrite (bind_ok _ _ _ _ _ (get_area_run _ _ _ Ha)).
    by apply Is_true_true in Ht as ->.
  - intros i a Ha E. by rewrite (bind_ok _ _ _ _ _ (get_area_run _ _ _ Ha)), E.
  - intros i a Ha E. rewrite (bind_ok _ _ _ _ _ (get_area_run _ _ _ Ha)), E. by eexists _, _.
Qed.

(** The area of process [me] that holds [va]. *)
Definition area_at s (me : nat) (va : Z) : option mmap_area :=
  snd <$> list_find (area_covers me va) (mmaptable s).

Lemma mmap_lookup_run s me va :
  table_full_size s -> (L_mmap ∉ held s) -> mmap_lookup me va s = Ok (area_at s me va) s.
Proof.
  intros Hl Hh. unfold mmap_lookup. kstep (acquire_ok L_mmap s Hh).
  kstep (find_area_run (area_covers me va) (set_held (L_mmap :: held s) s) Hl).
  rewrite bind_run, (release_head _ (held s)) by done. cbn [obind mret K_ret]. by destruct s.
Qed.

Lemma area_at_covers s me va a : area_at s me va = Some a -> area_covers me va a = true.
Proof.
  unfold area_at. destruct (list_find _ _) as [[i b]|] eqn:E; [|done]. intros [= ->].
  apply list_find_Some in E as (_ & H & _). by apply Is_true_true.
Qed.

Section Fault.
Context `{L : Layout} {LO : LayoutOk L} `{W : Waits}.

(** ** Mapping a page of zeroes *)

Definition zero_mapped (pt va perm : Z) s (l : list Z) s' : Prop :=
  exists l' p ts, populated pt (fun _ => perm) (fun _ _ => 0) s s' l l' [va] [p] ts.

(** Memory ran out: nothing is mapped, but the table may have gained pages, and
    at most one page is left on the free list. *)
Definition not_mapped (pt : Z) s (l : list Z) s' : Prop :=
  exists l' ts, populated pt (fun _ => 0) (fun _ _ => 0) s s' l l' [] [] ts /\ (length l' <= 1)%nat.

(** The code that [vmfault] and [mmap_map_page] share for a page of zeroes. *)
Lemma zero_page_run pt s l va perm ok :
  kmem_inv s l -> (L_kmem ∉ held s) -> own 2 s pt -> user_va va -> 0 <= perm < 2^10 ->
  has_flag (pte_at 2 (mem s) pt va) PTE_V = false ->
  returns ((page ← kalloc;
            if page =? 0 then mret (-1)
            else
              kmemset page 0 PGSIZE ;;
              r ← mappages pt va PGSIZE page perm;
              if negb (r =? 0) then kfree page ;; mret (-1) else mret ok) s) (fun r s' =>
    (r = ok /\ zero_mapped pt va perm s l s') \/ (r = -1 /\ not_mapped pt s l s')).
Proof.
  intros Hi Hh Ho Hva Hprm Hinv. destruct l as [|p l].
  { kstep (kalloc_none [] s Hh Hi). cbn [Z.eqb]. right. split; [done|]. exists [], []. split; [by apply populated_nil|cbn; lia]. }
  destruct (free_elem _ _ p Hi) as [Hpo _]; [by apply elem_of_cons; left|].
  kstep (kalloc_some [] s p l Hh Hi). rewrite (proj2 (Z.eqb_neq p 0)) by by apply page_ok_nonzero.
  kstep (kmemset_run p 0 PGSIZE (kalloc_post p s)). change (u8 0) with 0.
  set (m1 := mem_fill (mem (kalloc_post p s)) p PGSIZE 0).
  apply returns_bind. eapply returns_mono; [apply (map_fresh pt s p l); try done|].
  { intros x Hx. specialize (Hx p ltac:(by apply list_elem_of_singleton)).
    unfold m1, kalloc_post; cbn [mem set_mem]. by rewrite !mem_fill_outside. }
  intros r s1 (l1 & tabs & Hf & [[-> Hv]|(-> & -> & Hv)]); cbn [negb Z.eqb].
  - left. split; [done|]. exists l1, p, tabs.
    apply (populated_snoc pt (fun _ => perm) (fun _ _ => 0) s s s1 (p :: l) l l1 p tabs [] [] [] va m1); try done.
    + by apply populated_nil.
    + apply not_elem_of_nil.
    + intros o Hoff. unfold m1, mem_fill. by rewrite decide_True by lia.
  - destruct (fresh_step_undo _ _ _ _ _ _ _ _ Hi Ho Hh Hf) as (s2 & Hk & Hg & Ho2 & Ht & Hm & Hv2).
    rewrite bind_run, Hk. cbn [obind]. right. split; [done|]. exists [p], tabs. split; [|cbn; lia].
    apply (populated_keep pt (fun _ => 0) (fun _ _ => 0) s s s2 (p :: l) (p :: l) [p] tabs [] [] []); try done.
    + by apply populated_nil.
    + intros x Hx. by rewrite Hv2, Hv.
Qed.

Lemma ismapped_run s pt va :
  va < MAXVA -> own 2 s pt -> ismapped pt va s = Ok (has_flag (pte_at 2 (mem s) pt va) PTE_V) s.
Proof.
  intros Hva Ho. unfold ismapped. kstep (walk_read s pt va Hva).
  destruct (slot 2 (mem s) pt va) as [a|] eqn:E; cbn [from_option id].
  - rewrite (proj2 (Z.eqb_neq a 0)) by by eapply slot_nonzero.
    kunfold. by rewrite (pte_at_slot _ _ _ _ _ E).
  - unfold pte_at. by rewrite E.
Qed.

(** ** [vmfault] *)

(** The permissions of the page that holds [va], [None] if the access is not
    allowed. *)
Definition fault_perm s (me : nat) (p : proc) (va : Z) (read : bool) : option Z :=
  match area_at s me va with
  | Some a => if negb read && (Z.land (a_prot a) PROT_WRITE =? 0) then None else Some (mmap_pte_perm (a_prot a))
  | None => if (MMAPBASE <=? va) || (p_sz p <=? va) then None else Some (Z.lor (Z.lor PTE_W PTE_U) PTE_R)
  end.

Lemma mmap_pte_perm_range prot : 0 <= mmap_pte_perm prot < 2^10.
Proof. unfold mmap_pte_perm. destruct (negb _); split; done. Qed.

(** The state in which a process faults at [va]. *)
Record fault_state (pt : Z) s (l : list Z) (me : nat) (p : proc) : Prop := {
  ft_kmem : kmem_inv s l;
  ft_own : own 2 s pt;
  ft_free : (L_kmem ∉ held s) /\ (L_mmap ∉ held s);
  ft_cur : cur s = Some me;
  ft_proc : procs s !! me = Some p;
  ft_table : table_full_size s
}.

Lemma mmap_map_page_zero pt s l a va :
  kmem_inv s l -> (L_kmem ∉ held s) -> own 2 s pt -> user_va va ->
  Z.land (a_flags a) MAP_ANONYMOUS <> 0 -> a_addr a <= va < u64 (a_addr a + u64 (a_length a)) ->
  has_flag (pte_at 2 (mem s) pt va) PTE_V = false ->
  returns (mmap_map_page a pt va s) (fun r s' =>
    (r = 0 /\ zero_mapped pt va (mmap_pte_perm (a_prot a)) s l s') \/ (r = -1 /\ not_mapped pt s l s')).
Proof.
  intros Hi Hh Ho Hva Han Hr Hinv. unfold mmap_map_page.
  assert (PGROUNDDOWN va = va) as ->.
  { destruct Hva as [Hv Ha]. rewrite pg_rounddown by (change MAXVA with (2^38) in Hv; lia).
    unfold pg, page_aligned in *. lia. }
  cbv zeta. rewrite (proj2 (Z.ltb_ge va (a_addr a))) by lia.
  rewrite (proj2 (Z.leb_gt (u64 (a_addr a + u64 (a_length a))) va)) by lia. cbn [orb].
  kstep (ismapped_run s pt va ltac:(apply Hva) Ho). rewrite Hinv.
  rewrite (proj2 (Z.eqb_neq _ _) Han).
  apply (zero_page_run pt s l va (mmap_pte_perm (a_prot a)) 0); try done. apply mmap_pte_perm_range.
Qed.

Lemma vmfault_run pt s l me p va0 read (va := pg va0) :
  fault_state pt s l me p -> 0 <= va0 < MAXVA ->
  (forall a, area_at s me va = Some a -> Z.land (a_flags a) MAP_ANONYMOUS <> 0) ->
  match fault_perm s me p va read with
  | None => vmfault pt va0 read s = Ok (-1) s
  | Some perm =>
      if has_flag (pte_at 2 (mem s) pt va) PTE_V then vmfault pt va0 read s = Ok (-1) s
      else returns (vmfault pt va0 read s) (fun r s' =>
        (r = 1 /\ zero_mapped pt va perm s l s') \/ (r = -1 /\ not_mapped pt s l s'))
  end.
Proof.
  intros [Hi Ho [Hk Hm] Hc Hp Ht] Hv Han. unfold vmfault.
  kstep (curproc_run s me Hc). rewrite (pg_rounddown va0) by (change MAXVA with (2^38) in Hv; lia). fold va. cbv zeta.
  assert (Hva : user_va va).
  { split; [|apply pg_aligned]. unfold va. pose proof (pg_bounds va0). pose proof (Z.mod_le va0 PGSIZE). unfold pg in *. lia. }
  kstep (mmap_lookup_run s me va Ht Hm). unfold fault_perm.
  destruct (area_at s me va) as [a|] eqn:Ha.
  - destruct (negb read && (Z.land (a_prot a) PROT_WRITE =? 0)); [done|].
    rewrite (bind_ok _ _ _ _ _ (ismapped_run s pt va ltac:(apply Hva) Ho)).
    destruct (has_flag (pte_at 2 (mem s) pt va) PTE_V) eqn:Hinv; [done|]. apply returns_bind.
    pose proof (area_at_covers _ _ _ _ Ha) as Hcov. unfold area_covers in Hcov.
    apply andb_true_iff in Hcov as [[_ H1%Z.leb_le]%andb_true_iff H2%Z.ltb_lt].
    eapply returns_mono; [apply (mmap_map_page_zero pt s l a va); auto|].
    intros r s' [[-> H]|[-> H]]; [left|right]; done.
  - destruct (MMAPBASE <=? va); [done|]. cbn [orb].
    rewrite (bind_ok _ _ _ _ _ (getp_run s me p Hp)). destruct (p_sz p <=? va); [done|].
    rewrite (bind_ok _ _ _ _ _ (ismapped_run s pt va ltac:(apply Hva) Ho)).
    destruct (has_flag (pte_at 2 (mem s) pt va) PTE_V) eqn:Hinv; [done|]. by apply zero_page_run.
Qed.

(** C10. [vmfault] outside file mappings: a fault that the process may not
    take (beyond its size and outside its mappings, a write to a read-only
    mapping, or a page that is already mapped) returns -1 and changes nothing;
    every other fault maps exactly the faulting page, with the permissions of
    its region, to a fresh page of zeroes, or returns -1 with nothing mapped
    because memory ran out: at most one page is left on the free list, and the others
    have become tables. *)
Theorem vmfault_spec pt s l me p va0 read (va := pg va0) :
  fault_state pt s l me p -> 0 <= va0 < MAXVA ->
  (forall a, area_at s me va = Some a -> Z.land (a_flags a) MAP_ANONYMOUS <> 0) ->
  match fault_perm s me p va read with
  | None => vmfault pt va0 read s = Ok (-1) s
  | Some perm =>
      if has_flag (pte_at 2 (mem s) pt va) PTE_V then vmfault pt va0 read s = Ok (-1) s
      else returns (vmfault pt va0 read s) (fun r s' =>
        (r = 1 /\ zero_mapped pt va perm s l s') \/ (r = -1 /\ not_mapped pt s l s'))
  end.
Proof. apply vmfault_run. Qed.

End Fault.

(** ** A process of 5001 bytes, none of its pages mapped yet *)

#[local] Existing Instance small_layout.
#[local] Existing Instance small_layout_ok.

Definition running s (p : proc) : kernel :=
  set_cur (Some 0%nat) (set_procs (<[0%nat := p]> (procs s)) s).

Lemma running_memory s p l pt :
  kmem_inv s l -> own 2 s pt -> kmem_inv (running s p) l /\ own 2 (running s p) pt.
Proof. intros Hi Ho. split; [by apply (kmem_inv_refcnt [] s)|exact Ho]. Qed.

Lemma running_fields s p :
  mem (running s p) = mem s /\ held (running s p) = held s /\ mmaptable (running s p) = mmaptable s /\
  cur (running s p) = Some 0%nat /\ procs (running s p) = <[0%nat := p]> (procs s).
Proof. done. Qed.

Definition lazy_machine : kernel := running with_pt (set_p_sz 5001 zero_proc).

#[local] Opaque with_pt running.

Lemma lazy_machine_state :
  fault_state user_pt lazy_machine free6 0 (set_p_sz 5001 zero_proc) /\
  (forall x, pte_at 2 (mem lazy_machine) user_pt x = 0) /\ mmaptable lazy_machine = replicate 64 zero_area.
Proof.
  destruct with_pt_ok as (Hi & Hh & Ho & _ & Hv & _).
  assert (Hproc : length (procs with_pt) = 64%nat) by (vm_compute; reflexivity).
  assert (Harea : mmaptable with_pt = replicate 64 zero_area) by (vm_compute; reflexivity).
  assert (Hheld : held with_pt = []) by (vm_compute; reflexivity).
  destruct (running_memory with_pt (set_p_sz 5001 zero_proc) free6 user_pt Hi Ho) as [Hi' Ho'].
  destruct (running_fields with_pt (set_p_sz 5001 zero_proc)) as (Em & Eh & Et & Ec & Ep).
  fold lazy_machine in *. split; [split|split].
  - exact Hi'.
  - exact Ho'.
  - rewrite Eh, Hheld. split; apply not_elem_of_nil.
  - exact Ec.
  - rewrite Ep. apply list_lookup_insert_eq. rewrite Hproc. lia.
  - unfold table_full_size. rewrite Et, Harea. reflexivity.
  - rewrite Em. exact Hv.
  - rewrite Et. exact Harea.
Qed.

Lemma lazy_machine_value :
  result (@vmfault small_layout {| max_waits := 0 |} user_pt 5000 false) lazy_machine = Some 1.
Proof. vm_compute. reflexivity. Qed.

#[local] Opaque lazy_machine.

Lemma vmfault_spec_witness :
  returns (@vmfault small_layout {| max_waits := 0 |} user_pt 5000 false lazy_machine) (fun r s' =>
    r = 1 /\ exists p, pte_at 2 (mem s') user_pt 4096 = mk_pte p (Z.lor (Z.lor PTE_W PTE_U) PTE_R)).
Proof.
  destruct lazy_machine_state as (Hst & Hv & Ha).
  assert (Hno : area_at lazy_machine 0 (pg 5000) = None) by (unfold area_at; rewrite Ha; reflexivity).
  pose proof (@vmfault_spec small_layout small_layout_ok {| max_waits := 0 |} user_pt lazy_machine free6 0
    (set_p_sz 5001 zero_proc) 5000 false Hst ltac:(split; [discriminate|reflexivity])) as H.
  cbv zeta in H. rewrite Hno in H. specialize (H ltac:(discriminate)).
  unfold fault_perm in H. rewrite Hno, Hv in H. change (pg 5000) with 4096 in H.
  cbn [orb] in H. change (has_flag 0 PTE_V) with false in H. cbv iota in H.
  pose proof lazy_machine_value as Hval. unfold result in Hval.
  destruct (vmfault user_pt 5000 false lazy_machine) as [r s'| | |]; try discriminate Hval.
  injection Hval as ->. destruct H as [[_ (l' & p & ts & Hpop)]|[Hz _]]; [|discriminate Hz].
  split; [reflexivity|]. exists p. pose proof (po_maps _ _ _ _ _ _ _ _ _ _ Hpop) as Hm.
  apply Forall2_cons_1 in Hm as [[Hpte _] _]. exact Hpte.
Defined.
