(* ===== verification/Pipe.v ===== *)
(** * Pipes ([kernel/pipe.c])

    A pipe is a ring of 512 bytes with two free-running 32-bit counters.  The
    code is followed by the refinement: the ring implements a bounded queue of
    bytes, also when the counters wrap around. *)

From S2P Require Import Prelude Riscv Mem Ring State Kalloc Vm Uvm Sched Bio Fs UserMem Copy.

#[local] Open Scope Z_scope.

Definition PIPESIZE : Z := 512.

(** ** [killed] and [setkilled] of [kernel/proc.c] *)

Definition setkilled (i : nat) : K unit :=
  acquire (L_proc i) ;;
  setp i (set_p_killed 1) ;;
  release (L_proc i).

Definition killed (i : nat) : K Z :=
  acquire (L_proc i) ;;
  p ← getp i;
  release (L_proc i) ;;
  mret (p_killed p).

(** ** The ring *)

Definition getpi (pi : Z) : K pipe := gets (fun s => pipes s pi).
Definition setpi (pi : Z) (f : pipe -> pipe) : K unit :=
  modify (fun s => set_pipes (<[pi := f (pipes s pi)]> (pipes s)) s).

Definition pipe_full (p : pipe) : bool := pi_nwrite p =? u32 (pi_nread p + PIPESIZE).
Definition pipe_empty (p : pipe) : bool := pi_nread p =? pi_nwrite p.

(** [pi->data[pi->nwrite++ % PIPESIZE] = ch] *)
Definition pipe_push (ch : Z) (p : pipe) : pipe :=
  set_pi_nwrite (u32 (pi_nwrite p + 1))
    (set_pi_data (<[Z.to_nat (pi_nwrite p `mod` PIPESIZE) := ch]> (pi_data p)) p).

(** [pi->data[pi->nread % PIPESIZE]] *)
Definition pipe_front (p : pipe) : Z := default 0 (pi_data p !! Z.to_nat (pi_nread p `mod` PIPESIZE)).

(** [pi->nread++] *)
Definition pipe_pop (p : pipe) : pipe := set_pi_nread (u32 (pi_nread p + 1)) p.

Section Pipe.
Context `{L : Layout} `{W : Waits}.

Definition pipeclose (pi : Z) (writable : bool) : K unit :=
  acquire (L_pipe pi) ;;
  (if writable then
     setpi pi (set_pi_writeopen 0) ;;
     wakeup (Some (C_nread pi))
   else
     setpi pi (set_pi_readopen 0) ;;
     wakeup (Some (C_nwrite pi))) ;;
  p ← getpi pi;
  if (pi_readopen p =? 0) && (pi_writeopen p =? 0) then
    release (L_pipe pi) ;;
    kfree pi
  else release (L_pipe pi).

(** The loop of [pipewrite]; every iteration writes a byte or sleeps.  [inl i]
    leaves the loop, [inr] is [return -1]. *)
Fixpoint pipewrite_loop (fuel : nat) (me : nat) (pi addr n i : Z) : K (Z + unit) :=
  if i <? n then
    match fuel with
    | O => stuck "pipewrite: waits"
    | S f =>
        p ← getpi pi;
        k ← (if pi_readopen p =? 0 then mret 1 else killed me);
        if negb (k =? 0) then
          release (L_pipe pi) ;;
          mret (inr tt)
        else if pipe_full p then
          wakeup (Some (C_nread pi)) ;;
          sleep (C_nwrite pi) (L_pipe pi) ;;
          pipewrite_loop f me pi addr n i
        else
          pr ← getp me;
          r ← copyin (p_pagetable pr) (u64 (addr + i)) 1;
          if r.1 =? -1 then mret (inl i)
          else
            setpi pi (pipe_push (default 0 (head r.2))) ;;
            pipewrite_loop f me pi addr n (i + 1)
    end
  else mret (inl i).

Definition pipewrite (pi addr n : Z) : K Z :=
  me ← curproc;
  acquire (L_pipe pi) ;;
  r ← pipewrite_loop (Z.to_nat n + max_waits) me pi addr n 0;
  match r with
  | inr _ => mret (-1)
  | inl i =>
      wakeup (Some (C_nread pi)) ;;
      release (L_pipe pi) ;;
      mret i
  end.

(** The wait for data: [true] when the process was killed. *)
Fixpoint piperead_wait (fuel : nat) (me : nat) (pi : Z) : K bool :=
  p ← getpi pi;
  if pipe_empty p && negb (pi_writeopen p =? 0) then
    k ← killed me;
    if negb (k =? 0) then
      release (L_pipe pi) ;;
      mret true
    else
      match fuel with
      | O => stuck "piperead: waits"
      | S f => sleep (C_nread pi) (L_pipe pi) ;; piperead_wait f me pi
      end
  else mret false.

(** The copy loop; the result is [i] when it is left. *)
Fixpoint piperead_loop (fuel : nat) (me : nat) (pi addr n i : Z) : K Z :=
  if i <? n then
    match fuel with
    | O => stuck "piperead: fuel"
    | S f =>
        p ← getpi pi;
        if pipe_empty p then mret i
        else
          pr ← getp me;
          r ← copyout (p_pagetable pr) (u64 (addr + i)) [pipe_front p];
          if r =? -1 then mret (if i =? 0 then -1 else i)
          else
            setpi pi pipe_pop ;;
            piperead_loop f me pi addr n (i + 1)
    end
  else mret i.

Definition piperead (pi addr n : Z) : K Z :=
  me ← curproc;
  acquire (L_pipe pi) ;;
  k ← piperead_wait max_waits me pi;
  if k : bool then mret (-1)
  else
    i ← piperead_loop (Z.to_nat n) me pi addr n 0;
    wakeup (Some (C_nwrite pi)) ;;
    release (L_pipe pi) ;;
    mret i.

End Pipe.

(** ** The ring is a bounded queue *)

(** [q] is the contents of the pipe, the next byte to read first. *)
Record pipe_rep (p : pipe) (q : list Z) : Prop := {
  pr_size : length (pi_data p) = Z.to_nat PIPESIZE;
  pr_read : is_u32 (pi_nread p);
  pr_len : Z.of_nat (length q) <= PIPESIZE;
  pr_write : pi_nwrite p = u32 (pi_nread p + length q);
  pr_data : ring_holds PIPESIZE (pi_data p) (pi_nread p) q
}.

Lemma PIPESIZE_pos : 0 < PIPESIZE.
Proof. done. Qed.

Lemma PIPESIZE_div : (PIPESIZE | 2^32).
Proof. by exists (2^23). Qed.

#[local] Hint Resolve PIPESIZE_pos PIPESIZE_div : core.

Lemma pipe_empty_spec p q : pipe_rep p q -> pipe_empty p = bool_decide (q = []).
Proof.
  intros [_ Hr Hl Hw _]. unfold pipe_empty, PIPESIZE in *. rewrite Hw, Z.eqb_sym.
  rewrite <- (Z.add_0_r (pi_nread p)) at 2. rewrite <- (u32_small (pi_nread p + 0)) by (ints; lia).
  rewrite u32_eq_distance by lia. by destruct q.
Qed.

Lemma pipe_full_spec p q : pipe_rep p q -> pipe_full p = (Z.of_nat (length q) =? PIPESIZE).
Proof.
  intros [_ Hr Hl Hw _]. unfold pipe_full, PIPESIZE in *. rewrite Hw, Z.eqb_sym.
  rewrite u32_eq_distance by lia. apply Z.eqb_sym.
Qed.

Lemma pipe_push_rep p q c :
  pipe_rep p q -> Z.of_nat (length q) < PIPESIZE -> pipe_rep (pipe_push c p) (q ++ [c]).
Proof.
  intros [Hs Hr Hl Hw Hd] Hroom. unfold pipe_push. rewrite Hw.
  split; cbn [pi_data pi_nread pi_nwrite set_pi_nwrite set_pi_data]; rewrite ?length_insert, ?length_app.
  - done.
  - done.
  - cbn. lia.
  - rewrite u32_add_l. f_equal. cbn. lia.
  - by apply (ring_push PIPESIZE (2^32)).
Qed.

Lemma pipe_front_rep p c q : pipe_rep p (c :: q) -> pipe_front p = c.
Proof. intros [_ _ _ _ Hd]. unfold pipe_front. by rewrite (ring_front _ _ _ _ _ Hd). Qed.

Lemma pipe_pop_rep p c q : pipe_rep p (c :: q) -> pipe_rep (pipe_pop p) q.
Proof.
  intros [Hs Hr Hl Hw Hd]. unfold pipe_pop. cbn [length] in *.
  split; cbn [pi_data pi_nread pi_nwrite set_pi_nread].
  - done.
  - apply u32_range.
  - lia.
  - rewrite Hw, u32_add_l. f_equal. lia.
  - by eapply (ring_pop PIPESIZE (2^32)).
Qed.

(** ** Runs of [pipewrite] and [piperead] *)

Lemma killed_run s i p :
  procs s !! i = Some p -> (L_proc i ∉ held s) -> killed i s = Ok (p_killed p) s.
Proof.
  intros Hp Hh. unfold killed. kstep (acquire_ok _ _ Hh).
  kstep (getp_run (set_held (L_proc i :: held s) s) i p Hp).
  kstep (release_head (L_proc i) (held s) (set_held (L_proc i :: held s) s) eq_refl). by destruct s.
Qed.

(** Only the pipe [pi] differs, and only its ring. *)
Record pipe_step (pi : Z) (s s' : kernel) : Prop := {
  ps_only : s' = set_pipes (pipes s') s;
  ps_others : forall x, x <> pi -> pipes s' x = pipes s x;
  ps_readopen : pi_readopen (pipes s' pi) = pi_readopen (pipes s pi);
  ps_writeopen : pi_writeopen (pipes s' pi) = pi_writeopen (pipes s pi)
}.

Lemma pipe_step_refl pi s : pipe_step pi s s.
Proof. split; try done. by destruct s. Qed.

Lemma pipe_step_trans pi s1 s2 s3 : pipe_step pi s1 s2 -> pipe_step pi s2 s3 -> pipe_step pi s1 s3.
Proof.
  intros [A1 A2 A3 A4] [B1 B2 B3 B4]. split.
  - rewrite B1, A1. by destruct s1.
  - intros x Hx. rewrite B2, A2 by done. done.
  - congruence.
  - congruence.
Qed.

Lemma setpi_run pi f s :
  exists s', setpi pi f s = Ok tt s' /\ pipes s' pi = f (pipes s pi) /\
    s' = set_pipes (pipes s') s /\ (forall x, x <> pi -> pipes s' x = pipes s x).
Proof.
  eexists. split; [reflexivity|]. cbn. rewrite fn_lookup_insert. split_and!; try done.
  intros x Hx. by rewrite fn_lookup_insert_ne.
Qed.

Section Transfer.
Context `{L : Layout} {LO : LayoutOk L} `{W : Waits}.

Lemma uread_S m V va (n : nat) : uread m V va (S n) = m (paddr V va) :: uread m V (va + 1) n.
Proof.
  change (S n) with (1 + n)%nat. rewrite uread_app. cbn. by rewrite Z.add_0_r.
Qed.

(** A system call of process [me], with its memory. *)
Record caller (me : nat) (pr : proc) (s : kernel) : Prop := {
  ca_proc : procs s !! me = Some pr;
  ca_free : L_proc me ∉ held s;
  ca_own : own 2 s (p_pagetable pr)
}.

Lemma caller_step pi me pr s s' : pipe_step pi s s' -> caller me pr s -> caller me pr s'.
Proof. intros [-> _ _ _] [H1 H2 H3]. by split. Qed.

Lemma pipewrite_loop_run me pr pi addr n : forall (k fuel : nat) s q i,
  caller me pr s -> p_killed pr = 0 -> pi_readopen (pipes s pi) <> 0 ->
  user_mapped (pte_at 2 (mem s) (p_pagetable pr)) false addr n ->
  pipe_rep (pipes s pi) q -> Z.of_nat k = n - i -> 0 <= i -> (k <= fuel)%nat ->
  length q + (n - i) <= PIPESIZE ->
  exists s', pipewrite_loop fuel me pi addr n i s = Ok (inl n) s' /\ pipe_step pi s s' /\
    pipe_rep (pipes s' pi) (q ++ uread (mem s) (pte_at 2 (mem s) (p_pagetable pr)) (addr + i) k).
Proof.
  induction k as [|k IH]; intros fuel s q i Hca Hk Hro Hm Hrep Hki Hi Hf Hroom.
  - exists s. assert (i = n) as -> by lia. rewrite app_nil_r.
    split_and!; [|apply pipe_step_refl|done].
    destruct fuel; cbn [pipewrite_loop]; by rewrite Z.ltb_irrefl.
  - destruct fuel as [|fuel]; [lia|]. cbn [pipewrite_loop].
    rewrite (proj2 (Z.ltb_lt _ _)) by lia. rewrite bind_run. cbn [getpi gets obind].
    rewrite (proj2 (Z.eqb_neq _ _)) by done.
    kstep (killed_run s me pr (ca_proc _ _ _ Hca) (ca_free _ _ _ Hca)). rewrite Hk. cbn [negb Z.eqb].
    rewrite (pipe_full_spec _ _ Hrep), (proj2 (Z.eqb_neq _ _)) by lia.
    kstep (getp_run s me pr (ca_proc _ _ _ Hca)).
    pose proof (um_lo _ _ _ _ Hm). pose proof (um_hi _ _ _ _ Hm). change MAXVA with (2^38) in *.
    rewrite u64_small by (ints; lia).
    assert (Hm1 : user_mapped (pte_at 2 (mem s) (p_pagetable pr)) false (addr + i) 1).
    { destruct Hm as [H1 H2 H3]. split; [lia|lia|]. intros x Hx. apply H3. lia. }
    kstep (copyin_run s (p_pagetable pr) (addr + i) 1 (ca_own _ _ _ Hca) ltac:(lia) Hm1).
    cbn [fst snd Z.eqb]. change (Z.to_nat 1) with 1%nat. rewrite uread_S. cbn [head default].
    set (c := mem s (paddr _ (addr + i))).
    destruct (setpi_run pi (pipe_push c) s) as (s1 & Hs1 & Hp1 & Ho1 & Hx1).
    assert (Hst : pipe_step pi s s1) by (split; [done|done|by rewrite Hp1|by rewrite Hp1]).
    assert (Hmem : mem s1 = mem s) by (by rewrite Ho1).
    kstep Hs1.
    destruct (IH fuel s1 (q ++ [c]) (i + 1)) as (s' & Hr & Hst' & Hrep').
    + by eapply caller_step.
    + done.
    + by rewrite Hp1.
    + by rewrite Hmem.
    + rewrite Hp1. apply pipe_push_rep; [done|lia].
    + lia.
    + lia.
    + lia.
    + rewrite length_app. cbn. lia.
    + exists s'. split_and!; [done|by eapply pipe_step_trans|].
      rewrite Hmem, <- app_assoc in Hrep'. rewrite uread_S.
      replace (addr + i + 1) with (addr + (i + 1)) by lia. done.
Qed.

(** Only user memory and the pipe [pi] differ. *)
Record read_step (pi : Z) (s s' : kernel) : Prop := {
  rs_only : s' = set_mem (mem s') (set_pipes (pipes s') s);
  rs_others : forall x, x <> pi -> pipes s' x = pipes s x;
  rs_readopen : pi_readopen (pipes s' pi) = pi_readopen (pipes s pi);
  rs_writeopen : pi_writeopen (pipes s' pi) = pi_writeopen (pipes s pi)
}.

(** One byte from the ring to user memory. *)
Lemma piperead_byte me pr pi addr n fuel s c q i V T :
  caller me pr s -> tables 2 (mem s) (p_pagetable pr) = T ->
  (forall x, pte_at 2 (mem s) (p_pagetable pr) x = V x) ->
  user_writable V T addr n -> pipe_rep (pipes s pi) (c :: q) -> 0 <= i < n ->
  exists s1, piperead_loop (S fuel) me pi addr n i s = piperead_loop fuel me pi addr n (i + 1) s1 /\
    read_step pi s s1 /\ pipe_rep (pipes s1 pi) q /\ uwritten V (addr + i) [c] (mem s) (mem s1) /\
    caller me pr s1 /\ tables 2 (mem s1) (p_pagetable pr) = T /\
    (forall x, pte_at 2 (mem s1) (p_pagetable pr) x = V x).
Proof.
  intros Hca HT HV Hw Hrep Hi. cbn [piperead_loop]. rewrite (proj2 (Z.ltb_lt _ _)) by lia.
  rewrite bind_run. cbn [getpi gets obind].
  rewrite (pipe_empty_spec _ _ Hrep), bool_decide_eq_false_2 by done.
  kstep (getp_run s me pr (ca_proc _ _ _ Hca)).
  pose proof (um_lo _ _ _ _ (uw_mapped _ _ _ _ Hw)). pose proof (um_hi _ _ _ _ (uw_mapped _ _ _ _ Hw)).
  change MAXVA with (2^38) in *. rewrite u64_small, (pipe_front_rep _ _ _ Hrep) by (ints; lia).
  assert (Hw1 : user_writable V T (addr + i) 1) by (apply (user_writable_sub V T addr n); [done|lia|lia]).
  destruct (copyout_loop_run (p_pagetable pr) V T (page_fuel 1) s (addr + i) [c]
    (ca_own _ _ _ Hca) HT HV Hw1 ltac:(apply pages_left_fuel; cbn; lia)) as (m' & Hr & Hu & Ho' & HV' & HT').
  kstep Hr. cbn [Z.eqb].
  destruct (setpi_run pi pipe_pop (set_mem m' s)) as (s1 & Hs1 & Hp1 & Ho1 & Hx1).
  kstep Hs1. exists s1. assert (Hm1 : mem s1 = m') by (by rewrite Ho1).
  rewrite Hm1. split_and!; try done.
  - split; [by rewrite Hm1, Ho1; destruct s|done|by rewrite Hp1|by rewrite Hp1].
  - rewrite Hp1. by eapply pipe_pop_rep.
  - rewrite Ho1. by split; [apply Hca|apply Hca|].
Qed.

Lemma piperead_loop_run me pr pi addr n q2 V T : forall q1 fuel s i,
  caller me pr s -> tables 2 (mem s) (p_pagetable pr) = T ->
  (forall x, pte_at 2 (mem s) (p_pagetable pr) x = V x) ->
  user_writable V T addr n -> pipe_rep (pipes s pi) (q1 ++ q2) -> 0 <= i ->
  i + length q1 <= n -> i + length q1 = n \/ q2 = [] -> Z.of_nat fuel = n - i ->
  exists s', piperead_loop fuel me pi addr n i s = Ok (i + length q1) s' /\ read_step pi s s' /\
    pipe_rep (pipes s' pi) q2 /\ uwritten V (addr + i) q1 (mem s) (mem s') /\
    (forall x, pte_at 2 (mem s') (p_pagetable pr) x = V x).
Proof.
  induction q1 as [|c q1 IH]; intros fuel s i Hca HT HV Hw Hrep Hi Hle Hend Hf.
  - exists s. cbn [length app] in *. rewrite Z.add_0_r in *.
    split_and!; [|split; try done; by destruct s|done|apply uwritten_nil|done].
    destruct fuel as [|fuel]; cbn [piperead_loop].
    + by rewrite (proj2 (Z.ltb_ge _ _)) by lia.
    + destruct Hend as [->| ->]; [lia|]. rewrite (proj2 (Z.ltb_lt _ _)) by lia.
      rewrite bind_run. cbn [getpi gets obind]. by rewrite (pipe_empty_spec _ _ Hrep).
  - cbn [length app] in *. destruct fuel as [|fuel]; [lia|].
    destruct (piperead_byte me pr pi addr n fuel s c (q1 ++ q2) i V T Hca HT HV Hw Hrep ltac:(lia))
      as (s1 & Hr & [S1 S2 S3 S4] & Hrep1 & Hu1 & Hca1 & HT1 & HV1).
    destruct (IH fuel s1 (i + 1) Hca1 HT1 HV1 Hw Hrep1) as (s' & Hr' & [R1 R2 R3 R4] & Hrep' & Hu' & HV');
      [lia|lia|destruct Hend; [left; lia|by right]|lia|].
    exists s'. rewrite Hr, Hr'. split_and!; [f_equal; lia| |done| |done].
    + split; [by rewrite R1, S1; destruct s|intros x Hx; by rewrite R2, S2|congruence|congruence].
    + apply (uwritten_app V (addr + i) (c :: q1) 1 (mem s) (mem s1)); [cbn; lia| |done|].
      * intros x y Hx Hy. apply (uw_inj _ _ _ _ Hw); cbn in *; lia.
      * by replace (addr + i + 1%nat) with (addr + (i + 1)) by lia.
Qed.

End Transfer.

(** ** The contract of a pipe *)

(** Sequences of operations on the ring and on a queue: a write of a byte is
    accepted unless it is full, a read delivers a byte unless it is empty. *)
Inductive pipe_op : Type := PO_write (c : Z) | PO_read.

Definition ring_op (o : pipe_op) (p : pipe) : option Z * pipe :=
  match o with
  | PO_write c => if pipe_full p then (None, p) else (Some c, pipe_push c p)
  | PO_read => if pipe_empty p then (None, p) else (Some (pipe_front p), pipe_pop p)
  end.

Definition queue_op (o : pipe_op) (q : list Z) : option Z * list Z :=
  match o with
  | PO_write c => if Z.of_nat (length q) =? PIPESIZE then (None, q) else (Some c, q ++ [c])
  | PO_read => match q with [] => (None, q) | c :: q' => (Some c, q') end
  end.

Fixpoint run_ops {S} (f : pipe_op -> S -> option Z * S) (l : list pipe_op) (s : S) : list (option Z) * S :=
  match l with
  | [] => ([], s)
  | o :: l' => let '(r, s1) := f o s in let '(rs, s2) := run_ops f l' s1 in (r :: rs, s2)
  end.

Lemma ring_op_refines o p q :
  pipe_rep p q ->
  (ring_op o p).1 = (queue_op o q).1 /\ pipe_rep (ring_op o p).2 (queue_op o q).2.
Proof.
  intros Hr. pose proof (pr_len _ _ Hr). destruct o as [c|]; cbn.
  - rewrite (pipe_full_spec _ _ Hr). destruct (Z.eqb_spec (length q) PIPESIZE); [done|].
    split; [done|]. apply pipe_push_rep; [done|lia].
  - rewrite (pipe_empty_spec _ _ Hr). destruct q as [|c q]; [done|].
    rewrite bool_decide_eq_false_2 by done. cbn.
    rewrite (pipe_front_rep _ _ _ Hr). split; [done|]. by eapply pipe_pop_rep.
Qed.

(** C26. The ring of a pipe implements a queue of at most 512 bytes: every
    sequence of reads and writes of single bytes gives the same answers on
    both, also across the wrap-around of the 32-bit counters. *)
Theorem pipe_refines_queue l p q :
  pipe_rep p q ->
  (run_ops ring_op l p).1 = (run_ops queue_op l q).1 /\
  pipe_rep (run_ops ring_op l p).2 (run_ops queue_op l q).2.
Proof.
  revert p q. induction l as [|o l IH]; intros p q Hr; [done|].
  destruct (ring_op_refines o p q Hr) as [H1 H2]. cbn.
  destruct (ring_op o p) as [r p1], (queue_op o q) as [r' q1]. cbn in *.
  destruct (IH p1 q1 H2) as [H3 H4].
  destruct (run_ops ring_op l p1), (run_ops queue_op l q1). cbn in *. by subst.
Qed.

Section Contract.
Context `{L : Layout} {LO : LayoutOk L} `{W : Waits}.

(** A process in a system call. *)
Record in_syscall (me : nat) (pr : proc) (s : kernel) : Prop := {
  is_cur : cur s = Some me;
  is_held : held s = [];
  is_proc : procs s !! me = Some pr;
  is_table : table_ok s;
  is_weights : sleepers_ok s;
  is_own : own 2 s (p_pagetable pr)
}.

Definition woken_all (c : chan) (s : kernel) : kernel :=
  set_procs (imap (wake (Some c) (cur s)) (procs s)) s.

Lemma wakeup_release c lk s :
  table_ok s -> sleepers_ok s -> held s = [lk] -> (forall i, lk <> L_proc i) ->
  wakeup (Some c) s = Ok tt (woken_all c s) /\
  release lk (woken_all c s) = Ok tt (set_held [] (woken_all c s)).
Proof.
  intros Ht Hw Hh Hlk. split; [|by apply release_head].
  apply wakeup_run; [done| |done]. intros i. rewrite Hh, list_elem_of_singleton. intros E.
  by apply (Hlk i).
Qed.

Lemma locked_caller me pr pi s :
  in_syscall me pr s ->
  acquire (L_pipe pi) s = Ok tt (set_held [L_pipe pi] s) /\ caller me pr (set_held [L_pipe pi] s).
Proof.
  intros [H1 H2 H3 H4 H5 H6]. split.
  - rewrite acquire_ok by (rewrite H2; apply not_elem_of_nil). by rewrite H2.
  - split; [done| |done]. cbn. rewrite list_elem_of_singleton. done.
Qed.

Lemma pipewrite_loop_closed f me pr pi addr n s h :
  caller me pr s -> held s = L_pipe pi :: h -> 0 < n ->
  pi_readopen (pipes s pi) = 0 \/ p_killed pr <> 0 ->
  pipewrite_loop (S f) me pi addr n 0 s = Ok (inr tt) (set_held h s).
Proof.
  intros Hca Hh Hn Hc. cbn [pipewrite_loop]. rewrite (proj2 (Z.ltb_lt _ _)) by lia.
  rewrite bind_run. cbn [getpi gets obind].
  assert (Hk : exists k, (if pi_readopen (pipes s pi) =? 0 then mret 1 else killed me) s = Ok k s /\ k <> 0).
  { destruct (Z.eqb_spec (pi_readopen (pipes s pi)) 0); [by exists 1|].
    exists (p_killed pr). rewrite (killed_run s me pr); [|apply Hca|apply Hca]. naive_solver. }
  destruct Hk as (k & Hk & Hne). kstep Hk. rewrite (proj2 (Z.eqb_neq k 0)) by done. cbn [negb].
  by kstep (release_head (L_pipe pi) h s Hh).
Qed.

(** [pipewrite] of [n] bytes that fit into the pipe, from mapped user
    memory: if the read end is closed or the process has been killed it
    returns -1 with nothing changed; otherwise it returns [n], the bytes of the
    user's buffer are at the end of the queue, and the readers are awake. *)
Theorem pipewrite_spec s me pr pi addr n q :
  in_syscall me pr s -> pipe_rep (pipes s pi) q -> 0 < n -> length q + n <= PIPESIZE ->
  user_mapped (pte_at 2 (mem s) (p_pagetable pr)) false addr n ->
  if decide (pi_readopen (pipes s pi) = 0 \/ p_killed pr <> 0) then pipewrite pi addr n s = Ok (-1) s
  else exists P,
    pipewrite pi addr n s = Ok n (woken_all (C_nread pi) (set_pipes P s)) /\
    pipe_rep (P pi) (q ++ uread (mem s) (pte_at 2 (mem s) (p_pagetable pr)) addr (Z.to_nat n)) /\
    (forall x, x <> pi -> P x = pipes s x).
Proof.
  intros Hs Hr Hn Hroom Hm. destruct (locked_caller me pr pi s Hs) as [Ha Hca].
  pose proof Hs as [Hcur Hheld Hp Ht Hw Ho].
  unfold pipewrite. kstep (curproc_run s me Hcur). kstep Ha.
  case_decide as Hc.
  - destruct (Z.to_nat n + max_waits)%nat as [|f] eqn:Ef; [lia|].
    kstep (pipewrite_loop_closed f me pr pi addr n _ [] Hca eq_refl Hn Hc).
    by rewrite <- Hheld; destruct s.
  - apply Decidable.not_or in Hc as [Hro Hk]. apply dec_stable in Hk.
    destruct (pipewrite_loop_run me pr pi addr n (Z.to_nat n) (Z.to_nat n + max_waits) _ q 0
      Hca Hk Hro Hm Hr ltac:(lia) ltac:(lia) ltac:(lia) ltac:(lia)) as (s1 & H1 & [H2 H3 _ _] & H4).
    kstep H1. rewrite Z.add_0_r in H4. rewrite H2.
    destruct (wakeup_release (C_nread pi) (L_pipe pi) (set_pipes (pipes s1) (set_held [L_pipe pi] s)))
      as [Hwk Hrl]; try done.
    kstep Hwk. kstep Hrl. exists (pipes s1). split_and!; try done.
    unfold woken_all. cbn. by rewrite <- Hheld; destruct s.
Qed.

(** [piperead] from a pipe that has data, or whose write end is closed, into
    mapped user memory: it returns the smaller of [n] and the length of the
    queue (0 at end of file), that many bytes have moved from the front of the
    queue to the user's buffer, in order, no other byte of memory has changed,
    and the writers are awake. *)
Theorem piperead_spec s me pr pi addr n q (V := pte_at 2 (mem s) (p_pagetable pr))
    (k := Z.to_nat (Z.min n (length q))) :
  in_syscall me pr s -> pipe_rep (pipes s pi) q -> 0 <= n ->
  (q <> [] \/ pi_writeopen (pipes s pi) = 0) ->
  user_writable V (tables 2 (mem s) (p_pagetable pr)) addr n ->
  exists P m', piperead pi addr n s = Ok (Z.of_nat k) (woken_all (C_nwrite pi) (set_mem m' (set_pipes P s))) /\
    uwritten V addr (take k q) (mem s) m' /\ pipe_rep (P pi) (drop k q) /\
    (forall x, x <> pi -> P x = pipes s x).
Proof.
  intros Hs Hr Hn Hq Hm. destruct (locked_caller me pr pi s Hs) as [Ha Hca].
  pose proof Hs as [Hcur Hheld Hp Ht Hw Ho].
  unfold piperead. kstep (curproc_run s me Hcur). kstep Ha.
  assert (Hwait : piperead_wait max_waits me pi (set_held [L_pipe pi] s) = Ok false (set_held [L_pipe pi] s)).
  { destruct max_waits; cbn [piperead_wait]; rewrite bind_run; cbn [getpi gets obind pipes set_held];
      (rewrite (pipe_empty_spec _ _ Hr); case_bool_decide as E; [|done]);
      destruct Hq as [Hq|Hq]; [done|by rewrite Hq|done|by rewrite Hq]. }
  kstep Hwait.
  assert (Hlt : length (take k q) = k) by (rewrite length_take; lia).
  destruct (piperead_loop_run me pr pi addr n (drop k q) V (tables 2 (mem s) (p_pagetable pr)) (take k q)
    (Z.to_nat n) (set_held [L_pipe pi] s) 0) as (s1 & H1 & [R1 R2 _ _] & H3 & H4 & _); try done.
  - by rewrite take_drop.
  - lia.
  - destruct (decide (n <= length q)); [left; lia|right]. apply drop_ge. lia.
  - lia.
  - kstep H1. rewrite Z.add_0_r in H4. rewrite R1.
    destruct (wakeup_release (C_nwrite pi) (L_pipe pi)
      (set_mem (mem s1) (set_pipes (pipes s1) (set_held [L_pipe pi] s)))) as [Hwk Hrl]; try done.
    kstep Hwk. kstep Hrl. exists (pipes s1), (mem s1). split_and!; try done.
    rewrite Z.add_0_l, Hlt. unfold woken_all. cbn. by rewrite <- Hheld; destruct s.
Qed.

End Contract.

(** ** A process with one page of memory and a pipe whose counters are about to
    wrap around *)

#[local] Existing Instance small_layout.
#[local] Existing Instance small_layout_ok.
#[local] Instance pipe_waits : Waits := {| max_waits := 0 |}.

Lemma one_page_procs : procs one_page = procs boot /\ held one_page = [].
Proof. split; vm_compute; reflexivity. Qed.

#[local] Opaque one_page.

Definition pipe_proc : proc := set_p_pagetable user_pt zero_proc.
Definition pipe_ring : pipe := pipe_push 5 (mkPipe (replicate 512 0) (2^32 - 1) (2^32 - 1) 1 1).
Definition pipe_machine : kernel :=
  set_pipes (fun _ => pipe_ring)
    (set_cur (Some 0%nat) (set_procs (<[0%nat := pipe_proc]> (procs one_page)) one_page)).

Lemma pipe_ring_rep : pipe_rep pipe_ring [5].
Proof.
  apply (pipe_push_rep _ [] 5); [|done]. split; done.
Qed.

Lemma pipe_machine_fields :
  cur pipe_machine = Some 0%nat /\ held pipe_machine = held one_page /\
  procs pipe_machine = <[0%nat := pipe_proc]> (procs one_page) /\
  mem pipe_machine = mem one_page /\ refcnt pipe_machine = refcnt one_page /\
  pipes pipe_machine = (fun _ => pipe_ring).
Proof. unfold pipe_machine. by destruct one_page. Qed.

Lemma pipe_machine_mapped :
  own 2 pipe_machine user_pt /\
  user_writable (pte_at 2 (mem pipe_machine) user_pt) (tables 2 (mem pipe_machine) user_pt) 100 3.
Proof.
  destruct pipe_machine_fields as (_ & _ & _ & Hm & Hr & _). unfold own. rewrite Hm, Hr.
  exact one_page_mapped.
Qed.

Lemma pipe_machine_ok : in_syscall 0 pipe_proc pipe_machine.
Proof.
  destruct one_page_procs as [Hp Hh].
  destruct pipe_machine_fields as (Hc & Hh' & Hp' & _). rewrite Hp in Hp'. split.
  - exact Hc.
  - rewrite Hh'. exact Hh.
  - rewrite Hp'. reflexivity.
  - unfold table_ok. rewrite Hp'. reflexivity.
  - intros i p. rewrite Hp'. intros Hi%list_lookup_insert_Some Hsl.
    destruct Hi as [(_ & <- & _)|[_ Hi]]; [discriminate Hsl|].
    apply lookup_replicate in Hi as [-> _]. discriminate Hsl.
  - exact (proj1 pipe_machine_mapped).
Qed.

Lemma pipe_machine_pipe : pipe_rep (pipes pipe_machine 4096) [5].
Proof. destruct pipe_machine_fields as (_ & _ & _ & _ & _ & ->). exact pipe_ring_rep. Qed.

#[local] Opaque pipe_machine.

Lemma pipe_refines_queue_witness :
  (run_ops ring_op [PO_write 6; PO_read; PO_read; PO_read] pipe_ring).1
    = [Some 6; Some 5; Some 6; None].
Proof.
  rewrite (proj1 (pipe_refines_queue [PO_write 6; PO_read; PO_read; PO_read] _ _ pipe_ring_rep)).
  reflexivity.
Defined.

Lemma pipewrite_spec_witness :
  exists P, pipewrite 4096 100 3 pipe_machine = Ok 3 (woken_all (C_nread 4096) (set_pipes P pipe_machine)) /\
    pipe_rep (P 4096) ([5] ++ uread (mem pipe_machine) (pte_at 2 (mem pipe_machine) user_pt) 100 3).
Proof.
  pose proof (user_mapped_read _ _ _ _ (uw_mapped _ _ _ _ (proj2 pipe_machine_mapped))) as Hm.
  pose proof (pipewrite_spec pipe_machine 0 pipe_proc 4096 100 3 [5] pipe_machine_ok pipe_machine_pipe
    ltac:(reflexivity) ltac:(discriminate) Hm) as H.
  destruct pipe_machine_fields as (_ & _ & _ & _ & _ & Hp). rewrite decide_False in H.
  - destruct H as (P & H1 & H2 & _). exists P. split; [exact H1|exact H2].
  - rewrite Hp. intros [E|E]; [discriminate E|apply E; reflexivity].
Defined.

Lemma piperead_spec_witness :
  exists P m', piperead 4096 100 3 pipe_machine =
      Ok 1 (woken_all (C_nwrite 4096) (set_mem m' (set_pipes P pipe_machine))) /\
    m' (paddr (pte_at 2 (mem pipe_machine) user_pt) 100) = 5 /\ pipe_rep (P 4096) [].
Proof.
  destruct (piperead_spec pipe_machine 0 pipe_proc 4096 100 3 [5] pipe_machine_ok pipe_machine_pipe
    ltac:(discriminate) ltac:(left; discriminate) (proj2 pipe_machine_mapped)) as (P & m' & H1 & [H2 _] & H3 & _).
  exists P, m'. split; [exact H1|]. split; [exact (H2 0%nat 5 eq_refl)|exact H3].
Defined.
