(* ===== verification/Console.v ===== *)
(** * The console and the UART ([kernel/console.c], [kernel/uart.c])

    What is sent to the UART is the list [output].  Characters that arrive are
    arguments of [uartintr]: the device presents them one at a time. *)

From S2P Require Import Prelude Riscv Mem Ring State Printf Kalloc Vm Sched Bio Fs UserMem Pipe.

#[local] Open Scope Z_scope.

Definition INPUT_BUF_SIZE : Z := 128.

Definition getc_ : K console := gets kcons.
Definition setc_ (f : console -> console) : K unit := modify (fun s => set_kcons (f (kcons s)) s).

(** [cons.buf[i % INPUT_BUF_SIZE]] *)
Definition cons_at (c : console) (i : Z) : Z :=
  default 0 (cons_buf c !! Z.to_nat (i `mod` INPUT_BUF_SIZE)).

(** A C string in a fixed array: the bytes before the NUL. *)
Definition cut_nul (l : list Z) : list Z := default l (upto_nul l).

(** ** [procdump] of [kernel/proc.c] *)

Definition state_name (st : procstate) : list Z :=
  match st with
  | UNUSED => str "unused"
  | USED => str "used"
  | SLEEPING => str "sleep "
  | RUNNABLE => str "runble"
  | RUNNING => str "run   "
  | ZOMBIE => str "zombie"
  end.

Definition procdump : K unit :=
  printf [10] [] ;;
  kiter all_procs (fun i _ =>
    p ← getp i;
    if bool_decide (p_state p = UNUSED) then mret tt
    else
      printf (str "%d %s %s")
        [A_num (p_pid p); A_str (Some (state_name (p_state p))); A_str (Some (cut_nul (p_name p)))] ;;
      printf [10] []) tt.

Section Console.
Context `{L : Layout} `{W : Waits}.

(** ** [uart.c] *)

(** [uartinit] writes the device's registers only: nothing the model has. *)
Definition uartinit : K unit := mret tt.

Fixpoint uart_wait (fuel : nat) : K unit :=
  b ← gets tx_busy;
  if b =? 0 then mret tt
  else
    match fuel with
    | O => stuck "uartwrite: waits"
    | S f => sleep C_tx L_tx ;; uart_wait f
    end.

Definition uartwrite (buf : list Z) : K unit :=
  acquire L_tx ;;
  kiter buf (fun c _ =>
    uart_wait max_waits ;;
    modify (fun s => set_output (output s ++ [u8 c]) s) ;;
    modify (set_tx_busy 1)) tt ;;
  release L_tx.

(** ** [console.c] *)

(** The loop of [consolewrite]: batches of 32 bytes. *)
Fixpoint consolewrite_loop (fuel : nat) (user_src : bool) (src n i : Z) : K Z :=
  if i <? n then
    match fuel with
    | O => stuck "consolewrite: fuel"
    | S f =>
        let nn := Z.min 32 (n - i) in
        r ← either_copyin user_src (u64 (src + i)) nn;
        if r.1 =? -1 then mret i
        else
          uartwrite r.2 ;;
          consolewrite_loop f user_src src n (i + nn)
    end
  else mret i.

Definition consolewrite (user_src : bool) (src n : Z) : K Z :=
  consolewrite_loop (Z.to_nat n) user_src src n 0.

(** The wait for input: [true] when the process was killed. *)
Fixpoint cons_wait (fuel : nat) : K bool :=
  c ← getc_;
  if cons_r c =? cons_w c then
    me ← curproc;
    k ← killed me;
    if negb (k =? 0) then
      release L_cons ;;
      mret true
    else
      match fuel with
      | O => stuck "consoleread: waits"
      | S f => sleep C_cons L_cons ;; cons_wait f
      end
  else mret false.

Definition ctrl (x : Z) : Z := x - 64.

(** The loop of [consoleread]: [inl n] leaves it with [n] bytes still wanted,
    [inr] is [return -1]. *)
Fixpoint consoleread_loop (fuel : nat) (user_dst : bool) (dst n target : Z) : K (Z + unit) :=
  if 0 <? n then
    match fuel with
    | O => stuck "consoleread: fuel"
    | S f =>
        k ← cons_wait max_waits;
        if k : bool then mret (inr tt)
        else
          x ← getc_;
          let c := cons_at x (cons_r x) in
          setc_ (set_cons_r (u32 (cons_r x + 1))) ;;
          if c =? ctrl 68 then
            when (n <? target) (setc_ (fun x => set_cons_r (u32 (cons_r x - 1)) x)) ;;
            mret (inl n)
          else
            r ← either_copyout user_dst dst [c];
            if r =? -1 then mret (inl n)
            else if c =? 10 then mret (inl (n - 1))
            else consoleread_loop f user_dst (u64 (dst + 1)) (n - 1) target
    end
  else mret (inl n).

Definition consoleread (user_dst : bool) (dst n : Z) : K Z :=
  let target := u32 n in
  acquire L_cons ;;
  r ← consoleread_loop (Z.to_nat n) user_dst dst n target;
  match r with
  | inr _ => mret (-1)
  | inl n' => release L_cons ;; mret (i32 (target - n'))
  end.

(** The loop of control-U. *)
Fixpoint kill_line (fuel : nat) : K unit :=
  c ← getc_;
  if negb (cons_e c =? cons_w c) && negb (cons_at c (u32 (cons_e c - 1)) =? 10) then
    match fuel with
    | O => stuck "consoleintr: fuel"
    | S f =>
        setc_ (set_cons_e (u32 (cons_e c - 1))) ;;
        consputc BACKSPACE ;;
        kill_line f
    end
  else mret tt.

Definition consoleintr (c : Z) : K unit :=
  acquire L_cons ;;
  (if c =? ctrl 80 then procdump
   else if c =? ctrl 85 then
     x ← getc_;
     kill_line (Z.to_nat (u32 (cons_e x - cons_w x)))
   else if (c =? ctrl 72) || (c =? 127) then
     x ← getc_;
     when (negb (cons_e x =? cons_w x))
       (setc_ (set_cons_e (u32 (cons_e x - 1))) ;;
        consputc BACKSPACE)
   else
     x ← getc_;
     when (negb (c =? 0) && (u32 (cons_e x - cons_r x) <? INPUT_BUF_SIZE))
       (let c' := if c =? 13 then 10 else c in
        consputc c' ;;
        setc_ (fun x => set_cons_e (u32 (cons_e x + 1))
          (set_cons_buf (<[Z.to_nat (cons_e x `mod` INPUT_BUF_SIZE) := u8 c']> (cons_buf x)) x)) ;;
        y ← getc_;
        when ((c' =? 10) || (c' =? ctrl 68) || (u32 (cons_e y - cons_r y) =? INPUT_BUF_SIZE))
          (setc_ (fun x => set_cons_w (cons_e x) x) ;;
           wakeup (Some C_cons)))) ;;
  release L_cons.

Definition consoleinit : K unit :=
  uartinit ;;
  modify (fun s => set_devsw (<[Z.to_nat CONSOLE := true]> (devsw s)) s).

(** The receiver of the UART holds [input]: [LSR] says whether a byte waits, and a
    read of [RHR] takes it. *)
Definition uartgetc (input : list Z) : Z * list Z :=
  match input with
  | c :: rest => (u8 c, rest)
  | [] => (-1, [])
  end.

Fixpoint uart_drain (fuel : nat) (input : list Z) : K unit :=
  match fuel with
  | O => stuck "uartintr: fuel"
  | S f =>
      let '(c, rest) := uartgetc input in
      if c =? -1 then mret tt
      else consoleintr c ;; uart_drain f rest
  end.

(** An interrupt of the UART: [idle] is its status bit for the transmitter and
    [input] the characters it has received. *)
Definition uartintr (idle : bool) (input : list Z) : K unit :=
  acquire L_tx ;;
  when idle
    (modify (set_tx_busy 0) ;;
     wakeup (Some C_tx)) ;;
  release L_tx ;;
  uart_drain (S (length input)) input.

(** The loop ends and hands each byte to the console, in order. *)
Lemma uart_drain_all input f s s' :
  (length input < f)%nat -> kiter (u8 <$> input) (fun c _ => consoleintr c) tt s = Ok tt s' -> uart_drain f input s = Ok tt s'.
Proof.
  revert f s. induction input as [|c input IH]; intros [|f] s Hf E; cbn in Hf; try lia; [done|].
  cbn [uart_drain uartgetc fmap list_fmap kiter] in *. pose proof (Z.mod_pos_bound c (2^8) eq_refl) as Hc.
  rewrite (proj2 (Z.eqb_neq (u8 c) (-1))) by (unfold u8; lia).
  unfold mbind, K_bind in *. destruct (consoleintr (u8 c) s) as [[] s1| | |]; try done. apply IH; [lia|exact E].
Qed.

End Console.

(** ** The line discipline

    [ready] are the characters [consoleread] may take, [edit] those of the line
    that is being typed. *)

Record cons_rep (c : console) (ready edit : list Z) : Prop := {
  cr_size : length (cons_buf c) = Z.to_nat INPUT_BUF_SIZE;
  cr_len : Z.of_nat (length (ready ++ edit)) <= INPUT_BUF_SIZE;
  cr_w : cons_w c = u32 (cons_r c + length ready);
  cr_e : cons_e c = u32 (cons_r c + length (ready ++ edit));
  cr_data : ring_holds INPUT_BUF_SIZE (cons_buf c) (cons_r c) (ready ++ edit);
  cr_line : Forall (fun x => x <> 10) edit
}.

Definition enter (c : Z) : Z := if c =? 13 then 10 else c.

(** What a character does to the two lists. *)
Definition cons_input (c : Z) (ready edit : list Z) : list Z * list Z :=
  if c =? ctrl 85 then (ready, [])
  else if (c =? ctrl 72) || (c =? 127) then (ready, take (pred (length edit)) edit)
  else if (c =? 0) || (Z.of_nat (length (ready ++ edit)) =? INPUT_BUF_SIZE) then (ready, edit)
  else
    let edit' := edit ++ [enter c] in
    if (enter c =? 10) || (enter c =? ctrl 68) || (Z.of_nat (length (ready ++ edit')) =? INPUT_BUF_SIZE)
    then (ready ++ edit', []) else (ready, edit').

Definition erase : list Z := [8; 32; 8].

(** What it sends to the terminal. *)
Definition cons_echo (c : Z) (ready edit : list Z) : list Z :=
  if c =? ctrl 85 then mjoin (replicate (length edit) erase)
  else if (c =? ctrl 72) || (c =? 127) then (if decide (edit = []) then [] else erase)
  else if (c =? 0) || (Z.of_nat (length (ready ++ edit)) =? INPUT_BUF_SIZE) then []
  else [enter c].

Lemma INPUT_BUF_SIZE_pos : 0 < INPUT_BUF_SIZE.
Proof. done. Qed.

Lemma INPUT_BUF_SIZE_div : (INPUT_BUF_SIZE | 2^32).
Proof. by exists (2^25). Qed.

#[local] Hint Resolve INPUT_BUF_SIZE_pos INPUT_BUF_SIZE_div : core.

Lemma cons_editing c ready edit : cons_rep c ready edit -> (cons_e c =? cons_w c) = bool_decide (edit = []).
Proof.
  intros [_ Hl Hw He _ _]. rewrite Hw, He. rewrite length_app in *. unfold INPUT_BUF_SIZE in *.
  rewrite u32_eq_distance by lia. destruct edit; cbn [length].
  - rewrite bool_decide_eq_true_2 by done. apply Z.eqb_eq. lia.
  - rewrite bool_decide_eq_false_2 by done. apply Z.eqb_neq. lia.
Qed.

Lemma cons_used c ready edit :
  cons_rep c ready edit -> u32 (cons_e c - cons_r c) = Z.of_nat (length (ready ++ edit)).
Proof.
  intros [_ Hl _ He _ _]. rewrite He. apply u32_distance. unfold INPUT_BUF_SIZE in *. ints. lia.
Qed.

(** Taking the last character of the line back. *)
Lemma cons_erase_rep c ready edit x :
  cons_rep c ready (edit ++ [x]) ->
  cons_rep (set_cons_e (u32 (cons_e c - 1)) c) ready edit /\
  cons_at c (u32 (cons_e c - 1)) = x.
Proof.
  intros [Hs Hl Hw He Hd Hline]. rewrite app_assoc in *. split.
  - split; cbn [cons_buf cons_r cons_w cons_e set_cons_e]; try done.
    + rewrite length_app in Hl. cbn in Hl. lia.
    + rewrite He, u32_sub_l. f_equal. rewrite (length_app (ready ++ edit)). cbn. lia.
    + by apply ring_prefix in Hd.
    + by apply Forall_app in Hline as [].
  - unfold cons_at, u32. rewrite He. unfold u32. by rewrite (ring_last _ (2^32) ltac:(auto) ltac:(auto) ltac:(done) _ _ _ _ Hd).
Qed.

(** Adding a character to the line. *)
Lemma cons_type_rep c ready edit x :
  cons_rep c ready edit -> Z.of_nat (length (ready ++ edit)) < INPUT_BUF_SIZE ->
  let c' := set_cons_e (u32 (cons_e c + 1))
    (set_cons_buf (<[Z.to_nat (cons_e c `mod` INPUT_BUF_SIZE) := x]> (cons_buf c)) c) in
  (x <> 10 -> cons_rep c' ready (edit ++ [x])) /\
  cons_rep (set_cons_w (cons_e c') c') (ready ++ edit ++ [x]) [] /\
  u32 (cons_e c' - cons_r c') = Z.of_nat (length (ready ++ edit ++ [x])).
Proof.
  intros [Hs Hl Hw He Hd Hline] Hroom c'.
  assert (Hlen : length ((ready ++ edit) ++ [x]) = S (length (ready ++ edit)))
    by (rewrite (length_app (ready ++ edit)); cbn; lia).
  assert (Hd' : ring_holds INPUT_BUF_SIZE (cons_buf c') (cons_r c') ((ready ++ edit) ++ [x]))
    by (subst c'; cbn; rewrite He; by apply (ring_push INPUT_BUF_SIZE (2^32))).
  assert (He' : cons_e c' = u32 (cons_r c' + length ((ready ++ edit) ++ [x])))
    by (subst c'; cbn; rewrite He, u32_add_l, Hlen; f_equal; lia).
  rewrite app_assoc. split_and!.
  - intros Hx. split; rewrite ?app_assoc; try done.
    + subst c'. cbn. by rewrite length_insert.
    + lia.
    + apply Forall_app. split; [done|]. by apply Forall_singleton.
  - split; cbn [cons_buf cons_r cons_w cons_e set_cons_w]; rewrite ?app_nil_r; try done.
    + subst c'. cbn. by rewrite length_insert.
    + lia.
  - rewrite He'. apply u32_distance. unfold INPUT_BUF_SIZE in *. ints. lia.
Qed.

Lemma backspace_run s : consputc BACKSPACE s = Ok tt (set_output (output s ++ erase) s).
Proof.
  change (consputc BACKSPACE) with (uartputc_sync 8 ;; uartputc_sync 32 ;; uartputc_sync 8).
  kstep (uartputc_sync_run 8 s). kstep (uartputc_sync_run 32 (set_output (output s ++ [8]) s)).
  rewrite uartputc_sync_run. cbn. by rewrite <- !app_assoc.
Qed.

(** Only the console's variables and the output differ. *)
Definition cons_step (s s' : kernel) : Prop := s' = set_kcons (kcons s') (set_output (output s') s).

Lemma kill_line_run ready edit : forall fuel s,
  cons_rep (kcons s) ready edit -> (length edit <= fuel)%nat ->
  exists s', kill_line fuel s = Ok tt s' /\ cons_rep (kcons s') ready [] /\
    output s' = output s ++ mjoin (replicate (length edit) erase) /\ cons_step s s'.
Proof.
  induction edit as [|x edit IH] using rev_ind; intros fuel s Hr Hf.
  - exists s. cbn. rewrite app_nil_r. split_and!; [|done|done|by destruct s].
    destruct fuel; cbn [kill_line]; rewrite bind_run; cbn [getc_ gets obind];
      by rewrite (cons_editing _ _ _ Hr).
  - rewrite length_app in Hf. cbn in Hf. destruct fuel as [|fuel]; [lia|].
    destruct (cons_erase_rep _ _ _ _ Hr) as [Hr' Hx].
    cbn [kill_line]. rewrite bind_run. cbn [getc_ gets obind].
    rewrite (cons_editing _ _ _ Hr), bool_decide_eq_false_2 by (by destruct edit). rewrite Hx.
    pose proof (cr_line _ _ _ Hr) as Hline. apply Forall_app in Hline as [_ Hline].
    rewrite Forall_singleton in Hline.
    rewrite (proj2 (Z.eqb_neq _ _)) by done. cbn [negb andb].
    rewrite bind_run. cbn [setc_ modify obind].
    kstep (backspace_run (set_kcons (set_cons_e (u32 (cons_e (kcons s) - 1)) (kcons s)) s)).
    match goal with |- context [kill_line fuel ?s1] => destruct (IH fuel s1) as (s' & H1 & H2 & H3 & H4) end.
    + exact Hr'.
    + lia.
    + exists s'. split_and!; [done|done| |].
      * rewrite H3. cbn [output set_output set_kcons]. rewrite length_app, <- app_assoc. cbn [length].
        by rewrite Nat.add_comm.
      * rewrite H4. by destruct s.
Qed.

Section Discipline.
Context `{L : Layout} `{W : Waits}.

(** Control-U, backspace. *)
Lemma kill_run s ready edit :
  cons_rep (kcons s) ready edit ->
  exists k, (x ← getc_; kill_line (Z.to_nat (u32 (cons_e x - cons_w x)))) s =
    Ok tt (set_kcons k (set_output (output s ++ mjoin (replicate (length edit) erase)) s)) /\
    cons_rep k ready [].
Proof.
  intros Hr. rewrite bind_run. cbn [getc_ gets obind].
  destruct (kill_line_run ready edit (Z.to_nat (u32 (cons_e (kcons s) - cons_w (kcons s)))) s Hr)
    as (s2 & Hk & H2 & H3 & H4).
  - destruct Hr as [_ Hl Hw' He _ _]. rewrite He, Hw', length_app in *. unfold INPUT_BUF_SIZE in *.
    rewrite u32_sub_r, u32_sub_l, u32_small by (ints; lia). lia.
  - exists (kcons s2). split; [|done]. by rewrite Hk, H4, H3.
Qed.

Lemma erase_run s ready edit :
  cons_rep (kcons s) ready edit ->
  exists k, (x ← getc_;
     when (negb (cons_e x =? cons_w x))
       (setc_ (set_cons_e (u32 (cons_e x - 1))) ;; consputc BACKSPACE)) s =
    Ok tt (set_kcons k (set_output (output s ++ (if decide (edit = []) then [] else erase)) s)) /\
    cons_rep k ready (take (pred (length edit)) edit).
Proof.
  intros Hr. rewrite bind_run. cbn [getc_ gets obind]. rewrite (cons_editing _ _ _ Hr).
  destruct edit as [|x edit _] using rev_ind.
  - exists (kcons s). split; [|done]. rewrite decide_True, app_nil_r by done. by destruct s.
  - rewrite bool_decide_eq_false_2, decide_False by (by destruct edit). cbn [negb when].
    destruct (cons_erase_rep _ _ _ _ Hr) as [Hr' _].
    rewrite bind_run. cbn [setc_ modify obind]. rewrite backspace_run.
    exists (set_cons_e (u32 (cons_e (kcons s) - 1)) (kcons s)). split; [by destruct s|].
    rewrite length_app. cbn. replace (pred (length edit + 1)) with (length edit) by lia.
    by rewrite take_app_length.
Qed.

Lemma commit_choice (ready edit : list Z) x :
  (if (enter x =? 10) || (enter x =? ctrl 68) ||
      (Z.of_nat (length (ready ++ edit ++ [enter x])) =? INPUT_BUF_SIZE)
   then (ready ++ edit ++ [enter x], []) else (ready, edit ++ [enter x])).1 <> ready <->
  (enter x =? 10) || (enter x =? ctrl 68) ||
      (Z.of_nat (length (ready ++ edit ++ [enter x])) =? INPUT_BUF_SIZE) = true.
Proof.
  destruct (_ || _); cbn; [|naive_solver]. split; [done|]. intros _ E.
  apply (f_equal length) in E. rewrite !length_app in E. cbn in E. lia.
Qed.

Lemma room_choice c (ready edit : list Z) :
  Z.of_nat (length (ready ++ edit)) <= INPUT_BUF_SIZE ->
  negb (c =? 0) && (Z.of_nat (length (ready ++ edit)) <? INPUT_BUF_SIZE) =
  negb ((c =? 0) || (Z.of_nat (length (ready ++ edit)) =? INPUT_BUF_SIZE)).
Proof.
  intros Hl. rewrite negb_orb. f_equal. apply eq_true_iff_eq.
  rewrite negb_true_iff, Z.ltb_lt, Z.eqb_neq. lia.
Qed.

(** The handler of an ordinary character. *)
Lemma type_run c s ready edit :
  is_byte c -> cons_rep (kcons s) ready edit ->
  table_ok s -> sleepers_ok s -> no_proc_locks s ->
  (c =? 0) || (Z.of_nat (length (ready ++ edit)) =? INPUT_BUF_SIZE) = false ->
  let commit := (enter c =? 10) || (enter c =? ctrl 68) ||
      (Z.of_nat (length (ready ++ edit ++ [enter c])) =? INPUT_BUF_SIZE) in
  exists k,
    (consputc (enter c) ;;
     setc_ (fun x => set_cons_e (u32 (cons_e x + 1))
       (set_cons_buf (<[Z.to_nat (cons_e x `mod` INPUT_BUF_SIZE) := u8 (enter c)]> (cons_buf x)) x)) ;;
     y ← getc_;
     when ((enter c =? 10) || (enter c =? ctrl 68) || (u32 (cons_e y - cons_r y) =? INPUT_BUF_SIZE))
       (setc_ (fun x => set_cons_w (cons_e x) x) ;; wakeup (Some C_cons))) s =
      Ok tt (set_kcons k (set_output (output s ++ [enter c])
        (if commit then woken_all C_cons s else s))) /\
    (if commit then cons_rep k (ready ++ edit ++ [enter c]) [] else cons_rep k ready (edit ++ [enter c])).
Proof.
  intros Hb Hr Ht Hw Hn Hroom commit.
  assert (Hby : is_byte (enter c)) by (unfold enter; destruct (c =? 13); [split; lia|done]).
  assert (Hu : u8 (enter c) = enter c) by (apply Z.mod_small; ints; lia).
  apply orb_false_iff in Hroom as [_ Hroom%Z.eqb_neq]. pose proof (cr_len _ _ _ Hr).
  destruct (cons_type_rep _ _ _ (enter c) Hr ltac:(lia)) as (H1 & H2 & H3). cbv zeta in H1, H2, H3.
  kstep (consputc_run (enter c) s Hby). rewrite bind_run. cbn [setc_ modify obind].
  rewrite bind_run. cbn [getc_ gets obind kcons set_kcons set_output]. rewrite Hu.
  set (k1 := set_cons_e _ _) in *. rewrite H3. fold commit.
  destruct commit eqn:Ec; cbn [when].
  - exists (set_cons_w (cons_e k1) k1). split; [|done]. rewrite bind_run. cbn [setc_ modify obind].
    rewrite wakeup_run by done. by destruct s.
  - exists k1. split; [by destruct s|]. apply H1. unfold commit in Ec.
    apply orb_false_iff in Ec as [[Ec _]%orb_false_iff _]. by apply Z.eqb_neq.
Qed.

(** C37. The console's input handler implements the line discipline: typed
    characters collect in the current line, backspace and control-U take back
    at most that line, never what has been handed over, a full line (newline,
    control-D or a full buffer) becomes readable at once and wakes the readers,
    input that does not fit is dropped; the echo is exactly what the edit
    shows.  (Control-P, which prints the process table, is not covered.) *)
Theorem consoleintr_spec c s ready edit :
  is_byte c -> c <> ctrl 80 -> cons_rep (kcons s) ready edit ->
  table_ok s -> sleepers_ok s -> no_proc_locks s -> (L_cons ∉ held s) ->
  let '(ready', edit') := cons_input c ready edit in
  exists k, consoleintr c s =
    Ok tt (set_kcons k (set_output (output s ++ cons_echo c ready edit)
      (if decide (ready' = ready) then s else woken_all C_cons s))) /\
    cons_rep k ready' edit'.
Proof.
  intros Hb HP Hr Ht Hw Hn Hh. unfold consoleintr, cons_input, cons_echo.
  kstep (acquire_ok _ _ Hh). set (s1 := set_held (L_cons :: held s) s).
  assert (Hn1 : no_proc_locks s1) by (intros i; cbn; rewrite elem_of_cons; intros [E|E]; [done|by apply (Hn i)]).
  assert (Hrel : forall k o p, release L_cons (set_kcons k (set_output o (set_procs p s1))) =
    Ok tt (set_kcons k (set_output o (set_procs p s)))).
  { intros k o p. rewrite (release_head L_cons (held s)) by done. by destruct s. }
  rewrite (proj2 (Z.eqb_neq c (ctrl 80))) by done.
  destruct (c =? ctrl 85); [|destruct ((c =? ctrl 72) || (c =? 127))].
  - destruct (kill_run s1 ready edit Hr) as (k & Hk & Hrep). kstep Hk. exists k.
    rewrite decide_True by done. split; [|done]. rewrite <- (set_procs_id s1), <- (set_procs_id s) at 1. apply Hrel.
  - destruct (erase_run s1 ready edit Hr) as (k & Hk & Hrep). kstep Hk. exists k.
    rewrite (decide_True (P := ready = ready)) by done. split; [|done].
    rewrite <- (set_procs_id s1), <- (set_procs_id s) at 1. apply Hrel.
  - rewrite bind_run. rewrite bind_run. cbn [getc_ gets obind]. rewrite (cons_used (kcons s1) ready edit Hr).
    rewrite (room_choice c ready edit (cr_len _ _ _ Hr)).
    destruct ((c =? 0) || _) eqn:Eroom; cbn [negb when].
    + cbn [mret K_ret obind]. exists (kcons s). rewrite decide_True, app_nil_r by done.
      split; [|done]. rewrite (release_head L_cons (held s)) by done. by destruct s.
    + destruct (type_run c s1 ready edit Hb Hr Ht Hw Hn1 Eroom) as (k & Hrun & Hk). cbv zeta in Hrun, Hk.
      fold (enter c). rewrite Hrun. cbn [obind].
      pose proof (commit_choice ready edit c) as Hcc. destruct ((enter c =? 10) || _ || _) eqn:Ec; exists k.
      * rewrite decide_False by (by apply Hcc). split; [|done]. apply Hrel.
      * rewrite decide_True by done. split; [|done].
        rewrite <- (set_procs_id s1), <- (set_procs_id s) at 1. apply Hrel.
Qed.

End Discipline.

Lemma boot_console : cons_rep (kcons boot) [] [].
Proof. by split. Qed.

Lemma boot_sleepers : table_ok boot /\ sleepers_ok boot /\ no_proc_locks boot /\ (L_cons ∉ held boot).
Proof.
  split_and!; [done| |intros i; apply not_elem_of_nil|apply not_elem_of_nil].
  intros i p Hi Hs. apply lookup_replicate in Hi as [-> _]. discriminate Hs.
Qed.

Lemma consoleintr_spec_witness :
  exists k, consoleintr 97 boot = Ok tt (set_kcons k (set_output [97] boot)) /\
    cons_rep k [] [97].
Proof.
  destruct boot_sleepers as (H1 & H2 & H3 & H4).
  pose proof (consoleintr_spec 97 boot [] []
    ltac:(split; [discriminate|reflexivity]) ltac:(discriminate) boot_console H1 H2 H3 H4) as H.
  cbn in H. exact H.
Defined.
