(* ===== verification/File.v ===== *)
(** * Open files ([kernel/file.c], [pipealloc]) *)

From S2P Require Import Prelude Riscv Mem State Printf Kalloc Vm Sched Bio Log Fs UserMem Pipe Console.

#[local] Open Scope Z_scope.

Section File.
Context `{L : Layout} `{W : Waits}.

Definition filealloc : K (option nat) :=
  acquire L_ftable ;;
  r ← kfor (seq 0 (Z.to_nat NFILE)) (fun f _ =>
        x ← getf f;
        if f_ref x =? 0 then
          setf f (set_f_ref 1) ;;
          mret (inr f)
        else mret (inl tt)) tt;
  release L_ftable ;;
  mret (match r with inr f => Some f | inl _ => None end).

Definition filedup (f : nat) : K nat :=
  acquire L_ftable ;;
  x ← getf f;
  if f_ref x <? 1 then panic "filedup"
  else
    setf f (set_f_ref (f_ref x + 1)) ;;
    release L_ftable ;;
    mret f.

(** Where the code dereferences [f->ip]. *)
Definition ip_of (x : file) : K nat :=
  match f_ip x with
  | Some ip => mret ip
  | None => stuck "f->ip is null"
  end.

Definition fileclose (f : nat) : K unit :=
  acquire L_ftable ;;
  x ← getf f;
  if f_ref x <? 1 then panic "fileclose"
  else
    setf f (set_f_ref (f_ref x - 1)) ;;
    if 0 <? f_ref x - 1 then release L_ftable
    else
      ff ← getf f;
      setf f (fun y => set_f_type FD_NONE (set_f_ref 0 y)) ;;
      release L_ftable ;;
      match f_type ff with
      | FD_PIPE => pipeclose (f_pipe ff) (negb (f_writable ff =? 0))
      | FD_INODE | FD_DEVICE =>
          begin_op ;;
          ip ← ip_of ff;
          iput ip ;;
          end_op
      | FD_NONE => mret tt
      end.

(** The bytes of a [struct stat]; four bytes of padding before the size. *)
Definition stat_bytes (st : stat) : list Z :=
  put32 (u32 (st_dev st)) 0 (put32 (u32 (st_ino st)) 4
    (put_le 2 (u16 (st_type st)) 8 (put_le 2 (u16 (st_nlink st)) 10
      (put_le 8 (u64 (st_size st)) 16 (replicate 24 0))))).

Definition filestat (f : nat) (addr : Z) : K Z :=
  me ← curproc;
  x ← getf f;
  match f_type x with
  | FD_INODE | FD_DEVICE =>
      ilock (f_ip x) ;;
      ip ← ip_of x;
      st ← stati ip;
      iunlock (f_ip x) ;;
      p ← getp me;
      r ← copyout (p_pagetable p) addr (stat_bytes st);
      mret (if r <? 0 then -1 else 0)
  | _ => mret (-1)
  end.

(** Is [devsw[major]] connected?  Only the console ever is. *)
Definition dev_connected (major : Z) : K bool :=
  if (major <? 0) || (NDEV <=? major) then mret false
  else
    d ← gets devsw;
    mret (default false (d !! Z.to_nat major)).

Definition fileread (f : nat) (addr n : Z) : K Z :=
  x ← getf f;
  if f_readable x =? 0 then mret (-1)
  else
    match f_type x with
    | FD_PIPE => piperead (f_pipe x) addr n
    | FD_DEVICE =>
        c ← dev_connected (f_major x);
        if negb c then mret (-1)
        else if f_major x =? CONSOLE then consoleread true addr n
        else stuck "devsw"
    | FD_INODE =>
        ilock (f_ip x) ;;
        ip ← ip_of x;
        y ← getf f;
        r ← readi put_user ip addr (f_off y) (u32 n);
        let r' := i32 r.1 in
        when (0 <? r') (setf f (fun y => set_f_off (u32 (f_off y + r')) y)) ;;
        iunlock (f_ip x) ;;
        mret r'
    | FD_NONE => panic "fileread"
    end.

(** [((MAXOPBLOCKS-1-1-2) / 2) * BSIZE] *)
Definition write_max : Z := ((MAXOPBLOCKS - 1 - 1 - 2) / 2) * BSIZE.

(** The loop of [filewrite] over pieces that fit in a transaction; the result
    is [i] when it is left. *)
Fixpoint filewrite_loop (fuel : nat) (f : nat) (addr n i : Z) : K Z :=
  if i <? n then
    match fuel with
    | O => stuck "filewrite: fuel"
    | S k =>
        let n1 := Z.min (n - i) write_max in
        begin_op ;;
        x ← getf f;
        ilock (f_ip x) ;;
        ip ← ip_of x;
        y ← getf f;
        r ← writei get_user ip (u64 (addr + i)) (f_off y) n1;
        when (0 <? r) (setf f (fun y => set_f_off (u32 (f_off y + r)) y)) ;;
        iunlock (f_ip x) ;;
        end_op ;;
        if negb (r =? n1) then mret i
        else filewrite_loop k f addr n (i + r)
    end
  else mret i.

Definition filewrite (f : nat) (addr n : Z) : K Z :=
  x ← getf f;
  if f_writable x =? 0 then mret (-1)
  else
    match f_type x with
    | FD_PIPE => pipewrite (f_pipe x) addr n
    | FD_DEVICE =>
        c ← dev_connected (f_major x);
        if negb c then mret (-1)
        else if f_major x =? CONSOLE then consolewrite true addr n
        else stuck "devsw"
    | FD_INODE =>
        i ← filewrite_loop (Z.to_nat (n / write_max + 1)) f addr n 0;
        mret (if i =? n then n else -1)
    | FD_NONE => panic "filewrite"
    end.

(** ** [pipealloc]

    [None] is the result -1; the cleanup at [bad] closes the files that were
    allocated. *)

Definition pipe_ends (f0 f1 : nat) (pi : Z) : K unit :=
  setf f0 (fun x => set_f_pipe pi (set_f_writable 0 (set_f_readable 1 (set_f_type FD_PIPE x)))) ;;
  setf f1 (fun x => set_f_pipe pi (set_f_writable 1 (set_f_readable 0 (set_f_type FD_PIPE x)))).

Definition pipealloc : K (option (nat * nat)) :=
  a ← filealloc;
  match a with
  | None => mret None
  | Some f0 =>
      b ← filealloc;
      match b with
      | None => fileclose f0 ;; mret None
      | Some f1 =>
          pi ← kalloc;
          if pi =? 0 then
            fileclose f0 ;;
            fileclose f1 ;;
            mret None
          else
            setpi pi (fun p => set_pi_nread 0 (set_pi_nwrite 0 (set_pi_writeopen 1 (set_pi_readopen 1 p)))) ;;
            pipe_ends f0 f1 pi ;;
            mret (Some (f0, f1))
      end
  end.

End File.
