(* ===== verification/Fileio.v ===== *)
(** * Reading and writing open files

    [fileread] on a file: the bytes of the file arrive in the memory of the process. *)

From S2P Require Import Prelude Riscv Mem State Printf Kalloc Vm Uvm Sched Bio Log Crash Fs FsData Balloc Inode Readi Ilock Path UserMem Copy Pipe Console File.

#[local] Open Scope Z_scope.

Section Fileio.
Context `{L : Layout} {LO : LayoutOk L} `{W : Waits} (me : nat) (pid : Z).
Implicit Types s : kernel.

(** ** Delivering bytes to user memory *)

(** [l] has been written at [dst] in the address space [V] of the process. *)
Record at_user (pt : Z) (V : Z -> Z) (T : list Z) (dst : Z) (m0 : Z -> Z) (a : Z) (l : list Z) s : Prop := {
  au_place : a = dst + length l;
  au_cur : cur s = Some me;
  au_proc : exists p, procs s !! me = Some p /\ p_pagetable p = pt;
  au_own : own 2 s pt;
  au_tables : tables 2 (mem s) pt = T;
  au_map : forall x, pte_at 2 (mem s) pt x = V x;
  au_bytes : uwritten V dst l m0 (mem s)
}.

Lemma delivers_user pt V T dst m0 (N : nat) :
  user_writable V T dst N -> delivers put_user (at_user pt V T dst m0) N.
Proof.
  intros Hw. split.
  - intros a l d s [-> Hc (p & Hp & Hpt) Ho HT HV Hu] HN.
    assert (Hwd : user_writable V T (dst + length l) (length d)) by (apply (user_writable_sub V T dst N); [done|lia|lia]).
    pose proof (um_lo _ _ _ _ (uw_mapped _ _ _ _ Hw)). pose proof (um_hi _ _ _ _ (uw_mapped _ _ _ _ Hw)).
    change MAXVA with (2^38) in *.
    destruct (copyout_loop_run pt V T (page_fuel (length d)) s (dst + length l) d Ho HT HV Hwd) as (m' & E & Hu' & Ho' & HV' & HT').
    { apply pages_left_fuel. lia. }
    exists (dst + length l + length d), (set_mem m' s). split_and!.
    + unfold put_user, either_copyout. rewrite bind_run. kstep (curproc_run s me Hc). kstep (getp_run s me p Hp).
      rewrite Hpt. unfold copyout. rewrite E. cbn [obind Z.eqb]. by rewrite u64_small by (ints; lia).
    + by destruct s.
    + split; try done; [rewrite length_app; lia|by exists p|].
      apply (uwritten_app V dst (l ++ d) (length l) m0 (mem s)).
      * rewrite length_app. lia.
      * intros x y Hx Hy. rewrite length_app in *. apply (uw_inj _ _ _ _ Hw); lia.
      * by rewrite take_app_length.
      * by rewrite drop_app_length.
  - intros a l s s' F [Ha Hc Hp Ho HT HV Hu]. rewrite F. by split.
Qed.

(** ** [fileread] *)

(** What a read from the open file [f] needs: the file is open for reading and its
    inode is in use and in order. *)
Record inode_file s (f : nat) (x : file) (i : nat) (d : dinode) : Prop := {
  oi_file : ftab s !! f = Some x;
  oi_type : f_type x = FD_INODE;
  oi_ip : f_ip x = Some i;
  oi_off : is_u32 (f_off x);
  oi_inode : exists ip, itab s !! i = Some ip /\ 0 < i_ref ip /\ dinode_on (view s) (sb s) (i_inum ip) = d;
  oi_dinode : d_type d <> 0;
  oi_ok : file_ok (view s) (inode_of d)
}.

(** The process can write [N] bytes at [dst]. *)
Definition user_room s (dst : Z) (N : nat) (V : Z -> Z) : Prop :=
  exists p, procs s !! me = Some p /\ own 2 s (p_pagetable p) /\ (forall x, pte_at 2 (mem s) (p_pagetable p) x = V x) /\
    user_writable V (tables 2 (mem s) (p_pagetable p)) dst N.

Lemma read_range_same v ip ip' off n : to_dinode ip = to_dinode ip' -> read_range v ip off n = read_range v ip' off n.
Proof. intros E. unfold read_range. by rewrite (file_bytes_same v ip ip'). Qed.

Lemma read_range_end v ip off n :
  file_ok v ip -> 0 <= off -> read_range v ip off n <> [] -> off + length (read_range v ip off n) <= MAXFILE * BSIZE.
Proof.
  intros Hfo Ho. pose proof (length_file_bytes _ _ Hfo) as Lf. pose proof (fo_size _ _ Hfo) as Hs. unfold read_range.
  destruct (2^32 <=? off + n); [done|]. rewrite length_take, length_drop, Lf. intros Hne.
  destruct (decide (i_size ip <= off)); [|lia]. destruct Hne. by rewrite drop_ge, take_nil by (rewrite Lf; lia).
Qed.

(** The offset moves by what was read. *)
Lemma advance_run s f x r :
  ftab s !! f = Some x -> 0 <= r -> (0 < r -> is_u32 (f_off x + r)) ->
  when (0 <? r) (setf f (fun y => set_f_off (u32 (f_off y + r)) y)) s =
    Ok tt (set_ftab (<[f := set_f_off (f_off x + r) x]> (ftab s)) s).
Proof.
  intros Hf Hr Hu. destruct (Z.ltb_spec 0 r) as [Hpos|Hz]; cbn [when].
  - unfold setf. rewrite Hf. by rewrite u32_small by by apply Hu.
  - replace r with 0 by lia. rewrite Z.add_0_r, list_insert_id; [by destruct s|]. rewrite Hf. by destruct x.
Qed.

Lemma fileread_run s f x i d dst n V :
  can_read me pid s -> icache_ok pid [] s -> inode_file s f x i d -> f_readable x <> 0 -> 0 <= n < 2^31 ->
  user_room s dst (Z.to_nat n) V ->
  let bs := read_range (view s) (inode_of d) (f_off x) n in
  exists s', fileread f dst n s = Ok (Z.of_nat (length bs)) s' /\
    uwritten V dst bs (mem s) (mem s') /\ ftab s' = <[f := set_f_off (f_off x + length bs) x]> (ftab s) /\
    same_fs pid s s' /\ icache_ok pid [] s' /\ forall k, irefs (itab s') k = irefs (itab s) k.
Proof.
  intros Hr Hic [Hf Hty Hfi Hoff (ip & Hi & Hp & Hd) Hdt Hfo] Hrd Hn (p & Hpr & Hown & HV & Hw) bs.
  destruct (ilock_run me pid [] s i ip Hr Hic (not_elem_of_nil i) Hi Hp) as (ip1 & s1 & E1 & S1 & T1 & LA & Hic1); [by rewrite Hd|].
  rewrite Hd in LA. pose proof LA as [A1 A2 A3 A4 A5 A6]. pose proof (same_but_itab_read me pid _ _ S1 Hr) as Hr1.
  assert (Hi1 : itab s1 !! i = Some ip1) by (rewrite T1; apply list_lookup_insert_eq; by eapply lookup_lt_Some).
  pose proof (sv_frame _ _ _ S1) as F1.
  assert (Hdev : i_dev ip1 = ROOTDEV) by (apply (ic_dev _ _ _ Hic1 i ip1 Hi1); lia).
  assert (Ed : to_dinode (inode_of d) = to_dinode ip1) by by rewrite to_dinode_inode_of.
  assert (Ebs : read_range (view s1) ip1 (f_off x) n = bs).
  { unfold bs. rewrite <- (read_range_same _ (inode_of d)) by done. unfold read_range.
    by rewrite (file_bytes_ext (view s1) (view s)) by apply S1. }
  assert (Hfo1 : file_ok (view s1) ip1).
  { apply (file_ok_ext (view s)); [intros bn; by rewrite (same_but_itab_view _ _ _ _ S1)|]. by apply (file_ok_same _ (inode_of d)). }
  assert (Lbs : (length bs <= Z.to_nat n)%nat).
  { unfold bs, read_range. destruct (_ <=? _); [cbn; lia|]. rewrite length_take. lia. }
  set (pt := p_pagetable p) in *. set (T := tables 2 (mem s) pt) in *.
  assert (HD : at_user pt V T dst (mem s) dst [] s1).
  { rewrite F1. split; [cbn; lia|apply Hr|by exists p|done|done|done|apply uwritten_nil]. }
  destruct (readi_run me pid put_user (at_user pt V T dst (mem s)) (Z.to_nat n) i ip1 s1 (f_off x) n dst
    (delivers_user pt V T dst (mem s) (Z.to_nat n) Hw) Hr1 Hi1 Hfo1 Hoff) as (a2 & s2 & E2 & S2 & D2);
    [unfold is_u32; lia|done|by rewrite Ebs|]. rewrite Ebs in E2, D2.
  pose proof (same_but_mem_read me pid _ _ S2 Hr1) as Hr2. pose proof (sv_frame _ _ _ S2) as F2.
  assert (Tf : ftab s2 = ftab s) by by rewrite F2, F1.
  assert (Hlen : length bs < 2^31) by lia. set (r := Z.of_nat (length bs)) in *. assert (0 <= r) as Hr0 by (unfold r; lia).
  set (x' := set_f_off (f_off x + r) x).
  assert (E3 : when (0 <? r) (setf f (fun y => set_f_off (u32 (f_off y + r)) y)) s2 = Ok tt (set_ftab (<[f := x']> (ftab s2)) s2)).
  { apply advance_run; [by rewrite Tf|done|]. intros Hpos. unfold is_u32 in *.
    pose proof (read_range_end (view s) (inode_of d) (f_off x) n Hfo ltac:(lia)) as He. fold bs in He.
    change (MAXFILE * BSIZE) with 274432 in He. assert (bs <> []) as Hb by (intros E; unfold r in Hpos; by rewrite E in Hpos).
    specialize (He Hb). lia. }
  set (s3 := set_ftab _ s2) in *.
  assert (Hr3 : can_read me pid s3).
  { apply (others_read me pid s2); [|done]. unfold others. by destruct s2. }
  assert (Hi3 : itab s3 !! i = Some ip1) by (cbn [itab s3 set_ftab]; by rewrite (same_but_mem_itab _ _ _ S2)).
  assert (Hic3 : icache_ok pid [i] s3).
  { apply (icache_same pid _ s1); [done|..].
    - exact (same_but_mem_itab _ _ _ S2).
    - change (sb s3) with (sb s2). by rewrite F2.
    - intros bn. exact (same_but_mem_view _ _ _ bn S2). }
  destruct (iunlock_run me pid [] s3 i ip1 Hr3 Hic3 (not_elem_of_nil i) Hi3) as (E4 & S4 & Hic4). set (s4 := set_itab _ s3) in *.
  exists s4. split_and!; [|apply D2|cbn; by rewrite Tf| |done|].
  - unfold fileread, getf. rewrite bind_run, Hf. cbn [obind]. rewrite (proj2 (Z.eqb_neq _ _) Hrd), Hty, Hfi. kstep E1.
    unfold ip_of. rewrite Hfi, bind_run. cbn [obind mret K_ret]. rewrite bind_run.
    assert (ftab s1 = ftab s) as -> by by rewrite F1. rewrite Hf. cbn [obind]. rewrite u32_small by (unfold is_u32; lia). kstep E2.
    cbv zeta. cbn [fst]. fold r. rewrite (i32_small r) by (unfold is_i32; lia). kstep E3. by kstep E4.
  - apply (same_fs_trans pid s s3); [|by apply same_itab_fs].
    apply (same_fs_trans pid s s2); [|apply same_fs_others with me; [done|unfold others; by destruct s2]].
    apply (same_fs_trans pid s s1); [by apply same_itab_fs|by apply same_mem_fs].
  - intros k. unfold s4. cbn [itab set_itab]. rewrite (irefs_insert _ _ ip1) by done.
    change (itab s3) with (itab s2). rewrite (same_but_mem_itab _ _ _ S2), T1, (irefs_insert _ _ ip) by done.
    assert (He : entry_for ROOTDEV (i_inum ip) ip) by (split_and!; [done|by apply (ic_dev _ _ _ Hic i)|done]).
    rewrite !(entry_refs_for (i_inum ip)) by (split_and!; cbn; lia || congruence). cbn. rewrite A3. lia.
Qed.

(** C14. [fileread] on an open file delivers the file: the value is the number of
    bytes between the offset and the end of the file, at most [n]; these bytes, read
    through the direct and the indirect block, are in the memory of the process at
    [dst], and no other byte of memory changes; the offset moves past them.  The
    inode is unlocked again and is as the disk says, its references are as before,
    and the file system and the rest of the kernel do not change. *)
Theorem fileread_spec s f x i d dst n V :
  can_read me pid s -> icache_ok pid [] s -> inode_file s f x i d -> f_readable x <> 0 -> 0 <= n < 2^31 ->
  user_room s dst (Z.to_nat n) V ->
  let bs := read_range (view s) (inode_of d) (f_off x) n in
  exists s', fileread f dst n s = Ok (Z.of_nat (length bs)) s' /\
    uwritten V dst bs (mem s) (mem s') /\ ftab s' = <[f := set_f_off (f_off x + length bs) x]> (ftab s) /\
    same_fs pid s s' /\ icache_ok pid [] s' /\ forall k, irefs (itab s') k = irefs (itab s) k.
Proof. exact (fileread_run s f x i d dst n V). Qed.
End Fileio.

(** ** Reading the file of [Path.v]

    File 0 is open on inode 2, which no one has locked yet, at offset 1. *)

#[local] Existing Instance small_layout.
#[local] Existing Instance small_layout_ok.

#[local] Opaque one_page.

Definition open_entry : inode := set_i_ref 1 (set_i_inum 2 (set_i_dev ROOTDEV zero_inode)).
Definition open_desc : file := mkFile FD_INODE 1 1 0 0 (Some 0%nat) 1 0.

Definition open_machine (x : file) (D : Z -> list Z) (s0 : kernel) : kernel :=
  set_ftab (<[0%nat := x]> (ftab boot))
    (set_itab (<[0%nat := open_entry]> (itab boot)) (mounted D (set_p_pagetable user_pt zero_proc) s0)).

Lemma others_set t u s : others s (set_ftab t (set_itab u s)).
Proof. by destruct s. Qed.

Lemma view_set t u s bn : view (set_ftab t (set_itab u s)) bn = view s bn.
Proof. by destruct s. Qed.

Lemma open_machine_read x D s0 : can_read 0 1 (open_machine x D s0).
Proof.
  apply (others_read 0 1 (mounted D (set_p_pagetable user_pt zero_proc) s0)); [|apply mounted_read].
  unfold open_machine. apply others_set.
Qed.

Lemma open_machine_view x D s0 bn : view (open_machine x D s0) bn = D bn.
Proof. unfold open_machine. rewrite view_set. apply mounted_view. Qed.

Lemma open_machine_inode x D s0 i ip : itab (open_machine x D s0) !! i = Some ip -> (i = 0%nat /\ ip = open_entry) \/ ip = zero_inode.
Proof.
  intros [(<- & <- & _)|[_ Hi]]%list_lookup_insert_Some; [by left|]. right. by apply lookup_replicate in Hi as [-> _].
Qed.

Lemma open_machine_icache desc D s0 : icache_ok 1 [] (open_machine desc D s0).
Proof.
  split.
  - split; [done|..].
    + apply Forall_insert; [by apply Forall_replicate|done].
    + intros i j x y [[-> ->]| ->]%open_machine_inode [[-> ->]| ->]%open_machine_inode (H & _); done.
  - by intros i ip [[-> ->]| ->]%open_machine_inode.
  - intros i ip [[-> ->]| ->]%open_machine_inode; by rewrite decide_False by apply not_elem_of_nil.
  - by intros i ip [[-> ->]| ->]%open_machine_inode.
  - by intros i ip _ ?%not_elem_of_nil.
Qed.

Lemma open_machine_room x D : user_room 0 (open_machine x D one_page) 100 3 (pte_at 2 (mem one_page) user_pt).
Proof.
  destruct one_page_mapped as [Ho Hw]. exists (mounted_proc (set_p_pagetable user_pt zero_proc)).
  split; [done|]. split; [exact Ho|]. split; [done|exact Hw].
Qed.

Lemma fileread_spec_witness :
  exists s', @fileread small_layout three_waits 0 100 3 (open_machine open_desc one_file one_page) = Ok 3 s' /\
    uwritten (pte_at 2 (mem one_page) user_pt) 100 (str "ell") (mem one_page) (mem s') /\
    ftab s' !! 0%nat = Some (set_f_off 4 open_desc).
Proof.
  assert (Hv : forall bn, one_file bn = view (open_machine open_desc one_file one_page) bn).
  { intros bn. symmetry. apply open_machine_view. }
  set (d := mkDinode T_FILE 0 0 1 5 (48 :: replicate 12 0)).
  assert (Hoi : inode_file (open_machine open_desc one_file one_page) 0 open_desc 0 d).
  { split; try reflexivity; [split; [discriminate|reflexivity]| |discriminate|].
    - exists open_entry. split; [reflexivity|]. split; [reflexivity|].
      rewrite (dinode_on_ext _ one_file) by (intros bn; symmetry; apply Hv). exact one_file_inode_2.
    - apply (file_ok_ext one_file); [exact Hv|]. apply one_block_ok; [lia|discriminate|vm_compute; reflexivity]. }
  destruct (@fileread_spec small_layout small_layout_ok three_waits 0 1 (open_machine open_desc one_file one_page) 0 open_desc 0 d 100 3 _
    (open_machine_read _ _ _) (open_machine_icache _ _ _) Hoi ltac:(discriminate) ltac:(lia) (open_machine_room _ _)) as (s' & H & Hu & Hf & _).
  assert (E : read_range (view (open_machine open_desc one_file one_page)) (inode_of d) (f_off open_desc) 3 = str "ell").
  { unfold read_range. rewrite (file_bytes_ext _ one_file) by (intros bn; symmetry; apply Hv). vm_compute. reflexivity. }
  rewrite E in H, Hu, Hf. exists s'. split; [exact H|]. split; [exact Hu|]. rewrite Hf. reflexivity.
Defined.
