(* ===== verification/Filewrite.v ===== *)
(** * Writing open files, and crashes

    [filewrite] on a file: the bytes of the process reach the file, piece by piece, each
    piece in one transaction of the log; and a crash at any point of a piece leaves,
    after recovery, the file as it was or with the whole piece. *)

From S2P Require Import Prelude Riscv Mem State Printf Kalloc Vm Uvm Sched Bio Log Crash Fs FsData Balloc Inode Readi Ilock Path Writei UserMem Copy Pipe Console File Fileio.

#[local] Open Scope Z_scope.

(** ** States that agree outside the log *)

Section Agree.
Implicit Types s : kernel.

Record agree s s' : Prop := {
  ag_sb : sb s' = sb s;
  ag_start : lg_start (lg s') = lg_start (lg s);
  ag_view : forall bn, home (lg_start (lg s)) bn -> view s' bn = view s bn
}.

Lemma agree_used s s' b : agree s s' -> bitmap_ok s -> fs_block s b -> used s' b = used s b.
Proof. intros [Hs Hl Hv] Hb Hf. unfold used. rewrite Hs, Hv; [done|]. by apply Hb. Qed.

Lemma agree_plain s s' b : agree s s' -> bitmap_ok s -> plain_block s b -> plain_block s' b.
Proof.
  intros A Hb Hp. pose proof A as [Hs Hl Hv]. apply (plain_block_step s); try done.
  - rewrite (agree_used s s' b A Hb); apply Hp.
  - rewrite Hv; apply Hp.
Qed.

Lemma agree_inv s s' : agree s s' -> fs_inv s -> fs_inv s'.
Proof.
  intros A [Hb [H0 H0u] Hst Hi]. pose proof A as [Hs Hl Hv]. split.
  - apply (bitmap_ok_step s s' Hb Hs Hl).
    + intros b Hf. rewrite Hv; [done|by apply Hb].
    + intros b Hf. rewrite (agree_used s s' b A Hb Hf). by apply Hb.
  - unfold fs_block in *. rewrite Hs. split; [done|]. by rewrite (agree_used s s' 0 A Hb H0).
  - by rewrite Hs.
  - intros inum Hn. unfold inode_number in Hn. rewrite Hs in *. by apply (agree_plain s), Hi.
Qed.

Lemma agree_direct s s' ip : agree s s' -> bitmap_ok s -> direct_ok s ip -> direct_ok s' ip.
Proof.
  intros A Hb [H1 H2 H3 H4]. split; try done. intros k Hk Hk0. destruct (H3 k Hk Hk0) as [Hp Hi].
  unfold inode_number. rewrite (ag_sb _ _ A). split; [by eapply agree_plain|done].
Qed.

Lemma agree_dinode s s' inum : agree s s' -> fs_inv s -> inode_number s inum -> dinode_on (view s') (sb s') inum = dinode_on (view s) (sb s) inum.
Proof. intros [Hs Hl Hv] Hi Hn. unfold dinode_on. rewrite Hs, Hv; [done|]. by apply (fi_inodes _ Hi). Qed.

(** The blocks of a short file are outside the log. *)
Lemma short_file_same v v' s ip :
  (forall bn, home (lg_start (lg s)) bn -> v' bn = v bn) -> direct_ok s ip -> i_size ip <= NDIRECT * BSIZE -> file_ok v ip ->
  file_ok v' ip /\ file_bytes v' ip = file_bytes v ip.
Proof.
  intros Hv Hd Hs Hfo. pose proof (fo_size _ _ Hfo) as Hs0.
  assert (Hb : forall k, 0 <= k < Readi.blocks_for (i_size ip) -> block_of v' ip k = block_of v ip k /\ v' (block_of v ip k) = v (block_of v ip k)).
  { intros k Hk. assert (k < 12).
    { unfold Readi.blocks_for in Hk. change NDIRECT with 12 in Hs. change BSIZE with 1024 in *. Z.div_mod_to_equations. lia. }
    assert (E : forall u : Z -> list Z, block_of u ip k = addr_of ip (Z.to_nat k)) by (intros u; unfold block_of; change NDIRECT with 12; by rewrite (proj2 (Z.ltb_lt _ _))).
    destruct (fo_block _ _ Hfo k Hk) as [H0 _]. rewrite !E in *. split; [done|]. apply Hv. destruct (dr_block _ _ Hd (Z.to_nat k) ltac:(lia) H0) as [Hp _]. apply Hp. }
  split.
  - split; [apply Hfo|done|]. intros k Hk. destruct (Hb k Hk) as [-> ->]. by apply Hfo.
  - unfold file_bytes, block_bytes. do 2 f_equal. apply list_fmap_ext. intros j k Hk. apply lookup_seqZ in Hk as [-> Hj]. rewrite Z.add_0_l in *.
    destruct (Hb (Z.of_nat j) ltac:(lia)) as [-> ->]. done.
Qed.
End Agree.

Section Filewrite.
Context `{L : Layout} {LO : LayoutOk L} `{W : Waits} (me : nat) (pid : Z).
Implicit Types s : kernel.

(** ** Bytes from user memory *)

(** The bytes [l] are at [a] in the address space [V] of the process. *)
Record at_source (pt : Z) (V : Z -> Z) (a : Z) (l : list Z) s : Prop := {
  as_cur : cur s = Some me;
  as_proc : exists p, procs s !! me = Some p /\ p_pagetable p = pt;
  as_own : own 2 s pt;
  as_map : forall x, pte_at 2 (mem s) pt x = V x;
  as_mapped : user_mapped V false a (length l);
  as_bytes : uread (mem s) V a (length l) = l
}.

Lemma uread_ext m V V' a n : (forall x, V' x = V x) -> uread m V' a n = uread m V a n.
Proof. intros E. unfold uread, paddr. apply list_fmap_ext. intros i x _. by rewrite E. Qed.

Lemma at_source_split pt V a l s (m : nat) :
  at_source pt V a l s -> (m <= length l)%nat -> at_source pt V a (take m l) s /\ at_source pt V (a + m) (drop m l) s.
Proof.
  intros [Hc Hp Ho HV [M1 M2 M3] Hb] Hm. assert (Lu : forall b n, length (uread (mem s) V b n) = n) by (intros b n; unfold uread; by rewrite length_fmap, length_seq).
  assert (Hsplit : l = uread (mem s) V a m ++ uread (mem s) V (a + m) (length l - m)).
  { rewrite <- uread_app. by replace (m + (length l - m))%nat with (length l) by lia. }
  split; split; try done.
  - rewrite length_take. split; [lia|lia|]. intros x Hx. apply M3. lia.
  - rewrite length_take, Nat.min_l by lia. rewrite Hsplit at 1. by rewrite take_app_length' by by rewrite Lu.
  - rewrite length_drop. split; [lia|lia|]. intros x Hx. apply M3. lia.
  - rewrite length_drop. rewrite Hsplit at 2. by rewrite drop_app_length' by by rewrite Lu.
Qed.

(** What [filewrite] changes does not matter to the source. *)
Lemma at_source_frame pt V a l s s' :
  io_frame (set_itab (itab s') (set_ftab (ftab s') (set_lg (lg s') s))) s' -> at_source pt V a l s -> at_source pt V a l s'.
Proof.
  unfold io_frame. intros F [Hc Hp Ho HV Hm Hb]. assert (Em : mem s' = mem s) by by rewrite F.
  assert (Er : refcnt s' = refcnt s) by by rewrite F. assert (Ep : procs s' = procs s) by by rewrite F. assert (Ec : cur s' = cur s) by by rewrite F.
  split; unfold own in *; rewrite ?Em, ?Er, ?Ep, ?Ec; done.
Qed.

Lemma at_source_ftab t pt V a l s : at_source pt V a l s -> at_source pt V a l (set_ftab t s).
Proof. apply at_source_frame. unfold io_frame. by destruct s. Qed.

Lemma supplies_user pt V : supplies get_user (at_source pt V).
Proof.
  split.
  - intros a l m s Hs Hr. destruct (at_source_split pt V a l s (Z.to_nat m) Hs ltac:(lia)) as [S1 S2]. exists (a + m).
    rewrite Z2Nat.id in S2 by lia. split; [|done]. destruct S1 as [Hc (p & Hp & Hpt) Ho HV Hm Hb]. rewrite length_take, Nat.min_l in Hm, Hb by lia.
    pose proof (um_lo _ _ _ _ Hm). pose proof (um_hi _ _ _ _ Hm). change MAXVA with (2^38) in *.
    unfold get_user, either_copyin. rewrite bind_run. kstep (curproc_run s me Hc). kstep (getp_run s me p Hp). rewrite Hpt.
    rewrite (copyin_run s pt a m Ho ltac:(lia)); [|apply (user_mapped_ext V); [done|by rewrite Z2Nat.id in Hm by lia]].
    cbn [obind fst snd]. rewrite (uread_ext _ V), Hb by done. rewrite u64_small by (ints; lia). done.
  - intros a l s s' F. apply at_source_frame. unfold io_frame in *. rewrite F. by destruct s.
Qed.

(** ** The state between two writes *)

(** The inodes in the table are on the disk. *)
Definition numbered s : Prop := forall j ip, itab s !! j = Some ip -> 0 < i_ref ip -> inode_number s (i_inum ip).

Lemma numbered_insert s s' i ip ip' :
  numbered s -> itab s !! i = Some ip -> itab s' = <[i := ip']> (itab s) -> sb s' = sb s -> i_inum ip' = i_inum ip -> i_ref ip' = i_ref ip ->
  numbered s'.
Proof.
  intros Hn Hi T B E1 E2 j x. unfold inode_number. rewrite T, B. intros [(<- & <- & _)|[_ Hj]]%list_lookup_insert_Some; [rewrite E1, E2; by apply (Hn i)|by apply (Hn j)].
Qed.

(** File [f] is open on inode [i], whose contents on disk are [d], and no operation is
    under way. *)
Record may_write (start : Z) s (f : nat) (x : file) (i : nat) (inum : Z) (d : dinode) : Prop := {
  mw_idle : idle me pid start s;
  mw_cache : icache_ok pid [] s;
  mw_range : numbered s;
  mw_inv : fs_inv s;
  mw_file : inode_file s f x i d;
  mw_inum : i_inum <$> itab s !! i = Some inum;
  mw_direct : direct_ok s (inode_of d);
  mw_dinode : dinode_ok d;
  mw_size : d_size d <= NDIRECT * BSIZE;
  mw_off : f_off x <= d_size d
}.

Lemma idle_read start s : idle me pid start s -> can_read me pid s.
Proof.
  intros [[Hf Hok Hr _ _ _ _] _ _ _ _ _]. split; try done.
  - exists []. split; [by apply Nat.ltb_lt|]. intros bn. by rewrite Hr.
  - intros bn. by rewrite Hr.
Qed.

Lemma idle_view start s bn : idle me pid start s -> view s bn = disk s bn.
Proof. intros [[_ Hok Hr _ _ _ _] _ _ _ _ _]. by apply (clean_view pid []). Qed.

Definition opened_lg (l : loginfo) : loginfo := set_lg_outstanding (lg_outstanding l + 1) l.

Lemma begin_write start s n :
  idle me pid start s -> (n <= 30)%nat ->
  let s1 := set_lg (opened_lg (lg s)) s in
  begin_op s = Ok tt s1 /\ budget me pid n s1 [].
Proof.
  intros Hid Hn s1. destruct (begin_op_idle me pid start s Hid) as (s1' & E & Hop & _ & _ & Hn0 & _ & _ & _ & Hr & _).
  destruct Hid as [[Hf Hok Hr0 Hdev Hst Hrg Hlen] Hlgn Ho Hc Hhd He].
  assert (E' : begin_op s = Ok tt s1).
  { apply (begin_op_run me pid); [done|done|]. rewrite Hlgn, Ho. done. }
  split; [done|]. rewrite E' in E. injection E as <-. split.
  - exists []. split; try done.
    + intros bn. by rewrite Hr.
    + intros bn. rewrite Hr. lia.
    + rewrite Hn0. change LOGBLOCKS with 30. lia.
  - intros bn. rewrite Hr, decide_False; [done|apply not_elem_of_nil].
Qed.

Lemma direct_ok_same s ip ip' : to_dinode ip = to_dinode ip' -> i_dev ip' = ROOTDEV -> direct_ok s ip -> direct_ok s ip'.
Proof.
  intros E Hd [H1 H2 H3 H4]. unfold to_dinode in E. injection E as _ _ _ _ _ E. split; unfold addr_of in *; rewrite <- ?E; done.
Qed.

Lemma same_view_agree s s' : same_view pid s s' -> agree s s'.
Proof.
  intros S. pose proof (sv_frame _ _ _ S) as F. split; [by apply io_frame_sb|by rewrite (io_frame_lg _ _ F)|]. intros bn _. apply S.
Qed.

(** The inode is locked, inside an operation. *)
Record writing (start : Z) s0 s (f : nat) (x : file) (i : nat) (ip : inode) (d : dinode) : Prop := {
  wg_frame : same_but_itab pid (set_lg (opened_lg (lg s0)) s0) s;
  wg_budget : budget me pid 14 s [];
  wg_cache : icache_ok pid [i] s;
  wg_range : numbered s;
  wg_entry : itab s !! i = Some ip;
  wg_data : to_dinode ip = d;
  wg_dev : i_dev ip = ROOTDEV
}.

Lemma write_lock start s f x i inum d :
  may_write start s f x i inum d ->
  let s1 := set_lg (opened_lg (lg s)) s in
  begin_op s = Ok tt s1 /\
  exists s2 ip, ilock (f_ip x) s1 = Ok tt s2 /\ writing start s s2 f x i ip d /\ i_inum ip = inum.
Proof.
  intros [Hid Hic Hrg Hinv [Hf Hty Hfi Hoff (ip0 & Hi & Hp & Hd) Hdt Hfo] Hnum _ _ _ _] s1.
  destruct (begin_write start s 14 Hid ltac:(lia)) as [E1 Hbg]. fold s1 in E1, Hbg. split; [done|].
  assert (Hr1 : can_read me pid s1).
  { destruct Hbg as [(R & Hm) _]. exact (may_log_read me pid 13 s1 [] R Hm). }
  assert (Hic1 : icache_ok pid [] s1) by (destruct Hic; by split).
  rewrite Hi in Hnum. injection Hnum as Hnum. rewrite Hfi.
  destruct (ilock_run me pid [] s1 i ip0 Hr1 Hic1 (not_elem_of_nil i) Hi Hp) as (ip & s2 & E2 & S2 & T2 & [L1 L2 L3 L4 L5 L6] & Hic2).
  { change (d_type (dinode_on (view s) (sb s) (i_inum ip0)) <> 0). by rewrite Hd. }
  change (dinode_on (view s1) (sb s1) (i_inum ip0)) with (dinode_on (view s) (sb s) (i_inum ip0)) in L6. rewrite Hd in L6.
  pose proof (ic_dev _ _ _ Hic i ip0 Hi Hp) as Hdev.
  exists s2, ip. split; [done|]. split; [|congruence]. split; try done.
  - apply (same_view_budget me pid 14 (set_itab (itab s2) s1)); [exact S2|]. by apply budget_itab.
  - by apply (numbered_insert s1 s2 i ip0 ip); try done; rewrite (sv_frame _ _ _ S2).
  - rewrite T2. apply list_lookup_insert_eq. by eapply lookup_lt_Some.
  - congruence.
Qed.

(** ** The end of the transaction *)

(** A locked inode changed, in the table and on the disk. *)
Lemma icache_change H s i ip s' ip' :
  icache_ok pid H s -> numbered s -> i ∈ H -> itab s !! i = Some ip -> itab s' = <[i := ip']> (itab s) ->
  i_dev ip' = i_dev ip -> i_inum ip' = i_inum ip -> i_ref ip' = i_ref ip -> i_lock ip' = i_lock ip -> i_valid ip' = i_valid ip ->
  dinode_on (view s') (sb s') (i_inum ip) = to_dinode ip' ->
  (forall j, inode_number s j -> j <> i_inum ip -> dinode_on (view s') (sb s') j = dinode_on (view s) (sb s) j) ->
  icache_ok pid H s'.
Proof.
  intros [Ht Hdv Hl Hv Hh] Hrg Hin Hi T F1 F2 F3 F4 F5 Hd Ho. destruct (Hh i ip Hi Hin) as [Hp Hval].
  assert (Hcase : forall j x, itab s' !! j = Some x -> (j = i /\ x = ip') \/ (j <> i /\ itab s !! j = Some x)).
  { intros j x. rewrite T. intros Hj%list_lookup_insert_Some. naive_solver. }
  split.
  - rewrite T. apply (itab_ok_keep _ i ip); try done; rewrite F3; lia.
  - intros j x Hj. destruct (Hcase j x Hj) as [[-> ->]|[_ Hjo]]; [rewrite F1, F3|]; by eapply Hdv.
  - intros j x Hj. destruct (Hcase j x Hj) as [[-> ->]|[_ Hjo]]; [rewrite F4|]; by apply Hl.
  - intros j x Hj Hpj Hvj. destruct (Hcase j x Hj) as [[-> ->]|[Hne Hjo]].
    + rewrite F5, F2. by split.
    + destruct (Hv j x Hjo Hpj Hvj) as [-> ->]. split; [done|]. symmetry. apply Ho; [by eapply Hrg|].
      intros E. apply Hne. apply (it_unique _ Ht j i x ip Hjo Hi); [|done]. split_and!; try done. by rewrite (Hdv j x Hjo Hpj), (Hdv i ip Hi Hp).
  - intros j x Hj Hjn. destruct (Hcase j x Hj) as [[-> ->]|[Hne Hjo]]; [rewrite F3, F5; by apply (Hh i)|by eapply Hh].
Qed.

Lemma wrote_icache H s i ip off bs s' ip' :
  icache_ok pid H s -> numbered s -> i ∈ H -> itab s !! i = Some ip -> wrote s i ip off bs s' ip' -> icache_ok pid H s'.
Proof.
  intros Hic Hn Hin Hi Hw. pose proof (wr_inode _ _ _ _ _ _ _ Hw) as Ei.
  apply (icache_change H s i ip s' ip'); try done; try (rewrite Ei; done); [by rewrite (wr_frame _ _ _ _ _ _ _ Hw)|apply Hw|apply Hw].
Qed.

(** After a crash at the writes [w0], recovery leaves the old blocks or the new ones. *)
Definition old_or_new (start : Z) (d0 d1 : Z -> list Z) (w0 : list (Z * list Z)) : Prop :=
  forall me' pid' r, fresh_boot me' pid' start r -> (forall bn, disk r bn = apply_writes w0 d0 bn) ->
  exists r', recover_from_log r = Ok tt r' /\
    ((forall bn, home start bn -> disk r' bn = d0 bn) \/ (forall bn, home start bn -> disk r' bn = d1 bn)).

Lemma end_write start s bl n :
  budget me pid (S n) s bl -> lg_start (lg s) = start -> lg_committing (lg s) = 0 -> lg_outstanding (lg s) = 1 ->
  length (disk s start) = Z.to_nat BSIZE -> hdr_n (disk s start) = 0 ->
  exists s' w, end_op s = Ok tt s' /\ idle me pid start s' /\ agree s s' /\ io_frame (set_lg (lg s') s) s' /\
    writes s' = writes s ++ w /\ (forall bn, disk s' bn = apply_writes w (disk s) bn) /\
    forall w0 w1, w = w0 ++ w1 -> old_or_new start (disk s) (disk s') w0.
Proof.
  intros [(R & [[Hf Hok Hl Hlen _ Hpin] Hroom Hus Hsm Hlg]) Hpins] Hst Hc Ho Hdl Hd0.
  assert (Hns : start ∉ bl).
  { intros Hin. pose proof (lo_home _ _ Hl) as Hh. rewrite Forall_forall in Hh. apply Hh in Hin. rewrite Hst in Hin. by apply home_ne_start in Hin. }
  assert (Ht : txn_ok me pid s bl R).
  { split; try done; [lia|..].
    - intros bn. specialize (Hsm bn). pose proof (Hpins bn). case_decide; lia.
    - rewrite Hst, (clean_view pid [] s); [done|done|]. by rewrite Hpins, decide_False.
    - by rewrite Hst. }
  destruct (end_op_txn me pid s bl R Ht Hc Ho) as (s' & w & E & Elg & Hok' & F & Hw & Hd & Hcr & [C1 C2 C3 C4] & Hda).
  rewrite Hst in *. exists s', w. split_and!; try done.
  - split; try (rewrite Elg; done); [|by apply C4|done]. split; try (rewrite Elg; apply Hl || done); try done.
    + eapply io_frame_ctx; [exact F|]. by apply fs_ctx_lg.
    + intros bn. rewrite C1, Hpins. pose proof (occ_NoDup bn bl (lo_nodup _ _ Hl)). case_decide as Hb; [apply occ_elem in Hb; lia|]. by rewrite occ_not.
    + pose proof (lo_start _ _ Hl). by rewrite Hst in *.
  - split; [by rewrite (io_frame_sb _ _ F)|by rewrite Elg|]. by rewrite Hst.
  - intros w0 w1 Ew me' pid' r Hr Hdr. destruct (Hcr w0 w1 Ew me' pid' r Hr Hdr) as (r' & Er & Hb). exists r'. split; [done|].
    destruct (decide (length w0 <= length bl)%nat) as [Hle|Hgt]; [by left|right]. intros bn Hh. by rewrite Hb, Hd.
Qed.

Lemma agree_icache s s' : agree s s' -> itab s' = itab s -> fs_inv s -> numbered s -> icache_ok pid [] s -> icache_ok pid [] s'.
Proof.
  intros A T Hinv Hn [I1 I2 I3 I4 I5]. split; rewrite ?T; try done. intros j x Hj Hp Hv.
  destruct (I4 j x Hj Hp Hv) as [-> ->]. split; [done|]. symmetry. apply (agree_dinode s); [done..|]. by apply (Hn j).
Qed.

Lemma budget_ftab t n s bl : budget me pid n s bl -> budget me pid n (set_ftab t s) bl.
Proof.
  intros [(R & [[Hc Hok Hl Hln Ho Hp] Hr Hus Hs Hlg]) Hpn]. split; [|done]. exists R. split; try done.
  split; try done; [by destruct Hc|by destruct Hok].
Qed.

(** After [writei]: the offset, the lock and the log. *)
Lemma write_finish start s bl n f x r i ip :
  budget me pid (S n) s bl -> fs_inv s -> numbered s -> icache_ok pid [i] s -> itab s !! i = Some ip -> ftab s !! f = Some x ->
  0 <= r -> is_u32 (f_off x + r) ->
  lg_start (lg s) = start -> lg_committing (lg s) = 0 -> lg_outstanding (lg s) = 1 ->
  length (disk s start) = Z.to_nat BSIZE -> hdr_n (disk s start) = 0 ->
  exists s' w, (forall B (m : K B), (when (0 <? r) (setf f (fun y => set_f_off (u32 (f_off y + r)) y)) ;; iunlock (Some i) ;; end_op ;; m) s = m s') /\
    idle me pid start s' /\ agree s s' /\ icache_ok pid [] s' /\
    io_frame (set_itab (<[i := set_i_lock free_lock ip]> (itab s)) (set_ftab (<[f := set_f_off (f_off x + r) x]> (ftab s)) (set_lg (lg s') s))) s' /\
    writes s' = writes s ++ w /\ (forall bn, disk s' bn = apply_writes w (disk s) bn) /\
    forall w0 w1, w = w0 ++ w1 -> old_or_new start (disk s) (disk s') w0.
Proof.
  intros Hbg Hinv Hn Hic Hi Hf Hr Hu Hst Hc Ho Hdl Hd0. pose proof (advance_run s f x r Hf Hr (fun _ => Hu)) as E1.
  set (s1 := set_ftab _ s) in *. pose proof (budget_ftab (<[f := set_f_off (f_off x + r) x]> (ftab s)) _ _ _ Hbg) as Hbg1. fold s1 in Hbg1.
  assert (Hic1 : icache_ok pid [i] s1) by (destruct Hic; by split).
  assert (Hr1 : can_read me pid s1) by (destruct Hbg1 as [(R & Hm) _]; by eapply may_log_read).
  destruct (iunlock_run me pid [] s1 i ip Hr1 Hic1 (not_elem_of_nil i) Hi) as (E2 & _ & Hic2). set (s2 := set_itab _ s1) in *.
  destruct (end_write start s2 bl n (budget_itab me pid _ _ _ _ Hbg1) Hst Hc Ho Hdl Hd0) as (s' & w & E3 & Hid & A & F & Hw & Hda & Hcr).
  assert (Hinv2 : fs_inv s2) by (by apply (agree_inv s)).
  exists s', w. split_and!; try done.
  - intros B m. kstep E1. kstep E2. by kstep E3.
  - by destruct A.
  - apply (agree_icache s2); try done; [by rewrite F|]. by apply (numbered_insert s _ i ip (set_i_lock free_lock ip)).
Qed.

(** ** One piece of [filewrite] *)

(** The blocks in use that are neither the file's nor that of its inode. *)
Record other_block s (inum : Z) (d : dinode) (b : Z) : Prop := {
  ob_plain : plain_block s b;
  ob_apart : forall k, (k < 12)%nat -> addr_of (inode_of d) k <> b;
  ob_inode : b <> IBLOCK inum (sb s)
}.

(** From [s] to [s'] the bytes [bs] went to the file at its offset, and the offset moved;
    the inode on disk went from [d] to [d']. *)
Record piece (start : Z) s (f : nat) (x : file) (i : nat) (inum : Z) (d : dinode) (bs : list Z) s' (d' : dinode) : Prop := {
  pc_ready : may_write start s' f (set_f_off (f_off x + length bs) x) i inum d';
  pc_bytes : file_bytes (view s') (inode_of d') = overwrite (Z.to_nat (f_off x)) bs (file_bytes (view s) (inode_of d));
  pc_sb : sb s' = sb s;
  pc_inodes : forall j, inode_number s j -> j <> inum -> dinode_on (view s') (sb s') j = dinode_on (view s) (sb s) j;
  pc_used : forall b, fs_block s b -> used s b = true -> used s' b = true;
  pc_addr : forall k, (k < 12)%nat -> addr_of (inode_of d') k = addr_of (inode_of d) k \/ used s (addr_of (inode_of d') k) = false;
  pc_others : forall b, other_block s inum d b -> view s' b = view s b;
  pc_ftab : ftab s' = <[f := set_f_off (f_off x + length bs) x]> (ftab s);
  pc_frame : io_frame (set_itab (itab s') (set_ftab (ftab s') (set_lg (lg s') s))) s'
}.

Lemma writing_agree start s s2 f x i ip d : writing start s s2 f x i ip d -> agree s s2.
Proof. intros H. destruct (same_view_agree _ _ (wg_frame _ _ _ _ _ _ _ _ H)) as [A1 A2 A3]. by split. Qed.

Lemma addr_of_same ip ip' k : to_dinode ip = to_dinode ip' -> addr_of ip k = addr_of ip' k.
Proof. intros E. unfold to_dinode in E. injection E as _ _ _ _ _ E. unfold addr_of. by rewrite E. Qed.

Section Piece.
Variables (start : Z) (s s2 s3 s' : kernel) (f : nat) (x : file) (i : nat) (ip2 ip3 : inode) (d : dinode) (bs : list Z).
Hypotheses (Hm : may_write start s f x i (i_inum ip2) d) (Hg : writing start s s2 f x i ip2 d)
  (Hw : wrote s2 i ip2 (Z.to_nat (f_off x)) bs s3 ip3) (Hend : f_off x + length bs <= NDIRECT * BSIZE).
Hypotheses (Hid : idle me pid start s') (A : agree s3 s') (Hic : icache_ok pid [] s')
  (F : io_frame (set_itab (<[i := set_i_lock free_lock ip3]> (itab s3)) (set_ftab (<[f := set_f_off (f_off x + length bs) x]> (ftab s3)) (set_lg (lg s') s3))) s').

Lemma piece_sb : sb s2 = sb s /\ sb s3 = sb s /\ sb s' = sb s.
Proof using Hg Hw A.
  pose proof (ag_sb _ _ (writing_agree _ _ _ _ _ _ _ _ Hg)) as E. pose proof (wr_frame _ _ _ _ _ _ _ Hw) as F3.
  assert (sb s3 = sb s2) as E3 by by rewrite F3. rewrite (ag_sb _ _ A). split_and!; congruence.
Qed.

Lemma piece_view bn : view s2 bn = view s bn.
Proof using Hg. rewrite (sv_view _ _ _ (wg_frame _ _ _ _ _ _ _ _ Hg)). done. Qed.

Lemma piece_fields : i_dev ip3 = ROOTDEV /\ i_inum ip3 = i_inum ip2 /\ i_ref ip3 = i_ref ip2 /\ i_type ip3 = i_type ip2.
Proof using Hg Hw. rewrite (wr_inode _ _ _ _ _ _ _ Hw). split_and!; try done. apply Hg. Qed.

Lemma piece_tables : itab s3 = <[i := ip3]> (itab s2) /\ itab s' = <[i := set_i_lock free_lock ip3]> (itab s2) /\ ftab s' = <[f := set_f_off (f_off x + length bs) x]> (ftab s).
Proof using Hg Hw F.
  assert (E3 : itab s3 = <[i := ip3]> (itab s2)) by by rewrite (wr_frame _ _ _ _ _ _ _ Hw).
  split_and!; [done|rewrite F|rewrite F].
  - cbn. by rewrite E3, list_insert_insert_eq.
  - cbn. rewrite (wr_frame _ _ _ _ _ _ _ Hw). cbn. by rewrite (sv_frame _ _ _ (wg_frame _ _ _ _ _ _ _ _ Hg)).
Qed.

Lemma piece_contents :
  file_ok (view s') (inode_of (to_dinode ip3)) /\
  file_bytes (view s') (inode_of (to_dinode ip3)) = overwrite (Z.to_nat (f_off x)) bs (file_bytes (view s) (inode_of d)).
Proof using Hm Hg Hw Hend A.
  assert (Ed : to_dinode ip3 = to_dinode (inode_of (to_dinode ip3))) by by rewrite to_dinode_inode_of.
  assert (Hs3 : i_size ip3 <= NDIRECT * BSIZE).
  { rewrite (wr_size _ _ _ _ _ _ _ Hw). pose proof (wg_data _ _ _ _ _ _ _ _ Hg) as E. pose proof (mw_size _ _ _ _ _ _ _ Hm) as Hs. rewrite <- E in Hs. cbn in Hs.
    pose proof (oi_off _ _ _ _ _ (mw_file _ _ _ _ _ _ _ Hm)) as [? _]. lia. }
  destruct (short_file_same (view s3) (view s') s3 ip3 (ag_view _ _ A) (wr_direct _ _ _ _ _ _ _ Hw) Hs3 (wr_file _ _ _ _ _ _ _ Hw)) as [H1 H2].
  split; [by apply (file_ok_same _ ip3)|]. rewrite <- (file_bytes_same _ _ _ Ed), H2, (wr_bytes _ _ _ _ _ _ _ Hw). f_equal.
  rewrite (file_bytes_ext _ (view s)) by exact piece_view. apply file_bytes_same. rewrite to_dinode_inode_of. apply Hg.
Qed.

Lemma piece_ready : may_write start s' f (set_f_off (f_off x + length bs) x) i (i_inum ip2) (to_dinode ip3).
Proof using All.
  destruct piece_sb as (B2 & B3 & B'), piece_fields as (P1 & P2 & P3 & P4), piece_tables as (T3 & T' & Tf), piece_contents as [Hfo _].
  pose proof Hm as [_ _ _ _ [Hf Hty Hfi [Hoff _] _ Hdt _] _ _ _ Hsz Hof]. pose proof (wg_data _ _ _ _ _ _ _ _ Hg) as Ed.
  pose proof (wg_entry _ _ _ _ _ _ _ _ Hg) as Hi2. pose proof (lookup_lt_Some _ _ _ Hi2) as Hlt. pose proof (wr_size _ _ _ _ _ _ _ Hw) as Hs3.
  assert (Ed5 : i_size ip2 = d_size d) by by rewrite <- Ed. assert (Ed1 : i_type ip2 = d_type d) by by rewrite <- Ed.
  assert (Hi' : itab s' !! i = Some (set_i_lock free_lock ip3)) by (rewrite T'; by apply list_lookup_insert_eq).
  assert (Hrf : 0 < i_ref ip2) by (apply (ic_held _ _ _ (wg_cache _ _ _ _ _ _ _ _ Hg) i ip2 Hi2); by left).
  assert (Hn2 : inode_number s2 (i_inum ip2)) by by apply (wg_range _ _ _ _ _ _ _ _ Hg i).
  pose proof (wr_inv _ _ _ _ _ _ _ Hw) as Hinv3. change NDIRECT with 12 in *. change BSIZE with 1024 in *.
  split; try done.
  - apply (numbered_insert s2 s' i ip2 (set_i_lock free_lock ip3)); try done; [apply Hg|congruence].
  - by apply (agree_inv s3).
  - split; try done.
    + rewrite Tf. apply list_lookup_insert_eq. by eapply lookup_lt_Some.
    + unfold is_u32. cbn. lia.
    + exists (set_i_lock free_lock ip3). split; [done|]. cbn. rewrite P3, P2. split; [done|].
      rewrite (agree_dinode s3 s'); [apply Hw|done|done|]. unfold inode_number in *. by rewrite B3, <- B2.
    + cbn. by rewrite P4, Ed1.
  - rewrite Hi'. cbn. by rewrite P2.
  - apply (agree_direct s3); [done|apply Hinv3|]. apply (direct_ok_same _ ip3); [by rewrite to_dinode_inode_of|done|apply Hw].
  - apply Hw.
  - change (i_size ip3 <= 12 * 1024). lia.
  - change (f_off x + length bs <= i_size ip3). lia.
Qed.

Lemma piece_intro : piece start s f x i (i_inum ip2) d bs s' (to_dinode ip3).
Proof using All.
  destruct piece_sb as (B2 & B3 & B'), piece_contents as [_ Hby]. pose proof (mw_inv _ _ _ _ _ _ _ Hm) as Hinv.
  pose proof (wr_inv _ _ _ _ _ _ _ Hw) as Hinv3. pose proof (writing_agree _ _ _ _ _ _ _ _ Hg) as A2.
  assert (Ea : forall k, addr_of ip2 k = addr_of (inode_of d) k) by (intros k; apply addr_of_same; rewrite to_dinode_inode_of; apply Hg).
  assert (Eu : forall b, used s2 b = used s b) by (intros b; unfold used; by rewrite B2, piece_view).
  assert (Eb : forall b, plain_block s b -> plain_block s2 b) by (intros b; apply agree_plain; [done|apply Hinv]).
  split; [exact piece_ready|done|done|..].
  - intros j Hj Hne. rewrite (agree_dinode s3 s'); [|done|done|unfold inode_number in *; by rewrite B3].
    rewrite (wr_inodes _ _ _ _ _ _ _ Hw); [|unfold inode_number in *; by rewrite B2|done]. unfold dinode_on. by rewrite piece_view, B2.
  - intros b Hb Hub. rewrite (agree_used s3 s' b A (fi_bitmap _ Hinv3)) by (unfold fs_block in *; by rewrite B3).
    apply (wr_used _ _ _ _ _ _ _ Hw); [unfold fs_block in *; by rewrite B2|by rewrite Eu].
  - intros k Hk. rewrite <- Ea, <- Eu. exact (wr_addr _ _ _ _ _ _ _ Hw k Hk).
  - intros b [Hb Hk Hne]. rewrite (ag_view _ _ A).
    + rewrite (wr_others _ _ _ _ _ _ _ Hw), piece_view; [done|by apply Eb| |by rewrite B2]. intros k Hlt. rewrite Ea. by apply Hk.
    + rewrite (wr_start _ _ _ _ _ _ _ Hw), (ag_start _ _ A2). apply Hb.
  - apply piece_tables.
  - pose proof (sv_frame _ _ _ (wg_frame _ _ _ _ _ _ _ _ Hg)) as F2. pose proof (wr_frame _ _ _ _ _ _ _ Hw) as F3.
    unfold io_frame in *. rewrite F, F3, F2. by destruct s.
Qed.
End Piece.

Lemma turns_piece off n : 0 <= n <= write_max -> (turns off n <= 4)%nat.
Proof.
  intros Hn. change write_max with 3072 in Hn. unfold turns. destruct (n <=? 0); [lia|].
  pose proof (Z.mod_pos_bound off BSIZE eq_refl). change BSIZE with 1024 in *. Z.div_mod_to_equations. lia.
Qed.

Lemma write_data start s s2 f x i ip2 d n1 a l pt V :
  may_write start s f x i (i_inum ip2) d -> writing start s s2 f x i ip2 d -> 0 <= n1 <= write_max ->
  f_off x + n1 <= NDIRECT * BSIZE -> at_source pt V a l s -> length l = Z.to_nat n1 ->
  exists r s3 ip3 bl, writei get_user i a (f_off x) n1 s2 = Ok r s3 /\ 0 <= r <= n1 /\
    (r = n1 \/ full s3) /\
    wrote s2 i ip2 (Z.to_nat (f_off x)) (take (Z.to_nat r) l) s3 ip3 /\ budget me pid 1 s3 bl.
Proof.
  intros Hm Hg Hn1 Hend Hsrc Hl. pose proof (writing_agree _ _ _ _ _ _ _ _ Hg) as A2.
  pose proof Hm as [Hid Hic Hrg Hinv [Hf Hty Hfi [Hoff _] _ _ Hfo] _ Hdir Hdok Hsz Hof].
  pose proof Hg as [S2 Hbg Hic2 Hrg2 Hi2 Ed Hdev]. pose proof (sv_frame _ _ _ S2) as F2.
  assert (Ed2 : to_dinode (inode_of d) = to_dinode ip2) by by rewrite to_dinode_inode_of.
  assert (Esz : i_size ip2 = d_size d) by by rewrite <- Ed.
  assert (Hrf : 0 < i_ref ip2) by (apply (ic_held _ _ _ Hic2 i ip2 Hi2); by left).
  assert (Hsrc2 : at_source pt V a l s2).
  { apply (at_source_frame _ _ _ _ s); [|done]. unfold io_frame in *. rewrite F2. by destruct s. }
  destruct (writei_run me pid get_user (at_source pt V) 1 s2 [] i ip2 (f_off x) n1 a l) as
    (r & s3 & ip3 & bl & E3 & Hr & Hful & Hw & Hbg3); try done; try lia.
  { apply supplies_user. }
  { apply (budget_le _ _ 14); [|done]. pose proof (turns_piece (f_off x) n1 ltac:(lia)). lia. }
  { by apply (agree_inv s). }
  { apply (agree_direct s); [done|apply Hinv|]. by apply (direct_ok_same _ (inode_of d)). }
  { by apply (Hrg2 i). }
  { by rewrite Ed. }
  { apply (file_ok_ext (view s)); [intros bn; by rewrite (sv_view _ _ _ S2)|]. by apply (file_ok_same _ (inode_of d)). }
  exists r, s3, ip3, bl. split_and!; try done; try lia. destruct Hful as [|[? _]]; [by left|by right].
Qed.

(** A transaction of [filewrite]: its end, and a crash on the way there. *)
Record wrote_piece (start : Z) s s' (w : list (Z * list Z)) : Prop := {
  wp_writes : writes s' = writes s ++ w;
  wp_disk : forall bn, disk s' bn = apply_writes w (disk s) bn;
  wp_crash : forall w0 w1, w = w0 ++ w1 -> old_or_new start (disk s) (disk s') w0
}.

(** One turn of the loop of [filewrite]. *)
Lemma filewrite_turn start k s f x i inum d addr n j l pt V :
  may_write start s f x i inum d -> 0 <= addr -> 0 <= j < n -> at_source pt V (addr + j) l s ->
  let n1 := Z.min (n - j) write_max in
  length l = Z.to_nat n1 -> f_off x + n1 <= NDIRECT * BSIZE ->
  exists r s' d' w, filewrite_loop (S k) f addr n j s = (if negb (r =? n1) then mret j else filewrite_loop k f addr n (j + r)) s' /\
    0 <= r <= n1 /\ (r = n1 \/ forall b, fs_block s b -> used s' b = true) /\
    piece start s f x i inum d (take (Z.to_nat r) l) s' d' /\ wrote_piece start s s' w.
Proof.
  intros Hm Ha Hj Hsrc n1 Hl Hend. assert (Hn1 : 0 < n1 <= write_max) by (unfold n1; change write_max with 3072; lia).
  assert (Hu : is_u64 (addr + j)).
  { pose proof (um_hi _ _ _ _ (as_mapped _ _ _ _ _ Hsrc)). change MAXVA with (2^38) in *. unfold is_u64. lia. }
  destruct (write_lock start s f x i inum d Hm) as (E1 & s2 & ip2 & E2 & Hg & <-).
  destruct (write_data start s s2 f x i ip2 d n1 (addr + j) l pt V Hm Hg ltac:(lia) Hend Hsrc Hl) as (r & s3 & ip3 & bl & E3 & Hr & Hful & Hw & Hbg3).
  pose proof (writing_agree _ _ _ _ _ _ _ _ Hg) as A2. pose proof (oi_file _ _ _ _ _ (mw_file _ _ _ _ _ _ _ Hm)) as Hf.
  pose proof (oi_off _ _ _ _ _ (mw_file _ _ _ _ _ _ _ Hm)) as [Hoff _]. pose proof (oi_ip _ _ _ _ _ (mw_file _ _ _ _ _ _ _ Hm)) as Hfi.
  pose proof Hg as [S2 Hbg Hic2 Hrg2 Hi2 Ed Hdev]. pose proof (sv_frame _ _ _ S2) as F2. pose proof (wr_frame _ _ _ _ _ _ _ Hw) as F3.
  assert (L2 : lg s2 = opened_lg (lg s)) by by rewrite F2. assert (Tf2 : ftab s2 = ftab s) by by rewrite F2. assert (Tf3 : ftab s3 = ftab s2) by by rewrite F3.
  assert (T3 : itab s3 = <[i := ip3]> (itab s2)) by by rewrite F3. assert (D3 : disk s3 = disk s) by (rewrite (wr_disk _ _ _ _ _ _ _ Hw); apply S2).
  assert (W3 : writes s3 = writes s) by (rewrite (wr_writes _ _ _ _ _ _ _ Hw); apply S2).
  pose proof (mw_idle _ _ _ _ _ _ _ Hm) as [[_ _ _ _ Hst _ _] _ Ho Hc Hhd He].
  assert (Lb : length (take (Z.to_nat r) l) = Z.to_nat r) by (rewrite length_take; lia).
  destruct (write_finish start s3 bl 0 f x r i ip3 Hbg3 (wr_inv _ _ _ _ _ _ _ Hw)) as (s' & w & E4 & Hid' & A & Hic' & F & Hws & Hda & Hcr).
  { apply (numbered_insert s2 s3 i ip2 ip3); try done; [by rewrite F3|by rewrite (wr_inode _ _ _ _ _ _ _ Hw)..]. }
  { eapply wrote_icache; [exact Hic2|exact Hrg2|by left|exact Hi2|exact Hw]. }
  { rewrite T3. apply list_lookup_insert_eq. by eapply lookup_lt_Some. }
  { by rewrite Tf3, Tf2. }
  { lia. }
  { unfold is_u32. change NDIRECT with 12 in *. change BSIZE with 1024 in *. lia. }
  { by rewrite (wr_start _ _ _ _ _ _ _ Hw), L2. }
  { by rewrite (wr_com _ _ _ _ _ _ _ Hw), L2. }
  { rewrite (wr_out _ _ _ _ _ _ _ Hw), L2. cbn. lia. }
  { by rewrite D3. }
  { by rewrite D3. }
  exists r, s', (to_dinode ip3), w. split_and!; try lia.
  - cbn [filewrite_loop]. rewrite (proj2 (Z.ltb_lt _ _)) by lia. fold n1. kstep E1. unfold getf. rewrite bind_run. cbn [ftab set_lg]. rewrite Hf. cbn [obind].
    kstep E2. unfold ip_of. rewrite Hfi, bind_run. cbn [obind mret K_ret]. rewrite bind_run, Tf2, Hf. cbn [obind].
    rewrite u64_small by exact Hu. kstep E3. apply E4.
  - destruct Hful as [->|Hful]; [by left|right]. destruct (piece_sb start s s2 s3 s' f x i ip2 ip3 d _ Hg Hw A) as (B2 & B3 & _).
    intros b Hb. rewrite (agree_used s3 s' b A (fi_bitmap _ (wr_inv _ _ _ _ _ _ _ Hw))) by (unfold fs_block in *; by rewrite B3).
    apply Hful. unfold fs_block in *. by rewrite B3.
  - apply (piece_intro start s s2 s3 s' f x i ip2 ip3 d); try done; rewrite Lb, Z2Nat.id by lia; [lia|done].
  - rewrite D3, W3 in *. by split.
Qed.

(** ** Pieces in a row *)

Lemma overwrite_app (o : nat) (b1 b2 c : list Z) : (o <= length c)%nat -> overwrite (o + length b1) b2 (overwrite o b1 c) = overwrite o (b1 ++ b2) c.
Proof.
  intros Ho. unfold overwrite. rewrite length_app, !app_assoc. f_equal; [f_equal|].
  - rewrite take_app_length'; [done|]. rewrite length_app, length_take. lia.
  - rewrite <- app_assoc, drop_app_ge, drop_app_ge; rewrite ?length_take; [|lia..]. rewrite drop_drop. f_equal. lia.
Qed.

Lemma piece_refl start s f x i inum d : may_write start s f x i inum d -> piece start s f x i inum d [] s d.
Proof.
  intros Hm. split; try done.
  - change (Z.of_nat (length [])) with 0. rewrite Z.add_0_r. by destruct x.
  - unfold overwrite. cbn. by rewrite Nat.add_0_r, take_drop.
  - by left.
  - rewrite list_insert_id; [done|]. rewrite (oi_file _ _ _ _ _ (mw_file _ _ _ _ _ _ _ Hm)). change (Z.of_nat (length [])) with 0. rewrite Z.add_0_r. by destruct x.
  - unfold io_frame. by destruct s.
Qed.

Lemma other_block_step start s f x i inum d bs s' d' b :
  may_write start s f x i inum d -> piece start s f x i inum d bs s' d' -> other_block s inum d b -> other_block s' inum d' b.
Proof.
  intros Hm P Ho. pose proof Ho as [Hp Ha Hi]. split; [| |by rewrite (pc_sb _ _ _ _ _ _ _ _ _ _ P)].
  - apply (plain_block_step s); try done; [by apply P| | |].
    + by rewrite (fb_start _ _ _ _ (id_boot _ _ _ _ (mw_idle _ _ _ _ _ _ _ Hm))), (fb_start _ _ _ _ (id_boot _ _ _ _ (mw_idle _ _ _ _ _ _ _ (pc_ready _ _ _ _ _ _ _ _ _ _ P)))).
    + apply (pc_used _ _ _ _ _ _ _ _ _ _ P); apply Hp.
    + rewrite (pc_others _ _ _ _ _ _ _ _ _ _ P b Ho). apply Hp.
  - intros k Hk E. destruct (pc_addr _ _ _ _ _ _ _ _ _ _ P k Hk) as [Ek|Ek]; [by apply (Ha k Hk); congruence|].
    rewrite E, (pb_used _ _ Hp) in Ek. done.
Qed.

Lemma piece_block start s s0 f x i inum d bs s' d' k :
  piece start s f x i inum d bs s' d' -> sb s = sb s0 -> (k < 12)%nat -> fs_block s0 (addr_of (inode_of d') k).
Proof.
  intros P E Hk. pose proof (pc_ready _ _ _ _ _ _ _ _ _ _ P) as Hm. assert (Hb : fs_block s' (addr_of (inode_of d') k)).
  { destruct (decide (addr_of (inode_of d') k = 0)) as [->|H0]; [apply Hm|]. by apply (dr_block _ _ (mw_direct _ _ _ _ _ _ _ Hm) k Hk H0). }
  unfold fs_block in *. by rewrite (pc_sb _ _ _ _ _ _ _ _ _ _ P), E in Hb.
Qed.

Lemma piece_trans start s f x i inum d b1 s1 d1 b2 s2 d2 :
  may_write start s f x i inum d ->
  piece start s f x i inum d b1 s1 d1 -> piece start s1 f (set_f_off (f_off x + length b1) x) i inum d1 b2 s2 d2 ->
  piece start s f x i inum d (b1 ++ b2) s2 d2.
Proof.
  intros Hm P1 P2. pose proof P1 as [M1 B1 S1 I1 U1 A1 O1 T1 F1]. pose proof P2 as [M2 B2 S2 I2 U2 A2 O2 T2 F2].
  assert (Ex : set_f_off (f_off (set_f_off (f_off x + length b1) x) + length b2) (set_f_off (f_off x + length b1) x) = set_f_off (f_off x + length (b1 ++ b2)) x).
  { rewrite length_app, Nat2Z.inj_add, Z.add_assoc. by destruct x. }
  rewrite Ex in *.
  split; try congruence.
  - rewrite B2, B1. pose proof (oi_off _ _ _ _ _ (mw_file _ _ _ _ _ _ _ Hm)) as [Hoff _].
    change (f_off (set_f_off (f_off x + length b1) x)) with (f_off x + length b1). rewrite Z2Nat.inj_add, Nat2Z.id by lia.
    apply overwrite_app. rewrite length_file_bytes by apply Hm. pose proof (mw_off _ _ _ _ _ _ _ Hm). change (i_size (inode_of d)) with (d_size d). lia.
  - intros j Hj Hne. rewrite I2; [by apply I1| |done]. unfold inode_number in *. by rewrite S1.
  - intros b Hb Hu. apply U2; [unfold fs_block in *; by rewrite S1|by apply U1].
  - intros k Hk. destruct (A2 k Hk) as [->|E]; [by apply A1|]. right. destruct (used s _) eqn:Eu; [|done].
    rewrite (U1 _ (piece_block _ _ _ _ _ _ _ _ _ _ _ k P2 S1 Hk) Eu) in E. done.
  - intros b Hb. rewrite O2; [by apply O1|]. exact (other_block_step _ _ _ _ _ _ _ _ _ _ b Hm P1 Hb).
  - by rewrite T2, T1, list_insert_insert_eq.
  - unfold io_frame in *. rewrite F2, F1. by destruct s.
Qed.

(** ** Crashes *)

(** The bytes of inode [inum] on the disk [D]. *)
Definition file_on (D : Z -> list Z) (b : superblock) (inum : Z) : list Z := file_bytes D (inode_of (dinode_on D b inum)).

(** On the disk [D] the file [inum] is that of [s] with [bs] written at [off], and nothing else changed. *)
Record only_wrote s (inum : Z) (d : dinode) (off : nat) (bs : list Z) (D : Z -> list Z) : Prop := {
  ow_bytes : file_on D (sb s) inum = overwrite off bs (file_on (disk s) (sb s) inum);
  ow_inodes : forall j, inode_number s j -> j <> inum -> dinode_on D (sb s) j = dinode_on (disk s) (sb s) j;
  ow_blocks : forall b, other_block s inum d b -> D b = disk s b
}.

Lemma may_write_on start s f x i inum d D :
  may_write start s f x i inum d -> (forall bn, home start bn -> D bn = disk s bn) ->
  (forall j, inode_number s j -> dinode_on D (sb s) j = dinode_on (view s) (sb s) j) /\
  file_on D (sb s) inum = file_bytes (view s) (inode_of d) /\ inode_number s inum.
Proof.
  intros [Hid Hic Hrg Hinv [Hf Hty Hfi Hoff (ip & Hi & Hp & Hd) Hdt Hfo] Hnum Hdir Hdok Hsz Hof] HD.
  pose proof (fb_start _ _ _ _ (id_boot _ _ _ _ Hid)) as Hst. rewrite Hi in Hnum. injection Hnum as <-.
  assert (Hv : forall bn, home (lg_start (lg s)) bn -> D bn = view s bn).
  { intros bn Hh. rewrite (idle_view start s bn Hid). apply HD. by rewrite <- Hst. }
  assert (Hj : forall j, inode_number s j -> dinode_on D (sb s) j = dinode_on (view s) (sb s) j).
  { intros j Hj. unfold dinode_on. rewrite Hv; [done|]. by apply (fi_inodes _ Hinv). }
  assert (Hn : inode_number s (i_inum ip)) by by apply (Hrg i). split_and!; [done| |done].
  unfold file_on. rewrite (Hj _ Hn), Hd. by apply (short_file_same _ _ s).
Qed.

Lemma piece_on start s f x i inum d bs s' d' D :
  may_write start s f x i inum d -> piece start s f x i inum d bs s' d' -> (forall bn, home start bn -> D bn = disk s' bn) ->
  only_wrote s inum d (Z.to_nat (f_off x)) bs D.
Proof.
  intros Hm P HD. destruct (may_write_on start s f x i inum d (disk s) Hm ltac:(done)) as (J0 & B0 & Hn).
  pose proof (pc_ready _ _ _ _ _ _ _ _ _ _ P) as Hm'. destruct (may_write_on start s' _ _ i inum d' D Hm' HD) as (J1 & B1 & _).
  rewrite (pc_sb _ _ _ _ _ _ _ _ _ _ P) in B1. split.
  - rewrite B1, B0. apply P.
  - intros j Hj Hne. rewrite (J0 j Hj). rewrite <- (pc_inodes _ _ _ _ _ _ _ _ _ _ P j Hj Hne), <- J1; [by rewrite (pc_sb _ _ _ _ _ _ _ _ _ _ P)|].
    unfold inode_number in *. by rewrite (pc_sb _ _ _ _ _ _ _ _ _ _ P).
  - intros b Hb. pose proof (id_boot _ _ _ _ (mw_idle _ _ _ _ _ _ _ Hm)) as Hbt. pose proof (pb_home _ _ (ob_plain _ _ _ _ Hb)) as Hh.
    rewrite (fb_start _ _ _ _ Hbt) in Hh. rewrite HD by done. rewrite <- (idle_view start s'), <- (idle_view start s) by (apply Hm || apply Hm'). by apply P.
Qed.

Lemma only_wrote_app start s f x i inum d b1 s1 d1 b2 D :
  may_write start s f x i inum d -> piece start s f x i inum d b1 s1 d1 ->
  only_wrote s1 inum d1 (Z.to_nat (f_off x + length b1)) b2 D -> only_wrote s inum d (Z.to_nat (f_off x)) (b1 ++ b2) D.
Proof.
  intros Hm P [O1 O2 O3]. destruct (piece_on start s f x i inum d b1 s1 d1 (disk s1) Hm P ltac:(done)) as [Q1 Q2 Q3].
  destruct (may_write_on start s f x i inum d (disk s) Hm ltac:(done)) as (_ & B0 & _).
  pose proof (oi_off _ _ _ _ _ (mw_file _ _ _ _ _ _ _ Hm)) as [Hoff _]. pose proof (mw_off _ _ _ _ _ _ _ Hm) as Hof.
  pose proof (pc_sb _ _ _ _ _ _ _ _ _ _ P) as S1. rewrite S1 in O1, O2. split.
  - rewrite O1, Q1. rewrite Z2Nat.inj_add, Nat2Z.id by lia. apply overwrite_app. rewrite B0, length_file_bytes by apply Hm.
    change (i_size (inode_of d)) with (d_size d). lia.
  - intros j Hj Hne. rewrite O2; [by apply Q2|unfold inode_number in *; by rewrite S1|done].
  - intros b Hb. rewrite O3; [by apply Q3|]. exact (other_block_step _ _ _ _ _ _ _ _ _ _ b Hm P Hb).
Qed.

(** After a crash at the writes [w0], recovery leaves the file of [s] with whole pieces of [bs] written. *)
Definition crash_pieces (start : Z) s (inum : Z) (d : dinode) (off : nat) (bs : list Z) (w0 : list (Z * list Z)) : Prop :=
  forall me' pid' r, fresh_boot me' pid' start r -> (forall bn, disk r bn = apply_writes w0 (disk s) bn) ->
  exists r' k, recover_from_log r = Ok tt r' /\ only_wrote s inum d off (take k bs) (disk r') /\
    (k <= length bs)%nat /\ (k = length bs \/ (write_max | Z.of_nat k)).

Record crash_run (start : Z) s (inum : Z) (d : dinode) (off : nat) (bs : list Z) s' (w : list (Z * list Z)) : Prop := {
  cr_writes : writes s' = writes s ++ w;
  cr_disk : forall bn, disk s' bn = apply_writes w (disk s) bn;
  cr_crash : forall w0 w1, w = w0 ++ w1 -> crash_pieces start s inum d off bs w0
}.

Lemma crash_run_piece start s f x i inum d bs s' d' w :
  may_write start s f x i inum d -> piece start s f x i inum d bs s' d' -> wrote_piece start s s' w ->
  crash_run start s inum d (Z.to_nat (f_off x)) bs s' w.
Proof.
  intros Hm P [W1 W2 W3]. split; [done..|]. intros w0 w1 E me' pid' r Hr Hd. destruct (W3 w0 w1 E me' pid' r Hr Hd) as (r' & Er & [Hold|Hnew]).
  - exists r', 0%nat. split_and!; [done| |lia|right; apply Z.divide_0_r]. exact (piece_on _ _ _ _ _ _ _ _ _ _ _ Hm (piece_refl _ _ _ _ _ _ _ Hm) Hold).
  - exists r', (length bs). rewrite firstn_all. split_and!; [done| |lia|by left]. exact (piece_on _ _ _ _ _ _ _ _ _ _ _ Hm P Hnew).
Qed.

(** [w0] stops in [wa], or has [wa] and a part of [wb]. *)
Lemma prefix_cases {A} (wa wb w0 w1 : list A) :
  wa ++ wb = w0 ++ w1 -> (exists w2, wa = w0 ++ w2) \/ (exists w2, w0 = wa ++ w2 /\ wb = w2 ++ w1).
Proof.
  intros E. apply app_eq_app in E as (l & [[-> ->]|[-> ->]]); [left; by exists l|right; by exists l].
Qed.

Lemma crash_run_app start s f x i inum d b1 s1 d1 w1 b2 s2 w2 :
  may_write start s f x i inum d -> piece start s f x i inum d b1 s1 d1 -> wrote_piece start s s1 w1 ->
  crash_run start s1 inum d1 (Z.to_nat (f_off x + length b1)) b2 s2 w2 -> Z.of_nat (length b1) = write_max ->
  crash_run start s inum d (Z.to_nat (f_off x)) (b1 ++ b2) s2 (w1 ++ w2).
Proof.
  intros Hm P Hw1 [C1 C2 C3] Hlen. pose proof Hw1 as [W1 W2 _]. split.
  - by rewrite C1, W1, app_assoc.
  - intros bn. rewrite C2, apply_writes_app. by apply apply_writes_ext.
  - intros w0 w' E me' pid' r Hr Hd. apply prefix_cases in E as [(v & E)|(v & -> & E)].
    + destruct (cr_crash _ _ _ _ _ _ _ _ (crash_run_piece _ _ _ _ _ _ _ _ _ _ _ Hm P Hw1) w0 v E me' pid' r Hr Hd) as (r' & k & Er & Ho & Hk & Hdiv).
      exists r', k. rewrite take_app_le by done. split_and!; [done|done|rewrite length_app; lia|]. right. destruct Hdiv as [->|]; [|done]. rewrite Hlen. apply Z.divide_refl.
    + destruct (C3 v w' E me' pid' r Hr) as (r' & k & Er & Ho & Hk & Hdiv).
      { intros bn. rewrite Hd, apply_writes_app. symmetry. by apply apply_writes_ext. }
      exists r', (length b1 + k)%nat. rewrite take_app_add. split_and!; [done| |rewrite length_app; lia|].
      * exact (only_wrote_app _ _ _ _ _ _ _ _ _ _ _ _ Hm P Ho).
      * destruct Hdiv as [->|Hdiv]; [left; by rewrite length_app|right]. rewrite Nat2Z.inj_add, Hlen. apply Z.divide_add_r; [apply Z.divide_refl|done].
Qed.

(** ** [filewrite] *)

(** What [filewrite] did when it wrote [bs] of the bytes [l]: all of them, or every block of the disk is in use. *)
Record file_written (start : Z) s (f : nat) (x : file) (i : nat) (inum : Z) (d : dinode) (l bs : list Z) s' (d' : dinode) (w : list (Z * list Z)) : Prop := {
  fw_piece : piece start s f x i inum d bs s' d';
  fw_crash : crash_run start s inum d (Z.to_nat (f_off x)) bs s' w;
  fw_prefix : bs `prefix_of` l;
  fw_full : bs = l \/ forall b, fs_block s b -> used s' b = true
}.

Lemma file_written_nil start s f x i inum d : may_write start s f x i inum d -> file_written start s f x i inum d [] [] s d [].
Proof.
  intros Hm. pose proof (piece_refl _ _ _ _ _ _ _ Hm) as P. split; [done| |apply prefix_nil|by left]. split; [by rewrite app_nil_r|done|].
  intros w0 w1 E. symmetry in E. apply app_eq_nil in E as [-> ->]. intros me' pid' r Hr Hd.
  destruct (recover_run me' pid' start r Hr) as (r' & Er & _ & _ & _ & Hdr).
  { rewrite Hd. cbn. apply hdr_ok_0. apply (id_empty _ _ _ _ (mw_idle _ _ _ _ _ _ _ Hm)). }
  exists r', 0%nat. split_and!; [done| |done|by left]. apply (piece_on _ _ _ _ _ _ _ _ _ _ _ Hm P). intros bn Hh. rewrite Hdr.
  etrans; [exact (recovered_ext start _ _ bn Hd)|]. apply recovered_empty; [apply (id_empty _ _ _ _ (mw_idle _ _ _ _ _ _ _ Hm))|by apply home_ne_start].
Qed.

Lemma filewrite_loop_done k f addr n s : filewrite_loop k f addr n n s = Ok n s.
Proof. destruct k; cbn [filewrite_loop]; by rewrite Z.ltb_irrefl. Qed.

Lemma file_written_app start s f x i inum d b1 s1 d1 w1 l2 b2 s2 d2 w2 :
  may_write start s f x i inum d -> piece start s f x i inum d b1 s1 d1 -> wrote_piece start s s1 w1 -> Z.of_nat (length b1) = write_max ->
  file_written start s1 f (set_f_off (f_off x + length b1) x) i inum d1 l2 b2 s2 d2 w2 ->
  file_written start s f x i inum d (b1 ++ l2) (b1 ++ b2) s2 d2 (w1 ++ w2).
Proof.
  intros Hm P Hw Hlen [F1 F2 F3 F4]. split.
  - by eapply piece_trans.
  - by eapply crash_run_app.
  - by apply prefix_app.
  - destruct F4 as [->|F4]; [by left|right]. intros b Hb. apply F4. unfold fs_block in *. by rewrite (pc_sb _ _ _ _ _ _ _ _ _ _ P).
Qed.

Lemma filewrite_loop_run start f addr n pt V i inum : 0 <= addr -> forall (k : nat) s x d j l,
  may_write start s f x i inum d -> 0 <= j <= n -> at_source pt V (addr + j) l s -> length l = Z.to_nat (n - j) ->
  f_off x + (n - j) <= NDIRECT * BSIZE -> n - j <= k * write_max ->
  exists m s' d' bs w, filewrite_loop k f addr n j s = Ok m s' /\ (m = n <-> bs = l) /\ file_written start s f x i inum d l bs s' d' w.
Proof.
  intros Ha. induction k as [|k IH]; intros s x d j l Hm Hj Hsrc Hl Hend Hk.
  all: destruct (decide (j = n)) as [->|Hne]; [assert (l = []) as -> by (apply nil_length_inv; lia);
    exists n, s, d, [], []; split_and!; [apply filewrite_loop_done|done|by apply file_written_nil]|].
  { lia. }
  set (n1 := Z.min (n - j) write_max). assert (Hw : write_max = 3072) by done. assert (Hn1 : 0 < n1 <= n - j) by (unfold n1; lia).
  destruct (at_source_split pt V (addr + j) l s (Z.to_nat n1) Hsrc ltac:(lia)) as [S1 S2].
  destruct (filewrite_turn start k s f x i inum d addr n j (take (Z.to_nat n1) l) pt V Hm Ha ltac:(lia) S1) as (r & s1 & d1 & w1 & E & Hr & Hfull & P & Hw1).
  { fold n1. rewrite length_take. lia. }
  { fold n1. lia. }
  fold n1 in E, Hr, Hfull. rewrite E. set (b1 := take (Z.to_nat r) (take (Z.to_nat n1) l)) in *.
  assert (Eb : b1 = take (Z.to_nat r) l) by (unfold b1; rewrite take_take; f_equal; lia).
  assert (Lb : length b1 = Z.to_nat r) by (rewrite Eb, length_take; lia).
  destruct (decide (r = n1)) as [->|Hrn]; [rewrite Z.eqb_refl; cbn [negb]|rewrite (proj2 (Z.eqb_neq _ _) Hrn); cbn [negb]].
  - destruct (decide (n1 = n - j)) as [Ee|Ene].
    + assert (b1 = l) as -> by (rewrite Eb; apply take_ge; lia). exists n, s1, d1, l, w1. replace (j + n1) with n by lia.
      split_and!; [apply filewrite_loop_done|done|]. split; [done|by eapply crash_run_piece|done|by left].
    + assert (Hb1 : Z.of_nat (length b1) = write_max) by lia. assert (Hn3 : n1 = write_max) by lia.
      destruct (IH s1 (set_f_off (f_off x + length b1) x) d1 (j + n1) (drop (Z.to_nat n1) l)) as (m & s2 & d2 & b2 & w2 & E2 & Hm2 & Hfw).
      * apply P.
      * lia.
      * apply (at_source_frame _ _ _ _ s); [apply P|]. rewrite Z2Nat.id, <- Z.add_assoc in S2 by lia. done.
      * rewrite length_drop. lia.
      * change (f_off x + length b1 + (n - (j + n1)) <= NDIRECT * BSIZE). lia.
      * lia.
      * exists m, s2, d2, (b1 ++ b2), (w1 ++ w2). assert (El : l = b1 ++ drop (Z.to_nat n1) l) by (rewrite Eb; by rewrite take_drop).
        split_and!; [done|rewrite El at 1; rewrite Hm2; split; [by intros ->|by intros ?%app_inv_head]|]. rewrite El. by eapply file_written_app.
  - exists j, s1, d1, b1, w1. split_and!; [done| |].
    + split; [lia|]. intros Hbl. exfalso. apply (f_equal length) in Hbl. lia.
    + split; [done|by eapply crash_run_piece|rewrite Eb; apply prefix_take|]. right. by destruct Hfull.
Qed.

Lemma filewrite_run start s f x i inum d addr l pt V :
  may_write start s f x i inum d -> f_writable x <> 0 -> at_source pt V addr l s -> f_off x + length l <= NDIRECT * BSIZE ->
  exists r s' d' bs w, filewrite f addr (length l) s = Ok r s' /\ r = (if decide (bs = l) then Z.of_nat (length l) else -1) /\
    file_written start s f x i inum d l bs s' d' w.
Proof.
  intros Hm Hwr Hsrc Hend. destruct (filewrite_loop_run start f addr (length l) pt V i inum (um_lo _ _ _ _ (as_mapped _ _ _ _ _ Hsrc))
    (Z.to_nat (length l / write_max + 1)) s x d 0 l Hm) as (m & s' & d' & bs & w & E & Hm' & Hfw); rewrite ?Z.sub_0_r, ?Z.add_0_r; try done; try lia.
  { change write_max with 3072. Z.div_mod_to_equations. lia. }
  exists (if m =? length l then Z.of_nat (length l) else -1), s', d', bs, w. split_and!; [| |done].
  - unfold filewrite, getf. rewrite bind_run, (oi_file _ _ _ _ _ (mw_file _ _ _ _ _ _ _ Hm)). cbn [obind].
    rewrite (proj2 (Z.eqb_neq _ _) Hwr), (oi_type _ _ _ _ _ (mw_file _ _ _ _ _ _ _ Hm)). by kstep E.
  - case_decide as Hb; [by rewrite (proj2 (Z.eqb_eq _ _) (proj2 Hm' Hb))|]. rewrite (proj2 (Z.eqb_neq _ _)); [done|]. by intros ?%Hm'.
Qed.

(** C15. [filewrite] on an open file, within the blocks that the inode addresses
    directly: the bytes that the process has at [addr] replace those of the file from
    the offset on, the file grows if they reach past its end, and the offset moves past
    them.  The value is their number; it is -1 only if every block of the disk is in use
    afterwards, and then a prefix of the bytes was written.  The other inodes on the disk and every
    block in use that is not the file's stay as they are, no block is freed, and the
    state is again one between two operations, with the inode on disk as the table has
    it and nothing pinned in the cache. *)
Theorem filewrite_spec start s f x i inum d addr l pt V :
  may_write start s f x i inum d -> f_writable x <> 0 -> at_source pt V addr l s -> f_off x + length l <= NDIRECT * BSIZE ->
  exists r s' d' bs, filewrite f addr (length l) s = Ok r s' /\
    (r = Z.of_nat (length l) /\ bs = l \/ r = -1 /\ bs `prefix_of` l /\ forall b, fs_block s b -> used s' b = true) /\
    file_bytes (view s') (inode_of d') = overwrite (Z.to_nat (f_off x)) bs (file_bytes (view s) (inode_of d)) /\
    may_write start s' f (set_f_off (f_off x + length bs) x) i inum d' /\
    (forall j, inode_number s j -> j <> inum -> dinode_on (view s') (sb s') j = dinode_on (view s) (sb s) j) /\
    (forall b, other_block s inum d b -> view s' b = view s b) /\
    (forall b, fs_block s b -> used s b = true -> used s' b = true) /\
    ftab s' = <[f := set_f_off (f_off x + length bs) x]> (ftab s) /\
    io_frame (set_itab (itab s') (set_ftab (ftab s') (set_lg (lg s') s))) s'.
Proof.
  intros Hm Hwr Hsrc Hend. destruct (filewrite_run start s f x i inum d addr l pt V Hm Hwr Hsrc Hend) as (r & s' & d' & bs & w & E & Hr & [[] _ F3 F4]).
  exists r, s', d', bs. split_and!; try done. case_decide; [by left|right]. destruct F4 as [|F4]; [done|by split_and!].
Qed.

(** C2. Writing a file within its directly addressed blocks is atomic piece by piece: if the machine crashes after any
    number of the disk writes that [filewrite] makes, recovery on the next boot returns, and
    on the disk the file is the old one with the first [k] of the written bytes at the
    offset, where [k] is their number or a multiple of the size of a piece, so that a
    write of at most that size happens as a whole or not at all; the other inodes and every block in use
    that is not the file's are the old ones. *)
Theorem filewrite_crash start s f x i inum d addr l pt V :
  may_write start s f x i inum d -> f_writable x <> 0 -> at_source pt V addr l s -> f_off x + length l <= NDIRECT * BSIZE ->
  exists r s' bs w, filewrite f addr (length l) s = Ok r s' /\ bs `prefix_of` l /\ (0 <= r -> bs = l) /\ writes s' = writes s ++ w /\
    forall w0 w1, w = w0 ++ w1 -> crash_pieces start s inum d (Z.to_nat (f_off x)) bs w0.
Proof.
  intros Hm Hwr Hsrc Hend. destruct (filewrite_run start s f x i inum d addr l pt V Hm Hwr Hsrc Hend) as (r & s' & d' & bs & w & E & Hr & [_ [C1 C2 C3] F3 _]).
  exists r, s', bs, w. split_and!; try done. case_decide; [done|lia].
Qed.

(** ** Writing and reading back *)

Lemma overwrite_range (o : nat) (bs c : list Z) : (o <= length c)%nat -> take (length bs) (drop o (overwrite o bs c)) = bs.
Proof.
  intros Ho. unfold overwrite. rewrite drop_app_length' by (rewrite length_take; lia). by rewrite take_app_length.
Qed.

Lemma user_room_frame s s' dst n V :
  io_frame (set_itab (itab s') (set_ftab (ftab s') (set_lg (lg s') s))) s' -> user_room me s dst n V -> user_room me s' dst n V.
Proof.
  unfold io_frame. intros F (p & Hp & Ho & HV & Hw). assert (Em : mem s' = mem s) by by rewrite F.
  assert (Er : refcnt s' = refcnt s) by by rewrite F. assert (Ep : procs s' = procs s) by by rewrite F.
  exists p. unfold own in *. by rewrite Em, Er, Ep.
Qed.

(** C17. What is written is read: after [filewrite] of the bytes [l], within the directly addressed blocks, through one open file
    has returned their number, [fileread] through another open file of the same inode,
    at the offset where they were written, returns this number and delivers exactly [l] to the memory of
    the process, and changes no other byte of memory. *)
Theorem write_read_back start s f x i inum d addr l pt V g y dst U :
  may_write start s f x i inum d -> f_writable x <> 0 -> at_source pt V addr l s -> f_off x + length l <= NDIRECT * BSIZE ->
  ftab s !! g = Some y -> g <> f -> f_type y = FD_INODE -> f_ip y = Some i -> f_readable y <> 0 -> f_off y = f_off x ->
  user_room me s dst (length l) U ->
  exists r s1, filewrite f addr (length l) s = Ok r s1 /\
    (0 <= r -> exists s2, fileread g dst (length l) s1 = Ok (Z.of_nat (length l)) s2 /\ uwritten U dst l (mem s) (mem s2)).
Proof.
  intros Hm Hwr Hsrc Hend Hg Hne Hty Hip Hrd Hoff Hroom.
  destruct (filewrite_run start s f x i inum d addr l pt V Hm Hwr Hsrc Hend) as (r & s1 & d1 & bs & w & E & Hr & [P _ _ _]).
  exists r, s1. split; [done|]. intros H0. case_decide as Hbs; [subst bs|lia]. pose proof (pc_ready _ _ _ _ _ _ _ _ _ _ P) as Hm1.
  pose proof (mw_file _ _ _ _ _ _ _ Hm1) as [_ _ _ _ Hin Hdt Hfo]. pose proof (oi_off _ _ _ _ _ (mw_file _ _ _ _ _ _ _ Hm)) as Hu.
  assert (Hfy : inode_file s1 g y i d1).
  { split; try done; [|by rewrite Hoff]. rewrite (pc_ftab _ _ _ _ _ _ _ _ _ _ P). by rewrite list_lookup_insert_ne. }
  change NDIRECT with 12 in *. change BSIZE with 1024 in *.
  destruct (fileread_run me pid s1 g y i d1 dst (length l) U (idle_read _ _ (mw_idle _ _ _ _ _ _ _ Hm1)) (mw_cache _ _ _ _ _ _ _ Hm1) Hfy Hrd) as (s2 & E2 & Hu2 & _).
  { unfold is_u32 in Hu. lia. }
  { rewrite Nat2Z.id. by apply (user_room_frame s); [apply P|]. }
  assert (Eb : read_range (view s1) (inode_of d1) (f_off y) (length l) = l).
  { unfold read_range. rewrite (proj2 (Z.leb_gt _ _)) by (unfold is_u32 in Hu; lia). rewrite (pc_bytes _ _ _ _ _ _ _ _ _ _ P), Hoff, Nat2Z.id. apply overwrite_range.
    rewrite length_file_bytes by apply Hm. pose proof (mw_off _ _ _ _ _ _ _ Hm). change (i_size (inode_of d)) with (d_size d). lia. }
  rewrite Eb in E2, Hu2. exists s2. split; [done|]. replace (mem s) with (mem s1); [done|]. by rewrite (pc_frame _ _ _ _ _ _ _ _ _ _ P).
Qed.

Lemma may_write_ftab t start s f x i inum d :
  may_write start s f x i inum d -> t !! f = Some x -> may_write start (set_ftab t s) f x i inum d.
Proof.
  intros [[[Hc Hb Hr Hdev Hst Hrg Hlen] H1 H2 H3 H4 H5] [C1 C2 C3 C4 C5] Hn Hinv [Hf Hty Hfi Hoff Hi Hdt Hfo] Hnum Hdir Hdok Hsz Hof] Ht.
  assert (A : agree s (set_ftab t s)) by by split. split; try done.
  - split; try done. split; try done; [by destruct Hc|by destruct Hb].
  - by apply (agree_inv s).
  - by apply (agree_direct s); [|apply Hinv|].
Qed.
End Filewrite.

(** ** Writing the file of [Path.v]

    The disk has a bitmap with the blocks up to the last one of the file in use; file 0
    is open on inode 2 at offset 1, and the page of the process has the bytes at 100. *)

#[local] Existing Instance small_layout.
#[local] Existing Instance small_layout_ok.
#[local] Existing Instance three_waits.

Definition one_bitmap : list Z := replicate 6 255 ++ 1 :: replicate 1017 0.

Definition mapped_disk : Z -> list Z := <[46 := one_bitmap]> one_file.

Definition text_page (l : list Z) : kernel := after (copyout user_pt 100 l) one_page.

Definition write_desc : file := set_f_writable 1 open_desc.

Definition write_machine (l : list Z) : kernel := open_machine write_desc mapped_disk (text_page l).

Lemma mapped_disk_len b : length (mapped_disk b) = 1024%nat.
Proof.
  unfold mapped_disk, one_file, insert, fn_insert. repeat case_decide; vm_compute; reflexivity.
Qed.

Lemma one_bitmap_bits b : 0 <= b < 2000 -> negb (bit_free one_bitmap (b `mod` BPB)) = (b <=? 48).
Proof.
  intros Hb. assert (H : forallb (fun b => Bool.eqb (negb (bit_free one_bitmap (b `mod` BPB))) (b <=? 48)) (seqZ 0 2000) = true) by (vm_compute; reflexivity).
  rewrite forallb_forall in H. apply eqb_prop, H. apply list_elem_of_In, elem_of_seqZ. lia.
Qed.

Section Machine.
Context (s0 : kernel).
#[local] Abbreviation s := (open_machine write_desc mapped_disk s0).

Lemma write_view bn : view s bn = mapped_disk bn.
Proof. apply open_machine_view. Qed.

Lemma write_bblock b : fs_block s b -> BBLOCK b (sb s) = 46.
Proof.
  unfold fs_block. change (sb s) with fs_sb. change (sb_size fs_sb) with 2000. intros Hb. unfold BBLOCK.
  change BPB with 8192. change (sb_bmapstart fs_sb) with 46. rewrite (u32_small b) by (unfold is_u32; lia). rewrite (Z.div_small b 8192) by lia. done.
Qed.

Lemma write_used b : fs_block s b -> used s b = (b <=? 48).
Proof. intros Hb. unfold used. rewrite (write_bblock b Hb), write_view. by apply one_bitmap_bits. Qed.

Lemma write_plain b : 33 <= b <= 48 -> b <> 46 -> plain_block s b.
Proof.
  intros Hb Hne. assert (Hf : fs_block s b) by (unfold fs_block; change (sb_size (sb s)) with 2000; lia). split; try done; try lia.
  - rewrite write_used by done. lia.
  - unfold home. change (lg_start (lg s)) with 2. change LOGBLOCKS with 30. lia.
  - intros b' Hb'. by rewrite write_bblock.
  - rewrite write_view. apply mapped_disk_len.
Qed.

Lemma write_iblock inum : inode_number s inum -> 33 <= IBLOCK inum (sb s) <= 45.
Proof.
  unfold inode_number. change (sb s) with fs_sb. change (sb_ninodes fs_sb) with 200. intros Hn. unfold IBLOCK. change (sb_inodestart fs_sb) with 33.
  change IPB with 16. rewrite (u32_small inum) by (unfold is_u32; lia). rewrite u32_small by (unfold is_u32; Z.div_mod_to_equations; lia). Z.div_mod_to_equations. lia.
Qed.

Lemma write_inv : fs_inv s.
Proof.
  assert (H0 : fs_block s 0) by done. split.
  - split; [done|..].
    + intros b Hb. rewrite write_bblock by done. unfold home. change (lg_start (lg s)) with 2. change LOGBLOCKS with 30. lia.
    + intros b Hb. rewrite write_view. apply mapped_disk_len.
    + intros b Hb. rewrite write_used by done. intros Hlt%Z.leb_gt. split; [|intros b' Hb'; rewrite write_bblock by done; lia].
      unfold fs_block in Hb. change (sb_size (sb s)) with 2000 in Hb. unfold home. change (lg_start (lg s)) with 2. change LOGBLOCKS with 30. lia.
  - split; [done|]. by rewrite write_used.
  - done.
  - intros inum Hn. pose proof (write_iblock inum Hn). apply write_plain; lia.
Qed.

Lemma refs_set t u (r : kernel) bn : refs (set_ftab t (set_itab u r)) bn = refs r bn.
Proof. by destruct r. Qed.

Definition hello_inode : dinode := mkDinode T_FILE 0 0 1 5 (48 :: replicate 12 0).

Lemma write_idle : idle 0 1 2 s.
Proof.
  assert (Hr : forall bn, refs s bn = 0) by (intros bn; unfold open_machine; rewrite refs_set; apply mounted_cached).
  destruct (open_machine_read write_desc mapped_disk s0) as [Hc Hb _ _]. split; try reflexivity.
  - split; try done.
Qed.

Lemma write_direct : direct_ok s (inode_of hello_inode).
Proof.
  assert (Ha : forall k, (k < 12)%nat -> addr_of (inode_of hello_inode) k <> 0 -> k = 0%nat).
  { intros k Hk. do 12 (destruct k as [|k]; [done|]). lia. }
  split; try done.
  - intros k Hk Hk0. rewrite (Ha k Hk Hk0). change (addr_of (inode_of hello_inode) 0) with 48. split; [apply write_plain; lia|].
    intros inum Hn. pose proof (write_iblock inum Hn). lia.
  - intros k k' Hk Hk' Hk0 E. rewrite (Ha k Hk Hk0). symmetry. apply Ha; [done|congruence].
Qed.

Lemma write_ready : may_write 0 1 2 s 0 write_desc 0 2 hello_inode.
Proof.
  assert (Hv : forall bn, mapped_disk bn = view s bn) by (intros bn; symmetry; apply write_view).
  split; try done.
  - exact write_idle.
  - apply open_machine_icache.
  - intros j ip [[-> ->]| ->]%open_machine_inode; done.
  - exact write_inv.
  - split; try done.
    + exists open_entry. split_and!; [done|done|]. rewrite (dinode_on_ext _ mapped_disk) by (intros bn; symmetry; apply Hv). vm_compute. reflexivity.
    + apply (file_ok_ext mapped_disk); [exact Hv|]. apply one_block_ok; [lia|done|vm_compute; reflexivity].
  - exact write_direct.
  - split; try done. repeat constructor; done.
Qed.
End Machine.

#[local] Opaque one_page.

Lemma text_source l :
  Z.of_nat (length l) <= 3000 -> at_source 0 user_pt (pte_at 2 (mem one_page) user_pt) 100 l (write_machine l).
Proof.
  intros Hl. destruct (one_page_writable 100 (length l)) as [Ho Hw]; [lia|lia|change PGSIZE with 4096; lia|done|].
  destruct (copyout_run user_pt one_page 100 l Ho Hw) as (m' & E & Hu & Ho' & HV & HT).
  assert (Ep : text_page l = set_mem m' one_page) by (unfold text_page, after; by rewrite E).
  unfold write_machine. rewrite Ep. split.
  - done.
  - exists (mounted_proc (set_p_pagetable user_pt zero_proc)). split; reflexivity.
  - exact Ho'.
  - exact HV.
  - by apply (user_mapped_read _ true), (uw_mapped _ _ _ _ Hw).
  - exact (uwritten_read _ _ _ _ _ _ (fun x => eq_refl) Hu).
Qed.

(** A second open file of the inode, for reading. *)
Definition two_machine (l : list Z) : kernel := set_ftab (<[1%nat := open_desc]> (<[0%nat := write_desc]> (ftab boot))) (write_machine l).

Lemma two_source l : Z.of_nat (length l) <= 3000 -> at_source 0 user_pt (pte_at 2 (mem one_page) user_pt) 100 l (two_machine l).
Proof. intros Hl. apply at_source_ftab, text_source, Hl. Qed.

Lemma two_ready l : may_write 0 1 2 (two_machine l) 0 write_desc 0 2 hello_inode.
Proof. apply may_write_ftab; [apply write_ready|reflexivity]. Qed.

Lemma text_room l :
  Z.of_nat (length l) <= 3000 -> user_room 0 (two_machine l) 200 3 (pte_at 2 (mem one_page) user_pt).
Proof.
  intros Hl. destruct (one_page_writable 100 (length l)) as [Ho Hw]; [lia|lia|change PGSIZE with 4096; lia|done|].
  destruct (copyout_run user_pt one_page 100 l Ho Hw) as (m' & E & Hu & Ho' & HV & HT).
  assert (Ep : text_page l = set_mem m' one_page) by (unfold text_page, after; by rewrite E).
  unfold two_machine, write_machine. rewrite Ep. exists (mounted_proc (set_p_pagetable user_pt zero_proc)).
  split; [reflexivity|]. split; [exact Ho'|]. split; [exact HV|]. change (mem (set_ftab _ _)) with m'. change (p_pagetable _) with user_pt.
  rewrite HT. apply (one_page_writable 200 3); [lia|lia|change PGSIZE with 4096; lia|done].
Qed.

#[local] Transparent one_page.

Lemma two_result : match @filewrite small_layout three_waits 0 100 3 (two_machine (str "abc")) with Ok r s' => r | _ => 0 end = 3.
Proof. vm_compute. reflexivity. Qed.

Lemma write_result : match @filewrite small_layout three_waits 0 100 3 (write_machine (str "abc")) with Ok r s' => r | _ => 0 end = 3.
Proof. vm_compute. reflexivity. Qed.

#[local] Opaque one_page write_machine two_machine.

Lemma filewrite_spec_witness :
  exists s' d', @filewrite small_layout three_waits 0 100 3 (write_machine (str "abc")) = Ok 3 s' /\
    file_bytes (view s') (inode_of d') = str "habco".
Proof.
  destruct (@filewrite_spec small_layout small_layout_ok three_waits 0 1 2 (write_machine (str "abc")) 0 write_desc 0 2 hello_inode 100 (str "abc") user_pt _
    (write_ready _) ltac:(discriminate) (text_source (str "abc") ltac:(cbn; lia)) ltac:(vm_compute; discriminate)) as (r & s' & d' & bs & E & Hr & Hb & _).
  pose proof write_result as R. change (Z.of_nat (length (str "abc"))) with 3 in E, Hr. rewrite E in R. subst r.
  destruct Hr as [[_ Hbs]|[Hr _]]; [|clear -Hr; lia].
  rewrite Hbs in Hb. exists s', d'. split; [exact E|]. rewrite Hb.
  rewrite (file_bytes_ext _ mapped_disk) by exact (write_view (text_page (str "abc"))). vm_compute. reflexivity.
Defined.

Lemma filewrite_crash_witness :
  exists s' w, @filewrite small_layout three_waits 0 100 3 (write_machine (str "abc")) = Ok 3 s' /\ writes s' = writes (write_machine (str "abc")) ++ w /\
    forall w0 w1, w = w0 ++ w1 -> @crash_pieces three_waits 2 (write_machine (str "abc")) 2 hello_inode 1 (str "abc") w0.
Proof.
  destruct (@filewrite_crash small_layout small_layout_ok three_waits 0 1 2 (write_machine (str "abc")) 0 write_desc 0 2 hello_inode 100 (str "abc") user_pt _
    (write_ready _) ltac:(discriminate) (text_source (str "abc") ltac:(cbn; lia)) ltac:(vm_compute; discriminate)) as (r & s' & bs & w & E & _ & Hr & Hw & Hc).
  pose proof write_result as R. change (Z.of_nat (length (str "abc"))) with 3 in E. rewrite E in R. subst r.
  rewrite (Hr ltac:(lia)) in Hc. exists s', w. split; [exact E|]. split; [exact Hw|exact Hc].
Defined.

Lemma write_read_back_witness :
  exists s1 s2, @filewrite small_layout three_waits 0 100 3 (two_machine (str "abc")) = Ok 3 s1 /\
    @fileread small_layout three_waits 1 200 3 s1 = Ok 3 s2 /\
    uwritten (pte_at 2 (mem one_page) user_pt) 200 (str "abc") (mem (two_machine (str "abc"))) (mem s2).
Proof.
  destruct (@write_read_back small_layout small_layout_ok three_waits 0 1 2 (two_machine (str "abc")) 0 write_desc 0 2 hello_inode 100 (str "abc") user_pt _
    1 open_desc 200 _ (two_ready _) ltac:(discriminate) (two_source (str "abc") ltac:(cbn; lia)) ltac:(vm_compute; discriminate)
    eq_refl ltac:(discriminate) eq_refl eq_refl ltac:(discriminate) eq_refl (text_room (str "abc") ltac:(cbn; lia))) as (r & s1 & E & H).
  pose proof two_result as R. change (Z.of_nat (length (str "abc"))) with 3 in E, H. rewrite E in R. subst r.
  destruct (H ltac:(lia)) as (s2 & E2 & Hu). exists s1, s2. split; [exact E|]. split; [exact E2|exact Hu].
Defined.
