(* ===== verification/Dirlink.v ===== *)
(** * Entering a name in a directory

    [dirlink] inside a transaction: the entry goes to the first slot that is not in use,
    or behind the last one; afterwards the name is found, and every other name means what
    it did. *)

From S2P Require Import Prelude Riscv Mem State Printf Sched Bio Log Crash Fs Balloc FsData Inode Readi Ilock Path Writei UserMem File Fileio Filewrite.

#[local] Open Scope Z_scope.

(** ** Entries *)

(** The first slot that is not in use, from slot [k] on. *)
Fixpoint find_free (n : nat) (d : list Z) (k : Z) : option Z :=
  match n with
  | O => None
  | S n' => if de_inum (dir_entry d k) =? 0 then Some k else find_free n' d (k + 1)
  end.

Definition free_slot (d : list Z) : Z := default (Z.of_nat (length d / 16)) (find_free (length d / 16) d 0).

Lemma find_free_some n d : forall k j, find_free n d k = Some j -> k <= j < k + n /\ de_inum (dir_entry d j) = 0.
Proof.
  induction n as [|n IH]; intros k j; cbn [find_free]; [done|]. destruct (Z.eqb_spec (de_inum (dir_entry d k)) 0) as [E|E].
  - intros [= <-]. split; [lia|done].
  - intros H. destruct (IH _ _ H). split; [lia|done].
Qed.

Lemma dir_entry_end d k : Z.of_nat (length d) <= 16 * k -> de_inum (dir_entry d k) = 0.
Proof. intros H. unfold dir_entry. by rewrite drop_ge by lia. Qed.

Lemma free_slot_free d : (16 | Z.of_nat (length d)) -> 0 <= 16 * free_slot d <= length d /\ de_inum (dir_entry d (free_slot d)) = 0.
Proof.
  intros [q Hq]. unfold free_slot. assert (E : (length d / 16)%nat = Z.to_nat q).
  { apply Nat2Z.inj. rewrite Nat2Z.inj_div, Hq, Z2Nat.id by lia. change (Z.of_nat 16) with 16. by rewrite Z.div_mul. }
  rewrite E. destruct (find_free _ d 0) as [j|] eqn:F; cbn [default from_option id].
  - apply find_free_some in F as [Hj H0]. split; [lia|done].
  - split; [lia|]. apply dir_entry_end. lia.
Qed.

Lemma is_entry_free name e : de_inum e = 0 -> is_entry name e = false.
Proof. intros E. unfold is_entry. by rewrite E. Qed.

Lemma dir_entry_overwrite (d e : list Z) (j k : Z) :
  length e = 16%nat -> 0 <= j -> 16 * j <= length d -> (16 | Z.of_nat (length d)) -> 0 <= k ->
  dir_entry (overwrite (Z.to_nat (16 * j)) e d) k = if decide (k = j) then get_dirent e else dir_entry d k.
Proof.
  intros He Hj Hjd [q Hq] Hk. unfold dir_entry, overwrite. set (o := Z.to_nat (16 * j)).
  assert (Lt : length (take o d) = o) by (rewrite length_take; lia).
  case_decide as E.
  - subst k. fold o. rewrite drop_app_length' by done. by rewrite take_app_length' by done.
  - set (o' := Z.to_nat (16 * k)). destruct (decide (k < j)) as [Hlt|Hge].
    + rewrite drop_app_le by lia. rewrite take_app_le by (rewrite length_drop; lia). f_equal. by rewrite !take_drop_commute, take_take, Nat.min_l by lia.
    + rewrite drop_app_ge, Lt by lia. rewrite drop_app_ge by lia. rewrite drop_drop. do 3 f_equal. lia.
Qed.

(** One more slot behind the end makes no difference. *)
Lemma find_name_end d name : forall (n : nat) k, Z.of_nat (length d) <= 16 * (k + n) -> find_name (S n) d name k = find_name n d name k.
Proof.
  induction n as [|n IH]; intros k H.
  - cbn [find_name]. rewrite is_entry_free; [done|]. apply dir_entry_end. lia.
  - cbn [find_name] in *. destruct (is_entry _ _); [reflexivity|]. apply (IH (k + 1)). lia.
Qed.

(** A slot that was free, and is not what [name] asks for. *)
Lemma find_name_other d d' name j : forall (n : nat) k,
  (forall i, k <= i -> i <> j -> dir_entry d' i = dir_entry d i) -> is_entry name (dir_entry d j) = false -> is_entry name (dir_entry d' j) = false ->
  find_name n d' name k = find_name n d name k.
Proof.
  induction n as [|n IH]; intros k H H1 H2; [done|]. cbn [find_name]. destruct (decide (k = j)) as [->|Hne].
  - rewrite H1, H2. apply (IH (j + 1)); [intros i Hi; apply H; lia|assumption..].
  - rewrite H by lia. destruct (is_entry name (dir_entry d k)); [reflexivity|]. apply (IH (k + 1)); [intros i Hi; apply H; lia|assumption..].
Qed.

(** A slot that now has the name, which no slot had. *)
Lemma find_name_same d d' name j : forall (n : nat) k,
  (forall i, k <= i -> i <> j -> dir_entry d' i = dir_entry d i) -> is_entry name (dir_entry d' j) = true -> find_name n d name k = None ->
  k <= j < k + n -> find_name n d' name k = Some (j, dir_entry d' j).
Proof.
  induction n as [|n IH]; intros k H H1 H2 Hj; [lia|]. cbn [find_name] in *. destruct (decide (k = j)) as [->|Hne]; [by rewrite H1|].
  rewrite H by lia. destruct (is_entry name (dir_entry d k)); [discriminate|]. apply (IH (k + 1)); [intros i Hi; apply H; lia|assumption|assumption|lia].
Qed.

(** Entering a name: it is found, if it was not there before, and the others are found as before. *)
Lemma lookup_name_link d name inum name' :
  (16 | Z.of_nat (length d)) -> 0 < inum < 65536 ->
  let e := mkDirent inum (strncpy_name name) in
  let d' := overwrite (Z.to_nat (16 * free_slot d)) (put_dirent e) d in
  (namecmp name' (strncpy_name name) = 0 -> lookup_name d name' = None -> lookup_name d' name' = Some (free_slot d, e)) /\
  (namecmp name' (strncpy_name name) <> 0 -> lookup_name d' name' = lookup_name d name').
Proof.
  intros Hq Hn e d'. destruct (free_slot_free d Hq) as [Hj H0]. set (j := free_slot d) in *. pose proof Hq as [q Eq].
  assert (Le : length (put_dirent e) = 16%nat) by apply length_put_dirent.
  assert (He : forall k, 0 <= k -> dir_entry d' k = if decide (k = j) then e else dir_entry d k).
  { intros k Hk. unfold d'. rewrite dir_entry_overwrite by (done || lia). case_decide; [|done]. apply get_put_dirent. lia. }
  assert (Ld : (length d / 16)%nat = Z.to_nat q).
  { apply Nat2Z.inj. rewrite Nat2Z.inj_div, Eq, Z2Nat.id by lia. change (Z.of_nat 16) with 16. by rewrite Z.div_mul. }
  assert (Ld' : (length d' / 16)%nat = Nat.max (Z.to_nat q) (S (Z.to_nat j))).
  { apply Nat2Z.inj. rewrite Nat2Z.inj_div. change (Z.of_nat 16) with 16. symmetry. apply Z.div_unique_exact; [lia|].
    unfold d', overwrite. rewrite !length_app, length_take, length_drop, Le. lia. }
  assert (Eo : forall n, lookup_name d n = find_name (Nat.max (Z.to_nat q) (S (Z.to_nat j))) d n 0).
  { intros n. unfold lookup_name. rewrite Ld. destruct (decide (j < q)) as [Hlt|Hge]; [by rewrite Nat.max_l by lia|].
    replace (Nat.max _ _) with (S (Z.to_nat q)) by lia. symmetry. apply find_name_end. lia. }
  assert (Ej : forall n, is_entry n (dir_entry d' j) = (namecmp n (strncpy_name name) =? 0)).
  { intros n. rewrite He, decide_True by lia. unfold is_entry, e. cbn [de_inum de_name]. by rewrite (proj2 (Z.eqb_neq inum 0)) by lia. }
  assert (Hoth : forall i, 0 <= i -> i <> j -> dir_entry d' i = dir_entry d i) by (intros i Hi Hne; by rewrite He, decide_False by lia).
  assert (Edj : dir_entry d' j = e) by (rewrite He, decide_True by lia; done).
  rewrite !Eo. unfold lookup_name. rewrite Ld'. split; intros Hc.
  - intros Hnone. rewrite <- Edj. apply (find_name_same d); [done|by rewrite Ej, Hc|done|lia].
  - apply (find_name_other d d' name' j); [done|by apply is_entry_free|]. rewrite Ej. by apply Z.eqb_neq.
Qed.

(** ** [dirlink] *)

Section Dirlink.
Context `{W : Waits} (me : nat) (pid : Z).
Implicit Types s : kernel.

Lemma supplies_local : supplies get_local (fun a l _ => a = l).
Proof. split; [|by intros]. intros a l m s -> Hm. by exists (drop (Z.to_nat m) l). Qed.

(** A write after something that only touched buffers. *)
Lemma same_view_wrote s s1 i ip off bs s' ip' :
  same_view pid s s1 -> fs_inv s -> wrote s1 i ip off bs s' ip' -> wrote s i ip off bs s' ip'.
Proof.
  intros S Hinv Hw. pose proof (sv_frame _ _ _ S) as F. assert (T : itab s1 = itab s) by by rewrite F.
  assert (B : sb s1 = sb s) by by rewrite F. assert (L : lg s1 = lg s) by by rewrite F. pose proof (same_view_agree pid s s1 S) as A.
  destruct Hw as [W1 W2 W3 W4 W5 W6 W7 W8 W9 W10 W11 W12 W13 W14 W15 W16 W17 W18].
  assert (D : disk s1 = disk s) by apply S. assert (Wr : writes s1 = writes s) by apply S.
  split; try done; try congruence.
  - rewrite T in W1. unfold io_frame in *. rewrite W1, F. by destruct s.
  - rewrite W10. by rewrite (file_bytes_ext _ (view s)) by apply S.
  - intros j Hj Hne. rewrite W12; [|unfold inode_number in *; by rewrite B|done]. unfold dinode_on. by rewrite B, (sv_view _ _ _ S).
  - intros b Hb Hu. apply W16; [unfold fs_block in *; by rewrite B|by rewrite (same_view_used _ _ _ _ S)].
  - intros k Hk. rewrite <- (same_view_used _ _ _ (addr_of ip' k) S). by apply W17.
  - intros b Hb Hk Hne. rewrite W18; [apply S|by apply (agree_plain s); [|apply Hinv|]|done|by rewrite B].
Qed.

Definition slot_body (dp : nat) : Z -> unit -> K (unit + Z) := fun off _ =>
  de ← read_dirent dp off "dirlink read";
  mret (if de_inum de =? 0 then inr off else inl tt).

Lemma slot_loop dp ip v (n : nat) : forall k s,
  can_read me pid s -> itab s !! dp = Some ip -> (forall bn, view s bn = v bn) -> file_ok v ip -> 0 <= k -> 16 * (k + n) <= i_size ip ->
  exists s', kfor ((fun k => k * sizeof_dirent) <$> seqZ k n) (slot_body dp) tt s =
      Ok (match find_free n (file_bytes v ip) k with Some j => inr (j * sizeof_dirent) | None => inl tt end) s' /\ same_view pid s s'.
Proof.
  induction n as [|n IH]; intros k s Hr Hi Hv Hfo Hk Hsz; cbn [find_free].
  { exists s. split; [done|by eapply same_view_read]. }
  rewrite seqZ_cons by lia. cbn [fmap list_fmap kfor]. replace (Z.pred (S n)) with (Z.of_nat n) by lia. rewrite <- Z.add_1_r.
  destruct (read_dirent_run me pid s dp ip k "dirlink read" Hr Hi) as (s1 & E1 & S1); [apply (file_ok_ext v); [intros bn; by rewrite Hv|done]|done|lia|].
  rewrite (file_bytes_ext (view s) v) in E1 by done.
  pose proof (same_but_mem_read me pid _ _ (same_view_mem _ _ _ S1) Hr) as Hr1. destruct (same_view_procs _ _ _ S1) as [T1 _].
  assert (Hb : slot_body dp (k * sizeof_dirent) tt s =
    Ok (if de_inum (dir_entry (file_bytes v ip) k) =? 0 then inr (k * sizeof_dirent) else inl tt) s1) by (unfold slot_body; by kstep E1).
  rewrite bind_run, Hb. cbn [obind]. destruct (de_inum _ =? 0); [by exists s1|].
  destruct (IH (k + 1) s1 Hr1) as (s2 & E2 & S2); [by rewrite T1|intros bn; by rewrite (sv_view _ _ _ S1)|done|lia|lia|].
  exists s2. split; [done|by eapply same_view_trans].
Qed.

(** Directory [dp] is locked, inside an operation that may log [n] more blocks. *)
Record dir_locked (n : nat) s (bl : list Z) (dp : nat) (ip : inode) : Prop := {
  dl_budget : budget me pid n s bl;
  dl_inv : fs_inv s;
  dl_cache : icache_ok pid [dp] s;
  dl_range : numbered s;
  dl_entry : itab s !! dp = Some ip;
  dl_type : i_type ip = T_DIR;
  dl_direct : direct_ok s ip;
  dl_dinode : dinode_ok (to_dinode ip);
  dl_file : file_ok (view s) ip;
  dl_mod : i_size ip `mod` 16 = 0;
  dl_size : i_size ip <= NDIRECT * BSIZE
}.

Lemma dir_locked_number n s bl dp ip : dir_locked n s bl dp ip -> inode_number s (i_inum ip) /\ 0 < i_ref ip.
Proof.
  intros H. destruct (ic_held _ _ _ (dl_cache _ _ _ _ _ H) dp ip (dl_entry _ _ _ _ _ H) ltac:(by left)) as [Hp _].
  split; [by apply (dl_range _ _ _ _ _ H dp), Hp; apply H|done].
Qed.

Lemma same_view_dir_locked n s s' bl dp ip : same_view pid s s' -> dir_locked n s bl dp ip -> dir_locked n s' bl dp ip.
Proof.
  intros S [D1 D2 D3 D4 D5 D6 D7 D8 D9 D10 D11]. pose proof (sv_frame _ _ _ S) as F. assert (T : itab s' = itab s) by by rewrite F.
  assert (B : sb s' = sb s) by by rewrite F. split; try done.
  - by eapply same_view_budget.
  - by eapply same_view_inv.
  - apply (icache_same pid _ s); [done|done|done|apply S].
  - intros j x. unfold inode_number. rewrite T, B. apply D4.
  - by rewrite T.
  - by eapply same_view_direct.
  - apply (file_ok_ext (view s)); [|done]. intros bn. by rewrite (sv_view _ _ _ S).
Qed.

Lemma wrote_dir_locked n m s bl dp ip (off : nat) bs s' ip' bl' :
  dir_locked n s bl dp ip -> wrote s dp ip off bs s' ip' -> budget me pid m s' bl' -> Z.of_nat (off + length bs) <= NDIRECT * BSIZE ->
  Z.of_nat (off + length bs) `mod` 16 = 0 -> dir_locked m s' bl' dp ip'.
Proof.
  intros H Hw Hbg Hend Hmod. pose proof H as [D1 D2 D3 D4 D5 D6 D7 D8 D9 D10 D11]. pose proof (wr_inode _ _ _ _ _ _ _ Hw) as Ei.
  pose proof (wr_frame _ _ _ _ _ _ _ Hw) as F. assert (T : itab s' = <[dp := ip']> (itab s)) by by rewrite F.
  split; try done; try apply Hw.
  - eapply wrote_icache; [exact D3|exact D4|by left|exact D5|exact Hw].
  - apply (numbered_insert s s' dp ip ip'); try done; [by rewrite F|by rewrite Ei..].
  - rewrite T. apply list_lookup_insert_eq. by eapply lookup_lt_Some.
  - by rewrite Ei.
  - rewrite (wr_size _ _ _ _ _ _ _ Hw). destruct (Z.max_spec (i_size ip) (Z.of_nat (off + length bs))) as [[_ ->]|[_ ->]]; done.
  - rewrite (wr_size _ _ _ _ _ _ _ Hw). lia.
Qed.

Lemma dir_divides n s bl dp ip : dir_locked n s bl dp ip -> (16 | Z.of_nat (length (file_bytes (view s) ip))).
Proof.
  intros H. rewrite length_file_bytes by apply H. pose proof (fo_size _ _ (dl_file _ _ _ _ _ H)). rewrite Z2Nat.id by lia.
  apply Z.mod_divide; [done|apply H].
Qed.

(** The slot that the loop of [dirlink] finds. *)
Lemma dirlink_slot n s bl dp ip :
  dir_locked (S n) s bl dp ip ->
  exists e s', kfor (dir_offs (i_size ip)) (slot_body dp) tt s = Ok e s' /\ same_view pid s s' /\
    match e with inr off => off | inl _ => Z.of_nat (length (dir_offs (i_size ip))) * sizeof_dirent end = 16 * free_slot (file_bytes (view s) ip).
Proof.
  intros H. pose proof (dl_file _ _ _ _ _ H) as Hfo. pose proof (fo_size _ _ Hfo) as Hs. pose proof (dl_mod _ _ _ _ _ H) as Hmod.
  assert (Hr : can_read me pid s) by (destruct (dl_budget _ _ _ _ _ H) as [(R & Hm) _]; by eapply may_log_read).
  assert (El : Z.of_nat (length (file_bytes (view s) ip) / 16) = i_size ip / 16).
  { rewrite length_file_bytes, Nat2Z.inj_div, Z2Nat.id by (done || lia). done. }
  assert (En : (i_size ip + sizeof_dirent - 1) / sizeof_dirent = Z.of_nat (length (file_bytes (view s) ip) / 16)).
  { rewrite El. change sizeof_dirent with 16. Z.div_mod_to_equations. lia. }
  destruct (slot_loop dp ip (view s) (length (file_bytes (view s) ip) / 16) 0 s Hr (dl_entry _ _ _ _ _ H) ltac:(done) Hfo ltac:(lia)) as (s' & E & S).
  { rewrite El. Z.div_mod_to_equations. lia. }
  unfold dir_offs, upto. rewrite En. eexists _, s'. split; [exact E|]. split; [done|]. unfold free_slot. change sizeof_dirent with 16.
  destruct (find_free _ _ 0); cbn [default from_option id]; [lia|]. rewrite length_fmap, length_seqZ. lia.
Qed.

(** The write of the entry: all of it, or nothing because there is no block for it. *)
Lemma dirlink_write n s bl dp ip name inum :
  let d := file_bytes (view s) ip in let j := free_slot d in let e := put_dirent (mkDirent inum (strncpy_name name)) in
  dir_locked (S (S (S (S n)))) s bl dp ip -> i_size ip + 16 <= NDIRECT * BSIZE ->
  exists r s' ip' bl' bs, writei get_local dp e (16 * j) sizeof_dirent s = Ok r s' /\
    wrote s dp ip (Z.to_nat (16 * j)) bs s' ip' /\ budget me pid n s' bl' /\ (r = 16 /\ bs = e \/ r = 0 /\ bs = [] /\ full s).
Proof.
  intros d j e H Hsz. destruct (dir_locked_number _ _ _ _ _ H) as [Hn _]. destruct (free_slot_free d (dir_divides _ _ _ _ _ H)) as [Hj _]. fold j in Hj.
  pose proof (dl_file _ _ _ _ _ H) as Hfo. pose proof (fo_size _ _ Hfo) as Hs. unfold d in Hj. rewrite length_file_bytes in Hj by done.
  assert (Ht : turns (16 * j) 16 = 1%nat).
  { unfold turns. cbn [Z.leb Z.compare]. change BSIZE with 1024. assert ((16 * j) `mod` 1024 = 16 * (j `mod` 64)) as -> by (Z.div_mod_to_equations; lia). pose proof (Z.mod_pos_bound j 64 eq_refl).
    replace ((16 * (j `mod` 64) + 16 + 1024 - 1) / 1024) with 1; [done|]. Z.div_mod_to_equations. lia. }
  pose proof H as [D1 D2 D3 D4 D5 D6 D7 D8 D9 D10 D11]. change sizeof_dirent with 16. assert (Le : length e = Z.to_nat 16) by (unfold e; by rewrite length_put_dirent).
  destruct (writei_run me pid get_local _ n s bl dp ip (16 * j) 16 e e supplies_local) as (r & s' & ip' & bl' & E & Hr & Hst & Hw & Hbg); try done; try lia.
  { by rewrite Ht. }
  exists r, s', ip', bl', (take (Z.to_nat r) e). split_and!; try done. destruct (decide (r = 16)) as [->|Hne].
  - left. split; [done|]. apply take_ge. by rewrite Le.
  - right. destruct Hst as [|(_ & Hz & Hf)]; [done|]. assert (r = 0) as ->.
    { destruct Hz as [|Hz]; [done|]. change BSIZE with 1024 in Hz. Z.div_mod_to_equations. lia. }
    split_and!; [done|done|by apply Hf].
Qed.

Lemma dirlink_run n s bl dp ip name inum :
  let d := file_bytes (view s) ip in
  dir_locked (S (S (S (S n)))) s bl dp ip -> i_size ip + 16 <= NDIRECT * BSIZE -> lookup_name d name = None ->
  exists r s' ip' bl' bs, dirlink dp name inum s = Ok r s' /\
    wrote s dp ip (Z.to_nat (16 * free_slot d)) bs s' ip' /\ dir_locked n s' bl' dp ip' /\
    (r = 0 /\ bs = put_dirent (mkDirent inum (strncpy_name name)) \/ r = -1 /\ bs = [] /\ full s).
Proof.
  intros d H Hsz Hnone.
  assert (Hr : can_read me pid s) by (destruct (dl_budget _ _ _ _ _ H) as [(R & Hm) _]; by eapply may_log_read).
  pose proof (dirlookup_run me pid s dp ip name Hr (dl_entry _ _ _ _ _ H) (dl_type _ _ _ _ _ H) (dl_file _ _ _ _ _ H) (dl_mod _ _ _ _ _ H)) as L.
  fold d in L. rewrite Hnone in L. destruct L as (s1 & E1 & S1). pose proof (same_view_dir_locked _ _ _ _ _ _ S1 H) as H1.
  destruct (dirlink_slot _ _ _ _ _ H1) as (e & s2 & E2 & S2 & Eo). pose proof (same_view_dir_locked _ _ _ _ _ _ S2 H1) as H2.
  pose proof (same_view_trans _ _ _ _ S1 S2) as S.
  assert (Ed1 : file_bytes (view s1) ip = d) by (apply file_bytes_ext; apply S1). assert (Ed2 : file_bytes (view s2) ip = d) by (apply file_bytes_ext; apply S).
  rewrite Ed1 in Eo. pose proof (dirlink_write n s2 bl dp ip name inum H2 Hsz) as L2. cbv zeta in L2. rewrite Ed2 in L2.
  destruct L2 as (r & s' & ip' & bl' & bs & E3 & Hw & Hbg & Hres).
  destruct (free_slot_free d (dir_divides _ _ _ _ _ H)) as [Hj _].
  assert (Ld : length d = Z.to_nat (i_size ip)) by (apply length_file_bytes, H). rewrite Ld in Hj.
  pose proof (fo_size _ _ (dl_file _ _ _ _ _ H)) as Hs.
  exists (if negb (r =? sizeof_dirent) then -1 else 0), s', ip', bl', bs. split_and!.
  - unfold dirlink. kstep E1. kstep (geti_run s1 dp ip (dl_entry _ _ _ _ _ H1)). fold (slot_body dp). kstep E2. cbv zeta. rewrite Eo. by kstep E3.
  - apply (same_view_wrote s s2); [done|apply H|done].
  - assert (Lb : length bs = 16%nat \/ length bs = 0%nat) by (destruct Hres as [[_ ->]|(_ & -> & _)]; [left; apply length_put_dirent|by right]).
    apply (wrote_dir_locked _ n _ _ _ _ _ _ _ _ _ H2 Hw Hbg); [lia|]. destruct Lb as [-> | ->]; Z.div_mod_to_equations; lia.
  - destruct Hres as [[-> ->]|(-> & -> & Hf)]; [by left|right]. split_and!; [done|done|]. intros b Hb.
    rewrite <- (same_view_used _ _ _ b S). apply Hf. unfold fs_block in *. by rewrite (io_frame_sb _ _ (sv_frame _ _ _ S)).
Qed.

(** C18. [dirlink] of a name that the directory does not have, inside an operation, for a directory
    that stays within its directly addressed blocks: it
    returns 0, and then the name finds an entry with the given number, in the first slot
    that was free, and every other name finds what it found before; or it returns -1, and then
    every block of the disk was in use and the directory is as it was.  The other
    inodes and the blocks that are not the directory's do not change, nothing reaches the disk before the operation ends, and
    the directory is again locked and as its inode on disk says. *)
Theorem dirlink_spec n s bl dp ip name inum :
  let d := file_bytes (view s) ip in
  dir_locked (S (S (S (S n)))) s bl dp ip -> i_size ip + 16 <= NDIRECT * BSIZE -> lookup_name d name = None ->
  Forall (fun c => c <> 0) name -> 0 < inum < 65536 ->
  exists r s' ip' bl', let d' := file_bytes (view s') ip' in
    dirlink dp name inum s = Ok r s' /\ dir_locked n s' bl' dp ip' /\
    (r = 0 /\ lookup_name d' name = Some (free_slot d, mkDirent inum (strncpy_name name)) /\
       (forall name', namecmp name' (strncpy_name name) <> 0 -> lookup_name d' name' = lookup_name d name') \/
     r = -1 /\ full s /\ d' = d) /\
    (forall j, inode_number s j -> j <> i_inum ip -> dinode_on (view s') (sb s') j = dinode_on (view s) (sb s) j) /\
    (forall b, other_block s (i_inum ip) (to_dinode ip) b -> view s' b = view s b) /\
    disk s' = disk s /\ writes s' = writes s.
Proof.
  intros d H Hsz Hnone Hname Hinum. destruct (dirlink_run n s bl dp ip name inum H Hsz Hnone) as (r & s' & ip' & bl' & bs & E & Hw & H' & Hres).
  fold d in Hw. pose proof (wr_bytes _ _ _ _ _ _ _ Hw) as Hb. fold d in Hb.
  exists r, s', ip', bl'. cbv zeta. split_and!; [done|done| |apply Hw| |apply Hw|apply Hw].
  - rewrite Hb. destruct Hres as [[-> ->]|(-> & -> & Hf)].
    + left. split; [done|]. destruct (lookup_name_link d name inum name (dir_divides _ _ _ _ _ H) Hinum) as [L1 _]. split.
      * apply L1; [|done]. by apply namecmp_stored.
      * intros name'. by apply lookup_name_link; [eapply dir_divides|].
    + right. split_and!; [done|done|]. unfold overwrite. cbn. by rewrite Nat.add_0_r, take_drop.
  - intros b [Hp Ha Hi]. apply (wr_others _ _ _ _ _ _ _ Hw); [done| |done]. intros k Hk.
    rewrite (addr_of_same ip (inode_of (to_dinode ip))) by by rewrite to_dinode_inode_of. by apply Ha.
Qed.
End Dirlink.

(** ** The root directory of [Path.v]

    The directory is locked inside an operation that has changed nothing yet. *)

#[local] Existing Instance three_waits.

Definition root_dinode : dinode := mkDinode T_DIR 0 0 1 48 (47 :: replicate 12 0).

Definition root_locked : inode :=
  set_i_lock (my_lock 1) (set_i_valid 1 (load_dinode root_dinode (set_i_ref 1 (set_i_inum 1 (set_i_dev ROOTDEV zero_inode))))).

Definition quiet_machine : kernel := open_machine write_desc mapped_disk boot.

Definition dir_machine : kernel := set_itab (<[0%nat := root_locked]> (itab boot)) (set_lg (opened_lg (lg quiet_machine)) quiet_machine).

Lemma view_op t l s bn : view (set_itab t (set_lg l s)) bn = view s bn.
Proof. by destruct s. Qed.

Lemma dir_machine_view bn : view dir_machine bn = mapped_disk bn.
Proof. unfold dir_machine. rewrite view_op. apply write_view. Qed.

Lemma agree_op t l s : lg_start l = lg_start (lg s) -> agree s (set_itab t (set_lg l s)).
Proof. intros E. destruct s. by split. Qed.

Lemma dir_machine_agree : agree quiet_machine dir_machine.
Proof. apply agree_op. generalize (lg quiet_machine). by intros []. Qed.

Lemma dir_machine_inode i ip : itab dir_machine !! i = Some ip -> (i = 0%nat /\ ip = root_locked) \/ (i <> 0%nat /\ ip = zero_inode).
Proof.
  intros [(<- & <- & _)|[Hne Hi]]%list_lookup_insert_Some; [by left|]. right. split; [done|]. by apply lookup_replicate in Hi as [-> _].
Qed.

Lemma dir_machine_root : dinode_on (view dir_machine) (sb dir_machine) 1 = root_dinode.
Proof. rewrite (dinode_on_ext _ mapped_disk) by exact dir_machine_view. vm_compute. reflexivity. Qed.

Lemma dir_machine_icache : icache_ok 1 [0%nat] dir_machine.
Proof.
  split.
  - split; [done|..].
    + apply Forall_insert; [by apply Forall_replicate|done].
    + intros i j x y [[-> ->]|[_ ->]]%dir_machine_inode [[-> ->]|[_ ->]]%dir_machine_inode (H & _); done.
  - by intros i ip [[-> ->]|[_ ->]]%dir_machine_inode.
  - intros i ip [[-> ->]|[Hi ->]]%dir_machine_inode; [by rewrite decide_True by by left|].
    rewrite decide_False; [done|]. by intros ->%list_elem_of_singleton.
  - intros i ip [[-> ->]|[_ ->]]%dir_machine_inode; [|done]. intros _ _. split; [done|]. change (i_inum root_locked) with 1. by rewrite dir_machine_root.
  - intros i ip [[-> ->]|[Hi ->]]%dir_machine_inode; [done|]. by intros ->%list_elem_of_singleton.
Qed.

Lemma dir_machine_direct : direct_ok dir_machine root_locked.
Proof.
  apply (agree_direct quiet_machine); [exact dir_machine_agree|apply (write_inv boot)|].
  assert (Ha : forall k, (k < 12)%nat -> addr_of root_locked k <> 0 -> k = 0%nat).
  { intros k Hk. do 12 (destruct k as [|k]; [done|]). lia. }
  split; try done.
  - intros k Hk Hk0. rewrite (Ha k Hk Hk0). change (addr_of root_locked 0) with 47. split; [apply (write_plain boot); lia|].
    intros inum Hn. pose proof (write_iblock boot inum Hn). unfold quiet_machine. lia.
  - intros k k' Hk Hk' Hk0 E. rewrite (Ha k Hk Hk0). symmetry. apply Ha; [done|congruence].
Qed.

Lemma dir_machine_ready : dir_locked 0 1 20 dir_machine [] 0 root_locked.
Proof.
  split; try done.
  - apply budget_itab. apply (begin_write 0 1 2 quiet_machine 20 (write_idle boot)). lia.
  - apply (agree_inv quiet_machine); [exact dir_machine_agree|exact (write_inv boot)].
  - exact dir_machine_icache.
  - by intros j ip [[-> ->]|[_ ->]]%dir_machine_inode.
  - exact dir_machine_direct.
  - split; try done. repeat constructor; done.
  - apply (file_ok_ext mapped_disk); [intros bn; symmetry; apply dir_machine_view|].
    apply (file_ok_same _ (inode_of root_dinode)); [done|done|]. apply one_block_ok; [lia|done|vm_compute; reflexivity].
Qed.

Lemma dir_result : match dirlink 0 (str "b") 7 dir_machine with Ok r s' => r | _ => -2 end = 0.
Proof. vm_compute. reflexivity. Qed.

#[local] Opaque dir_machine.

Lemma dirlink_spec_witness :
  exists s' ip', dirlink 0 (str "b") 7 dir_machine = Ok 0 s' /\ itab s' !! 0%nat = Some ip' /\
    lookup_name (file_bytes (view s') ip') (str "b") = Some (3, mkDirent 7 (strncpy_name (str "b"))) /\
    lookup_name (file_bytes (view s') ip') (str "a") = Some (2, mkDirent 2 (strncpy_name (str "a"))).
Proof.
  assert (Ed : file_bytes (view dir_machine) root_locked = file_bytes mapped_disk root_locked) by (apply file_bytes_ext; exact dir_machine_view).
  destruct (dirlink_spec 0 1 16 dir_machine [] 0 root_locked (str "b") 7 dir_machine_ready ltac:(vm_compute; discriminate)
    ltac:(rewrite Ed; vm_compute; reflexivity) ltac:(repeat constructor; discriminate) ltac:(lia)) as (r & s' & ip' & bl' & E & Hl & Hres & _).
  pose proof dir_result as R. rewrite E in R. subst r. destruct Hres as [(_ & H1 & H2)|(Hr & _)]; [|lia].
  exists s', ip'. split; [exact E|]. split; [exact (dl_entry _ _ _ _ _ _ _ Hl)|]. rewrite H1, (H2 (str "a")) by (vm_compute; discriminate).
  rewrite Ed. split; vm_compute; reflexivity.
Defined.
