(* ===== verification/Mmap.v ===== *)
(** * Memory mappings ([kmmap], [kmunmap], [mmapfork], [mmapfreeproc] of
    [kernel/vm.c]) *)

From S2P Require Import Prelude Riscv Mem State Kalloc Vm Sched Bio Log Fs UserMem Pipe File.

#[local] Open Scope Z_scope.

Section Mmap.
Context `{L : Layout} `{W : Waits}.

(** [if(f) fileclose(f)] *)
Definition close_opt (f : option nat) : K unit :=
  match f with
  | Some i => fileclose i
  | None => mret tt
  end.

(** The file argument of [kmmap]: [None] is [return 0]. *)
Definition kmmap_file (me : nat) (prot flags fd offset : Z) : K (option (option nat)) :=
  if negb (Z.land flags MAP_ANONYMOUS =? 0) then
    mret (if negb (fd =? -1) || negb (offset =? 0) then None else Some None)
  else if (fd =? -1) || (fd <? 0) || (NOFILE <=? fd) then mret None
  else
    p ← getp me;
    let f := default None (p_ofile p !! Z.to_nat fd) in
    ok ← mmap_file_ok f prot;
    if negb ok then mret None
    else
      match f with
      | Some i => filedup i ;; mret (Some f)
      | None => mret None
      end.

Definition kmmap (addr length prot flags fd offset : Z) : K Z :=
  me ← curproc;
  if negb (addr `mod` PGSIZE =? 0) || (length <=? 0) || negb (length `mod` PGSIZE =? 0) then mret 0
  else if negb (mmap_valid_prot prot) then mret 0
  else if offset <? 0 then mret 0
  else
    let start := u64 (MMAPBASE + addr) in
    fo ← kmmap_file me prot flags fd offset;
    match fo with
    | None => mret 0
    | Some f =>
        let area := mkArea f start length offset prot flags (Some me) in
        r ← mmap_insert area;
        if r <? 0 then close_opt f ;; mret 0
        else if negb (Z.land flags MAP_POPULATE =? 0) then
          p ← getp me;
          x ← kfor (pages_between start (u64 (start + length))) (fun va _ =>
                r ← mmap_map_page area (p_pagetable p) va;
                mret (if r <? 0 then inr tt else inl tt)) tt;
          mret (match x with inr _ => 0 | inl _ => start end)
        else mret start
    end.

(** Removing the pages of an area. *)
Definition unmap_area (pagetable : Z) (area : mmap_area) : K unit :=
  uvmunmap pagetable (a_addr area) (u64 (a_length area / PGSIZE)) true ;;
  free_empty_mmap_pagetables pagetable (a_addr area) (u64 (a_length area)).

Definition kmunmap (addr : Z) : K Z :=
  me ← curproc;
  if negb (addr `mod` PGSIZE =? 0) then mret 0
  else
    a ← mmap_take_start me addr;
    match a with
    | None => mret (-1)
    | Some area =>
        p ← getp me;
        unmap_area (p_pagetable p) area ;;
        close_opt (a_f area) ;;
        mret 1
    end.

(** The loop of [mmapfreeproc]: there are at most [NMMAPAREA] areas. *)
Fixpoint mmapfree_loop (fuel : nat) (i : nat) : K unit :=
  a ← mmap_take_any i;
  match a with
  | None => mret tt
  | Some area =>
      match fuel with
      | O => stuck "mmapfreeproc: fuel"
      | S f =>
          p ← getp i;
          when (negb (p_pagetable p =? 0)) (unmap_area (p_pagetable p) area) ;;
          close_opt (a_f area) ;;
          mmapfree_loop f i
      end
  end.

Definition mmapfreeproc (i : nat) : K unit := mmapfree_loop (Z.to_nat NMMAPAREA) i.

(** The loop of [mmap_copy_pages]: [inr] is [return -1]. *)
Definition mmap_copy_page (oldpt newpt va : Z) : K (unit + unit) :=
  pte ← walk oldpt va false;
  if pte =? 0 then mret (inl tt)
  else
    v ← ld64 pte;
    if negb (has_flag v PTE_V) then mret (inl tt)
    else if Z.land v (Z.lor (Z.lor PTE_R PTE_W) PTE_X) =? 0 then mret (inl tt)
    else
      kaddref (PTE2PA v) ;;
      r ← mappages newpt va PGSIZE (PTE2PA v) (PTE_FLAGS v);
      if negb (r =? 0) then kfree (PTE2PA v) ;; mret (inr tt)
      else mret (inl tt).

Definition mmap_copy_pages (area : mmap_area) (oldpt newpt : Z) : K Z :=
  x ← kfor (pages_between (a_addr area) (u64 (a_addr area + u64 (a_length area))))
        (fun va _ => mmap_copy_page oldpt newpt va) tt;
  mret (match x with inr _ => -1 | inl _ => 0 end).

(** One iteration of [mmapfork]: [inr] is [return -1]. *)
Definition mmapfork_area (oldp newp index : nat) : K (unit + unit) :=
  a ← mmap_copy_index oldp index;
  match a with
  | None => mret (inl tt)
  | Some area =>
      let child := mkArea (a_f area) (a_addr area) (a_length area) (a_offset area)
                     (a_prot area) (a_flags area) (Some newp) in
      (match a_f child with Some f => filedup f ;; mret tt | None => mret tt end) ;;
      r ← mmap_insert child;
      if r <? 0 then
        close_opt (a_f child) ;;
        mmapfreeproc newp ;;
        mret (inr tt)
      else
        o ← getp oldp;
        n ← getp newp;
        c ← mmap_copy_pages area (p_pagetable o) (p_pagetable n);
        if c <? 0 then mmapfreeproc newp ;; mret (inr tt)
        else mret (inl tt)
  end.

Definition mmapfork (oldp newp : nat) : K Z :=
  x ← kfor all_areas (fun i _ => mmapfork_area oldp newp i) tt;
  mret (match x with inr _ => -1 | inl _ => 0 end).

End Mmap.
