(* ===== verification/Proc.v ===== *)
(** * Processes ([kernel/proc.c])

    The life of an entry of the process table: [allocproc], [kfork], [kexit],
    [kwait], [kwaitpid], [freeproc], and the calls that look at or change a
    process by its number. *)

From S2P Require Import Prelude Riscv Mem State Printf Kalloc Vm Sched Bio Log Fs UserMem Pipe Console File Mmap.

#[local] Open Scope Z_scope.

(** Offsets in [struct trapframe] ([kernel/proc.h]). *)
Definition TF_KSATP : Z := 0.
Definition TF_KSP : Z := 8.
Definition TF_KTRAP : Z := 16.
Definition TF_EPC : Z := 24.
Definition TF_HARTID : Z := 32.
Definition TF_SP : Z := 48.
Definition TF_A0 : Z := 112.
Definition TF_A1 : Z := 120.
Definition TF_A7 : Z := 168.
Definition sizeof_trapframe : Z := 288.

(** [safestrcpy(t, s, n)] on arrays of [n] bytes: the bytes after the NUL keep
    their old values. *)
Definition copy_name (n : nat) (t s : list Z) : list Z :=
  let x := take (n - 1) (cut_nul s) ++ [0] in
  x ++ drop (length x) t.

Section Proc.
Context `{L : Layout} `{W : Waits}.

Definition procinit : K unit :=
  kiter all_procs (fun i _ =>
    setp i (fun p => set_p_kstack (KSTACK i) (set_p_state UNUSED p))) tt.

Definition allocpid : K Z :=
  acquire L_pid ;;
  pid ← gets nextpid;
  modify (set_nextpid (i32 (pid + 1))) ;;
  release L_pid ;;
  mret pid.

(** ** Page table of a process *)

Definition proc_pagetable (i : nat) : K Z :=
  pagetable ← uvmcreate;
  if pagetable =? 0 then mret 0
  else
    r ← mappages pagetable TRAMPOLINE PGSIZE trampoline (Z.lor PTE_R PTE_X);
    if r <? 0 then uvmfree pagetable 0 ;; mret 0
    else
      p ← getp i;
      r ← mappages pagetable TRAPFRAME PGSIZE (p_trapframe p) (Z.lor PTE_R PTE_W);
      if r <? 0 then
        uvmunmap pagetable TRAMPOLINE 1 false ;;
        uvmfree pagetable 0 ;;
        mret 0
      else mret pagetable.

Definition proc_freepagetable (pagetable sz : Z) : K unit :=
  uvmunmap pagetable TRAMPOLINE 1 false ;;
  uvmunmap pagetable TRAPFRAME 1 false ;;
  uvmfree pagetable sz.

(** ** Allocation and release of an entry *)

(** The fields [freeproc] resets after it has released the memory. *)
Definition clear_proc (p : proc) : proc :=
  set_p_eligible 0 (set_p_remain_slice 0 (set_p_vdeadline 0 (set_p_vruntime 0
    (set_p_runtime 0 (set_p_weight 0 (set_p_state UNUSED (set_p_xstate 0 (set_p_killed 0
      (set_p_chan None (set_p_name (<[0%nat := 0]> (p_name p)) (set_p_parent None
        (set_p_nice 20 (set_p_pid 0 (set_p_sz 0 (set_p_pagetable 0 p))))))))))))))).

Definition freeproc (i : nat) : K unit :=
  p ← getp i;
  when (negb (p_trapframe p =? 0)) (kfree (p_trapframe p)) ;;
  setp i (set_p_trapframe 0) ;;
  mmapfreeproc i ;;
  q ← getp i;
  when (negb (p_pagetable q =? 0)) (proc_freepagetable (p_pagetable q) (p_sz q)) ;;
  setp i clear_proc.

(** The fields that [allocproc] sets before it allocates memory. *)
Definition init_proc (pid w d : Z) (p : proc) : proc :=
  set_p_vdeadline (u64 (0 + d)) (set_p_eligible 0 (set_p_remain_slice BASE_SLICE
    (set_p_vruntime 0 (set_p_runtime 0 (set_p_weight w (set_p_nice NICE_DEFAULT
      (set_p_state USED (set_p_pid pid p)))))))).

(** The part after [found]. *)
Definition allocproc_found (i : nat) : K (option nat) :=
  pid ← allocpid;
  w ← weight_of NICE_DEFAULT;
  d ← udiv (u64 (u64 (BASE_SLICE * MILLI_TICK) * NICE_20_WEIGHT)) (u64 w);
  setp i (init_proc pid w d) ;;
  tf ← kalloc;
  setp i (set_p_trapframe tf) ;;
  if tf =? 0 then
    freeproc i ;;
    release (L_proc i) ;;
    mret None
  else
    pt ← proc_pagetable i;
    setp i (set_p_pagetable pt) ;;
    if pt =? 0 then
      freeproc i ;;
      release (L_proc i) ;;
      mret None
    else
      setp i (fun p => set_p_context (mkContext forkret_pc (u64 (p_kstack p + PGSIZE)) (replicate 12 0)) p) ;;
      mret (Some i).

(** It returns with the lock of the process held. *)
Definition allocproc : K (option nat) :=
  r ← kfor all_procs (fun i _ =>
        acquire (L_proc i) ;;
        p ← getp i;
        if bool_decide (p_state p = UNUSED) then mret (inr i)
        else release (L_proc i) ;; mret (inl tt)) tt;
  match r with
  | inl _ => mret None
  | inr i => allocproc_found i
  end.

Definition userinit : K unit :=
  o ← allocproc;
  modify (set_initproc o) ;;
  match o with
  | None => stuck "userinit: no process"
  | Some i =>
      c ← namei (str "/");
      setp i (set_p_cwd c) ;;
      setp i (set_p_state RUNNABLE) ;;
      release (L_proc i)
  end.

Definition growproc (n : Z) : K Z :=
  i ← curproc;
  p ← getp i;
  let sz := p_sz p in
  if 0 <? n then
    if (u64 (sz + n) <? sz) || (MMAPBASE <? u64 (sz + n)) then mret (-1)
    else
      sz' ← uvmalloc (p_pagetable p) sz (u64 (sz + n)) PTE_W;
      if sz' =? 0 then mret (-1)
      else setp i (set_p_sz sz') ;; mret 0
  else if n <? 0 then
    sz' ← uvmdealloc (p_pagetable p) sz (u64 (sz + n));
    setp i (set_p_sz sz') ;; mret 0
  else setp i (set_p_sz sz) ;; mret 0.

(** ** [fork] *)

(** The loop over the open files. *)
Definition dup_files (p np : nat) : K unit :=
  kiter (seq 0 (Z.to_nat NOFILE)) (fun k _ =>
    q ← getp p;
    match default None (p_ofile q !! k) with
    | Some f =>
        f' ← filedup f;
        setp np (fun n => set_p_ofile (<[k := Some f']> (p_ofile n)) n)
    | None => mret tt
    end) tt.

Definition kfork_fail (np : nat) : K Z :=
  freeproc np ;;
  release (L_proc np) ;;
  mret (-1).

Definition kfork : K Z :=
  i ← curproc;
  o ← allocproc;
  match o with
  | None => mret (-1)
  | Some np =>
      p ← getp i;
      n0 ← getp np;
      r ← uvmcopy (p_pagetable p) (p_pagetable n0) (p_sz p);
      if r <? 0 then kfork_fail np
      else
        setp np (set_p_sz (p_sz p)) ;;
        m ← mmapfork i np;
        if m <? 0 then kfork_fail np
        else
          w ← weight_of (p_nice p);
          setp np (fun n => set_p_remain_slice BASE_SLICE (set_p_vruntime (p_vruntime p)
            (set_p_runtime 0 (set_p_weight w (set_p_nice (p_nice p) n))))) ;;
          eevdf_refresh_deadline (Some np) ;;
          kmemmove (p_trapframe n0) (p_trapframe p) sizeof_trapframe ;;
          st64 (p_trapframe n0 + TF_A0) 0 ;;
          dup_files i np ;;
          (match p_cwd p with
           | Some c => c' ← idup c; setp np (set_p_cwd (Some c'))
           | None => stuck "cwd is null"
           end) ;;
          setp np (fun n => set_p_name (copy_name 16 (p_name n) (p_name p)) n) ;;
          n ← getp np;
          let pid := p_pid n in
          release (L_proc np) ;;
          acquire L_wait ;;
          setp np (set_p_parent (Some i)) ;;
          release L_wait ;;
          acquire (L_proc np) ;;
          setp np (set_p_state RUNNABLE) ;;
          release (L_proc np) ;;
          mret pid
  end.

(** ** [exit] *)

Definition reparent (i : nat) : K unit :=
  kiter all_procs (fun k _ =>
    pp ← getp k;
    when (bool_decide (p_parent pp = Some i))
      (ip ← gets initproc;
       setp k (set_p_parent ip) ;;
       wakeup (C_proc <$> ip))) tt.

Definition close_files (i : nat) : K unit :=
  kiter (seq 0 (Z.to_nat NOFILE)) (fun k _ =>
    p ← getp i;
    match default None (p_ofile p !! k) with
    | Some f =>
        fileclose f ;;
        setp i (fun q => set_p_ofile (<[k := None]> (p_ofile q)) q)
    | None => mret tt
    end) tt.

(** The part of [kexit] before the process becomes a zombie. *)
Definition kexit_release (i : nat) : K unit :=
  mmapfreeproc i ;;
  close_files i ;;
  begin_op ;;
  p ← getp i;
  (match p_cwd p with Some c => iput c | None => stuck "cwd is null" end) ;;
  end_op ;;
  setp i (set_p_cwd None).

(** The part under [wait_lock]. *)
Definition kexit_zombie (i : nat) (status : Z) : K unit :=
  acquire L_wait ;;
  reparent i ;;
  p ← getp i;
  wakeup (C_proc <$> p_parent p) ;;
  acquire (L_proc i) ;;
  setp i (fun q => set_p_state ZOMBIE (set_p_xstate status q)) ;;
  release L_wait.

Definition kexit (status : Z) : K unit :=
  i ← curproc;
  ip ← gets initproc;
  if bool_decide (ip = Some i) then panic "init exiting"
  else
    kexit_release i ;;
    kexit_zombie i status ;;
    sched ;;
    panic "zombie exit".

(** ** [wait] *)

(** One child in the scan of [kwait]: [inr r] is [return r]. *)
Definition kwait_child (i : nat) (addr : Z) (k : nat) (havekids : bool) : K (bool + Z) :=
  pp ← getp k;
  if bool_decide (p_parent pp = Some i) then
    acquire (L_proc k) ;;
    q ← getp k;
    if bool_decide (p_state q = ZOMBIE) then
      let pid := p_pid q in
      r ← (if negb (addr =? 0) then
             p ← getp i;
             copyout (p_pagetable p) addr (put32 (u32 (p_xstate q)) 0 (replicate 4 0))
           else mret 0);
      if r <? 0 then
        release (L_proc k) ;;
        release L_wait ;;
        mret (inr (-1))
      else
        freeproc k ;;
        release (L_proc k) ;;
        release L_wait ;;
        mret (inr pid)
    else release (L_proc k) ;; mret (inl true)
  else mret (inl havekids).

(** The [for(;;)] of [kwait]; it goes round each time the process is woken. *)
Fixpoint kwait_loop (fuel : nat) (i : nat) (addr : Z) : K Z :=
  r ← kfor all_procs (kwait_child i addr) false;
  match r with
  | inr v => mret v
  | inl havekids =>
      k ← (if havekids : bool then killed i else mret 1);
      if negb (k =? 0) then
        release L_wait ;;
        mret (-1)
      else
        match fuel with
        | O => stuck "kwait: waits"
        | S f => sleep (C_proc i) L_wait ;; kwait_loop f i addr
        end
  end.

Definition kwait (addr : Z) : K Z :=
  i ← curproc;
  acquire L_wait ;;
  kwait_loop max_waits i addr.

(** The scan of [kwaitpid]: [inr (inr r)] is [return r], [inr (inl tt)] the
    [break] after the process was found. *)
Definition kwaitpid_scan (i : nat) (pid : Z) (k : nat) (_ : unit) : K (unit + (unit + Z)) :=
  acquire (L_proc k) ;;
  pp ← getp k;
  if negb (bool_decide (p_state pp = UNUSED)) && (p_pid pp =? pid) then
    if negb (bool_decide (p_parent pp = Some i)) then
      release (L_proc k) ;;
      release L_wait ;;
      mret (inr (inr (-1)))
    else if bool_decide (p_state pp = ZOMBIE) then
      freeproc k ;;
      release (L_proc k) ;;
      release L_wait ;;
      mret (inr (inr 0))
    else
      release (L_proc k) ;;
      mret (inr (inl tt))
  else release (L_proc k) ;; mret (inl tt).

Fixpoint kwaitpid_loop (fuel : nat) (i : nat) (pid : Z) : K Z :=
  r ← kfor all_procs (kwaitpid_scan i pid) tt;
  match r with
  | inr (inr v) => mret v
  | _ =>
      let found := match r with inr _ => true | inl _ => false end in
      k ← (if found : bool then killed i else mret 1);
      if negb (k =? 0) then
        release L_wait ;;
        mret (-1)
      else
        match fuel with
        | O => stuck "kwaitpid: waits"
        | S f => sleep (C_proc i) L_wait ;; kwaitpid_loop f i pid
        end
  end.

Definition kwaitpid (pid : Z) : K Z :=
  i ← curproc;
  acquire L_wait ;;
  kwaitpid_loop max_waits i pid.

(** ** Calls by process number *)

Definition kkill (pid : Z) : K Z :=
  r ← kfor all_procs (fun i _ =>
        acquire (L_proc i) ;;
        p ← getp i;
        if p_pid p =? pid then
          setp i (set_p_killed 1) ;;
          when (bool_decide (p_state p = SLEEPING))
            (setp i (fun q => set_p_eligible 0 (set_p_remain_slice BASE_SLICE q)) ;;
             eevdf_refresh_deadline (Some i) ;;
             setp i (set_p_state RUNNABLE)) ;;
          release (L_proc i) ;;
          mret (inr tt)
        else release (L_proc i) ;; mret (inl tt)) tt;
  mret (match r with inr _ => 0 | inl _ => -1 end).

Definition kgetnice (pid : Z) : K Z :=
  r ← kfor all_procs (fun i _ =>
        acquire (L_proc i) ;;
        p ← getp i;
        release (L_proc i) ;;
        mret (if negb (bool_decide (p_state p = UNUSED)) && (p_pid p =? pid)
              then inr (p_nice p) else inl tt)) tt;
  mret (match r with inr n => n | inl _ => -1 end).

Definition ksetnice (pid value : Z) : K Z :=
  if (value <? 0) || (39 <? value) then mret (-1)
  else
    r ← kfor all_procs (fun i _ =>
          acquire (L_proc i) ;;
          p ← getp i;
          if negb (bool_decide (p_state p = UNUSED)) && (p_pid p =? pid) then
            w ← weight_of value;
            setp i (fun q => set_p_weight w (set_p_nice value q)) ;;
            eevdf_refresh_deadline (Some i) ;;
            release (L_proc i) ;;
            mret (inr tt)
          else release (L_proc i) ;; mret (inl tt)) tt;
    mret (match r with inr _ => 0 | inl _ => -1 end).

(** ** [ps] *)

Definition pad (len width : Z) : K unit :=
  kiter (upto (width - len)) (fun _ _ => printf (str " ") []) tt.

Definition padded_print_str (x : list Z) (width : Z) : K unit :=
  printf (str "%s") [A_str (Some x)] ;;
  pad (length x) width.

(** The number of decimal digits the loops count: 0 for a negative number. *)
Fixpoint count_digits (fuel : nat) (n : Z) : Z :=
  match fuel with
  | O => 0
  | S f => if 0 <? n then 1 + count_digits f (n / 10) else 0
  end.

Definition digits_len (n : Z) : Z := if n =? 0 then 1 else count_digits 20 n.

Definition padded_print_int (n width : Z) : K unit :=
  printf (str "%d") [A_num n] ;;
  pad (digits_len n) width.

Definition padded_print_uint64 (n width : Z) : K unit :=
  printf (str "%ld") [A_num n] ;;
  pad (digits_len n) width.

Definition ps_state_name (st : procstate) : list Z :=
  match st with
  | UNUSED => str "unused"
  | USED => str "used"
  | SLEEPING => str "sleeping"
  | RUNNABLE => str "runnable"
  | RUNNING => str "running"
  | ZOMBIE => str "zombie"
  end.

(** The pre-scan: is there such a process? *)
Definition kps_found (pid : Z) : K bool :=
  if pid =? 0 then mret true
  else
    r ← kfor all_procs (fun i _ =>
          acquire (L_proc i) ;;
          p ← getp i;
          release (L_proc i) ;;
          mret (if negb (bool_decide (p_state p = UNUSED)) && (p_pid p =? pid) then inr tt else inl tt)) tt;
    mret (match r with inr _ => true | inl _ => false end).

Definition kps_row (st : eevdf_rq_stats) (pid : Z) (i : nat) : K unit :=
  acquire (L_proc i) ;;
  p ← getp i;
  release (L_proc i) ;;
  if bool_decide (p_state p = UNUSED) || (negb (pid =? 0) && negb (p_pid p =? pid)) then mret tt
  else
    let runtime_weight := if 0 <? p_weight p then p_runtime p / p_weight p else 0 in
    let eligible := on_rq p && (0 <? nr st) && (0 <? sum_weight st) && eevdf_is_eligible p st in
    padded_print_str (take 15 (cut_nul (p_name p))) 16 ;;
    padded_print_int (p_pid p) 8 ;;
    padded_print_str (ps_state_name (p_state p)) 12 ;;
    padded_print_int (p_nice p) 10 ;;
    padded_print_uint64 runtime_weight 16 ;;
    padded_print_uint64 (p_runtime p) 12 ;;
    padded_print_uint64 (p_vruntime p) 12 ;;
    padded_print_uint64 (p_vdeadline p) 12 ;;
    padded_print_str (str (if eligible then "true" else "false")) 12 ;;
    printf [10] [].

Definition kps (pid : Z) : K unit :=
  push_off ;;
  f ← kps_found pid;
  if negb f then pop_off
  else
    st ← eevdf_collect_rq_stats (mkStats 0 0 0 0);
    t ← gets ticks;
    padded_print_str (str "name") 16 ;;
    padded_print_str (str "pid") 8 ;;
    padded_print_str (str "state") 12 ;;
    padded_print_str (str "priority") 10 ;;
    padded_print_str (str "runtime/weight") 16 ;;
    padded_print_str (str "runtime") 12 ;;
    padded_print_str (str "vruntime") 12 ;;
    padded_print_str (str "vdeadline") 12 ;;
    padded_print_str (str "is_eligible") 12 ;;
    printf (str "tick %ld " ++ [10]) [A_num (u64 (t * MILLI_TICK))] ;;
    kiter all_procs (fun i _ => kps_row st pid i) tt ;;
    pop_off.

End Proc.
