(* ===== verification/Nice.v ===== *)
(** * Nice values

    [ksetnice] and [kgetnice] of [kernel/proc.c] on the process with a given
    number. *)

From S2P Require Import Prelude Riscv Mem State Sched Proc.

#[local] Open Scope Z_scope.

(** The entry that the calls look for. *)
Definition live_pid (pid : Z) (p : proc) : bool :=
  negb (bool_decide (p_state p = UNUSED)) && (p_pid p =? pid).

Definition proc_of s (pid : Z) : option (nat * proc) := list_find (live_pid pid) (procs s).

(** The entry after its nice value was set. *)
Definition reniced (v w : Z) (p : proc) : proc := refreshed (set_p_weight w (set_p_nice v p)).

(** A process table that no one has locked. *)
Definition quiet s : Prop := length (procs s) = Z.to_nat NPROC /\ held s = [].

Lemma weight_of_run v s :
  0 <= v <= 39 -> exists w, nice_to_weight !! Z.to_nat v = Some w /\ 0 < w < 2^31 /\ weight_of v s = Ok w s.
Proof.
  intros Hv. destruct (lookup_lt_is_Some_2 nice_to_weight (Z.to_nat v)) as [w Hw]; [cbn; lia|].
  exists w. split; [done|]. split.
  - assert (H : Forall (fun w => 0 < w < 2^31) nice_to_weight) by (repeat constructor; lia).
    rewrite Forall_lookup in H. by eapply H.
  - unfold weight_of. rewrite decide_True by lia. by rewrite Hw.
Qed.

Lemma quiet_lock s i : quiet s -> acquire (L_proc i) s = Ok tt (set_held [L_proc i] s).
Proof. intros [_ H]. rewrite acquire_ok by (rewrite H; apply not_elem_of_nil). by rewrite H. Qed.

Lemma quiet_unlock s i : quiet s -> release (L_proc i) (set_held [L_proc i] s) = Ok tt s.
Proof. intros [_ H]. rewrite (release_head _ []) by done. rewrite <- H. by destruct s. Qed.

Lemma kgetnice_run s pid :
  quiet s -> kgetnice pid s = Ok (match proc_of s pid with Some (_, p) => p_nice p | None => -1 end) s.
Proof.
  intros Hq. pose proof Hq as [Hl _].
  assert (Hb : forall i p, procs s !! i = Some p ->
    (acquire (L_proc i) ;; p ← getp i; release (L_proc i) ;;
     mret (if negb (bool_decide (p_state p = UNUSED)) && (p_pid p =? pid) then inr (p_nice p) else inl tt)) s
    = Ok (if live_pid pid p then inr (p_nice p) else inl tt) s).
  { intros i p Hp. kstep (quiet_lock s i Hq). kstep (getp_run (set_held [L_proc i] s) i p Hp).
    by kstep (quiet_unlock s i Hq). }
  unfold kgetnice, all_procs. rewrite <- Hl, bind_run, (kfor_first _ (live_pid pid)).
  - unfold proc_of. destruct (list_find _ _) as [[i p]|] eqn:E; [|done].
    apply list_find_Some in E as (Hp & Ht%Is_true_true & _). by rewrite (Hb i p Hp), Ht.
  - intros i p Hp E. by rewrite (Hb i p Hp), E.
  - intros i p Hp E. rewrite (Hb i p Hp), E. by eexists _, _.
Qed.

Lemma ksetnice_run s pid v :
  quiet s -> 0 <= v <= 39 ->
  match proc_of s pid with
  | Some (i, p) => exists w, nice_to_weight !! Z.to_nat v = Some w /\
      ksetnice pid v s = Ok 0 (set_procs (<[i := reniced v w p]> (procs s)) s)
  | None => ksetnice pid v s = Ok (-1) s
  end.
Proof.
  intros Hq Hv. pose proof Hq as [Hl Hh]. destruct (weight_of_run v s Hv) as (w & Hw & Hpos & _).
  unfold ksetnice. rewrite (proj2 (Z.ltb_ge v 0)), (proj2 (Z.ltb_ge 39 v)) by lia. cbn [orb].
  match goal with |- context [kfor all_procs ?b tt] => set (body := b) end.
  assert (Hb : forall i p, procs s !! i = Some p -> body i tt s =
    if live_pid pid p then Ok (inr tt) (set_procs (<[i := reniced v w p]> (procs s)) s) else Ok (inl tt) s).
  { intros i p Hp. unfold body. kstep (quiet_lock s i Hq). kstep (getp_run (set_held [L_proc i] s) i p Hp).
    fold (live_pid pid p). destruct (live_pid pid p); [|by kstep (quiet_unlock s i Hq)].
    destruct (weight_of_run v (set_held [L_proc i] s) Hv) as (w' & Hw' & _ & Hrun).
    rewrite Hw in Hw'. injection Hw' as <-. kstep Hrun.
    kstep (setp_run (set_held [L_proc i] s) i (fun q => set_p_weight w (set_p_nice v q)) p Hp).
    kstep (eevdf_refresh_ins (set_held [L_proc i] s) i (set_p_weight w (set_p_nice v p)) (procs s)
      (lookup_lt_Some _ _ _ Hp) Hpos).
    rewrite bind_run, (release_head _ []) by done. cbn [obind mret K_ret].
    f_equal. clear -Hh. by destruct s; cbn in *; subst. }
  assert (Hk : kfor all_procs body tt s = match proc_of s pid with
    | Some (i, p) => Ok (inr tt) (set_procs (<[i := reniced v w p]> (procs s)) s) | None => Ok (inl tt) s end).
  { unfold all_procs. rewrite <- Hl, (kfor_first _ (live_pid pid)).
    - unfold proc_of. destruct (list_find _ _) as [[i p]|] eqn:E; [|done].
      apply list_find_Some in E as (Hp & Ht%Is_true_true & _). by rewrite (Hb i p Hp), Ht.
    - intros i p Hp E. by rewrite (Hb i p Hp), E.
    - intros i p Hp E. rewrite (Hb i p Hp), E. by eexists _, _. }
  rewrite bind_run, Hk. destruct (proc_of s pid) as [[i p]|]; [|done]. by exists w.
Qed.

(** Setting a nice value does not change which entry has a number. *)
Lemma proc_of_reniced s pid i p v w :
  proc_of s pid = Some (i, p) ->
  proc_of (set_procs (<[i := reniced v w p]> (procs s)) s) pid = Some (i, reniced v w p).
Proof.
  unfold proc_of. cbn [procs set_procs]. rewrite !list_find_Some. intros (Hp & Ht & Hlow).
  split_and!; [apply list_lookup_insert_eq; by eapply lookup_lt_Some|done|].
  intros j q Hj Hlt. rewrite list_lookup_insert_ne in Hj by lia. by eapply Hlow.
Qed.

(** [ksetnice] accepts the values 0 to 39 and refuses any other without a
    change.  For a live process it sets the nice value, the weight of the table
    and the deadline for that weight, of that process only, and [kgetnice]
    then returns the value; without such a process both return -1. *)
Theorem nice_roundtrip s pid v :
  quiet s ->
  if bool_decide (0 <= v <= 39) then
    match proc_of s pid with
    | Some (i, p) => exists w s', nice_to_weight !! Z.to_nat v = Some w /\
        ksetnice pid v s = Ok 0 s' /\ s' = set_procs (<[i := reniced v w p]> (procs s)) s /\
        kgetnice pid s' = Ok v s'
    | None => ksetnice pid v s = Ok (-1) s /\ kgetnice pid s = Ok (-1) s
    end
  else ksetnice pid v s = Ok (-1) s.
Proof.
  intros Hq. case_bool_decide as Hv.
  - pose proof (ksetnice_run s pid v Hq Hv) as Hset.
    destruct (proc_of s pid) as [[i p]|] eqn:Hp.
    + destruct Hset as (w & Hw & Hrun). eexists w, _. split_and!; [done|exact Hrun|done|].
      rewrite kgetnice_run, (proc_of_reniced _ _ _ _ _ _ Hp); [done|].
      destruct Hq as [Hl Hh]. split; [|done]. cbn [procs set_procs]. by rewrite length_insert.
    + split; [done|]. by rewrite kgetnice_run, Hp.
  - unfold ksetnice. destruct (Z.ltb_spec v 0); [done|]. destruct (Z.ltb_spec 39 v); [done|]. lia.
Qed.

Definition two_procs : kernel :=
  set_procs (<[1%nat := set_p_state RUNNABLE (set_p_pid 2 zero_proc)]>
    (<[0%nat := set_p_state RUNNABLE (set_p_pid 1 zero_proc)]> (procs boot))) boot.

Lemma nice_roundtrip_witness :
  exists s', ksetnice 2 5 two_procs = Ok 0 s' /\ kgetnice 2 s' = Ok 5 s' /\ ksetnice 2 40 s' = Ok (-1) s'.
Proof.
  assert (Hq : quiet two_procs) by (split; reflexivity).
  pose proof (nice_roundtrip two_procs 2 5 Hq) as H. rewrite bool_decide_eq_true_2 in H by lia.
  change (proc_of two_procs 2) with (Some (1%nat, set_p_state RUNNABLE (set_p_pid 2 zero_proc))) in H.
  destruct H as (w & s' & _ & H1 & Es & H2). exists s'. split; [exact H1|]. split; [exact H2|].
  assert (Hq' : quiet s') by (rewrite Es; split; reflexivity).
  exact (nice_roundtrip s' 2 40 Hq').
Defined.
