(* ===== verification/Defects.v ===== *)
(** * Concrete runs that go wrong

    Small machines on which the code does something its authors can hardly
    mean.  Each is an evaluation of the model, so it holds of the modelled code
    and of nothing more general. *)

From S2P Require Import Prelude Riscv Mem State Kalloc Vm Uvm Sched Bio Log Fs UserMem Pipe File Mmap Proc.

#[local] Open Scope Z_scope.

#[local] Existing Instance small_layout.
#[local] Existing Instance small_layout_ok.
#[local] Instance two_waits : Waits := {| max_waits := 2 |}.

(** ** [kkill(0)] *)

(** [kkill(0)] finds an unused entry, whose number is 0, and marks it killed;
    [allocproc] does not reset the mark, so the next process is born killed. *)
Lemma kkill_zero_kills_newborn :
  result (procinit ;; r ← kkill 0; o ← allocproc;
          match o with
          | Some i => p ← getp i; mret (r, p_state p, p_pid p, p_killed p)
          | None => mret (r, UNUSED, 0, 0)
          end) booted = Some (0, USED, 1, 1).
Proof. vm_compute. reflexivity. Qed.

(** ** Mappings beyond the address space *)

(** A process with an empty table of user pages. *)
Definition mmap_proc : proc := set_p_state RUNNING (set_p_pid 1 (set_p_pagetable user_pt zero_proc)).
Definition mmap_machine : kernel :=
  set_cur (Some 0%nat) (set_procs (<[0%nat := mmap_proc]> (procs with_pt)) with_pt).

(** [kmmap] does not look at the end of the address space: populating a mapping
    at [MAXVA] stops the kernel. *)
Lemma kmmap_beyond_maxva_panics :
  kmmap (MAXVA - MMAPBASE) PGSIZE PROT_READ (Z.lor MAP_ANONYMOUS MAP_POPULATE) (-1) 0 mmap_machine
    = Panic "walk".
Proof. vm_compute. reflexivity. Qed.

(** Without [MAP_POPULATE] the mapping is accepted, and a later system call
    that reads from it stops the kernel. *)
Lemma kmmap_beyond_maxva_copyin_panics :
  (kmmap (MAXVA - MMAPBASE) PGSIZE PROT_READ MAP_ANONYMOUS (-1) 0 ;; copyin user_pt MAXVA 8) mmap_machine
    = Panic "walk".
Proof. vm_compute. reflexivity. Qed.

(** A mapping that could not be populated stays in the table although [kmmap]
    answers that it failed: here the second mapping covers the page of the
    first. *)
Lemma kmmap_failed_populate_stays :
  result (a ← kmmap 0 PGSIZE PROT_READ (Z.lor MAP_ANONYMOUS MAP_POPULATE) (-1) 0;
          b ← kmmap 0 PGSIZE PROT_READ (Z.lor MAP_ANONYMOUS MAP_POPULATE) (-1) 0;
          n ← gets (fun s => length (filter (fun a => a_p a = Some 0%nat) (mmaptable s)));
          mret (a, b, n)) mmap_machine = Some (MMAPBASE, 0, 2%nat).
Proof. vm_compute. reflexivity. Qed.

(** ** A page fault with a spin lock held *)

(** The process has mapped a page of a file that is not in memory yet, and has
    a pipe. *)
Definition mapped_file : file := mkFile FD_INODE 2 1 0 0 (Some 0%nat) 0 0.
Definition mapped_inode : inode :=
  mkInode ROOTDEV 5 1 (mkSleeplock 0 0) 0 0 0 0 0 0 (replicate 13 0).
Definition mapped_area : mmap_area := mkArea (Some 0%nat) MMAPBASE PGSIZE 0 PROT_READ 0 (Some 0%nat).

Definition pipe_fault_machine : kernel :=
  set_mmaptable (<[0%nat := mapped_area]> (mmaptable mmap_machine))
    (set_ftab (<[0%nat := mapped_file]> (ftab mmap_machine))
      (set_itab (<[0%nat := mapped_inode]> (itab mmap_machine))
        (set_pipes (fun _ => mkPipe (replicate 512 0) 0 0 1 1)
          (set_lru (seq 0 (Z.to_nat NBUF)) mmap_machine)))).

(** [pipewrite] copies from user memory with the lock of the pipe held.  When
    the page has to come from a file, the fault waits for the disk, and
    [sched] panics because of the lock. *)
Lemma pipewrite_file_fault_panics :
  pipewrite 4096 MMAPBASE 1 pipe_fault_machine = Panic "sched locks".
Proof. vm_compute. reflexivity. Qed.
