(* ===== verification/Exec.v ===== *)
(** * [exec] ([kernel/exec.c], [kernel/elf.h]) *)

From S2P Require Import Prelude Riscv Mem State Printf Kalloc Vm Sched Bio Log Fs UserMem Pipe Console File Mmap Proc.

#[local] Open Scope Z_scope.

(** ** The format *)

Definition ELF_MAGIC : Z := 0x464C457F.
Definition ELF_PROG_LOAD : Z := 1.
Definition sizeof_elfhdr : Z := 64.
Definition sizeof_proghdr : Z := 56.

(** The fields of [struct elfhdr] that are used. *)
Record elfhdr : Type := mkElf {
  e_magic : Z;
  e_entry : Z;
  e_phoff : Z;
  e_phnum : Z
}.

Definition get_elfhdr (d : list Z) : elfhdr :=
  mkElf (get32 d 0) (get_le 8 d 24) (get_le 8 d 32) (get_le 2 d 56).

(** [struct proghdr], without [paddr] and [align]. *)
Record proghdr : Type := mkPh {
  ph_type : Z;
  ph_flags : Z;
  ph_off : Z;
  ph_vaddr : Z;
  ph_filesz : Z;
  ph_memsz : Z
}.

Definition get_proghdr (d : list Z) : proghdr :=
  mkPh (get32 d 0) (get32 d 4) (get_le 8 d 8) (get_le 8 d 16) (get_le 8 d 32) (get_le 8 d 40).

Definition flags2perm (flags : Z) : Z :=
  let perm := if negb (Z.land flags 1 =? 0) then PTE_X else 0 in
  if negb (Z.land flags 2 =? 0) then Z.lor perm PTE_W else perm.

(** The part of a path after the last slash. *)
Fixpoint last_elem (path last : list Z) : list Z :=
  match path with
  | [] => last
  | c :: p => last_elem p (if c =? 47 then p else last)
  end.

(** The words of [ustack] as bytes. *)
Definition words (l : list Z) : list Z :=
  l ≫= (fun x => put_le 8 x 0 (replicate 8 0)).

Section Exec.
Context `{L : Layout} `{W : Waits}.

Definition loadseg (pagetable va : Z) (ip : nat) (offset sz : Z) : K Z :=
  x ← kfor (pages_between 0 sz) (fun i _ =>
        pa ← walkaddr pagetable (u64 (va + i));
        if pa =? 0 then panic "loadseg: address should exist"
        else
          let n := if sz - i <? PGSIZE then sz - i else PGSIZE in
          r ← readi put_kernel ip pa (u32 (offset + i)) n;
          mret (if negb (r.1 =? n) then inr tt else inl tt)) tt;
  mret (match x with inr _ => -1 | inl _ => 0 end).

(** [goto bad] *)
Definition kexec_bad (pagetable sz : Z) (ip : option nat) : K Z :=
  when (negb (pagetable =? 0)) (proc_freepagetable pagetable sz) ;;
  (match ip with
   | Some i => iunlockput i ;; end_op
   | None => mret tt
   end) ;;
  mret (-1).

(** One program header; the loop carries [sz] and [off], and [inr sz] is
    [goto bad]. *)
Definition load_segment (pagetable : Z) (ip : nat) (st : Z * Z) : K (Z * Z + Z) :=
  let '(sz, off) := st in
  r ← readi put_local ip [] (u32 off) sizeof_proghdr;
  if negb (r.1 =? sizeof_proghdr) then mret (inr sz)
  else
    let ph := get_proghdr r.2 in
    let next := i32 (off + sizeof_proghdr) in
    if negb (ph_type ph =? ELF_PROG_LOAD) then mret (inl (sz, next))
    else if ph_memsz ph <? ph_filesz ph then mret (inr sz)
    else if u64 (ph_vaddr ph + ph_memsz ph) <? ph_vaddr ph then mret (inr sz)
    else if negb (ph_vaddr ph `mod` PGSIZE =? 0) then mret (inr sz)
    else
      sz1 ← uvmalloc pagetable sz (u64 (ph_vaddr ph + ph_memsz ph)) (flags2perm (ph_flags ph));
      if sz1 =? 0 then mret (inr sz)
      else
        l ← loadseg pagetable (ph_vaddr ph) ip (u32 (ph_off ph)) (u32 (ph_filesz ph));
        if l <? 0 then mret (inr sz1) else mret (inl (sz1, next)).

(** One argument string; the loop carries [sp] and the words of [ustack]. *)
Definition push_arg (pagetable stackbase : Z) (arg : list Z) (st : Z * list Z) : K (Z * list Z + unit) :=
  let '(sp, ustack) := st in
  if MAXARG <=? length ustack then mret (inr tt)
  else
    let sp1 := u64 (sp - (length arg + 1)) in
    let sp2 := sp1 - sp1 `mod` 16 in
    if sp2 <? stackbase then mret (inr tt)
    else
      r ← copyout pagetable sp2 (arg ++ [0]);
      if r <? 0 then mret (inr tt)
      else mret (inl (sp2, ustack ++ [sp2])).

(** The user image is complete: switch to it. *)
Definition kexec_commit (i : nat) (path : list Z) (pagetable sz sp entry oldsz : Z) : K unit :=
  p ← getp i;
  st64 (p_trapframe p + TF_A1) sp ;;
  setp i (fun q => set_p_name (copy_name 16 (p_name q) (last_elem path path)) q) ;;
  let oldpagetable := p_pagetable p in
  mmapfreeproc i ;;
  setp i (fun q => set_p_sz sz (set_p_pagetable pagetable q)) ;;
  st64 (p_trapframe p + TF_EPC) entry ;;
  st64 (p_trapframe p + TF_SP) sp ;;
  proc_freepagetable oldpagetable oldsz.

(** The stack and the arguments, after the file is closed. *)
Definition kexec_stack (i : nat) (path : list Z) (argv : list (list Z)) (pagetable sz0 entry : Z) : K Z :=
  p ← getp i;
  let oldsz := p_sz p in
  let sz1 := PGROUNDUP sz0 in
  sz ← uvmalloc pagetable sz1 (u64 (sz1 + (USERSTACK + 1) * PGSIZE)) PTE_W;
  if sz =? 0 then kexec_bad pagetable sz1 None
  else
    uvmclear pagetable (u64 (sz - (USERSTACK + 1) * PGSIZE)) ;;
    let stackbase := sz - USERSTACK * PGSIZE in
    r ← kfor argv (push_arg pagetable stackbase) (sz, []);
    match r with
    | inr _ => kexec_bad pagetable sz None
    | inl (sp0, ustack) =>
        let argc := length ustack in
        if MAXARG <=? argc then stuck "ustack: index"
        else
          let sp1 := u64 (sp0 - (argc + 1) * 8) in
          let sp := sp1 - sp1 `mod` 16 in
          if sp <? stackbase then kexec_bad pagetable sz None
          else
            c ← copyout pagetable sp (words (ustack ++ [0]));
            if c <? 0 then kexec_bad pagetable sz None
            else
              kexec_commit i path pagetable sz sp entry oldsz ;;
              mret (Z.of_nat argc)
    end.

Definition kexec (path : list Z) (argv : list (list Z)) : K Z :=
  i ← curproc;
  begin_op ;;
  o ← namei path;
  match o with
  | None => end_op ;; mret (-1)
  | Some ip =>
      ilock (Some ip) ;;
      h ← readi put_local ip [] 0 sizeof_elfhdr;
      let elf := get_elfhdr h.2 in
      if negb (h.1 =? sizeof_elfhdr) then kexec_bad 0 0 (Some ip)
      else if negb (e_magic elf =? ELF_MAGIC) then kexec_bad 0 0 (Some ip)
      else
        pagetable ← proc_pagetable i;
        if pagetable =? 0 then kexec_bad 0 0 (Some ip)
        else
          r ← kfor (upto (e_phnum elf)) (fun _ st => load_segment pagetable ip st) (0, i32 (e_phoff elf));
          match r with
          | inr sz => kexec_bad pagetable sz (Some ip)
          | inl (sz, _) =>
              iunlockput ip ;;
              end_op ;;
              kexec_stack i path argv pagetable sz (e_entry elf)
          end
  end.

End Exec.
