(* ===== verification/Sysproc.v ===== *)
(** * System calls: arguments and processes ([kernel/syscall.c] lines 1-78,
    [kernel/sysproc.c])

    A handler returns the value for [a0]. *)

From S2P Require Import Prelude Riscv Mem State Printf Kalloc Vm Sched Bio Log Fs UserMem Pipe Console File Mmap Proc.

#[local] Open Scope Z_scope.

Definition SBRK_EAGER : Z := 1.
Definition SBRK_LAZY : Z := 2.

Section Sysproc.
Context `{L : Layout} `{W : Waits}.

(** ** Fetching arguments *)

(** [None] is the result -1. *)
Definition fetchaddr (addr : Z) : K (option Z) :=
  i ← curproc;
  p ← getp i;
  if (p_sz p <=? addr) || (p_sz p <? u64 (addr + 8)) then mret None
  else
    r ← copyin (p_pagetable p) addr 8;
    mret (if negb (r.1 =? 0) then None else Some (get_le 8 r.2 0)).

(** The string; its length is the result of the code, [None] is -1. *)
Definition fetchstr (addr max : Z) : K (option (list Z)) :=
  i ← curproc;
  p ← getp i;
  copyinstr (p_pagetable p) addr max.

Definition argraw (n : Z) : K Z :=
  i ← curproc;
  p ← getp i;
  if (0 <=? n) && (n <=? 5) then ld64 (p_trapframe p + TF_A0 + 8 * n)
  else panic "argraw".

Definition argint (n : Z) : K Z := x ← argraw n; mret (i32 x).
Definition argaddr (n : Z) : K Z := argraw n.
Definition argstr (n max : Z) : K (option (list Z)) := addr ← argaddr n; fetchstr addr max.

(** ** [sysproc.c] *)

Definition sys_exit : K Z := n ← argint 0; kexit n ;; mret 0.

Definition sys_getpid : K Z := i ← curproc; p ← getp i; mret (p_pid p).

Definition sys_fork : K Z := kfork.

Definition sys_wait : K Z := p ← argaddr 0; kwait p.

Definition sys_sbrk : K Z :=
  n ← argint 0;
  t ← argint 1;
  i ← curproc;
  p ← getp i;
  let addr := p_sz p in
  if (t =? SBRK_EAGER) || (n <? 0) then
    r ← growproc n;
    mret (if r <? 0 then -1 else addr)
  else if u64 (addr + n) <? addr then mret (-1)
  else if MMAPBASE <? u64 (addr + n) then mret (-1)
  else
    setp i (fun p => set_p_sz (u64 (p_sz p + n)) p) ;;
    mret addr.

(** The loop of [sys_pause]. *)
Fixpoint pause_loop (fuel : nat) (ticks0 n : Z) : K Z :=
  t ← gets ticks;
  if u32 (t - ticks0) <? n then
    me ← curproc;
    k ← killed me;
    if negb (k =? 0) then
      release L_ticks ;;
      mret (-1)
    else
      match fuel with
      | O => stuck "sys_pause: waits"
      | S f => sleep C_ticks L_ticks ;; pause_loop f ticks0 n
      end
  else
    release L_ticks ;;
    mret 0.

Definition sys_pause : K Z :=
  n0 ← argint 0;
  let n := if n0 <? 0 then 0 else n0 in
  acquire L_ticks ;;
  ticks0 ← gets ticks;
  pause_loop max_waits ticks0 n.

Definition sys_kill : K Z := pid ← argint 0; kkill pid.

Definition sys_uptime : K Z :=
  acquire L_ticks ;;
  x ← gets ticks;
  release L_ticks ;;
  mret x.

Definition sys_getnice : K Z := pid ← argint 0; kgetnice pid.

Definition sys_setnice : K Z := pid ← argint 0; value ← argint 1; ksetnice pid value.

Definition sys_ps : K Z := pid ← argint 0; kps pid ;; mret 0.

Definition sys_meminfo : K Z := freemem_bytes.

Definition sys_waitpid : K Z := pid ← argint 0; kwaitpid pid.

Definition sys_mmap : K Z :=
  addr ← argaddr 0;
  length ← argint 1;
  prot ← argint 2;
  flags ← argint 3;
  fd ← argint 4;
  offset ← argint 5;
  kmmap addr length prot flags fd offset.

Definition sys_munmap : K Z := addr ← argaddr 0; kmunmap addr.

Definition sys_freemem : K Z := freemem_pages.

End Sysproc.
