(* ===== verification/Sysfile.v ===== *)
(** * System calls on files ([kernel/sysfile.c]) *)

From S2P Require Import Prelude Riscv Mem State Printf Kalloc Vm Sched Bio Log Fs UserMem Pipe Console File Mmap Proc Exec Sysproc.

#[local] Open Scope Z_scope.

Section Sysfile.
Context `{L : Layout} `{W : Waits}.

(** ** Descriptors *)

(** The descriptor and the file; [None] is the result -1. *)
Definition argfd (n : Z) : K (option (Z * nat)) :=
  fd ← argint n;
  if (fd <? 0) || (NOFILE <=? fd) then mret None
  else
    i ← curproc;
    p ← getp i;
    mret ((fun f => (fd, f)) <$> default None (p_ofile p !! Z.to_nat fd)).

Definition fdalloc (f : nat) : K Z :=
  i ← curproc;
  r ← kfor (seq 0 (Z.to_nat NOFILE)) (fun fd _ =>
        p ← getp i;
        match default None (p_ofile p !! fd) with
        | None =>
            setp i (fun p => set_p_ofile (<[fd := Some f]> (p_ofile p)) p) ;;
            mret (inr (Z.of_nat fd))
        | Some _ => mret (inl tt)
        end) tt;
  mret (match r with inr fd => fd | inl _ => -1 end).

(** [p->ofile[fd] = 0] *)
Definition clear_fd (i : nat) (fd : Z) : K unit :=
  setp i (fun p => set_p_ofile (<[Z.to_nat fd := None]> (p_ofile p)) p).

Definition sys_dup : K Z :=
  o ← argfd 0;
  match o with
  | None => mret (-1)
  | Some (_, f) =>
      fd ← fdalloc f;
      if fd <? 0 then mret (-1)
      else filedup f ;; mret fd
  end.

Definition sys_read : K Z :=
  p ← argaddr 1;
  n ← argint 2;
  o ← argfd 0;
  match o with
  | None => mret (-1)
  | Some (_, f) => fileread f p n
  end.

Definition sys_write : K Z :=
  p ← argaddr 1;
  n ← argint 2;
  o ← argfd 0;
  match o with
  | None => mret (-1)
  | Some (_, f) => filewrite f p n
  end.

Definition sys_close : K Z :=
  o ← argfd 0;
  match o with
  | None => mret (-1)
  | Some (fd, f) =>
      i ← curproc;
      clear_fd i fd ;;
      fileclose f ;;
      mret 0
  end.

Definition sys_fstat : K Z :=
  st ← argaddr 1;
  o ← argfd 0;
  match o with
  | None => mret (-1)
  | Some (_, f) => filestat f st
  end.

(** ** Names *)

(** [end_op(); return -1] *)
Definition fail_op : K Z := end_op ;; mret (-1).

Definition set_nlink (i : nat) (d : Z) : K unit :=
  seti i (fun ip => set_i_nlink (i16 (i_nlink ip + d)) ip) ;;
  iupdate i.

Definition link_bad (ip : nat) : K Z :=
  ilock (Some ip) ;;
  set_nlink ip (-1) ;;
  iunlockput ip ;;
  fail_op.

Definition sys_link : K Z :=
  old ← argstr 0 MAXPATH;
  match old with
  | None => mret (-1)
  | Some old =>
  new ← argstr 1 MAXPATH;
  match new with
  | None => mret (-1)
  | Some new =>
  begin_op ;;
  o ← namei old;
  match o with
  | None => fail_op
  | Some ip =>
      ilock (Some ip) ;;
      x ← geti ip;
      if i_type x =? T_DIR then iunlockput ip ;; fail_op
      else
        set_nlink ip 1 ;;
        iunlock (Some ip) ;;
        d ← nameiparent new;
        match d with
        | None => link_bad ip
        | Some (dp, name) =>
            ilock (Some dp) ;;
            dx ← geti dp;
            ix ← geti ip;
            r ← (if negb (i_dev dx =? i_dev ix) then mret (-1) else dirlink dp name (i_inum ix));
            iunlockput dp ;;
            if r <? 0 then link_bad ip
            else
              iput ip ;;
              end_op ;;
              mret 0
        end
  end
  end
  end.

(** The entries after [.] and [..]. *)
Definition isdirempty (dp : nat) : K bool :=
  d ← geti dp;
  r ← kfor (drop 2 (dir_offs (i_size d))) (fun off _ =>
        de ← read_dirent dp off "isdirempty: readi";
        mret (if negb (de_inum de =? 0) then inr tt else inl tt)) tt;
  mret (match r with inr _ => false | inl _ => true end).

Definition unlink_bad (dp : nat) : K Z :=
  iunlockput dp ;;
  fail_op.

(** The part of [sys_unlink] with both inodes locked. *)
Definition unlink_entry (dp ip : nat) (off : Z) : K Z :=
  x ← geti ip;
  if i_nlink x <? 1 then panic "unlink: nlink < 1"
  else
    e ← (if i_type x =? T_DIR then isdirempty ip else mret true);
    if negb e then
      iunlockput ip ;;
      unlink_bad dp
    else
      n ← writei get_local dp (replicate (Z.to_nat sizeof_dirent) 0) off sizeof_dirent;
      if negb (n =? sizeof_dirent) then panic "unlink: writei"
      else
        when (i_type x =? T_DIR) (set_nlink dp (-1)) ;;
        iunlockput dp ;;
        set_nlink ip (-1) ;;
        iunlockput ip ;;
        end_op ;;
        mret 0.

Definition sys_unlink : K Z :=
  path ← argstr 0 MAXPATH;
  match path with
  | None => mret (-1)
  | Some path =>
      begin_op ;;
      d ← nameiparent path;
      match d with
      | None => fail_op
      | Some (dp, name) =>
          ilock (Some dp) ;;
          if (namecmp name (str ".") =? 0) || (namecmp name (str "..") =? 0) then unlink_bad dp
          else
            r ← dirlookup dp name;
            match r with
            | None => unlink_bad dp
            | Some (ip, off) =>
                ilock (Some ip) ;;
                unlink_entry dp ip off
            end
      end
  end.

(** [goto fail] of [create] *)
Definition create_fail (dp ip : nat) : K (option nat) :=
  seti ip (set_i_nlink 0) ;;
  iupdate ip ;;
  iunlockput ip ;;
  iunlockput dp ;;
  mret None.

(** The part of [create] after the new inode is allocated and locked. *)
Definition create_new (dp ip : nat) (name : list Z) (type major minor : Z) : K (option nat) :=
  seti ip (fun x => set_i_nlink 1 (set_i_minor minor (set_i_major major x))) ;;
  iupdate ip ;;
  x ← geti ip;
  d ← geti dp;
  r ← (if type =? T_DIR then
         r1 ← dirlink ip (str ".") (i_inum x);
         if r1 <? 0 then mret (-1) else dirlink ip (str "..") (i_inum d)
       else mret 0);
  if r <? 0 then create_fail dp ip
  else
    r2 ← dirlink dp name (i_inum x);
    if r2 <? 0 then create_fail dp ip
    else
      when (type =? T_DIR) (set_nlink dp 1) ;;
      iunlockput dp ;;
      mret (Some ip).

(** The result is locked. *)
Definition create (path : list Z) (type major minor : Z) : K (option nat) :=
  o ← nameiparent path;
  match o with
  | None => mret None
  | Some (dp, name) =>
      ilock (Some dp) ;;
      r ← dirlookup dp name;
      match r with
      | Some (ip, _) =>
          iunlockput dp ;;
          ilock (Some ip) ;;
          x ← geti ip;
          if (type =? T_FILE) && ((i_type x =? T_FILE) || (i_type x =? T_DEVICE)) then mret (Some ip)
          else iunlockput ip ;; mret None
      | None =>
          d ← geti dp;
          a ← ialloc (i_dev d) type;
          match a with
          | None => iunlockput dp ;; mret None
          | Some ip =>
              ilock (Some ip) ;;
              create_new dp ip name type major minor
          end
      end
  end.

(** The part of [sys_open] that finds the inode; [None] is [return -1]. *)
Definition open_inode (path : list Z) (omode : Z) : K (option nat) :=
  if negb (Z.land omode O_CREATE =? 0) then
    o ← create path T_FILE 0 0;
    match o with
    | None => end_op ;; mret None
    | Some ip => mret (Some ip)
    end
  else
    o ← namei path;
    match o with
    | None => end_op ;; mret None
    | Some ip =>
        ilock (Some ip) ;;
        x ← geti ip;
        if (i_type x =? T_DIR) && negb (omode =? O_RDONLY) then
          iunlockput ip ;;
          end_op ;;
          mret None
        else mret (Some ip)
    end.

(** The part with the inode locked. *)
Definition open_file (ip : nat) (omode : Z) : K Z :=
  x ← geti ip;
  if (i_type x =? T_DEVICE) && ((i_major x <? 0) || (NDEV <=? i_major x)) then
    iunlockput ip ;;
    fail_op
  else
    o ← filealloc;
    fd ← (match o with Some f => fdalloc f | None => mret (-1) end);
    match o with
    | Some f =>
        if fd <? 0 then
          fileclose f ;;
          iunlockput ip ;;
          fail_op
        else
          (if i_type x =? T_DEVICE then
             setf f (fun y => set_f_major (i_major x) (set_f_type FD_DEVICE y))
           else setf f (fun y => set_f_off 0 (set_f_type FD_INODE y))) ;;
          setf f (fun y =>
            set_f_writable (b2z (negb (Z.land omode O_WRONLY =? 0) || negb (Z.land omode O_RDWR =? 0)))
              (set_f_readable (b2z (Z.land omode O_WRONLY =? 0)) (set_f_ip (Some ip) y))) ;;
          when (negb (Z.land omode O_TRUNC =? 0) && (i_type x =? T_FILE)) (itrunc ip) ;;
          iunlock (Some ip) ;;
          end_op ;;
          mret fd
    | None =>
        iunlockput ip ;;
        fail_op
    end.

Definition sys_open : K Z :=
  omode ← argint 1;
  path ← argstr 0 MAXPATH;
  match path with
  | None => mret (-1)
  | Some path =>
      begin_op ;;
      o ← open_inode path omode;
      match o with
      | None => mret (-1)
      | Some ip => open_file ip omode
      end
  end.

(** The common end of [sys_mkdir] and [sys_mknod]. *)
Definition create_and_put (path : option (list Z)) (type major minor : Z) : K Z :=
  match path with
  | None => fail_op
  | Some path =>
      o ← create path type major minor;
      match o with
      | None => fail_op
      | Some ip =>
          iunlockput ip ;;
          end_op ;;
          mret 0
      end
  end.

Definition sys_mkdir : K Z :=
  begin_op ;;
  path ← argstr 0 MAXPATH;
  create_and_put path T_DIR 0 0.

Definition sys_mknod : K Z :=
  begin_op ;;
  major ← argint 1;
  minor ← argint 2;
  path ← argstr 0 MAXPATH;
  create_and_put path T_DEVICE (i16 major) (i16 minor).

Definition sys_chdir : K Z :=
  i ← curproc;
  begin_op ;;
  path ← argstr 0 MAXPATH;
  match path with
  | None => fail_op
  | Some path =>
      o ← namei path;
      match o with
      | None => fail_op
      | Some ip =>
          ilock (Some ip) ;;
          x ← geti ip;
          if negb (i_type x =? T_DIR) then iunlockput ip ;; fail_op
          else
            iunlock (Some ip) ;;
            p ← getp i;
            (match p_cwd p with Some c => iput c | None => stuck "cwd is null" end) ;;
            end_op ;;
            setp i (set_p_cwd (Some ip)) ;;
            mret 0
      end
  end.

(** ** [sys_exec] *)

(** The loop that fetches the arguments: the pages and strings so far, and
    whether it ended at a null pointer. *)
Fixpoint fetch_args (fuel : nat) (uargv : Z) (acc : list (Z * list Z)) : K (bool * list (Z * list Z)) :=
  match fuel with
  | O => mret (false, acc)
  | S f =>
      a ← fetchaddr (u64 (uargv + 8 * length acc));
      match a with
      | None => mret (false, acc)
      | Some uarg =>
          if uarg =? 0 then mret (true, acc)
          else
            page ← kalloc;
            if page =? 0 then mret (false, acc)
            else
              x ← fetchstr uarg PGSIZE;
              match x with
              | None => mret (false, acc ++ [(page, [])])
              | Some arg =>
                  modify (fun s => set_mem (mem_write (mem s) page (arg ++ [0])) s) ;;
                  fetch_args f uargv (acc ++ [(page, arg)])
              end
      end
  end.

Definition sys_exec : K Z :=
  uargv ← argaddr 1;
  path ← argstr 0 MAXPATH;
  match path with
  | None => mret (-1)
  | Some path =>
      r ← fetch_args (Z.to_nat MAXARG) uargv [];
      ret ← (if r.1 : bool then kexec path (snd <$> r.2) else mret (-1));
      kiter r.2 (fun a _ => kfree a.1) tt ;;
      mret ret
  end.

(** ** [sys_pipe] *)

Definition sys_pipe : K Z :=
  i ← curproc;
  fdarray ← argaddr 0;
  o ← pipealloc;
  match o with
  | None => mret (-1)
  | Some (rf, wf) =>
      fd0 ← fdalloc rf;
      fd1 ← (if fd0 <? 0 then mret (-1) else fdalloc wf);
      if (fd0 <? 0) || (fd1 <? 0) then
        when (0 <=? fd0) (clear_fd i fd0) ;;
        fileclose rf ;;
        fileclose wf ;;
        mret (-1)
      else
        p ← getp i;
        r0 ← copyout (p_pagetable p) fdarray (put32 fd0 0 (replicate 4 0));
        r1 ← (if r0 <? 0 then mret (-1)
              else copyout (p_pagetable p) (u64 (fdarray + 4)) (put32 fd1 0 (replicate 4 0)));
        if r1 <? 0 then
          clear_fd i fd0 ;;
          clear_fd i fd1 ;;
          fileclose rf ;;
          fileclose wf ;;
          mret (-1)
        else mret 0
  end.

End Sysfile.
