(* ===== verification/Open.v ===== *)
(** * Opening files

    [sys_open] for reading: the path is looked up inside an operation of the log that
    writes nothing, and the process gets a descriptor for the inode that the
    directories on disk name. *)

From S2P Require Import Prelude Riscv Mem State Printf Kalloc Vm Uvm Sched Bio Log Crash Fs FsData Balloc Inode Readi Ilock Path UserMem Copy Pipe Console File Mmap Proc Exec Sysproc Sysfile.

#[local] Open Scope Z_scope.

(** The end of a walk is in use. *)
Lemma walk_end_used v b names : forall inum name n e,
  walk_ok v b inum names -> walk v b false inum names name = Some (n, e) ->
  d_type (dinode_on v b n) <> 0 /\ d_nlink (dinode_on v b n) <> 0.
Proof.
  induction names as [|x ns IH]; intros inum name n e (H1 & H2 & H3); cbn [walk].
  - by intros [= <- <-].
  - destruct (Z.eqb_spec (d_type (dinode_on v b inum)) T_DIR) as [E|]; [|done]. cbn [negb andb].
    destruct (H3 E) as [_ H4]. destruct (lookup_name _ x) as [[k en]|]; [|done]. intros Hw. by eapply IH, Hw; eapply H4.
Qed.

Section Open.
Context `{L : Layout} `{W : Waits} (me : nat) (pid : Z).
Implicit Types s : kernel.

(** ** Operations that write nothing *)

(** There is room in the log for another operation, and no operation is ending. *)
Record may_begin s : Prop := {
  mb_committing : lg_committing (lg s) = 0;
  mb_outstanding : 0 <= lg_outstanding (lg s);
  mb_room : lg_n (lg s) + (lg_outstanding (lg s) + 1) * MAXOPBLOCKS <= LOGBLOCKS;
  mb_empty : lg_outstanding (lg s) = 0 -> lg_n (lg s) = 0
}.

Definition in_op (l : loginfo) : loginfo := set_lg_outstanding (lg_outstanding l + 1) l.

Lemma begin_op_read s : fs_ctx me pid s -> may_begin s -> begin_op s = Ok tt (set_lg (in_op (lg s)) s).
Proof. intros Hf [Hc _ Hr _]. by apply (begin_op_run me pid). Qed.

(** [end_op] gives the log back as it was at the [begin_op]. *)
Lemma end_op_read s l :
  fs_ctx me pid s -> may_begin (set_lg l s) -> lg s = in_op l -> end_op s = Ok tt (set_lg l s).
Proof.
  intros Hf [Hc Ho Hr He] Hl. cbn [lg set_lg] in *. destruct (decide (lg_outstanding l = 0)) as [E|E].
  - rewrite (end_op_run me pid s (set_lg (set_busy 0 1 (lg s)) s)); try done.
    + rewrite Hl. destruct l; cbn in *; subst. by destruct s.
    + by rewrite Hl.
    + rewrite Hl. cbn. lia.
    + unfold commit, getlg. rewrite bind_run. cbn [gets obind lg set_lg]. rewrite Hl. destruct l. cbn in *. by rewrite He.
    + by apply fs_ctx_lg.
  - pose proof (fx_held _ _ _ Hf) as Hhd. unfold end_op.
    kstep (acquire_ok L_log s ltac:(rewrite Hhd; apply not_elem_of_nil)). rewrite Hhd, bind_run. cbn [setlg modify obind].
    unfold getlg. rewrite bind_run. cbn [gets obind lg set_lg set_held].
    assert (Hl' : set_lg_outstanding (lg_outstanding (lg s) - 1) (lg s) = l).
    { rewrite Hl. assert (lg_outstanding (in_op l) - 1 = lg_outstanding l) as -> by (change (lg_outstanding l + 1 - 1 = lg_outstanding l); lia).
      by destruct l. }
    rewrite Hl', Hc. cbn [negb Z.eqb]. rewrite (proj2 (Z.eqb_neq _ _) E).
    change (set_lg l (set_held [L_log] s)) with (set_held [L_log] (set_lg l s)).
    kstep (wakeup_quiet me pid (set_lg l s) C_log (fs_ctx_lg me pid l s Hf) eq_refl [L_log] ltac:(by intros i ?%list_elem_of_singleton)).
    rewrite bind_run, (release_head _ []) by done. cbn [obind when]. clear -Hhd. by destruct s; cbn in *; subst.
Qed.

(** ** Free entries of the tables *)

Definition free_file (t : list file) : option (nat * file) := list_find (fun x => f_ref x = 0) t.
Definition free_fd (o : list (option nat)) : option (nat * option nat) := list_find (fun x => x = None) o.

Lemma getf_run s f x : ftab s !! f = Some x -> getf f s = Ok x s.
Proof. intros H. unfold getf. by rewrite H. Qed.

Lemma setf_run s f g x : ftab s !! f = Some x -> setf f g s = Ok tt (set_ftab (<[f := g x]> (ftab s)) s).
Proof. intros H. unfold setf. by rewrite H. Qed.

Lemma filealloc_run s :
  fs_ctx me pid s -> length (ftab s) = Z.to_nat NFILE ->
  filealloc s = match free_file (ftab s) with
                | Some (f, x) => Ok (Some f) (set_ftab (<[f := set_f_ref 1 x]> (ftab s)) s)
                | None => Ok None s
                end.
Proof.
  intros Hf Hl. pose proof (fx_held _ _ _ Hf) as Hhd. unfold filealloc.
  kstep (acquire_ok L_ftable s ltac:(rewrite Hhd; apply not_elem_of_nil)). rewrite Hhd. set (s1 := set_held _ s).
  rewrite <- Hl, bind_run, (kfor_first _ (fun x => f_ref x =? 0)).
  - unfold free_file. rewrite (list_find_ext (fun x => f_ref x =? 0) (fun x => f_ref x = 0))
      by (intros x; rewrite Is_true_true; apply Z.eqb_eq).
    destruct (list_find _ (ftab s)) as [[f x]|] eqn:E.
    + apply list_find_Some in E as (Hx & Hr & _). unfold getf. rewrite !bind_run. cbn [ftab s1 set_held]. rewrite Hx. cbn [obind].
      rewrite (proj2 (Z.eqb_eq _ _) Hr). unfold setf. rewrite !bind_run. cbn [ftab s1 set_held]. rewrite Hx. cbn [obind mret K_ret].
      rewrite bind_run, (release_head _ []) by done. cbn [obind]. clear -Hhd. by destruct s; cbn in *; subst.
    + cbn [obind]. rewrite bind_run, (release_head _ []) by done. cbn [obind]. clear -Hhd. by destruct s; cbn in *; subst.
  - intros i x Hx E. unfold getf. rewrite bind_run. cbn [ftab s1 set_held]. rewrite Hx. cbn [obind]. by rewrite E.
  - intros i x Hx E. unfold getf, setf. rewrite bind_run. cbn [ftab s1 set_held]. rewrite Hx. cbn [obind]. rewrite E, bind_run.
    cbn [ftab s1 set_held]. rewrite Hx. by eexists _, _.
Qed.

Lemma fdalloc_run s p f :
  cur s = Some me -> procs s !! me = Some p -> length (p_ofile p) = Z.to_nat NOFILE ->
  fdalloc f s = match free_fd (p_ofile p) with
                | Some (fd, _) => Ok (Z.of_nat fd) (set_procs (<[me := set_p_ofile (<[fd := Some f]> (p_ofile p)) p]> (procs s)) s)
                | None => Ok (-1) s
                end.
Proof.
  intros Hc Hp Hl. unfold fdalloc. kstep (curproc_run s me Hc).
  rewrite <- Hl, bind_run, (kfor_first _ (fun x => bool_decide (x = None))).
  - unfold free_fd. rewrite (list_find_ext (fun x => bool_decide (x = None)) (fun x => x = None))
      by (intros x; apply bool_decide_spec).
    destruct (list_find _ (p_ofile p)) as [[fd o]|] eqn:E; [|done].
    apply list_find_Some in E as (Hx & -> & _). rewrite bind_run, (getp_run s me p Hp). cbn [obind]. rewrite Hx. cbn [default from_option id].
    by kstep (setp_run s me (fun p => set_p_ofile (<[fd := Some f]> (p_ofile p)) p) p Hp).
  - intros i x Hx E. kstep (getp_run s me p Hp). rewrite Hx. by destruct x.
  - intros i x Hx E. rewrite bind_run, (getp_run s me p Hp). cbn [obind]. rewrite Hx. destruct x; [done|]. cbn [default from_option id].
    kstep (setp_run s me (fun p => set_p_ofile (<[i := Some f]> (p_ofile p)) p) p Hp). by eexists _, _.
Qed.

(** ** Frames *)

(** The blocks are as before, and so is everything but the tables of inodes, of files
    and of processes. *)
Definition same_but_files s s' : Prop :=
  same_view pid (set_procs (procs s') (set_itab (itab s') (set_ftab (ftab s') s))) s'.

(** The state at the end of an operation that began with the log [lg s]. *)
Definition ended s P F T s2 : kernel := set_lg (lg s) (set_procs P (set_ftab F (set_itab T s2))).

Lemma ended_frame s s2 l P F T :
  same_but_itab pid (set_lg l s) s2 -> same_but_files s (ended s P F T s2).
Proof.
  intros [E C V R D Wr]. unfold ended. split.
  - unfold io_frame in *. rewrite E. by destruct s.
  - destruct C as [Cl Cr Cu Cd Cf Ck Cm Cc]. by split.
  - intros bn. exact (V bn).
  - intros bn. exact (R bn).
  - exact D.
  - exact Wr.
Qed.

Lemma can_read_lg l s : can_read me pid s -> can_read me pid (set_lg l s).
Proof. intros [Hf Hc Hr Hs]. split; [by apply fs_ctx_lg|by apply bcache_ok_lg|done|done]. Qed.

Lemma can_read_ofile o p s :
  can_read me pid s -> procs s !! me = Some p -> can_read me pid (set_procs (<[me := set_p_ofile o p]> (procs s)) s).
Proof.
  intros [[Hc (q & Hq & Hpid) Hh Ht Hw Hqu] Hk Hr Hs] Hp. split; [|by destruct Hk as [Cl Cr Cu Cd Cf Ck Cm Cc]; split|done|done].
  assert (q = p) as -> by congruence. split; try done.
  - exists (set_p_ofile o p). split; [|done]. apply list_lookup_insert_eq. by eapply lookup_lt_Some.
  - unfold table_ok in *. cbn. by rewrite length_insert.
  - intros j x [(<- & <- & _)|[_ Hj]]%list_lookup_insert_Some Hst; [by apply (Hw me p)|by apply (Hw j x)].
  - intros j x c [(<- & <- & _)|[_ Hj]]%list_lookup_insert_Some Hst Hch; [by apply (Hqu me p)|by apply (Hqu j x)].
Qed.

Lemma icache_files H s P F l : icache_ok pid H s -> icache_ok pid H (set_lg l (set_procs P (set_ftab F s))).
Proof. intros [H1 H2 H3 H4 H5]. by split. Qed.

Lemma same_but_files_read s s' o p :
  same_but_files s s' -> can_read me pid s -> procs s !! me = Some p -> procs s' = <[me := set_p_ofile o p]> (procs s) -> can_read me pid s'.
Proof.
  intros [F C V R D Wr] Hr Hp Hp'. rewrite Hp' in *. destruct (can_read_ofile o p s Hr Hp) as [Hf _ _ _].
  destruct Hr as [_ _ (X & HX & HR) Hs]. split; [|done| |].
  - eapply io_frame_ctx; [exact F|]. destruct Hf as [H1 H2 H3 H4 H5 H6]. by split.
  - exists X. split; [done|]. intros bn. rewrite R. exact (HR bn).
  - intros bn. rewrite R. exact (Hs bn).
Qed.

(** ** Finding the inode *)

Lemma namei_run s path parent r s' : namex path parent s = Ok r s' -> parent = false -> namei path s = Ok (fst <$> r) s'.
Proof. intros E ->. unfold namei. by kstep E. Qed.

(** [s1] is [s] inside the operation. *)
Lemma open_inode_run s path inum :
  let s1 := set_lg (in_op (lg s)) s in
  can_read me pid s -> icache_ok pid [] s -> iroom (irefs (itab s)) 2 -> may_begin s ->
  starts_at me s path inum -> walk_ok (view s) (sb s) inum (path_elements path) ->
  match walk (view s) (sb s) false inum (path_elements path) [] with
  | None => exists s2, open_inode path O_RDONLY s1 = Ok None (set_lg (lg s) s2) /\ same_but_itab pid s1 s2 /\
      icache_ok pid [] s2 /\ forall k, irefs (itab s2) k = irefs (itab s) k
  | Some (n, _) => exists i ip s2, open_inode path O_RDONLY s1 = Ok (Some i) s2 /\ same_but_itab pid s1 s2 /\
      icache_ok pid [i] s2 /\ itab s2 !! i = Some ip /\ i_inum ip = n /\ to_dinode ip = dinode_on (view s) (sb s) n /\
      forall k, irefs (itab s2) k = irefs (itab s) k + one n k
  end.
Proof.
  intros s1 Hr Hic Hroom Hb Hst Hok. pose proof (can_read_lg (in_op (lg s)) s Hr) as Hr1. fold s1 in Hr1.
  assert (Hic1 : icache_ok pid [] s1) by (destruct Hic; by split).
  destruct (namex_run me pid s1 path false inum Hr1 Hic1 Hroom Hst Hok) as (s2 & S2 & Hic2 & H).
  pose proof (same_but_itab_read me pid _ _ S2 Hr1) as Hr2.
  change (view s1) with (view s) in H. change (sb s1) with (sb s) in H. change (itab s1) with (itab s) in H.
  unfold open_inode. change (Z.land O_RDONLY O_CREATE =? 0) with true. cbn [negb].
  destruct (walk _ _ _ _ _ _) as [[n name]|] eqn:Ew.
  - destruct H as (i & ip & E & Hi & He & R). pose proof He as (He1 & He2 & He3).
    destruct (walk_end_used _ _ _ _ _ _ _ Hok Ew) as [Ht _].
    assert (Hd : dinode_on (view s2) (sb s2) n = dinode_on (view s) (sb s) n).
    { rewrite (same_but_itab_sb _ _ _ S2). apply dinode_on_ext. intros bn. apply (same_but_itab_view _ _ _ _ S2). }
    destruct (ilock_run me pid [] s2 i ip Hr2 Hic2 (not_elem_of_nil i) Hi He1) as (ip' & s3 & E3 & S3 & T3 & [L1 L2 L3 L4 L5 L6] & Hic3).
    { by rewrite He3, Hd. }
    assert (Hi3 : itab s3 !! i = Some ip') by (rewrite T3; apply list_lookup_insert_eq; by eapply lookup_lt_Some).
    exists i, ip', s3. split_and!; try done; [|by eapply same_but_itab_trans|congruence|by rewrite L6, He3, Hd|].
    + kstep (namei_run _ _ _ _ _ E eq_refl). cbn [fst fmap option_fmap option_map]. kstep E3. kstep (geti_run s3 i ip' Hi3).
      by rewrite andb_false_r.
    + intros k. rewrite T3, (irefs_insert _ _ ip) by done. rewrite !(entry_refs_for n) by (split_and!; lia || congruence).
      rewrite L3, R. lia.
  - destruct H as [E R]. exists s2. split_and!; try done. kstep (namei_run _ _ _ _ _ E eq_refl). cbn [fmap option_fmap option_map].
    rewrite bind_run, (end_op_read s2 (lg s)); [done|apply Hr2|by destruct Hb|]. pose proof (sv_frame _ _ _ S2) as F2. by rewrite F2.
Qed.

(** ** The descriptor *)

Definition bad_device (d : dinode) : bool :=
  (d_type d =? T_DEVICE) && ((d_major d <? 0) || (NDEV <=? d_major d)).

(** What [sys_open] makes of a free entry of the file table. *)
Definition opened (d : dinode) (i : nat) (x : file) : file :=
  if d_type d =? T_DEVICE then mkFile FD_DEVICE 1 1 0 (f_pipe x) (Some i) (f_off x) (d_major d)
  else mkFile FD_INODE 1 1 0 (f_pipe x) (Some i) 0 (f_major x).

(** The inode is locked, inside an operation that began with the log [l]. *)
Record opening s (i : nat) (ip : inode) (n : Z) (l : loginfo) : Prop := {
  og_read : can_read me pid s;
  og_cache : icache_ok pid [i] s;
  og_entry : itab s !! i = Some ip;
  og_inum : i_inum ip = n;
  og_data : to_dinode ip = dinode_on (view s) (sb s) n;
  og_nlink : d_nlink (dinode_on (view s) (sb s) n) <> 0;
  og_log : lg s = in_op l;
  og_begin : may_begin (set_lg l s)
}.

(** A failure gives the reference back. *)
Lemma open_fail s i ip n l :
  opening s i ip n l ->
  exists T, (iunlockput i ;; fail_op) s = Ok (-1) (set_lg l (set_itab T s)) /\
    icache_ok pid [] (set_itab T s) /\ forall k, irefs T k = irefs (itab s) k - one n k.
Proof.
  intros [Hr Hic Hi Hn Hd Hnl Hl Hb].
  destruct (iunlockput_drop me pid s i ip n Hr Hic Hi Hn Hnl) as (s' & E & S & Hic' & T & R).
  assert (s' = set_itab (itab s') s) as Es by by rewrite T; destruct s.
  exists (itab s'). rewrite <- Es. split_and!; [|done|done].
  kstep E. unfold fail_op. rewrite bind_run, (end_op_read s' l).
  - by rewrite Es.
  - rewrite Es. by apply set_itab_ctx, Hr.
  - rewrite Es. by destruct Hb.
  - by rewrite Es.
Qed.

(** [fileclose] of an entry that was only allocated. *)
Lemma fileclose_fresh s f x :
  fs_ctx me pid s -> (f < length (ftab s))%nat -> f_ref x = 0 -> f_type x = FD_NONE ->
  fileclose f (set_ftab (<[f := set_f_ref 1 x]> (ftab s)) s) = Ok tt (set_ftab (<[f := x]> (ftab s)) s).
Proof.
  intros Hf Hlt Hr Ht. pose proof (fx_held _ _ _ Hf) as Hhd. set (s1 := set_ftab _ s).
  unfold fileclose. kstep (acquire_ok L_ftable s1 ltac:(cbn; rewrite Hhd; apply not_elem_of_nil)).
  assert (Hx : forall y (t : list file), length t = length (ftab s) -> <[f := y]> t !! f = Some y)
    by (intros y t Ht'; apply list_lookup_insert_eq; by rewrite Ht').
  set (s2 := set_held _ s1). kstep (getf_run s2 f (set_f_ref 1 x) (Hx _ _ eq_refl)). change (f_ref (set_f_ref 1 x) <? 1) with false. cbv iota.
  kstep (setf_run s2 f (set_f_ref (1 - 1)) (set_f_ref 1 x) (Hx _ _ eq_refl)). change (0 <? _) with false. cbv iota.
  set (s3 := set_ftab _ s2). assert (Hx3 : ftab s3 !! f = Some (set_f_ref (1 - 1) (set_f_ref 1 x))) by (apply Hx, length_insert).
  kstep (getf_run s3 f _ Hx3). kstep (setf_run s3 f (fun y => set_f_type FD_NONE (set_f_ref 0 y)) _ Hx3).
  rewrite bind_run, (release_head _ []) by (cbn; by rewrite Hhd). cbn [obind f_type set_f_ref]. rewrite Ht. unfold mret, K_ret. f_equal.
  cbn [s3 s2 s1 ftab set_ftab set_held]. rewrite !list_insert_insert_eq.
  assert (set_f_type FD_NONE (set_f_ref 0 (set_f_ref (1 - 1) (set_f_ref 1 x))) = x) as -> by (destruct x; cbn in *; by subst).
  clear -Hhd. by destruct s; cbn in *; subst.
Qed.

(** The last steps with a descriptor. *)
Lemma open_unlock s i ip n l P F :
  opening s i ip n l -> (let s5 := set_procs P (set_ftab F s) in can_read me pid s5) ->
  exists T, (iunlock (Some i) ;; end_op) (set_procs P (set_ftab F s)) = Ok tt (set_lg l (set_procs P (set_ftab F (set_itab T s)))) /\
    icache_ok pid [] (set_itab T s) /\ (exists ip', T !! i = Some ip' /\ entry_for ROOTDEV n ip') /\
    forall k, irefs T k = irefs (itab s) k.
Proof.
  intros [Hr Hic Hi Hn Hd Hnl Hl Hb] Hr5. cbv zeta in Hr5. set (s5 := set_procs P _) in *.
  assert (Hic5 : icache_ok pid [i] s5) by (destruct Hic; by split).
  destruct (iunlock_run me pid [] s5 i ip Hr5 Hic5 (not_elem_of_nil i) Hi) as (E & S & Hic6). set (s6 := set_itab _ s5) in *.
  destruct (ic_held _ _ _ Hic i ip Hi ltac:(by left)) as [Hp _]. pose proof (ic_dev _ _ _ Hic i ip Hi Hp).
  exists (<[i := set_i_lock free_lock ip]> (itab s)). split_and!.
  - kstep E. rewrite (end_op_read s6 l); [done|by apply set_itab_ctx, Hr5|by destruct Hb|done].
  - destruct Hic6; by split.
  - eexists. split; [apply list_lookup_insert_eq; by eapply lookup_lt_Some|]. by split.
  - intros k. rewrite (irefs_insert _ _ ip) by done. rewrite !(entry_refs_for n) by by split. cbn. lia.
Qed.

(** The entries of the file table that are not in use. *)
Definition files_ok s : Prop :=
  length (ftab s) = Z.to_nat NFILE /\ forall f x, ftab s !! f = Some x -> f_ref x = 0 -> f_type x = FD_NONE.

Lemma open_file_run s i ip n l p :
  opening s i ip n l -> procs s !! me = Some p -> length (p_ofile p) = Z.to_nat NOFILE -> files_ok s ->
  let d := dinode_on (view s) (sb s) n in
  exists T, icache_ok pid [] (set_itab T s) /\
    match (if bad_device d then None else free_file (ftab s)), free_fd (p_ofile p) with
    | Some (f, x), Some (fd, _) =>
        open_file i O_RDONLY s = Ok (Z.of_nat fd)
          (set_lg l (set_procs (<[me := set_p_ofile (<[fd := Some f]> (p_ofile p)) p]> (procs s))
            (set_ftab (<[f := opened d i x]> (ftab s)) (set_itab T s)))) /\
        (exists ip', T !! i = Some ip' /\ entry_for ROOTDEV n ip') /\ forall k, irefs T k = irefs (itab s) k
    | _, _ => open_file i O_RDONLY s = Ok (-1) (set_lg l (set_itab T s)) /\ forall k, irefs T k = irefs (itab s) k - one n k
    end.
Proof.
  intros Hog Hp Hlen [Hlf Hcl] d. pose proof Hog as [Hr Hic Hi Hn Hd Hnl Hl Hb].
  destruct (open_fail s i ip n l Hog) as (T & E & Hict & R). unfold open_file. rewrite bind_run, (geti_run s i ip Hi). cbn [obind].
  assert (i_type ip = d_type d) as -> by (unfold d; by rewrite <- Hd). assert (i_major ip = d_major d) as -> by (unfold d; by rewrite <- Hd).
  fold (bad_device d). destruct (bad_device d); [by exists T|].
  rewrite bind_run, (filealloc_run s (rd_ctx _ _ _ Hr) Hlf). destruct (free_file (ftab s)) as [[f x]|] eqn:Ef; [|exists T; by split].
  cbn [obind]. apply list_find_Some in Ef as (Hx & Hx0 & _). pose proof (Hcl f x Hx Hx0) as Hxt.
  set (s1 := set_ftab _ s). rewrite bind_run, (fdalloc_run s1 p f); [|apply Hr|done|done].
  destruct (free_fd (p_ofile p)) as [[fd o]|]; cbn [obind].
  2:{ exists T. split_and!; [done| |done]. change (-1 <? 0) with true. cbv iota.
      rewrite bind_run. unfold s1. rewrite (fileclose_fresh s f x (rd_ctx _ _ _ Hr) (lookup_lt_Some _ _ _ Hx) Hx0 Hxt). cbn [obind].
      rewrite list_insert_id by done. by destruct s. }
  rewrite (proj2 (Z.ltb_ge _ _)) by lia. change (procs s1) with (procs s). set (P := <[me := _]> (procs s)). set (s2 := set_procs P s1).
  assert (Hlt : (f < length (ftab s))%nat) by by eapply lookup_lt_Some.
  set (y := if d_type d =? T_DEVICE then set_f_major (d_major d) (set_f_type FD_DEVICE (set_f_ref 1 x))
    else set_f_off 0 (set_f_type FD_INODE (set_f_ref 1 x))).
  assert (E3 : (if d_type d =? T_DEVICE then setf f (fun y => set_f_major (d_major d) (set_f_type FD_DEVICE y))
    else setf f (fun y => set_f_off 0 (set_f_type FD_INODE y))) s2 = Ok tt (set_procs P (set_ftab (<[f := y]> (ftab s)) s))).
  { assert (Hx2 : ftab s2 !! f = Some (set_f_ref 1 x)) by by apply list_lookup_insert_eq.
    unfold y. destruct (d_type d =? T_DEVICE); rewrite (setf_run s2 f _ _ Hx2); cbn [ftab s2 s1 set_procs set_ftab];
      rewrite list_insert_insert_eq; by destruct s. }
  kstep E3. set (s3 := set_procs P _). assert (Hx3 : ftab s3 !! f = Some y) by by apply list_lookup_insert_eq.
  kstep (setf_run s3 f (fun y => set_f_writable 0 (set_f_readable 1 (set_f_ip (Some i) y))) y Hx3).
  change (negb (Z.land O_RDONLY O_TRUNC =? 0)) with false. cbn [andb when].
  destruct (open_unlock s i ip n l P (<[f := opened d i x]> (ftab s)) Hog) as (T' & E' & Hic' & He' & R').
  { apply (can_read_ofile _ p (set_ftab (<[f := opened d i x]> (ftab s)) s)); [|done]. apply (others_read me pid s); [|done]. unfold others. by destruct s. }
  exists T'. split; [done|]. split; [|done]. rewrite bind_run. cbn [mret K_ret obind].
  assert (set_ftab _ s3 = set_procs P (set_ftab (<[f := opened d i x]> (ftab s)) s)) as ->.
  { cbn [ftab s3 set_procs set_ftab]. rewrite list_insert_insert_eq.
    assert (set_f_writable 0 (set_f_readable 1 (set_f_ip (Some i) y)) = opened d i x) as ->; [|by destruct s].
    unfold opened, y. by destruct (d_type d =? T_DEVICE), x. }
  rewrite bind_run in E'. rewrite bind_run. destruct (iunlock _ _) as [[] s8| | |]; [|done..]. cbn [obind] in *. by kstep E'.
Qed.

(** ** [sys_open] *)

(** What the call needs: the arguments, and tables of the kernel that are in order. *)
Record may_open s (path : list Z) (p : proc) : Prop := {
  mo_read : can_read me pid s;
  mo_cache : icache_ok pid [] s;
  mo_room : iroom (irefs (itab s)) 2;
  mo_begin : may_begin s;
  mo_mode : argint 1 s = Ok O_RDONLY s;
  mo_path : argstr 0 MAXPATH s = Ok (Some path) s;
  mo_proc : procs s !! me = Some p;
  mo_ofile : length (p_ofile p) = Z.to_nat NOFILE;
  mo_files : files_ok s
}.

Definition open_result s (p : proc) (w : option (Z * list Z)) s' (o : outcome Z) : Prop :=
  match w with
  | Some (n, _) =>
      let d := dinode_on (view s) (sb s) n in
      match (if bad_device d then None else free_file (ftab s)), free_fd (p_ofile p) with
      | Some (f, x), Some (fd, _) => exists i ip, o = Ok (Z.of_nat fd) s' /\
          procs s' = <[me := set_p_ofile (<[fd := Some f]> (p_ofile p)) p]> (procs s) /\
          ftab s' = <[f := opened d i x]> (ftab s) /\
          itab s' !! i = Some ip /\ entry_for ROOTDEV n ip /\ forall k, irefs (itab s') k = irefs (itab s) k + one n k
      | _, _ => o = Ok (-1) s' /\ procs s' = procs s /\ ftab s' = ftab s /\ forall k, irefs (itab s') k = irefs (itab s) k
      end
  | None => o = Ok (-1) s' /\ procs s' = procs s /\ ftab s' = ftab s /\ forall k, irefs (itab s') k = irefs (itab s) k
  end.

Lemma sys_open_run s path inum p :
  may_open s path p -> starts_at me s path inum -> walk_ok (view s) (sb s) inum (path_elements path) ->
  exists s', same_but_files s s' /\ icache_ok pid [] s' /\ lg s' = lg s /\
    open_result s p (walk (view s) (sb s) false inum (path_elements path) []) s' (sys_open s).
Proof.
  intros [Hr Hic Hroom Hb Hmode Hpath Hp Hof Hfi] Hst Hok. unfold sys_open. kstep Hmode. kstep Hpath.
  kstep (begin_op_read s (rd_ctx _ _ _ Hr) Hb). pose proof (open_inode_run s path inum Hr Hic Hroom Hb Hst Hok) as H.
  cbv zeta in H. set (s1 := set_lg _ s) in *. unfold open_result.
  destruct (walk _ _ _ _ _ _) as [[n name]|] eqn:Ew.
  - destruct H as (i & ip & s2 & E2 & S2 & Hic2 & Hi & Hn & Hd & R). kstep E2.
    pose proof (sv_frame _ _ _ S2) as F2. destruct (walk_end_used _ _ _ _ _ _ _ Hok Ew) as [_ Hnl].
    assert (Ed : dinode_on (view s2) (sb s2) n = dinode_on (view s) (sb s) n).
    { rewrite (same_but_itab_sb _ _ _ S2). apply dinode_on_ext. intros bn. apply (same_but_itab_view _ _ _ _ S2). }
    assert (Tp : procs s2 = procs s) by by rewrite F2. assert (Tf : ftab s2 = ftab s) by by rewrite F2.
    destruct (open_file_run s2 i ip n (lg s) p) as (T & HicT & H).
    { split; try done; [by apply (same_but_itab_read me pid s1), can_read_lg|by rewrite Ed|by rewrite Ed|by rewrite F2|by destruct Hb]. }
    { by rewrite Tp. }
    { done. }
    { destruct Hfi. split; by rewrite Tf. }
    rewrite Ed, Tf, Tp in H.
    assert (Hend : forall P F, let s' := ended s P F T s2 in same_but_files s s' /\ icache_ok pid [] s' /\ lg s' = lg s).
    { intros P F. split_and!; [by eapply ended_frame|by apply icache_files|done]. }
    assert (Hsame : set_lg (lg s) (set_itab T s2) = ended s (procs s) (ftab s) T s2) by (unfold ended; rewrite <- Tp, <- Tf; by destruct s2).
    destruct (if bad_device _ then None else free_file (ftab s)) as [[f x]|]; [destruct (free_fd (p_ofile p)) as [[fd o]|]|].
    + destruct H as (E & (ip' & Hi' & He') & R'). eexists (ended s _ _ T s2). split_and!; try apply Hend. exists i, ip'.
      split_and!; [exact E|done|done|done|done|..]. intros k. cbn [ended itab set_lg set_procs set_ftab set_itab]. by rewrite R', R.
    + destruct H as [E R']. rewrite Hsame in E. eexists (ended s _ _ T s2). split_and!; try apply Hend; [exact E|done|done|].
      intros k. cbn [ended itab set_lg set_procs set_ftab set_itab]. rewrite R', R. lia.
    + destruct H as [E R']. rewrite Hsame in E. eexists (ended s _ _ T s2). split_and!; try apply Hend; [exact E|done|done|].
      intros k. cbn [ended itab set_lg set_procs set_ftab set_itab]. rewrite R', R. lia.
  - destruct H as (s2 & E2 & S2 & Hic2 & R). kstep E2. pose proof (sv_frame _ _ _ S2) as F2.
    assert (Hsame : set_lg (lg s) s2 = ended s (procs s) (ftab s) (itab s2) s2).
    { assert (Tp : procs s2 = procs s) by by rewrite F2. assert (Tf : ftab s2 = ftab s) by by rewrite F2.
      unfold ended. rewrite <- Tp, <- Tf. by destruct s2. }
    rewrite Hsame. eexists. split_and!; [by eapply ended_frame| |done..].
    apply icache_files. by replace (set_itab (itab s2) s2) with s2 by by destruct s2.
Qed.

(** C16. [sys_open] for reading: the path names the inode that the walk over the
    directories on disk finds.  If the inode is there, is no device with a number out
    of range, and there is a free entry in the file table and a free descriptor, the
    result is the first free descriptor; it stands for the first free file, which is
    opened at offset 0 for reading on an entry of the inode table that has one
    reference more.  In all other cases the result is -1 and no descriptor, file or
    reference is left behind.  The operation writes nothing: the log, every block and
    the rest of the kernel are as before. *)
Theorem sys_open_spec s path inum p :
  may_open s path p -> starts_at me s path inum -> walk_ok (view s) (sb s) inum (path_elements path) ->
  exists s', same_but_files s s' /\ icache_ok pid [] s' /\ lg s' = lg s /\
    open_result s p (walk (view s) (sb s) false inum (path_elements path) []) s' (sys_open s).
Proof. exact (sys_open_run s path inum p). Qed.
End Open.

(** ** A process that makes the call

    Its page has the path [/a] at address 200, and behind it the words 200 and 0, which
    are the first two argument registers of its trap frame. *)

#[local] Existing Instance small_layout.
#[local] Existing Instance small_layout_ok.
#[local] Existing Instance three_waits.

Definition call_bytes (path : list Z) : list Z := path ++ replicate (8 - length path) 0 ++ put_le 8 200 0 (replicate 8 0) ++ replicate 8 0.

Definition call_page (path : list Z) : kernel := after (copyout user_pt 200 (call_bytes path)) one_page.

Definition call_proc : proc :=
  set_p_trapframe (paddr (pte_at 2 (mem one_page) user_pt) 208 - TF_A0) (set_p_pagetable user_pt zero_proc).

Definition call_machine (D : Z -> list Z) (path : list Z) : kernel := mounted D call_proc (call_page path).

Record call_ok (path : list Z) : Prop := {
  ck_short : (length path < 8)%nat;
  ck_a0 : load64 (mem (call_page path)) (p_trapframe call_proc + TF_A0 + 8 * 0) = 200;
  ck_a1 : load64 (mem (call_page path)) (p_trapframe call_proc + TF_A0 + 8 * 1) = 0;
  ck_path : uread (mem (call_page path)) (pte_at 2 (mem (call_page path)) user_pt) 200 (length path + 1) = path ++ [0];
  ck_nul : upto_nul (path ++ [0]) = Some path
}.

#[local] Opaque one_page.

Lemma call_page_mapped path :
  (length path < 8)%nat ->
  exists m', call_page path = set_mem m' one_page /\ own 2 (set_mem m' one_page) user_pt /\
    (forall x, pte_at 2 m' user_pt x = pte_at 2 (mem one_page) user_pt x) /\
    forall va len, 0 <= va -> 0 <= len -> va + len <= PGSIZE -> va < PGSIZE ->
      user_writable (pte_at 2 (mem one_page) user_pt) (tables 2 m' user_pt) va len.
Proof.
  intros Hl. assert (Lb : length (call_bytes path) = 24%nat).
  { unfold call_bytes. rewrite !length_app, length_put_le, !length_replicate. lia. }
  destruct (one_page_writable 200 (length (call_bytes path))) as [Ho Hw]; [lia|lia|rewrite Lb; done|done|].
  destruct (copyout_run user_pt one_page 200 (call_bytes path) Ho Hw) as (m' & E & _ & Ho' & HV & HT).
  exists m'. split_and!; [|done|done|].
  - unfold call_page, after. by rewrite E.
  - intros va len H1 H2 H3 H4. rewrite HT. by apply one_page_writable.
Qed.

#[local] Opaque call_page.

Lemma call_may_open D path : call_ok path -> may_open 0 1 (call_machine D path) path (mounted_proc call_proc).
Proof.
  intros [Hl Ha0 Ha1 Hp Hn]. destruct (call_page_mapped path Hl) as (m' & E & Ho & HV & Hw). set (s := call_machine D path).
  assert (Hpr : procs s !! 0%nat = Some (mounted_proc call_proc)) by done.
  assert (Hraw : forall k, 0 <= k <= 5 -> argraw k s = Ok (load64 (mem (call_page path)) (p_trapframe call_proc + TF_A0 + 8 * k)) s).
  { intros k Hk. unfold argraw. kstep (curproc_run s 0 eq_refl). kstep (getp_run s 0 _ Hpr).
    rewrite (proj2 (Z.leb_le 0 k)), (proj2 (Z.leb_le k 5)) by lia. done. }
  split.
  - exact (mounted_read D call_proc (call_page path)).
  - exact (mounted_icache D call_proc (call_page path)).
  - exact (mounted_room D call_proc (call_page path)).
  - split; done.
  - unfold argint. kstep (Hraw 1 ltac:(lia)). by rewrite Ha1.
  - unfold argstr, argaddr. kstep (Hraw 0 ltac:(lia)). rewrite Ha0. unfold fetchstr. kstep (curproc_run s 0 eq_refl).
    kstep (getp_run s 0 _ Hpr). change (p_pagetable (mounted_proc call_proc)) with user_pt.
    assert (Em : mem s = m') by (change (mem s) with (mem (call_page path)); by rewrite E).
    assert (Er : refcnt s = refcnt (set_mem m' one_page)) by (change (refcnt s) with (refcnt (call_page path)); by rewrite E).
    rewrite (copyinstr_run s user_pt 200 (Z.of_nat (length path + 1)) MAXPATH).
    + rewrite Nat2Z.id. change (mem s) with (mem (call_page path)). by rewrite Hp, Hn.
    + unfold own in *. rewrite Em, Er. exact Ho.
    + rewrite Em. apply (user_mapped_ext (pte_at 2 (mem one_page) user_pt)); [done|]. apply (user_mapped_read _ true).
      apply (uw_mapped _ (tables 2 m' user_pt)), Hw; unfold PGSIZE; lia.
    + rewrite Nat2Z.id. change (mem s) with (mem (call_page path)). rewrite Hp. split; [change MAXPATH with 128; lia|right; by rewrite Hn].
  - done.
  - done.
  - split; [done|]. intros f x Hx _. by apply lookup_replicate in Hx as [-> _].
Qed.

Lemma call_machine_view D path bn : view (call_machine D path) bn = D bn.
Proof. exact (mounted_view D call_proc (call_page path) bn). Qed.

#[local] Transparent call_page one_page.

Lemma call_ok_a : call_ok (str "/a").
Proof. split; [cbn; lia|vm_compute; reflexivity..]. Qed.

#[local] Opaque call_page one_page.

Lemma sys_open_spec_witness :
  exists s' i ip, @sys_open small_layout three_waits (call_machine one_file (str "/a")) = Ok 0 s' /\
    (p_ofile <$> procs s' !! 0%nat) = Some (Some 0%nat :: replicate 15 None) /\
    ftab s' !! 0%nat = Some (mkFile FD_INODE 1 1 0 0 (Some i) 0 0) /\ itab s' !! i = Some ip /\ i_inum ip = 2.
Proof.
  set (s := call_machine one_file (str "/a")).
  assert (Hv : forall bn, view s bn = one_file bn) by exact (call_machine_view one_file (str "/a")).
  assert (Hok : walk_ok (view s) fs_sb ROOTINO (path_elements (str "/a"))).
  { apply (walk_ok_ext one_file); [intros bn; symmetry; apply Hv|exact one_file_walk]. }
  destruct (@sys_open_spec small_layout three_waits 0 1 s (str "/a") ROOTINO _ (call_may_open one_file _ call_ok_a) eq_refl Hok)
    as (s' & _ & _ & _ & H).
  change (sb s) with fs_sb in H. rewrite (walk_ext _ one_file) in H by exact Hv.
  assert (E : walk one_file fs_sb false ROOTINO (path_elements (str "/a")) [] = Some (2, str "a")) by (vm_compute; reflexivity).
  rewrite E in H. cbn [open_result] in H. change (sb s) with fs_sb in H.
  rewrite (dinode_on_ext _ one_file), one_file_inode_2 in H by exact Hv.
  destruct H as (i & ip & H & Hp & Hf & Hi & (_ & _ & Hn) & _). exists s', i, ip.
  split; [exact H|]. split; [rewrite Hp; reflexivity|]. split; [rewrite Hf; reflexivity|]. split; [exact Hi|exact Hn].
Defined.
