(* ===== verification/Trap.v ===== *)
(** * System-call dispatch and traps ([kernel/syscall.c], [kernel/trap.c],
    [forkret] of [kernel/proc.c])

    The control registers of the hart that took the trap are a record that the
    handlers take and give back.  What a device answers during an interrupt
    (the claim of the PLIC, the state of the UART) is an argument. *)

From S2P Require Import Prelude Riscv Mem State Printf Kalloc Vm Sched Bio Log Fs UserMem Pipe Console File Mmap Proc Exec Sysproc Sysfile.

#[local] Open Scope Z_scope.

(** ** [kernel/riscv.h]: the supervisor registers *)

Definition SSTATUS_SPP : Z := Z.shiftl 1 8.
Definition SSTATUS_SPIE : Z := Z.shiftl 1 5.
Definition SSTATUS_SIE : Z := Z.shiftl 1 1.

Record hart : Type := mkHart {
  sstatus : Z;
  sepc : Z;
  scause : Z;
  stval : Z;
  stvec : Z;
  satp : Z;
  sip : Z;
  tp : Z
}.

Definition w_sstatus (v : Z) (h : hart) : hart :=
  mkHart v (sepc h) (scause h) (stval h) (stvec h) (satp h) (sip h) (tp h).
Definition w_sepc (v : Z) (h : hart) : hart :=
  mkHart (sstatus h) v (scause h) (stval h) (stvec h) (satp h) (sip h) (tp h).
Definition w_stvec (v : Z) (h : hart) : hart :=
  mkHart (sstatus h) (sepc h) (scause h) (stval h) v (satp h) (sip h) (tp h).
Definition w_satp (v : Z) (h : hart) : hart :=
  mkHart (sstatus h) (sepc h) (scause h) (stval h) (stvec h) v (sip h) (tp h).
Definition w_sip (v : Z) (h : hart) : hart :=
  mkHart (sstatus h) (sepc h) (scause h) (stval h) (stvec h) (satp h) v (tp h).

Definition intr_on (h : hart) : hart := w_sstatus (Z.lor (sstatus h) SSTATUS_SIE) h.
Definition intr_off (h : hart) : hart := w_sstatus (Z.ldiff (sstatus h) SSTATUS_SIE) h.
Definition intr_get (h : hart) : bool := negb (Z.land (sstatus h) SSTATUS_SIE =? 0).

(** Addresses of code in [trampoline.S] and [kernelvec.S], and of [usertrap]. *)
Record vectors : Type := mkVectors {
  kernelvec : Z;
  uservec : Z;
  userret : Z;
  usertrap_pc : Z
}.

(** What the devices answer: the PLIC's claim register, the UART's transmitter
    status and its received characters; and the handler of the disk's
    interrupt, whose state ([Virtio.v]) is the driver's own. *)
Record devices : Type := mkDevices {
  claim : Z;
  uart_idle : bool;
  uart_input : list Z;
  virtio_disk_intr : K unit
}.

Section Trap.
Context `{L : Layout} `{W : Waits}.

(** ** [syscall] *)

(** [syscalls[]]; index 0 has no handler. *)
Definition syscalls : list (K Z) :=
  [mret (-1);
   sys_fork; sys_exit; sys_wait; sys_pipe; sys_read; sys_kill; sys_exec; sys_fstat;
   sys_chdir; sys_dup; sys_getpid; sys_sbrk; sys_pause; sys_uptime; sys_open;
   sys_write; sys_mknod; sys_unlink; sys_link; sys_mkdir; sys_close; sys_getnice;
   sys_setnice; sys_ps; sys_meminfo; sys_waitpid; sys_mmap; sys_munmap; sys_freemem].

(** [printf("%d %s: unknown sys call %d\n", ...)] *)
Definition unknown_fmt : list Z := str "%d %s: unknown sys call %d" ++ [10].

Definition syscall : K unit :=
  i ← curproc;
  p ← getp i;
  a7 ← ld64 (p_trapframe p + TF_A7);
  let num := i32 a7 in
  match (if (0 <? num) && (num <? Z.of_nat (length syscalls)) then syscalls !! Z.to_nat num else None) with
  | Some handler =>
      r ← handler;
      q ← getp i;
      st64 (p_trapframe q + TF_A0) (u64 r)
  | None =>
      printf unknown_fmt [A_num (p_pid p); A_str (Some (cut_nul (p_name p))); A_num num] ;;
      st64 (p_trapframe p + TF_A0) (u64 (-1))
  end.

(** ** [trap.c] *)

Definition trapinithart (v : vectors) (h : hart) : hart := w_stvec (kernelvec v) h.

(** [clockintr]: the clock belongs to CPU 0. *)
Definition hart_clockintr (h : hart) : K unit :=
  when (tp h =? 0) clockintr.

Definition unexpected_irq_fmt : list Z := str "unexpected interrupt irq=%d" ++ [10].

(** The result is [devintr]'s; the PLIC is told of the completion by a store
    to the register it was claimed from, which has no effect on the kernel. *)
Definition devintr (d : devices) (h : hart) : K (Z * hart) :=
  if scause h =? 0x8000000000000009 then
    let irq := i32 (claim d) in
    (if irq =? UART0_IRQ then uartintr (uart_idle d) (uart_input d)
     else if irq =? VIRTIO0_IRQ then virtio_disk_intr d
     else when (negb (irq =? 0)) (printf unexpected_irq_fmt [A_num irq])) ;;
    mret (1, h)
  else if scause h =? 0x8000000000000001 then
    hart_clockintr h ;;
    mret (2, w_sip (Z.ldiff (sip h) 2) h)
  else mret (0, h).

Definition prepare_return (v : vectors) (h : hart) : K hart :=
  i ← curproc;
  p ← getp i;
  let h := intr_off h in
  let h := w_stvec (u64 (TRAMPOLINE + (uservec v - trampoline))) h in
  st64 (p_trapframe p + TF_KSATP) (satp h) ;;
  st64 (p_trapframe p + TF_KSP) (u64 (p_kstack p + PGSIZE)) ;;
  st64 (p_trapframe p + TF_KTRAP) (usertrap_pc v) ;;
  st64 (p_trapframe p + TF_HARTID) (tp h) ;;
  let x := Z.lor (Z.ldiff (sstatus h) SSTATUS_SPP) SSTATUS_SPIE in
  let h := w_sstatus x h in
  epc ← ld64 (p_trapframe p + TF_EPC);
  mret (w_sepc epc h).

Definition scause_fmt : list Z := str "usertrap(): unexpected scause 0x%lx pid=%d" ++ [10].
Definition sepc_fmt : list Z := str "            sepc=0x%lx stval=0x%lx" ++ [10].

(** The body of the [if] of [usertrap]: the device that interrupted, 0 for
    none. *)
Definition usertrap_cause (d : devices) (i : nat) (h : hart) : K (Z * hart) :=
  if scause h =? 8 then
    k ← killed i;
    when (negb (k =? 0)) (kexit (-1)) ;;
    p ← getp i;
    epc ← ld64 (p_trapframe p + TF_EPC);
    st64 (p_trapframe p + TF_EPC) (u64 (epc + 4)) ;;
    let h := intr_on h in
    syscall ;;
    mret (0, h)
  else
    r ← devintr d h;
    if negb (r.1 =? 0) then mret r
    else
      p ← getp i;
      f ← (if (scause h =? 15) || (scause h =? 13)
           then vmfault (p_pagetable p) (stval h) (scause h =? 13)
           else mret 0);
      when (negb (f =? 1))
        (printf scause_fmt [A_num (scause h); A_num (p_pid p)] ;;
         printf sepc_fmt [A_num (sepc h); A_num (stval h)] ;;
         setkilled i) ;;
      mret (0, h).

(** The result: the [satp] for the trampoline, and the registers [sret] uses. *)
Definition usertrap (v : vectors) (d : devices) (h : hart) : K (Z * hart) :=
  if negb (Z.land (sstatus h) SSTATUS_SPP =? 0) then panic "usertrap: not from user mode"
  else
    let h := w_stvec (kernelvec v) h in
    i ← curproc;
    p ← getp i;
    st64 (p_trapframe p + TF_EPC) (sepc h) ;;
    r ← usertrap_cause d i h;
    k ← killed i;
    when (negb (k =? 0)) (kexit (-1)) ;;
    when (r.1 =? 2) (user_timer (Some i)) ;;
    h' ← prepare_return v r.2;
    q ← getp i;
    mret (MAKE_SATP (p_pagetable q), h').

Definition kerneltrap_fmt : list Z := str "scause=0x%lx sepc=0x%lx stval=0x%lx" ++ [10].

Definition kerneltrap (d : devices) (h : hart) : K hart :=
  if Z.land (sstatus h) SSTATUS_SPP =? 0 then panic "kerneltrap: not from supervisor mode"
  else if intr_get h then panic "kerneltrap: interrupts enabled"
  else
    r ← devintr d h;
    if r.1 =? 0 then
      printf kerneltrap_fmt [A_num (scause h); A_num (sepc r.2); A_num (stval r.2)] ;;
      panic "kerneltrap"
    else
      when (r.1 =? 2) kernel_timer ;;
      mret (w_sstatus (sstatus h) (w_sepc (sepc h) r.2)).

(** ** [forkret] *)

(** The result: the [satp] it passes to the trampoline's [userret], and the
    registers. *)
Definition forkret (v : vectors) (h : hart) : K (Z * hart) :=
  i ← curproc;
  release (L_proc i) ;;
  first ← gets forkret_first;
  when (negb (first =? 0))
    (fsinit ROOTDEV ;;
     modify (set_forkret_first 0) ;;
     a ← kexec (str "/init") [str "/init"];
     p ← getp i;
     st64 (p_trapframe p + TF_A0) (u64 a) ;;
     when (u64 a =? u64 (-1)) (panic "exec")) ;;
  h' ← prepare_return v h;
  p ← getp i;
  mret (MAKE_SATP (p_pagetable p), h').

End Trap.
