(* ===== verification/Asm.v ===== *)
(** * The assembly code ([kernel/swtch.S], [kernel/trampoline.S],
      [kernel/kernelvec.S], [kernel/entry.S])

    The instructions that the code uses, on the registers of a hart, its control
    registers and physical memory.  Virtual addresses go through a translation that
    is a parameter, given the value of [satp].  Each routine is the list of its
    instructions; a run of it ends with the instruction that leaves it.  Fences have
    no effect. *)

From S2P Require Import Prelude Riscv Mem State Proc.

#[local] Open Scope Z_scope.

(** ** The machine *)

Inductive reg : Type :=
| ra | sp | gp | tp | t0 | t1 | t2 | s0 | s1 | a0 | a1 | a2 | a3 | a4 | a5 | a6 | a7
| s2 | s3 | s4 | s5 | s6 | s7 | s8 | s9 | s10 | s11 | t3 | t4 | t5 | t6.

#[global] Instance reg_eq_dec : EqDecision reg.
Proof. solve_decision. Defined.

Inductive csr : Type :=
| satp | sscratch | sip | sie | mhartid | mstatus | mepc | mscratch | mtvec | mie | medeleg | mideleg
| pmpaddr0 | pmpcfg0.

#[global] Instance csr_eq_dec : EqDecision csr.
Proof. solve_decision. Defined.

Record machine := mkMachine {
  regs : reg -> Z;
  csrs : csr -> Z;
  pmem : Z -> Z
}.

Inductive instr : Type :=
| Sd (rs : reg) (off : Z) (base : reg)
| Ld (rd : reg) (off : Z) (base : reg)
| Li (rd : reg) (imm : Z)
| Addi (rd rs : reg) (imm : Z)
| Add (rd rs1 rs2 : reg)
| Mul (rd rs1 rs2 : reg)
| Csrw (c : csr) (rs : reg)
| Csrr (rd : reg) (c : csr)
| Csrrw (rd : reg) (c : csr) (rs : reg)
| Sfence
| Jalr (rs : reg) (link : Z)      (* [link] is the address behind the instruction *)
| Call (target link : Z)
| Ret
| Sret
| Mret.

(** How a run leaves the code: at its end, by a jump, or by a return from a trap. *)
Inductive leave : Type := L_end | L_jump (pc : Z) | L_sret | L_mret.

Definition set_reg (r : reg) (v : Z) (m : machine) : machine := mkMachine (<[r := v]> (regs m)) (csrs m) (pmem m).
Definition set_csr (c : csr) (v : Z) (m : machine) : machine := mkMachine (regs m) (<[c := v]> (csrs m)) (pmem m).
Definition set_pmem (v : Z -> Z) (m : machine) : machine := mkMachine (regs m) (csrs m) v.

Section Exec.
Context (trans : Z -> Z -> Z).   (* [satp] and a virtual address to a physical one *)

Definition va (m : machine) (base : reg) (off : Z) : Z := trans (csrs m satp) (u64 (regs m base + off)).

Fixpoint exec (l : list instr) (m : machine) : leave * machine :=
  match l with
  | [] => (L_end, m)
  | i :: l' =>
      match i with
      | Sd rs off base => exec l' (set_pmem (store64 (pmem m) (va m base off) (regs m rs)) m)
      | Ld rd off base => exec l' (set_reg rd (load64 (pmem m) (va m base off)) m)
      | Li rd imm => exec l' (set_reg rd (u64 imm) m)
      | Addi rd rs imm => exec l' (set_reg rd (u64 (regs m rs + imm)) m)
      | Add rd rs1 rs2 => exec l' (set_reg rd (u64 (regs m rs1 + regs m rs2)) m)
      | Mul rd rs1 rs2 => exec l' (set_reg rd (u64 (regs m rs1 * regs m rs2)) m)
      | Csrw c rs => exec l' (set_csr c (regs m rs) m)
      | Csrr rd c => exec l' (set_reg rd (csrs m c) m)
      | Csrrw rd c rs => exec l' (set_csr c (regs m rs) (set_reg rd (csrs m c) m))
      | Sfence => exec l' m
      | Jalr rs link => (L_jump (regs m rs), set_reg ra link m)
      | Call target link => (L_jump target, set_reg ra link m)
      | Ret => (L_jump (regs m ra), m)
      | Sret => (L_sret, m)
      | Mret => (L_mret, m)
      end
  end.
End Exec.

(** One instruction at a time. *)
Section Steps.
Context (trans : Z -> Z -> Z) (l : list instr) (m : machine).

Lemma exec_sd rs off b : exec trans (Sd rs off b :: l) m = exec trans l (set_pmem (store64 (pmem m) (va trans m b off) (regs m rs)) m).
Proof. reflexivity. Qed.
Lemma exec_ld rd off b : exec trans (Ld rd off b :: l) m = exec trans l (set_reg rd (load64 (pmem m) (va trans m b off)) m).
Proof. reflexivity. Qed.
Lemma exec_li rd imm : exec trans (Li rd imm :: l) m = exec trans l (set_reg rd (u64 imm) m).
Proof. reflexivity. Qed.
Lemma exec_addi rd rs imm : exec trans (Addi rd rs imm :: l) m = exec trans l (set_reg rd (u64 (regs m rs + imm)) m).
Proof. reflexivity. Qed.
Lemma exec_add rd r1 r2 : exec trans (Add rd r1 r2 :: l) m = exec trans l (set_reg rd (u64 (regs m r1 + regs m r2)) m).
Proof. reflexivity. Qed.
Lemma exec_mul rd r1 r2 : exec trans (Mul rd r1 r2 :: l) m = exec trans l (set_reg rd (u64 (regs m r1 * regs m r2)) m).
Proof. reflexivity. Qed.
Lemma exec_csrw c rs : exec trans (Csrw c rs :: l) m = exec trans l (set_csr c (regs m rs) m).
Proof. reflexivity. Qed.
Lemma exec_csrr rd c : exec trans (Csrr rd c :: l) m = exec trans l (set_reg rd (csrs m c) m).
Proof. reflexivity. Qed.
Lemma exec_csrrw rd c rs :
  exec trans (Csrrw rd c rs :: l) m = exec trans l (set_csr c (regs m rs) (set_reg rd (csrs m c) m)).
Proof. reflexivity. Qed.
Lemma exec_call target link : exec trans (Call target link :: l) m = (L_jump target, set_reg ra link m).
Proof. reflexivity. Qed.
Lemma exec_sfence : exec trans (Sfence :: l) m = exec trans l m.
Proof. reflexivity. Qed.
End Steps.

Ltac asm_steps :=
  repeat first [rewrite exec_sd | rewrite exec_ld | rewrite exec_li | rewrite exec_addi | rewrite exec_add
    | rewrite exec_mul | rewrite exec_csrw | rewrite exec_csrr | rewrite exec_csrrw | rewrite exec_sfence].

(** ** The routines *)

Definition swtch : list instr :=
  [Sd ra 0 a0; Sd sp 8 a0; Sd s0 16 a0; Sd s1 24 a0; Sd s2 32 a0; Sd s3 40 a0; Sd s4 48 a0;
   Sd s5 56 a0; Sd s6 64 a0; Sd s7 72 a0; Sd s8 80 a0; Sd s9 88 a0; Sd s10 96 a0; Sd s11 104 a0;
   Ld ra 0 a1; Ld sp 8 a1; Ld s0 16 a1; Ld s1 24 a1; Ld s2 32 a1; Ld s3 40 a1; Ld s4 48 a1;
   Ld s5 56 a1; Ld s6 64 a1; Ld s7 72 a1; Ld s8 80 a1; Ld s9 88 a1; Ld s10 96 a1; Ld s11 104 a1;
   Ret].

(** [userret] is the address behind the call of [usertrap]. *)
Definition uservec (userret : Z) : list instr :=
  [Csrw sscratch a0; Li a0 TRAPFRAME;
   Sd ra 40 a0; Sd sp 48 a0; Sd gp 56 a0; Sd tp 64 a0; Sd t0 72 a0; Sd t1 80 a0; Sd t2 88 a0;
   Sd s0 96 a0; Sd s1 104 a0; Sd a1 120 a0; Sd a2 128 a0; Sd a3 136 a0; Sd a4 144 a0; Sd a5 152 a0;
   Sd a6 160 a0; Sd a7 168 a0; Sd s2 176 a0; Sd s3 184 a0; Sd s4 192 a0; Sd s5 200 a0; Sd s6 208 a0;
   Sd s7 216 a0; Sd s8 224 a0; Sd s9 232 a0; Sd s10 240 a0; Sd s11 248 a0; Sd t3 256 a0; Sd t4 264 a0;
   Sd t5 272 a0; Sd t6 280 a0;
   Csrr t0 sscratch; Sd t0 112 a0;
   Ld sp 8 a0; Ld tp 32 a0; Ld t0 16 a0; Ld t1 0 a0;
   Sfence; Csrw satp t1; Sfence; Jalr t0 userret].

Definition userret : list instr :=
  [Sfence; Csrw satp a0; Sfence; Li a0 TRAPFRAME;
   Ld ra 40 a0; Ld sp 48 a0; Ld gp 56 a0; Ld tp 64 a0; Ld t0 72 a0; Ld t1 80 a0; Ld t2 88 a0;
   Ld s0 96 a0; Ld s1 104 a0; Ld a1 120 a0; Ld a2 128 a0; Ld a3 136 a0; Ld a4 144 a0; Ld a5 152 a0;
   Ld a6 160 a0; Ld a7 168 a0; Ld s2 176 a0; Ld s3 184 a0; Ld s4 192 a0; Ld s5 200 a0; Ld s6 208 a0;
   Ld s7 216 a0; Ld s8 224 a0; Ld s9 232 a0; Ld s10 240 a0; Ld s11 248 a0; Ld t3 256 a0; Ld t4 264 a0;
   Ld t5 272 a0; Ld t6 280 a0;
   Ld a0 112 a0; Sret].

(** [kernelvec] up to the call of [kerneltrap], and from its return on. *)
Definition kernelvec_entry (kerneltrap link : Z) : list instr :=
  [Addi sp sp (-256);
   Sd ra 0 sp; Sd gp 16 sp; Sd tp 24 sp; Sd t0 32 sp; Sd t1 40 sp; Sd t2 48 sp; Sd a0 72 sp; Sd a1 80 sp;
   Sd a2 88 sp; Sd a3 96 sp; Sd a4 104 sp; Sd a5 112 sp; Sd a6 120 sp; Sd a7 128 sp; Sd t3 216 sp;
   Sd t4 224 sp; Sd t5 232 sp; Sd t6 240 sp; Call kerneltrap link].

Definition kernelvec_exit : list instr :=
  [Ld ra 0 sp; Ld gp 16 sp; Ld t0 32 sp; Ld t1 40 sp; Ld t2 48 sp; Ld a0 72 sp; Ld a1 80 sp;
   Ld a2 88 sp; Ld a3 96 sp; Ld a4 104 sp; Ld a5 112 sp; Ld a6 120 sp; Ld a7 128 sp; Ld t3 216 sp;
   Ld t4 224 sp; Ld t5 232 sp; Ld t6 240 sp; Addi sp sp 256; Sret].

Definition timervec : list instr :=
  [Csrrw a0 mscratch a0; Sd a1 0 a0; Sd a2 8 a0; Sd a3 16 a0;
   Ld a1 24 a0; Ld a2 32 a0; Ld a3 0 a1; Add a3 a3 a2; Sd a3 0 a1;
   Li a1 2; Csrw sip a1;
   Ld a3 16 a0; Ld a2 8 a0; Ld a1 0 a0; Csrrw a0 mscratch a0; Mret].

Definition entry (stack0 start link : Z) : list instr :=
  [Li sp stack0; Li a0 (1024 * 4); Csrr a1 mhartid; Addi a1 a1 1; Mul a0 a0 a1; Add sp sp a0; Call start link].

(** ** Blocks of stores and of loads *)

Definition saves (b : reg) (l : list (reg * Z)) : list instr := (fun x => Sd x.1 x.2 b) <$> l.
Definition loads (b : reg) (l : list (reg * Z)) : list instr := (fun x => Ld x.1 x.2 b) <$> l.

(** The memory after the stores, at physical address [p], and the registers after the loads. *)
Definition saved (rg : reg -> Z) (p : Z) (l : list (reg * Z)) (mm : Z -> Z) : Z -> Z :=
  foldl (fun mm x => store64 mm (p + x.2) (rg x.1)) mm l.
Definition loaded (mm : Z -> Z) (p : Z) (l : list (reg * Z)) (rg : reg -> Z) : reg -> Z :=
  foldl (fun rg x => <[x.1 := load64 mm (p + x.2)]> rg) rg l.

Lemma saved_cons rg p y l mm : saved rg p (y :: l) mm = saved rg p l (store64 mm (p + y.2) (rg y.1)).
Proof. done. Qed.

Lemma saved_ext rg rg' p l mm : (forall r, r ∈ l.*1 -> rg r = rg' r) -> saved rg p l mm = saved rg' p l mm.
Proof.
  revert mm. induction l as [|y l IH]; intros mm H; [done|]. rewrite !saved_cons, (H y.1) by by left.
  apply IH. intros r Hr. apply H. by right.
Qed.

Lemma loaded_cons mm p y l rg : loaded mm p (y :: l) rg = loaded mm p l (<[y.1 := load64 mm (p + y.2)]> rg).
Proof. done. Qed.

(** No two words of the block overlap, and the block has [n] bytes. *)
Fixpoint words_apart (n : Z) (l : list (reg * Z)) : bool :=
  match l with
  | [] => true
  | x :: l' =>
      (0 <=? x.2) && (x.2 + 8 <=? n) &&
      forallb (fun y => (y.2 + 8 <=? x.2) || (x.2 + 8 <=? y.2)) l' && words_apart n l'
  end.

Lemma words_apart_cons n x l :
  words_apart n (x :: l) = true ->
  0 <= x.2 /\ x.2 + 8 <= n /\ (forall y, y ∈ l -> y.2 + 8 <= x.2 \/ x.2 + 8 <= y.2) /\ words_apart n l = true.
Proof.
  cbn. rewrite !andb_true_iff, !Z.leb_le, forallb_forall. intros [[[? ?] Hf] ?]. split_and!; try done.
  intros y Hy%list_elem_of_In. apply Hf in Hy. rewrite orb_true_iff, !Z.leb_le in Hy. done.
Qed.

Lemma words_apart_range n l x : words_apart n l = true -> x ∈ l -> 0 <= x.2 /\ x.2 + 8 <= n.
Proof.
  induction l as [|y l IH]; intros H Hin; [by apply elem_of_nil in Hin|].
  apply words_apart_cons in H as (? & ? & _ & H). apply elem_of_cons in Hin as [->|]; auto.
Qed.

Lemma saved_frame rg p l mm n x :
  words_apart n l = true -> x < p \/ p + n <= x -> saved rg p l mm x = mm x.
Proof.
  revert mm. induction l as [|y l IH]; intros mm H Hx; [done|]. apply words_apart_cons in H as (? & ? & _ & H).
  rewrite saved_cons, IH by done. unfold store64, store_le. case_decide; [|done]. lia.
Qed.

(** The bytes in front of the first word and behind the last. *)
Lemma saved_outside rg p l mm lo hi x :
  forallb (fun y => (lo <=? y.2) && (y.2 + 8 <=? hi)) l = true -> x < p + lo \/ p + hi <= x -> saved rg p l mm x = mm x.
Proof.
  revert mm. induction l as [|y l IH]; intros mm H Hx; [done|]. cbn [forallb] in H.
  apply andb_prop in H as [[H1%Z.leb_le H2%Z.leb_le]%andb_prop H]. rewrite saved_cons, IH by done.
  unfold store64, store_le. case_decide; [|done]. lia.
Qed.

Lemma saved_load_ne rg p l mm n a :
  words_apart n l = true -> (forall y, y ∈ l -> a + 8 <= p + y.2 \/ p + y.2 + 8 <= a) ->
  load64 (saved rg p l mm) a = load64 mm a.
Proof.
  revert mm. induction l as [|y l IH]; intros mm H Ha; [done|]. pose proof H as (_ & _ & _ & H')%words_apart_cons.
  rewrite saved_cons, IH; [|done|intros z Hz; apply Ha; by right]. apply load64_store64_ne.
  specialize (Ha y ltac:(by left)). lia.
Qed.

Lemma saved_load rg p l mm n r o :
  words_apart n l = true -> (r, o) ∈ l -> is_u64 (rg r) -> load64 (saved rg p l mm) (p + o) = rg r.
Proof.
  revert mm. induction l as [|y l IH]; intros mm H Hin Hu; [by apply elem_of_nil in Hin|].
  pose proof H as (_ & _ & Hy & H')%words_apart_cons. rewrite saved_cons. apply elem_of_cons in Hin as [<-|Hin].
  - cbn [fst snd] in *. rewrite (saved_load_ne _ _ _ _ n); [|done|].
    + by apply load64_store64_eq.
    + intros z Hz. specialize (Hy z Hz). lia.
  - by apply IH.
Qed.

Lemma loaded_ne mm p l rg r : r ∉ l.*1 -> loaded mm p l rg r = rg r.
Proof.
  revert rg. induction l as [|y l IH]; intros rg H; [done|]. apply not_elem_of_cons in H as [? ?].
  rewrite loaded_cons, IH by done. by rewrite fn_lookup_insert_ne by done.
Qed.

Lemma loaded_eq mm p l rg r o : NoDup l.*1 -> (r, o) ∈ l -> loaded mm p l rg r = load64 mm (p + o).
Proof.
  revert rg. induction l as [|y l IH]; intros rg Hnd Hin; [by apply elem_of_nil in Hin|].
  apply NoDup_cons in Hnd as [Hy Hnd]. rewrite loaded_cons.
  apply elem_of_cons in Hin as [<-|Hin]; [|by apply IH]. rewrite loaded_ne by done. by rewrite fn_lookup_insert.
Qed.

Section Blocks.
Context (trans : Z -> Z -> Z).

(** The [n] bytes at the address in register [b] are at the physical address [p]. *)
Definition maps (m : machine) (b : reg) (p n : Z) : Prop :=
  forall o, 0 <= o < n -> trans (csrs m satp) (u64 (regs m b + o)) = p + o.

Lemma exec_saves b l k m p n :
  maps m b p n -> words_apart n l = true ->
  exec trans (saves b l ++ k) m = exec trans k (set_pmem (saved (regs m) p l (pmem m)) m).
Proof.
  revert m. induction l as [|[r o] l IH]; intros m Hm H; [by destruct m|].
  apply words_apart_cons in H as (? & ? & _ & H). cbn [saves fmap list_fmap app exec fst snd].
  unfold va. rewrite Hm by (cbn in *; lia). fold (saves b l). by rewrite IH.
Qed.

Lemma exec_loads b l k m p n :
  maps m b p n -> words_apart n l = true -> b ∉ l.*1 ->
  exec trans (loads b l ++ k) m = exec trans k (mkMachine (loaded (pmem m) p l (regs m)) (csrs m) (pmem m)).
Proof.
  revert m. induction l as [|[r o] l IH]; intros m Hm H Hb; [by destruct m|].
  apply words_apart_cons in H as (? & ? & _ & H). apply not_elem_of_cons in Hb as [Hb Hbl].
  cbn [loads fmap list_fmap app exec fst snd]. unfold va. rewrite Hm by (cbn in *; lia). fold (loads b l).
  rewrite IH; [done| |done|done]. intros o' Ho'. cbn [regs csrs set_reg]. rewrite fn_lookup_insert_ne by done. by apply Hm.
Qed.
End Blocks.

Definition wf_regs (m : machine) : Prop := forall r, is_u64 (regs m r).

(** ** The context switch *)

(** [struct context]: the registers and their offsets. *)
Definition context_regs : list (reg * Z) :=
  [(ra, 0); (sp, 8); (s0, 16); (s1, 24); (s2, 32); (s3, 40); (s4, 48); (s5, 56); (s6, 64); (s7, 72);
   (s8, 80); (s9, 88); (s10, 96); (s11, 104)].

Lemma context_regs_ok : words_apart 112 context_regs = true /\ NoDup context_regs.*1 /\ a1 ∉ context_regs.*1.
Proof. split; [done|]. split; apply (bool_decide_unpack _); vm_compute; done. Qed.

Section Switch.
Context (trans : Z -> Z -> Z).

Lemma swtch_run m old new :
  maps trans m a0 old 112 -> maps trans m a1 new 112 ->
  let mm := saved (regs m) old context_regs (pmem m) in
  let rg := loaded mm new context_regs (regs m) in
  exec trans swtch m = (L_jump (rg ra), mkMachine rg (csrs m) mm).
Proof.
  intros H0 H1 mm rg. destruct context_regs_ok as (Hw & _ & Hb).
  change swtch with (saves a0 context_regs ++ loads a1 context_regs ++ [Ret]).
  rewrite (exec_saves trans a0 _ _ m old 112) by done. by rewrite (exec_loads trans a1 _ _ _ new 112).
Qed.

(** A context that nobody has touched reads as it was saved. *)
Lemma context_kept m old mm r o :
  wf_regs m -> (r, o) ∈ context_regs ->
  (forall x, old <= x < old + 112 -> mm x = saved (regs m) old context_regs (pmem m) x) ->
  load64 mm (old + o) = regs m r.
Proof.
  intros Hwf Hin Hk. destruct context_regs_ok as (Hw & _ & _). pose proof (words_apart_range _ _ _ Hw Hin) as [? ?].
  cbn [snd] in *. rewrite (load64_ext _ (saved (regs m) old context_regs (pmem m))) by (intros x Hx; apply Hk; lia).
  by apply (saved_load _ _ _ _ 112).
Qed.
End Switch.

(** C31. A context switch comes back: a thread that calls [swtch] with its own
    context as [old] continues, when some hart later calls [swtch] with that context
    as [new] and the context has not been written in between, right behind its call,
    with the stack pointer and all the callee-saved registers that it had; the other
    registers are those of the hart that switches to it, and memory changes only in
    the context that the later call saves. *)
Theorem swtch_resumes trans m1 m3 old q1 q3 :
  wf_regs m1 -> maps trans m1 a0 old 112 -> maps trans m1 a1 q1 112 ->
  maps trans m3 a1 old 112 -> maps trans m3 a0 q3 112 -> q3 + 112 <= old \/ old + 112 <= q3 ->
  (forall x, old <= x < old + 112 -> pmem m3 x = pmem (exec trans swtch m1).2 x) ->
  exists m4, exec trans swtch m3 = (L_jump (regs m1 ra), m4) /\
    (forall r, r ∈ context_regs.*1 -> regs m4 r = regs m1 r) /\
    (forall r, r ∉ context_regs.*1 -> regs m4 r = regs m3 r) /\
    (forall x, x < q3 \/ q3 + 112 <= x -> pmem m4 x = pmem m3 x).
Proof.
  intros Hwf H1 H1' H3 H3' Hap Hk. rewrite (swtch_run trans m1 old q1 H1 H1') in Hk. cbn [snd pmem] in Hk.
  rewrite (swtch_run trans m3 q3 old H3' H3). destruct context_regs_ok as (Hw & Hnd & _).
  set (mm := saved (regs m3) q3 context_regs (pmem m3)).
  assert (Hr : forall r, r ∈ context_regs.*1 -> loaded mm old context_regs (regs m3) r = regs m1 r).
  { intros r ([r' o] & -> & Hin)%list_elem_of_fmap. rewrite (loaded_eq _ _ _ _ _ o) by done.
    apply (context_kept m1); [done|done|]. intros x Hx. rewrite <- Hk by done. apply (saved_frame _ _ _ _ 112); [done|lia]. }
  eexists. split; [f_equal; f_equal; apply Hr; by left|]. split; [exact Hr|]. split.
  - intros r Hn. by apply loaded_ne.
  - intros x Hx. by apply (saved_frame _ _ _ _ 112).
Qed.

(** ** Traps from user mode *)

(** The registers in [struct trapframe] but [a0], whose offset is 112. *)
Definition frame_regs : list (reg * Z) :=
  [(ra, 40); (sp, 48); (gp, 56); (tp, 64); (t0, 72); (t1, 80); (t2, 88); (s0, 96); (s1, 104);
   (a1, 120); (a2, 128); (a3, 136); (a4, 144); (a5, 152); (a6, 160); (a7, 168); (s2, 176); (s3, 184);
   (s4, 192); (s5, 200); (s6, 208); (s7, 216); (s8, 224); (s9, 232); (s10, 240); (s11, 248);
   (t3, 256); (t4, 264); (t5, 272); (t6, 280)].

Lemma frame_regs_ok : words_apart 288 frame_regs = true /\ NoDup frame_regs.*1 /\ a0 ∉ frame_regs.*1.
Proof. split; [done|]. split; apply (bool_decide_unpack _); vm_compute; done. Qed.

(** The offset of a register in the frame. *)
Definition frame_off (r : reg) : Z := default 112 (snd <$> (snd <$> list_find (fun x => x.1 = r) frame_regs)).

Lemma frame_off_in r : r <> a0 -> (r, frame_off r) ∈ frame_regs.
Proof. intros H. destruct r; try done; apply (bool_decide_unpack _); vm_compute; done. Qed.

Section UserTrap.
Context (trans : Z -> Z -> Z).

(** The page table in [pt] maps the trap frame of the process, at [tf], to TRAPFRAME. *)
Definition maps_frame (pt tf : Z) : Prop :=
  forall o, 0 <= o < 288 -> trans pt (u64 (TRAPFRAME + o)) = tf + o.

Lemma frame_addr : u64 TRAPFRAME = TRAPFRAME.
Proof. vm_compute. reflexivity. Qed.

(** The kernel's words at the start of the frame. *)
Definition kernel_words : list (reg * Z) := [(sp, TF_KSP); (tp, TF_HARTID); (t0, TF_KTRAP); (t1, TF_KSATP)].

Lemma kernel_words_ok : words_apart 288 kernel_words = true /\ NoDup kernel_words.*1 /\ a0 ∉ kernel_words.*1.
Proof. split; [done|]. split; apply (bool_decide_unpack _); vm_compute; done. Qed.

Lemma uservec_shape link :
  uservec link = Csrw sscratch a0 :: Li a0 TRAPFRAME :: saves a0 frame_regs ++ (Csrr t0 sscratch :: Sd t0 TF_A0 a0 ::
    loads a0 kernel_words ++ [Sfence; Csrw satp t1; Sfence; Jalr t0 link]).
Proof. reflexivity. Qed.

(** The memory behind [uservec]. *)
Definition trapped (m : machine) (tf : Z) : Z -> Z :=
  store64 (saved (regs m) tf frame_regs (pmem m)) (tf + TF_A0) (regs m a0).

(** The stores of [uservec]. *)
Lemma uservec_saves k m tf :
  maps_frame (csrs m satp) tf ->
  exec trans (Csrw sscratch a0 :: Li a0 TRAPFRAME :: saves a0 frame_regs ++ (Csrr t0 sscratch :: Sd t0 TF_A0 a0 :: k)) m =
  exec trans k (mkMachine (<[t0 := regs m a0]> (<[a0 := TRAPFRAME]> (regs m))) (<[sscratch := regs m a0]> (csrs m)) (trapped m tf)).
Proof.
  intros Hm. destruct frame_regs_ok as (Hw & Hnd & Hb). rewrite exec_csrw, exec_li, frame_addr.
  set (m0 := set_reg a0 TRAPFRAME (set_csr sscratch (regs m a0) m)).
  assert (Ha : regs m0 a0 = TRAPFRAME) by (unfold m0; cbn [regs set_reg]; apply fn_lookup_insert).
  assert (Hc : csrs m0 satp = csrs m satp) by (unfold m0; cbn [csrs set_reg set_csr]; by rewrite fn_lookup_insert_ne).
  assert (Hs : csrs m0 sscratch = regs m a0) by (unfold m0; cbn [csrs set_reg set_csr]; by rewrite fn_lookup_insert).
  assert (Hm0 : maps trans m0 a0 tf 288) by (unfold maps; rewrite Ha, Hc; exact Hm).
  rewrite (exec_saves trans a0 _ _ m0 tf 288 Hm0 Hw), exec_csrr, exec_sd.
  assert (E : saved (regs m0) tf frame_regs (pmem m0) = saved (regs m) tf frame_regs (pmem m)).
  { apply saved_ext. intros r Hr. unfold m0. cbn [regs set_reg set_csr]. apply fn_lookup_insert_ne. by intros <-. }
  rewrite E. unfold va. cbn [regs csrs set_reg set_pmem pmem]. rewrite fn_lookup_insert_ne by done.
  rewrite Ha, Hc, Hs, fn_lookup_insert. rewrite (Hm TF_A0) by (unfold TF_A0; lia). reflexivity.
Qed.

Lemma uservec_run link m tf :
  maps_frame (csrs m satp) tf ->
  exists m1, exec trans (uservec link) m = (L_jump (load64 (trapped m tf) (tf + TF_KTRAP)), m1) /\
    pmem m1 = trapped m tf /\ csrs m1 satp = load64 (trapped m tf) (tf + TF_KSATP) /\
    regs m1 sp = load64 (trapped m tf) (tf + TF_KSP) /\ regs m1 tp = load64 (trapped m tf) (tf + TF_HARTID) /\
    regs m1 ra = link.
Proof.
  intros Hm. destruct kernel_words_ok as (Kw & Kn & Kb). rewrite uservec_shape, (uservec_saves _ m tf Hm).
  rewrite (exec_loads trans a0 kernel_words _ _ tf 288); [| |exact Kw|exact Kb].
  2:{ unfold maps. cbn [regs csrs]. rewrite !fn_lookup_insert_ne, fn_lookup_insert by done. exact Hm. }
  rewrite exec_sfence, exec_csrw, exec_sfence. cbn [exec regs csrs pmem set_csr set_reg].
  rewrite (loaded_eq _ _ _ _ t0 TF_KTRAP Kn) by (do 2 right; left). eexists. split; [reflexivity|].
  cbn [regs csrs pmem set_reg set_csr]. split; [reflexivity|].
  rewrite fn_lookup_insert, !fn_lookup_insert_ne by done. rewrite fn_lookup_insert.
  split; [apply loaded_eq; [exact Kn|]; do 3 right; left|]. split; [apply loaded_eq; [exact Kn|]; left|].
  split; [apply loaded_eq; [exact Kn|]; right; left|reflexivity].
Qed.

(** The frame behind [uservec] holds the user's registers and the kernel's words. *)
Lemma trapped_reg m tf r : wf_regs m -> load64 (trapped m tf) (tf + frame_off r) = regs m r.
Proof.
  intros Hwf. destruct frame_regs_ok as (Hw & _ & Hb). unfold trapped. destruct (decide (r = a0)) as [->|Hr].
  - change (frame_off a0) with TF_A0. by apply load64_store64_eq.
  - pose proof (frame_off_in r Hr) as Hin. rewrite load64_store64_ne.
    + by apply (saved_load _ _ _ _ 288).
    + assert (forallb (fun x => (x.2 + 8 <=? TF_A0) || (TF_A0 + 8 <=? x.2)) frame_regs = true) as Hf by done.
      rewrite forallb_forall in Hf. specialize (Hf _ (proj1 (list_elem_of_In _ _) Hin)). cbn [snd] in Hf.
      apply orb_prop in Hf as [Hf%Z.leb_le|Hf%Z.leb_le]; lia.
Qed.

Lemma trapped_kernel m tf o : 0 <= o -> o + 8 <= 40 -> load64 (trapped m tf) (tf + o) = load64 (pmem m) (tf + o).
Proof.
  intros H0 Ho. destruct frame_regs_ok as (Hw & _ & _). unfold trapped.
  rewrite load64_store64_ne by (unfold TF_A0; lia). apply (saved_load_ne _ _ _ _ 288); [done|].
  intros y Hy. assert (forallb (fun x => 40 <=? x.2) frame_regs = true) as Hf by done.
  rewrite forallb_forall in Hf. specialize (Hf _ (proj1 (list_elem_of_In _ _) Hy)). apply Z.leb_le in Hf. lia.
Qed.

Lemma userret_run m tf :
  maps_frame (regs m a0) tf ->
  exists m', exec trans userret m = (L_sret, m') /\ pmem m' = pmem m /\ csrs m' satp = regs m a0 /\
    forall r, regs m' r = load64 (pmem m) (tf + frame_off r).
Proof.
  intros Hm. destruct frame_regs_ok as (Hw & Hnd & Hb).
  change userret with (Sfence :: Csrw satp a0 :: Sfence :: Li a0 TRAPFRAME :: loads a0 frame_regs ++ [Ld a0 TF_A0 a0; Sret]).
  rewrite exec_sfence, exec_csrw, exec_sfence, exec_li, frame_addr. set (m0 := set_reg a0 TRAPFRAME (set_csr satp (regs m a0) m)).
  assert (Ha : regs m0 a0 = TRAPFRAME) by (unfold m0; cbn [regs set_reg]; apply fn_lookup_insert).
  assert (Hs : csrs m0 satp = regs m a0) by (cbn; by rewrite fn_lookup_insert).
  assert (Hm0 : maps trans m0 a0 tf 288) by (unfold maps; rewrite Ha, Hs; exact Hm).
  rewrite (exec_loads trans a0 _ _ m0 tf 288), exec_ld by done. cbn [exec]. eexists. split; [done|].
  cbn [regs csrs pmem set_reg]. split; [done|]. split; [done|]. intros r. destruct (decide (r = a0)) as [->|Hr].
  - rewrite fn_lookup_insert. unfold va. cbn [regs csrs]. rewrite loaded_ne by done. rewrite Hm0 by (unfold TF_A0; lia). done.
  - rewrite fn_lookup_insert_ne by done. apply loaded_eq; [done|]. by apply frame_off_in.
Qed.
End UserTrap.

(** C22. A trap from user mode and the return to it are transparent: [uservec] saves
    all the user's registers in the process's trap frame and enters the kernel with
    the stack, the hart number, the page table and the entry point that
    [prepare_return] left there; and when the kernel comes to [userret] with the
    user's page table and the frame's registers as they were saved, the user gets all
    31 registers and its page table back.  Between the two the kernel may change any
    register and all other memory, and a register that it changes in the frame (the
    result of a system call in [a0]) is what the user sees in its place. *)
Theorem trap_restores_registers trans link m tf m2 :
  wf_regs m -> maps_frame trans (csrs m satp) tf -> regs m2 a0 = csrs m satp ->
  exists m1 m3,
    exec trans (uservec link) m = (L_jump (load64 (pmem m) (tf + TF_KTRAP)), m1) /\
    regs m1 sp = load64 (pmem m) (tf + TF_KSP) /\ regs m1 tp = load64 (pmem m) (tf + TF_HARTID) /\
    csrs m1 satp = load64 (pmem m) (tf + TF_KSATP) /\ regs m1 ra = link /\
    (forall x, x < tf + 40 \/ tf + 288 <= x -> pmem m1 x = pmem m x) /\
    exec trans userret m2 = (L_sret, m3) /\ csrs m3 satp = csrs m satp /\ pmem m3 = pmem m2 /\
    (forall r, regs m3 r = load64 (pmem m2) (tf + frame_off r)) /\
    (forall r, load64 (pmem m2) (tf + frame_off r) = load64 (pmem m1) (tf + frame_off r) -> regs m3 r = regs m r).
Proof.
  intros Hwf Hm Ha. destruct (uservec_run trans link m tf Hm) as (m1 & E1 & Hp & Hs & Hsp & Htp & Hra).
  destruct (userret_run trans m2 tf) as (m3 & E3 & Hp3 & Hs3 & Hr3); [by rewrite Ha|].
  exists m1, m3. rewrite E1, Hs, Hsp, Htp, Hra, Hs3, Ha, Hp3, !trapped_kernel by (unfold TF_KTRAP, TF_KSP, TF_HARTID, TF_KSATP; lia).
  do 5 (split; [reflexivity|]). split.
  { intros x Hx. rewrite Hp. unfold trapped, store64, store_le. rewrite decide_False by (unfold TF_A0; lia).
    apply (saved_outside (regs m) tf frame_regs (pmem m) 40 288); [reflexivity|lia]. }
  split; [exact E3|]. do 2 (split; [reflexivity|]). split; [exact Hr3|].
  intros r E. by rewrite Hr3, E, Hp, trapped_reg.
Qed.

Lemma u64_back x : is_u64 x -> u64 (u64 (x - 256) + 256) = x.
Proof. unfold is_u64, u64. intros H. Z.div_mod_to_equations. lia. Qed.

(** ** Traps from the kernel *)

(** What [kernelvec] saves below the stack pointer; all of it but [tp] is restored. *)
Definition kernel_saved : list (reg * Z) :=
  [(ra, 0); (gp, 16); (tp, 24); (t0, 32); (t1, 40); (t2, 48); (a0, 72); (a1, 80); (a2, 88); (a3, 96);
   (a4, 104); (a5, 112); (a6, 120); (a7, 128); (t3, 216); (t4, 224); (t5, 232); (t6, 240)].
Definition kernel_restored : list (reg * Z) :=
  [(ra, 0); (gp, 16); (t0, 32); (t1, 40); (t2, 48); (a0, 72); (a1, 80); (a2, 88); (a3, 96);
   (a4, 104); (a5, 112); (a6, 120); (a7, 128); (t3, 216); (t4, 224); (t5, 232); (t6, 240)].

(** The registers that a C function preserves, the stack pointer apart. *)
Definition callee_saved : list reg := [s0; s1; s2; s3; s4; s5; s6; s7; s8; s9; s10; s11].

Lemma kernel_saved_ok :
  words_apart 256 kernel_saved = true /\ words_apart 256 kernel_restored = true /\ NoDup kernel_restored.*1 /\
  (sp ∉ kernel_restored.*1) /\ (sp ∉ kernel_saved.*1) /\ (sp ∉ callee_saved) /\ (tp ∉ kernel_restored.*1).
Proof. split; [done|]. split; [done|]. split_and!; apply (bool_decide_unpack _); vm_compute; done. Qed.

(** Every register is the stack pointer, [tp], callee-saved or restored from its place. *)
Lemma kernel_regs r :
  r <> sp -> r <> tp ->
  (r ∈ callee_saved /\ r ∉ kernel_restored.*1) \/ (exists o, (r, o) ∈ kernel_restored /\ (r, o) ∈ kernel_saved).
Proof.
  intros H1 H2. set (o := default 0 (snd <$> (snd <$> list_find (fun x => x.1 = r) kernel_saved))).
  destruct r; try done;
    first [left; split; apply (bool_decide_unpack _); vm_compute; exact I
          |right; exists o; split; apply (bool_decide_unpack _); vm_compute; exact I].
Qed.

(** C34. A trap in the kernel is transparent to the code it interrupts: if
    [kerneltrap] keeps the calling convention (it returns with the stack pointer and
    the callee-saved registers as they were and does not write the 256 bytes that
    [kernelvec] has pushed), then the interrupted code goes on with every register as
    before, except [tp], which is the number of the hart that it now runs on. *)
Theorem kernelvec_transparent trans kerneltrap link m m2 p :
  let m1 := (exec trans (kernelvec_entry kerneltrap link) m).2 in
  wf_regs m ->
  (forall o, 0 <= o < 256 -> trans (csrs m satp) (u64 (u64 (regs m sp - 256) + o)) = p + o) ->
  regs m2 sp = regs m1 sp -> (forall r, r ∈ callee_saved -> regs m2 r = regs m1 r) -> csrs m2 satp = csrs m satp ->
  (forall x, p <= x < p + 256 -> pmem m2 x = pmem m1 x) ->
  (exec trans (kernelvec_entry kerneltrap link) m).1 = L_jump kerneltrap /\
  exists m3, exec trans kernelvec_exit m2 = (L_sret, m3) /\ pmem m3 = pmem m2 /\ regs m3 tp = regs m2 tp /\
    forall r, r <> tp -> regs m3 r = regs m r.
Proof.
  intros m1 Hwf Hm Hsp Hcs Hpt Hfr. pose proof (eq_refl : m1 = (exec trans (kernelvec_entry kerneltrap link) m).2) as E1.
  clearbody m1. destruct kernel_saved_ok as (W1 & W2 & Nd & Hb & Hb' & Hsc & Htp).
  change (kernelvec_entry kerneltrap link) with (Addi sp sp (-256) :: saves sp kernel_saved ++ [Call kerneltrap link]) in *.
  rewrite exec_addi in *. set (v := u64 (regs m sp + -256)) in *.
  assert (Hv : v = u64 (regs m sp - 256)) by done.
  assert (Hmaps : maps trans (set_reg sp v m) sp p 256) by (unfold maps; cbn [regs csrs set_reg]; rewrite fn_lookup_insert; by rewrite Hv).
  rewrite (exec_saves trans sp _ _ _ p 256 Hmaps W1), exec_call in *. split; [reflexivity|].
  cbn [snd regs csrs pmem set_reg set_pmem] in E1.
  rewrite (saved_ext (<[sp := v]> (regs m)) (regs m)) in E1 by (intros r Hr; apply fn_lookup_insert_ne; by intros <-).
  subst m1. cbn [regs csrs pmem set_reg set_pmem] in Hsp, Hcs, Hfr. rewrite fn_lookup_insert_ne, fn_lookup_insert in Hsp by done.
  change kernelvec_exit with (loads sp kernel_restored ++ [Addi sp sp 256; Sret]).
  rewrite (exec_loads trans sp _ _ _ p 256), exec_addi by (try done; unfold maps; by rewrite Hsp, Hpt, Hv).
  cbn [exec]. eexists. split; [reflexivity|]. cbn [regs csrs pmem set_reg]. split; [reflexivity|].
  split; [by rewrite fn_lookup_insert_ne, loaded_ne by done|]. intros r Hr. destruct (decide (r = sp)) as [->|Hr'].
  - rewrite fn_lookup_insert, loaded_ne, Hsp, Hv by done. apply u64_back, Hwf.
  - rewrite fn_lookup_insert_ne by done. destruct (kernel_regs r Hr' Hr) as [[Hc Hn]|(o & Ho & Ho')].
    + rewrite loaded_ne, Hcs by done. rewrite !fn_lookup_insert_ne; [done|by intros <-|]. intros <-. apply Hn. left.
    + rewrite (loaded_eq _ _ _ _ _ o) by done. pose proof (words_apart_range _ _ _ W1 Ho') as [? ?]. cbn [snd] in *.
      rewrite (load64_ext _ (saved (regs m) p kernel_saved (pmem m))) by (intros x Hx; apply Hfr; lia).
      by apply (saved_load _ _ _ _ 256).
Qed.

(** ** Timer interrupts *)

(** Machine mode uses physical addresses. *)
Definition bare : Z -> Z -> Z := fun _ a => a.

Definition scratch_regs : list (reg * Z) := [(a1, 0); (a2, 8); (a3, 16)].

Lemma bare_maps m b n : 0 <= regs m b -> regs m b + n <= 2^64 -> maps bare m b (regs m b) n.
Proof. intros H0 Hn o Ho. unfold bare. apply u64_small. unfold is_u64. lia. Qed.

Definition scratch_back : list (reg * Z) := [(a3, 16); (a2, 8); (a1, 0)].

Lemma scratch_ok :
  words_apart 40 scratch_regs = true /\ words_apart 40 scratch_back = true /\ NoDup scratch_back.*1 /\
  (a0 ∉ scratch_regs.*1) /\ (a0 ∉ scratch_back.*1).
Proof. split; [done|]. split; [done|]. split_and!; apply (bool_decide_unpack _); vm_compute; done. Qed.

Lemma scratch_other m sc a :
  sc + 24 <= a \/ a + 8 <= sc -> load64 (saved (regs m) sc scratch_regs (pmem m)) a = load64 (pmem m) a.
Proof.
  intros Ha. apply (saved_load_ne _ _ _ _ 40); [apply scratch_ok|]. intros y Hy. unfold scratch_regs in Hy.
  rewrite !elem_of_cons, elem_of_nil in Hy. destruct Hy as [->|[->|[->|[]]]]; cbn [snd]; lia.
Qed.

Lemma scratch_back_in r o : (r, o) ∈ scratch_back -> 0 <= o /\ o + 8 <= 24 /\ (r, o) ∈ scratch_regs.
Proof.
  unfold scratch_back. rewrite !elem_of_cons, elem_of_nil.
  intros [[= -> ->]|[[= -> ->]|[[= -> ->]|[]]]]; (split; [lia|split; [lia|]]); apply (bool_decide_unpack _); vm_compute; exact I.
Qed.

(** Moving [mtimecmp] on. *)
Lemma timer_middle k m sc :
  regs m a0 = sc -> 0 <= sc -> sc + 40 <= 2^64 -> load64 (pmem m) (sc + 24) + 8 <= 2^64 ->
  let cmp := load64 (pmem m) (sc + 24) in
  let i := load64 (pmem m) (sc + 32) in
  let new := u64 (load64 (pmem m) cmp + i) in
  exec bare (Ld a1 24 a0 :: Ld a2 32 a0 :: Ld a3 0 a1 :: Add a3 a3 a2 :: Sd a3 0 a1 :: Li a1 2 :: Csrw sip a1 :: k) m =
  exec bare k (mkMachine (<[a1 := 2]> (<[a3 := new]> (<[a3 := load64 (pmem m) cmp]> (<[a2 := i]> (<[a1 := cmp]> (regs m))))))
    (<[sip := 2]> (csrs m)) (store64 (pmem m) cmp new)).
Proof.
  intros Ha H0 Hs Hc cmp i new. pose proof (load64_range (pmem m) (sc + 24)) as Hcmp. fold cmp in Hc, Hcmp.
  assert (A : forall o, 0 <= o -> o + 8 <= 40 -> bare (csrs m satp) (u64 (sc + o)) = sc + o)
    by (intros o ? ?; apply u64_small; unfold is_u64; lia).
  rewrite !exec_ld, exec_add, exec_sd, exec_li, exec_csrw. unfold va. cbn [regs csrs pmem set_reg set_pmem set_csr].
  repeat first [rewrite fn_lookup_insert | rewrite fn_lookup_insert_ne by done]. rewrite Ha, !A by lia. fold cmp i.
  unfold bare. rewrite Z.add_0_r, (u64_small cmp Hcmp). fold new. reflexivity.
Qed.

(** The machine-mode timer handler, with the scratch area that [timerinit] sets
    up in [mscratch] (three words to save registers in, the address of the hart's
    [mtimecmp], the interval): it moves [mtimecmp] on by the interval, raises the
    supervisor's software interrupt and returns with every register and every other
    control register as they were; apart from [mtimecmp] it writes only the three scratch words. *)
Lemma timervec_run m :
  let sc := csrs m mscratch in
  let cmp := load64 (pmem m) (sc + 24) in
  wf_regs m -> 0 <= sc -> sc + 40 <= 2^64 -> cmp + 8 <= 2^64 -> cmp + 8 <= sc \/ sc + 40 <= cmp ->
  exists m', exec bare timervec m = (L_mret, m') /\
    (forall r, regs m' r = regs m r) /\ (forall c, c <> sip -> csrs m' c = csrs m c) /\ csrs m' sip = 2 /\
    load64 (pmem m') cmp = u64 (load64 (pmem m) cmp + load64 (pmem m) (sc + 32)) /\
    forall x, (x < sc \/ sc + 24 <= x) -> (x < cmp \/ cmp + 8 <= x) -> pmem m' x = pmem m x.
Proof.
  intros sc cmp Hwf H0 Hs Hc Hap. assert (Hcmp : is_u64 cmp) by apply load64_range.
  change timervec with (Csrrw a0 mscratch a0 :: saves a0 scratch_regs ++ (Ld a1 24 a0 :: Ld a2 32 a0 :: Ld a3 0 a1 ::
    Add a3 a3 a2 :: Sd a3 0 a1 :: Li a1 2 :: Csrw sip a1 :: loads a0 scratch_back ++ [Csrrw a0 mscratch a0; Mret])).
  rewrite exec_csrrw. set (m0 := set_csr mscratch (regs m a0) (set_reg a0 (csrs m mscratch) m)).
  assert (Ha : regs m0 a0 = sc) by apply fn_lookup_insert. destruct scratch_ok as (W1 & W2 & Nd & Hb1 & Hb2).
  rewrite (exec_saves bare a0 _ _ m0 sc 40); [|rewrite <- Ha; apply bare_maps; lia|done].
  rewrite (saved_ext (regs m0) (regs m)) by (intros r Hr; apply fn_lookup_insert_ne; by intros <-).
  change (pmem m0) with (pmem m). set (mm := saved (regs m) sc scratch_regs (pmem m)).
  rewrite (timer_middle _ _ sc); [|exact Ha|lia|lia|]. 2:{ cbn [pmem set_pmem]. unfold mm. rewrite scratch_other by lia. exact Hc. }
  cbn [pmem regs csrs set_pmem]. replace (load64 mm (sc + 24)) with cmp by (symmetry; apply scratch_other; lia).
  replace (load64 mm cmp) with (load64 (pmem m) cmp) by (symmetry; apply scratch_other; lia).
  replace (load64 mm (sc + 32)) with (load64 (pmem m) (sc + 32)) by (symmetry; apply scratch_other; lia).
  set (new := u64 _). set (rg := <[a1 := 2]> _). set (m1 := mkMachine rg _ _).
  assert (Hrg : forall r, r ∉ scratch_back.*1 -> rg r = regs m0 r).
  { intros r Hr. unfold rg. rewrite !fn_lookup_insert_ne; [done|..]; intros <-; apply Hr; apply (bool_decide_unpack _); vm_compute; exact I. }
  assert (Ha1 : regs m1 a0 = sc) by (cbn [m1 regs]; by rewrite Hrg).
  rewrite (exec_loads bare a0 _ _ m1 sc 40); [|rewrite <- Ha1; apply bare_maps; lia|done|done]. rewrite exec_csrrw.
  cbn [exec]. eexists. split; [reflexivity|]. cbn [regs csrs pmem set_csr set_reg m1].
  split_and!.
  - intros r. destruct (decide (r = a0)) as [->|Hr].
    { rewrite fn_lookup_insert, fn_lookup_insert_ne by done. cbn [m0 csrs set_csr]. by rewrite fn_lookup_insert. }
    rewrite fn_lookup_insert_ne by done. destruct (decide (r ∈ scratch_back.*1)) as [Hin|Hin].
    + apply list_elem_of_fmap in Hin as ([r' o] & -> & Hin). rewrite (loaded_eq _ _ _ _ _ o) by done. cbn [fst].
      destruct (scratch_back_in r' o Hin) as (? & ? & Hin'). rewrite load64_store64_ne by lia. by apply (saved_load _ _ _ _ 40).
    + rewrite loaded_ne, Hrg by done. unfold m0. cbn [regs set_csr set_reg]. by rewrite fn_lookup_insert_ne.
  - intros c Hc'. destruct (decide (c = mscratch)) as [->|Hc2].
    { rewrite fn_lookup_insert, loaded_ne by done. exact Ha1. }
    rewrite !fn_lookup_insert_ne by done. unfold m0. cbn [csrs set_csr set_reg]. by rewrite fn_lookup_insert_ne.
  - rewrite fn_lookup_insert_ne by done. by rewrite fn_lookup_insert.
  - apply load64_store64_eq. apply u64_range.
  - intros x Hx1 Hx2. unfold store64, store_le. rewrite decide_False by lia.
    apply (saved_outside _ _ _ _ 0 24); [reflexivity|lia].
Qed.

(** ** The first instructions *)

(** [entry.S] calls [start] on the top of the hart's own page of [stack0]. *)
Lemma entry_run trans stack0 start link m :
  0 <= csrs m mhartid < NCPU -> 0 <= stack0 -> stack0 + 4096 * NCPU < 2^64 ->
  exists m', exec trans (entry stack0 start link) m = (L_jump start, m') /\
    regs m' sp = stack0 + 4096 * (csrs m mhartid + 1) /\ regs m' ra = link /\ csrs m' = csrs m /\ pmem m' = pmem m.
Proof.
  intros Hh H0 Hs. change NCPU with 8 in *. unfold entry. rewrite !exec_li, exec_csrr, exec_addi, exec_mul, exec_add, exec_call.
  eexists. split; [reflexivity|]. cbn [regs csrs pmem set_reg]. split; [|split; [apply fn_lookup_insert|done]].
  repeat first [rewrite fn_lookup_insert | rewrite fn_lookup_insert_ne by done].
  change (u64 (1024 * 4)) with 4096. rewrite (u64_small stack0), (u64_small (_ + 1)), (u64_small (4096 * _)) by (unfold is_u64; lia).
  rewrite u64_small by (unfold is_u64; lia). lia.
Qed.

(** ** Sample runs *)

Definition sample (v x y : Z) (mem : Z -> Z) : machine :=
  mkMachine (fun r => match r with a0 => x | a1 => y | _ => v end) (fun _ => 1) mem.

Lemma sample_wf v x y mem : is_u64 v -> is_u64 x -> is_u64 y -> wf_regs (sample v x y mem).
Proof. intros ? ? ? r. by destruct r. Qed.

Lemma sample_mem v x y mem : pmem (sample v x y mem) = mem.
Proof. reflexivity. Qed.

Lemma set_reg_mem r v m : pmem (set_reg r v m) = pmem m.
Proof. reflexivity. Qed.

Lemma set_reg_other r r' v m : r <> r' -> regs (set_reg r v m) r' = regs m r'.
Proof. intros H. by apply fn_lookup_insert_ne. Qed.

Lemma set_reg_same r v m : regs (set_reg r v m) r = v.
Proof. apply fn_lookup_insert. Qed.

Lemma swtch_resumes_witness :
  exists m4, exec bare swtch (sample 9 3000 1000 (pmem (exec bare swtch (sample 7 1000 2000 (fun _ => 0))).2)) = (L_jump 7, m4) /\
    regs m4 s0 = 7 /\ regs m4 t0 = 9.
Proof.
  destruct (swtch_resumes bare (sample 7 1000 2000 (fun _ => 0))
    (sample 9 3000 1000 (pmem (exec bare swtch (sample 7 1000 2000 (fun _ => 0))).2)) 1000 2000 3000) as (m4 & E & H1 & H2 & _).
  - apply sample_wf; unfold is_u64; lia.
  - apply (bare_maps (sample 7 1000 2000 (fun _ => 0)) a0); cbn; lia.
  - apply (bare_maps (sample 7 1000 2000 (fun _ => 0)) a1); cbn; lia.
  - apply (bare_maps (sample 9 3000 1000 _) a1); cbn; lia.
  - apply (bare_maps (sample 9 3000 1000 _) a0); cbn; lia.
  - lia.
  - intros x _. rewrite sample_mem. reflexivity.
  - exists m4. split; [exact E|]. split; [apply H1; do 2 right; left|].
    apply H2. apply (bool_decide_unpack _). vm_compute. exact I.
Defined.

(** The trap frame at the start of memory. *)
Definition frame_trans : Z -> Z -> Z := fun _ a => a - TRAPFRAME.

Lemma trap_restores_registers_witness :
  exists m3, exec frame_trans userret
      (sample 9 1 9 (pmem (exec frame_trans (uservec 44) (sample 5 6 7 (fun _ => 0))).2)) = (L_sret, m3) /\
    regs m3 a0 = 6 /\ regs m3 a1 = 7 /\ regs m3 t6 = 5.
Proof.
  destruct (trap_restores_registers frame_trans 44 (sample 5 6 7 (fun _ => 0)) 0
    (sample 9 1 9 (pmem (exec frame_trans (uservec 44) (sample 5 6 7 (fun _ => 0))).2)))
    as (m1 & m3 & E1 & _ & _ & _ & _ & _ & E3 & _ & _ & _ & Hr).
  - apply sample_wf; unfold is_u64; lia.
  - intros o Ho. unfold frame_trans. rewrite u64_small; [lia|]. unfold is_u64. change TRAPFRAME with 0x3fffffe000. lia.
  - reflexivity.
  - exists m3. split; [exact E3|].
    assert (forall r, regs m3 r = regs (sample 5 6 7 (fun _ => 0)) r) as Hall.
    { intros r. apply Hr. rewrite sample_mem, E1. reflexivity. }
    rewrite !Hall. split; [reflexivity|]. split; reflexivity.
Defined.

Lemma kernelvec_transparent_witness :
  exists m3, exec bare kernelvec_exit (set_reg tp 3 (exec bare (kernelvec_entry 80 84) (sample 5000 6 7 (fun _ => 0))).2) = (L_sret, m3) /\
    regs m3 sp = 5000 /\ regs m3 a0 = 6 /\ regs m3 tp = 3.
Proof.
  destruct (kernelvec_transparent bare 80 84 (sample 5000 6 7 (fun _ => 0))
    (set_reg tp 3 (exec bare (kernelvec_entry 80 84) (sample 5000 6 7 (fun _ => 0))).2) 4744) as (_ & m3 & E & _ & Ht & Hr).
  - apply sample_wf; unfold is_u64; lia.
  - intros o Ho. change (u64 (regs (sample 5000 6 7 (fun _ => 0)) sp - 256)) with 4744. unfold bare. apply u64_small. unfold is_u64. lia.
  - rewrite set_reg_other by discriminate. reflexivity.
  - intros r Hr. rewrite set_reg_other; [reflexivity|]. intros <-.
    revert Hr. apply (bool_decide_unpack _). vm_compute. exact I.
  - reflexivity.
  - intros x _. rewrite set_reg_mem. reflexivity.
  - exists m3. split; [exact E|]. split; [apply (Hr sp); discriminate|].
    split; [apply (Hr a0); discriminate|]. rewrite Ht. apply set_reg_same.
Defined.

(** The scratch area of the hart at 1024: [mtimecmp] is at 4096, and the interval is 100. *)
Definition timer_sample : machine :=
  mkMachine (fun _ => 5) (fun c => match c with mscratch => 1024 | _ => 0 end)
    (store64 (store64 (store64 (fun _ => 0) 1048 4096) 1056 100) 4096 40).

Lemma timervec_example :
  exists m', exec bare timervec timer_sample = (L_mret, m') /\ regs m' a1 = 5 /\ load64 (pmem m') 4096 = 140.
Proof.
  destruct (timervec_run timer_sample) as (m' & E & Hr & _ & _ & Hc & _).
  - intros r. cbn. unfold is_u64. lia.
  - cbn. lia.
  - cbn. lia.
  - vm_compute. discriminate.
  - right. vm_compute. discriminate.
  - exists m'. split; [exact E|]. split; [apply Hr|]. exact Hc.
Qed.
