(* ===== verification/Boot.v ===== *)
(** * Starting a hart ([kernel/start.c], [kernel/plic.c], [uartinit])

    [start] and [timerinit] run in machine mode on the machine of [Asm], whose
    physical memory has the registers of the CLINT and of the PLIC as words at their
    addresses.  The theorem ties them to the timer handler of [kernelvec.S], for any
    number of timer interrupts between which the rest of the kernel runs. *)

From S2P Require Import Prelude Riscv Mem State Proc Asm.

#[local] Open Scope Z_scope.

(** ** Registers ([kernel/riscv.h]) and addresses ([kernel/memlayout.h]) *)

Definition MSTATUS_MPP_MASK : Z := Z.shiftl 3 11.
Definition MSTATUS_MPP_S : Z := Z.shiftl 1 11.
Definition MSTATUS_MIE : Z := Z.shiftl 1 3.
Definition SIE_SEIE : Z := Z.shiftl 1 9.
Definition SIE_STIE : Z := Z.shiftl 1 5.
Definition SIE_SSIE : Z := Z.shiftl 1 1.
Definition MIE_MTIE : Z := Z.shiftl 1 7.

Definition CLINT : Z := 0x2000000.
Definition CLINT_MTIMECMP (hartid : Z) : Z := CLINT + 0x4000 + 8 * hartid.
Definition CLINT_MTIME : Z := CLINT + 0xBFF8.

Definition PLIC_SENABLE (hart : Z) : Z := PLIC + 0x2080 + hart * 0x100.
Definition PLIC_SPRIORITY (hart : Z) : Z := PLIC + 0x201000 + hart * 0x2000.
Definition PLIC_SCLAIM (hart : Z) : Z := PLIC + 0x201004 + hart * 0x2000.

Definition r_mhartid (m : machine) : Z := csrs m mhartid.
Definition r_mstatus (m : machine) : Z := csrs m mstatus.
Definition r_sie (m : machine) : Z := csrs m sie.
Definition r_mie (m : machine) : Z := csrs m mie.
Definition r_tp (m : machine) : Z := regs m tp.
Definition w_mstatus : Z -> machine -> machine := set_csr mstatus.
Definition w_mepc : Z -> machine -> machine := set_csr mepc.
Definition w_sie : Z -> machine -> machine := set_csr sie.
Definition w_mie : Z -> machine -> machine := set_csr mie.
Definition w_medeleg : Z -> machine -> machine := set_csr medeleg.
Definition w_mideleg : Z -> machine -> machine := set_csr mideleg.
Definition w_mtvec : Z -> machine -> machine := set_csr mtvec.
Definition w_pmpcfg0 : Z -> machine -> machine := set_csr pmpcfg0.
Definition w_pmpaddr0 : Z -> machine -> machine := set_csr pmpaddr0.
Definition w_satp : Z -> machine -> machine := set_csr satp.
Definition w_mscratch : Z -> machine -> machine := set_csr mscratch.
Definition w_tp : Z -> machine -> machine := set_reg tp.

(** A store to an [uint64] in machine mode, where addresses are physical. *)
Definition put64 (a v : Z) (m : machine) : machine := set_pmem (store64 (pmem m) a v) m.

(** ** [start.c] *)

Section Start.
Context (main_pc timervec_pc timer_scratch : Z).   (* addresses the linker gives *)

(** [timer_scratch[id]] has five words. *)
Definition timerinit (m : machine) : machine :=
  let id := i32 (r_mhartid m) in
  let interval := 100000 in
  let m := put64 (CLINT_MTIMECMP id) (u64 (load64 (pmem m) CLINT_MTIME + interval)) m in
  let scratch := timer_scratch + 8 * (5 * id) in
  let m := put64 (scratch + 8 * 3) (CLINT_MTIMECMP id) m in
  let m := put64 (scratch + 8 * 4) interval m in
  let m := w_mscratch scratch m in
  let m := w_mtvec timervec_pc m in
  let m := w_mstatus (Z.lor (r_mstatus m) MSTATUS_MIE) m in
  w_mie (Z.lor (r_mie m) MIE_MTIE) m.

(** The run ends in [mret]. *)
Definition start (m : machine) : leave * machine :=
  let x := r_mstatus m in
  let x := Z.ldiff x MSTATUS_MPP_MASK in
  let x := Z.lor x MSTATUS_MPP_S in
  let m := w_mstatus x m in
  let m := w_mepc main_pc m in
  let m := w_satp 0 m in
  let m := w_medeleg 0xffff m in
  let m := w_mideleg 0xffff m in
  let m := w_sie (Z.lor (Z.lor (Z.lor (r_sie m) SIE_SEIE) SIE_STIE) SIE_SSIE) m in
  let m := w_pmpaddr0 0x3fffffffffffff m in
  let m := w_pmpcfg0 0xf m in
  let m := timerinit m in
  let id := i32 (r_mhartid m) in
  let m := w_tp (u64 id) m in
  (L_mret, m).
End Start.

(** [kvminithart] of [vm.c], whose fences have no effect here: paging with the kernel's
    page table. *)
Definition kvminithart (kernel_pagetable : Z) (m : machine) : machine := w_satp (MAKE_SATP kernel_pagetable) m.

(** ** [plic.c], on the words of memory *)

(** [cpuid] of [proc.c]. *)
Definition cpuid (m : machine) : Z := i32 (r_tp m).

Definition put32 (a v : Z) (m : machine) : machine := set_pmem (store32 (pmem m) a v) m.

Definition plicinit (m : machine) : machine :=
  let m := put32 (PLIC + UART0_IRQ * 4) 1 m in
  put32 (PLIC + VIRTIO0_IRQ * 4) 1 m.

Definition plicinithart (m : machine) : machine :=
  let hart := cpuid m in
  let m := put32 (PLIC_SENABLE hart) (Z.lor (Z.shiftl 1 UART0_IRQ) (Z.shiftl 1 VIRTIO0_IRQ)) m in
  put32 (PLIC_SPRIORITY hart) 0 m.

Definition plic_claim (m : machine) : Z :=
  let hart := cpuid m in
  i32 (load32 (pmem m) (PLIC_SCLAIM hart)).

Definition plic_complete (irq : Z) (m : machine) : machine :=
  let hart := cpuid m in
  put32 (PLIC_SCLAIM hart) (u32 irq) m.

(** ** [uartinit]: the bytes it writes, with the register each goes to *)

Definition IER : Z := 1.
Definition IER_RX_ENABLE : Z := Z.shiftl 1 0.
Definition IER_TX_ENABLE : Z := Z.shiftl 1 1.
Definition FCR : Z := 2.
Definition FCR_FIFO_ENABLE : Z := Z.shiftl 1 0.
Definition FCR_FIFO_CLEAR : Z := Z.shiftl 3 1.
Definition LCR : Z := 3.
Definition LCR_EIGHT_BITS : Z := Z.shiftl 3 0.
Definition LCR_BAUD_LATCH : Z := Z.shiftl 1 7.

Definition uartinit : list (Z * Z) :=
  [(IER, 0x00); (LCR, LCR_BAUD_LATCH); (0, 0x03); (1, 0x00); (LCR, LCR_EIGHT_BITS);
   (FCR, Z.lor FCR_FIFO_ENABLE FCR_FIFO_CLEAR); (IER, Z.lor IER_TX_ENABLE IER_RX_ENABLE)].

(** ** The registers after [start] *)

Section StartFacts.
Context (main_pc timervec_pc timer_scratch : Z).
#[local] Abbreviation start := (start main_pc timervec_pc timer_scratch).

(** The scratch area of a hart. *)
Definition scratch_of (h : Z) : Z := timer_scratch + 8 * (5 * h).

(** Where the linker puts the scratch areas: in memory, which is behind the CLINT. *)
Definition scratch_placed : Prop := KERNBASE <= timer_scratch /\ timer_scratch + 40 * NCPU <= PHYSTOP.

Lemma hart_id h : 0 <= h < NCPU -> i32 h = h /\ u64 h = h.
Proof. intros Hh. change NCPU with 8 in Hh. split; [apply i32_small; unfold is_i32|apply u64_small; unfold is_u64]; lia. Qed.

Lemma placed_apart h :
  scratch_placed -> 0 <= h < NCPU ->
  0 <= CLINT_MTIMECMP h /\ CLINT_MTIMECMP h + 8 <= CLINT_MTIME /\ CLINT_MTIME + 8 <= scratch_of h /\ scratch_of h + 40 <= 2^64.
Proof.
  intros [H1 H2] Hh. unfold scratch_of, CLINT_MTIMECMP, CLINT_MTIME, CLINT.
  assert (KERNBASE = 0x80000000) by done. assert (PHYSTOP = 0x88000000) by done. change NCPU with 8 in *. lia.
Qed.

(** The three words that [timerinit] writes. *)
Definition timer_words (h now : Z) (mm : Z -> Z) : Z -> Z :=
  store64 (store64 (store64 mm (CLINT_MTIMECMP h) (u64 (now + 100000))) (scratch_of h + 24) (CLINT_MTIMECMP h))
    (scratch_of h + 32) 100000.

(** The machine after [start]. *)
Definition started (h : Z) (m : machine) : machine :=
  mkMachine (<[tp := h]> (regs m))
    (<[mie := Z.lor (csrs m mie) MIE_MTIE]> (<[mstatus := Z.lor (Z.lor (Z.ldiff (csrs m mstatus) MSTATUS_MPP_MASK) MSTATUS_MPP_S) MSTATUS_MIE]>
    (<[mtvec := timervec_pc]> (<[mscratch := scratch_of h]> (<[pmpcfg0 := 0xf]> (<[pmpaddr0 := 0x3fffffffffffff]>
    (<[sie := Z.lor (Z.lor (Z.lor (csrs m sie) SIE_SEIE) SIE_STIE) SIE_SSIE]> (<[mideleg := 0xffff]> (<[medeleg := 0xffff]>
    (<[satp := 0]> (<[mepc := main_pc]>
      (<[mstatus := Z.lor (Z.ldiff (csrs m mstatus) MSTATUS_MPP_MASK) MSTATUS_MPP_S]> (csrs m)))))))))))))
    (timer_words h (load64 (pmem m) CLINT_MTIME) (pmem m)).

Lemma start_run h m : 0 <= h < NCPU -> csrs m mhartid = h -> start m = (L_mret, started h m).
Proof.
  intros Hh Hm. destruct (hart_id h Hh) as [Hi Hu]. unfold start, Boot.start, timerinit, r_mhartid, r_mstatus, r_sie, r_mie.
  unfold w_mstatus, w_mepc, w_satp, w_medeleg, w_mideleg, w_sie, w_pmpaddr0, w_pmpcfg0, w_mscratch, w_mtvec, w_mie, w_tp, put64.
  cbn [csrs regs pmem set_csr set_reg set_pmem].
  repeat first [rewrite fn_lookup_insert | rewrite fn_lookup_insert_ne by done]. by rewrite Hm, Hi, Hu.
Qed.

(** The words that a timer interrupt needs. *)
Definition timer_ready (h : Z) (m : machine) : Prop :=
  csrs m mscratch = scratch_of h /\
  load64 (pmem m) (scratch_of h + 24) = CLINT_MTIMECMP h /\
  load64 (pmem m) (scratch_of h + 32) = 100000.

(** Addresses that the hart's timer does not use. *)
Definition not_timer (h x : Z) : Prop :=
  (x < scratch_of h \/ scratch_of h + 40 <= x) /\ (x < CLINT_MTIMECMP h \/ CLINT_MTIMECMP h + 8 <= x).

Lemma timer_words_frame h now mm x : not_timer h x -> timer_words h now mm x = mm x.
Proof. intros [H1 H2]. unfold timer_words, store64, store_le. rewrite !decide_False by lia. done. Qed.

Lemma started_ready h m :
  scratch_placed -> 0 <= h < NCPU ->
  timer_ready h (started h m) /\
  load64 (pmem (started h m)) (CLINT_MTIMECMP h) = u64 (load64 (pmem m) CLINT_MTIME + 100000).
Proof.
  intros Hp Hh. destruct (placed_apart h Hp Hh) as (? & ? & ? & ?). unfold timer_ready. cbn [pmem started]. unfold timer_words. split; [split; [|split]|].
  - cbn [csrs started]. by repeat first [rewrite fn_lookup_insert | rewrite fn_lookup_insert_ne by done].
  - rewrite load64_store64_ne by lia. apply load64_store64_eq. unfold is_u64, CLINT_MTIME, CLINT in *. lia.
  - by apply load64_store64_eq.
  - rewrite !load64_store64_ne by lia. apply load64_store64_eq, u64_range.
Qed.

(** What the kernel and the programs do between two timer interrupts, as far as the
    timer is concerned: machine-mode registers are out of their reach, and they leave
    the hart's scratch area and [mtimecmp] alone. *)
Definition supervised (h : Z) (m m' : machine) : Prop :=
  wf_regs m' /\ csrs m' mscratch = csrs m mscratch /\ csrs m' mtvec = csrs m mtvec /\
  (forall x, scratch_of h + 24 <= x < scratch_of h + 40 -> pmem m' x = pmem m x) /\
  (forall x, CLINT_MTIMECMP h <= x < CLINT_MTIMECMP h + 8 -> pmem m' x = pmem m x).

Lemma supervised_ready h m m' :
  supervised h m m' -> timer_ready h m ->
  timer_ready h m' /\ load64 (pmem m') (CLINT_MTIMECMP h) = load64 (pmem m) (CLINT_MTIMECMP h).
Proof.
  intros (_ & Hs & _ & H1 & H2) (R1 & R2 & R3). split; [split; [congruence|split]|].
  - rewrite <- R2. apply load64_ext. intros x Hx. apply H1. lia.
  - rewrite <- R3. apply load64_ext. intros x Hx. apply H1. lia.
  - apply load64_ext. intros x Hx. apply H2. lia.
Qed.

(** One timer interrupt. *)
Lemma tick_run h m :
  scratch_placed -> 0 <= h < NCPU -> timer_ready h m -> wf_regs m ->
  exists m', exec bare timervec m = (L_mret, m') /\ timer_ready h m' /\
    (forall r, regs m' r = regs m r) /\ (forall c, c <> sip -> csrs m' c = csrs m c) /\ csrs m' sip = 2 /\
    load64 (pmem m') (CLINT_MTIMECMP h) = u64 (load64 (pmem m) (CLINT_MTIMECMP h) + 100000) /\
    forall x, not_timer h x -> pmem m' x = pmem m x.
Proof.
  intros Hp Hh (R1 & R2 & R3) Hwf. destruct (placed_apart h Hp Hh) as (? & ? & ? & ?).
  pose proof (timervec_run m) as T. cbv zeta in T. rewrite R1, R2, R3 in T.
  destruct T as (m' & E & Hr & Hc & Hsip & Hcmp & Hfr); [done|lia|lia|lia|lia|].
  exists m'. split; [done|]. split; [|split; [done|split; [done|split; [done|split; [done|]]]]].
  - split; [by rewrite Hc by done|]. split; [rewrite <- R2|rewrite <- R3]; apply load64_ext; intros x Hx; apply Hfr; lia.
  - intros x [Hx1 Hx2]. apply Hfr; lia.
Qed.

(** [n] timer interrupts after [start]. *)
Inductive timer_run (h : Z) (m : machine) : nat -> machine -> Prop :=
| tr_start m' : start m = (L_mret, m') -> timer_run h m 0 m'
| tr_tick n m1 m2 m3 :
    timer_run h m n m1 -> supervised h m1 m2 -> exec bare timervec m2 = (L_mret, m3) -> timer_run h m (S n) m3.

Lemma timer_run_inv h m n m' :
  scratch_placed -> 0 <= h < NCPU -> csrs m mhartid = h -> timer_run h m n m' ->
  timer_ready h m' /\ csrs m' mtvec = timervec_pc /\
  load64 (pmem m') (CLINT_MTIMECMP h) = u64 (load64 (pmem m) CLINT_MTIME + 100000 * (Z.of_nat n + 1)).
Proof.
  intros Hp Hh Hm. induction 1 as [m' E|n m1 m2 m3 _ (IR & IV & IC) Hs E].
  - rewrite (start_run h) in E by done. injection E as <-. destruct (started_ready h m Hp Hh) as [? ->]. split; [done|]. split; [|f_equal; lia].
    cbn [csrs started]. by repeat first [rewrite fn_lookup_insert | rewrite fn_lookup_insert_ne by done].
  - destruct (supervised_ready h m1 m2 Hs IR) as [R2 C2]. pose proof Hs as (Hwf & _ & Hv & _).
    destruct (tick_run h m2 Hp Hh R2 Hwf) as (m' & E' & R & _ & Hc & _ & C & _). rewrite E in E'. injection E' as <-.
    split; [done|]. split; [rewrite Hc by done; congruence|]. rewrite C, C2, IC. unfold u64. rewrite Zplus_mod_idemp_l. f_equal. lia.
Qed.

(** Bits of the registers that [start] sets. *)
Lemma started_bits h m :
  Z.testbit (csrs (started h m) mstatus) 11 = true /\ Z.testbit (csrs (started h m) mstatus) 12 = false /\
  Z.testbit (csrs (started h m) mstatus) 3 = true /\ Z.testbit (csrs (started h m) mie) 7 = true /\
  (forall b, b = 1 \/ b = 5 \/ b = 9 -> Z.testbit (csrs (started h m) sie) b = true).
Proof.
  cbn [csrs started]. repeat first [rewrite fn_lookup_insert | rewrite fn_lookup_insert_ne by done].
  split; [|split; [|split; [|split]]]; [..|intros b [->|[->| ->]]]; rewrite !Z.lor_spec, ?Z.ldiff_spec;
    cbn; rewrite ?orb_true_r, ?andb_false_r, ?orb_false_r; reflexivity.
Qed.

(** C28. [start] hands a hart to [main] and sets its clock: [mret] will go to [main]
    in supervisor mode without paging, [cpuid] is the number of the hart, machine
    and supervisor interrupts are enabled, and of memory only the hart's [mtimecmp]
    and scratch area are written.  From then on the timer keeps ticking: after [n]
    timer interrupts, whatever runs between them, [mtimecmp] is [n + 1] intervals
    behind the time of the start, and the next interrupt again finds the handler,
    which returns with the registers as they were and a software interrupt raised. *)
Theorem start_clock h m :
  scratch_placed -> 0 <= h < NCPU -> csrs m mhartid = h ->
  (exists m', start m = (L_mret, m') /\ csrs m' mepc = main_pc /\ csrs m' satp = 0 /\ cpuid m' = h /\
    Z.testbit (csrs m' mstatus) 11 = true /\ Z.testbit (csrs m' mstatus) 12 = false /\
    Z.testbit (csrs m' mstatus) 3 = true /\ Z.testbit (csrs m' mie) 7 = true /\
    (forall b, b = 1 \/ b = 5 \/ b = 9 -> Z.testbit (csrs m' sie) b = true) /\
    (forall r, r <> tp -> regs m' r = regs m r) /\ forall x, not_timer h x -> pmem m' x = pmem m x) /\
  forall n m1, timer_run h m n m1 ->
    load64 (pmem m1) (CLINT_MTIMECMP h) = u64 (load64 (pmem m) CLINT_MTIME + 100000 * (Z.of_nat n + 1)) /\
    forall m2, supervised h m1 m2 -> csrs m2 mtvec = timervec_pc /\
      exists m3, exec bare timervec m2 = (L_mret, m3) /\ timer_run h m (S n) m3 /\
        (forall r, regs m3 r = regs m2 r) /\ csrs m3 sip = 2 /\ forall x, not_timer h x -> pmem m3 x = pmem m2 x.
Proof.
  intros Hp Hh Hm. split.
  - exists (started h m). split; [by apply start_run|]. destruct (started_bits h m) as (? & ? & ? & ? & ?).
    split; [|split; [|split; [|split_and!; [done|done|done|done|done| |]]]].
    1,2: cbn [csrs started]; by repeat first [rewrite fn_lookup_insert | rewrite fn_lookup_insert_ne by done].
    + unfold cpuid, r_tp. cbn [regs started]. rewrite fn_lookup_insert. by apply hart_id.
    + intros r Hr. by apply fn_lookup_insert_ne.
    + intros x Hx. by apply timer_words_frame.
  - intros n m1 H. destruct (timer_run_inv h m n m1 Hp Hh Hm H) as (R & V & C). split; [done|]. intros m2 Hs.
    pose proof Hs as (Hwf & _ & Hv & _). split; [congruence|].
    destruct (tick_run h m2 Hp Hh (proj1 (supervised_ready h m1 m2 Hs R)) Hwf) as (m3 & E & _ & Hr & _ & Hi & _ & Hf).
    exact (ex_intro _ m3 (conj E (conj (tr_tick h m n m1 m2 m3 H Hs E) (conj Hr (conj Hi Hf))))).
Qed.
End StartFacts.

(** ** The interrupt controller *)

Lemma put32_load a b v m : a + 4 <= b \/ b + 4 <= a -> load32 (pmem (put32 a v m)) b = load32 (pmem m) b.
Proof. intros H. apply load_store_le_ne. lia. Qed.

Lemma put32_eq a v m : 0 <= v < 2^32 -> load32 (pmem (put32 a v m)) a = v.
Proof. intros H. unfold load32, put32, store32. cbn [pmem set_pmem]. rewrite load_store_le_eq. by apply Z.mod_small. Qed.

(** Hart [h], whose number is in [tp], calls [plicinithart] on the memory it finds. *)
Definition plic_hart (m : machine) (h : Z) : machine := plicinithart (w_tp h m).

(** Interrupt [irq] gets through to hart [h]: it is enabled there, and its priority
    is above the hart's threshold. *)
Definition delivers (m : machine) (h irq : Z) : Prop :=
  Z.testbit (load32 (pmem m) (PLIC_SENABLE h)) irq = true /\
  load32 (pmem m) (PLIC_SPRIORITY h) < load32 (pmem m) (PLIC + irq * 4).

Lemma plicinithart_words h m :
  0 <= h < NCPU -> cpuid m = h ->
  load32 (pmem (plicinithart m)) (PLIC_SENABLE h) = 1026 /\ load32 (pmem (plicinithart m)) (PLIC_SPRIORITY h) = 0 /\
  forall a, a + 4 <= PLIC_SENABLE h \/ PLIC_SENABLE h + 4 <= a -> a + 4 <= PLIC_SPRIORITY h \/ PLIC_SPRIORITY h + 4 <= a ->
    load32 (pmem (plicinithart m)) a = load32 (pmem m) a.
Proof.
  intros Hh Hc. unfold plicinithart. rewrite Hc. change (Z.lor _ _) with 1026.
  assert (PLIC_SENABLE h + 4 <= PLIC_SPRIORITY h) by (change NCPU with 8 in Hh; unfold PLIC_SENABLE, PLIC_SPRIORITY; lia).
  split; [|split].
  - rewrite put32_load by lia. by apply put32_eq.
  - by apply put32_eq.
  - intros a ? ?. by rewrite !put32_load by lia.
Qed.

Lemma tp_cpuid h m : 0 <= h < NCPU -> cpuid (w_tp h m) = h.
Proof.
  intros Hh. unfold cpuid, r_tp, w_tp. cbn [regs set_reg]. rewrite fn_lookup_insert. by apply hart_id.
Qed.

Lemma plic_hart_keeps h h' irq m :
  0 <= h < NCPU -> 0 <= h' < NCPU -> irq = UART0_IRQ \/ irq = VIRTIO0_IRQ -> delivers m h irq -> delivers (plic_hart m h') h irq.
Proof.
  intros Hh Hh' Hi [D1 D2]. unfold delivers, plic_hart.
  destruct (plicinithart_words h' (w_tp h' m) Hh' (tp_cpuid h' m Hh')) as (E1 & E2 & Ef).
  assert (Ei : 0 <= irq <= 10) by (unfold UART0_IRQ, VIRTIO0_IRQ in Hi; lia). change NCPU with 8 in *.
  rewrite (Ef (PLIC + irq * 4)) by (unfold PLIC_SENABLE, PLIC_SPRIORITY; lia).
  destruct (decide (h = h')) as [->|Hne].
  - rewrite E1, E2. split; [by destruct Hi as [->| ->]|]. pose proof (load_le_range 4 (pmem m) (PLIC_SPRIORITY h')).
    unfold load32 in *. cbn [pmem w_tp set_reg]. lia.
  - rewrite !Ef by (unfold PLIC_SENABLE, PLIC_SPRIORITY; lia). done.
Qed.

(** Once hart 0 has called [plicinit] and each hart has called [plicinithart], in any
    order, the interrupts of the UART and of the disk get through to every one. *)
Lemma plic_all_deliver m harts h irq :
  (forall k, k ∈ harts -> 0 <= k < NCPU) -> h ∈ harts -> irq = UART0_IRQ \/ irq = VIRTIO0_IRQ ->
  delivers (foldl plic_hart (plicinit m) harts) h irq.
Proof.
  intros Hr Hin Hi.
  assert (P : forall l m0, (forall k, k ∈ l -> 0 <= k < NCPU) -> load32 (pmem m0) (PLIC + irq * 4) = 1 ->
    delivers m0 h irq \/ h ∈ l -> 0 <= h < NCPU -> delivers (foldl plic_hart m0 l) h irq).
  { induction l as [|k l IH]; intros m0 Hl Hp Hd Hh; [by destruct Hd as [?|?%elem_of_nil]|]. cbn [foldl].
    assert (Hk : 0 <= k < NCPU) by (apply Hl; by left).
    destruct (plicinithart_words k (w_tp k m0) Hk (tp_cpuid k m0 Hk)) as (E1 & E2 & Ef).
    assert (Hp' : load32 (pmem (plic_hart m0 k)) (PLIC + irq * 4) = 1).
    { unfold plic_hart. rewrite Ef; [exact Hp|..]; change NCPU with 8 in *;
        unfold PLIC_SENABLE, PLIC_SPRIORITY, UART0_IRQ, VIRTIO0_IRQ in *; lia. }
    apply IH; [intros; apply Hl; by right|done| |done].
    destruct Hd as [Hd|[->|Hd]%elem_of_cons]; [left; by apply plic_hart_keeps| |by right].
    left. split; [|rewrite Hp']; unfold plic_hart; [rewrite E1|rewrite E2; lia]. by destruct Hi as [->| ->]. }
  apply P; [done| |by right|by apply Hr]. unfold plicinit. destruct Hi as [->| ->].
  - rewrite put32_load by (unfold UART0_IRQ, VIRTIO0_IRQ; lia). by apply put32_eq.
  - by apply put32_eq.
Qed.

(** Completing an interrupt does not touch the settings. *)
Lemma plic_complete_keeps m h irq k :
  0 <= h < NCPU -> 0 <= k < NCPU -> irq = UART0_IRQ \/ irq = VIRTIO0_IRQ -> cpuid m = k -> delivers m h irq ->
  delivers (plic_complete irq m) h irq.
Proof.
  intros Hh Hk Hi Hc [D1 D2].
  assert (Ei : 0 <= irq <= 10) by (unfold UART0_IRQ, VIRTIO0_IRQ in Hi; lia). change NCPU with 8 in *. unfold plic_complete.
  rewrite Hc. rewrite (u32_small irq) by (unfold is_u32; lia). split.
  - rewrite put32_load by (unfold PLIC_SENABLE, PLIC_SCLAIM; lia). done.
  - rewrite !put32_load by (unfold PLIC_SPRIORITY, PLIC_SCLAIM; lia). done.
Qed.

(** ** A sample run *)

(** Hart 3 out of reset, with the time at 500. *)
Definition reset_sample : machine :=
  mkMachine (fun _ => 0) (fun c => match c with mhartid => 3 | _ => 0 end) (store64 (fun _ => 0) CLINT_MTIME 500).

Lemma start_clock_witness :
  exists m', timer_run 0x80000000 0x80000100 0x80001000 3 reset_sample 1 m' /\ load64 (pmem m') (CLINT_MTIMECMP 3) = 200500.
Proof.
  destruct (start_clock 0x80000000 0x80000100 0x80001000 3 reset_sample) as [(m1 & E & _) H]; [done|done|done|].
  destruct (H 0%nat m1 (tr_start _ _ _ _ _ _ E)) as [_ H1].
  destruct (H1 m1) as (_ & m2 & _ & H2 & _).
  - split; [|done]. rewrite (start_run _ _ _ 3) in E by done. injection E as <-. intros r. cbn [regs started].
    destruct (decide (r = tp)) as [->|Hr]; [rewrite fn_lookup_insert|rewrite fn_lookup_insert_ne by done]; vm_compute; done.
  - exists m2. split; [exact H2|]. rewrite (proj1 (H 1%nat m2 H2)).
    change (pmem reset_sample) with (store64 (fun _ => 0) CLINT_MTIME 500). by rewrite load64_store64_eq.
Defined.
