(* ===== verification/User.v ===== *)
(** * User programs: system calls and library ([user/ulib.c], [user/printf.c])

    A user program runs in a [world]: its open files, the files it can open by
    name, and what it has written.  A C string is the list of its bytes before
    the NUL.  The system calls are those of the kernel as a program sees them:
    [read] returns at most what was asked for, and at least one byte unless the
    input has ended; how many is up to the kernel ([w_reads]), and so is how
    much of a [write] succeeds ([w_writes]). *)

From S2P Require Import Prelude Riscv Mem State Printf.

#[local] Open Scope Z_scope.

(** ** The world *)

(** An open file: the bytes still to be read, or one of the outputs. *)
Inductive ufile : Type :=
| F_in (rest : list Z)
| F_out
| F_err.

(** An entry of [w_reads] is the number of bytes a read would like to return, an
    entry of [w_writes] the number a write would; a negative one is a failure.
    Calls after the end of the lists are complete. *)
Record world : Type := mkWorld {
  w_files : list Z -> option (list Z);
  w_fds : list (option ufile);
  w_reads : list Z;
  w_writes : list Z;
  w_out : list Z;
  w_err : list Z
}.

Definition w_set_fds v w := mkWorld (w_files w) v (w_reads w) (w_writes w) (w_out w) (w_err w).
Definition w_set_reads v w := mkWorld (w_files w) (w_fds w) v (w_writes w) (w_out w) (w_err w).
Definition w_set_writes v w := mkWorld (w_files w) (w_fds w) (w_reads w) v (w_out w) (w_err w).
Definition w_set_out v w := mkWorld (w_files w) (w_fds w) (w_reads w) (w_writes w) v (w_err w).
Definition w_set_err v w := mkWorld (w_files w) (w_fds w) (w_reads w) (w_writes w) (w_out w) v.

(** A run ends with a result, with [exit], or is stuck: C leaves the behaviour
    undefined, or the bound on a loop is used up. *)
Inductive ures (A : Type) : Type :=
| U_ok (a : A) (w : world)
| U_exit (status : Z) (w : world)
| U_stuck (why : string).
#[global] Arguments U_ok {A} a w.
#[global] Arguments U_exit {A} status w.
#[global] Arguments U_stuck {A} why.

Definition U (A : Type) : Type := world -> ures A.

#[global] Instance U_ret : MRet U := fun A a w => U_ok a w.
#[global] Instance U_bind : MBind U := fun A B f m w =>
  match m w with
  | U_ok a w' => f a w'
  | U_exit n w' => U_exit n w'
  | U_stuck why => U_stuck why
  end.

Lemma ubind_run {A B} (f : A -> U B) (m : U A) w :
  (m ≫= f) w = match m w with U_ok a w' => f a w' | U_exit n w' => U_exit n w' | U_stuck why => U_stuck why end.
Proof. done. Qed.

Lemma ubind_ok {A B} (f : A -> U B) (m : U A) w a w' : m w = U_ok a w' -> (m ≫= f) w = f a w'.
Proof. intros E. by rewrite ubind_run, E. Qed.

(** ** System calls *)

Definition exit {A} (n : Z) : U A := fun w => U_exit n w.

(** How many bytes a read of [k] bytes returns when [avail] are there. *)
Definition read_size (want : Z) (k avail : nat) : nat := min k (min avail (max 1 (Z.to_nat want))).

Definition read (fd : nat) (k : nat) : U (Z * list Z) := fun w =>
  match w_fds w !! fd with
  | Some (Some (F_in l)) =>
      let want := default (Z.of_nat k) (head (w_reads w)) in
      let w' := w_set_reads (tail (w_reads w)) w in
      if want <? 0 then U_ok (-1, []) w'
      else
        let n := read_size want k (length l) in
        U_ok (Z.of_nat n, take n l) (w_set_fds (<[fd := Some (F_in (drop n l))]> (w_fds w)) w')
  | _ => U_ok (-1, []) w
  end.

Definition write (fd : nat) (bs : list Z) : U Z := fun w =>
  let want := default (Z.of_nat (length bs)) (head (w_writes w)) in
  let w' := w_set_writes (tail (w_writes w)) w in
  let n := min (length bs) (Z.to_nat want) in
  match w_fds w !! fd with
  | Some (Some F_out) => if want <? 0 then U_ok (-1) w' else U_ok (Z.of_nat n) (w_set_out (w_out w ++ take n bs) w')
  | Some (Some F_err) => if want <? 0 then U_ok (-1) w' else U_ok (Z.of_nat n) (w_set_err (w_err w ++ take n bs) w')
  | _ => U_ok (-1) w
  end.

(** [open] for reading: the lowest descriptor that is free. *)
Definition open_rd (path : list Z) : U Z := fun w =>
  match w_files w path, list_find (fun x => x = None) (w_fds w) with
  | Some l, Some (fd, _) => U_ok (Z.of_nat fd) (w_set_fds (<[fd := Some (F_in l)]> (w_fds w)) w)
  | _, _ => U_ok (-1) w
  end.

Definition close (fd : nat) : U unit := fun w => U_ok tt (w_set_fds (<[fd := None]> (w_fds w)) w).

(** ** [user/ulib.c] *)

Definition strlen (s : list Z) : Z := length s.

Fixpoint strcmp (p q : list Z) : Z :=
  match p, q with
  | [], [] => 0
  | [], d :: _ => - u8 d
  | c :: _, [] => u8 c
  | c :: p', d :: q' => if c =? d then strcmp p' q' else u8 c - u8 d
  end.

(** The offset of the first [c] in [s]; [None] is the null pointer. *)
Fixpoint strchr (s : list Z) (c : Z) : option nat :=
  match s with
  | [] => None
  | x :: s' => if x =? 0 then None else if x =? c then Some 0%nat else S <$> strchr s' c
  end.

(** A signed overflow of [n] is left to wrap. *)
Fixpoint atoi_loop (s : list Z) (n : Z) : Z :=
  match s with
  | c :: s' => if (48 <=? c) && (c <=? 57) then atoi_loop s' (i32 (n * 10 + c - 48)) else n
  | [] => n
  end.

Definition atoi (s : list Z) : Z := atoi_loop s 0.

(** The loop of [gets]: [k] is [max - 1 - i], the line read so far is [l]. *)
Fixpoint gets_loop (k : nat) (l : list Z) : U (list Z) :=
  match k with
  | O => mret l
  | S k' =>
      r ← read 0 1;
      match r.2 with
      | c :: _ => if (c =? 10) || (c =? 13) then mret (l ++ [c]) else gets_loop k' (l ++ [c])
      | [] => mret l
      end
  end.

(** The bytes that [gets] stores before the NUL. *)
Definition gets (max : Z) : U (list Z) := gets_loop (Z.to_nat (max - 1)) [].

(** [memmove] on memory; the loops are those of the kernel's. *)
Definition memmove (m : Z -> Z) (dst src n : Z) : Z -> Z :=
  if dst <? src then KString.move_up m dst src (Z.to_nat n)
  else KString.move_down m (dst + n) (src + n) (Z.to_nat n).

(** ** [user/printf.c] *)

Definition putc (fd : nat) (c : Z) : U unit := write fd [u8 c] ;; mret tt.

Fixpoint putall (fd : nat) (l : list Z) : U unit :=
  match l with
  | [] => mret tt
  | c :: l' => putc fd c ;; putall fd l'
  end.

(** [digits[d]], in capitals *)
Definition udigit (d : Z) : Z := if d <? 10 then 48 + d else 55 + d.

Definition printint (fd : nat) (xx base : Z) (sgn : bool) : U unit :=
  match int_buf udigit xx base sgn with
  | Some buf => putall fd (reverse buf)
  | None => fun _ => U_stuck "printint: buf overflow"
  end.

Definition printptr (fd : nat) (x : Z) : U unit :=
  putc fd 48 ;;
  putc fd 120 ;;
  putall fd ((fun i : nat => udigit (u64 (x * 2^(4 * i)) / 2^60)) <$> seq 0 16).

Definition va_num (ap : list varg) : U (Z * list varg) :=
  match ap with
  | A_num x :: ap' => mret (x, ap')
  | _ => fun _ => U_stuck "va_arg"
  end.

Definition va_str (ap : list varg) : U (list Z * list varg) :=
  match ap with
  | A_str (Some x) :: ap' => mret (x, ap')
  | A_str None :: ap' => mret (str "(null)", ap')
  | _ => fun _ => U_stuck "va_arg"
  end.

(** What [vprintf] does with [c0], [c1], [c2] after a percent sign: the number
    of further characters that it skips, and the remaining arguments. *)
Definition vprintf_conv (fd : nat) (c0 c1 c2 : Z) (ap : list varg) : U (nat * list varg) :=
  let num cast base sgn (skip : nat) :=
    x ← va_num ap;
    printint fd (cast x.1) base sgn ;;
    mret (skip, x.2) in
  if c0 =? 100 then num i32 10 true 0%nat
  else if (c0 =? 108) && (c1 =? 100) then num i64 10 true 1%nat
  else if (c0 =? 108) && (c1 =? 108) && (c2 =? 100) then num i64 10 true 2%nat
  else if c0 =? 117 then num u32 10 false 0%nat
  else if (c0 =? 108) && (c1 =? 117) then num i64 10 false 1%nat
  else if (c0 =? 108) && (c1 =? 108) && (c2 =? 117) then num i64 10 false 2%nat
  else if c0 =? 120 then num u32 16 false 0%nat
  else if (c0 =? 108) && (c1 =? 120) then num i64 16 false 1%nat
  else if (c0 =? 108) && (c1 =? 108) && (c2 =? 120) then num i64 16 false 2%nat
  else if c0 =? 112 then x ← va_num ap; printptr fd (u64 x.1) ;; mret (0%nat, x.2)
  else if c0 =? 99 then x ← va_num ap; putc fd (u32 x.1) ;; mret (0%nat, x.2)
  else if c0 =? 115 then x ← va_str ap; putall fd x.1 ;; mret (0%nat, x.2)
  else if c0 =? 37 then putc fd 37 ;; mret (0%nat, ap)
  else putc fd 37 ;; putc fd c0 ;; mret (0%nat, ap).

(** The loop of [vprintf]; [pct] is [state == '%'], and [skip] characters belong
    to the last conversion. *)
Fixpoint vprintf_loop (fd : nat) (fmt : list Z) (skip : nat) (pct : bool) (ap : list varg) : U unit :=
  match fmt, skip with
  | [], _ => mret tt
  | _ :: fmt', S k => vprintf_loop fd fmt' k pct ap
  | c0 :: fmt', O =>
      if negb pct then
        if c0 =? 37 then vprintf_loop fd fmt' 0 true ap
        else putc fd c0 ;; vprintf_loop fd fmt' 0 false ap
      else
        r ← vprintf_conv fd c0 (default 0 (fmt' !! 0%nat)) (default 0 (fmt' !! 1%nat)) ap;
        vprintf_loop fd fmt' r.1 false r.2
  end.

Definition vprintf (fd : nat) (fmt : list Z) (ap : list varg) : U unit := vprintf_loop fd fmt 0 false ap.
Definition fprintf (fd : nat) (fmt : list Z) (ap : list varg) : U unit := vprintf fd fmt ap.
Definition printf (fmt : list Z) (ap : list varg) : U unit := vprintf 1 fmt ap.

(** ** What the calls do when the kernel lets them *)

(** The world in which descriptor [fd] still has [l] to be read. *)
Definition feeding (fd : nat) (l rs o : list Z) (w : world) : world :=
  mkWorld (w_files w) (<[fd := Some (F_in l)]> (w_fds w)) rs (w_writes w) o (w_err w).

Definition no_errors (rs : list Z) : Prop := Forall (fun n => 0 <= n) rs.

Lemma read_feeding fd k l rs o w :
  (fd < length (w_fds w))%nat -> no_errors rs ->
  exists n, read fd k (feeding fd l rs o w) = U_ok (Z.of_nat n, take n l) (feeding fd (drop n l) (tail rs) o w) /\
    (n <= k)%nat /\ (n <= length l)%nat /\ ((0 < k)%nat -> l <> [] -> (0 < n)%nat) /\ no_errors (tail rs).
Proof.
  intros Hfd Hrs. set (n := read_size (default (Z.of_nat k) (head rs)) k (length l)). exists n.
  assert (Hw : (default (Z.of_nat k) (head rs) <? 0) = false).
  { apply Z.ltb_ge. destruct Hrs; cbn; lia. }
  split; [|split; [|split; [|split]]].
  - unfold read. cbn [w_fds feeding w_reads]. rewrite list_lookup_insert_eq by done. rewrite Hw. fold n.
    unfold w_set_fds, w_set_reads, feeding. cbn. by rewrite list_insert_insert_eq.
  - unfold n, read_size. lia.
  - unfold n, read_size. lia.
  - intros Hk Hl. unfold n, read_size. destruct l; [done|]. cbn [length]. lia.
  - destruct Hrs; [constructor|done].
Qed.

(** An output that takes everything. *)
Definition writable (fd : nat) (w : world) : Prop :=
  w_writes w = [] /\ (w_fds w !! fd = Some (Some F_out) \/ w_fds w !! fd = Some (Some F_err)).

Definition emit (fd : nat) (bs : list Z) (w : world) : world :=
  match w_fds w !! fd with
  | Some (Some F_err) => w_set_err (w_err w ++ bs) w
  | _ => w_set_out (w_out w ++ bs) w
  end.

Lemma emit_nil fd w : emit fd [] w = w.
Proof. unfold emit. destruct w. cbn. destruct (_ !! fd) as [[[]|]|]; unfold w_set_out, w_set_err; cbn; by rewrite app_nil_r. Qed.

Lemma emit_app fd a b w : emit fd b (emit fd a w) = emit fd (a ++ b) w.
Proof.
  unfold emit. destruct (w_fds w !! fd) as [[[]|]|] eqn:E; cbn; rewrite E; unfold w_set_out, w_set_err; cbn;
    by rewrite app_assoc.
Qed.

Lemma writable_emit fd bs w : writable fd w -> writable fd (emit fd bs w).
Proof. intros H. unfold emit. destruct (w_fds w !! fd) as [[[]|]|]; exact H. Qed.

Lemma write_run fd bs w : writable fd w -> write fd bs w = U_ok (Z.of_nat (length bs)) (emit fd bs w).
Proof.
  intros [Hw Hf]. unfold write, emit. rewrite Hw. cbn [default head tail from_option].
  assert (Hl : (Z.of_nat (length bs) <? 0) = false) by (apply Z.ltb_ge; lia).
  rewrite Nat2Z.id, Nat.min_id, take_ge by done.
  assert (Hs : w_set_writes [] w = w) by (destruct w; cbn in Hw; by rewrite Hw).
  destruct Hf as [-> | ->]; cbn; rewrite Hl, Hs; done.
Qed.

Lemma putc_run fd c w : writable fd w -> putc fd c w = U_ok tt (emit fd [u8 c] w).
Proof. intros Hw. unfold putc. by rewrite (ubind_ok _ _ _ _ _ (write_run fd [u8 c] w Hw)). Qed.

Lemma u8_byte c : is_byte c -> u8 c = c.
Proof. intros H. apply Z.mod_small. ints. lia. Qed.

Lemma uputall_run fd l w : writable fd w -> Forall is_byte l -> putall fd l w = U_ok tt (emit fd l w).
Proof.
  intros Hw Hl. revert w Hw. induction Hl as [|c l Hc Hl IH]; intros w Hw; cbn [putall].
  - by rewrite emit_nil.
  - rewrite (ubind_ok _ _ _ _ _ (putc_run fd c w Hw)), IH by by apply writable_emit.
    by rewrite emit_app, u8_byte.
Qed.

Lemma udigit_ok : digits_ok udigit.
Proof.
  intros d H. unfold undigit, udigit. ints.
  destruct (Z.ltb_spec d 10); [destruct (Z.ltb_spec (48 + d) 58)|
    destruct (Z.ltb_spec (55 + d) 58), (Z.ltb_spec (55 + d) 97)]; lia.
Qed.

(** [printint] prints, and its buffer of 20 bytes is large enough. *)
Lemma printint_run fd xx base (sgn : bool) w :
  writable fd w -> base = 10 \/ base = 16 -> -2^63 <= xx < 2^64 -> (sgn = true -> xx < 2^63) ->
  exists l, printint fd xx base sgn w = U_ok tt (emit fd l w) /\ Forall is_byte l /\
    to_number base l = if sgn then xx else u64 xx.
Proof.
  intros Hw Hb Hr Hs. destruct (int_buf_spec udigit xx base sgn udigit_ok Hb Hr Hs) as (l & Hl & Hn & Hf & Hv).
  exists (reverse l). unfold printint. rewrite Hl. split; [|by split; [apply Forall_reverse|]].
  by apply uputall_run, Forall_reverse.
Qed.

(** ** Formatted output: the text that a format and its arguments stand for *)

Inductive piece : Type :=
| P_text (l : list Z)
| P_int (x : Z)
| P_str (s : list Z).

Definition piece_ok (p : piece) : Prop :=
  match p with
  | P_text l => Forall (fun c => is_byte c /\ c <> 37) l
  | P_int x => is_i32 x
  | P_str s => Forall is_byte s
  end.

Definition piece_fmt (p : piece) : list Z :=
  match p with P_text l => l | P_int _ => [37; 100] | P_str _ => [37; 115] end.

Definition piece_arg (p : piece) : list varg :=
  match p with P_text _ => [] | P_int x => [A_num x] | P_str s => [A_str (Some s)] end.

(** The numeral that [printint] prints for an [int]. *)
Definition numeral (x : Z) : list Z := reverse (default [] (int_buf udigit x 10 true)).

Definition piece_text (p : piece) : list Z :=
  match p with P_text l => l | P_int x => numeral x | P_str s => s end.

Lemma printint_int fd x w :
  writable fd w -> is_i32 x -> printint fd x 10 true w = U_ok tt (emit fd (numeral x) w).
Proof.
  intros Hw Hx. ints.
  destruct (int_buf_spec udigit x 10 true udigit_ok) as (l & Hl & _ & Hf & _); [by left|lia|lia|].
  unfold printint, numeral. rewrite Hl. by apply uputall_run, Forall_reverse.
Qed.

Lemma vprintf_text fd l fmt ap w :
  writable fd w -> Forall (fun c => is_byte c /\ c <> 37) l ->
  vprintf_loop fd (l ++ fmt) 0 false ap w = vprintf_loop fd fmt 0 false ap (emit fd l w).
Proof.
  intros Hw Hl. revert w Hw. induction Hl as [|c l [Hb Hc] Hl IH]; intros w Hw; cbn [app vprintf_loop].
  - by rewrite emit_nil.
  - rewrite (proj2 (Z.eqb_neq _ _) Hc). cbn [negb].
    rewrite (ubind_ok _ _ _ _ _ (putc_run fd c w Hw)), IH by by apply writable_emit.
    by rewrite emit_app, u8_byte.
Qed.

Lemma vprintf_piece fd p fmt ap w :
  writable fd w -> piece_ok p ->
  vprintf_loop fd (piece_fmt p ++ fmt) 0 false (piece_arg p ++ ap) w =
  vprintf_loop fd fmt 0 false ap (emit fd (piece_text p) w).
Proof.
  intros Hw Hp. destruct p as [l|x|s]; cbn [piece_fmt piece_arg piece_text piece_ok app] in *.
  - by apply vprintf_text.
  - cbn [vprintf_loop Z.eqb Pos.eqb negb]. rewrite ubind_run. unfold vprintf_conv. cbn [Z.eqb Pos.eqb].
    rewrite ubind_run. cbn [va_num mret U_ret fst snd].
    rewrite (ubind_ok _ _ _ _ _ (printint_int fd (i32 x) w Hw (i32_range x))). by rewrite i32_small.
  - cbn [vprintf_loop Z.eqb Pos.eqb negb]. rewrite ubind_run. unfold vprintf_conv. cbn [Z.eqb Pos.eqb andb].
    rewrite ubind_run. cbn [va_str mret U_ret fst snd]. by rewrite (ubind_ok _ _ _ _ _ (uputall_run fd s w Hw Hp)).
Qed.

(** A format made of text, [%d] and [%s] prints the text, the numerals and the
    strings, in order. *)
Lemma vprintf_pieces fd (ps : list piece) w :
  writable fd w -> Forall piece_ok ps ->
  vprintf fd (ps ≫= piece_fmt) (ps ≫= piece_arg) w = U_ok tt (emit fd (ps ≫= piece_text) w).
Proof.
  intros Hw Hp. unfold vprintf. revert w Hw. induction Hp as [|p ps Hp Hps IH]; intros w Hw.
  - cbn. by rewrite emit_nil.
  - cbn [mbind list_bind]. rewrite vprintf_piece by done. fold (mbind (M:=list) piece_fmt ps).
    unfold mbind in IH. rewrite IH by by apply writable_emit. by rewrite emit_app.
Qed.

(** ** Numbers: [atoi] reads what [printint] prints *)

Lemma atoi_loop_number l n :
  Forall (fun c => 48 <= c <= 57) l -> 0 <= n ->
  foldl (fun a c => a * 10 + undigit c) n l < 2^31 ->
  atoi_loop l n = foldl (fun a c => a * 10 + undigit c) n l.
Proof.
  intros Hl. revert n. induction Hl as [|c l Hc Hl IH]; intros n Hn Hlt; [done|].
  cbn [atoi_loop foldl] in *. rewrite (proj2 (Z.leb_le _ _)), (proj2 (Z.leb_le _ _)) by lia. cbn [andb].
  assert (Hu : undigit c = c - 48) by (unfold undigit; destruct (Z.ltb_spec c 58); lia).
  assert (Hmono : forall l m, Forall (fun c => 48 <= c <= 57) l -> 0 <= m -> m <= foldl (fun a c => a * 10 + undigit c) m l).
  { clear. intros l m Hl. revert m. induction Hl as [|c l Hc Hl IH]; intros m Hm; cbn; [lia|].
    assert (Hu : undigit c = c - 48) by (unfold undigit; destruct (Z.ltb_spec c 58); lia).
    etransitivity; [|apply IH]; lia. }
  specialize (Hmono l (n * 10 + undigit c) Hl ltac:(lia)).
  rewrite i32_small by (ints; lia). rewrite <- IH; [|lia|done]. f_equal. lia.
Qed.

Lemma int_digits_decimal room x l :
  int_digits udigit room x 10 = Some l -> Forall (fun c => 48 <= c <= 57) l.
Proof.
  revert x l. induction room as [|r IH]; intros x l; cbn [int_digits]; [done|].
  assert (Hd : 48 <= udigit (x `mod` 10) <= 57).
  { pose proof (Z.mod_pos_bound x 10). unfold udigit. destruct (Z.ltb_spec (x `mod` 10) 10); lia. }
  destruct (x / 10 =? 0); [intros [= <-]; by apply Forall_singleton|].
  intros (l' & Hl & [= <-])%bind_Some. constructor; eauto.
Qed.

(** [atoi] of the user library reads back every non-negative number that
    [printint] prints with [%d]; the digits buffer is large enough. *)
Theorem atoi_printint fd x w :
  writable fd w -> 0 <= x < 2^31 ->
  exists l, printint fd x 10 true w = U_ok tt (emit fd l w) /\ atoi l = x.
Proof.
  intros Hw Hx. exists (numeral x). split; [apply printint_int; [done|ints; lia]|].
  unfold numeral, int_buf. rewrite (proj2 (Z.ltb_ge _ _)) by lia. cbn [andb].
  rewrite u64_small by (ints; lia).
  destruct (int_digits_spec udigit 20 20 x 10 udigit_ok) as (l & Hl & _ & Hf & Hv); [lia|lia|lia|].
  rewrite Hl. cbn [mbind option_bind default]. unfold id, atoi.
  unfold to_nat_number in Hv. rewrite <- Hv. apply atoi_loop_number; [|lia|lia].
  apply Forall_reverse. by eapply int_digits_decimal.
Qed.

(** [strcmp] finds equal strings equal, and others different. *)
Lemma strcmp_eq p q :
  Forall (fun c => is_byte c /\ c <> 0) p -> Forall (fun c => is_byte c /\ c <> 0) q ->
  strcmp p q = 0 <-> p = q.
Proof.
  intros Hp. revert q. induction Hp as [|c p [Hc Hc0] Hp IH]; intros q Hq; destruct Hq as [|d q [Hd Hd0] Hq]; cbn [strcmp].
  - done.
  - rewrite u8_byte by done. split; [lia|done].
  - rewrite u8_byte by done. split; [done|done].
  - destruct (Z.eqb_spec c d) as [->|Hne].
    + rewrite IH by done. split; [by intros ->|by intros [=]].
    + rewrite !u8_byte by done. split; [lia|by intros [=]].
Qed.

(** The line that [gets] returns. *)
Fixpoint first_line (k : nat) (l : list Z) : list Z :=
  match k, l with
  | S k', c :: l' => c :: (if (c =? 10) || (c =? 13) then [] else first_line k' l')
  | _, _ => []
  end.

Lemma gets_loop_run k g l rs o w :
  (0 < length (w_fds w))%nat -> no_errors rs ->
  exists rs', gets_loop k g (feeding 0 l rs o w) =
      U_ok (g ++ first_line k l) (feeding 0 (drop (length (first_line k l)) l) rs' o w) /\ no_errors rs'.
Proof.
  intros Hf. revert g l rs. induction k as [|k IH]; intros g l rs Hrs; cbn [gets_loop first_line].
  - exists rs. split; [|done]. by rewrite app_nil_r, drop_0.
  - destruct (read_feeding 0 1 l rs o w Hf Hrs) as (n & E & Hk & Hl & Hpos & Hrs').
    rewrite (ubind_ok _ _ _ _ _ E). cbn [snd]. destruct l as [|c l].
    + exists (tail rs). rewrite !take_nil, !drop_nil. cbn. by rewrite app_nil_r.
    + assert (n = 1)%nat as -> by (specialize (Hpos ltac:(lia) ltac:(done)); lia). cbn [firstn skipn].
      destruct ((c =? 10) || (c =? 13)); [by exists (tail rs)|].
      rewrite drop_0. destruct (IH (g ++ [c]) l (tail rs) Hrs') as (rs' & -> & H'). exists rs'. by rewrite <- app_assoc.
Qed.

Definition console_world : world := mkWorld (fun _ => None) [None; Some F_out; Some F_err] [] [] [] [].

Lemma atoi_printint_witness :
  exists l, printint 1 2026 10 true console_world = U_ok tt (emit 1 l console_world) /\ atoi l = 2026.
Proof. apply (atoi_printint 1 2026 console_world); [split; [done|by left]|lia]. Defined.
