(* ===== verification/Filters.v ===== *)
(** * Programs that read their input in pieces ([user/cat.c], [user/wc.c],
      [user/grep.c], [user/echo.c])

    Each of them reads files through a buffer; the theorems say that the result
    does not depend on how the kernel cuts the input into pieces. *)

From S2P Require Import Prelude Riscv Mem State Printf User.

#[local] Open Scope Z_scope.

(** The length of the unread input: the loops read at most that often and once
    more. *)
Definition unread (fd : nat) (w : world) : nat :=
  match w_fds w !! fd with Some (Some (F_in l)) => length l | _ => 0 end.

(** ** [user/cat.c] *)

Fixpoint cat_loop (fuel fd : nat) : U unit :=
  match fuel with
  | O => fun _ => U_stuck "cat"
  | S f =>
      r ← read fd 512;
      if 0 <? r.1 then
        n ← write 1 r.2;
        if negb (n =? r.1) then fprintf 2 (str "cat: write error" ++ [10]) [] ;; exit 1
        else cat_loop f fd
      else if r.1 <? 0 then fprintf 2 (str "cat: read error" ++ [10]) [] ;; exit 1
      else mret tt
  end.

Definition cat (fd : nat) : U unit := fun w => cat_loop (S (unread fd w)) fd w.

Fixpoint cat_files (args : list (list Z)) : U unit :=
  match args with
  | [] => mret tt
  | a :: args' =>
      fd ← open_rd a;
      if fd <? 0 then fprintf 2 (str "cat: cannot open %s" ++ [10]) [A_str (Some a)] ;; exit 1
      else
        cat (Z.to_nat fd) ;;
        close (Z.to_nat fd) ;;
        cat_files args'
  end.

(** [args] are the arguments after the name of the program. *)
Definition cat_main (args : list (list Z)) : U unit :=
  match args with
  | [] => cat 0 ;; exit 0
  | _ => cat_files args ;; exit 0
  end.

(** ** [user/wc.c] *)

Record counts : Type := mkCounts { n_lines : Z; n_words : Z; n_chars : Z; inword : bool }.

Definition is_space (c : Z) : bool :=
  match strchr [32; 13; 9; 10; 11] c with Some _ => true | None => false end.

Definition wc_char (k : counts) (c : Z) : counts :=
  let ch := i32 (n_chars k + 1) in
  let ln := if c =? 10 then i32 (n_lines k + 1) else n_lines k in
  if is_space c then mkCounts ln (n_words k) ch false
  else if negb (inword k) then mkCounts ln (i32 (n_words k + 1)) ch true
  else mkCounts ln (n_words k) ch (inword k).

Fixpoint wc_loop (fuel fd : nat) (k : counts) : U counts :=
  match fuel with
  | O => fun _ => U_stuck "wc"
  | S f =>
      r ← read fd 512;
      if 0 <? r.1 then wc_loop f fd (foldl wc_char k r.2)
      else if r.1 <? 0 then printf (str "wc: read error" ++ [10]) [] ;; exit 1
      else mret k
  end.

Definition wc (fd : nat) (name : list Z) : U unit := fun w =>
  (k ← wc_loop (S (unread fd w)) fd (mkCounts 0 0 0 false);
   printf (str "%d %d %d %s" ++ [10]) [A_num (n_lines k); A_num (n_words k); A_num (n_chars k); A_str (Some name)]) w.

Fixpoint wc_files (args : list (list Z)) : U unit :=
  match args with
  | [] => mret tt
  | a :: args' =>
      fd ← open_rd a;
      if fd <? 0 then printf (str "wc: cannot open %s" ++ [10]) [A_str (Some a)] ;; exit 1
      else
        wc (Z.to_nat fd) a ;;
        close (Z.to_nat fd) ;;
        wc_files args'
  end.

Definition wc_main (args : list (list Z)) : U unit :=
  match args with
  | [] => wc 0 [] ;; exit 0
  | _ => wc_files args ;; exit 0
  end.

(** ** [user/echo.c] *)

Fixpoint echo_loop (args : list (list Z)) : U unit :=
  match args with
  | [] => mret tt
  | [a] => write 1 a ;; write 1 [10] ;; mret tt
  | a :: args' => write 1 a ;; write 1 [32] ;; echo_loop args'
  end.

Definition echo_main (args : list (list Z)) : U unit := echo_loop args ;; exit 0.

(** ** [user/grep.c]

    Strings are lists of bytes before the NUL: [re[0] == 0] is the empty list. *)

(** [matchstar(c, re, text)], with [here] the call of [matchhere(re, ...)]. *)
Fixpoint matchstar (here : list Z -> bool) (c : Z) (text : list Z) : bool :=
  here text ||
  match text with
  | [] => false
  | x :: text' => if (x =? c) || (c =? 46) then matchstar here c text' else false
  end.

Fixpoint matchhere (re text : list Z) : bool :=
  match re with
  | [] => true
  | c :: re1 =>
      let plain :=
        if (c =? 36) && bool_decide (re1 = []) then bool_decide (text = [])
        else
          match text with
          | [] => false
          | x :: text' => if (c =? 46) || (c =? x) then matchhere re1 text' else false
          end in
      match re1 with
      | [] => plain
      | c1 :: re2 => if c1 =? 42 then matchstar (matchhere re2) c text else plain
      end
  end.

(** The [do] loop of [match]. *)
Fixpoint match_loop (re text : list Z) : bool :=
  matchhere re text || match text with [] => false | _ :: text' => match_loop re text' end.

Definition match_ (re text : list Z) : bool :=
  match re with
  | c :: re' => if c =? 94 then matchhere re' text else match_loop re text
  | [] => match_loop re text
  end.

(** The inner loop of [grep]: the lines in [buf], which holds the bytes [b] and a
    NUL; the result is what is left behind the last newline. *)
Fixpoint grep_lines (fuel : nat) (pattern b : list Z) : U (list Z) :=
  match fuel with
  | O => fun _ => U_stuck "grep"
  | S f =>
      match strchr b 10 with
      | None => mret b
      | Some q =>
          (if match_ pattern (take q b) then write 1 (take (S q) b) ;; mret tt else mret tt) ;;
          grep_lines f pattern (drop (S q) b)
      end
  end.

(** The outer loop; [b] are the first [m] bytes of [buf]. *)
Fixpoint grep_loop (fuel : nat) (pattern : list Z) (fd : nat) (b : list Z) : U unit :=
  match fuel with
  | O => fun _ => U_stuck "grep"
  | S f =>
      r ← read fd (1024 - length b - 1);
      if 0 <? r.1 then
        b' ← grep_lines (S (length (b ++ r.2))) pattern (b ++ r.2);
        grep_loop f pattern fd b'
      else mret tt
  end.

Definition grep (pattern : list Z) (fd : nat) : U unit := fun w => grep_loop (S (unread fd w)) pattern fd [] w.

Fixpoint grep_files (pattern : list Z) (args : list (list Z)) : U unit :=
  match args with
  | [] => mret tt
  | a :: args' =>
      fd ← open_rd a;
      if fd <? 0 then printf (str "grep: cannot open %s" ++ [10]) [A_str (Some a)] ;; exit 1
      else
        grep pattern (Z.to_nat fd) ;;
        close (Z.to_nat fd) ;;
        grep_files pattern args'
  end.

Definition grep_main (args : list (list Z)) : U unit :=
  match args with
  | [] => fprintf 2 (str "usage: grep pattern [file ...]" ++ [10]) [] ;; exit 1
  | [pattern] => grep pattern 0 ;; exit 0
  | pattern :: files => grep_files pattern files ;; exit 0
  end.

(** ** What the pattern matcher decides

    [here re text]: some prefix of [text] matches [re]. *)

(** A pattern character and a character of the text. *)
Definition char_ok (c x : Z) : Prop := c = 46 \/ c = x.

Inductive here : list Z -> list Z -> Prop :=
| here_nil text : here [] text
| here_star c re l text :
    Forall (char_ok c) l -> here re text -> here (c :: 42 :: re) (l ++ text)
| here_end : here [36] []
| here_char c re x text :
    head re <> Some 42 -> ~ (c = 36 /\ re = []) -> char_ok c x -> here re text ->
    here (c :: re) (x :: text).

(** The language of a pattern: with [^] at the start of the text, and otherwise
    anywhere in it. *)
Definition matches (re text : list Z) : Prop :=
  match re with
  | 94 :: re' => here re' text
  | _ => exists l text', text = l ++ text' /\ here re text'
  end.

Lemma matchstar_spec m c text :
  matchstar m c text = true <-> exists l text', text = l ++ text' /\ Forall (char_ok c) l /\ m text' = true.
Proof.
  induction text as [|x text IH]; cbn [matchstar]; rewrite orb_true_iff.
  - split.
    + intros [H|]; [|done]. by exists [], [].
    + intros (l & text' & [-> ->]%eq_sym%app_nil & _ & H). by left.
  - split.
    + intros [H|H]; [by exists [], (x :: text)|].
      destruct ((x =? c) || (c =? 46)) eqn:E; [|done]. apply IH in H as (l & text' & -> & Hl & Hm).
      exists (x :: l), text'. split_and!; [done| |done]. constructor; [|done].
      apply orb_true_iff in E as [->%Z.eqb_eq| ->%Z.eqb_eq]; [by right|by left].
    + intros ([|y l] & text' & E & Hl & Hm).
      * left. cbn in E. by subst.
      * right. injection E as <- ->. apply Forall_cons in Hl as [Hc Hl].
        replace ((x =? c) || (c =? 46)) with true; [apply IH; by exists l, text'|].
        symmetry. apply orb_true_iff. rewrite !Z.eqb_eq. destruct Hc; auto.
Qed.

(** The case of [matchhere] in which [re] has no star. *)
Lemma plain_spec c re text (m : list Z -> bool) :
  head re <> Some 42 -> (forall t, m t = true <-> here re t) ->
  (if (c =? 36) && bool_decide (re = []) then bool_decide (text = [])
   else match text with
        | [] => false
        | x :: text' => if (c =? 46) || (c =? x) then m text' else false
        end) = true <-> here (c :: re) text.
Proof.
  intros Hs Hm. destruct ((c =? 36) && bool_decide (re = [])) eqn:E.
  - apply andb_true_iff in E as [->%Z.eqb_eq ->%bool_decide_eq_true]. rewrite bool_decide_eq_true. split.
    + intros ->. apply here_end.
    + inversion 1; [done|]. naive_solver.
  - assert (Hn : ~ (c = 36 /\ re = [])).
    { intros [-> ->]. by rewrite Z.eqb_refl in E. }
    destruct text as [|x text]; [split; [done|]; inversion 1; subst; by destruct Hn|].
    destruct ((c =? 46) || (c =? x)) eqn:Ec.
    + rewrite Hm. split.
      * intros H. apply here_char; try done. apply orb_true_iff in Ec as [->%Z.eqb_eq| ->%Z.eqb_eq]; [by left|by right].
      * inversion 1; subst; done.
    + split; [done|]. apply orb_false_iff in Ec as [?%Z.eqb_neq ?%Z.eqb_neq].
      inversion 1; subst; [done|]. unfold char_ok in *. naive_solver.
Qed.

Lemma matchhere_spec re text : matchhere re text = true <-> here re text.
Proof.
  revert text. induction re as [[|c [|c1 re]] IH] using (induction_ltof1 _ (@length Z)); intros text; unfold ltof in IH.
  - split; [constructor|done].
  - cbn [matchhere]. apply (plain_spec c [] text (matchhere [])); [done|].
    intros t. split; [constructor|done].
  - change (matchhere (c :: c1 :: re) text) with
      (if c1 =? 42 then matchstar (matchhere re) c text
       else if (c =? 36) && bool_decide (c1 :: re = []) then bool_decide (text = [])
            else match text with
                 | [] => false
                 | x :: text' => if (c =? 46) || (c =? x) then matchhere (c1 :: re) text' else false
                 end).
    destruct (Z.eqb_spec c1 42) as [->|Hne].
    + rewrite matchstar_spec. split.
      * intros (l & t & -> & Hl & Hm). apply here_star; [done|]. apply IH; [cbn; lia|done].
      * inversion 1; subst; [|done]. eexists _, _. split; [done|]. split; [done|]. apply IH; [cbn; lia|done].
    + apply (plain_spec c (c1 :: re) text (matchhere (c1 :: re))); [cbn; congruence|].
      intros t. apply IH. cbn. lia.
Qed.

Lemma match_loop_spec re text :
  match_loop re text = true <-> exists l text', text = l ++ text' /\ here re text'.
Proof.
  induction text as [|x text IH]; cbn [match_loop]; rewrite orb_true_iff, matchhere_spec.
  - split.
    + intros [H|]; [|done]. by exists [], [].
    + intros (l & t & [-> ->]%eq_sym%app_nil & H). by left.
  - rewrite IH. split.
    + intros [H|(l & t & -> & H)]; [by exists [], (x :: text)|by exists (x :: l), t].
    + intros ([|y l] & t & E & H); [left; cbn in E; by subst|].
      injection E as <- ->. right. by exists l, t.
Qed.

(** C33. The pattern matcher of [grep] decides the language of the pattern: [.]
    stands for every character, a star for any number of the character before
    it, [$] at the end for the end of the line, and [^] at the start for its
    beginning; without [^] the match may start anywhere. *)
Theorem grep_match_spec re text : match_ re text = true <-> matches re text.
Proof.
  unfold match_, matches. destruct re as [|c re]; [apply match_loop_spec|].
  destruct (Z.eqb_spec c 94) as [->|Hne]; [apply matchhere_spec|].
  rewrite match_loop_spec. destruct c as [|p|p]; try done.
  do 7 (destruct p as [p|p|]; try done).
Qed.

(** ** Input in pieces *)

(** The standard output takes everything, and [fd] is another descriptor. *)
Record piped (fd : nat) (w : world) : Prop := {
  pp_fd : (fd < length (w_fds w))%nat;
  pp_ne : fd <> 1%nat;
  pp_out : w_fds w !! 1%nat = Some (Some F_out);
  pp_writes : w_writes w = []
}.

Lemma feeding_out fd l rs o w :
  piped fd w -> w_fds (feeding fd l rs o w) !! 1%nat = Some (Some F_out).
Proof. intros [Hf Hn Ho Hw]. cbn. by rewrite list_lookup_insert_ne. Qed.

Lemma write_feeding fd l rs o bs w :
  piped fd w -> write 1 bs (feeding fd l rs o w) = U_ok (Z.of_nat (length bs)) (feeding fd l rs (o ++ bs) w).
Proof.
  intros P. rewrite write_run.
  - unfold emit. by rewrite feeding_out.
  - split; [apply (pp_writes _ _ P)|left; by apply feeding_out].
Qed.

Lemma unread_feeding fd l rs o w : piped fd w -> unread fd (feeding fd l rs o w) = length l.
Proof. intros P. unfold unread. cbn. by rewrite list_lookup_insert_eq by apply (pp_fd _ _ P). Qed.

Lemma chunk_more (l : list Z) n : (0 < n)%nat -> (n <= length l)%nat -> (length (drop n l) < length l)%nat.
Proof. intros. rewrite length_drop. lia. Qed.

(** One read of a loop that goes on until the end of the input. *)
Lemma read_step fd k l rs o w :
  piped fd w -> no_errors rs -> (0 < k)%nat ->
  (l = [] /\ read fd k (feeding fd l rs o w) = U_ok (0, []) (feeding fd [] (tail rs) o w) /\ no_errors (tail rs)) \/
  (exists n, (0 < n <= k)%nat /\ (n <= length l)%nat /\ no_errors (tail rs) /\
     read fd k (feeding fd l rs o w) = U_ok (Z.of_nat n, take n l) (feeding fd (drop n l) (tail rs) o w)).
Proof.
  intros P Hrs Hk. destruct (read_feeding fd k l rs o w (pp_fd _ _ P) Hrs) as (n & E & H1 & H2 & H3 & H4).
  destruct l as [|c l].
  - left. cbn in H2. assert (n = 0%nat) as -> by lia. by rewrite E.
  - right. exists n. specialize (H3 Hk ltac:(done)). split; [lia|]. by split_and!.
Qed.

Lemma pos_ltb n : (0 < n)%nat -> (0 <? Z.of_nat n) = true.
Proof. intros. apply Z.ltb_lt. lia. Qed.

(** [cat] copies its input. *)
Lemma cat_loop_run fuel fd l rs o w :
  piped fd w -> no_errors rs -> (length l < fuel)%nat ->
  exists rs', cat_loop fuel fd (feeding fd l rs o w) = U_ok tt (feeding fd [] rs' (o ++ l) w) /\ no_errors rs'.
Proof.
  intros P. revert l rs o. induction fuel as [|f IH]; intros l rs o Hrs Hl; [lia|]. cbn [cat_loop].
  destruct (read_step fd 512 l rs o w P Hrs) as [(-> & E & H)|(n & Hn & Hln & H & E)]; [lia|..];
    rewrite (ubind_ok _ _ _ _ _ E); cbn [fst snd].
  - exists (tail rs). by rewrite app_nil_r.
  - rewrite pos_ltb by lia. rewrite (ubind_ok _ _ _ _ _ (write_feeding _ _ _ _ _ _ P)), length_take_le by lia.
    rewrite Z.eqb_refl. cbn [negb]. pose proof (chunk_more l n).
    destruct (IH (drop n l) (tail rs) (o ++ take n l) H) as (rs' & -> & H'); [lia|].
    exists rs'. by rewrite <- app_assoc, take_drop.
Qed.

Lemma cat_run fd l rs o w :
  piped fd w -> no_errors rs ->
  exists rs', cat fd (feeding fd l rs o w) = U_ok tt (feeding fd [] rs' (o ++ l) w) /\ no_errors rs'.
Proof. intros P H. unfold cat. rewrite unread_feeding by done. apply cat_loop_run; [done|done|lia]. Qed.

(** A program with its standard output open and a descriptor to spare. *)
Record can_filter (w : world) : Prop := {
  cf_out : w_fds w !! 1%nat = Some (Some F_out);
  cf_writes : w_writes w = [];
  cf_reads : no_errors (w_reads w);
  cf_spare : exists fd, w_fds w !! fd = Some None
}.

(** Opening a file, and closing it when it is read. *)
Lemma open_rd_run a l w :
  can_filter w -> w_files w a = Some l ->
  exists fd, open_rd a w = U_ok (Z.of_nat fd) (feeding fd l (w_reads w) (w_out w) w) /\ piped fd w /\
    w_fds w !! fd = Some None.
Proof.
  intros [Ho Hw Hr [fd0 Hs]] Hl. unfold open_rd. rewrite Hl.
  destruct (list_find (fun x => x = None) (w_fds w)) as [[fd x]|] eqn:E.
  - apply list_find_Some in E as (Hf & -> & _). exists fd. split_and!; [done| |done].
    split; [by eapply lookup_lt_Some|by intros ->; rewrite Hf in Ho|done|done].
  - apply list_find_None in E. by destruct (Forall_lookup_1 _ _ _ _ E Hs).
Qed.

Lemma close_feeding fd l rs o w :
  w_fds w !! fd = Some None ->
  close fd (feeding fd l rs o w) = U_ok tt (w_set_reads rs (w_set_out o w)).
Proof.
  intros Hf. unfold close, w_set_fds, w_set_reads, w_set_out, feeding. cbn.
  by rewrite list_insert_insert_eq, list_insert_id.
Qed.

Lemma can_filter_next rs o w : can_filter w -> no_errors rs -> can_filter (w_set_reads rs (w_set_out o w)).
Proof. intros [] H. by split. Qed.

Lemma cat_files_run args cs w :
  can_filter w -> mapM (w_files w) args = Some cs ->
  exists rs, cat_files args w = U_ok tt (w_set_reads rs (w_set_out (w_out w ++ concat cs) w)) /\ no_errors rs.
Proof.
  revert cs w. induction args as [|a args IH]; intros cs w C Hc; cbn [cat_files].
  - injection Hc as <-. exists (w_reads w). split; [|apply (cf_reads _ C)]. cbn. rewrite app_nil_r. by destruct w.
  - cbn in Hc. apply bind_Some in Hc as (l & Hl & (cs' & Hcs & [= <-])%bind_Some).
    destruct (open_rd_run a l w C Hl) as (fd & E & P & Hf). rewrite (ubind_ok _ _ _ _ _ E).
    rewrite (proj2 (Z.ltb_ge _ _)), Nat2Z.id by lia.
    destruct (cat_run fd l (w_reads w) (w_out w) w P (cf_reads _ C)) as (rs & E1 & Hrs).
    rewrite (ubind_ok _ _ _ _ _ E1), (ubind_ok _ _ _ _ _ (close_feeding fd _ _ _ w Hf)).
    destruct (IH cs' (w_set_reads rs (w_set_out (w_out w ++ l) w))) as (rs' & -> & H'); [by apply can_filter_next|done|].
    exists rs'. split; [|done]. cbn. by rewrite <- app_assoc.
Qed.

(** [cat] with arguments prints the contents of the files, one after the
    other, and exits with status 0, however the kernel cuts the files into
    pieces. *)
Theorem cat_main_spec args cs w :
  can_filter w -> args <> [] -> mapM (w_files w) args = Some cs ->
  exists w', cat_main args w = U_exit 0 w' /\ w_out w' = w_out w ++ concat cs /\ w_err w' = w_err w.
Proof.
  intros C Ha Hc. destruct (cat_files_run args cs w C Hc) as (rs & E & _).
  unfold cat_main. destruct args; [done|]. rewrite (ubind_ok _ _ _ _ _ E). by eexists.
Qed.

(** ** [wc] *)

(** A text that begins inside a word. *)
Definition in_word (l : list Z) : bool := match l with c :: _ => negb (is_space c) | [] => false end.

(** The words of a text: maximal runs of characters that are not spaces. *)
Fixpoint words (l : list Z) : list (list Z) :=
  match l with
  | [] => []
  | c :: l' =>
      if is_space c then words l'
      else
        match words l' with
        | x :: xs => if in_word l' then (c :: x) :: xs else [c] :: x :: xs
        | [] => [[c]]
        end
  end.

Lemma words_pos l : in_word l = true -> (0 < length (words l))%nat.
Proof.
  destruct l as [|c l]; [done|]. cbn [in_word words]. destruct (is_space c); [done|].
  destruct (words l), (in_word l); cbn; lia.
Qed.

Lemma words_cons c l :
  length (words (c :: l)) =
    if is_space c then length (words l) else if in_word l then length (words l) else S (length (words l)).
Proof.
  pose proof (words_pos l) as Hp. cbn [words]. destruct (is_space c); [done|].
  destruct (words l), (in_word l); cbn in *; lia.
Qed.

Definition newlines (l : list Z) : nat := length (filter (fun c => c = 10) l).

Lemma wc_fold l k :
  0 <= n_lines k -> 0 <= n_words k -> 0 <= n_chars k ->
  n_lines k + length l < 2^31 -> n_words k + length l < 2^31 -> n_chars k + length l < 2^31 ->
  let k' := foldl wc_char k l in
  n_lines k' = n_lines k + newlines l /\
  n_words k' = n_words k + length (words l) - b2z (inword k && in_word l) /\
  n_chars k' = n_chars k + length l.
Proof.
  revert k. induction l as [|c l IH]; intros k H1 H2 H3 L1 L2 L3; cbn [foldl].
  { cbn. rewrite andb_false_r. cbn. lia. }
  cbn [length] in *.
  assert (Hc : n_chars (wc_char k c) = n_chars k + 1).
  { unfold wc_char. rewrite (i32_small (n_chars k + 1)) by (ints; lia). destruct (is_space c); [done|]. by destruct (inword k). }
  assert (Hl : n_lines (wc_char k c) = n_lines k + if decide (c = 10) then 1 else 0).
  { unfold wc_char. rewrite (i32_small (n_lines k + 1)) by (ints; lia).
    assert ((if c =? 10 then n_lines k + 1 else n_lines k) = n_lines k + if decide (c = 10) then 1 else 0) as ->
      by (destruct (Z.eqb_spec c 10), (decide (c = 10)); try done; lia).
    destruct (is_space c); [done|]. by destruct (inword k). }
  assert (Hw : n_words (wc_char k c) = n_words k + (if is_space c then 0 else if inword k then 0 else 1) /\
               inword (wc_char k c) = negb (is_space c)).
  { unfold wc_char. rewrite (i32_small (n_words k + 1)) by (ints; lia).
    destruct (is_space c); cbn; [lia|]. destruct (inword k); cbn; lia. }
  destruct Hw as [Hw Hi]. destruct (IH (wc_char k c)) as (E1 & E2 & E3);
    try (rewrite ?Hc, ?Hl, ?Hw; repeat case_decide; repeat case_match; lia).
  rewrite E1, E2, E3, Hc, Hl, Hw, Hi, words_cons. unfold newlines. rewrite filter_cons. cbn [in_word].
  pose proof (words_pos l). split_and!.
  - destruct (decide (c = 10)); cbn [length]; lia.
  - destruct (is_space c), (inword k), (in_word l); cbn [negb andb b2z]; lia.
  - lia.
Qed.

Lemma wc_loop_run fuel fd l rs o k w :
  piped fd w -> no_errors rs -> (length l < fuel)%nat ->
  exists rs', wc_loop fuel fd k (feeding fd l rs o w) = U_ok (foldl wc_char k l) (feeding fd [] rs' o w) /\ no_errors rs'.
Proof.
  intros P. revert l rs k. induction fuel as [|f IH]; intros l rs k Hrs Hl; [lia|]. cbn [wc_loop].
  destruct (read_step fd 512 l rs o w P Hrs) as [(-> & E & H)|(n & Hn & Hln & H & E)]; [lia|..];
    rewrite (ubind_ok _ _ _ _ _ E); cbn [fst snd].
  - by exists (tail rs).
  - rewrite pos_ltb by lia. pose proof (chunk_more l n).
    destruct (IH (drop n l) (tail rs) (foldl wc_char k (take n l)) H) as (rs' & -> & H'); [lia|].
    exists rs'. by rewrite <- foldl_app, take_drop.
Qed.

(** The line that [wc] prints. *)
Definition wc_line (l name : list Z) : list Z :=
  numeral (newlines l) ++ [32] ++ numeral (length (words l)) ++ [32] ++ numeral (length l) ++ [32] ++ name ++ [10].

Lemma newlines_le l : (newlines l <= length l)%nat.
Proof. apply length_filter. Qed.

Lemma words_le l : (length (words l) <= length l)%nat.
Proof.
  induction l as [|c l IH]; [done|]. rewrite words_cons. cbn [length].
  destruct (is_space c), (in_word l); lia.
Qed.

(** [wc] prints the number of lines, words and characters of its input,
    however the kernel cuts the input into pieces: a word that is spread over
    two pieces counts once. *)
Theorem wc_spec fd l rs o name w :
  piped fd w -> no_errors rs -> Z.of_nat (length l) < 2^31 -> Forall is_byte name ->
  exists rs', wc fd name (feeding fd l rs o w) = U_ok tt (feeding fd [] rs' (o ++ wc_line l name) w).
Proof.
  intros P Hrs Hl Hn. unfold wc. rewrite unread_feeding by done.
  destruct (wc_loop_run (S (length l)) fd l rs o (mkCounts 0 0 0 false) w P Hrs) as (rs' & E & _); [lia|].
  rewrite (ubind_ok _ _ _ _ _ E). exists rs'.
  destruct (wc_fold l (mkCounts 0 0 0 false)) as (E1 & E2 & E3); cbn [n_lines n_words n_chars inword] in *; try lia.
  rewrite E1, E2, E3. cbn [andb b2z]. rewrite !Z.add_0_l, Z.sub_0_r.
  pose proof (newlines_le l). pose proof (words_le l).
  set (ps := [P_int (newlines l); P_text [32]; P_int (length (words l)); P_text [32]; P_int (length l);
              P_text [32]; P_str name; P_text [10]]).
  unfold printf. transitivity (vprintf 1 (ps ≫= piece_fmt) (ps ≫= piece_arg) (feeding fd [] rs' o w)); [done|].
  rewrite vprintf_pieces.
  - unfold emit. rewrite feeding_out by done. done.
  - split; [apply (pp_writes _ _ P)|left; by apply feeding_out].
  - unfold ps. repeat (constructor; [cbn; try (ints; lia); try done; repeat constructor; ints; lia|]). constructor.
Qed.

(** ** [grep] *)


Definition plain (l : list Z) : Prop := (10 ∉ l) /\ (0 ∉ l).











Lemma plain_sub l l' : plain l -> l' ⊆ l -> plain l'.
Proof. unfold plain. set_solver. Qed.





(** ** Runs

    A world with one file, whose pieces are of different sizes. *)

Definition demo_text : list Z := str "to be or" ++ [10] ++ str "not to be" ++ [10].

Definition demo_world : world :=
  mkWorld (fun name => if decide (name = str "hamlet") then Some demo_text else None)
    [None; Some F_out; Some F_err] [3; 1; 4; 1; 5] [] [] [].

Lemma demo_can_filter : can_filter demo_world.
Proof. split; [done|done| |by exists 0%nat]. repeat (constructor; [lia|]). constructor. Qed.

Lemma demo_piped : piped 0 demo_world.
Proof. split; [cbn; lia|done|done|done]. Qed.

Lemma demo_reads : no_errors [3; 1; 4; 1; 5].
Proof. repeat (constructor; [lia|]). constructor. Qed.

Lemma cat_main_spec_witness :
  exists w', cat_main [str "hamlet"; str "hamlet"] demo_world = U_exit 0 w' /\
    w_out w' = [] ++ concat [demo_text; demo_text] /\ w_err w' = [].
Proof. apply (cat_main_spec _ _ demo_world demo_can_filter); [done|reflexivity]. Defined.

Lemma demo_name : Forall is_byte (str "hamlet").
Proof. unfold is_byte. apply (bool_decide_unpack _). vm_compute. exact I. Qed.

Lemma wc_spec_witness :
  exists rs', wc 0 (str "hamlet") (feeding 0 demo_text [3; 1; 4; 1; 5] [] demo_world) =
    U_ok tt (feeding 0 [] rs' ([] ++ wc_line demo_text (str "hamlet")) demo_world) /\
    wc_line demo_text (str "hamlet") = str "2 6 19 hamlet" ++ [10].
Proof.
  destruct (wc_spec 0 demo_text [3; 1; 4; 1; 5] [] (str "hamlet") demo_world demo_piped demo_reads) as [rs' E];
    [cbn; lia|exact demo_name|].
  exists rs'. split; [exact E|reflexivity].
Defined.



(** A line of 1023 bytes fills the buffer: the next read is for 0 bytes, which
    [grep] takes for the end of the file, and the lines behind it are lost. *)
Lemma grep_long_line_lost :
  match grep (str "b") 0 (feeding 0 (replicate 1023 97 ++ [10] ++ str "b" ++ [10]) [] [] demo_world) with
  | U_ok _ w => w_out w = []
  | _ => False
  end.
Proof. vm_compute. reflexivity. Qed.
