(* ===== verification/Umalloc.v ===== *)
(** * The user-level memory allocator ([user/umalloc.c])

    Memory is seen as headers: [hdrs a] is the header that the 16 bytes at [a]
    hold.  The theorem is about programs that call [malloc] and [free] and write
    to the blocks they own in between. *)

From stdpp Require Import sorting.
From S2P Require Import Prelude Riscv.

#[local] Open Scope Z_scope.

(** ** Data *)

(** [union header]; [sizeof(Header)] is 16. *)
Record header : Type := mkH {
  h_ptr : Z;
  h_size : Z
}.

Definition HSZ : Z := 16.

(** [brk] is the size of the process; an entry of [grants] says whether the kernel
    has memory for the next [sbrk] that asks for more, and it has when the list
    is used up. *)
Record heap : Type := mkHeap {
  hdrs : Z -> header;
  freep : Z;
  brk : Z;
  grants : list bool
}.

Definition set_ptr (a v : Z) (h : heap) : heap :=
  mkHeap (<[a := mkH v (h_size (hdrs h a))]> (hdrs h)) (freep h) (brk h) (grants h).
Definition set_size (a v : Z) (h : heap) : heap :=
  mkHeap (<[a := mkH (h_ptr (hdrs h a)) v]> (hdrs h)) (freep h) (brk h) (grants h).
Definition set_freep (v : Z) (h : heap) : heap := mkHeap (hdrs h) v (brk h) (grants h).
Definition set_brk (v : Z) (g : list bool) (h : heap) : heap := mkHeap (hdrs h) (freep h) v g.

Definition ptr (h : heap) (a : Z) : Z := h_ptr (hdrs h a).
Definition size (h : heap) (a : Z) : Z := h_size (hdrs h a).

(** [sbrk(n)]: what the kernel's [growproc] does to the size of the process.  -1
    is [SBRK_ERROR]. *)
Definition sbrk (n : Z) (h : heap) : Z * heap :=
  if 0 <? n then
    if default true (head (grants h)) && (brk h + n <=? MMAPBASE)
    then (brk h, set_brk (brk h + n) (tail (grants h)) h)
    else (-1, set_brk (brk h) (tail (grants h)) h)
  else if n <? 0 then
    (brk h, set_brk (if brk h <=? u64 (brk h + n) then brk h else u64 (brk h + n)) (grants h) h)
  else (brk h, h).

Section Umalloc.

(** The address of the static variable [base]. *)
Context (base : Z).

(** The loop of [free]: where the block at [bp] belongs. *)
Fixpoint find_place (fuel : nat) (bp p : Z) (h : heap) : option Z :=
  match fuel with
  | O => None
  | S f =>
      if (p <? bp) && (bp <? ptr h p) then Some p
      else if (ptr h p <=? p) && ((p <? bp) || (bp <? ptr h p)) then Some p
      else find_place f bp (ptr h p) h
  end.

(** The rest of [free]: joining the block with its neighbours. *)
Definition join_next (bp p : Z) (h : heap) : heap :=
  if bp + HSZ * size h bp =? ptr h p then
    let h1 := set_size bp (u32 (size h bp + size h (ptr h p))) h in
    set_ptr bp (ptr h1 (ptr h1 p)) h1
  else set_ptr bp (ptr h p) h.

Definition join_prev (bp p : Z) (h : heap) : heap :=
  if p + HSZ * size h p =? bp then
    let h1 := set_size p (u32 (size h p + size h bp)) h in
    set_ptr p (ptr h1 bp) h1
  else set_ptr p bp h.

Definition free (fuel : nat) (ap : Z) (h : heap) : option heap :=
  let bp := ap - HSZ in
  p ← find_place fuel bp (freep h) h;
  Some (set_freep p (join_prev bp p (join_next bp p h))).

(** 0 is the null pointer. *)
Definition morecore (fuel : nat) (nu : Z) (h : heap) : option (Z * heap) :=
  let nu := if nu <? 4096 then 4096 else nu in
  let '(p, h1) := sbrk (i32 (nu * HSZ)) h in
  if p =? -1 then Some (0, h1)
  else
    h2 ← free fuel (p + HSZ) (set_size p nu h1);
    Some (freep h2, h2).

(** The body of the loop of [malloc] when the block at [p] is large enough. *)
Definition carve (nunits prevp p : Z) (h : heap) : Z * heap :=
  if size h p =? nunits then (p + HSZ, set_freep prevp (set_ptr prevp (ptr h p) h))
  else
    let h1 := set_size p (u32 (size h p - nunits)) h in
    let p' := p + HSZ * size h1 p in
    (p' + HSZ, set_freep prevp (set_size p' nunits h1)).

Fixpoint malloc_loop (fuel : nat) (nunits prevp p : Z) (h : heap) : option (Z * heap) :=
  match fuel with
  | O => None
  | S f =>
      if nunits <=? size h p then Some (carve nunits prevp p h)
      else if p =? freep h then
        r ← morecore f nunits h;
        if r.1 =? 0 then Some (0, r.2)
        else malloc_loop f nunits r.1 (ptr r.2 r.1) r.2
      else malloc_loop f nunits p (ptr h p) h
  end.

(** [nbytes] is a [uint]; the sum is one of [uint64]. *)
Definition units (nbytes : Z) : Z := u32 ((nbytes + HSZ - 1) / HSZ + 1).

Definition malloc (fuel : nat) (nbytes : Z) (h : heap) : option (Z * heap) :=
  let nunits := units nbytes in
  let h0 := if freep h =? 0 then set_freep base (set_ptr base base (set_size base 0 h)) else h in
  malloc_loop fuel nunits (freep h0) (ptr h0 (freep h0)) h0.

(** ** The free list

    [link h L e]: the headers of the blocks [L] (address and size) are linked in
    this order, the last one to [e]. *)

Definition next (L : list (Z * Z)) (e : Z) : Z := match L with b :: _ => b.1 | [] => e end.

Fixpoint link (h : heap) (L : list (Z * Z)) (e : Z) : Prop :=
  match L with
  | [] => True
  | b :: L' => hdrs h b.1 = mkH (next L' e) b.2 /\ link h L' e
  end.

Lemma next_app L1 L2 e : next (L1 ++ L2) e = next L1 (next L2 e).
Proof. by destruct L1. Qed.

Lemma link_app h L1 L2 e : link h (L1 ++ L2) e <-> link h L1 (next L2 e) /\ link h L2 e.
Proof.
  induction L1 as [|b L1 IH]; cbn [app link]; [tauto|]. rewrite next_app, IH. tauto.
Qed.

Lemma link_ext h h' L e :
  (forall b, b ∈ L -> hdrs h' b.1 = hdrs h b.1) -> link h L e -> link h' L e.
Proof.
  induction L as [|b L IH]; cbn [link]; [done|]. intros Hx [Hb Hl].
  split; [rewrite Hx; [done|by left]|]. apply IH; [|done]. intros x Hin. apply Hx. by right.
Qed.

(** Blocks of the free list lie in this order, and between two of them is
    something else. *)
Definition apart (x y : Z * Z) : Prop := x.1 + HSZ * x.2 < y.1.

(** Two blocks that do not overlap. *)
Definition sep (x y : Z * Z) : Prop := x.1 + HSZ * x.2 <= y.1 \/ y.1 + HSZ * y.2 <= x.1.

Definition total (F : list (Z * Z)) : Z := foldr (fun b n => b.2 + n) 0 F.
Definition owned (A : gmap Z Z) : Z := map_fold (fun _ s n => s + n) 0 A.

(** A block that lies in the heap, from [lo] to [brk]. *)
Definition inside (lo hi : Z) (b : Z * Z) : Prop := lo <= b.1 /\ 1 <= b.2 /\ b.1 + HSZ * b.2 <= hi.

(** [L] are the free blocks, with [base] at the front; [A] are the blocks that
    the program owns (address of the header and size), and [extra] units are on
    their way from one to the other. *)
Record good (lo : Z) (h : heap) (L : list (Z * Z)) (A : gmap Z Z) (extra : Z) : Prop := {
  gd_lo : 0 < base /\ base + HSZ <= lo;
  gd_link : link h L base;
  gd_head : head L = Some (base, 0);
  gd_sorted : StronglySorted apart L;
  gd_free : forall b, b ∈ L -> b = (base, 0) \/ inside lo (brk h) b;
  gd_used : forall a s, A !! a = Some s -> inside lo (brk h) (a, s) /\ size h a = s;
  gd_used_sep : forall a s a' s', A !! a = Some s -> A !! a' = Some s' -> a <> a' -> sep (a, s) (a', s');
  gd_sep : forall a s b, A !! a = Some s -> b ∈ L -> sep (a, s) b;
  gd_freep : exists s, (freep h, s) ∈ L;
  gd_brk : lo <= brk h <= MMAPBASE;
  gd_total : HSZ * (total L + owned A + extra) = brk h - lo
}.

(** A block that is neither free nor owned. *)
Record fresh (lo : Z) (h : heap) (L : list (Z * Z)) (A : gmap Z Z) (b : Z * Z) : Prop := {
  fr_inside : inside lo (brk h) b;
  fr_free : forall x, x ∈ L -> sep b x;
  fr_used : forall a s, A !! a = Some s -> sep b (a, s)
}.

(** ** Finding the place of a block *)

(** From the first block of [L] on, when that is below [bp]. *)
Lemma find_place_ahead h bp L e fuel :
  link h L e -> L <> [] -> next L e < bp -> e < bp ->
  StronglySorted apart L -> (forall b, b ∈ L -> e <= b.1 /\ 0 <= b.2 /\ b.1 <> bp) -> (length L <= fuel)%nat ->
  exists M1 p M2, L = M1 ++ p :: M2 /\ find_place fuel bp (next L e) h = Some p.1 /\
    p.1 < bp /\ (forall b, b ∈ M2 -> bp < b.1).
Proof.
  intros Hk Hn Hlt He Hs Hb Hf. revert fuel Hf Hn Hlt. induction L as [|[a s] L IH]; intros fuel Hf Hn Hlt; [done|].
  destruct fuel as [|fuel]; [cbn in Hf; lia|]. cbn [next fst find_place] in *. destruct Hk as [Hh Hk].
  cbn [fst snd] in Hh. unfold ptr at 1 2 3 4. rewrite Hh. cbn [h_ptr].
  apply StronglySorted_cons in Hs as [Ha Hs]. destruct (Hb (a, s)) as (H1 & H2 & H3); [by left|]. cbn in H1, H2, H3.
  destruct L as [|[b t] L].
  - exists [], (a, s), []. cbn [next]. split; [done|].
    rewrite (proj2 (Z.ltb_ge bp e)), andb_false_r by lia.
    rewrite (proj2 (Z.leb_le e a)), (proj2 (Z.ltb_lt a bp)) by lia. cbn. split; [done|]. split; [done|].
    by intros ? ?%elem_of_nil.
  - apply Forall_cons in Ha as [Hab Ha]. unfold apart in Hab. cbn in Hab. cbn [next fst].
    destruct (Hb (b, t)) as (B1 & B2 & B3); [right; by left|]. cbn in B1, B2, B3. unfold HSZ in *.
    rewrite (proj2 (Z.ltb_lt a bp)) by lia. cbn [andb]. destruct (Z.ltb_spec bp b) as [Hlt'|Hge].
    + exists [], (a, s), ((b, t) :: L). split_and!; [done|done|done|].
      apply StronglySorted_cons in Hs as [Hs _]. intros x [->|Hx]%elem_of_cons; [done|].
      rewrite Forall_forall in Hs. specialize (Hs x Hx). unfold apart, HSZ in Hs. cbn in Hs. lia.
    + rewrite (proj2 (Z.leb_gt b a)) by lia. cbn [andb orb].
      destruct (IH Hk Hs) with (fuel := fuel) as (M1 & p & M2 & E & R & P1 & P2); [|cbn in *; lia|done|cbn; lia|].
      { intros x Hx. apply Hb. by right. }
      exists ((a, s) :: M1), p, M2. split; [by rewrite E|]. split; [exact R|done].
Qed.

(** From a block above [bp] the search goes round to the start. *)
Lemma find_place_around h bp L e fuel :
  link h L e -> e < bp -> StronglySorted apart L -> (forall b, b ∈ L -> bp < b.1 /\ 0 <= b.2) -> (length L <= fuel)%nat ->
  find_place fuel bp (next L e) h = find_place (fuel - length L) bp e h.
Proof.
  intros Hk He Hs Hb. revert fuel. induction L as [|[a s] L IH]; intros fuel Hf; [by rewrite Nat.sub_0_r|].
  destruct fuel as [|fuel]; [cbn in Hf; lia|]. cbn [next fst find_place length] in *. destruct Hk as [Hh Hk].
  cbn [fst snd] in Hh. unfold ptr at 1 2 3 4. rewrite Hh. cbn [h_ptr].
  apply StronglySorted_cons in Hs as [Ha Hs]. destruct (Hb (a, s)) as (H1 & H2); [by left|]. cbn in H1, H2.
  assert (Hb' : forall b, b ∈ L -> bp < b.1 /\ 0 <= b.2) by (intros x Hx; apply Hb; by right).
  rewrite (proj2 (Z.ltb_ge a bp)) by lia. cbn [andb orb].
  assert (((next L e <=? a) && (bp <? next L e)) = false) as ->.
  { destruct L as [|[b t] L]; cbn [next fst]; [rewrite (proj2 (Z.ltb_ge bp e)) by lia; by rewrite andb_false_r|].
    apply Forall_cons in Ha as [Hab _]. unfold apart, HSZ in Hab. cbn in Hab.
    by rewrite (proj2 (Z.leb_gt b a)) by lia. }
  rewrite IH by (done || lia). done.
Qed.

Lemma good_block lo h L A x b :
  good lo h L A x -> b ∈ L -> base <= b.1 /\ 0 <= b.2 /\ b.1 + HSZ * b.2 <= brk h.
Proof.
  intros G Hb. pose proof (gd_lo _ _ _ _ _ G). pose proof (gd_brk _ _ _ _ _ G). unfold HSZ in *.
  destruct (gd_free _ _ _ _ _ G b Hb) as [->|(? & ? & ?)]; unfold HSZ in *; cbn; lia.
Qed.

(** The place of a fresh block in the free list. *)
Lemma find_place_run lo h L A x bp s fuel :
  good lo h L A x -> fresh lo h L A (bp, s) -> (2 * length L <= fuel)%nat ->
  exists M1 p M2, L = M1 ++ p :: M2 /\ find_place fuel bp (freep h) h = Some p.1 /\
    p.1 < bp /\ (forall b, b ∈ M2 -> bp < b.1).
Proof.
  intros G Hf Hfu. pose proof (gd_sorted _ _ _ _ _ G) as Hs. pose proof (gd_link _ _ _ _ _ G) as Hk.
  destruct (gd_lo _ _ _ _ _ G) as [Hb0 Hlo]. destruct (fr_inside _ _ _ _ _ Hf) as (Hbp & Hs1 & _). cbn in Hbp, Hs1.
  assert (Hall : forall b, b ∈ L -> base <= b.1 /\ 0 <= b.2 /\ b.1 <> bp).
  { intros b Hb. destruct (good_block _ _ _ _ _ b G Hb) as (? & ? & _). split_and!; [done|done|].
    destruct (gd_free _ _ _ _ _ G b Hb) as [->|(? & ? & _)]; unfold HSZ in *; cbn; [lia|].
    pose proof (fr_free _ _ _ _ _ Hf b Hb) as Hsep. unfold sep, HSZ in Hsep. cbn in Hsep. lia. }
  destruct (gd_freep _ _ _ _ _ G) as (sf & Hin). apply list_elem_of_split in Hin as (L1 & L2 & EL).
  pose proof Hs as Hs0. pose proof Hk as Hk0.
  rewrite EL in Hs, Hk. apply StronglySorted_app in Hs as (_ & _ & Hs2). apply link_app in Hk as [_ Hk2].
  assert (Hlen : (length L1 + S (length L2) = length L)%nat) by (rewrite EL, length_app; done).
  destruct (Z.lt_ge_cases (freep h) bp) as [Hlt|Hge].
  - destruct (find_place_ahead h bp ((freep h, sf) :: L2) base fuel) as (M1 & p & M2 & E & R & P); try done.
    + unfold HSZ in *. lia.
    + intros b Hb. apply Hall. rewrite EL. set_solver.
    + cbn. lia.
    + exists (L1 ++ M1), p, M2. rewrite EL, E, <- app_assoc. done.
  - assert (Hgt : forall b, b ∈ (freep h, sf) :: L2 -> bp < b.1 /\ 0 <= b.2).
    { intros b Hb. destruct (Hall b) as (? & ? & ?); [rewrite EL; set_solver|]. split; [|done].
      apply StronglySorted_cons in Hs2 as [Hs2 _]. destruct (Hall (freep h, sf)) as (? & ? & ?); [rewrite EL; set_solver|].
      cbn in *. apply elem_of_cons in Hb as [->|Hb]; [cbn; lia|].
      pose proof (proj1 (Forall_forall _ _) Hs2 b Hb) as Hap. unfold apart, HSZ in Hap. cbn in Hap. lia. }
    pose proof (find_place_around h bp ((freep h, sf) :: L2) base fuel) as Har. cbn [next fst length] in Har.
    rewrite Har by (done || unfold HSZ in *; lia).
    assert (Hnext : next L base = base).
    { pose proof (gd_head _ _ _ _ _ G) as Hh. by destruct L; simplify_eq/=. }
    pose proof (find_place_ahead h bp L base (fuel - S (length L2))) as Hah. rewrite Hnext in Hah.
    apply Hah; try done; try (unfold HSZ in *; lia). intros HL. rewrite HL in Hlen. cbn in Hlen. lia.
Qed.

(** ** Joining neighbours *)

(** What [join_next] makes of the fresh block [(bp, s)] and the blocks [M2] behind
    it. *)
Definition next_joined (bp s : Z) (M2 : list (Z * Z)) : Z * list (Z * Z) :=
  match M2 with
  | q :: R => if bp + HSZ * s =? q.1 then (s + q.2, R) else (s, M2)
  | [] => (s, [])
  end.

(** The heap [h'] has the headers [f] and is otherwise as [h]. *)
Record with_hdrs (h h' : heap) (f : Z -> header) : Prop := {
  wh_hdrs : forall a, hdrs h' a = f a;
  wh_freep : freep h' = freep h;
  wh_brk : brk h' = brk h;
  wh_grants : grants h' = grants h
}.

Lemma with_set_ptr h a v : with_hdrs h (set_ptr a v h) (<[a := mkH v (size h a)]> (hdrs h)).
Proof. by split. Qed.

Lemma with_set_both h a s v :
  with_hdrs h (set_ptr a v (set_size a s h)) (<[a := mkH v s]> (hdrs h)).
Proof.
  split; try done. intros x. cbn. rewrite fn_lookup_insert. cbn.
  destruct (decide (x = a)) as [->|]; [by rewrite !fn_lookup_insert|by rewrite !fn_lookup_insert_ne].
Qed.

Lemma join_next_run bp s p M2 h :
  link h (p :: M2) base -> size h bp = s -> base < bp -> p.1 <> bp -> (forall b, b ∈ M2 -> b.1 <> bp) ->
  (forall b, b ∈ M2 -> 0 <= b.2 /\ s + b.2 < 2^32) -> 0 <= s ->
  with_hdrs h (join_next bp p.1 h)
    (<[bp := mkH (next (next_joined bp s M2).2 base) (next_joined bp s M2).1]> (hdrs h)).
Proof.
  intros [Hp Hk] Hsz Hbb Hpne Hne Hpos Hs0. unfold join_next. rewrite Hsz.
  assert (Ep : ptr h p.1 = next M2 base) by (unfold ptr; by rewrite Hp). rewrite Ep.
  destruct M2 as [|q R]; cbn [next_joined next].
  - rewrite (proj2 (Z.eqb_neq _ _)) by (unfold HSZ; lia). pose proof (with_set_ptr h bp base) as X. by rewrite Hsz in X.
  - destruct (Z.eqb_spec (bp + HSZ * s) q.1) as [Eq|Nq].
    2:{ pose proof (with_set_ptr h bp q.1) as X. by rewrite Hsz in X. }
    destruct Hk as [Hq Hk]. assert (Hqne : q.1 <> bp) by (apply Hne; by left). destruct (Hpos q) as [Hq0 Hq1]; [by left|].
    cbn [fst snd]. assert (Esz : size h q.1 = q.2) by (unfold size; by rewrite Hq).
    rewrite Esz, u32_small by (ints; lia). set (h1 := set_size bp (s + q.2) h).
    assert (ptr h1 (ptr h1 p.1) = next R base) as ->; [|apply with_set_both].
    unfold h1, ptr, set_size. cbn [hdrs]. rewrite (fn_lookup_insert_ne _ bp p.1), Hp by done. cbn [h_ptr next].
    by rewrite (fn_lookup_insert_ne _ bp q.1), Hq.
Qed.

Lemma join_prev_run bp t p h nx np :
  hdrs h bp = mkH nx t -> hdrs h p.1 = mkH np p.2 -> p.1 <> bp -> 0 <= p.2 -> 0 <= t -> p.2 + t < 2^32 ->
  with_hdrs h (join_prev bp p.1 h)
    (<[p.1 := if p.1 + HSZ * p.2 =? bp then mkH nx (p.2 + t) else mkH bp p.2]> (hdrs h)).
Proof.
  intros Hb Hp Hne H0 H1 H2. unfold join_prev. assert (size h p.1 = p.2) as -> by (unfold size; by rewrite Hp).
  destruct (p.1 + HSZ * p.2 =? bp).
  - assert (size h bp = t) as -> by (unfold size; by rewrite Hb). rewrite u32_small by (ints; lia).
    set (h1 := set_size p.1 (p.2 + t) h). assert (ptr h1 bp = nx) as ->; [|apply with_set_both].
    unfold h1, ptr, set_size. cbn [hdrs]. by rewrite fn_lookup_insert_ne, Hb.
  - pose proof (with_set_ptr h p.1 bp) as X. assert (size h p.1 = p.2) as E by (unfold size; by rewrite Hp). by rewrite E in X.
Qed.

(** The free list from [p] on, with the fresh block in it. *)
Definition joined (p : Z * Z) (bp s : Z) (M2 : list (Z * Z)) : list (Z * Z) :=
  let '(t, R) := next_joined bp s M2 in
  if p.1 + HSZ * p.2 =? bp then (p.1, p.2 + t) :: R else p :: (bp, t) :: R.

(** Facts about lists of blocks by [lia]. *)
Ltac blocks := unfold apart, sep, inside, HSZ in *; cbn [fst snd] in *; lia.

Lemma total_cons b L : total (b :: L) = b.2 + total L.
Proof. done. Qed.

Lemma total_app L1 L2 : total (L1 ++ L2) = total L1 + total L2.
Proof. induction L1 as [|b L1 IH]; [done|]. cbn [app]. rewrite !total_cons. lia. Qed.

Lemma sorted_nonneg (b : Z * Z) L x :
  StronglySorted apart (b :: L) -> 0 <= b.2 -> x ∈ L -> b.1 < x.1 /\ b.1 + HSZ * b.2 < x.1.
Proof.
  intros [Hb _]%StronglySorted_cons H0 Hx. pose proof (proj1 (Forall_forall _ _) Hb x Hx). blocks.
Qed.

(** [next_joined]: the larger block, and the blocks behind it. *)
Record behind (hi bp s : Z) (M2 : list (Z * Z)) (t : Z) (R : list (Z * Z)) : Prop := {
  bh_sub : forall b, b ∈ R -> b ∈ M2;
  bh_total : total R + t = total M2 + s;
  bh_size : s <= t /\ bp + HSZ * t <= hi;
  bh_apart : forall b, b ∈ R -> apart (bp, t) b;
  bh_sorted : StronglySorted apart R;
  bh_sep : forall z, 1 <= z.2 -> sep z (bp, s) -> (forall b, b ∈ M2 -> sep z b) -> sep z (bp, t)
}.

Lemma next_joined_spec lo hi bp s M2 :
  inside lo hi (bp, s) -> StronglySorted apart M2 -> (forall b, b ∈ M2 -> bp < b.1 /\ inside lo hi b /\ sep (bp, s) b) ->
  behind hi bp s M2 (next_joined bp s M2).1 (next_joined bp s M2).2.
Proof.
  intros Hi Hs Hb. destruct M2 as [|q R]; cbn [next_joined].
  - split; cbn [fst snd]; try done; [blocks|]. by intros b ?%elem_of_nil.
  - destruct (Hb q) as (Hq1 & Hq2 & Hq3); [by left|]. pose proof (fun x => sorted_nonneg q R x Hs) as Hord.
    destruct (Z.eqb_spec (bp + HSZ * s) q.1) as [E|N]; cbn [fst snd].
    + split.
      * intros b Hin. by right.
      * rewrite total_cons. lia.
      * blocks.
      * intros b Hin. destruct (Hord b) as [? ?]; [blocks|done|]. blocks.
      * by apply StronglySorted_cons in Hs as [_ Hs].
      * intros z Hz Hz1 Hz2. pose proof (Hz2 q ltac:(by left)). blocks.
    + split; try done; [blocks|]. intros b [->|Hin]%elem_of_cons; [blocks|].
      destruct (Hord b) as [? ?]; [blocks|done|]. blocks.
Qed.

(** [X] can take the place of [p :: M2] at the end of a free list, when the
    fresh block [f] joins it. *)
Record replaces (lo hi : Z) (p : Z * Z) (M2 : list (Z * Z)) (f : Z * Z) (X : list (Z * Z)) : Prop := {
  rp_head : next X 0 = p.1 /\ (p = (base, 0) -> head X = Some p);
  rp_sorted : StronglySorted apart X;
  rp_above : forall b, b ∈ X -> p.1 <= b.1;
  rp_blocks : forall b, b ∈ X -> b = p \/ inside lo hi b;
  rp_total : total X = total (p :: M2) + f.2;
  rp_sep : forall z, 1 <= z.2 -> sep z f -> (forall b, b ∈ p :: M2 -> sep z b) -> forall b, b ∈ X -> sep z b
}.

Lemma joined_replaces lo hi p bp s M2 :
  0 < base /\ base + HSZ <= lo -> inside lo hi (bp, s) -> p = (base, 0) \/ inside lo hi p -> sep (bp, s) p -> p.1 < bp ->
  StronglySorted apart (p :: M2) -> (forall b, b ∈ M2 -> bp < b.1 /\ inside lo hi b /\ sep (bp, s) b) ->
  replaces lo hi p M2 (bp, s) (joined p bp s M2).
Proof.
  intros [Hb0 Hlo] Hin Hp Psep Hlt Hs HM2.
  destruct (next_joined_spec lo hi bp s M2 Hin) as [N1 N2 N3 N4 N5 N6]; [by apply StronglySorted_cons in Hs as [_ ?]|done|].
  unfold joined. destruct (next_joined bp s M2) as [t R]. cbn [fst snd] in *.
  assert (P2 : 0 <= p.2) by (destruct Hp as [->|]; blocks).
  assert (HR : forall b, b ∈ R -> apart p b /\ p.1 <= b.1) by (intros b Hb; specialize (N4 b Hb); blocks).
  assert (HRs : forall z b, (forall b, b ∈ p :: M2 -> sep z b) -> b ∈ R -> sep z b).
  { intros z b Hz Hb. apply Hz. right. by apply N1. }
  destruct (Z.eqb_spec (p.1 + HSZ * p.2) bp) as [E|N].
  - assert (Hpb : p <> (base, 0)) by (intros ->; blocks). destruct Hp as [|Hp]; [done|]. split.
    + by split.
    + apply StronglySorted_cons. split; [|done]. apply Forall_forall. intros b Hb. specialize (N4 b Hb). blocks.
    + intros b [->|Hb]%elem_of_cons; [cbn; lia|by apply HR].
    + intros b [->|Hb]%elem_of_cons; right; [blocks|by apply HM2, N1].
    + rewrite !total_cons. cbn [snd]. lia.
    + intros z Hz Hzb HzL b [->|Hb]%elem_of_cons; [|by apply HRs].
      pose proof (HzL p ltac:(by left)). pose proof (N6 z Hz Hzb ltac:(intros; apply HzL; by right)). blocks.
  - split.
    + by split.
    + apply StronglySorted_cons. split; [|apply StronglySorted_cons; split; [apply Forall_forall; exact N4|done]].
      apply Forall_forall. intros b [->|Hb]%elem_of_cons; [blocks|by apply HR].
    + intros b [->|[->|Hb]%elem_of_cons]%elem_of_cons; [lia|cbn; lia|by apply HR].
    + intros b [->|[->|Hb]%elem_of_cons]%elem_of_cons; [by left|right; blocks|right; by apply HM2, N1].
    + rewrite !total_cons. cbn [snd]. lia.
    + intros z Hz Hzb HzL b [->|[->|Hb]%elem_of_cons]%elem_of_cons; [apply HzL; by left| |by apply HRs].
      apply N6; [done|done|]. intros; apply HzL; by right.
Qed.

(** Replacing the end of the free list: everything but the links. *)
Lemma good_replace lo h h' A M1 p M2 f X :
  good lo h (M1 ++ p :: M2) A f.2 -> fresh lo h (M1 ++ p :: M2) A f -> replaces lo (brk h) p M2 f X ->
  link h' (M1 ++ X) base -> brk h' = brk h -> (exists s, (freep h', s) ∈ M1 ++ X) ->
  (forall a s, A !! a = Some s -> size h' a = s) ->
  good lo h' (M1 ++ X) A 0.
Proof.
  intros G Hf [Rh Rs Ra Rb Rt Rsep] Hk Hbrk Hfp Hsz.
  pose proof (gd_sorted _ _ _ _ _ G) as Hs. apply StronglySorted_app in Hs as (Hs12 & Hs1 & Hs2).
  split; rewrite ?Hbrk; try done.
  - apply (gd_lo _ _ _ _ _ G).
  - pose proof (gd_head _ _ _ _ _ G) as Hh. destruct M1 as [|m M1]; [|done]. cbn in Hh |- *. injection Hh as ->. by apply Rh.
  - apply StronglySorted_app. split_and!; [|done|done].
    intros b c Hb Hc. specialize (Hs12 b p Hb ltac:(by left)). specialize (Ra c Hc). blocks.
  - intros b [Hb|Hb]%elem_of_app; [apply (gd_free _ _ _ _ _ G); set_solver|].
    destruct (Rb b Hb) as [->|]; [apply (gd_free _ _ _ _ _ G); set_solver|by right].
  - intros a s Ha. split; [by apply (gd_used _ _ _ _ _ G)|by apply Hsz].
  - apply (gd_used_sep _ _ _ _ _ G).
  - intros a s b Ha [Hb|Hb]%elem_of_app; [apply (gd_sep _ _ _ _ _ G a s b Ha); set_solver|].
    apply Rsep; [|apply or_comm, (fr_used _ _ _ _ _ Hf a s Ha)| |done].
    + destruct (gd_used _ _ _ _ _ G a s Ha) as [(_ & ? & _) _]. done.
    + intros c Hc. apply (gd_sep _ _ _ _ _ G a s c Ha). set_solver.
  - apply (gd_brk _ _ _ _ _ G).
  - rewrite <- (gd_total _ _ _ _ _ G), !total_app, Rt. lia.
Qed.

(** ** [free] *)

Lemma joined_link h h' M1 p bp s M2 :
  link h (M1 ++ p :: M2) base ->
  (forall a, hdrs h' a = <[p.1 := if p.1 + HSZ * p.2 =? bp then mkH (next (next_joined bp s M2).2 base) (p.2 + (next_joined bp s M2).1)
                                  else mkH bp p.2]>
    (<[bp := mkH (next (next_joined bp s M2).2 base) (next_joined bp s M2).1]> (hdrs h)) a) ->
  (forall b, b ∈ M1 \/ b ∈ M2 -> b.1 <> bp /\ b.1 <> p.1) -> p.1 <> bp ->
  link h' (M1 ++ joined p bp s M2) base.
Proof.
  intros Hk Hh Hne Hpb. apply link_app in Hk as [Hk1 [_ Hk2]].
  assert (Hsame : forall b, b ∈ M1 \/ b ∈ M2 -> hdrs h' b.1 = hdrs h b.1).
  { intros b Hb. destruct (Hne b Hb). by rewrite Hh, !fn_lookup_insert_ne. }
  assert (Hj : next (joined p bp s M2) base = p.1) by (unfold joined; destruct (next_joined bp s M2); by case_match).
  apply link_app. rewrite Hj. split; [eapply link_ext; [|exact Hk1]; auto|].
  assert (HR : link h' (next_joined bp s M2).2 base).
  { destruct M2 as [|q R]; cbn [next_joined]; [done|].
    destruct (bp + HSZ * s =? q.1); cbn [snd]; [destruct Hk2 as [_ Hk2]|]; (eapply link_ext; [|exact Hk2]); intros b Hb; apply Hsame; set_solver. }
  unfold joined. destruct (next_joined bp s M2) as [t R]. cbn [fst snd] in *.
  destruct (p.1 + HSZ * p.2 =? bp); cbn [link fst snd next].
  - split; [by rewrite Hh, fn_lookup_insert|done].
  - split; [by rewrite Hh, fn_lookup_insert|]. split; [|done]. by rewrite Hh, fn_lookup_insert_ne, fn_lookup_insert.
Qed.

(** The place of the fresh block [(bp, s)]: behind [p] and before [M2]. *)
Record place (lo : Z) (h : heap) (A : gmap Z Z) (M1 : list (Z * Z)) (p : Z * Z) (M2 : list (Z * Z)) (bp s : Z) : Prop := {
  pl_good : good lo h (M1 ++ p :: M2) A s;
  pl_fresh : fresh lo h (M1 ++ p :: M2) A (bp, s);
  pl_before : base <= p.1 < bp /\ 0 <= p.2;
  pl_behind : forall b, b ∈ M2 -> bp < b.1 /\ inside lo (brk h) b /\ sep (bp, s) b;
  pl_ne : forall b, b ∈ M1 \/ b ∈ M2 -> b.1 <> bp /\ b.1 <> p.1
}.

Lemma find_place_at lo h L A bp s fuel :
  good lo h L A s -> fresh lo h L A (bp, s) -> (2 * length L <= fuel)%nat ->
  exists M1 p M2, L = M1 ++ p :: M2 /\ find_place fuel bp (freep h) h = Some p.1 /\ place lo h A M1 p M2 bp s.
Proof.
  intros G Hf Hfu. destruct (find_place_run lo h L A s bp s fuel G Hf Hfu) as (M1 & p & M2 & -> & E & Hlt & Hgt).
  exists M1, p, M2. split; [done|]. split; [done|].
  pose proof (gd_lo _ _ _ _ _ G) as [Hb0 Hlo]. pose proof (fr_inside _ _ _ _ _ Hf) as Hin.
  pose proof (fun b => good_block _ _ _ _ _ b G) as Hblk.
  pose proof (gd_sorted _ _ _ _ _ G) as Hs. apply StronglySorted_app in Hs as (Hs12 & _ & Hs2).
  destruct (Hblk p) as (P1 & P2 & P3); [set_solver|].
  assert (HM : forall b, b ∈ M2 -> bp < b.1 /\ inside lo (brk h) b /\ sep (bp, s) b).
  { intros b Hb. split_and!; [by apply Hgt| |apply (fr_free _ _ _ _ _ Hf); set_solver].
    destruct (gd_free _ _ _ _ _ G b) as [->|]; [set_solver| |done]. specialize (Hgt _ Hb). blocks. }
  split; try done. intros b [Hb|Hb].
  - specialize (Hs12 b p Hb ltac:(by left)). destruct (Hblk b) as (_ & ? & _); [set_solver|]. blocks.
  - destruct (HM b Hb) as (? & _). lia.
Qed.

(** The two headers that [free] writes. *)
Lemma join_run lo h A M1 p M2 bp s :
  place lo h A M1 p M2 bp s -> size h bp = s ->
  with_hdrs h (join_prev bp p.1 (join_next bp p.1 h))
    (<[p.1 := if p.1 + HSZ * p.2 =? bp then mkH (next (next_joined bp s M2).2 base) (p.2 + (next_joined bp s M2).1)
              else mkH bp p.2]>
      (<[bp := mkH (next (next_joined bp s M2).2 base) (next_joined bp s M2).1]> (hdrs h))).
Proof.
  intros [G Hf [P1 P2] HM Hne] Hsz. pose proof (gd_brk _ _ _ _ _ G) as Hbrk. unfold MMAPBASE in Hbrk.
  pose proof (gd_lo _ _ _ _ _ G) as [Hb0 Hlo]. pose proof (fr_inside _ _ _ _ _ Hf) as Hin.
  destruct (good_block _ _ _ _ _ p G) as (_ & _ & P3); [set_solver|].
  pose proof (gd_sorted _ _ _ _ _ G) as Hs. apply StronglySorted_app in Hs as (_ & _ & [_ Hs2]%StronglySorted_cons).
  pose proof (gd_link _ _ _ _ _ G) as [_ Hkp]%link_app.
  destruct (join_next_run bp s p M2 h Hkp Hsz) as [J1 J2 J3 J4]; [blocks|lia|intros; apply Hne; by right| |blocks|].
  { intros b Hb. destruct (HM b Hb) as (_ & ? & _). blocks. }
  pose proof (next_joined_spec lo (brk h) bp s M2 Hin Hs2 HM) as [_ _ [B1 B2] _ _ _]. destruct Hkp as [Hp _].
  destruct (join_prev_run bp (next_joined bp s M2).1 p (join_next bp p.1 h) (next (next_joined bp s M2).2 base) (next M2 base))
    as [K1 K2 K3 K4]; [by rewrite J1, fn_lookup_insert|by rewrite J1, fn_lookup_insert_ne, Hp by lia|lia|blocks|blocks|blocks|].
  split; [|congruence..]. intros a. rewrite K1. destruct (decide (a = p.1)) as [->|]; [by rewrite !fn_lookup_insert|].
  rewrite !(fn_lookup_insert_ne _ p.1) by done. apply J1.
Qed.

Lemma joined_length p bp s M2 : (length (joined p bp s M2) <= S (S (length M2)))%nat.
Proof.
  unfold joined, next_joined. destruct M2 as [|q R]; [case_match; cbn; lia|].
  destruct (bp + HSZ * s =? q.1), (p.1 + HSZ * p.2 =? bp); cbn; lia.
Qed.

Lemma joined_big lo h A M1 p M2 bp s :
  place lo h A M1 p M2 bp s -> exists b, b ∈ joined p bp s M2 /\ s <= b.2.
Proof.
  intros [G Hf [P1 P2] HM Hne].
  pose proof (gd_sorted _ _ _ _ _ G) as Hs. apply StronglySorted_app in Hs as (_ & _ & [_ Hs2]%StronglySorted_cons).
  pose proof (next_joined_spec lo (brk h) bp s M2 (fr_inside _ _ _ _ _ Hf) Hs2 HM) as [_ _ [B1 B2] _ _ _].
  unfold joined. destruct (next_joined bp s M2) as [t R]. cbn [fst] in B1.
  destruct (p.1 + HSZ * p.2 =? bp); [exists (p.1, p.2 + t)|exists (bp, t)]; (split; [set_solver|cbn; lia]).
Qed.

(** [free] of a block that is neither free nor owned puts it into the free
    list. *)
Lemma free_run lo h L A bp s fuel :
  good lo h L A s -> fresh lo h L A (bp, s) -> size h bp = s -> (2 * length L <= fuel)%nat ->
  exists h' L', free fuel (bp + HSZ) h = Some h' /\ good lo h' L' A 0 /\ brk h' = brk h /\ grants h' = grants h /\
    (length L' <= S (length L))%nat /\ (exists b, b ∈ L' /\ s <= b.2).
Proof.
  intros G Hf Hsz Hfu. destruct (find_place_at lo h L A bp s fuel G Hf Hfu) as (M1 & p & M2 & -> & E & Pl).
  pose proof (join_run _ _ _ _ _ _ _ _ Pl Hsz) as [K1 K2 K3 K4]. destruct (Pl) as [_ _ [P1 P2] HM Hne].
  eexists _, (M1 ++ joined p bp s M2). unfold free. replace (bp + HSZ - HSZ) with bp by lia. rewrite E.
  split; [done|]. cbn [set_freep brk grants]. split; [|split; [done|split; [done|split]]].
  - apply (good_replace lo h _ A M1 p M2 (bp, s)); [done|done| | |done| |].
    + pose proof (gd_sorted _ _ _ _ _ G) as Hs. apply StronglySorted_app in Hs as (_ & _ & Hs).
      apply joined_replaces; try done; [apply (gd_lo _ _ _ _ _ G)|apply (fr_inside _ _ _ _ _ Hf)|
        apply (gd_free _ _ _ _ _ G); set_solver|apply (fr_free _ _ _ _ _ Hf); set_solver|lia].
    + apply (joined_link h); [apply (gd_link _ _ _ _ _ G)|exact K1|done|lia].
    + cbn [freep]. unfold joined. destruct (next_joined bp s M2) as [t R].
      destruct (p.1 + HSZ * p.2 =? bp); [exists (p.2 + t)|exists p.2; destruct p]; set_solver.
    + intros a s' Ha. unfold size. cbn [hdrs set_freep]. rewrite K1. destruct (gd_used _ _ _ _ _ G a s' Ha) as [Hi Hs'].
      pose proof (fr_used _ _ _ _ _ Hf a s' Ha) as S1. pose proof (gd_sep _ _ _ _ _ G a s' p Ha ltac:(set_solver)) as S2.
      pose proof (gd_lo _ _ _ _ _ G). destruct (gd_free _ _ _ _ _ G p) as [->|]; [set_solver|..];
        (rewrite !fn_lookup_insert_ne; [done|pose proof (fr_inside _ _ _ _ _ Hf); blocks|blocks]).
  - rewrite !length_app. pose proof (joined_length p bp s M2). cbn in *. lia.
  - destruct (joined_big _ _ _ _ _ _ _ _ Pl) as (b & Hb & ?). exists b. split; [set_solver|done].
Qed.

(** ** [malloc] *)

Lemma same_addr lo h L A x b c : good lo h L A x -> b ∈ L -> c ∈ L -> b.1 = c.1 -> b = c.
Proof.
  intros G Hb Hc E. pose proof (good_block _ _ _ _ _ b G Hb) as (_ & ? & _).
  pose proof (good_block _ _ _ _ _ c G Hc) as (_ & ? & _). pose proof (gd_sorted _ _ _ _ _ G) as Hs.
  apply list_elem_of_split in Hb as (L1 & L2 & ->). apply StronglySorted_app in Hs as (H12 & _ & Hs).
  apply elem_of_app in Hc as [Hc|[->|Hc]%elem_of_cons]; [|done|].
  - specialize (H12 c b Hc ltac:(by left)). blocks.
  - destruct (sorted_nonneg b L2 c Hs); [done|done|]. lia.
Qed.

(** The block before [(a, s)] is the one that points to it. *)
Lemma pred_split lo h L A x pv a s :
  good lo h L A x -> (exists t, (pv, t) ∈ L) -> ptr h pv = a -> (a, s) ∈ L -> a <> base ->
  exists L1 t L2, L = L1 ++ (pv, t) :: (a, s) :: L2.
Proof.
  intros G [t Hpv] Hptr Ha Hne. apply list_elem_of_split in Hpv as (L1 & L2 & EL).
  pose proof (gd_link _ _ _ _ _ G) as Hk. rewrite EL in Hk. apply link_app in Hk as [_ [Hh _]].
  unfold ptr in Hptr. cbn in Hh. rewrite Hh in Hptr. cbn in Hptr.
  destruct L2 as [|y L2]; [done|]. cbn in Hptr. exists L1, t, L2. rewrite EL. do 3 f_equal.
  apply (same_addr _ _ _ _ _ y (a, s) G); [rewrite EL; set_solver|done|done].
Qed.

Lemma owned_insert A a s : A !! a = None -> owned (<[a := s]> A) = s + owned A.
Proof. intros Ha. unfold owned. rewrite map_fold_insert_L; [done|intros; lia|done]. Qed.

(** Taking the block [(q, n)] out of the free block [(a, s)]. *)
Lemma good_take lo h h' A L L' a s q n :
  good lo h L A 0 -> (a, s) ∈ L -> 1 <= n <= s -> a <> base -> q + HSZ * n = a + HSZ * s ->
  link h' L' base -> head L' = Some (base, 0) -> StronglySorted apart L' ->
  (forall b, b ∈ L' -> b = (base, 0) \/ inside lo (brk h) b) -> total L' + n = total L ->
  (forall b, b ∈ L' -> sep (q, n) b) ->
  (forall z, (forall b, b ∈ L -> sep z b) -> forall b, b ∈ L' -> 1 <= z.2 -> sep z b) ->
  (exists t, (freep h', t) ∈ L') -> brk h' = brk h -> (forall x t, A !! x = Some t -> size h' x = t) -> size h' q = n ->
  A !! q = None /\ good lo h' L' (<[q := n]> A) 0.
Proof.
  intros G Ha Hn Hne Hq Hk Hh Hs Hb Ht Hsq Hsep Hfp Hbrk Hsz Hszq.
  assert (Hi : inside lo (brk h) (a, s)) by (destruct (gd_free _ _ _ _ _ G (a, s) Ha) as [[=]|]; done).
  assert (Hused : forall x t, A !! x = Some t -> sep (x, t) (q, n) /\ 1 <= t).
  { intros x t Hx. destruct (gd_used _ _ _ _ _ G x t Hx) as [Hxi _]. pose proof (gd_sep _ _ _ _ _ G x t (a, s) Hx Ha). blocks. }
  assert (HA : A !! q = None).
  { destruct (A !! q) as [t|] eqn:E; [|done]. destruct (Hused q t E). blocks. }
  split; [done|]. split; rewrite ?Hbrk; try done.
  - apply (gd_lo _ _ _ _ _ G).
  - intros x t [(<- & <-)|[Hx Ht']]%lookup_insert_Some; [|by split; [apply (gd_used _ _ _ _ _ G)|apply Hsz]].
    split; [|done]. blocks.
  - intros x t x' t' [(<- & <-)|[Hx Ht1]]%lookup_insert_Some [(<- & <-)|[Hx' Ht2]]%lookup_insert_Some Hxx; [done| | |].
    + destruct (Hused _ _ Ht2). blocks.
    + destruct (Hused _ _ Ht1). blocks.
    + by apply (gd_used_sep _ _ _ _ _ G).
  - intros x t b [(<- & <-)|[Hx Ht']]%lookup_insert_Some Hb'; [by apply Hsq|].
    apply Hsep; [|done|by apply (Hused x t)]. intros c Hc. by apply (gd_sep _ _ _ _ _ G).
  - apply (gd_brk _ _ _ _ _ G).
  - rewrite owned_insert by done. pose proof (gd_total _ _ _ _ _ G). blocks.
Qed.

Lemma used_ne lo h L A x a s b : good lo h L A x -> A !! a = Some s -> b ∈ L -> a <> b.1.
Proof.
  intros G Ha Hb. destruct (gd_used _ _ _ _ _ G a s Ha) as [Hi _]. pose proof (gd_sep _ _ _ _ _ G a s b Ha Hb).
  pose proof (gd_lo _ _ _ _ _ G). destruct (gd_free _ _ _ _ _ G b Hb) as [->|]; blocks.
Qed.

Lemma not_base lo h L A x a s : good lo h L A x -> (a, s) ∈ L -> 1 <= s -> a <> base.
Proof.
  intros G Ha Hs ->. assert (Hb : (base, 0) ∈ L).
  { pose proof (gd_head _ _ _ _ _ G) as Hh. destruct L; simplify_eq/=. by left. }
  pose proof (same_addr _ _ _ _ _ _ _ G Ha Hb eq_refl). simplify_eq. lia.
Qed.

(** A block that fits exactly leaves the list. *)
Lemma carve_whole lo h L1 pv t a n L2 A :
  good lo h (L1 ++ (pv, t) :: (a, n) :: L2) A 0 -> 1 <= n ->
  A !! a = None /\ good lo (set_freep pv (set_ptr pv (ptr h a) h)) (L1 ++ (pv, t) :: L2) (<[a := n]> A) 0.
Proof.
  intros G Hn. set (L := L1 ++ (pv, t) :: (a, n) :: L2) in *.
  assert (HaL : (a, n) ∈ L) by set_solver. assert (HpL : (pv, t) ∈ L) by set_solver.
  assert (Hsub : forall b, b ∈ L1 ++ (pv, t) :: L2 -> b ∈ L) by set_solver.
  pose proof (gd_link _ _ _ _ _ G) as Hk. apply link_app in Hk as [Hk1 (Hp & Ha & Hk2)].
  pose proof (gd_sorted _ _ _ _ _ G) as Hs. apply StronglySorted_app in Hs as (H12 & Hs1 & Hs2).
  apply StronglySorted_cons in Hs2 as [Hpa Hs2]. pose proof Hs2 as [Haf Hs2']%StronglySorted_cons.
  pose proof (fun b => good_block _ _ _ _ _ b G) as Hblk. destruct (Hblk _ HpL) as (_ & T0 & _). cbn in T0.
  assert (Hord : forall b, b ∈ L1 ++ (pv, t) :: L2 -> sep (a, n) b).
  { intros b [Hb|[->|Hb]%elem_of_cons]%elem_of_app.
    - specialize (H12 b (a, n) Hb ltac:(set_solver)). blocks.
    - apply Forall_cons in Hpa as [? _]. blocks.
    - pose proof (proj1 (Forall_forall _ _) Haf b Hb). blocks. }
  apply (good_take lo h _ A L _ a n); try done; try lia; [by eapply not_base|..].
  - apply link_app. cbn [link next fst snd hdrs set_freep set_ptr] in *.
    assert (Hin : forall b, b ∈ L1 \/ b ∈ L2 -> b.1 <> pv).
    { intros b [Hb|Hb] E.
      - specialize (H12 b (pv, t) Hb ltac:(set_solver)). destruct (Hblk b) as (_ & ? & _); [set_solver|]. blocks.
      - apply Forall_cons in Hpa as [_ Hpa]. pose proof (proj1 (Forall_forall _ _) Hpa b Hb). blocks. }
    split; [|split].
    + eapply link_ext; [|exact Hk1]. intros b Hb. cbn. by rewrite fn_lookup_insert_ne by (symmetry; auto).
    + cbn in Hp, Ha. rewrite fn_lookup_insert. unfold ptr. rewrite Hp, Ha. done.
    + eapply link_ext; [|exact Hk2]. intros b Hb. cbn. by rewrite fn_lookup_insert_ne by (symmetry; auto).
  - pose proof (gd_head _ _ _ _ _ G) as Hh. unfold L in Hh. by destruct L1.
  - apply StronglySorted_app. split_and!; [|done|apply StronglySorted_cons; split; [by apply Forall_cons in Hpa as [_ ?]|done]].
    intros b c Hb [->|Hc]%elem_of_cons; apply H12; set_solver.
  - intros b Hb. apply (gd_free _ _ _ _ _ G). by apply Hsub.
  - unfold L. rewrite !total_app, !total_cons. cbn. lia.
  - intros z Hz b Hb _. apply Hz. by apply Hsub.
  - exists t. set_solver.
  - intros x t' Hx. unfold size. cbn. rewrite fn_lookup_insert_ne; [by apply (gd_used _ _ _ _ _ G)|].
    intros <-. by apply (used_ne _ _ _ _ _ _ _ _ G Hx HpL).
  - unfold size. cbn [hdrs set_freep set_ptr]. rewrite fn_lookup_insert_ne; [cbn in Ha; by rewrite Ha|].
    intros ->. apply Forall_cons in Hpa as [? _]. blocks.
Qed.

(** A block that is larger loses its end. *)
Lemma carve_part lo h L1 a s n L2 A h' pv t :
  good lo h (L1 ++ (a, s) :: L2) A 0 -> 1 <= n < s -> (pv, t) ∈ L1 ->
  (forall x, hdrs h' x = <[a + HSZ * (s - n) := mkH (ptr h' x) n]> (<[a := mkH (ptr h a) (s - n)]> (hdrs h)) x) ->
  freep h' = pv -> brk h' = brk h ->
  A !! (a + HSZ * (s - n)) = None /\ good lo h' (L1 ++ (a, s - n) :: L2) (<[a + HSZ * (s - n) := n]> A) 0.
Proof.
  intros G Hn Hpv Hh Hfp Hbrk. set (q := a + HSZ * (s - n)) in *. set (L := L1 ++ (a, s) :: L2) in *.
  assert (HaL : (a, s) ∈ L) by set_solver.
  pose proof (gd_link _ _ _ _ _ G) as Hk. apply link_app in Hk as [Hk1 [Ha Hk2]]. cbn in Ha.
  pose proof (gd_sorted _ _ _ _ _ G) as Hs. apply StronglySorted_app in Hs as (H12 & Hs1 & Hs2).
  pose proof Hs2 as [Haf Hs2']%StronglySorted_cons. pose proof (fun b => good_block _ _ _ _ _ b G) as Hblk.
  assert (Hbef : forall b, b ∈ L1 -> apart b (a, s) /\ 0 <= b.2).
  { intros b Hb. split; [apply H12; [done|by left]|]. apply (Hblk b). set_solver. }
  assert (Haft : forall b, b ∈ L2 -> apart (a, s) b) by (by apply Forall_forall).
  assert (Hsame : forall b, b ∈ L1 \/ b ∈ L2 -> hdrs h' b.1 = hdrs h b.1).
  { intros b [Hb|Hb]; (rewrite Hh, !fn_lookup_insert_ne; [done|..]); [destruct (Hbef b Hb)|destruct (Hbef b Hb)|
      specialize (Haft b Hb)|specialize (Haft b Hb)]; unfold q; blocks. }
  assert (Hi : inside lo (brk h) (a, s)).
  { destruct (gd_free _ _ _ _ _ G (a, s) HaL) as [E|]; [|done]. injection E as -> ->. lia. }
  apply (good_take lo h _ A L _ a s); try done; try lia; [eapply not_base; [done|done|lia]|..].
  - apply link_app. split; [eapply link_ext; [|exact Hk1]; auto|]. split; [|eapply link_ext; [|exact Hk2]; auto].
    cbn. rewrite Hh, fn_lookup_insert_ne, fn_lookup_insert by (unfold q; blocks). unfold ptr. by rewrite Ha.
  - pose proof (gd_head _ _ _ _ _ G) as Hd. unfold L in Hd. destruct L1; [by apply elem_of_nil in Hpv|done].
  - apply StronglySorted_app. split_and!; [|done|apply StronglySorted_cons; split; [|done]].
    + intros b c Hb [->|Hc]%elem_of_cons; [destruct (Hbef b Hb); blocks|apply H12; set_solver].
    + apply Forall_forall. intros b Hb. specialize (Haft b Hb). blocks.
  - intros b [Hb|[->|Hb]%elem_of_cons]%elem_of_app; [apply (gd_free _ _ _ _ _ G); set_solver|right; blocks|
      apply (gd_free _ _ _ _ _ G); set_solver].
  - unfold L. rewrite !total_app, !total_cons. cbn. lia.
  - intros b [Hb|[->|Hb]%elem_of_cons]%elem_of_app; [destruct (Hbef b Hb)| |specialize (Haft b Hb)]; unfold q; blocks.
  - intros z Hz b [Hb|[->|Hb]%elem_of_cons]%elem_of_app H1; [apply Hz; set_solver| |apply Hz; set_solver].
    pose proof (Hz _ HaL). blocks.
  - exists t. rewrite Hfp. set_solver.
  - intros x t' Hx. destruct (gd_used _ _ _ _ _ G x t' Hx) as [Hxi Hxs]. pose proof (gd_sep _ _ _ _ _ G x t' (a, s) Hx HaL).
    unfold size. rewrite Hh, !fn_lookup_insert_ne; [done|blocks|unfold q; blocks].
  - unfold size. by rewrite Hh, fn_lookup_insert.
Qed.

Lemma carve_run lo h L A pv a s n :
  good lo h L A 0 -> (exists t, (pv, t) ∈ L) -> ptr h pv = a -> (a, s) ∈ L -> 1 <= n <= s ->
  exists q h' L', carve n pv a h = (q + HSZ, h') /\ A !! q = None /\ good lo h' L' (<[q := n]> A) 0 /\
    brk h' = brk h /\ lo <= q.
Proof.
  intros G Hpv Hptr Ha Hn. assert (Hne : a <> base) by (eapply not_base; [done|done|lia]).
  destruct (pred_split _ _ _ _ _ _ _ _ G Hpv Hptr Ha Hne) as (L1 & t & L2 & ->).
  assert (Hi : inside lo (brk h) (a, s)) by (destruct (gd_free _ _ _ _ _ G (a, s) Ha) as [[=]|]; done).
  assert (Hsz : size h a = s).
  { pose proof (gd_link _ _ _ _ _ G) as Hk. apply link_app in Hk as [_ (_ & Hh & _)]. cbn in Hh. unfold size. by rewrite Hh. }
  unfold carve. rewrite Hsz. destruct (Z.eqb_spec s n) as [->|Hsn].
  - destruct (carve_whole _ _ _ _ _ _ _ _ _ G) as [HA G']; [lia|]. do 3 eexists. split; [done|]. split; [done|].
    split; [exact G'|]. split; [done|blocks].
  - pose proof (gd_brk _ _ _ _ _ G) as Hbrk. unfold MMAPBASE in Hbrk. pose proof (gd_lo _ _ _ _ _ G).
    rewrite u32_small by (unfold is_u32; blocks).
    assert (E : size (set_size a (s - n) h) a = s - n) by (unfold size, set_size; cbn; by rewrite fn_lookup_insert).
    rewrite E. replace (L1 ++ (pv, t) :: (a, s) :: L2) with ((L1 ++ [(pv, t)]) ++ (a, s) :: L2) in * by (by rewrite <- app_assoc).
    set (h' := set_freep pv (set_size (a + HSZ * (s - n)) n (set_size a (s - n) h))).
    destruct (carve_part lo h (L1 ++ [(pv, t)]) a s n L2 A h' pv t G) as [HA G']; [lia|set_solver| |done|done|].
    { intros x. unfold h', set_freep, set_size, ptr. cbn [hdrs]. destruct (decide (x = a + HSZ * (s - n))) as [->|].
      - rewrite !fn_lookup_insert. by rewrite !fn_lookup_insert_ne by blocks.
      - by rewrite !(fn_lookup_insert_ne _ (a + HSZ * (s - n))). }
    do 3 eexists. split; [done|]. split; [done|]. split; [exact G'|]. split; [done|blocks].
Qed.

(** What the loop does at the block [freep] when no block was large enough. *)
Definition more (f : nat) (n : Z) (h : heap) : option (Z * heap) :=
  r ← morecore f n h;
  if r.1 =? 0 then Some (0, r.2) else malloc_loop f n r.1 (ptr r.2 r.1) r.2.

(** The search from [pv] on; [T] are the blocks that are left, the last one is
    [freep]. *)
Lemma find_scan_run h (L : list (Z * Z)) n e sf T fuel pv :
  link h (T ++ [(freep h, sf)]) e -> (forall b, b ∈ T ++ [(freep h, sf)] -> b ∈ L) ->
  (forall b, b ∈ T -> b.1 <> freep h) -> (exists t, (pv, t) ∈ L) -> ptr h pv = next (T ++ [(freep h, sf)]) e ->
  (length T < fuel)%nat ->
  (exists pv' a s, (exists t, (pv', t) ∈ L) /\ ptr h pv' = a /\ (a, s) ∈ L /\ n <= s /\
     malloc_loop fuel n pv (ptr h pv) h = Some (carve n pv' a h)) \/
  ((forall b, b ∈ T ++ [(freep h, sf)] -> b.2 < n) /\
   malloc_loop fuel n pv (ptr h pv) h = more (fuel - S (length T)) n h).
Proof.
  revert fuel pv. induction T as [|[a s] T IH]; intros fuel pv Hk HL Hne Hpv Hptr Hf; destruct fuel as [|fuel]; try lia.
  - cbn [app next fst] in *. destruct Hk as [Hh _]. cbn in Hh. rewrite Hptr. cbn [malloc_loop].
    assert (Hs : size h (freep h) = sf) by (unfold size; by rewrite Hh). rewrite Hs.
    destruct (Z.leb_spec n sf).
    + left. exists pv, (freep h), sf. split_and!; try done. apply HL. by left.
    + right. rewrite Z.eqb_refl. cbn [length]. replace (S fuel - 1)%nat with fuel by lia. split; [|done].
      by intros b ->%list_elem_of_singleton.
  - cbn [app next fst] in *. destruct Hk as [Hh Hk]. cbn in Hh. rewrite Hptr. cbn [malloc_loop].
    assert (Hs : size h a = s) by (unfold size; by rewrite Hh). rewrite Hs.
    destruct (Z.leb_spec n s).
    + left. exists pv, a, s. split_and!; try done. apply HL. by left.
    + pose proof (Hne (a, s) ltac:(by left)) as Hne0. cbn in Hne0. rewrite (proj2 (Z.eqb_neq _ _) Hne0).
      destruct (IH fuel a Hk) as [(pv' & a' & s' & H1 & H2 & H3 & H4 & H5)|[H1 H2]].
      * intros b Hb. apply HL. by right.
      * intros b Hb. apply Hne. by right.
      * exists s. apply HL. by left.
      * unfold ptr. by rewrite Hh.
      * cbn in Hf. lia.
      * left. exists pv', a', s'. by split_and!.
      * right. split; [|exact H2]. intros b [->|Hb]%elem_of_cons; [done|by apply H1].
Qed.

(** The blocks in the order of the search. *)
Lemma visit lo h L A x :
  good lo h L A x ->
  exists T sf e, link h (T ++ [(freep h, sf)]) e /\ (forall b, b ∈ T ++ [(freep h, sf)] <-> b ∈ L) /\
    (forall b, b ∈ T -> b.1 <> freep h) /\ ptr h (freep h) = next (T ++ [(freep h, sf)]) e /\ S (length T) = length L.
Proof.
  intros G. destruct (gd_freep _ _ _ _ _ G) as [sf Hf]. pose proof (fun b => same_addr _ _ _ _ _ b (freep h, sf) G) as Hu.
  pose proof (fun b => good_block _ _ _ _ _ b G) as Hblk. pose proof Hf as (L1 & L2 & EL)%list_elem_of_split.
  pose proof (gd_link _ _ _ _ _ G) as Hk. pose proof (gd_sorted _ _ _ _ _ G) as Hs. pose proof (gd_head _ _ _ _ _ G) as Hh.
  rewrite EL in Hk, Hs, Hh. apply link_app in Hk as [Hk1 [Hkf Hk2]]. cbn in Hkf.
  assert (Hn : forall e, next (L1 ++ [(freep h, sf)]) e = base) by (intros e; destruct L1; simplify_eq/=; done).
  exists (L2 ++ L1), sf, (next L2 base). split_and!.
  - rewrite <- app_assoc. apply link_app. rewrite Hn. split; [done|]. apply link_app. by split.
  - intros b. rewrite EL. set_solver.
  - intros b Hb E. assert (HbL : b ∈ L) by (rewrite EL; set_solver). pose proof (Hu b HbL Hf E) as ->.
    destruct (Hblk _ Hf) as (_ & ? & _). apply StronglySorted_app in Hs as (H12 & _ & Hs2).
    apply elem_of_app in Hb as [Hb|Hb]; [destruct (sorted_nonneg _ _ _ Hs2 ltac:(done) Hb); lia|].
    specialize (H12 _ (freep h, sf) Hb ltac:(by left)). blocks.
  - unfold ptr. rewrite Hkf. cbn [h_ptr]. rewrite <- app_assoc, next_app, Hn. by destruct L2.
  - rewrite EL, !length_app. cbn. lia.
Qed.

(** ** [morecore] *)

Lemma good_grow lo h L A nu g :
  good lo h L A 0 -> 1 <= nu -> brk h + HSZ * nu <= MMAPBASE ->
  let h' := set_size (brk h) nu (set_brk (brk h + HSZ * nu) g h) in
  good lo h' L A nu /\ fresh lo h' L A (brk h, nu) /\ size h' (brk h) = nu.
Proof.
  intros G Hnu Hbrk h'. pose proof (gd_lo _ _ _ _ _ G) as [Hb0 Hlo]. pose proof (gd_brk _ _ _ _ _ G) as [Hl Hm].
  pose proof (fun b => good_block _ _ _ _ _ b G) as Hblk.
  assert (Hne : forall b, b ∈ L -> b.1 <> brk h).
  { intros b Hb. destruct (gd_free _ _ _ _ _ G b Hb) as [->|]; blocks. }
  split; [split|split; [split|]]; unfold h'; cbn [brk set_size set_brk freep].
  - done.
  - eapply link_ext; [|apply (gd_link _ _ _ _ _ G)]. intros b Hb. cbn. rewrite fn_lookup_insert_ne; [done|].
    intros E. by apply (Hne b Hb).
  - apply (gd_head _ _ _ _ _ G).
  - apply (gd_sorted _ _ _ _ _ G).
  - intros b Hb. destruct (gd_free _ _ _ _ _ G b Hb); [by left|right; blocks].
  - intros a s Ha. destruct (gd_used _ _ _ _ _ G a s Ha) as [Hi Hs]. split; [blocks|].
    unfold size. cbn. rewrite fn_lookup_insert_ne; [done|]. blocks.
  - apply (gd_used_sep _ _ _ _ _ G).
  - apply (gd_sep _ _ _ _ _ G).
  - apply (gd_freep _ _ _ _ _ G).
  - blocks.
  - pose proof (gd_total _ _ _ _ _ G). blocks.
  - blocks.
  - intros b Hb. destruct (Hblk b Hb) as (_ & _ & ?). blocks.
  - intros a s Ha. destruct (gd_used _ _ _ _ _ G a s Ha) as [Hi _]. blocks.
  - unfold size. cbn. by rewrite fn_lookup_insert.
Qed.

Lemma good_freep lo h L A x : good lo h L A x -> freep h <> 0.
Proof.
  intros G. destruct (gd_freep _ _ _ _ _ G) as [s Hs]. pose proof (good_block _ _ _ _ _ _ G Hs) as (? & _).
  pose proof (gd_lo _ _ _ _ _ G). blocks.
Qed.

Lemma good_grants lo h L A x g : good lo h L A x -> good lo (set_brk (brk h) g h) L A x.
Proof. intros []. split; try done. eapply link_ext; [|done]. done. Qed.

Lemma morecore_run lo h L A n fuel :
  good lo h L A 0 -> 1 <= n -> n * HSZ < 2^31 -> (2 * length L <= fuel)%nat ->
  (exists h', morecore fuel n h = Some (0, h') /\ good lo h' L A 0) \/
  (exists h' L', morecore fuel n h = Some (freep h', h') /\ good lo h' L' A 0 /\ (length L' <= S (length L))%nat /\
     exists b, b ∈ L' /\ n <= b.2).
Proof.
  intros G Hn Hu Hf. unfold morecore. set (nu := if n <? 4096 then 4096 else n).
  assert (Hnu : n <= nu /\ 1 <= nu /\ 0 < nu * HSZ < 2^31) by (unfold nu, HSZ in *; destruct (Z.ltb_spec n 4096); lia).
  rewrite i32_small by (ints; lia). unfold sbrk. rewrite (proj2 (Z.ltb_lt _ _)) by lia.
  destruct (default true (head (grants h)) && (brk h + nu * HSZ <=? MMAPBASE)) eqn:E.
  - right. apply andb_true_iff in E as [_ E%Z.leb_le]. rewrite (Z.mul_comm nu) in *.
    destruct (good_grow lo h L A nu (tail (grants h)) G) as (G1 & F1 & S1); [lia|done|].
    pose proof (gd_lo _ _ _ _ _ G). pose proof (gd_brk _ _ _ _ _ G).
    rewrite (proj2 (Z.eqb_neq _ _)) by blocks.
    destruct (free_run _ _ _ _ _ _ fuel G1 F1 S1 Hf) as (h' & L' & -> & G' & _ & _ & Hlen & b & Hb & Hsz).
    exists h', L'. split; [done|]. split; [done|]. split; [done|]. exists b. split; [done|lia].
  - left. eexists. rewrite Z.eqb_refl. split; [done|]. by apply good_grants.
Qed.

Lemma loop_run lo h L A n fuel :
  good lo h L A 0 -> 1 <= n -> (length L <= fuel)%nat ->
  (exists q h' L', malloc_loop fuel n (freep h) (ptr h (freep h)) h = Some (q + HSZ, h') /\ A !! q = None /\
     good lo h' L' (<[q := n]> A) 0 /\ lo <= q) \/
  ((forall b, b ∈ L -> b.2 < n) /\ malloc_loop fuel n (freep h) (ptr h (freep h)) h = more (fuel - length L) n h).
Proof.
  intros G Hn Hf. destruct (visit lo h L A 0 G) as (T & sf & e & V1 & V2 & V3 & V4 & V5).
  destruct (find_scan_run h L n e sf T fuel (freep h) V1) as [(pv & a & s & H1 & H2 & H3 & H4 & H5)|[H1 H2]].
  - intros b Hb. by apply V2.
  - done.
  - exists sf. apply V2. set_solver.
  - done.
  - lia.
  - left. destruct (carve_run lo h L A pv a s n G H1 H2 H3) as (q & h' & L' & E & HA & G' & _ & Hq); [lia|].
    exists q, h', L'. rewrite H5, E. done.
  - right. rewrite H2, V5. split; [|done]. intros b Hb. apply H1. by apply V2.
Qed.

Lemma malloc_loop_run lo h L A n fuel :
  good lo h L A 0 -> 1 <= n -> n * HSZ < 2^31 -> (3 * length L + 2 <= fuel)%nat ->
  (exists h', malloc_loop fuel n (freep h) (ptr h (freep h)) h = Some (0, h') /\ good lo h' L A 0) \/
  (exists q h' L', malloc_loop fuel n (freep h) (ptr h (freep h)) h = Some (q + HSZ, h') /\ A !! q = None /\
     good lo h' L' (<[q := n]> A) 0 /\ lo <= q).
Proof.
  intros G Hn Hu Hf. destruct (loop_run lo h L A n fuel G Hn) as [H|[_ ->]]; [lia|by right|].
  unfold more. destruct (morecore_run lo h L A n (fuel - length L) G Hn Hu) as
    [(h' & -> & G')|(h' & L' & -> & G' & Hlen & b & Hb & Hsz)]; [lia|left; by exists h'|right]. cbn [mbind option_bind fst snd].
  rewrite (proj2 (Z.eqb_neq _ _) (good_freep _ _ _ _ _ G')).
  destruct (loop_run lo h' L' A n (fuel - length L) G' Hn) as [H|[H _]]; [lia|done|]. specialize (H b Hb). lia.
Qed.

(** ** Programs that use the allocator *)

(** Before the first [malloc] there is no free list. *)
Definition heap_ok (lo : Z) (h : heap) (A : gmap Z Z) : Prop :=
  (freep h = 0 /\ A = ∅ /\ brk h = lo /\ 0 < base /\ base + HSZ <= lo /\ lo <= MMAPBASE) \/
  exists L, good lo h L A 0.

Lemma first_list lo h :
  brk h = lo -> 0 < base -> base + HSZ <= lo -> lo <= MMAPBASE ->
  good lo (set_freep base (set_ptr base base (set_size base 0 h))) [(base, 0)] ∅ 0.
Proof.
  intros Hb H0 H1 H2. split; cbn [brk freep set_freep set_ptr set_size]; try done; try (intros; by rewrite lookup_empty in *).
  - split; [|done]. cbn. by rewrite !fn_lookup_insert.
  - repeat constructor.
  - intros b ->%list_elem_of_singleton. by left.
  - exists 0. by left.
  - lia.
  - rewrite Hb. unfold owned. rewrite map_fold_empty. cbn. lia.
Qed.

Lemma units_range n : 0 <= n <= 2^31 - 32 -> 1 <= units n /\ units n * HSZ < 2^31 /\ n <= HSZ * (units n - 1).
Proof.
  intros Hn. unfold units, HSZ in *. assert (Hd : 0 <= (n + 16 - 1) / 16 < 2^27) by (Z.div_mod_to_equations; lia).
  rewrite u32_small by (ints; lia). Z.div_mod_to_equations; lia.
Qed.

Lemma malloc_run lo h A n :
  heap_ok lo h A -> 0 <= n <= 2^31 - 32 ->
  exists N, forall fuel, (N <= fuel)%nat ->
  (exists h', malloc fuel n h = Some (0, h') /\ heap_ok lo h' A) \/
  (exists q h', malloc fuel n h = Some (q + HSZ, h') /\ A !! q = None /\ heap_ok lo h' (<[q := units n]> A) /\ lo <= q).
Proof.
  intros Hok Hn. destruct (units_range n Hn) as (U1 & U2 & _).
  assert (Hg : exists L, good lo (if freep h =? 0 then set_freep base (set_ptr base base (set_size base 0 h)) else h) L A 0).
  { destruct Hok as [(Hf & -> & ? & ? & ? & ?)|[L G]].
    - rewrite (proj2 (Z.eqb_eq _ _) Hf). exists [(base, 0)]. by apply first_list.
    - rewrite (proj2 (Z.eqb_neq _ _) (good_freep _ _ _ _ _ G)). by exists L. }
  destruct Hg as [L G]. exists (3 * length L + 2)%nat. intros fuel Hf. unfold malloc.
  destruct (malloc_loop_run _ _ _ _ (units n) fuel G U1 U2 Hf) as [(h' & -> & G')|(q & h' & L' & -> & HA & G' & Hq)].
  - left. exists h'. split; [done|]. right. by exists L.
  - right. exists q, h'. split_and!; try done. right. by exists L'.
Qed.

Lemma owned_delete A a s : A !! a = Some s -> owned A = s + owned (delete a A).
Proof. intros Ha. rewrite <- (owned_insert (delete a A) a s) by apply lookup_delete_eq. by rewrite insert_delete_id. Qed.

Lemma free_ok lo h A a s :
  heap_ok lo h A -> A !! a = Some s ->
  exists N, forall fuel, (N <= fuel)%nat -> exists h', free fuel (a + HSZ) h = Some h' /\ heap_ok lo h' (delete a A).
Proof.
  intros [(_ & -> & _)|[L G]] Ha; [by rewrite lookup_empty in Ha|]. exists (2 * length L)%nat. intros fuel Hf.
  destruct (gd_used _ _ _ _ _ G a s Ha) as [Hi Hsz].
  assert (Hd : forall x t, delete a A !! x = Some t -> x <> a /\ A !! x = Some t).
  { intros x t [? ?]%lookup_delete_Some. done. }
  destruct (free_run lo h L (delete a A) a s fuel) as (h' & L' & E & G' & _); [|split|done|done|].
  - destruct G. split; try done.
    + intros x t [_ Hx]%Hd. auto.
    + intros x t x' t' [_ Hx]%Hd [_ Hx']%Hd. auto.
    + intros x t b [_ Hx]%Hd. auto.
    + rewrite (owned_delete A a s Ha) in gd_total0. lia.
  - done.
  - intros b Hb. by apply (gd_sep _ _ _ _ _ G).
  - intros x t [Hne Hx]%Hd. apply (gd_used_sep _ _ _ _ _ G); auto.
  - exists h'. split; [done|]. right. by exists L'.
Qed.

(** A program and its heap: it calls [malloc] and [free], and writes to the
    blocks that it owns, behind their headers.  [A] is what it owns. *)
Inductive mstep : heap * gmap Z Z -> heap * gmap Z Z -> Prop :=
| ms_null fuel n h h' A :
    0 <= n <= 2^31 - 32 -> malloc fuel n h = Some (0, h') -> mstep (h, A) (h', A)
| ms_malloc fuel n p h h' A :
    0 <= n <= 2^31 - 32 -> malloc fuel n h = Some (p, h') -> p <> 0 -> mstep (h, A) (h', <[p - HSZ := units n]> A)
| ms_free fuel p s h h' A :
    A !! (p - HSZ) = Some s -> free fuel p h = Some h' -> mstep (h, A) (h', delete (p - HSZ) A)
| ms_write a s f h A :
    A !! a = Some s -> (forall x, x + HSZ <= a + HSZ \/ a + HSZ * s <= x -> f x = hdrs h x) ->
    mstep (h, A) (mkHeap f (freep h) (brk h) (grants h), A).

(** More fuel does not change a result. *)
Lemma find_place_mono f f' bp p h r : find_place f bp p h = Some r -> (f <= f')%nat -> find_place f' bp p h = Some r.
Proof.
  revert f' p. induction f as [|f IH]; intros [|f'] p E Hle; try done; [lia|]. cbn [find_place] in *.
  destruct (_ && _); [done|]. destruct (_ && _); [done|]. apply IH; [done|lia].
Qed.

Lemma free_mono f f' ap h r : free f ap h = Some r -> (f <= f')%nat -> free f' ap h = Some r.
Proof. unfold free. intros (p & E & [= <-])%bind_Some Hle. by rewrite (find_place_mono _ _ _ _ _ _ E Hle). Qed.

Lemma morecore_mono f f' n h r : morecore f n h = Some r -> (f <= f')%nat -> morecore f' n h = Some r.
Proof.
  unfold morecore. destruct (sbrk _ h) as [p h1]. destruct (p =? -1); [done|].
  intros (h2 & E & [= <-])%bind_Some Hle. by rewrite (free_mono _ _ _ _ _ E Hle).
Qed.

Lemma malloc_loop_mono f f' n pv p h r : malloc_loop f n pv p h = Some r -> (f <= f')%nat -> malloc_loop f' n pv p h = Some r.
Proof.
  revert f' pv p h. induction f as [|f IH]; intros [|f'] pv p h E Hle; try done; [lia|]. cbn [malloc_loop] in *.
  destruct (n <=? size h p); [done|]. destruct (p =? freep h); [|apply IH; [done|lia]].
  apply bind_Some in E as ([q h'] & Em & E). rewrite (morecore_mono f f' n h _ Em) by lia. cbn in E |- *.
  destruct (q =? 0); [done|]. apply IH; [done|lia].
Qed.

Lemma write_ok lo h A a s f :
  heap_ok lo h A -> A !! a = Some s -> (forall x, x + HSZ <= a + HSZ \/ a + HSZ * s <= x -> f x = hdrs h x) ->
  heap_ok lo (mkHeap f (freep h) (brk h) (grants h)) A.
Proof.
  intros [(_ & -> & _)|[L G]] Ha Hf; [by rewrite lookup_empty in Ha|]. right. exists L.
  destruct (gd_used _ _ _ _ _ G a s Ha) as [Hi _]. pose proof (gd_lo _ _ _ _ _ G).
  pose proof (gd_link _ _ _ _ _ G) as Hk. pose proof G as G0. destruct G. split; try done.
  - eapply link_ext; [|done]. intros b Hb. apply Hf. pose proof (gd_sep0 a s b Ha Hb).
    destruct (gd_free0 b Hb) as [->|]; blocks.
  - intros x t Hx. destruct (gd_used0 x t Hx) as [Hxi Hxs]. split; [done|]. unfold size. cbn. rewrite Hf; [done|].
    destruct (decide (x = a)) as [->|Hne]; [lia|]. pose proof (gd_used_sep0 x t a s Hx Ha Hne). blocks.
Qed.

Lemma mstep_ok lo h A h' A' : heap_ok lo h A -> mstep (h, A) (h', A') -> heap_ok lo h' A'.
Proof.
  intros Hok St. inversion St as [fuel n h0 h1 A0 Hn E|fuel n p h0 h1 A0 Hn E Hp|fuel p s h0 h1 A0 Ha E|a s f h0 A0 Ha Hf]; subst.
  - destruct (malloc_run lo h A' n Hok Hn) as [N H]. pose proof (malloc_loop_mono _ (max N fuel) _ _ _ _ _ E ltac:(lia)) as E'.
    destruct (H (max N fuel) ltac:(lia)) as [(h2 & E2 & Hok2)|(q & h2 & E2 & _ & _ & Hq)];
      unfold malloc in E2; rewrite E' in E2; simplify_eq; [done|].
    assert (Hlo : 0 < lo) by (destruct Hok as [(_ & _ & _ & ? & ? & _)|[L G]]; [|pose proof (gd_lo _ _ _ _ _ G)]; blocks). blocks.
  - destruct (malloc_run lo h A n Hok Hn) as [N H]. pose proof (malloc_loop_mono _ (max N fuel) _ _ _ _ _ E ltac:(lia)) as E'.
    destruct (H (max N fuel) ltac:(lia)) as [(h2 & E2 & Hok2)|(q & h2 & E2 & _ & Hok2 & Hq)];
      unfold malloc in E2; rewrite E' in E2; simplify_eq. by replace (q + HSZ - HSZ) with q by lia.
  - destruct (free_ok lo h A _ s Hok Ha) as [N H]. pose proof (free_mono _ (max N fuel) _ _ _ E ltac:(lia)) as E'.
    destruct (H (max N fuel) ltac:(lia)) as (h2 & E2 & Hok2). replace (p - HSZ + HSZ) with p in E2 by lia. congruence.
  - by eapply write_ok.
Qed.

(** The state before the first call: [brk] is the end of the program. *)
Definition before_malloc (h : heap) : Prop :=
  freep h = 0 /\ 0 < base /\ base + HSZ <= brk h /\ brk h <= MMAPBASE.

Lemma reach_ok h0 h A : before_malloc h0 -> rtc mstep (h0, ∅) (h, A) -> heap_ok (brk h0) h A.
Proof.
  intros (H1 & H2 & H3 & H4) R.
  assert (Hall : forall x y, rtc mstep x y -> heap_ok (brk h0) x.1 x.2 -> heap_ok (brk h0) y.1 y.2).
  { induction 1 as [x|[h1 A1] [h2 A2] z St _ IH]; [done|]. intros Hx. apply IH. by eapply mstep_ok. }
  apply (Hall _ _ R). left. cbn. done.
Qed.

(** C11. The allocator of the user library is safe and never hangs.  Whatever a
    program does with [malloc], [free] of blocks it owns, and writes inside them:
    the blocks it owns lie in the memory that the process got from [sbrk], do not
    overlap, and are together with the free list all of that memory; [malloc] and
    [free] return when their loops are given enough turns. *)
Theorem umalloc_safe h0 h A :
  before_malloc h0 -> rtc mstep (h0, ∅) (h, A) ->
  (forall a s, A !! a = Some s -> brk h0 <= a /\ a + HSZ * s <= brk h /\ size h a = s) /\
  (forall a s a' s', A !! a = Some s -> A !! a' = Some s' -> a <> a' -> sep (a, s) (a', s')) /\
  (exists L, (A <> ∅ -> link h L base) /\ (forall a s b, A !! a = Some s -> b ∈ L -> sep (a, s) b) /\
     HSZ * (total L + owned A) = brk h - brk h0) /\
  (forall n, 0 <= n <= 2^31 - 32 -> exists N, forall fuel, (N <= fuel)%nat -> is_Some (malloc fuel n h)) /\
  (forall a s, A !! a = Some s -> exists N, forall fuel, (N <= fuel)%nat -> is_Some (free fuel (a + HSZ) h)).
Proof.
  intros Hb R. pose proof (reach_ok h0 h A Hb R) as Hok. split_and!.
  - intros a s Ha. destruct Hok as [(_ & -> & _)|[L G]]; [by rewrite lookup_empty in Ha|].
    destruct (gd_used _ _ _ _ _ G a s Ha) as [(? & ? & ?) ?]. done.
  - intros a s a' s' Ha. destruct Hok as [(_ & -> & _)|[L G]]; [by rewrite lookup_empty in Ha|].
    by apply (gd_used_sep _ _ _ _ _ G).
  - destruct Hok as [(_ & -> & Hbrk & _)|[L G]].
    + exists []. split_and!; [done|intros a s b Ha; by rewrite lookup_empty in Ha|]. unfold owned. rewrite map_fold_empty. cbn. lia.
    + exists L. split_and!; [intros; apply (gd_link _ _ _ _ _ G)|apply (gd_sep _ _ _ _ _ G)|].
      rewrite <- (gd_total _ _ _ _ _ G). lia.
  - intros n Hn. destruct (malloc_run _ _ _ n Hok Hn) as [N H]. exists N. intros fuel Hf.
    destruct (H fuel Hf) as [(h' & -> & _)|(q & h' & -> & _)]; done.
  - intros a s Ha. destruct (free_ok _ _ _ a s Hok Ha) as [N H]. exists N. intros fuel Hf.
    destruct (H fuel Hf) as (h' & -> & _). done.
Qed.

End Umalloc.

(** ** Runs *)

(** A process of three pages, with [base] in its data segment. *)
Definition small_heap : heap := mkHeap (fun _ => mkH 0 0) 0 0x3000 [].

Lemma small_start : before_malloc 0x2000 small_heap.
Proof. unfold before_malloc, HSZ. cbn. unfold MMAPBASE. lia. Qed.

(** 100 bytes are 8 units with the header, from the end of the first 4096. *)
Lemma umalloc_safe_witness :
  exists h, rtc (mstep 0x2000) (small_heap, ∅) (h, <[0x3000 + 16 * 4088 := 8]> ∅) /\
    (size h (0x3000 + 16 * 4088) = 8) /\ (0x3000 + 16 * 4096 <= brk h).
Proof.
  assert (R : exists h, rtc (mstep 0x2000) (small_heap, ∅) (h, <[0x3000 + 16 * 4088 := 8]> ∅)).
  { eexists. eapply rtc_l; [|apply rtc_refl].
    apply (ms_malloc 0x2000 10 100 (0x3000 + 16 * 4088 + 16)); [lia|vm_compute; reflexivity|done]. }
  destruct R as [h R]. exists h. split; [exact R|].
  destruct (umalloc_safe 0x2000 small_heap h _ small_start R) as (H & _).
  destruct (H (0x3000 + 16 * 4088) 8) as (_ & H1 & H2); [by rewrite lookup_insert_eq|].
  split; [exact H2|]. unfold HSZ in H1. lia.
Defined.

(** The argument of [sbrk] is an [int]: a request of almost 4 GB asks the kernel
    for 16 bytes, and [malloc] returns a block that ends 4 GB behind the memory
    of the process. *)
Lemma malloc_huge_outside :
  match malloc 0x2000 10 0xffffffff small_heap with
  | Some (p, h) => p = 0x3010 /\ brk h = 0x3010 /\ size h (p - 16) = 2^28 + 1
  | None => False
  end.
Proof. vm_compute. done. Qed.
