(* ===== verification/Sh.v ===== *)
(** * The parser of the shell ([user/sh.c])

    The command line is the list of its bytes, without NUL; a pointer into it is
    an offset, and reading at the end gives the NUL.  The parser builds a tree of
    offsets, and [nulterminate] makes strings of them. *)

From S2P Require Import Prelude Riscv Mem State Printf User.

#[local] Open Scope Z_scope.

(** ** Commands *)

Inductive cmd : Type :=
| EXEC (argv : list (nat * nat))                 (* [argv[i]] and [eargv[i]] *)
| REDIR (c : cmd) (file efile : nat) (mode fd : Z)
| PIPE (left right : cmd)
| LIST (left right : cmd)
| BACK (c : cmd).

Definition MAXARGS : nat := 10.

(** The constructors; the memory that [malloc] gives is the node. *)
Definition execcmd : cmd := EXEC [].
Definition redircmd (subcmd : cmd) (file efile : nat) (mode fd : Z) : cmd := REDIR subcmd file efile mode fd.
Definition pipecmd (left right : cmd) : cmd := PIPE left right.
Definition listcmd (left right : cmd) : cmd := LIST left right.
Definition backcmd (subcmd : cmd) : cmd := BACK subcmd.

(** ** Tokens *)

Definition whitespace : list Z := [32; 9; 13; 10; 11].
Definition symbols : list Z := [60; 124; 62; 38; 59; 40; 41].

Definition in_set (l : list Z) (c : Z) : bool := match strchr l c with Some _ => true | None => false end.

(** [*s] at offset [i]. *)
Definition char_at (s : list Z) (i : nat) : Z := default 0 (s !! i).

(** [while(s < es && p( *s)) s++], with [n] characters to go. *)
Fixpoint skip (p : Z -> bool) (s : list Z) (n i : nat) : nat :=
  match n with
  | O => i
  | S n' => if p (char_at s i) then skip p s n' (S i) else i
  end.

Definition skip_ws (s : list Z) (i : nat) : nat := skip (in_set whitespace) s (length s - i) i.

Definition skip_word (s : list Z) (i : nat) : nat :=
  skip (fun c => negb (in_set whitespace c) && negb (in_set symbols c)) s (length s - i) i.

(** The token, [q], [eq] and the new [*ps]. *)
Definition gettoken (s : list Z) (i : nat) : Z * nat * nat * nat :=
  let q := skip_ws s i in
  let c := char_at s q in
  let '(ret, eq) :=
    if c =? 0 then (0, q)
    else if in_set [124; 40; 41; 59; 38; 60] c then (c, S q)
    else if c =? 62 then if char_at s (S q) =? 62 then (43, S (S q)) else (62, S q)
    else (97, skip_word s q) in
  (ret, q, eq, skip_ws s eq).

(** The new [*ps], and the answer. *)
Definition peek (s : list Z) (i : nat) (toks : list Z) : nat * bool :=
  let i' := skip_ws s i in
  (i', negb (char_at s i' =? 0) && in_set toks (char_at s i')).

(** ** The parser

    A run ends with a result and the new [*ps], or with a [panic], after what is
    printed before it; [P_fuel] is the bound on loops and recursion. *)

Inductive pres (A : Type) : Type :=
| P_ok (a : A) (i : nat)
| P_panic (out : list Z) (msg : string)
| P_fuel.
#[global] Arguments P_ok {A} a i.
#[global] Arguments P_panic {A} out msg.
#[global] Arguments P_fuel {A}.

Definition P (A : Type) : Type := nat -> pres A.

#[global] Instance P_ret : MRet P := fun A a i => P_ok a i.
#[global] Instance P_bind : MBind P := fun A B f m i =>
  match m i with
  | P_ok a i' => f a i'
  | P_panic out msg => P_panic out msg
  | P_fuel => P_fuel
  end.

Definition ppanic {A} (msg : string) : P A := fun _ => P_panic [] msg.

Section Parser.
Context (s : list Z).

Definition pgettoken : P (Z * nat * nat) := fun i => let '(ret, q, eq, i') := gettoken s i in P_ok (ret, q, eq) i'.
Definition ppeek (toks : list Z) : P bool := fun i => let '(i', b) := peek s i toks in P_ok b i'.

Fixpoint parseredirs (fuel : nat) (c : cmd) : P cmd :=
  match fuel with
  | O => fun _ => P_fuel
  | S f =>
      b ← ppeek [60; 62];
      if b : bool then
        t ← pgettoken;
        u ← pgettoken;
        if negb (u.1.1 =? 97) then ppanic "missing file for redirection"
        else
          let tok := t.1.1 in
          let c' :=
            if tok =? 60 then redircmd c u.1.2 u.2 O_RDONLY 0
            else if tok =? 62 then redircmd c u.1.2 u.2 (Z.lor (Z.lor O_WRONLY O_CREATE) O_TRUNC) 1
            else if tok =? 43 then redircmd c u.1.2 u.2 (Z.lor O_WRONLY O_CREATE) 1
            else c in
          parseredirs f c'
      else mret c
  end.

(** [cmd->argv[argc] = q; cmd->eargv[argc] = eq;]: [cmd] is the command at the
    bottom of [ret], behind the redirections. *)
Fixpoint push_arg (ret : cmd) (w : nat * nat) : cmd :=
  match ret with
  | EXEC argv => EXEC (argv ++ [w])
  | REDIR c file efile mode fd => REDIR (push_arg c w) file efile mode fd
  | c => c
  end.

(** The loop of [parseexec]. *)
Fixpoint parseargs (fuel argc : nat) (ret : cmd) : P cmd :=
  match fuel with
  | O => fun _ => P_fuel
  | S f =>
      b ← ppeek [124; 41; 38; 59];
      if b : bool then mret ret
      else
        t ← pgettoken;
        if t.1.1 =? 0 then mret ret
        else if negb (t.1.1 =? 97) then ppanic "syntax"
        else if decide (MAXARGS <= S argc)%nat then ppanic "too many args"
        else
          ret' ← parseredirs (S (length s)) (push_arg ret (t.1.2, t.2));
          parseargs f (S argc) ret'
  end.

(** [parseline] is an argument of the functions that it calls. *)
Definition parseblock (parseline : P cmd) : P cmd :=
  b ← ppeek [40];
  if negb b then ppanic "parseblock"
  else
    pgettoken ;;
    c ← parseline;
    b ← ppeek [41];
    if negb b then ppanic "syntax - missing )"
    else
      pgettoken ;;
      parseredirs (S (length s)) c.

Definition parseexec (parseline : P cmd) : P cmd :=
  b ← ppeek [40];
  if b : bool then parseblock parseline
  else
    ret ← parseredirs (S (length s)) execcmd;
    parseargs (S (length s)) 0 ret.

Fixpoint parsepipe (fuel : nat) (parseline : P cmd) : P cmd :=
  match fuel with
  | O => fun _ => P_fuel
  | S f =>
      c ← parseexec parseline;
      b ← ppeek [124];
      if b : bool then
        pgettoken ;;
        r ← parsepipe f parseline;
        mret (pipecmd c r)
      else mret c
  end.

(** The loop of [parseline]. *)
Fixpoint parseback (fuel : nat) (c : cmd) : P cmd :=
  match fuel with
  | O => fun _ => P_fuel
  | S f =>
      b ← ppeek [38];
      if b : bool then pgettoken ;; parseback f (backcmd c) else mret c
  end.

Fixpoint parseline (fuel : nat) : P cmd :=
  match fuel with
  | O => fun _ => P_fuel
  | S f =>
      c ← parsepipe (S (length s)) (parseline f);
      c ← parseback (S (length s)) c;
      b ← ppeek [59];
      if b : bool then
        pgettoken ;;
        r ← parseline f;
        mret (listcmd c r)
      else mret c
  end.

(** [nulterminate] writes a NUL behind every word. *)
Fixpoint nulterminate (c : cmd) (b : list Z) : list Z :=
  match c with
  | EXEC argv => foldl (fun b w => <[w.2 := 0]> b) b argv
  | REDIR c _ efile _ _ => <[efile := 0]> (nulterminate c b)
  | PIPE l r | LIST l r => nulterminate r (nulterminate l b)
  | BACK c => nulterminate c b
  end.

(** The tree, and the buffer with the NULs. *)
Definition parsecmd : pres (cmd * list Z) :=
  match parseline (S (length s)) 0%nat with
  | P_ok c i =>
      let i' := (peek s i []).1 in
      if decide (i' = length s) then P_ok (c, nulterminate c s) i'
      else P_panic (str "leftovers: " ++ drop i' s ++ [10]) "syntax"
  | P_panic out msg => P_panic out msg
  | P_fuel => P_fuel
  end.

End Parser.

(** ** The tokenizer *)

Definition word_char (c : Z) : bool := negb (in_set whitespace c) && negb (in_set symbols c).

(** [[q, e)] is a maximal run of word characters. *)
Definition word (s : list Z) (q e : nat) : Prop :=
  (q < e <= length s)%nat /\
  (forall j, (q <= j < e)%nat -> word_char (char_at s j) = true) /\
  (e = length s \/ word_char (char_at s e) = false).

Lemma in_set_spec l c : 0 ∉ l -> in_set l c = true <-> c ∈ l.
Proof.
  unfold in_set. induction l as [|x l IH]; cbn [strchr]; intros H.
  { split; [done|]. by intros ?%elem_of_nil. }
  apply not_elem_of_cons in H as [Hx Hl]. specialize (IH Hl).
  destruct (Z.eqb_spec x 0); [lia|]. destruct (Z.eqb_spec x c) as [->|Hc].
  { split; [|done]. intros _. apply elem_of_cons. by left. }
  rewrite elem_of_cons, <- IH. destruct (strchr l c); cbn; split; auto.
  intros [->|?]; done.
Qed.

Lemma symbols_split c : in_set symbols c = in_set [124; 40; 41; 59; 38; 60] c || (c =? 62).
Proof.
  apply eq_true_iff_eq. rewrite orb_true_iff, Z.eqb_eq, !in_set_spec by set_solver.
  unfold symbols. set_solver.
Qed.

Lemma char_at_end s i : (length s <= i)%nat -> char_at s i = 0.
Proof. intros H. unfold char_at. by rewrite lookup_ge_None_2. Qed.

Lemma char_at_lt s i : char_at s i <> 0 -> (i < length s)%nat.
Proof. intros H. destruct (decide (i < length s)%nat); [done|]. destruct H. apply char_at_end. lia. Qed.

Section Skip.
Context (p : Z -> bool) (s : list Z).

Lemma skip_bounds n i : (i <= skip p s n i <= i + n)%nat.
Proof.
  revert i. induction n as [|n IH]; intros i; cbn [skip]; [lia|].
  destruct (p _); [|lia]. specialize (IH (S i)). lia.
Qed.

Lemma skip_all n i j : (i <= j < skip p s n i)%nat -> p (char_at s j) = true.
Proof.
  revert i. induction n as [|n IH]; intros i; cbn [skip]; [lia|].
  destruct (p (char_at s i)) eqn:E; [|lia]. intros H. destruct (decide (j = i)) as [->|]; [done|].
  apply (IH (S i)). lia.
Qed.

Lemma skip_stop n i : (skip p s n i < i + n)%nat -> p (char_at s (skip p s n i)) = false.
Proof.
  revert i. induction n as [|n IH]; intros i; cbn [skip]; [lia|].
  destruct (p (char_at s i)) eqn:E; [|done]. intros H. apply IH. lia.
Qed.

(** On a text that goes on with [w], all of whose characters satisfy [p]. *)
Lemma skip_app w r i :
  drop i s = w ++ r -> Forall (fun c => p c = true) w ->
  (r = [] \/ exists c r', r = c :: r' /\ p c = false) ->
  skip p s (length s - i) i = (i + length w)%nat.
Proof.
  intros Hd Hw Hr. rewrite <- length_drop, Hd, length_app. revert i Hd.
  induction Hw as [|x w Hx Hw IH]; intros i Hd; cbn [length Nat.add].
  - destruct Hr as [->|(c & r' & -> & Hc)]; cbn [length skip]; [lia|].
    assert (char_at s i = c) as ->.
    { unfold char_at. by rewrite <- (Nat.add_0_r i), <- lookup_drop, Hd. }
    rewrite Hc. lia.
  - cbn [skip app] in *. assert (char_at s i = x) as ->.
    { unfold char_at. by rewrite <- (Nat.add_0_r i), <- lookup_drop, Hd. }
    rewrite Hx, IH; [lia|]. replace (S i) with (i + 1)%nat by lia. by rewrite <- drop_drop, Hd.
Qed.
End Skip.

Lemma skip_ws_bounds s i : (i <= length s)%nat -> (i <= skip_ws s i <= length s)%nat.
Proof. intros H. pose proof (skip_bounds (in_set whitespace) s (length s - i) i). unfold skip_ws. lia. Qed.

Lemma skip_ws_stop s i : in_set whitespace (char_at s (skip_ws s i)) = false.
Proof.
  unfold skip_ws. pose proof (skip_bounds (in_set whitespace) s (length s - i) i) as Hb.
  destruct (decide (skip (in_set whitespace) s (length s - i) i < i + (length s - i))%nat) as [Hl|Hl].
  { by apply skip_stop. }
  rewrite char_at_end by lia. done.
Qed.

Lemma skip_ws_idem s i : in_set whitespace (char_at s i) = false -> skip_ws s i = i.
Proof. intros H. unfold skip_ws. destruct (length s - i)%nat; cbn [skip]; [done|]. by rewrite H. Qed.

Lemma skip_word_word s q :
  (q < length s)%nat -> word_char (char_at s q) = true -> word s q (skip_word s q).
Proof.
  intros Hq Hc. unfold skip_word. fold word_char.
  change (fun c => negb (in_set whitespace c) && negb (in_set symbols c)) with word_char.
  pose proof (skip_bounds word_char s (length s - q) q) as Hb.
  split; [|split].
  - split; [|lia]. destruct (length s - q)%nat eqn:E; [lia|]. cbn [skip]. rewrite Hc.
    pose proof (skip_bounds word_char s n (S q)). lia.
  - intros j. apply skip_all.
  - destruct (decide (skip word_char s (length s - q) q = length s)) as [|Hn]; [by left|right].
    apply skip_stop. lia.
Qed.

(** What a call of [gettoken] gives: the offsets are in order, a token is not
    empty, and an ['a'] is a word. *)
Lemma gettoken_spec s i r q e i' :
  (i <= length s)%nat -> gettoken s i = (r, q, e, i') ->
  (i <= q <= e)%nat /\ (e <= i' <= length s)%nat /\ (r <> 0 -> (i < i')%nat) /\
  (r = 97 -> word s q e) /\ (r = 0 <-> char_at s (skip_ws s i) = 0).
Proof.
  intros Hi. unfold gettoken. pose proof (skip_ws_bounds s i Hi) as Hq.
  pose proof (skip_ws_stop s i) as Hws. set (k := skip_ws s i) in *.
  destruct (Z.eqb_spec (char_at s k) 0) as [H0|H0].
  { intros [= <- <- <- <-]. pose proof (skip_ws_bounds s k ltac:(lia)). split_and!; try lia; done. }
  pose proof (char_at_lt s k H0) as Hk. pose proof (skip_ws_bounds s (S k) ltac:(lia)) as H1.
  destruct (in_set [124; 40; 41; 59; 38; 60] (char_at s k)) eqn:Hsym.
  { intros [= <- <- <- <-]. split_and!; try lia. intros Ha. by rewrite Ha in Hsym. }
  destruct (Z.eqb_spec (char_at s k) 62) as [Hgt|Hgt].
  { destruct (Z.eqb_spec (char_at s (S k)) 62) as [Hgg|Hgg]; intros [= <- <- <- <-].
    - pose proof (char_at_lt s (S k) ltac:(lia)). pose proof (skip_ws_bounds s (S (S k)) ltac:(lia)).
      split_and!; lia.
    - split_and!; lia. }
  intros [= <- <- <- <-].
  assert (word s k (skip_word s k)) as Hw.
  { apply skip_word_word; [done|]. unfold word_char. rewrite Hws. cbn.
    rewrite symbols_split, Hsym. by apply Z.eqb_neq in Hgt as ->. }
  destruct Hw as (Hb & Hw). pose proof (skip_ws_bounds s (skip_word s k) ltac:(lia)).
  split_and!; try lia. done.
Qed.

(** ** Every run of the parser ends, with a well-formed tree *)

(** The words of a tree, in the order in which [nulterminate] meets them. *)
Fixpoint words (c : cmd) : list (nat * nat) :=
  match c with
  | EXEC argv => argv
  | REDIR c file efile _ _ => words c ++ [(file, efile)]
  | PIPE l r | LIST l r => words l ++ words r
  | BACK c => words c
  end.

(** The mode and the descriptor of a redirection. *)
Definition redir_modes : list (Z * Z) :=
  [(O_RDONLY, 0); (Z.lor (Z.lor O_WRONLY O_CREATE) O_TRUNC, 1); (Z.lor O_WRONLY O_CREATE, 1)].

(** The arrays of an [execcmd] have room for the arguments and their final 0, and
    a redirection is one of the three kinds. *)
Fixpoint shaped (c : cmd) : Prop :=
  match c with
  | EXEC argv => (length argv < MAXARGS)%nat
  | REDIR c _ _ mode fd =>
      shaped c /\ (mode, fd) ∈ redir_modes
  | PIPE l r | LIST l r => shaped l /\ shaped r
  | BACK c => shaped c
  end.

Definition cmd_wf (s : list Z) (c : cmd) : Prop :=
  shaped c /\ Forall (fun w => word s w.1 w.2) (words c).

(** The arguments of the [execcmd] behind the redirections. *)
Fixpoint args_of (c : cmd) : option (list (nat * nat)) :=
  match c with
  | EXEC argv => Some argv
  | REDIR c _ _ _ _ => args_of c
  | _ => None
  end.

Section Runs.
Context (s : list Z).

(** A run of [m] from offset [i] ends, moves forward, and its result satisfies [Q]. *)
Definition runs {A} (m : P A) (Q : A -> nat -> Prop) (i : nat) : Prop :=
  match m i with
  | P_ok a j => (i <= j <= length s)%nat /\ Q a j
  | P_panic _ _ => True
  | P_fuel => False
  end.

Lemma runs_ret {A} (a : A) (Q : A -> nat -> Prop) i : (i <= length s)%nat -> Q a i -> runs (mret a) Q i.
Proof. intros Hi HQ. split; [lia|done]. Qed.

Lemma runs_bind {A B} (m : P A) (f : A -> P B) (R : A -> nat -> Prop) (Q : B -> nat -> Prop) i :
  runs m R i -> (forall a j, (i <= j <= length s)%nat -> R a j -> runs (f a) Q j) -> runs (m ≫= f) Q i.
Proof.
  unfold runs, mbind, P_bind. intros Hm Hf. destruct (m i) as [a j| |]; try done.
  destruct Hm as [Hj HR]. specialize (Hf a j Hj HR). destruct (f a j) as [b k| |]; try done.
  destruct Hf. split; [lia|done].
Qed.

Lemma runs_peek {A} toks (f : bool -> P A) (Q : A -> nat -> Prop) i :
  (i <= length s)%nat ->
  (forall b j, (i <= j <= length s)%nat -> (b = true -> char_at s j <> 0 /\ skip_ws s j = j) -> runs (f b) Q j) ->
  runs (ppeek s toks ≫= f) Q i.
Proof.
  intros Hi Hf. apply (runs_bind _ _ (fun b j => b = true -> char_at s j <> 0 /\ skip_ws s j = j)); [|exact Hf].
  unfold runs, ppeek, peek. split; [by apply skip_ws_bounds|].
  intros [Hb _]%andb_prop. split; [|apply skip_ws_idem, skip_ws_stop].
  intros Hz. by rewrite Hz in Hb.
Qed.

Lemma runs_gettoken {A} (f : Z * nat * nat -> P A) (Q : A -> nat -> Prop) i :
  (i <= length s)%nat ->
  (forall r q e j, (i <= j <= length s)%nat -> (r <> 0 -> (i < j)%nat) ->
     (char_at s i <> 0 /\ skip_ws s i = i -> (i < j)%nat) -> (r = 97 -> word s q e) -> runs (f (r, q, e)) Q j) ->
  runs (pgettoken s ≫= f) Q i.
Proof.
  intros Hi Hf.
  apply (runs_bind _ _ (fun t j => (t.1.1 <> 0 -> (i < j)%nat) /\
    (char_at s i <> 0 /\ skip_ws s i = i -> (i < j)%nat) /\ (t.1.1 = 97 -> word s t.1.2 t.2))).
  - unfold runs, pgettoken. destruct (gettoken s i) as [[[r q] e] j] eqn:E.
    apply gettoken_spec in E as (? & ? & H1 & H2 & H3); [|done]. split; [lia|].
    split_and!; cbn [fst snd]; try done. intros [Hc Hk]. apply H1. rewrite H3, Hk. done.
  - intros [[r q] e] j Hj (H1 & H2 & H3). by apply Hf.
Qed.

Lemma redirs_run fuel c (I : cmd -> Prop) i :
  (length s - i < fuel)%nat -> (i <= length s)%nat -> I c ->
  (forall c q e mode fd, I c -> word s q e ->
     (mode, fd) ∈ redir_modes ->
     I (REDIR c q e mode fd)) ->
  runs (parseredirs s fuel c) (fun c' _ => I c') i.
Proof.
  intros Hf Hi Hc HI. revert c i Hf Hi Hc.
  induction fuel as [|fuel IH]; intros c i Hf Hi Hc; [lia|]. cbn [parseredirs].
  apply runs_peek; [done|]. intros [] j Hj Hb; [|by apply runs_ret; [lia|]].
  apply runs_gettoken; [lia|]. intros r q e k Hk _ Hjk _. specialize (Hjk (Hb eq_refl)).
  apply runs_gettoken; [lia|]. intros r' q' e' k' Hk' _ _ Hw. cbn [fst snd].
  destruct (Z.eqb_spec r' 97) as [->|]; [|done]. cbn [negb]. specialize (Hw eq_refl).
  apply IH; try lia. repeat case_match; try done; apply HI; try done; unfold redir_modes; set_solver.
Qed.

Lemma push_arg_wf c av w :
  cmd_wf s c -> args_of c = Some av -> (S (length av) < MAXARGS)%nat -> word s w.1 w.2 ->
  cmd_wf s (push_arg c w) /\ args_of (push_arg c w) = Some (av ++ [w]).
Proof.
  intros [Hs Hw] Ha Hl Hword. unfold cmd_wf.
  induction c as [argv|c IH file efile mode fd| | |]; try done; cbn in *.
  - injection Ha as ->. rewrite length_app, Forall_app. cbn. split_and!; try done; [lia|]. by constructor.
  - destruct Hs as [Hs Hm]. apply Forall_app in Hw as [Hw Hfile].
    destruct (IH Hs Hw Ha) as ((? & ?) & ?). rewrite Forall_app. done.
Qed.

Lemma wf_redir c q e mode fd :
  cmd_wf s c -> word s q e ->
  (mode, fd) ∈ redir_modes ->
  cmd_wf s (REDIR c q e mode fd).
Proof.
  intros [Hs Hw] Hq Hm. split; [done|]. cbn [words]. apply Forall_app. split; [done|]. by constructor.
Qed.

Lemma wf_pair l r : cmd_wf s l -> cmd_wf s r -> cmd_wf s (PIPE l r) /\ cmd_wf s (LIST l r).
Proof. intros [? ?] [? ?]. unfold cmd_wf. cbn. rewrite Forall_app. done. Qed.

Lemma args_run fuel ret av i :
  (length s - i < fuel)%nat -> (i <= length s)%nat -> cmd_wf s ret -> args_of ret = Some av ->
  (length av < MAXARGS)%nat -> runs (parseargs s fuel (length av) ret) (fun c _ => cmd_wf s c) i.
Proof.
  revert ret av i. induction fuel as [|fuel IH]; intros ret av i Hf Hi Hwf Ha Hl; [lia|].
  cbn [parseargs]. apply runs_peek; [done|]. intros [] j Hj _; [by apply runs_ret; [lia|]|].
  apply runs_gettoken; [lia|]. intros r q e k Hk Hjk _ Hw. cbn [fst snd].
  destruct (Z.eqb_spec r 0) as [|H0]; [by apply runs_ret; [lia|]|].
  destruct (Z.eqb_spec r 97) as [->|]; [|done]. cbn [negb].
  case_decide as Hm; [done|]. specialize (Hjk H0).
  destruct (push_arg_wf ret av (q, e) Hwf Ha) as [Hwf' Ha']; [lia|by apply Hw|].
  eapply runs_bind.
  { apply (redirs_run _ _ (fun c => cmd_wf s c /\ args_of c = Some (av ++ [(q, e)]))); [lia|lia|done|].
    intros c q' e' mode fd [? ?] ? ?. split; [by apply wf_redir|done]. }
  cbn beta. intros c k' Hk' [Hwf'' Ha'']. pose proof (length_app av [(q, e)]) as Hlen. cbn in Hlen.
  replace (S (length av)) with (length (av ++ [(q, e)])) by lia. apply IH; try done; lia.
Qed.

Lemma exec_run pl i :
  (i <= length s)%nat ->
  (forall j, (i < j <= length s)%nat -> runs pl (fun c _ => cmd_wf s c) j) ->
  runs (parseexec s pl) (fun c _ => cmd_wf s c) i.
Proof.
  intros Hi Hpl. unfold parseexec. apply runs_peek; [done|]. intros [] j Hj _.
  - unfold parseblock. apply runs_peek; [lia|]. intros [] j' Hj' Hb; [|done]. cbn [negb].
    apply runs_gettoken; [lia|]. intros r q e k Hk _ Hjk _. specialize (Hjk (Hb eq_refl)).
    eapply runs_bind; [apply Hpl; lia|]. cbn beta. intros c m Hm Hc.
    apply runs_peek; [lia|]. intros [] m' Hm' _; [|done]. cbn [negb].
    apply runs_gettoken; [lia|]. intros r' q' e' n Hn _ _ _.
    apply redirs_run; [lia|lia|done|]. intros. by apply wf_redir.
  - eapply runs_bind.
    { apply (redirs_run _ _ (fun c => cmd_wf s c /\ args_of c = Some [])); [lia|lia| |].
      - split; [|done]. split; [cbn; unfold MAXARGS; lia|]. constructor.
      - intros c q e mode fd [? ?] ? ?. split; [by apply wf_redir|done]. }
    cbn beta. intros c k Hk [Hc Ha]. apply (args_run _ _ []); try done; [lia|lia|]. cbn. unfold MAXARGS. lia.
Qed.

Lemma pipe_run fuel pl i :
  (length s - i < fuel)%nat -> (i <= length s)%nat ->
  (forall j, (i < j <= length s)%nat -> runs pl (fun c _ => cmd_wf s c) j) ->
  runs (parsepipe s fuel pl) (fun c _ => cmd_wf s c) i.
Proof.
  revert i. induction fuel as [|fuel IH]; intros i Hf Hi Hpl; [lia|]. cbn [parsepipe].
  eapply runs_bind; [by apply exec_run|]. cbn beta. intros c j Hj Hc.
  apply runs_peek; [lia|]. intros [] j' Hj' Hb; [|by apply runs_ret; [lia|]].
  apply runs_gettoken; [lia|]. intros r q e k Hk _ Hjk _. specialize (Hjk (Hb eq_refl)).
  eapply runs_bind; [apply IH; try lia; intros; apply Hpl; lia|]. cbn beta. intros c' m Hm Hc'.
  apply runs_ret; [lia|]. by apply wf_pair.
Qed.

Lemma back_run fuel c i :
  (length s - i < fuel)%nat -> (i <= length s)%nat -> cmd_wf s c ->
  runs (parseback s fuel c) (fun c _ => cmd_wf s c) i.
Proof.
  revert c i. induction fuel as [|fuel IH]; intros c i Hf Hi Hc; [lia|]. cbn [parseback].
  apply runs_peek; [lia|]. intros [] j' Hj' Hb; [|by apply runs_ret; [lia|]].
  apply runs_gettoken; [lia|]. intros r q e k Hk _ Hjk _. specialize (Hjk (Hb eq_refl)).
  apply IH; [lia|lia|]. destruct Hc. by split.
Qed.

Lemma line_run fuel i :
  (length s - i < fuel)%nat -> (i <= length s)%nat -> runs (parseline s fuel) (fun c _ => cmd_wf s c) i.
Proof.
  revert i. induction fuel as [|fuel IH]; intros i Hf Hi; [lia|]. cbn [parseline].
  eapply runs_bind; [apply pipe_run; [lia|lia|]; intros; apply IH; lia|]. cbn beta. intros c j Hj Hc.
  eapply runs_bind; [apply back_run; [lia|lia|done]|]. cbn beta. intros c' j' Hj' Hc'.
  apply runs_peek; [lia|]. intros [] k Hk Hb; [|by apply runs_ret; [lia|]].
  apply runs_gettoken; [lia|]. intros r q e k' Hk' _ Hjk _. specialize (Hjk (Hb eq_refl)).
  eapply runs_bind; [apply IH; lia|]. cbn beta. intros c'' m Hm Hc''.
  apply runs_ret; [lia|]. by apply wf_pair.
Qed.
End Runs.

(** ** The strings of a parsed line *)

(** The text of a word, and the C string at an offset of the buffer. *)
Definition slice (s : list Z) (w : nat * nat) : list Z := take (w.2 - w.1) (drop w.1 s).

Fixpoint upto_nul (l : list Z) : list Z :=
  match l with
  | [] => []
  | c :: l' => if c =? 0 then [] else c :: upto_nul l'
  end.

Definition cstr_at (b : list Z) (q : nat) : list Z := upto_nul (drop q b).

Definition put_nul (b : list Z) (w : nat * nat) : list Z := <[w.2 := 0]> b.

Lemma nulterminate_words c b : nulterminate c b = foldl put_nul b (words c).
Proof.
  revert b. induction c as [argv|c IH| | |c IH]; intros b; cbn [nulterminate words]; try done.
  - by rewrite foldl_app, IH.
  - by rewrite foldl_app, IHc1, IHc2.
  - by rewrite foldl_app, IHc1, IHc2.
Qed.

Lemma put_nuls_other ws b j : j ∉ ws.*2 -> foldl put_nul b ws !! j = b !! j.
Proof.
  revert b. induction ws as [|w ws IH]; intros b Hj; [done|]. cbn in *.
  apply not_elem_of_cons in Hj as [? ?]. rewrite IH by done. unfold put_nul. by rewrite list_lookup_insert_ne.
Qed.

Lemma put_nuls_at ws b j : j ∈ ws.*2 -> (j < length b)%nat -> foldl put_nul b ws !! j = Some 0.
Proof.
  revert b. induction ws as [|w ws IH]; intros b Hj Hl; cbn in *; [by apply elem_of_nil in Hj|].
  destruct (decide (j ∈ ws.*2)) as [Hin|Hin].
  { apply IH; [done|]. unfold put_nul. by rewrite length_insert. }
  apply elem_of_cons in Hj as [->|]; [|done]. rewrite put_nuls_other by done.
  unfold put_nul. by rewrite list_lookup_insert_eq.
Qed.

Lemma put_nuls_length ws b : length (foldl put_nul b ws) = length b.
Proof. revert b. induction ws as [|w ws IH]; intros b; [done|]. cbn. rewrite IH. apply length_insert. Qed.

(** A buffer that agrees with [s] on a run without NUL that a NUL or the end follows. *)
Lemma cstr_at_slice b s q e :
  length b = length s -> (q <= e <= length s)%nat -> 0 ∉ s ->
  (forall j, (q <= j < e)%nat -> b !! j = s !! j) -> (e = length s \/ b !! e = Some 0) ->
  cstr_at b q = slice s (q, e).
Proof.
  intros Hlen Hq H0 Hj He. unfold cstr_at, slice. cbn [fst snd].
  remember (e - q)%nat as n eqn:Hn. revert q Hq Hj Hn.
  induction n as [|n IH]; intros q Hq Hj Hn.
  - assert (q = e) as -> by lia. cbn. destruct He as [->|He]; [by rewrite <- Hlen, drop_all|].
    by rewrite (drop_S _ _ _ He).
  - destruct (lookup_lt_is_Some_2 s q ltac:(lia)) as [c Hc].
    rewrite (drop_S s c q Hc), (drop_S b c q) by (rewrite Hj by lia; done). cbn.
    destruct (Z.eqb_spec c 0) as [->|_]; [by apply list_elem_of_lookup_2 in Hc|].
    f_equal. apply IH; [lia| |lia]. intros j ?. apply Hj. lia.
Qed.

Lemma char_at_lookup s j : (j < length s)%nat -> s !! j = Some (char_at s j).
Proof. intros H. unfold char_at. by destruct (lookup_lt_is_Some_2 s j H) as [c ->]. Qed.

(** The NULs fall outside the words. *)
Lemma word_string s ws q e :
  0 ∉ s -> Forall (fun w => word s w.1 w.2) ws -> (q, e) ∈ ws ->
  cstr_at (foldl put_nul s ws) q = slice s (q, e).
Proof.
  intros H0 Hws Hin. pose proof (proj1 (Forall_forall _ _) Hws _ Hin) as (Hb & Hc & _). cbn in Hb, Hc.
  apply cstr_at_slice; try done.
  - apply put_nuls_length.
  - lia.
  - intros j Hj. apply put_nuls_other. intros (w & -> & Hw)%list_elem_of_fmap.
    pose proof (proj1 (Forall_forall _ _) Hws _ Hw) as (Hwb & _ & Hwe).
    destruct Hwe as [Hwe|Hwe]; [lia|]. by rewrite Hc in Hwe.
  - destruct (decide (e = length s)); [by left|right]. apply put_nuls_at; [|lia].
    apply list_elem_of_fmap. by exists (q, e).
Qed.

Lemma parsecmd_run s :
  match parsecmd s with
  | P_ok (c, b) i => i = length s /\ cmd_wf s c /\ b = foldl put_nul s (words c)
  | P_panic _ _ => True
  | P_fuel => False
  end.
Proof.
  pose proof (line_run s (S (length s)) 0 ltac:(lia) ltac:(lia)) as H. unfold runs in H. unfold parsecmd.
  destruct (parseline s (S (length s)) 0%nat) as [c i| |]; try done. destruct H as [Hi Hc].
  case_decide; [|done]. split_and!; try done. apply nulterminate_words.
Qed.

(** C29. Parsing a command line always ends, with a tree or with a [panic] of the
    shell: every loop and recursion of the parser consumes input.  A tree that
    comes back is well formed: every argument and file name is a maximal run of word
    characters inside the line, an [execcmd] has at most [MAXARGS - 1] arguments, so
    that the final 0 of [argv] is inside the array, every redirection is one of the
    three kinds, and the C string at each word of the buffer with the NULs is the
    text of that word: the NUL behind one word never falls into another. *)
Theorem parsecmd_well_formed s :
  0 ∉ s ->
  match parsecmd s with
  | P_ok (c, b) i =>
      i = length s /\ cmd_wf s c /\ length b = length s /\
      forall q e, (q, e) ∈ words c -> cstr_at b q = slice s (q, e)
  | P_panic _ _ => True
  | P_fuel => False
  end.
Proof.
  intros H0. pose proof (parsecmd_run s) as H. destruct (parsecmd s) as [[c b] i| |]; try done.
  destruct H as (-> & Hwf & ->). split_and!; try done; [apply put_nuls_length|].
  intros q e Hin. destruct Hwf as [_ Hw]. by apply word_string.
Qed.

(** [a<b|c>d] and a newline. *)
Lemma parsecmd_well_formed_witness :
  exists c b, parsecmd [97; 60; 98; 124; 99; 62; 100; 10] = P_ok (c, b) 8%nat /\
    c = PIPE (REDIR (EXEC [(0, 1)%nat]) 2 3 0 0) (REDIR (EXEC [(4, 5)%nat]) 6 7 0x601 1) /\
    cstr_at b 4 = [99] /\ length b = 8%nat.
Proof.
  pose proof (parsecmd_well_formed [97; 60; 98; 124; 99; 62; 100; 10] ltac:(set_solver)) as H.
  destruct (parsecmd [97; 60; 98; 124; 99; 62; 100; 10]) as [[c b] i| |] eqn:E; [|by vm_compute in E..].
  destruct H as (Hi & _ & Hl & Hw). exists c, b. subst i. split; [done|].
  assert (c = PIPE (REDIR (EXEC [(0, 1)%nat]) 2 3 0 0) (REDIR (EXEC [(4, 5)%nat]) 6 7 0x601 1)) as ->.
  { vm_compute in E. congruence. }
  split; [done|]. split; [|done]. apply (Hw 4%nat 5%nat). do 2 right. left.
Defined.
