(* ===== verification/ShGrammar.v ===== *)
(** * The language of the shell

    The grammar of command lines as syntax trees, their token sequences, the texts
    that spell a token sequence, and the commands they mean.  The theorem is that
    the parser of [user/sh.c] reads every spelling of a command line back as its
    meaning. *)

From S2P Require Import Prelude Riscv Mem State Printf User Sh.

#[local] Open Scope Z_scope.

(** ** Spellings of tokens *)

Inductive tok : Type :=
| T_word (w : list Z)
| T_sym (c : Z)        (* one of | ( ) ; & < *)
| T_gt                 (* > *)
| T_app.               (* >> *)

Definition no_word_here (l : list Z) : Prop := l = [] \/ exists c l', l = c :: l' /\ word_char c = false.

(** [spells ts l]: the text [l] is [ts], with any white space around the tokens;
    white space is needed only between two words, and between [>] and a token that
    starts with [>]. *)
Inductive spells : list tok -> list Z -> Prop :=
| spells_nil : spells [] []
| spells_ws c ts l : c ∈ whitespace -> spells ts l -> spells ts (c :: l)
| spells_sym c ts l : c ∈ [124; 40; 41; 59; 38; 60] -> spells ts l -> spells (T_sym c :: ts) (c :: l)
| spells_gt ts l : head l <> Some 62 -> spells ts l -> spells (T_gt :: ts) (62 :: l)
| spells_app ts l : spells ts l -> spells (T_app :: ts) (62 :: 62 :: l)
| spells_word w ts l :
    w <> [] -> Forall (fun c => word_char c = true /\ c <> 0) w -> no_word_here l ->
    spells ts l -> spells (T_word w :: ts) (w ++ l).

(** ** Command lines and their meaning *)

Inductive rkind : Type := R_in | R_out | R_append.

(** A redirection: [< file], [> file] or [>> file]. *)
Record redir := mkRedir { rd_kind : rkind; rd_file : list Z }.

Inductive line : Type :=
| L_last (p : pipeline) (amps : nat)               (* p & ... & *)
| L_seq (p : pipeline) (amps : nat) (l : line)     (* p & ... & ; l *)
with pipeline : Type :=
| P_one (e : command)
| P_pipe (e : command) (p : pipeline)              (* e | p *)
with command : Type :=
| C_simple (rs : list redir) (args : list (list Z * list redir))
| C_block (l : line) (rs : list redir).            (* ( l ) rs *)

Scheme line_mut := Induction for line Sort Prop
with pipeline_mut := Induction for pipeline Sort Prop
with command_mut := Induction for command Sort Prop.
Combined Scheme grammar_ind from line_mut, pipeline_mut, command_mut.

Definition kind_tok (k : rkind) : tok :=
  match k with R_in => T_sym 60 | R_out => T_gt | R_append => T_app end.

Definition redir_toks (rs : list redir) : list tok :=
  rs ≫= fun r => [kind_tok (rd_kind r); T_word (rd_file r)].

Definition args_toks (args : list (list Z * list redir)) : list tok :=
  args ≫= fun a => T_word a.1 :: redir_toks a.2.

Fixpoint line_toks (l : line) : list tok :=
  match l with
  | L_last p n => pipe_toks p ++ replicate n (T_sym 38)
  | L_seq p n l => pipe_toks p ++ replicate n (T_sym 38) ++ T_sym 59 :: line_toks l
  end
with pipe_toks (p : pipeline) : list tok :=
  match p with
  | P_one e => command_toks e
  | P_pipe e p => command_toks e ++ T_sym 124 :: pipe_toks p
  end
with command_toks (e : command) : list tok :=
  match e with
  | C_simple rs args => redir_toks rs ++ args_toks args
  | C_block l rs => T_sym 40 :: line_toks l ++ T_sym 41 :: redir_toks rs
  end.

(** A simple command has at most [MAXARGS - 1] words. *)
Fixpoint line_ok (l : line) : Prop :=
  match l with
  | L_last p _ => pipe_ok p
  | L_seq p _ l => pipe_ok p /\ line_ok l
  end
with pipe_ok (p : pipeline) : Prop :=
  match p with
  | P_one e => command_ok e
  | P_pipe e p => command_ok e /\ pipe_ok p
  end
with command_ok (e : command) : Prop :=
  match e with
  | C_simple _ args => (length args < MAXARGS)%nat
  | C_block l _ => line_ok l
  end.

(** Trees of strings. *)
Inductive tcmd : Type :=
| TEXEC (argv : list (list Z))
| TREDIR (c : tcmd) (file : list Z) (mode fd : Z)
| TPIPE (l r : tcmd)
| TLIST (l r : tcmd)
| TBACK (c : tcmd).

Definition redir_mode (k : rkind) : Z * Z :=
  match k with
  | R_in => (O_RDONLY, 0)
  | R_out => (Z.lor (Z.lor O_WRONLY O_CREATE) O_TRUNC, 1)
  | R_append => (Z.lor O_WRONLY O_CREATE, 1)
  end.

(** The redirections of a command, the last one outermost. *)
Definition redirected (d : tcmd) (rs : list redir) : tcmd :=
  foldl (fun d r => TREDIR d (rd_file r) (redir_mode (rd_kind r)).1 (redir_mode (rd_kind r)).2) d rs.

Fixpoint line_means (l : line) : tcmd :=
  match l with
  | L_last p n => Nat.iter n TBACK (pipe_means p)
  | L_seq p n l => TLIST (Nat.iter n TBACK (pipe_means p)) (line_means l)
  end
with pipe_means (p : pipeline) : tcmd :=
  match p with
  | P_one e => command_means e
  | P_pipe e p => TPIPE (command_means e) (pipe_means p)
  end
with command_means (e : command) : tcmd :=
  match e with
  | C_simple rs args => redirected (TEXEC args.*1) (rs ++ (args ≫= snd))
  | C_block l rs => redirected (line_means l) rs
  end.

(** The tree of strings that a parsed tree and its buffer stand for. *)
Fixpoint resolve (b : list Z) (c : cmd) : tcmd :=
  match c with
  | EXEC argv => TEXEC ((fun w => cstr_at b w.1) <$> argv)
  | REDIR c file _ mode fd => TREDIR (resolve b c) (cstr_at b file) mode fd
  | PIPE l r => TPIPE (resolve b l) (resolve b r)
  | LIST l r => TLIST (resolve b l) (resolve b r)
  | BACK c => TBACK (resolve b c)
  end.

(** ** The tokenizer on a spelling *)

Lemma in_whitespace c : in_set whitespace c = true <-> c ∈ whitespace.
Proof. apply in_set_spec. unfold whitespace. set_solver. Qed.

Lemma in_simple c : in_set [124; 40; 41; 59; 38; 60] c = true <-> c ∈ [124; 40; 41; 59; 38; 60].
Proof. apply in_set_spec. set_solver. Qed.

Lemma simple_not_ws c : c ∈ [124; 40; 41; 59; 38; 60; 62] -> in_set whitespace c = false.
Proof. intros H. rewrite <- not_true_iff_false, in_whitespace. unfold whitespace. set_solver. Qed.

Lemma word_char_inv c :
  word_char c = true -> in_set whitespace c = false /\ in_set [124; 40; 41; 59; 38; 60] c = false /\ c <> 62.
Proof.
  unfold word_char. rewrite symbols_split, andb_true_iff, !negb_true_iff, orb_false_iff, Z.eqb_neq. tauto.
Qed.

Lemma spells_ws_inv ts c l : spells ts (c :: l) -> in_set whitespace c = true -> spells ts l.
Proof.
  intros H Hc. inversion H as [|c' ts' l' ? ? | c' ts' l' Hs | | |w ts' l' Hw Hf]; subst; try done.
  - rewrite simple_not_ws in Hc by set_solver. done.
  - destruct w as [|x w]; [done|]. simplify_list_eq. apply Forall_cons in Hf as [[Hx _] _].
    apply word_char_inv in Hx as (Hx & _). congruence.
Qed.

Lemma spells_nonzero ts l : spells ts l -> 0 ∉ l.
Proof.
  induction 1 as [|c ts l Hc H IH|c ts l Hc H IH|ts l Hl H IH|ts l H IH|w ts l Hw Hf Hl H IH].
  - apply not_elem_of_nil.
  - unfold whitespace in Hc. set_solver.
  - set_solver.
  - set_solver.
  - set_solver.
  - rewrite elem_of_app. intros [Hin|]; [|done].
    by destruct (proj1 (Forall_forall _ _) Hf _ Hin) as [_ []].
Qed.

Lemma spells_length ts l : spells ts l -> (length ts <= length l)%nat.
Proof.
  induction 1 as [| | | | |w ts l Hw]; cbn [length] in *; try lia.
  rewrite length_app. destruct w; [done|]. cbn. lia.
Qed.

(** The token that starts a list, by the set of [peek]. *)
Definition starts (set : list Z) (ts : list tok) : bool :=
  match ts with
  | T_sym c :: _ => in_set set c
  | (T_gt | T_app) :: _ => in_set set 62
  | T_word _ :: _ | [] => false
  end.

Definition tok_code (t : tok) : Z :=
  match t with T_word _ => 97 | T_sym c => c | T_gt => 62 | T_app => 43 end.

Section Spelled.
Context (s : list Z).

(** From offset [i] on, the line spells [ts]. *)
Definition at_toks (i : nat) (ts : list tok) : Prop := (i <= length s)%nat /\ spells ts (drop i s).

Lemma drop_cons i c l : drop i s = c :: l -> char_at s i = c /\ drop (S i) s = l /\ (i < length s)%nat.
Proof.
  intros H. assert (s !! i = Some c) as Hc.
  { by rewrite <- (Nat.add_0_r i), <- lookup_drop, H. }
  unfold char_at. rewrite Hc. split; [done|]. split; [|by eapply lookup_lt_Some].
  rewrite (drop_S _ _ _ Hc) in H. congruence.
Qed.

Lemma skip_ws_toks i ts : at_toks i ts -> at_toks (skip_ws s i) ts.
Proof.
  unfold skip_ws. remember (length s - i)%nat as n eqn:Hn. revert i Hn.
  induction n as [|n IH]; intros i Hn [Hi Hs]; cbn [skip]; [done|].
  destruct (in_set whitespace (char_at s i)) eqn:Hw; [|done]. apply IH; [lia|]. split; [lia|].
  pose proof (char_at_lookup s i ltac:(lia)) as Hc. rewrite (drop_S _ _ _ Hc) in Hs.
  by eapply spells_ws_inv.
Qed.

Lemma skip_ws_cons i c l : drop (skip_ws s i) s = c :: l -> in_set whitespace c = false.
Proof. intros [<- _]%drop_cons. apply skip_ws_stop. Qed.

Lemma gettoken_end i : at_toks i [] -> exists q e j, gettoken s i = (0, q, e, j) /\ at_toks j [].
Proof.
  intros H%skip_ws_toks. unfold gettoken. set (q := skip_ws s i) in *.
  assert (char_at s q = 0) as ->.
  { destruct H as [Hq Hs]. destruct (drop q s) as [|c l] eqn:E.
    - apply (f_equal length) in E. rewrite length_drop in E. apply char_at_end. cbn in E. lia.
    - inversion Hs as [|? ? ? Hc| | | |]; subst. apply skip_ws_cons in E. apply in_whitespace in Hc. congruence. }
  cbn. eexists _, _, _. split; [done|]. by apply skip_ws_toks.
Qed.

Lemma gettoken_tok i t ts :
  at_toks i (t :: ts) ->
  exists q e j, gettoken s i = (tok_code t, q, e, j) /\ at_toks j ts /\
    match t with T_word w => slice s (q, e) = w | _ => True end.
Proof.
  intros [Hq Hs]%skip_ws_toks. unfold gettoken. set (q := skip_ws s i) in *.
  destruct (drop q s) as [|c l] eqn:E; [by inversion Hs; subst; destruct w|].
  pose proof (skip_ws_cons i c l E) as Hws. pose proof (drop_cons _ _ _ E) as (Hch & _ & Hlt). rewrite Hch. clear Hch.
  inversion Hs as [|c' ts' l' Hc|c' ts' l' Hc Hl|ts' l' Hh Hl|ts' l' Hl|w ts' l' Hw Hf Hn Hl]; subst;
    try pose proof (drop_cons _ _ _ E) as (_ & E1 & _).
  - apply in_whitespace in Hc. congruence.
  - destruct (Z.eqb_spec c 0) as [->|_]; [set_solver|]. rewrite (proj2 (in_simple c)) by done.
    eexists _, _, _. split; [done|]. split; [|done]. apply skip_ws_toks. split; [lia|by rewrite E1].
  - cbn. replace (char_at s (S q) =? 62) with false.
    2:{ symmetry. apply Z.eqb_neq. intros Hc. apply Hh.
        pose proof (char_at_lt s (S q) ltac:(lia)) as H1. apply char_at_lookup in H1. rewrite Hc in H1.
        by rewrite <- E1, (drop_S _ _ _ H1). }
    eexists _, _, _. split; [done|]. split; [|done]. apply skip_ws_toks. split; [lia|by rewrite E1].
  - destruct (drop_cons _ _ _ E1) as (-> & E2 & Hlt'). cbn.
    eexists _, _, _. split; [done|]. split; [|done]. apply skip_ws_toks. split; [lia|by rewrite E2].
  - destruct w as [|x w]; [done|]. simplify_list_eq. pose proof Hf as [[Hx Hnz] _]%Forall_cons.
    match goal with H : w ++ l' = _ |- _ => rewrite <- H in E end.
    apply word_char_inv in Hx as (_ & Hsym & Hgt).
    apply Z.eqb_neq in Hnz as ->. rewrite Hsym. apply Z.eqb_neq in Hgt as ->.
    assert (skip_word s q = q + length (c :: w))%nat as ->.
    { apply (skip_app word_char s (c :: w) l'); [done| |done]. eapply Forall_impl; [exact Hf|]. by intros ? []. }
    assert (drop (q + length (c :: w)) s = l') as Hd.
    { rewrite <- drop_drop, E. apply (drop_app_length (c :: w)). }
    eexists _, _, _. split; [done|]. split.
    + apply skip_ws_toks. split; [|by rewrite Hd].
      apply (f_equal length) in E. rewrite length_drop in E. cbn in E |- *. rewrite length_app in E. lia.
    + unfold slice. cbn [fst snd]. rewrite E. replace (q + length (c :: w) - q)%nat with (length (c :: w)) by lia.
      apply (take_app_length (c :: w)).
Qed.

Lemma peek_tok set i ts :
  (forall c, in_set set c = true -> in_set symbols c = true) -> at_toks i ts ->
  exists j, peek s i set = (j, starts set ts) /\ at_toks j ts.
Proof.
  intros Hset H%skip_ws_toks. unfold peek. eexists. split; [|exact H]. f_equal.
  destruct H as [Hq Hs]. set (q := skip_ws s i) in *.
  destruct (drop q s) as [|c l] eqn:E.
  { assert (ts = []) as -> by (inversion Hs; subst; [done|by destruct w]).
    apply (f_equal length) in E. rewrite length_drop in E. cbn in E. by rewrite char_at_end by lia. }
  pose proof (skip_ws_cons i c l E) as Hws. destruct (drop_cons _ _ _ E) as (-> & _).
  inversion Hs as [|c' ts' l' Hc|c' ts' l' Hc Hl|ts' l' Hh Hl|ts' l' Hl|w ts' l' Hw Hf Hn Hl]; subst; try done.
  - apply in_whitespace in Hc. congruence.
  - cbn [starts]. destruct (Z.eqb_spec c 0) as [->|_]; [set_solver|done].
  - destruct w as [|x w]; [done|]. simplify_list_eq. apply Forall_cons in Hf as [[Hx H0] _].
    cbn [starts]. apply andb_false_intro2. destruct (in_set set c) eqn:Hin; [|done].
    apply Hset in Hin. unfold word_char in Hx. rewrite Hin in Hx. by rewrite andb_false_r in Hx.
Qed.

(** ** The parser on a spelling *)

(** The tree of strings by the words' offsets. *)
Fixpoint text (c : cmd) : tcmd :=
  match c with
  | EXEC argv => TEXEC (slice s <$> argv)
  | REDIR c file efile mode fd => TREDIR (text c) (slice s (file, efile)) mode fd
  | PIPE l r => TPIPE (text l) (text r)
  | LIST l r => TLIST (text l) (text r)
  | BACK c => TBACK (text c)
  end.

(** Where the line spells [ts], [m] gives a result in [Q] and leaves [rest]. *)
Definition parses {A} (m : P A) (ts rest : list tok) (Q : A -> Prop) : Prop :=
  forall i, at_toks i ts -> exists a j, m i = P_ok a j /\ at_toks j rest /\ Q a.

Lemma parses_ret {A} (a : A) ts (Q : A -> Prop) : Q a -> parses (mret a) ts ts Q.
Proof. intros HQ i Hi. by exists a, i. Qed.

Lemma parses_bind {A B} (m : P A) (f : A -> P B) ts mid rest Q R :
  parses m ts mid Q -> (forall a, Q a -> parses (f a) mid rest R) -> parses (m ≫= f) ts rest R.
Proof.
  intros Hm Hf i Hi. destruct (Hm i Hi) as (a & j & E & Hj & HQ).
  unfold mbind, P_bind. rewrite E. by apply Hf.
Qed.

Lemma parses_bound {A} (m : P A) ts rest Q :
  ((length ts <= length s)%nat -> parses m ts rest Q) -> parses m ts rest Q.
Proof.
  intros H i Hi. apply H; [|done]. destruct Hi as [_ Hs%spells_length]. rewrite length_drop in Hs. lia.
Qed.

Lemma in_set_sub set c : forallb (in_set symbols) set = true -> in_set set c = true -> in_set symbols c = true.
Proof.
  intros Hset. unfold in_set at 1. induction set as [|x set IH]; cbn in *; [done|].
  apply andb_prop in Hset as [Hx Hset]. destruct (x =? 0); [done|].
  destruct (Z.eqb_spec x c) as [->|]; [done|]. destruct (strchr set c); cbn; auto.
Qed.

Lemma parses_peek {A} set (f : bool -> P A) ts rest Q :
  forallb (in_set symbols) set = true ->
  parses (f (starts set ts)) ts rest Q -> parses (ppeek s set ≫= f) ts rest Q.
Proof.
  intros Hset Hf i Hi. destruct (peek_tok set i ts) as (j & E & Hj); [|done|].
  { intros c. by apply in_set_sub. }
  unfold mbind, P_bind, ppeek. rewrite E. by apply Hf.
Qed.

Lemma parses_tok {A} (f : Z * nat * nat -> P A) t ts rest Q :
  (forall q e, match t with T_word w => slice s (q, e) = w | _ => True end ->
     parses (f (tok_code t, q, e)) ts rest Q) ->
  parses (pgettoken s ≫= f) (t :: ts) rest Q.
Proof.
  intros Hf i Hi. destruct (gettoken_tok i t ts Hi) as (q & e & j & E & Hj & Ht).
  unfold mbind, P_bind, pgettoken. rewrite E. by apply Hf.
Qed.

Lemma parses_end {A} (f : Z * nat * nat -> P A) Q :
  (forall q e, parses (f (0, q, e)) [] [] Q) -> parses (pgettoken s ≫= f) [] [] Q.
Proof.
  intros Hf i Hi. destruct (gettoken_end i Hi) as (q & e & j & E & Hj).
  unfold mbind, P_bind, pgettoken. rewrite E. by apply Hf.
Qed.

Lemma redir_toks_length rs : (length rs <= length (redir_toks rs))%nat.
Proof. unfold redir_toks. induction rs; cbn in *; lia. Qed.

Lemma args_toks_length args : (length args <= length (args_toks args))%nat.
Proof. unfold args_toks. induction args; cbn in *; [lia|]. rewrite length_app. lia. Qed.

Lemma redirs_parses rs fuel c rest :
  starts [60; 62] rest = false -> (length rs < fuel)%nat ->
  parses (parseredirs s fuel c) (redir_toks rs ++ rest) rest (fun c' => text c' = redirected (text c) rs).
Proof.
  revert fuel c. induction rs as [|[k file] rs IH]; intros [|fuel] c Hrest Hf; cbn [length] in Hf; try lia;
    cbn [parseredirs]; (apply parses_peek; [done|]).
  - rewrite (Hrest : starts _ (redir_toks [] ++ rest) = false). by apply parses_ret.
  - replace (starts _ _) with true by by destruct k.
    apply parses_tok. intros q e _. apply parses_tok. intros q' e' Hw. cbn [fst snd tok_code negb Z.eqb Pos.eqb].
    cbn [rd_file] in Hw. rewrite <- Hw.
    destruct k; cbn [tok_code kind_tok rd_kind Z.eqb Pos.eqb]; by apply IH; [|lia].
Qed.

(** What may follow a command: the end, or one of [| ) & ;]. *)
Definition stops (cs : list Z) (rest : list tok) : Prop :=
  rest = [] \/ exists c r, rest = T_sym c :: r /\ c ∈ cs.

Lemma stops_not_redir rest : stops [124; 41; 38; 59] rest -> starts [60; 62] rest = false /\ starts [40] rest = false.
Proof.
  intros [->|(c & r & -> & Hc)]; [done|]. cbn [starts].
  rewrite <- !not_true_iff_false, !in_set_spec by set_solver. set_solver.
Qed.

Lemma push_arg_text ret ws rs w :
  text ret = redirected (TEXEC ws) rs -> text (push_arg ret w) = redirected (TEXEC (ws ++ [slice s w])) rs.
Proof.
  revert ret. induction rs as [|r rs IH] using rev_ind; intros ret; unfold redirected in *.
  - cbn. destruct ret; try done. cbn. intros [= <-]. by rewrite fmap_app.
  - rewrite !foldl_snoc. destruct ret; try done. cbn. intros [= H -> -> ->]. by rewrite (IH _ H).
Qed.

Lemma args_parses args fuel ws rs ret rest :
  text ret = redirected (TEXEC ws) rs -> stops [124; 41; 38; 59] rest ->
  (length args < fuel)%nat -> (length ws + length args < MAXARGS)%nat ->
  parses (parseargs s fuel (length ws) ret) (args_toks args ++ rest) rest
    (fun c => text c = redirected (TEXEC (ws ++ args.*1)) (rs ++ (args ≫= snd))).
Proof.
  revert fuel ws rs ret.
  induction args as [|[w rs'] args IH]; intros [|fuel] ws rs ret Hret Hrest Hf Hm; cbn [length] in *; try lia;
    cbn [parseargs]; (apply parses_peek; [done|]).
  - cbn [args_toks mbind list_bind app fmap list_fmap]. rewrite !app_nil_r.
    destruct Hrest as [->|(c & r & -> & Hc)].
    + cbn [starts]. apply parses_end. intros q e. by apply parses_ret.
    + cbn [starts]. apply in_set_spec in Hc as ->; [|set_solver]. by apply parses_ret.
  - cbn [args_toks mbind list_bind app fst snd starts]. rewrite <- !app_assoc. apply parses_bound. intros Hlen.
    apply parses_tok. intros q e Hw. cbn [tok_code fst snd Z.eqb Pos.eqb negb].
    rewrite decide_False by lia. eapply parses_bind.
    { apply redirs_parses.
      - destruct args as [|[] ?]; [by apply stops_not_redir|done].
      - cbn [length] in Hlen. rewrite length_app in Hlen. pose proof (redir_toks_length rs').
        unfold redir_toks in *. lia. }
    cbn beta. intros c Hc. rewrite (push_arg_text _ _ _ _ Hret), Hw in Hc.
    replace (S (length ws)) with (length (ws ++ [w])) by (rewrite length_app; cbn; lia).
    rewrite fmap_cons. cbn [fst]. rewrite (cons_middle w ws args.*1), (app_assoc ws [w]), (app_assoc rs).
    apply IH; try done; try (rewrite length_app; cbn; lia); [|lia].
    rewrite Hc. unfold redirected. by rewrite foldl_app.
Qed.

Lemma back_parses n fuel c rest :
  starts [38] rest = false -> (n < fuel)%nat ->
  parses (parseback s fuel c) (replicate n (T_sym 38) ++ rest) rest (fun c' => text c' = Nat.iter n TBACK (text c)).
Proof.
  revert fuel c. induction n as [|n IH]; intros [|fuel] c Hrest Hf; try lia;
    cbn [parseback replicate app]; (apply parses_peek; [done|]).
  - rewrite Hrest. by apply parses_ret.
  - replace (starts [38] _) with true by done. apply parses_tok. intros q e _. rewrite Nat.iter_succ_r. apply (IH fuel (BACK c)); [done|lia].
Qed.

Lemma stops_sub cs ds rest : (forall c, c ∈ cs -> c ∈ ds) -> stops cs rest -> stops ds rest.
Proof. intros H [->|(c & r & -> & Hc)]; [by left|]. right. exists c, r. auto. Qed.

Lemma stops_starts cs set rest :
  stops cs rest -> 0 ∉ set -> (forall c, c ∈ cs -> c ∉ set) -> starts set rest = false.
Proof.
  intros [->|(c & r & -> & Hc)] H0 H; [done|]. cbn [starts].
  rewrite <- not_true_iff_false, in_set_spec by done. auto.
Qed.

Definition line_parses (l : line) : Prop :=
  forall fuel rest, line_ok l -> (length (line_toks l) < fuel)%nat -> stops [41] rest ->
  parses (parseline s fuel) (line_toks l ++ rest) rest (fun c => text c = line_means l).

Definition pipe_parses (p : pipeline) : Prop :=
  forall fuel f rest, pipe_ok p -> (length (pipe_toks p) <= f)%nat -> (length (pipe_toks p) < fuel)%nat ->
  stops [41; 38; 59] rest ->
  parses (parsepipe s fuel (parseline s f)) (pipe_toks p ++ rest) rest (fun c => text c = pipe_means p).

Definition command_parses (e : command) : Prop :=
  forall f rest, command_ok e -> (length (command_toks e) <= f)%nat -> stops [124; 41; 38; 59] rest ->
  parses (parseexec s (parseline s f)) (command_toks e ++ rest) rest (fun c => text c = command_means e).

Lemma simple_parses rs args : command_parses (C_simple rs args).
Proof.
  intros f rest Hok Hf Hrest. cbn [command_toks command_ok] in *. rewrite <- app_assoc. unfold parseexec.
  destruct (stops_not_redir rest Hrest) as [Hr1 Hr2]. apply parses_peek; [done|].
  replace (starts [40] _) with false.
  2:{ destruct rs as [|[[] ?] ?]; try done. by destruct args as [|[] ?]. }
  apply parses_bound. intros Hlen. rewrite !length_app in Hlen.
  pose proof (redir_toks_length rs). pose proof (args_toks_length args). eapply parses_bind.
  { apply redirs_parses; [|lia]. by destruct args as [|[] ?]. }
  cbn beta. intros c Hc. cbn [command_means].
  apply (args_parses args (S (length s)) [] rs c rest); try done. lia.
Qed.

Lemma block_parses l rs : line_parses l -> command_parses (C_block l rs).
Proof.
  intros Hl f rest Hok Hf Hrest. cbn [command_toks command_ok length app] in *.
  rewrite length_app in Hf. cbn [length] in Hf. rewrite <- app_assoc. unfold parseexec.
  apply parses_bound. intros Hlen. cbn [length app] in Hlen. rewrite !length_app in Hlen.
  cbn [length] in Hlen. rewrite length_app in Hlen. pose proof (redir_toks_length rs).
  apply parses_peek; [done|]. replace (starts [40] _) with true by done. unfold parseblock.
  apply parses_peek; [done|]. replace (starts [40] _) with true by done. cbn [negb].
  apply parses_tok. intros q e _. eapply parses_bind.
  { apply Hl; [done|lia|]. right. exists 41, (redir_toks rs ++ rest). split; [done|]. by left. }
  cbn beta. intros c Hc. cbn [app]. apply parses_peek; [done|]. replace (starts [41] _) with true by done.
  cbn [negb]. apply parses_tok. intros q' e' _. cbn [command_means]. rewrite <- Hc.
  apply redirs_parses; [|lia]. by apply stops_not_redir.
Qed.

Lemma one_parses e : command_parses e -> pipe_parses (P_one e).
Proof.
  intros He [|fuel] f rest Hok Hf Hfuel Hrest; [lia|]. cbn [parsepipe pipe_toks pipe_ok pipe_means] in *.
  eapply parses_bind; [apply He; try done; revert Hrest; apply stops_sub; set_solver|]. cbn beta. intros c Hc.
  apply parses_peek; [done|]. rewrite (stops_starts _ _ _ Hrest) by set_solver. by apply parses_ret.
Qed.

Lemma cons_parses e p : command_parses e -> pipe_parses p -> pipe_parses (P_pipe e p).
Proof.
  intros He Hp [|fuel] f rest [Hok1 Hok2] Hf Hfuel Hrest; [lia|]. cbn [parsepipe pipe_toks pipe_means] in *.
  rewrite length_app in Hf, Hfuel. cbn [length] in Hf, Hfuel. rewrite <- app_assoc. cbn [app].
  eapply parses_bind.
  { apply He; try done; [lia|]. right. exists 124, (pipe_toks p ++ rest). split; [done|]. by left. }
  cbn beta. intros c Hc. apply parses_peek; [done|]. replace (starts [124] _) with true by done.
  apply parses_tok. intros q e' _. eapply parses_bind; [by apply Hp; try lia|]. cbn beta. intros c' Hc'.
  apply parses_ret. cbn. congruence.
Qed.

Lemma last_parses p n : pipe_parses p -> line_parses (L_last p n).
Proof.
  intros Hp [|fuel] rest Hok Hfuel Hrest; [lia|]. cbn [parseline line_toks line_ok line_means] in *.
  rewrite length_app, length_replicate in Hfuel. rewrite <- app_assoc.
  apply parses_bound. intros Hlen. rewrite !length_app, length_replicate in Hlen. eapply parses_bind.
  { apply Hp; try done; [lia|lia|]. destruct n; [revert Hrest; apply stops_sub; set_solver|].
    right. eexists 38, _. split; [done|]. set_solver. }
  cbn beta. intros c <-. eapply parses_bind.
  { apply back_parses; [|lia]. apply (stops_starts _ _ _ Hrest); set_solver. }
  cbn beta. intros c' Hc'. apply parses_peek; [done|].
  rewrite (stops_starts _ _ _ Hrest) by set_solver. by apply parses_ret.
Qed.

Lemma seq_parses p n l : pipe_parses p -> line_parses l -> line_parses (L_seq p n l).
Proof.
  intros Hp Hl [|fuel] rest [Hok1 Hok2] Hfuel Hrest; [lia|]. cbn [parseline line_toks line_means] in *.
  rewrite !length_app, length_replicate in Hfuel. cbn [length] in Hfuel. rewrite <- !app_assoc. cbn [app].
  apply parses_bound. intros Hlen. rewrite !length_app, length_replicate in Hlen. eapply parses_bind.
  { apply Hp; try done; [lia|lia|]. destruct n; right; eexists _, _; (split; [done|]); set_solver. }
  cbn beta. intros c <-. eapply parses_bind; [apply back_parses; [done|lia]|].
  cbn beta. intros c' Hc'. apply parses_peek; [done|]. replace (starts [59] _) with true by done.
  apply parses_tok. intros q e _. eapply parses_bind; [by apply Hl; [|lia|]|]. cbn beta. intros c'' Hc''.
  apply parses_ret. cbn [text listcmd]. congruence.
Qed.

Lemma grammar_parses :
  (forall l, line_parses l) /\ (forall p, pipe_parses p) /\ (forall e, command_parses e).
Proof.
  apply grammar_ind; auto using last_parses, seq_parses, one_parses, cons_parses, simple_parses, block_parses.
Qed.

(** The words' strings, after [nulterminate]. *)
Lemma resolve_text b c :
  (forall q e, (q, e) ∈ words c -> cstr_at b q = slice s (q, e)) -> resolve b c = text c.
Proof.
  induction c as [argv|c IH file efile mode fd|c1 IH1 c2 IH2|c1 IH1 c2 IH2|c IH]; cbn [words resolve text]; intros H.
  - f_equal. apply list_fmap_ext. intros i [q e] Hi%list_elem_of_lookup_2. by apply H.
  - rewrite IH, (H file efile); [done|set_solver|]. intros. apply H. set_solver.
  - rewrite IH1, IH2; [done|intros; apply H; set_solver..].
  - rewrite IH1, IH2; [done|intros; apply H; set_solver..].
  - by rewrite IH.
Qed.
End Spelled.

Lemma parsecmd_means l s :
  spells (line_toks l) s -> line_ok l ->
  exists c b i, parsecmd s = P_ok (c, b) i /\ cmd_wf s c /\ resolve b c = line_means l.
Proof.
  intros Hs Hok. pose proof (spells_nonzero _ _ Hs) as H0. pose proof (spells_length _ _ Hs) as Hlen.
  pose proof (parsecmd_run s) as Hrun. unfold parsecmd in *.
  destruct (proj1 (grammar_parses s) l (S (length s)) [] Hok ltac:(lia) ltac:(by left) 0%nat)
    as (c & i & E & Hi & Hc).
  { rewrite app_nil_r. split; [lia|done]. }
  rewrite E in *. apply skip_ws_toks in Hi as [Hi Hend]. cbn [peek fst] in *.
  assert (skip_ws s i = length s) as Hl.
  { destruct (decide (skip_ws s i = length s)) as [|Hne]; [done|exfalso].
    pose proof (char_at_lookup s (skip_ws s i) ltac:(lia)) as Hch. rewrite (drop_S _ _ _ Hch) in Hend.
    inversion Hend as [|? ? ? Hws| | | |]; subst. apply in_whitespace in Hws. by rewrite skip_ws_stop in Hws. }
  rewrite decide_True in * by done. destruct Hrun as (_ & Hwf & Hb). eexists _, _, _. split; [done|]. split; [done|].
  rewrite <- Hc. apply resolve_text.
  intros q e Hin. destruct Hwf as [_ Hw]. rewrite Hb. by apply word_string.
Qed.

(** C7. The parser reads every spelling of a command line back as its meaning:
    for a line of the grammar (commands separated by [;], each a pipeline followed by
    any number of [&]; the parts of a pipeline separated by [|], each a parenthesised
    line or a simple command of at most nine words; redirections anywhere among the
    words and behind the parenthesis) and any text that spells its tokens, with any
    white space, [parsecmd] ends without an error and the strings of its tree are the
    meaning of the line: [&] binds looser than [|] and tighter than [;], pipes
    and lists group to the right, and the redirections are nested in their order. *)
Theorem parsecmd_grammar l s :
  spells (line_toks l) s -> line_ok l ->
  exists c b i, parsecmd s = P_ok (c, b) i /\ resolve b c = line_means l.
Proof. intros Hs Hok. destruct (parsecmd_means l s Hs Hok) as (c & b & i & ? & _ & ?). by exists c, b, i. Qed.

Ltac spell :=
  match goal with
  | |- spells [] [] => apply spells_nil
  | |- spells (T_sym ?c :: _) (?c :: _) => apply spells_sym; [by apply (bool_decide_unpack _)|]
  | |- spells (T_app :: _) (62 :: 62 :: _) => apply spells_app
  | |- spells (T_gt :: _) (62 :: _) => apply spells_gt; [done|]
  | |- spells (T_word [?c] :: _) (?c :: ?l) =>
      apply (spells_word [c] _ l); [done|by repeat constructor|first [by left|right; eexists _, _; done]|]
  | |- spells _ _ => apply spells_ws; [by apply (bool_decide_unpack _)|]
  end.

(** [( a <f;b)|c>>g&] and a newline. *)
Lemma parsecmd_grammar_witness :
  exists c b i, parsecmd [40; 32; 97; 32; 60; 102; 59; 98; 41; 124; 99; 62; 62; 103; 38; 10] = P_ok (c, b) i /\
    resolve b c =
      TBACK (TPIPE (TLIST (TREDIR (TEXEC [[97]]) [102] 0 0) (TEXEC [[98]])) (TREDIR (TEXEC [[99]]) [103] 0x201 1)).
Proof.
  apply (parsecmd_grammar
    (L_last (P_pipe
      (C_block (L_seq (P_one (C_simple [] [([97], [mkRedir R_in [102]])])) 0
        (L_last (P_one (C_simple [] [([98], [])])) 0)) [])
      (P_one (C_simple [] [([99], [mkRedir R_append [103]])]))) 1)).
  - cbn. repeat spell.
  - cbn. unfold MAXARGS. lia.
Defined.
