(* ===== verification/ShRun.v ===== *)
(** * The shell at work ([user/sh.c]: [runcmd], [getcmd], [main])

    A process of the shell is a program: its system calls, each with what the code
    does with the result.  A run gives the system calls' effect on the process:
    its descriptor table, its children and the input it has read.  Which calls fail
    is an argument, for every call of every process.  The events of a run are listed
    process by process, a child's before what its parent does after the [fork]. *)

From S2P Require Import Prelude Riscv Mem State Printf User Sh ShGrammar.

#[local] Open Scope Z_scope.

(** ** The programs *)

Inductive prog : Type :=
| Exit (status : Z)
| Exec (path : list Z) (argv : list (list Z)) (k : prog)   (* [k]: when it fails *)
| Open (path : list Z) (mode : Z) (k : Z -> prog)
| Close (fd : Z) (k : prog)
| Dup (fd : Z) (k : Z -> prog)
| Pipe (k : Z -> Z -> Z -> prog)                           (* the result, [p[0]] and [p[1]] *)
| Fork (k : Z -> prog)
| Wait (k : prog)
| Chdir (path : list Z) (k : Z -> prog)
| Say (fd : Z) (text : list Z) (k : prog)                  (* [write] and [fprintf] *)
| Gets (max : Z) (k : list Z -> prog)                      (* the bytes stored in the buffer *)
| Fuel.                                                    (* the bound on [main]'s loops *)

Definition panic (s : list Z) : prog := Say 2 (s ++ [10]) (Exit 1).

Definition fork1 (k : Z -> prog) : prog := Fork (fun pid => if pid =? -1 then panic (str "fork") else k pid).

Section Runcmd.
Context (b : list Z).

Fixpoint runcmd (c : cmd) : prog :=
  match c with
  | EXEC [] => Exit 1
  | EXEC (((q, _) :: _) as argv) =>
      Exec (cstr_at b q) ((fun w => cstr_at b w.1) <$> argv)
        (Say 2 (str "exec " ++ cstr_at b q ++ str " failed" ++ [10]) (Exit 0))
  | REDIR c file _ mode fd =>
      Close fd (Open (cstr_at b file) mode (fun r =>
        if r <? 0 then Say 2 (str "open " ++ cstr_at b file ++ str " failed" ++ [10]) (Exit 1)
        else runcmd c))
  | LIST l r => fork1 (fun pid => if pid =? 0 then runcmd l else Wait (runcmd r))
  | PIPE l r =>
      Pipe (fun ret p0 p1 =>
        if ret <? 0 then panic (str "pipe")
        else
          fork1 (fun pid =>
            if pid =? 0 then Close 1 (Dup p1 (fun _ => Close p0 (Close p1 (runcmd l))))
            else
              fork1 (fun pid =>
                if pid =? 0 then Close 0 (Dup p0 (fun _ => Close p0 (Close p1 (runcmd r))))
                else Close p0 (Close p1 (Wait (Wait (Exit 0)))))))
  | BACK c => fork1 (fun pid => if pid =? 0 then runcmd c else Exit 0)
  end.
End Runcmd.

(** [buf] up to its first NUL, or [None] at the end of the input. *)
Definition getcmd (k : option (list Z) -> prog) : prog :=
  Say 2 (str "$ ") (Gets 100 (fun line =>
    let buf := upto_nul line in if decide (buf = []) then k None else k (Some buf))).

Fixpoint skip_blank (l : list Z) : list Z :=
  match l with
  | c :: l' => if (c =? 32) || (c =? 9) then skip_blank l' else l
  | [] => []
  end.

(** [runcmd(parsecmd(cmd))]. *)
Definition run_line (cmd : list Z) : prog :=
  match parsecmd cmd with
  | P_ok (c, b) _ => runcmd b c
  | P_panic out msg => if decide (out = []) then panic (str msg) else Say 2 out (panic (str msg))
  | P_fuel => Fuel
  end.

(** The loop that reads and runs commands. *)
Fixpoint command_loop (fuel : nat) : prog :=
  match fuel with
  | O => Fuel
  | S f =>
      getcmd (fun line =>
        match line with
        | None => Exit 0
        | Some buf =>
            let cmd := skip_blank buf in
            if decide (head cmd = Some 10) then command_loop f
            else if decide (take 3 cmd = str "cd ") then
              let dir := drop 3 (removelast cmd) in
              Chdir dir (fun r =>
                if r <? 0 then Say 2 (str "cannot cd " ++ dir ++ [10]) (command_loop f) else command_loop f)
            else fork1 (fun pid => if pid =? 0 then run_line cmd else Wait (command_loop f))
        end)
  end.

(** The loop that makes sure that three descriptors are open. *)
Fixpoint open_console (fuel : nat) (k : prog) : prog :=
  match fuel with
  | O => Fuel
  | S f =>
      Open (str "console") O_RDWR (fun fd =>
        if fd >=? 0 then if fd >=? 3 then Close fd k else open_console f k else k)
  end.

Definition main (fuel : nat) : prog := open_console 4 (command_loop fuel).

(** ** Processes *)

(** What a descriptor refers to.  A pipe is named by the process that made it and the
    number of that pipe there. *)
Inductive obj : Type :=
| Inherited (n : nat)
| OpenFile (path : list Z) (mode : Z)
| PipeEnd (pid : list nat) (n : nat) (write : bool).

(** A process is named by its forks: the [n]th child of [pid] is [pid ++ [n]]. *)
Record proc := mkProc {
  pr_pid : list nat;
  pr_calls : nat;                  (* system calls that may fail, so far *)
  pr_forks : nat;
  pr_pipes : nat;
  pr_kids : nat;                   (* children that it has not waited for *)
  pr_fds : list (option obj);
  pr_input : list Z                (* what is left of the input of [gets] *)
}.

Definition fdalloc (o : obj) (t : list (option obj)) : option (nat * list (option obj)) :=
  match list_find (fun x => x = None) t with
  | Some (fd, _) => Some (fd, <[fd := Some o]> t)
  | None => None
  end.

Definition fd_close (fd : Z) (t : list (option obj)) : list (option obj) :=
  if fd <? 0 then t else <[Z.to_nat fd := None]> t.

Definition fd_get (fd : Z) (t : list (option obj)) : option obj :=
  if fd <? 0 then None else mjoin (t !! Z.to_nat fd).

Definition with_fds (t : list (option obj)) (p : proc) : proc :=
  mkProc (pr_pid p) (pr_calls p) (pr_forks p) (pr_pipes p) (pr_kids p) t (pr_input p).
Definition called (p : proc) : proc :=
  mkProc (pr_pid p) (S (pr_calls p)) (pr_forks p) (pr_pipes p) (pr_kids p) (pr_fds p) (pr_input p).
Definition piped (p : proc) : proc :=
  mkProc (pr_pid p) (pr_calls p) (pr_forks p) (S (pr_pipes p)) (pr_kids p) (pr_fds p) (pr_input p).
Definition forked (p : proc) : proc :=
  mkProc (pr_pid p) (pr_calls p) (S (pr_forks p)) (pr_pipes p) (S (pr_kids p)) (pr_fds p) (pr_input p).
Definition child (p : proc) : proc :=
  mkProc (pr_pid p ++ [pr_forks p]) 0 0 0 0 (pr_fds p) [].
Definition waited (p : proc) : proc :=
  mkProc (pr_pid p) (pr_calls p) (pr_forks p) (pr_pipes p) (pr_kids p - 1) (pr_fds p) (pr_input p).
Definition with_input (l : list Z) (p : proc) : proc :=
  mkProc (pr_pid p) (pr_calls p) (pr_forks p) (pr_pipes p) (pr_kids p) (pr_fds p) l.

Inductive event : Type :=
| EvExec (pid : list nat) (path : list Z) (argv : list (list Z)) (kids : nat) (fds : list (option obj))
| EvWait (pid : list nat) (kids : nat)
| EvChdir (pid : list nat) (path : list Z)
| EvSay (pid : list nat) (to : option obj) (text : list Z)
| EvExit (pid : list nat) (status : Z)
| EvFuel.

Section Run.
Context (oops : list nat -> nat -> bool).   (* whether the [n]th call of a process fails *)

Definition fails (p : proc) : bool := oops (pr_pid p) (pr_calls p).

Fixpoint run (m : prog) (p : proc) : list event :=
  match m with
  | Exit status => [EvExit (pr_pid p) status]
  | Exec path argv k =>
      if fails p then run k (called p) else [EvExec (pr_pid p) path argv (pr_kids p) (pr_fds p)]
  | Open path mode k =>
      if fails p then run (k (-1)) (called p)
      else
        match fdalloc (OpenFile path mode) (pr_fds p) with
        | Some (fd, t) => run (k (Z.of_nat fd)) (with_fds t (called p))
        | None => run (k (-1)) (called p)
        end
  | Close fd k => run k (with_fds (fd_close fd (pr_fds p)) p)
  | Dup fd k =>
      match fd_get fd (pr_fds p) with
      | Some o =>
          match fdalloc o (pr_fds p) with
          | Some (fd', t) => run (k (Z.of_nat fd')) (with_fds t p)
          | None => run (k (-1)) p
          end
      | None => run (k (-1)) p
      end
  | Pipe k =>
      if fails p then run (k (-1) 0 0) (called p)
      else
        match fdalloc (PipeEnd (pr_pid p) (pr_pipes p) false) (pr_fds p) with
        | Some (p0, t) =>
            match fdalloc (PipeEnd (pr_pid p) (pr_pipes p) true) t with
            | Some (p1, t') => run (k 0 (Z.of_nat p0) (Z.of_nat p1)) (with_fds t' (piped (called p)))
            | None => run (k (-1) 0 0) (called p)
            end
        | None => run (k (-1) 0 0) (called p)
        end
  | Fork k =>
      if fails p then run (k (-1)) (called p) else run (k 0) (child p) ++ run (k 1) (forked (called p))
  | Wait k => EvWait (pr_pid p) (pr_kids p) :: run k (waited p)
  | Chdir path k =>
      if fails p then run (k (-1)) (called p) else EvChdir (pr_pid p) path :: run (k 0) (called p)
  | Say fd text k => EvSay (pr_pid p) (fd_get fd (pr_fds p)) text :: run k p
  | Gets max k =>
      let line := first_line (Z.to_nat (max - 1)) (pr_input p) in
      run (k line) (with_input (drop (length line) (pr_input p)) p)
  | Fuel => [EvFuel]
  end.
End Run.

(** ** What a command line sets up *)

(** Standard input, output and error of a process. *)
Record stdio := mkStdio { io_in : obj; io_out : obj; io_err : obj }.

Definition redirect (o : obj) (fd : Z) (io : stdio) : stdio :=
  if fd =? 0 then mkStdio o (io_out io) (io_err io) else mkStdio (io_in io) o (io_err io).

(** The programs that a command starts: the process and its arguments and standard
    descriptors.  [pid] is the process that runs the command, after [nf] forks and
    [np] pipes. *)
Fixpoint plan (c : tcmd) (pid : list nat) (nf np : nat) (io : stdio) : list (list nat * list (list Z) * stdio) :=
  match c with
  | TEXEC [] => []
  | TEXEC argv => [(pid, argv, io)]
  | TREDIR c file mode fd => plan c pid nf np (redirect (OpenFile file mode) fd io)
  | TLIST l r => plan l (pid ++ [nf]) 0 0 io ++ plan r pid (S nf) np io
  | TPIPE l r =>
      plan l (pid ++ [nf]) 0 0 (redirect (PipeEnd pid np true) 1 io) ++
      plan r (pid ++ [S nf]) 0 0 (redirect (PipeEnd pid np false) 0 io)
  | TBACK c => plan c (pid ++ [nf]) 0 0 io
  end.

(** A descriptor table with the three standard descriptors and nothing else. *)
Definition std_fds (io : stdio) : list (option obj) :=
  [Some (io_in io); Some (io_out io); Some (io_err io)] ++ replicate (Z.to_nat NOFILE - 3) None.

(** The [exec] of a planned program: with the standard descriptors only, by a process
    without children. *)
Definition planned (x : list nat * list (list Z) * stdio) : event :=
  EvExec x.1.1 (hd [] x.1.2) x.1.2 0 (std_fds x.2).

Definition is_exec (e : event) : bool := match e with EvExec _ _ _ _ _ => true | _ => false end.
Definition execs (l : list event) : list event := filter (fun e => is_exec e = true) l.

Section Wiring.
Context (oops : list nat -> nat -> bool).

Definition ready (io : stdio) (p : proc) : Prop := pr_fds p = std_fds io /\ pr_kids p = 0%nat.

Lemma run_fork1 k p :
  execs (run oops (fork1 k) p) =
  if fails oops p then [] else execs (run oops (k 0) (child p)) ++ execs (run oops (k 1) (forked (called p))).
Proof. unfold fork1. cbn [run]. destruct (fails oops p); [done|]. cbn. apply filter_app. Qed.

Lemma execs_cons e l : is_exec e = false -> execs (e :: l) = execs l.
Proof. intros H. unfold execs. rewrite filter_cons_False; [done|]. by rewrite H. Qed.

Lemma run_redir io path mode fd k p :
  (fd = 0 \/ fd = 1) -> pr_fds p = std_fds io ->
  execs (run oops (Close fd (Open path mode (fun r =>
    if r <? 0 then Say 2 (str "open " ++ path ++ str " failed" ++ [10]) (Exit 1) else k))) p) =
  if fails oops p then []
  else execs (run oops k (with_fds (std_fds (redirect (OpenFile path mode) fd io)) (called p))).
Proof.
  intros Hfd Ht. cbn [run]. rewrite Ht.
  change (fails oops (with_fds _ p)) with (fails oops p).
  destruct (fails oops p) eqn:E; [done|]. by destruct Hfd as [-> | ->].
Qed.

(** The two ends of a pipe get the first descriptors behind the standard ones. *)
Definition pipe_fds (io : stdio) (o o' : obj) : list (option obj) := <[4%nat := Some o']> (<[3%nat := Some o]> (std_fds io)).

Lemma fdalloc_pipe io o o' :
  fdalloc o (std_fds io) = Some (3%nat, <[3%nat := Some o]> (std_fds io)) /\
  fdalloc o' (<[3%nat := Some o]> (std_fds io)) = Some (4%nat, pipe_fds io o o').
Proof. done. Qed.

Lemma run_pipe io p l r :
  pr_fds p = std_fds io ->
  execs (run oops
     (Pipe (fun ret p0 p1 =>
        if ret <? 0 then panic (str "pipe")
        else
          fork1 (fun pid =>
            if pid =? 0 then Close 1 (Dup p1 (fun _ => Close p0 (Close p1 l)))
            else
              fork1 (fun pid =>
                if pid =? 0 then Close 0 (Dup p0 (fun _ => Close p0 (Close p1 r)))
                else Close p0 (Close p1 (Wait (Wait (Exit 0)))))))) p) =
  let q := piped (called p) in
  let q' := forked (called q) in
  if fails oops p then []
  else if fails oops q then []
  else
    execs (run oops l (with_fds (std_fds (redirect (PipeEnd (pr_pid p) (pr_pipes p) true) 1 io)) (child q))) ++
    if fails oops q' then []
    else execs (run oops r (with_fds (std_fds (redirect (PipeEnd (pr_pid p) (pr_pipes p) false) 0 io)) (child q'))).
Proof.
  intros Ht. cbn zeta. cbn [run]. rewrite Ht. destruct (fails oops p) eqn:E; [done|].
  destruct (fdalloc_pipe io (PipeEnd (pr_pid p) (pr_pipes p) false) (PipeEnd (pr_pid p) (pr_pipes p) true)) as [-> ->].
  cbn [Z.ltb Z.compare]. rewrite run_fork1.
  match goal with |- context [fails oops (with_fds ?t ?q)] => change (fails oops (with_fds t q)) with (fails oops q) end.
  destruct (fails oops (piped (called p))) eqn:E1; [done|]. f_equal.
  cbn [Z.eqb]. rewrite run_fork1.
  match goal with |- context [if fails oops ?x then [] else _ ++ _] =>
    change (fails oops x) with (fails oops (forked (called (piped (called p))))) end.
  destruct (fails oops (forked (called (piped (called p))))) eqn:E2; [done|].
  etransitivity; [|apply app_nil_r]. done.
Qed.

(** [l] is [l'], or a part of it when some call fails. *)
Definition part_of (l l' : list event) : Prop :=
  l `sublist_of` l' /\ ((forall pid n, oops pid n = false) -> l = l').

Lemma part_none p l : fails oops p = true -> part_of [] l.
Proof. intros H. split; [apply sublist_nil_l|]. intros Hno. unfold fails in H. by rewrite Hno in H. Qed.

Lemma part_fails p l l' :
  (fails oops p = false -> part_of l l') -> part_of (if fails oops p then [] else l) l'.
Proof.
  destruct (fails oops p) eqn:E; [|auto]. intros _. by apply (part_none p).
Qed.

Lemma part_app l1 l2 l1' l2' : part_of l1 l1' -> part_of l2 l2' -> part_of (l1 ++ l2) (l1' ++ l2').
Proof. intros [? H1] [? H2]. split; [by apply sublist_app|]. intros Hno. by rewrite H1, H2. Qed.

Lemma runcmd_run b c p io :
  shaped c -> ready io p ->
  part_of (execs (run oops (runcmd b c) p))
    (planned <$> plan (resolve b c) (pr_pid p) (pr_forks p) (pr_pipes p) io).
Proof.
  revert p io. induction c as [argv|c IH file efile mode fd|l IHl r IHr|l IHl r IHr|c IH];
    intros p io Hs [Ht Hk]; cbn [runcmd resolve plan].
  - destruct argv as [|[q e] argv]; [by split|]. cbn [run]. destruct (fails oops p) eqn:E.
    { by apply (part_none p). }
    unfold planned. cbn. rewrite Ht, Hk. by split.
  - destruct Hs as [Hs Hm].
    assert (fd = 0 \/ fd = 1) as Hfd.
    { unfold redir_modes in Hm. rewrite !elem_of_cons, elem_of_nil in Hm. naive_solver. }
    rewrite (run_redir io) by done. apply part_fails. intros _. (refine (IH _ _ _ _); [done|by split]).
  - destruct Hs as [Hl Hr]. rewrite (run_pipe io) by done. cbn zeta. rewrite fmap_app.
    apply part_fails. intros _. apply part_fails. intros _.
    apply part_app; [(refine (IHl _ _ _ _); [done|by split])|]. apply part_fails. intros _. (refine (IHr _ _ _ _); [done|by split]).
  - destruct Hs as [Hl Hr]. rewrite run_fork1, fmap_app. apply part_fails. intros _.
    apply part_app; [(refine (IHl _ _ _ _); [done|by split])|]. cbn [Z.eqb run]. rewrite execs_cons by done.
    refine (IHr _ _ Hr _). split; cbn; [done|lia].
  - rewrite run_fork1. apply part_fails. intros _. cbn [Z.eqb run].
    rewrite (execs_cons (EvExit _ _)) by done. rewrite app_nil_r. (refine (IH _ _ _ _); [done|by split]).
Qed.
End Wiring.

(** ** A session *)

(** A line of input that is a command of the grammar, with its newline: it fits the
    buffer, and it is neither blank nor a [cd]. *)
Definition command_text (x : line * list Z) : Prop :=
  let '(l, s) := x in
  spells (line_toks l) s /\ line_ok l /\
  (exists body, s = body ++ [10] /\ (10 ∉ body) /\ (13 ∉ body)) /\ (length s < 100)%nat /\
  head (skip_blank s) <> Some 10 /\ take 3 (skip_blank s) <> str "cd ".

Lemma first_line_text body rest k :
  10 ∉ body -> 13 ∉ body -> (length body < k)%nat ->
  first_line k (body ++ 10 :: rest) = body ++ [10].
Proof.
  revert k. induction body as [|c body IH]; intros [|k] H10 H13 Hk; cbn in *; try lia; [done|].
  apply not_elem_of_cons in H10 as [Hc ?]. apply not_elem_of_cons in H13 as [Hc' ?].
  destruct (Z.eqb_spec c 10); [lia|]. destruct (Z.eqb_spec c 13); [lia|]. cbn. rewrite IH by (done || lia). done.
Qed.

Lemma upto_nul_id l : 0 ∉ l -> upto_nul l = l.
Proof.
  induction l as [|c l IH]; intros H; [done|]. apply not_elem_of_cons in H as [Hc Hl]. cbn.
  destruct (Z.eqb_spec c 0); [lia|]. by rewrite IH.
Qed.

Lemma skip_blank_spells ts l : spells ts l -> spells ts (skip_blank l).
Proof.
  intros H. induction l as [|c l IH]; [done|]. cbn. destruct ((c =? 32) || (c =? 9)) eqn:E; [|done].
  apply IH. apply (spells_ws_inv _ _ _ H). apply in_whitespace. unfold whitespace.
  apply orb_prop in E as [->%Z.eqb_eq| ->%Z.eqb_eq]; set_solver.
Qed.

(** The prompt of process [pid], and one turn of its loop: the prompt, what the child
    and its descendants do, and the wait for it, the only child that is left. *)
Definition prompt (io : stdio) (pid : list nat) : event := EvSay pid (Some (io_err io)) (str "$ ").
Definition turn (io : stdio) (pid : list nat) (child_events : list event) : list event :=
  prompt io pid :: child_events ++ [EvWait pid 1].

(** The process after the child that ran a command has been waited for. *)
Definition next_turn (l : list Z) (p : proc) : proc := waited (forked (called (with_input l p))).

Section Session.
Context (oops : list nat -> nat -> bool) (no_oops : forall pid n, oops pid n = false).

Lemma run_turn x rest fuel p io :
  command_text x -> pr_input p = x.2 ++ rest -> ready io p ->
  run oops (command_loop (S fuel)) p =
    turn io (pr_pid p) (run oops (run_line (skip_blank x.2)) (child (with_input rest p))) ++
    run oops (command_loop fuel) (next_turn rest p).
Proof.
  destruct x as [l s]. intros (Hs & _ & (body & Hb & H10 & H13) & Hlen & Hblank & Hcd) Hin [Ht Hk]. cbn [fst snd] in *.
  cbn [command_loop]. unfold getcmd. cbn [run]. rewrite Hin.
  assert (first_line (Z.to_nat (100 - 1)) (s ++ rest) = s) as ->.
  { rewrite Hb, <- app_assoc. cbn [app]. apply first_line_text; try done.
    rewrite Hb, length_app in Hlen. cbn [length] in Hlen. lia. }
  rewrite (drop_app_length s), (upto_nul_id s) by (by eapply spells_nonzero).
  rewrite decide_False by (rewrite Hb; by destruct body). rewrite (decide_False _ _ Hblank), (decide_False _ _ Hcd).
  unfold fork1. cbn [run]. unfold fails. rewrite no_oops. cbn [Z.eqb run].
  unfold turn, prompt. rewrite <- app_comm_cons, <- app_assoc. cbn. by rewrite Ht, Hk.
Qed.

Lemma run_line_execs l s p io :
  spells (line_toks l) s -> line_ok l -> ready io p ->
  execs (run oops (run_line s) p) = planned <$> plan (line_means l) (pr_pid p) (pr_forks p) (pr_pipes p) io.
Proof.
  intros Hs Hok Hp. destruct (parsecmd_means l s Hs Hok) as (c & b & i & E & Hwf & Hc).
  unfold run_line. rewrite E, <- Hc. destruct Hwf as [Hshape _].
  by apply (runcmd_run oops b c p io).
Qed.

Lemma command_loop_run ls fuel p io :
  Forall command_text ls -> (length ls < fuel)%nat -> ready io p -> pr_input p = concat ls.*2 ->
  exists lines, run oops (command_loop fuel) p =
      concat (turn io (pr_pid p) <$> lines) ++ [prompt io (pr_pid p); EvExit (pr_pid p) 0] /\
    execs <$> lines = imap (fun i x =>
      planned <$> plan (line_means x.1) (pr_pid p ++ [(pr_forks p + i)%nat]) 0 0 io) ls.
Proof.
  intros Hls. revert fuel p. induction Hls as [|x ls Hx Hls IH]; intros [|fuel] p Hf Hp Hin; cbn [length] in Hf; try lia.
  - exists []. destruct Hp as [Ht Hk]. cbn in Hin |- *. unfold getcmd. cbn [run]. rewrite Hin, Ht. done.
  - cbn [fmap list_fmap concat] in Hin. rewrite (run_turn x _ fuel p io Hx Hin Hp). destruct Hp as [Ht Hk].
    destruct (IH fuel (next_turn (concat ls.*2) p)) as (lines & -> & Hl); [lia| |done|].
    { split; [done|]. cbn. lia. }
    eexists (_ :: lines). split; [cbn [fmap list_fmap concat]; by rewrite <- app_assoc|].
    destruct x as [l s]. destruct Hx as (Hs & Hok & _). cbn [fmap list_fmap imap fst snd]. f_equal.
    + rewrite (run_line_execs l _ _ io) by (try done; by apply skip_blank_spells).
      cbn [pr_pid pr_forks child with_input pr_pipes]. by rewrite Nat.add_0_r.
    + etransitivity; [exact Hl|]. apply imap_ext. intros i y _. cbn. do 4 f_equal. lia.
Qed.

(** Opening [console] with the three standard descriptors open takes one turn. *)
Lemma open_console_run k p io :
  ready io p -> run oops (open_console 4 k) p = run oops k (called p) .
Proof.
  intros [Ht Hk]. cbn [open_console run]. unfold fails. rewrite no_oops. cbn [called pr_fds]. rewrite Ht. cbn.
  destruct p. cbn in *. subst. done.
Qed.
End Session.

(** C27. Whichever system calls fail, [runcmd] on a parsed command starts only
    programs of the plan of that command, in that plan's order: each with the
    arguments of the command line, with the standard descriptors that its pipes and
    redirections give it, with every other descriptor closed (no pipe end leaks into
    a program), and by a process that has waited for all of its children.  When no
    call fails it starts all of them. *)
Theorem runcmd_wiring oops b c p io :
  shaped c -> ready io p ->
  let started := execs (run oops (runcmd b c) p) in
  let planning := planned <$> plan (resolve b c) (pr_pid p) (pr_forks p) (pr_pipes p) io in
  started `sublist_of` planning /\ ((forall pid n, oops pid n = false) -> started = planning).
Proof. intros Hs Hp. by apply runcmd_run. Qed.

Definition console_io : stdio := mkStdio (Inherited 0) (Inherited 1) (Inherited 2).
Definition shell_proc (input : list Z) : proc := mkProc [] 0 0 0 0 (std_fds console_io) input.

(** [a | b], where the second [fork] fails. *)
Lemma runcmd_wiring_witness :
  execs (run (fun pid n => (n =? 2)%nat) (runcmd [97; 0; 98; 0] (PIPE (EXEC [(0, 1)%nat]) (EXEC [(2, 3)%nat]))) (shell_proc []))
    `sublist_of`
  [planned ([0%nat], [[97]], redirect (PipeEnd [] 0 true) 1 console_io);
   planned ([1%nat], [[98]], redirect (PipeEnd [] 0 false) 0 console_io)].
Proof.
  apply (runcmd_wiring (fun pid n => (n =? 2)%nat) [97; 0; 98; 0] (PIPE (EXEC [(0, 1)%nat]) (EXEC [(2, 3)%nat]))
    (shell_proc []) console_io).
  - cbn. unfold MAXARGS. lia.
  - by split.
Defined.

(** C12. A session of the shell: when the input is a sequence of command lines, each
    any spelling of a line of the grammar that fits the buffer, and no system call
    fails, the run of [main] is one turn for every line and a last prompt, where it
    exits with 0.  In a turn the shell prints its prompt, a new child starts the
    programs of the line, wired as the meaning of the line says, and the shell waits
    for this child, the only one it has, before the next prompt. *)
Theorem shell_session oops ls fuel p io :
  (forall pid n, oops pid n = false) -> Forall command_text ls -> (length ls < fuel)%nat ->
  ready io p -> pr_input p = concat ls.*2 ->
  exists lines, run oops (main fuel) p =
      concat (turn io (pr_pid p) <$> lines) ++ [prompt io (pr_pid p); EvExit (pr_pid p) 0] /\
    execs <$> lines = imap (fun i x =>
      planned <$> plan (line_means x.1) (pr_pid p ++ [(pr_forks p + i)%nat]) 0 0 io) ls.
Proof.
  intros Hno Hls Hf Hp Hin. unfold main. rewrite (open_console_run oops Hno _ _ io Hp).
  by apply (command_loop_run oops Hno ls fuel (called p) io).
Qed.

(** [a|b] and [c>f;d]. *)
Lemma shell_session_witness :
  exists lines, run (fun _ _ => false) (main 3) (shell_proc [97; 124; 98; 10; 99; 62; 102; 59; 100; 10]) =
      concat (turn console_io [] <$> lines) ++ [prompt console_io []; EvExit [] 0] /\
    execs <$> lines =
      [[planned ([0; 0]%nat, [[97]], redirect (PipeEnd [0%nat] 0 true) 1 console_io);
        planned ([0; 1]%nat, [[98]], redirect (PipeEnd [0%nat] 0 false) 0 console_io)];
       [planned ([1; 0]%nat, [[99]], redirect (OpenFile [102] 0x601) 1 console_io);
        planned ([1]%nat, [[100]], console_io)]].
Proof.
  apply (shell_session (fun _ _ => false)
    [(L_last (P_pipe (C_simple [] [([97], [])]) (P_one (C_simple [] [([98], [])]))) 0, [97; 124; 98; 10]);
     (L_seq (P_one (C_simple [] [([99], [mkRedir R_out [102]])])) 0 (L_last (P_one (C_simple [] [([100], [])])) 0),
      [99; 62; 102; 59; 100; 10])]); [done| |cbn; lia|by split|done].
  apply Forall_cons; split; [|apply Forall_singleton]; cbn [command_text]; split_and!; try done.
  - cbn. repeat spell.
  - cbn. unfold MAXARGS. lia.
  - exists [97; 124; 98]. split_and!; [done|set_solver..].
  - cbn. lia.
  - cbn. repeat spell.
  - cbn. unfold MAXARGS. lia.
  - exists [99; 62; 102; 59; 100]. split_and!; [done|set_solver..].
  - cbn. lia.
Defined.

(** [cmd[strlen(cmd)-1] = 0] chops the last character whether it is the newline or
    not: at the end of an input without a final newline, [cd ab] changes to [a]. *)
Lemma cd_chops_last :
  run (fun _ _ => false) (main 3) (shell_proc (str "cd ab")) =
  [EvSay [] (Some (Inherited 2)) (str "$ "); EvChdir [] (str "a"); EvSay [] (Some (Inherited 2)) (str "$ ");
   EvExit [] 0].
Proof. vm_compute. reflexivity. Qed.
