(* ===== verification/Mkfs.v ===== *)
(** * The file-system image builder ([mkfs/mkfs.c])

    A program of the host that writes [fs.img]: the super block, the inodes, the
    root directory, the files and the bitmap.  The image is the function from block
    numbers to the bytes of the block, with the number of blocks of the file.  The
    host is little-endian; what the program prints is left out.  The files of the
    command line are given with the pieces that [read] returns for them. *)

From S2P Require Import Prelude Riscv Mem State Printf Sched Bio Log Crash Fs FsData Balloc.

#[local] Open Scope Z_scope.

Definition NINODES : Z := 200.

Definition nbitmap : Z := FSSIZE / BPB + 1.
Definition ninodeblocks : Z := NINODES / IPB + 1.
Definition nlog : Z := LOGBLOCKS + 1.

(** [nmeta] and [nblocks], as [main] sets them. *)
Definition nmeta : Z := 2 + nlog + ninodeblocks + nbitmap.
Definition nblocks : Z := FSSIZE - nmeta.

Definition xshort (x : Z) : Z := get_le 2 [u8 x; u8 (Z.shiftr x 8)] 0.
Definition xint (x : Z) : Z := get_le 4 [u8 x; u8 (Z.shiftr x 8); u8 (Z.shiftr x 16); u8 (Z.shiftr x 24)] 0.

(** The super block, as [main] sets it. *)
Definition mk_sb : superblock :=
  mkSuperblock FSMAGIC (xint FSSIZE) (xint nblocks) (xint NINODES) (xint nlog) (xint 2)
    (xint (2 + nlog)) (xint (2 + nlog + ninodeblocks)).

Definition put_superblock (x : superblock) (d : list Z) : list Z :=
  put32 (sb_bmapstart x) 28 (put32 (sb_inodestart x) 24 (put32 (sb_logstart x) 20 (put32 (sb_nlog x) 16
    (put32 (sb_ninodes x) 12 (put32 (sb_nblocks x) 8 (put32 (sb_size x) 4 (put32 (sb_magic x) 0 d))))))).

Definition zeroes : list Z := replicate (Z.to_nat BSIZE) 0.

(** ** The state and its monad *)

Record mkfs := mkMkfs {
  img : Z -> list Z;
  img_len : Z;
  freeinode : Z;
  freeblock : Z
}.

Inductive mres (A : Type) : Type :=
| M_ok (a : A) (st : mkfs)
| M_die (msg : string)
| M_fuel.
#[global] Arguments M_ok {A} a st.
#[global] Arguments M_die {A} msg.
#[global] Arguments M_fuel {A}.

Definition M (A : Type) : Type := mkfs -> mres A.

#[global] Instance M_ret : MRet M := fun A a st => M_ok a st.
#[global] Instance M_bind : MBind M := fun A B f m st =>
  match m st with
  | M_ok a st' => f a st'
  | M_die msg => M_die msg
  | M_fuel => M_fuel
  end.

Definition die {A} (msg : string) : M A := fun _ => M_die msg.
Definition massert (b : bool) : M unit := fun st => if b then M_ok tt st else M_die "assert".

(** ** Blocks and inodes *)

(** The block at byte [sec * BSIZE], a [uint]. *)
Definition sector (sec : Z) : Z := u32 (sec * BSIZE) / BSIZE.

Definition wsect (sec : Z) (buf : list Z) : M unit := fun st =>
  let k := sector sec in
  M_ok tt (mkMkfs (fun b => if b =? k then buf else img st b) (Z.max (img_len st) (k + 1)) (freeinode st) (freeblock st)).

Definition rsect (sec : Z) : M (list Z) := fun st =>
  let k := sector sec in
  if k <? img_len st then M_ok (img st k) st else M_die "read".

Definition winode (inum : Z) (ip : dinode) : M unit :=
  let bn := IBLOCK inum mk_sb in
  buf ← rsect bn;
  wsect bn (put_dinode ip (dinode_off inum) buf).

Definition rinode (inum : Z) : M dinode :=
  let bn := IBLOCK inum mk_sb in
  buf ← rsect bn;
  mret (get_dinode buf (dinode_off inum)).

Definition next_inode : M Z := fun st =>
  M_ok (freeinode st) (mkMkfs (img st) (img_len st) (u32 (freeinode st + 1)) (freeblock st)).

Definition next_block : M Z := fun st =>
  M_ok (freeblock st) (mkMkfs (img st) (img_len st) (freeinode st) (u32 (freeblock st + 1))).

Definition get_freeblock : M Z := fun st => M_ok (freeblock st) st.

Definition ialloc (type : Z) : M Z :=
  inum ← next_inode;
  winode inum (mkDinode (xshort type) 0 0 (xshort 1) (xint 0) (replicate 13 0)) ;;
  mret inum.

Definition balloc (used : Z) : M unit :=
  massert (used <? BPB) ;;
  wsect (sb_bmapstart mk_sb) (foldl (fun d i => set_bit i d) zeroes (seqZ 0 used)).

(** ** Appending to a file *)

Definition addr (din : dinode) (k : Z) : Z := default 0 (d_addrs din !! Z.to_nat k).

Definition set_addr (k v : Z) (din : dinode) : dinode :=
  mkDinode (d_type din) (d_major din) (d_minor din) (d_nlink din) (d_size din) (<[Z.to_nat k := v]> (d_addrs din)).

Definition set_size (v : Z) (din : dinode) : dinode :=
  mkDinode (d_type din) (d_major din) (d_minor din) (d_nlink din) v (d_addrs din).

(** [if(xint(din.addrs[k]) == 0) din.addrs[k] = xint(freeblock++);] *)
Definition ensure_addr (k : Z) (din : dinode) : M dinode :=
  if xint (addr din k) =? 0 then b ← next_block; mret (set_addr k (xint b) din) else mret din.

(** The block [x] of [iappend] for block [fbn] of the file, allocated if need be. *)
Definition locate (fbn : Z) (din : dinode) : M (Z * dinode) :=
  massert (fbn <? MAXFILE) ;;
  if fbn <? NDIRECT then
    din ← ensure_addr fbn din;
    mret (xint (addr din fbn), din)
  else
    din ← ensure_addr NDIRECT din;
    indirect ← rsect (xint (addr din NDIRECT));
    let o := Z.to_nat (4 * (fbn - NDIRECT)) in
    indirect ←
      (if get32 indirect o =? 0 then
         b ← next_block;
         let indirect' := put32 (xint b) o indirect in
         wsect (xint (addr din NDIRECT)) indirect' ;;
         mret indirect'
       else mret indirect);
    mret (xint (get32 indirect o), din).

(** [bcopy] of [src] to byte [o] of [buf]. *)
Definition blit (src : list Z) (o : nat) (buf : list Z) : list Z :=
  take o buf ++ src ++ drop (o + length src) buf.

(** The loop: [p] is what is left to write. *)
Fixpoint iappend_loop (fuel : nat) (p : list Z) (off : Z) (din : dinode) : M (Z * dinode) :=
  if decide (p = []) then mret (off, din)
  else
    match fuel with
    | O => fun _ => M_fuel
    | S f =>
        let fbn := off / BSIZE in
        xd ← locate fbn din;
        let n1 := Z.to_nat (Z.min (length p) (u32 ((fbn + 1) * BSIZE - off))) in
        buf ← rsect xd.1;
        wsect xd.1 (blit (take n1 p) (Z.to_nat (off - fbn * BSIZE)) buf) ;;
        iappend_loop f (drop n1 p) (u32 (off + n1)) xd.2
    end.

Definition iappend (inum : Z) (p : list Z) : M unit :=
  din ← rinode inum;
  od ← iappend_loop (length p) p (xint (d_size din)) din;
  winode inum (set_size (xint od.1) od.2).

(** ** The program *)

(** A file of the command line: its name, and what [read] returns if [open] succeeds. *)
Definition input : Type := list Z * option (list (list Z)).

(** Without [user/], and without the leading [_]. *)
Definition shortname (name : list Z) : list Z :=
  if strncmp_list 5 name (str "user/") =? 0 then drop 5 name else name.

Definition target_name (name : list Z) : list Z :=
  match shortname name with
  | c :: s => if c =? 95 then s else c :: s
  | [] => []
  end.

Fixpoint append_all (inum : Z) (chunks : list (list Z)) : M unit :=
  match chunks with
  | [] => mret tt
  | c :: cs => iappend inum c ;; append_all inum cs
  end.

Definition add_file (rootino : Z) (x : input) : M unit :=
  massert (negb (existsb (Z.eqb 47) (shortname x.1))) ;;
  match x.2 with
  | None => die "open"
  | Some chunks =>
      let name := target_name x.1 in
      massert (length name <=? DIRSIZ) ;;
      inum ← ialloc T_FILE;
      iappend rootino (put_dirent (mkDirent (xshort inum) (strncpy_name name))) ;;
      append_all inum chunks
  end.

Fixpoint add_files (rootino : Z) (l : list input) : M unit :=
  match l with
  | [] => mret tt
  | x :: l' => add_file rootino x ;; add_files rootino l'
  end.

Fixpoint write_zeroes (l : list Z) : M unit :=
  match l with
  | [] => mret tt
  | i :: l' => wsect i zeroes ;; write_zeroes l'
  end.

(** [main] behind the [open] of the image, which is empty. *)
Definition main (files : list input) : M unit :=
  write_zeroes (seqZ 0 FSSIZE) ;;
  wsect 1 (put_superblock mk_sb zeroes) ;;
  rootino ← ialloc T_DIR;
  massert (rootino =? ROOTINO) ;;
  iappend rootino (put_dirent (mkDirent (xshort rootino) (strncpy_name (str ".")))) ;;
  iappend rootino (put_dirent (mkDirent (xshort rootino) (strncpy_name (str "..")))) ;;
  add_files rootino files ;;
  din ← rinode rootino;
  let off := xint (d_size din) in
  winode rootino (set_size (xint ((off / BSIZE + 1) * BSIZE)) din) ;;
  used ← get_freeblock;
  balloc used.

(** The empty image; a part of the file that is skipped over reads as zeros. *)
Definition start : mkfs := mkMkfs (fun _ => zeroes) 0 1 nmeta.
