(* ===== verification/MkfsImage.v ===== *)
(** * The image that [mkfs] builds

    Every file of the command line is in the image with its contents, in blocks that
    no other file has, under its name in the root directory; and the bitmap marks
    exactly the blocks in use, which is what the kernel's allocator needs. *)

From S2P Require Import Prelude Riscv Mem State Printf Sched Bio Log Crash Fs FsData Balloc Mkfs.

#[local] Open Scope Z_scope.

(** ** Numbers, blocks and the monad *)

Ltac sizes := change nmeta with 47 in *; change FSSIZE with 2000 in *; unfold is_u32 in *.

Lemma xint_id x : is_u32 x -> xint x = x.
Proof.
  intros H. unfold is_u32 in H. unfold xint, u8. cbn [get_le lookup list_lookup default from_option id].
  rewrite !Z.shiftr_div_pow2 by lia. unfold id. Z.div_mod_to_equations. lia.
Qed.

Lemma sector_id b : 0 <= b < FSSIZE -> sector b = b.
Proof.
  intros H. unfold sector. rewrite u32_small; [apply Z.div_mul; done|]. unfold is_u32, FSSIZE, BSIZE in *. lia.
Qed.

Lemma mbind_ok {A B} (m : M A) (f : A -> M B) st a st' : m st = M_ok a st' -> (m ≫= f) st = f a st'.
Proof. intros H. unfold mbind, M_bind. by rewrite H. Qed.

Definition upd (b : Z) (buf : list Z) (st : mkfs) : mkfs :=
  mkMkfs (fun b' => if b' =? b then buf else img st b') (img_len st) (freeinode st) (freeblock st).

Lemma wsect_run b buf st : img_len st = FSSIZE -> 0 <= b < FSSIZE -> wsect b buf st = M_ok tt (upd b buf st).
Proof. intros Hl Hb. unfold wsect, upd. rewrite sector_id, Hl by done. by rewrite Z.max_l by lia. Qed.

Lemma rsect_run b st : img_len st = FSSIZE -> 0 <= b < FSSIZE -> rsect b st = M_ok (img st b) st.
Proof. intros Hl Hb. unfold rsect. rewrite sector_id, Hl by done. by destruct (Z.ltb_spec b FSSIZE); [|lia]. Qed.

Lemma img_upd_same b buf st : img (upd b buf st) b = buf.
Proof. cbn. by rewrite Z.eqb_refl. Qed.

Lemma img_upd_other b b' buf st : b' <> b -> img (upd b buf st) b' = img st b'.
Proof. intros H. cbn. by rewrite (proj2 (Z.eqb_neq _ _) H). Qed.

(** ** Files *)

(** A file of the image: its data blocks, its indirect block and its bytes. *)
Record gfile := mkGfile { g_blocks : list Z; g_ind : Z; g_bytes : list Z }.

Definition pad (l : list Z) : list Z := l ++ replicate (1024 - length l) 0.

(** Block [k] of the bytes of a file. *)
Definition piece (bytes : list Z) (k : nat) : list Z := pad (take 1024 (drop (1024 * k) bytes)).

(** All the blocks of a file. *)
Definition owned (g : gfile) : list Z :=
  g_blocks g ++ (if decide (12 < length (g_blocks g))%nat then [g_ind g] else []).

(** The file that the inode [din] describes. *)
Record holds (im : Z -> list Z) (din : dinode) (g : gfile) : Prop := {
  h_len : length (d_addrs din) = 13%nat;
  h_nblocks : (length (g_blocks g) <= 268)%nat;
  h_direct : forall k, (k < 12)%nat -> d_addrs din !! k = Some (default 0 (g_blocks g !! k));
  h_slot : d_addrs din !! 12%nat = Some (g_ind g);
  h_none : (length (g_blocks g) <= 12)%nat -> g_ind g = 0;
  h_ind : (12 < length (g_blocks g))%nat ->
    forall k, (k < 256)%nat -> get32 (im (g_ind g)) (4 * k) = default 0 (g_blocks g !! (12 + k)%nat);
  h_data : forall k b, g_blocks g !! k = Some b -> im b = piece (g_bytes g) k
}.

Lemma holds_ext im im' din g : (forall b, b ∈ owned g -> im' b = im b) -> holds im din g -> holds im' din g.
Proof.
  intros He [H1 H2 H3 H4 H5 H6 H7]. unfold owned in He. split; try done.
  - intros Hl. rewrite He; [by apply H6|]. apply elem_of_app. right. rewrite decide_True by done. by left.
  - intros k b Hb. rewrite He; [by apply H7|]. apply elem_of_app. left. by apply list_elem_of_lookup_2 in Hb.
Qed.

Lemma holds_set_size im din g v : holds im din g -> holds im (set_size v din) g.
Proof. intros [L1 L2 L3 L4 L5 L6 L7]. by split. Qed.

(** The blocks from [nmeta] to [freeblock] are those of [l], and the others are empty. *)
Record alloc_ok (st : mkfs) (l : list Z) : Prop := {
  al_perm : l ≡ₚ seqZ nmeta (freeblock st - nmeta);
  al_range : nmeta <= freeblock st <= FSSIZE;
  al_len : img_len st = FSSIZE;
  al_sect : forall b, length (img st b) = 1024%nat;
  al_fresh : forall b, freeblock st <= b -> img st b = zeroes
}.

Lemma alloc_elem st l b : alloc_ok st l -> b ∈ l <-> nmeta <= b < freeblock st.
Proof. intros H. rewrite (al_perm _ _ H), elem_of_seqZ. lia. Qed.

Lemma alloc_nodup st l : alloc_ok st l -> NoDup l.
Proof. intros H. rewrite (al_perm _ _ H). apply NoDup_seqZ. Qed.

Lemma alloc_length st l : alloc_ok st l -> freeblock st = nmeta + length l.
Proof.
  intros H. pose proof (Permutation_length (al_perm _ _ H)) as E. rewrite length_seqZ in E.
  pose proof (al_range _ _ H). lia.
Qed.

Lemma alloc_perm st l l' : l ≡ₚ l' -> alloc_ok st l -> alloc_ok st l'.
Proof. intros E [H1 H2 H3 H4 H5]. split; try done. by rewrite <- E. Qed.

(** Writing a block that is allocated. *)
Lemma alloc_upd st l b buf : b < freeblock st -> length buf = 1024%nat -> alloc_ok st l -> alloc_ok (upd b buf st) l.
Proof.
  intros Hb Hl [H1 H2 H3 H4 H5]. split; try done.
  - intros b'. cbn. by destruct (b' =? b).
  - intros b' Hb'. cbn in *. rewrite (proj2 (Z.eqb_neq _ _)) by lia. auto.
Qed.

Definition take_block (st : mkfs) : mkfs := mkMkfs (img st) (img_len st) (freeinode st) (freeblock st + 1).

Lemma next_block_run st l :
  alloc_ok st l -> freeblock st < FSSIZE ->
  next_block st = M_ok (freeblock st) (take_block st) /\ alloc_ok (take_block st) (freeblock st :: l) /\
  img st (freeblock st) = zeroes /\ is_u32 (freeblock st) /\ freeblock st <> 0.
Proof.
  intros [H1 H2 H3 H4 H5] Hlt. assert (is_u32 (freeblock st)) by (sizes; lia).
  unfold next_block. rewrite u32_small by (sizes; lia).
  split_and!; try done; [|apply H5; lia|sizes; lia]. split; cbn; try done; [|lia|intros; apply H5; lia].
  rewrite H1. replace (freeblock st + 1 - nmeta) with (freeblock st - nmeta + 1) by lia.
  rewrite seqZ_app, Permutation_app_comm by lia. cbn. by replace (nmeta + (freeblock st - nmeta)) with (freeblock st) by lia.
Qed.

Lemma alloc_u32 st l b : alloc_ok st l -> b ∈ l -> is_u32 b /\ b <> 0 /\ 0 <= b < FSSIZE.
Proof.
  intros H Hb. pose proof (al_range _ _ H). apply (alloc_elem _ _ _ H) in Hb.
  sizes. lia.
Qed.

Lemma piece_end bytes k : (length bytes <= 1024 * k)%nat -> piece bytes k = zeroes.
Proof. intros H. unfold piece. rewrite drop_ge by done. done. Qed.

Lemma zeroes_get32 o : get32 zeroes o = 0.
Proof.
  unfold get32, zeroes. cbn [get_le]. assert (forall j, default 0 (replicate (Z.to_nat BSIZE) 0 !! j) = 0) as E.
  { intros j. destruct (replicate _ _ !! j) as [x|] eqn:Ex; [|done]. by apply lookup_replicate in Ex as [-> _]. }
  rewrite !E. done.
Qed.

(** ** Finding the block for the end of a file *)

Definition with_addrs (l : list Z) (din : dinode) : dinode :=
  mkDinode (d_type din) (d_major din) (d_minor din) (d_nlink din) (d_size din) l.

(** Block [k] of the file has become [b]; [rest] are the blocks of the other files. *)
Record located (st : mkfs) (din : dinode) (g : gfile) (rest : list Z) (k : nat)
    (st' : mkfs) (din' : dinode) (g' : gfile) (b : Z) : Prop := {
  lo_b : g_blocks g' !! k = Some b;
  lo_bytes : g_bytes g' = g_bytes g;
  lo_blocks : length (g_blocks g') = Nat.max (length (g_blocks g)) (S k);
  lo_alloc : alloc_ok st' (owned g' ++ rest);
  lo_holds : holds (img st') din' g';
  lo_frame : forall b', b' ∈ rest \/ b' < nmeta -> img st' b' = img st b';
  lo_inode : freeinode st' = freeinode st;
  lo_meta : with_addrs [] din' = with_addrs [] din
}.

Lemma addr_set_same k v din : length (d_addrs din) = 13%nat -> 0 <= k < 13 -> addr (set_addr k v din) k = v.
Proof. intros Hl Hk. unfold addr, set_addr. cbn [d_addrs]. by rewrite list_lookup_insert_eq by lia. Qed.

Section Locate.
Context (st : mkfs) (din : dinode) (g : gfile) (rest : list Z) (k : nat).
Hypothesis (Hal : alloc_ok st (owned g ++ rest)) (Hh : holds (img st) din g) (Hk : (k < 268)%nat).

Lemma block_owned j b : g_blocks g !! j = Some b -> b ∈ owned g ++ rest.
Proof. intros H%list_elem_of_lookup_2. unfold owned. rewrite !elem_of_app. auto. Qed.

Lemma located_present b : g_blocks g !! k = Some b -> located st din g rest k st din g b.
Proof. intros H. split; try done. apply lookup_lt_Some in H. lia. Qed.

Lemma massert_fits (f : unit -> M (Z * dinode)) s : (massert (Z.of_nat k <? MAXFILE) ≫= f) s = f tt s.
Proof.
  apply mbind_ok. unfold massert. change MAXFILE with 268. by destruct (Z.ltb_spec k 268); [|lia].
Qed.

Lemma locate_direct_present b :
  (k < 12)%nat -> g_blocks g !! k = Some b -> locate k din st = M_ok (b, din) st.
Proof.
  intros H12 Hb. destruct (alloc_u32 _ _ b Hal (block_owned _ _ Hb)) as (Hu & H0 & _).
  unfold locate. rewrite massert_fits. change NDIRECT with 12. destruct (Z.ltb_spec k 12); [|lia].
  assert (addr din k = b) as Ha.
  { unfold addr. by rewrite Nat2Z.id, (h_direct _ _ _ Hh k H12), Hb. }
  unfold ensure_addr. rewrite Ha, xint_id, (proj2 (Z.eqb_neq _ _) H0) by done.
  unfold mbind, M_bind, mret, M_ret. by rewrite Ha, xint_id.
Qed.

Lemma locate_direct_new :
  (k < 12)%nat -> length (g_blocks g) = k -> (length (g_bytes g) <= 1024 * k)%nat -> freeblock st < FSSIZE ->
  exists st' din' g' b, locate k din st = M_ok (b, din') st' /\ located st din g rest k st' din' g' b.
Proof.
  intros H12 Hlen Hby Hroom. destruct (next_block_run st _ Hal Hroom) as (Hn & Hal' & Hz & Hu & H0).
  set (b := freeblock st) in *. pose proof Hh as [L1 L2 L3 L4 L5 L6 L7].
  exists (take_block st), (set_addr k b din), (mkGfile (g_blocks g ++ [b]) (g_ind g) (g_bytes g)), b. split.
  - unfold locate. rewrite massert_fits. change NDIRECT with 12. destruct (Z.ltb_spec k 12); [|lia].
    assert (addr din k = 0) as Ha.
    { unfold addr. by rewrite Nat2Z.id, (L3 k H12), lookup_ge_None_2 by lia. }
    unfold ensure_addr. rewrite Ha. change (xint 0 =? 0) with true. cbn iota. unfold mbind, M_bind. rewrite Hn.
    unfold mret, M_ret. by rewrite (xint_id b Hu), addr_set_same, (xint_id b Hu) by lia.
  - split; cbn [g_blocks g_ind g_bytes]; try done.
    + rewrite lookup_app_r, Hlen, Nat.sub_diag by lia. done.
    + rewrite length_app. cbn. lia.
    + revert Hal'. apply alloc_perm. unfold owned. cbn [g_blocks g_ind]. rewrite length_app. cbn [length].
      rewrite !decide_False by lia. rewrite !app_nil_r, <- app_assoc. cbn. apply Permutation_middle.
    + split; cbn [g_blocks g_ind g_bytes set_addr d_addrs img take_block]; try done.
      * by rewrite length_insert.
      * rewrite length_app. cbn. lia.
      * intros j Hj. rewrite Nat2Z.id. destruct (decide (j = k)) as [->|Hne].
        { rewrite list_lookup_insert_eq, lookup_app_r, Hlen, Nat.sub_diag by lia. done. }
        rewrite list_lookup_insert_ne, L3 by lia. f_equal. destruct (decide (j < k)%nat).
        { by rewrite lookup_app_l by lia. }
        rewrite !lookup_ge_None_2; [done|rewrite length_app; cbn; lia|lia].
      * rewrite list_lookup_insert_ne by lia. done.
      * intros _. apply L5. lia.
      * rewrite length_app. cbn. lia.
      * intros j x [Hj|[Hj Hx]]%lookup_app_Some; [by apply L7|].
        apply list_lookup_singleton_Some in Hx as [Hj0 <-]. assert (j = k) as -> by lia.
        rewrite piece_end by done. done.
Qed.

Lemma locate_indirect (ind b : Z) (st1 st2 : mkfs) (din1 : dinode) :
  (12 <= k)%nat -> ensure_addr NDIRECT din st = M_ok din1 st1 -> addr din1 NDIRECT = ind ->
  is_u32 ind -> 0 <= ind < FSSIZE -> img_len st1 = FSSIZE -> is_u32 b -> b <> 0 ->
  (if get32 (img st1 ind) (4 * (k - 12)) =? 0
   then next_block st1 = M_ok b (take_block st1) /\
        st2 = upd ind (put32 b (4 * (k - 12)) (img st1 ind)) (take_block st1) /\ length (img st1 ind) = 1024%nat
   else get32 (img st1 ind) (4 * (k - 12)) = b /\ st2 = st1) ->
  locate k din st = M_ok (b, din1) st2.
Proof.
  intros H12 He Ha Hu Hr Hl Hub Hb0 Hcase. unfold locate. rewrite massert_fits. change NDIRECT with 12 in *.
  destruct (Z.ltb_spec k 12); [lia|]. rewrite (mbind_ok _ _ _ _ _ He), Ha, (xint_id ind Hu).
  rewrite (mbind_ok _ _ _ _ _ (rsect_run ind st1 Hl Hr)). cbn zeta.
  replace (Z.to_nat (4 * (k - 12))) with (4 * (k - 12))%nat by lia.
  destruct (get32 (img st1 ind) (4 * (k - 12)) =? 0) eqn:E.
  - destruct Hcase as (Hn & -> & Hlen). unfold mbind, M_bind. rewrite Hn, (xint_id b Hub).
    rewrite wsect_run by done. unfold mret, M_ret. rewrite get_put32 by (try done; lia). by rewrite xint_id.
  - destruct Hcase as (Hg & ->). unfold mbind, M_bind, mret, M_ret. by rewrite Hg, xint_id.
Qed.

Lemma ind_owned : (12 < length (g_blocks g))%nat -> g_ind g ∈ owned g ++ rest.
Proof. intros H. unfold owned. rewrite decide_True by done. rewrite !elem_of_app. left. right. by left. Qed.

Lemma slot_addr : addr din NDIRECT = g_ind g.
Proof. unfold addr. change (Z.to_nat NDIRECT) with 12%nat. by rewrite (h_slot _ _ _ Hh). Qed.

Lemma ensure_present :
  (12 < length (g_blocks g))%nat -> ensure_addr NDIRECT din st = M_ok din st.
Proof.
  intros Hl. destruct (alloc_u32 _ _ _ Hal (ind_owned Hl)) as (Hu & H0 & Hr).
  unfold ensure_addr. by rewrite slot_addr, xint_id, (proj2 (Z.eqb_neq _ _) H0).
Qed.

Lemma locate_indirect_present b :
  (12 <= k)%nat -> g_blocks g !! k = Some b -> locate k din st = M_ok (b, din) st.
Proof.
  intros H12 Hb. pose proof (lookup_lt_Some _ _ _ Hb) as Hlt.
  destruct (alloc_u32 _ _ _ Hal (block_owned _ _ Hb)) as (Hu & H0 & _).
  destruct (alloc_u32 _ _ _ Hal (ind_owned ltac:(lia))) as (Hui & Hi0 & Hr).
  apply (locate_indirect (g_ind g) b st st); try done; [by apply ensure_present; lia|apply slot_addr|by apply Hal|].
  rewrite (h_ind _ _ _ Hh) by lia. replace (12 + (k - 12))%nat with k by lia. rewrite Hb. cbn.
  by rewrite (proj2 (Z.eqb_neq _ _) H0).
Qed.

(** The indirect block is there, or is allocated now. *)
Lemma ensure_indirect :
  (12 <= length (g_blocks g))%nat -> freeblock st + (if decide (length (g_blocks g) = 12%nat) then 1 else 0) < FSSIZE ->
  exists st1 din1 ind,
    ensure_addr NDIRECT din st = M_ok din1 st1 /\ din1 = set_addr 12 ind din /\
    alloc_ok st1 (g_blocks g ++ ind :: rest) /\
    (forall j, (j < 256)%nat -> get32 (img st1 ind) (4 * j) = default 0 (g_blocks g !! (12 + j)%nat)) /\
    img st1 = img st /\ freeinode st1 = freeinode st /\ freeblock st1 < FSSIZE.
Proof.
  intros Hl Hroom. case_decide as Hd.
  - destruct (next_block_run st _ Hal ltac:(lia)) as (Hn & Hal' & Hz & Hu & H0).
    exists (take_block st), (set_addr 12 (freeblock st) din), (freeblock st). split_and!; try done.
    + unfold ensure_addr. rewrite slot_addr, (h_none _ _ _ Hh) by lia. change (xint 0 =? 0) with true. cbn iota.
      unfold mbind, M_bind. rewrite Hn. by rewrite xint_id.
    + revert Hal'. apply alloc_perm. unfold owned. rewrite decide_False, app_nil_r by lia. apply Permutation_middle.
    + intros j _. cbn [take_block img]. rewrite Hz, zeroes_get32, lookup_ge_None_2 by lia. done.
  - exists st, din, (g_ind g). split_and!; try done.
    + apply ensure_present. lia.
    + destruct din as [ty ma mi nl sz ad]. unfold set_addr. cbn. f_equal. symmetry.
      apply list_insert_id. exact (h_slot _ _ _ Hh).
    + revert Hal. apply alloc_perm. unfold owned. rewrite decide_True by lia. by rewrite <- app_assoc.
    + apply (h_ind _ _ _ Hh). lia.
    + lia.
Qed.

Lemma holds_indirect (im : Z -> list Z) ind b :
  (12 <= k)%nat -> length (g_blocks g) = k ->
  (forall j, (j < 256)%nat ->
     get32 (im ind) (4 * j) = if decide (j = k - 12)%nat then b else default 0 (g_blocks g !! (12 + j)%nat)) ->
  (forall x, x ∈ g_blocks g -> im x = img st x) -> im b = piece (g_bytes g) k ->
  holds im (set_addr 12 ind din) (mkGfile (g_blocks g ++ [b]) ind (g_bytes g)).
Proof.
  intros H12 Hlen Hind Hold Hb. pose proof Hh as [L1 L2 L3 L4 L5 L6 L7].
  split; cbn [g_blocks g_ind g_bytes set_addr d_addrs]; rewrite ?length_app, ?length_insert; cbn [length]; try done; try lia.
  - intros j Hj. rewrite list_lookup_insert_ne, lookup_app_l, L3 by lia. done.
  - rewrite list_lookup_insert_eq by lia. done.
  - intros _ j Hj. rewrite Hind by done. case_decide as Hd.
    + rewrite lookup_app_r, Hlen, Hd by lia. by replace (12 + (k - 12) - k)%nat with 0%nat by lia.
    + destruct (decide (12 + j < k)%nat); [by rewrite lookup_app_l by lia|].
      rewrite !lookup_ge_None_2; [done|rewrite length_app; cbn; lia|lia].
  - intros j x [Hj|[Hj Hx]]%lookup_app_Some.
    + rewrite Hold by (by apply list_elem_of_lookup_2 in Hj). by apply L7.
    + apply list_lookup_singleton_Some in Hx as [Hj0 <-]. by assert (j = k) as -> by lia.
Qed.

Lemma locate_indirect_new :
  (12 <= k)%nat -> length (g_blocks g) = k -> (length (g_bytes g) <= 1024 * k)%nat ->
  freeblock st + (if decide (k = 12%nat) then 1 else 0) < FSSIZE ->
  exists st' din' g' b, locate k din st = M_ok (b, din') st' /\ located st din g rest k st' din' g' b.
Proof.
  intros H12 Hlen Hby Hroom.
  destruct ensure_indirect as (st1 & din1 & ind & He & Hdin & Hal1 & Hent & Himg & Hino & Hfb); [lia|by rewrite Hlen|].
  destruct (next_block_run st1 _ Hal1 Hfb) as (Hn & Hal2 & Hz & Hu & H0).
  assert (Hin : ind ∈ g_blocks g ++ ind :: rest) by (rewrite elem_of_app, elem_of_cons; auto).
  destruct (alloc_u32 _ _ _ Hal1 Hin) as (Hui & Hi0 & Hr). pose proof (proj1 (alloc_elem _ _ _ Hal1) Hin) as Hrange.
  pose proof (alloc_nodup _ _ Hal1) as Hnd. apply NoDup_app in Hnd as (_ & Hapart & [Hnr _]%NoDup_cons).
  set (b := freeblock st1) in *. set (buf := put32 b (4 * (k - 12)) (img st1 ind)).
  pose proof (al_sect _ _ Hal1 ind) as Hsect.
  exists (upd ind buf (take_block st1)), din1, (mkGfile (g_blocks g ++ [b]) ind (g_bytes g)), b.
  assert (Hold : forall x, x <> ind -> img (upd ind buf (take_block st1)) x = img st x).
  { intros x Hx. rewrite img_upd_other by done. cbn. by rewrite Himg. }
  split.
  - apply (locate_indirect ind b st1); try done; [|by apply Hal1|].
    { rewrite Hdin. apply addr_set_same; [by apply Hh|done]. }
    rewrite Hent by lia. rewrite lookup_ge_None_2 by lia. done.
  - split; cbn [g_blocks g_ind g_bytes]; try done.
    + by rewrite lookup_app_r, Hlen, Nat.sub_diag by lia.
    + rewrite length_app. cbn. lia.
    + apply alloc_upd; [cbn; lia|unfold buf, put32; by rewrite length_put_le|]. revert Hal2. apply alloc_perm.
      unfold owned. cbn [g_blocks g_ind]. rewrite length_app. cbn [length]. rewrite decide_True by lia.
      rewrite <- !app_assoc. cbn. apply Permutation_middle.
    + rewrite Hdin. apply holds_indirect; try done.
      * intros j Hj. rewrite img_upd_same. unfold buf.
        destruct (decide (j = k - 12)%nat) as [->|Hd]; [apply get_put32; [lia|done]|].
        unfold get32, put32. rewrite get_put_le_other by lia. by apply Hent.
      * intros x Hx. apply Hold. intros ->. apply (Hapart ind Hx). by left.
      * rewrite Hold by (unfold b; lia). rewrite <- Himg, Hz, piece_end by done. done.
    + intros b' Hb'. apply Hold. intros ->. destruct Hb'; [done|lia].
    + by rewrite Hdin.
Qed.

Lemma locate_run :
  (k <= length (g_blocks g))%nat -> (length (g_bytes g) <= 1024 * length (g_blocks g))%nat ->
  (length (g_blocks g) = k -> freeblock st + (if decide (k = 12%nat) then 1 else 0) < FSSIZE) ->
  exists st' din' g' b, locate k din st = M_ok (b, din') st' /\ located st din g rest k st' din' g' b.
Proof.
  intros Hle Hby Hroom. destruct (g_blocks g !! k) as [b|] eqn:Hb.
  - exists st, din, g, b. split; [|by apply located_present].
    destruct (decide (k < 12)%nat); [by apply locate_direct_present|apply locate_indirect_present; [lia|done]].
  - apply lookup_ge_None in Hb. assert (length (g_blocks g) = k) as Hlen by lia. specialize (Hroom Hlen).
    rewrite Hlen in Hby. destruct (decide (k < 12)%nat); [apply locate_direct_new; try done|apply locate_indirect_new; try done; lia].
    rewrite decide_False in Hroom by lia. lia.
Qed.
End Locate.

(** ** Appending bytes *)

(** The blocks that [d] data blocks take, with the indirect block. *)
Definition need (d : nat) : nat := (d + if decide (12 < d) then 1 else 0)%nat.
Definition blocks_for (n : nat) : nat := need ((n + 1023) / 1024).

Lemma need_mono d d' : (d <= d')%nat -> (need d <= need d')%nat.
Proof. intros H. unfold need. repeat case_decide; lia. Qed.

(** A file has the blocks that its bytes take. *)
Definition sized (g : gfile) : Prop := length (g_blocks g) = ((length (g_bytes g) + 1023) / 1024)%nat.

Lemma sized_owned g : sized g -> length (owned g) = blocks_for (length (g_bytes g)).
Proof.
  intros H. unfold owned, blocks_for, need. rewrite length_app, <- H. by case_decide.
Qed.

Lemma ceil_bounds n : (n <= 1024 * ((n + 1023) / 1024) < n + 1024)%nat.
Proof. pose proof (Nat.div_mod_eq (n + 1023) 1024). pose proof (Nat.mod_upper_bound (n + 1023) 1024). lia. Qed.

Lemma size_step k o n :
  (0 < n)%nat -> (o + n <= 1024)%nat ->
  Nat.max ((1024 * k + o + 1023) / 1024) (S k) = ((1024 * k + o + n + 1023) / 1024)%nat.
Proof.
  intros H0 H. replace (1024 * k + o + n + 1023)%nat with (S k * 1024 + (o + n - 1))%nat by lia.
  replace (1024 * k + o + 1023)%nat with (k * 1024 + (o + 1023))%nat by lia.
  rewrite !Nat.div_add_l, (Nat.div_small (o + n - 1)) by lia.
  assert ((o + 1023) / 1024 < 2)%nat by (apply Nat.Div0.div_lt_upper_bound; lia). lia.
Qed.

Lemma piece_append bytes c k o :
  length bytes = (1024 * k + o)%nat -> (o + length c <= 1024)%nat -> blit c o (piece bytes k) = piece (bytes ++ c) k.
Proof.
  intros Hl Hc. unfold piece. rewrite drop_app_le by lia.
  assert (length (drop (1024 * k) bytes) = o) as Hx by (rewrite length_drop; lia).
  set (x := drop (1024 * k) bytes) in *. rewrite !take_ge by (rewrite ?length_app; lia).
  unfold blit, pad. rewrite length_app, Hx, <- app_assoc, take_app_le, take_ge by lia. do 2 f_equal.
  rewrite drop_app_ge, drop_replicate by lia. f_equal. lia.
Qed.

Lemma piece_append_other bytes c k j o :
  length bytes = (1024 * k + o)%nat -> (o + length c <= 1024)%nat -> j <> k -> piece (bytes ++ c) j = piece bytes j.
Proof.
  intros Hl Hc Hj. unfold piece. destruct (decide (j < k)%nat).
  - by rewrite drop_app_le, take_app_le by (rewrite ?length_drop; lia).
  - rewrite !drop_ge by (rewrite ?length_app; lia). done.
Qed.

Lemma length_piece bytes k : length (piece bytes k) = 1024%nat.
Proof. unfold piece, pad. rewrite length_app, length_replicate, length_take. lia. Qed.

(** [p] has been appended to the file; [rest] are the blocks of the other files. *)
Record appended (st : mkfs) (din : dinode) (g : gfile) (rest p : list Z)
    (st' : mkfs) (din' : dinode) (g' : gfile) : Prop := {
  ap_bytes : g_bytes g' = g_bytes g ++ p;
  ap_sized : sized g';
  ap_alloc : alloc_ok st' (owned g' ++ rest);
  ap_holds : holds (img st') din' g';
  ap_frame : forall b', b' ∈ rest \/ b' < nmeta -> img st' b' = img st b';
  ap_inode : freeinode st' = freeinode st;
  ap_meta : with_addrs [] din' = with_addrs [] din
}.

Lemma appended_trans st din g rest p st1 din1 g1 p' st2 din2 g2 :
  appended st din g rest p st1 din1 g1 -> appended st1 din1 g1 rest p' st2 din2 g2 ->
  appended st din g rest (p ++ p') st2 din2 g2.
Proof.
  intros [A1 A2 A3 A4 A5 A6 A7] [B1 B2 B3 B4 B5 B6 B7]. split; try congruence; try done.
  - by rewrite B1, A1, app_assoc.
  - intros b Hb. by rewrite B5, A5.
Qed.

(** Writing [c] into the last block. *)
Lemma write_appended st din g rest k o st1 din1 g1 b c :
  located st din g rest k st1 din1 g1 b -> sized g -> length (g_bytes g) = (1024 * k + o)%nat ->
  (0 < length c)%nat -> (o + length c <= 1024)%nat ->
  appended st din g rest c (upd b (blit c o (img st1 b)) st1) din1 (mkGfile (g_blocks g1) (g_ind g1) (g_bytes g1 ++ c)).
Proof.
  intros [B1 B2 B3 B4 B5 B6 B7 B8] Hsz Hl Hc0 Hc. pose proof (h_data _ _ _ B5 k b B1) as Hb.
  assert (Hin : b ∈ owned g1) by (apply elem_of_app; left; by apply list_elem_of_lookup_2 in B1).
  assert (Hr : b ∈ owned g1 ++ rest) by (apply elem_of_app; by left).
  pose proof (proj1 (alloc_elem _ _ _ B4) Hr) as Hrange.
  pose proof (alloc_nodup _ _ B4) as (Hnd & Hap & _)%NoDup_app.
  rewrite Hb, B2, (piece_append _ _ _ _ Hl Hc).
  split; cbn [g_bytes g_blocks g_ind]; try done.
  - unfold sized in *. cbn [g_bytes g_blocks]. rewrite B3, Hsz, length_app, Hl.
    by apply size_step.
  - apply alloc_upd; [lia|apply length_piece|done].
  - destruct B5 as [L1 L2 L3 L4 L5 L6 L7]. split; cbn [g_bytes g_blocks g_ind]; try done.
    + intros Hlt j Hj. rewrite img_upd_other; [by apply L6|]. unfold owned in Hnd. rewrite decide_True in Hnd by done.
      apply NoDup_app in Hnd as (_ & Hx & _). intros E. apply (Hx b); [by apply list_elem_of_lookup_2 in B1|].
      rewrite E. by left.
    + intros j x Hj. destruct (decide (j = k)) as [->|Hne].
      { assert (x = b) as -> by congruence. by rewrite img_upd_same. }
      rewrite img_upd_other; [rewrite (piece_append_other _ _ k _ o), <- B2 by done; by apply L7|].
      intros ->. apply NoDup_app in Hnd as (Hx & _). apply Hne. by eapply NoDup_lookup.
  - intros b' Hb'. rewrite img_upd_other; [by apply B6|]. intros ->. destruct Hb' as [Hb'|]; [|lia]. by apply (Hap b).
Qed.

(** There is room for the block at the end of the file. *)
Lemma room_next st g rest k n' :
  alloc_ok st (owned g ++ rest) -> sized g -> length (g_blocks g) = k -> (1024 * k < n')%nat ->
  nmeta + blocks_for n' + length rest <= FSSIZE -> freeblock st + (if decide (k = 12%nat) then 1 else 0) < FSSIZE.
Proof.
  intros Hal Hsz Hk Hn Hroom. rewrite (alloc_length _ _ Hal), length_app, (sized_owned _ Hsz).
  assert (need k = blocks_for (length (g_bytes g))) as <- by (unfold blocks_for; by rewrite <- Hsz, Hk).
  assert (need (S k) <= blocks_for n')%nat.
  { unfold blocks_for. apply need_mono. apply Nat.div_le_lower_bound; lia. }
  unfold need in *. repeat case_decide; lia.
Qed.

(** One turn of the loop appends a part of [p]. *)
Lemma turn_run fuel p st din g rest :
  let n := length (g_bytes g) in
  alloc_ok st (owned g ++ rest) -> holds (img st) din g -> sized g -> (0 < length p)%nat ->
  (n + length p <= 268 * 1024)%nat -> nmeta + blocks_for (n + length p) + length rest <= FSSIZE ->
  exists n1 st2 din2 g2, (0 < n1 <= length p)%nat /\
    iappend_loop (S fuel) p n din st = iappend_loop fuel (drop n1 p) (n + n1)%nat din2 st2 /\
    appended st din g rest (take n1 p) st2 din2 g2.
Proof.
  intros n Hal Hh Hsz Hp Hmax Hroom. set (k := (n / 1024)%nat). set (o := (n mod 1024)%nat).
  assert (Hn : n = (1024 * k + o)%nat) by apply Nat.div_mod_eq.
  assert (Ho : (o < 1024)%nat) by by apply Nat.mod_upper_bound.
  set (n1 := Nat.min (length p) (1024 - o)).
  assert (Hlen : length (take n1 p) = n1) by (rewrite length_take; lia).
  assert (Hceil : (n <= 1024 * length (g_blocks g) < n + 1024)%nat) by (rewrite Hsz; apply ceil_bounds).
  destruct (locate_run st din g rest k Hal Hh) as (st1 & din1 & g1 & b & E1 & Hlo); [lia|lia|lia|..].
  { intros Hk. apply (room_next st g rest k (n + length p) Hal Hsz Hk); [lia|done]. }
  pose proof (write_appended _ _ _ _ _ o _ _ _ _ (take n1 p) Hlo Hsz Hn ltac:(lia) ltac:(lia)) as Hap.
  eexists n1, _, din1, _. split; [lia|]. split; [|exact Hap].
  destruct (alloc_u32 _ _ b (lo_alloc _ _ _ _ _ _ _ _ _ Hlo)) as (_ & _ & Hr).
  { unfold owned. rewrite !elem_of_app. do 2 left. exact (list_elem_of_lookup_2 _ _ _ (lo_b _ _ _ _ _ _ _ _ _ Hlo)). }
  pose proof (al_len _ _ (lo_alloc _ _ _ _ _ _ _ _ _ Hlo)) as Hil. cbn [iappend_loop].
  rewrite decide_False by (intros ->; cbn in Hp; lia).
  change BSIZE with 1024. replace (Z.of_nat n / 1024) with (Z.of_nat k) by (unfold k; by rewrite Nat2Z.inj_div).
  rewrite (mbind_ok _ _ _ _ _ E1). cbn [fst snd]. rewrite u32_small by (sizes; lia).
  replace (Z.to_nat (Z.min (length p) ((k + 1) * 1024 - n))) with n1 by lia.
  rewrite (mbind_ok _ _ _ _ _ (rsect_run b st1 Hil Hr)).
  replace (Z.to_nat (n - k * 1024)) with o by lia. rewrite (mbind_ok _ _ _ _ _ (wsect_run b _ st1 Hil Hr)).
  rewrite u32_small by (sizes; lia). by rewrite Nat2Z.inj_add.
Qed.

Lemma iappend_loop_run fuel p st din g rest :
  alloc_ok st (owned g ++ rest) -> holds (img st) din g -> sized g -> (length p <= fuel)%nat ->
  (length (g_bytes g) + length p <= 268 * 1024)%nat ->
  nmeta + blocks_for (length (g_bytes g) + length p) + length rest <= FSSIZE ->
  exists st' din' g',
    iappend_loop fuel p (length (g_bytes g)) din st =
      M_ok (Z.of_nat (length (g_bytes g) + length p), din') st' /\ appended st din g rest p st' din' g'.
Proof.
  revert p st din g. induction fuel as [|fuel IH]; intros p st din g Hal Hh Hsz Hf Hmax Hroom;
    (destruct (decide (p = [])) as [->|Hp];
      [cbn [length]; rewrite Nat.add_0_r; exists st, din, g; split; [done|]; split; try done; by rewrite app_nil_r|]);
    (assert (0 < length p)%nat as Hp0 by (destruct p; [done|cbn; lia])); [lia|].
  destruct (turn_run fuel p st din g rest) as (n1 & st2 & din2 & g2 & Hn1 & E & Hap); try done.
  assert (Hn2 : length (g_bytes g2) = (length (g_bytes g) + n1)%nat)
    by (rewrite (ap_bytes _ _ _ _ _ _ _ _ Hap), length_app, length_take; lia).
  assert (Hs : (length (g_bytes g2) + length (drop n1 p) = length (g_bytes g) + length p)%nat)
    by (rewrite length_drop; lia).
  destruct (IH (drop n1 p) st2 din2 g2) as (st' & din' & g' & E2 & Hap'); try apply Hap;
    [rewrite length_drop; lia|lia|by rewrite Hs|].
  exists st', din', g'. split; [by rewrite E, <- Hn2, E2, Hs|].
  rewrite <- (take_drop n1 p). by eapply appended_trans.
Qed.

(** ** Inodes *)

Definition iblock (inum : Z) : Z := inum / 16 + 33.

Lemma iblock_run inum : 0 <= inum < 208 -> IBLOCK inum mk_sb = iblock inum /\ 33 <= iblock inum < 46.
Proof.
  intros H. unfold IBLOCK, iblock. change (sb_inodestart mk_sb) with 33. change IPB with 16.
  assert (0 <= inum / 16 < 13) by (Z.div_mod_to_equations; lia).
  rewrite (u32_small inum), u32_small by (unfold is_u32; lia). lia.
Qed.

Definition dinode_at (st : mkfs) (inum : Z) : dinode := get_dinode (img st (iblock inum)) (dinode_off inum).

Definition put_inode (inum : Z) (d : dinode) (st : mkfs) : mkfs :=
  upd (iblock inum) (put_dinode d (dinode_off inum) (img st (iblock inum))) st.

Lemma winode_run inum d st :
  img_len st = FSSIZE -> 0 <= inum < 208 -> winode inum d st = M_ok tt (put_inode inum d st).
Proof.
  intros Hl Hi. destruct (iblock_run inum Hi) as [E Hb]. unfold winode. rewrite E.
  rewrite (mbind_ok _ _ _ _ _ (rsect_run (iblock inum) st Hl ltac:(sizes; lia))). by rewrite wsect_run by (try done; sizes; lia).
Qed.

Lemma rinode_run inum st :
  img_len st = FSSIZE -> 0 <= inum < 208 -> rinode inum st = M_ok (dinode_at st inum) st.
Proof.
  intros Hl Hi. destruct (iblock_run inum Hi) as [E Hb]. unfold rinode. rewrite E.
  by rewrite (mbind_ok _ _ _ _ _ (rsect_run (iblock inum) st Hl ltac:(sizes; lia))).
Qed.

Lemma put_inode_same inum d st :
  length (img st (iblock inum)) = 1024%nat -> dinode_ok d -> dinode_at (put_inode inum d st) inum = d.
Proof.
  intros Hl Hd. unfold dinode_at, put_inode. rewrite img_upd_same. apply get_put_dinode; [|done].
  rewrite Hl. apply (dinode_off_bound inum).
Qed.

Lemma put_inode_other inum j d st :
  length (d_addrs d) = 13%nat -> 0 <= inum -> 0 <= j -> j <> inum -> dinode_at (put_inode inum d st) j = dinode_at st j.
Proof.
  intros Hl Hi Hj Hne. unfold dinode_at, put_inode. destruct (decide (iblock j = iblock inum)) as [E|E].
  - rewrite E, img_upd_same. apply get_put_dinode_other; [done|]. apply dinode_off_apart.
    unfold iblock in E. change IPB with 16. intros E'. apply Hne. Z.div_mod_to_equations. lia.
  - by rewrite img_upd_other.
Qed.

Lemma put_inode_data inum d st b : 0 <= inum < 208 -> ~ (33 <= b < 46) -> img (put_inode inum d st) b = img st b.
Proof. intros Hi Hb. apply img_upd_other. intros ->. apply Hb. by apply iblock_run. Qed.

Lemma put_inode_alloc inum d st l : 0 <= inum < 208 -> alloc_ok st l -> alloc_ok (put_inode inum d st) l.
Proof.
  intros Hi Hal. apply alloc_upd; [|by rewrite length_put_dinode; apply Hal|done].
  pose proof (al_range _ _ Hal). pose proof (proj2 (iblock_run inum Hi)). sizes. lia.
Qed.

(** ** The files of an image *)

(** The inode of a file of type [ty]. *)
Definition is_inode (ty : Z) (n : nat) (din : dinode) : Prop :=
  with_addrs [] din = mkDinode ty 0 0 1 (Z.of_nat n) [].

Definition all_owned (G : list (Z * gfile)) : list Z := G ≫= fun x => owned x.2.

(** The blocks in front of the data, apart from the inodes. *)
Definition meta (b : Z) : list Z := if b =? 1 then put_superblock mk_sb zeroes else zeroes.

Record inv (st : mkfs) (G : list (Z * gfile)) : Prop := {
  iv_alloc : alloc_ok st (all_owned G);
  iv_free : freeinode st = Z.of_nat (S (length G));
  iv_small : (length G < 200)%nat;
  iv_meta : forall b, b < nmeta -> ~ (33 <= b < 46) -> img st b = meta b;
  iv_file : forall i ty g, G !! i = Some (ty, g) ->
    (ty = T_DIR \/ ty = T_FILE) /\ sized g /\ (length (g_bytes g) <= 268 * 1024)%nat /\
    holds (img st) (dinode_at st (S i)) g /\ is_inode ty (length (g_bytes g)) (dinode_at st (S i));
  iv_unused : forall i : Z, length G < i < 208 -> dinode_at st i = zero_dinode
}.

Lemma all_owned_split G i ty g g' :
  G !! i = Some (ty, g) ->
  all_owned (<[i := (ty, g')]> G) ≡ₚ owned g' ++ all_owned (take i G ++ drop (S i) G).
Proof.
  intros H. rewrite insert_take_drop by (by eapply lookup_lt_Some). unfold all_owned.
  rewrite bind_app, bind_cons, bind_app. cbn [snd]. rewrite !app_assoc. apply Permutation_app_tail, Permutation_app_comm.
Qed.

Lemma other_owned G i j ty g :
  G !! j = Some (ty, g) -> j <> i -> forall b, b ∈ owned g -> b ∈ all_owned (take i G ++ drop (S i) G).
Proof.
  intros Hj Hne b Hb. unfold all_owned. apply list_elem_of_bind. exists (ty, g). split; [done|].
  rewrite elem_of_app. destruct (decide (j < i)%nat).
  - left. apply list_elem_of_lookup. exists j. by rewrite lookup_take_lt by done.
  - right. apply list_elem_of_lookup. exists (j - S i)%nat. rewrite lookup_drop.
    by replace (S i + (j - S i))%nat with j by lia.
Qed.

Lemma holds_u32 st l din g : alloc_ok st (owned g ++ l) -> holds (img st) din g -> Forall is_u32 (d_addrs din).
Proof.
  intros Hal Hh. apply Forall_lookup. intros k x Hx.
  assert (is_u32 0) as H0 by (unfold is_u32; lia).
  destruct (decide (k < 12)%nat) as [Hk|Hk].
  - rewrite (h_direct _ _ _ Hh) in Hx by done. injection Hx as <-.
    destruct (g_blocks g !! k) as [b|] eqn:E; [|done]. by apply (alloc_u32 _ _ _ Hal (block_owned _ _ _ _ E)).
  - apply lookup_lt_Some in Hx as Hlt. rewrite (h_len _ _ _ Hh) in Hlt. assert (k = 12%nat) as -> by lia.
    rewrite (h_slot _ _ _ Hh) in Hx. injection Hx as <-.
    destruct (decide (12 < length (g_blocks g))%nat) as [Hl|Hl].
    + by apply (alloc_u32 _ _ _ Hal (ind_owned _ _ Hl)).
    + by rewrite (h_none _ _ _ Hh) by lia.
Qed.

(** ** The operations on the list of files *)

(** Types and contents of the files, inode 1 first. *)
Definition contents (G : list (Z * gfile)) : list (Z * list Z) := (fun x => (x.1, g_bytes x.2)) <$> G.

Definition image_of (st : mkfs) (A : list (Z * list Z)) : Prop := exists G, inv st G /\ contents G = A.

(** The data blocks that the files take. *)
Definition weight (A : list (Z * list Z)) : nat := sum_list ((fun x => blocks_for (length x.2)) <$> A).

Lemma weight_owned G :
  (forall i ty g, G !! i = Some (ty, g) -> sized g) -> length (all_owned G) = weight (contents G).
Proof.
  unfold all_owned, weight, contents. induction G as [|[ty g] G IH]; intros H; [done|].
  rewrite bind_cons, length_app, IH by (intros i; exact (H (S i))). cbn.
  by rewrite (sized_owned g (H 0%nat ty g eq_refl)).
Qed.

Lemma weight_app A B : weight (A ++ B) = (weight A + weight B)%nat.
Proof. unfold weight. induction A as [|x A IH]; [done|]. cbn in *. lia. Qed.

Lemma weight_cons x A : weight (x :: A) = (blocks_for (length x.2) + weight A)%nat.
Proof. done. Qed.

Lemma weight_insert A i x : (i < length A)%nat -> weight (<[i := x]> A) = (blocks_for (length x.2) + weight (take i A ++ drop (S i) A))%nat.
Proof. intros H. rewrite insert_take_drop, !weight_app by done. unfold weight. cbn. lia. Qed.

Lemma dinode_parts din ty n :
  is_inode ty n din -> d_type din = ty /\ d_major din = 0 /\ d_minor din = 0 /\ d_nlink din = 1 /\ d_size din = Z.of_nat n.
Proof. unfold is_inode, with_addrs. by intros [= -> -> -> -> ->]. Qed.

Lemma inode_ok ty n din :
  ty = T_DIR \/ ty = T_FILE -> is_u32 (Z.of_nat n) -> is_inode ty n din ->
  length (d_addrs din) = 13%nat -> Forall is_u32 (d_addrs din) -> dinode_ok din.
Proof.
  intros Hty Hn (E1 & E2 & E3 & E4 & E5)%dinode_parts Hl Hu. split; rewrite ?E1, ?E2, ?E3, ?E4, ?E5; try done.
  by destruct Hty as [-> | ->].
Qed.

Lemma set_size_inode ty n n' din din' :
  is_inode ty n din -> with_addrs [] din' = with_addrs [] din -> is_inode ty n' (set_size (Z.of_nat n') din').
Proof.
  unfold is_inode, with_addrs, set_size. intros [= E1 E2 E3 E4 _] [= F1 F2 F3 F4 _]. cbn. congruence.
Qed.

(** What [put_inode] of file [i] makes of an invariant that held but for that file. *)
Lemma inv_put st0 st G i ty g0 g din :
  inv st0 G -> G !! i = Some (ty, g0) -> alloc_ok st (owned g ++ all_owned (take i G ++ drop (S i) G)) ->
  freeinode st = freeinode st0 -> (forall b, b ∈ all_owned (take i G ++ drop (S i) G) \/ b < nmeta -> img st b = img st0 b) ->
  sized g -> (length (g_bytes g) <= 268 * 1024)%nat -> holds (img st) din g -> is_inode ty (length (g_bytes g)) din ->
  inv (put_inode (S i) din st) (<[i := (ty, g)]> G).
Proof.
  intros [V1 V2 V3 V4 V5 V6] Hi Hal Hfi Hfr Hsz Hmax Hh Hin. pose proof (lookup_lt_Some _ _ _ Hi) as Hlt.
  assert (Hr : 0 <= S i < 208) by lia. pose proof (h_len _ _ _ Hh) as Hlen.
  destruct (V5 i ty g0 Hi) as (Hty & _).
  assert (Hblk : forall j, 0 <= j < 208 -> img st (iblock j) = img st0 (iblock j)).
  { intros j Hj. apply Hfr. right. destruct (iblock_run j Hj). sizes. lia. }
  assert (Hheld : forall din' g', (forall b, b ∈ owned g' -> nmeta <= b) -> holds (img st) din' g' ->
    holds (img (put_inode (S i) din st)) din' g').
  { intros din' g' Hb. apply holds_ext. intros b Hin'. apply put_inode_data; [done|]. specialize (Hb b Hin'). sizes. lia. }
  split; rewrite ?length_insert; try done.
  - apply put_inode_alloc; [done|]. revert Hal. apply alloc_perm. symmetry. by eapply all_owned_split.
  - cbn. by rewrite Hfi.
  - intros b Hb Hnb. rewrite put_inode_data, Hfr by auto. by apply V4.
  - intros j ty' g' Hj. destruct (decide (j = i)) as [->|Hne].
    + rewrite list_lookup_insert_eq in Hj by done. injection Hj as <- <-.
      rewrite put_inode_same; [|apply Hal|].
      2:{ eapply inode_ok; [exact Hty| |exact Hin|done|by eapply holds_u32]. unfold is_u32. lia. }
      split_and!; try done. apply Hheld; [|done]. intros b Hb. eapply alloc_elem; [apply Hal|]. apply elem_of_app. by left.
    + rewrite list_lookup_insert_ne in Hj by done. destruct (V5 j ty' g' Hj) as (H1 & H2 & H3 & H4 & H5).
      apply lookup_lt_Some in Hj as Hlj. rewrite put_inode_other by lia.
      assert (dinode_at st (S j) = dinode_at st0 (S j)) as -> by (unfold dinode_at; by rewrite Hblk by lia).
      pose proof (other_owned _ _ _ _ _ Hj Hne) as Hoth. split_and!; try done. apply Hheld.
      { intros b Hb. eapply alloc_elem; [apply Hal|]. apply elem_of_app. right. by apply Hoth. }
      revert H4. apply holds_ext. intros b Hb. apply Hfr. left. by apply Hoth.
  - intros j Hj. rewrite put_inode_other by lia. unfold dinode_at. rewrite Hblk by lia. by apply V6.
Qed.

Lemma iappend_run st A i ty c p :
  image_of st A -> A !! i = Some (ty, c) -> (length c + length p <= 268 * 1024)%nat ->
  nmeta + weight (<[i := (ty, c ++ p)]> A) <= FSSIZE ->
  exists st', iappend (S i) p st = M_ok tt st' /\ image_of st' (<[i := (ty, c ++ p)]> A).
Proof.
  intros (G & Hinv & <-) Hi Hmax Hroom. unfold contents in Hi.
  apply list_lookup_fmap_Some in Hi as ([ty' g] & Hx & Hi).
  cbn in Hx. injection Hx as -> ->.
  pose proof (lookup_lt_Some _ _ _ Hi) as Hlt. pose proof Hinv as [V1 V2 V3 V4 V5 V6].
  destruct (V5 i ty' g Hi) as (Hty & Hsz & _ & Hh & Hin). set (rest := all_owned (take i G ++ drop (S i) G)).
  assert (Hal : alloc_ok st (owned g ++ rest)).
  { revert V1. apply alloc_perm. rewrite <- (list_insert_id G i (ty', g) Hi) at 1. by eapply all_owned_split. }
  assert (Hw : length rest = weight (contents (take i G ++ drop (S i) G))).
  { apply weight_owned. intros j ty2 g2 Hj. apply list_elem_of_lookup_2, elem_of_app in Hj.
    assert ((ty2, g2) ∈ G) as (j' & Hj')%list_elem_of_lookup.
    { destruct Hj as [Hj|Hj]; [by eapply elem_of_take in Hj as (? & ? & _); apply list_elem_of_lookup_2 in H|].
      rewrite <- (take_drop (S i) G). apply elem_of_app. by right. }
    by eapply V5. }
  destruct (iappend_loop_run (length p) p st (dinode_at st (S i)) g rest Hal Hh Hsz) as (st1 & din1 & g1 & E & Hap); [done|done| |].
  { rewrite weight_insert in Hroom by (unfold contents; by rewrite length_fmap). cbn [snd] in Hroom.
    rewrite length_app in Hroom. unfold contents in Hw, Hroom. rewrite fmap_app, fmap_take, fmap_drop in Hw. lia. }
  destruct (dinode_parts _ _ _ Hin) as (_ & _ & _ & _ & Hsize). pose proof Hap as [A1 A2 A3 A4 A5 A6 A7].
  assert (Hl1 : length (g_bytes g1) = (length (g_bytes g) + length p)%nat) by by rewrite A1, length_app.
  exists (put_inode (S i) (set_size (length (g_bytes g1)) din1) st1). split.
  - unfold iappend. rewrite (mbind_ok _ _ _ _ _ (rinode_run (S i) st (al_len _ _ V1) ltac:(lia))), Hsize.
    rewrite xint_id by (unfold is_u32; lia). rewrite (mbind_ok _ _ _ _ _ E). cbn [fst snd].
    rewrite xint_id by (unfold is_u32; lia). rewrite winode_run by (apply A3 || lia). by rewrite Hl1.
  - exists (<[i := (ty', g1)]> G). split; [|by rewrite <- A1; unfold contents; rewrite list_fmap_insert].
    apply (inv_put st st1 G i ty' g g1); try done; [lia| |].
    + by apply holds_set_size.
    + eapply set_size_inode; [exact Hin|done].
Qed.

Lemma ialloc_run st A ty :
  image_of st A -> ty = T_DIR \/ ty = T_FILE -> (length A < 199)%nat ->
  exists st', ialloc ty st = M_ok (Z.of_nat (S (length A))) st' /\ image_of st' (A ++ [(ty, [])]).
Proof.
  intros (G & Hinv & <-) Hty Hlt. unfold contents in *. rewrite length_fmap in *. pose proof Hinv as [V1 V2 V3 V4 V5 V6].
  set (n := S (length G)). set (din := mkDinode ty 0 0 1 0 (replicate 13 0)). set (g := mkGfile [] 0 []).
  assert (Hok : dinode_ok din). { split; try done; [by destruct Hty as [-> | ->]|]. repeat constructor; done. }
  set (st1 := mkMkfs (img st) (img_len st) (freeinode st + 1) (freeblock st)).
  assert (Hal : alloc_ok st1 (all_owned G)) by (destruct V1; by split).
  exists (put_inode n din st1). split.
  - unfold ialloc, next_inode. unfold mbind, M_bind at 1. rewrite V2, u32_small by (unfold is_u32; lia).
    replace (mkDinode (xshort ty) 0 0 (xshort 1) (xint 0) (replicate 13 0)) with din by by destruct Hty as [-> | ->].
    fold n. unfold M_bind. rewrite winode_run by (try apply V1; lia). cbn. unfold st1. by rewrite V2.
  - assert (Hdata : forall b, ~ (33 <= b < 46) -> img (put_inode n din st1) b = img st b).
    { intros b Hb. rewrite put_inode_data by (done || lia). done. }
    exists (G ++ [(ty, g)]). split; [|by unfold contents; rewrite fmap_app]. split; rewrite ?length_app; cbn [length].
    + apply put_inode_alloc; [lia|]. revert Hal. apply alloc_perm. unfold all_owned. rewrite bind_app. cbn. by rewrite app_nil_r.
    + cbn. rewrite V2. lia.
    + lia.
    + intros b Hb Hnb. rewrite Hdata by done. by apply V4.
    + intros j ty' g' [Hj|[Hj Hx]]%lookup_app_Some.
      * destruct (V5 j ty' g' Hj) as (H1 & H2 & H3 & H4 & H5). apply lookup_lt_Some in Hj as Hlj.
        rewrite put_inode_other by (done || lia). split_and!; try done. revert H4. apply holds_ext. intros b Hb.
        apply Hdata. enough (nmeta <= b) by (sizes; lia). eapply alloc_elem; [exact V1|]. apply list_elem_of_bind. exists (ty', g').
        split; [done|]. by apply list_elem_of_lookup_2 in Hj.
      * apply list_lookup_singleton_Some in Hx as [Hj0 Hx]. injection Hx as <- <-. replace (Z.of_nat (S j)) with (Z.of_nat n) by lia.
        rewrite put_inode_same by (try done; apply V1). split; [done|]. split; [done|].
        split; [unfold g; cbn [g_bytes length]; lia|]. split; [|done]. split; unfold g, din; cbn [g_blocks g_ind d_addrs length]; try done; try lia. intros k Hk. by do 12 (destruct k as [|k]; [done|]); lia.
    + intros j Hj. rewrite put_inode_other by (done || lia). apply V6. lia.
Qed.

(** ** The program *)

Lemma blocks_for_mono n n' : (n <= n')%nat -> (blocks_for n <= blocks_for n')%nat.
Proof. intros H. apply need_mono. apply Nat.Div0.div_le_mono. lia. Qed.

Lemma append_all_run st A i ty c cs :
  image_of st A -> A !! i = Some (ty, c) -> (length c + length (concat cs) <= 268 * 1024)%nat ->
  nmeta + weight (<[i := (ty, c ++ concat cs)]> A) <= FSSIZE ->
  exists st', append_all (S i) cs st = M_ok tt st' /\ image_of st' (<[i := (ty, c ++ concat cs)]> A).
Proof.
  revert st A c. induction cs as [|p cs IH]; intros st A c Him Hi Hmax Hroom; cbn [append_all concat] in *.
  { exists st. rewrite app_nil_r in *. by rewrite list_insert_id. }
  pose proof (lookup_lt_Some _ _ _ Hi) as Hlt. rewrite length_app in Hmax. rewrite weight_insert in Hroom by done.
  cbn [snd] in Hroom. rewrite !length_app in Hroom.
  destruct (iappend_run st A i ty c p Him Hi) as (st1 & E & Him1); [lia| |].
  { rewrite weight_insert by done. cbn [snd]. rewrite length_app.
    pose proof (blocks_for_mono (length c + length p) (length c + (length p + length (concat cs))) ltac:(lia)). lia. }
  destruct (IH st1 (<[i := (ty, c ++ p)]> A) (c ++ p)) as (st2 & E2 & Him2); [done|..].
  - by rewrite list_lookup_insert_eq.
  - rewrite length_app. lia.
  - rewrite list_insert_insert_eq, weight_insert by done. cbn [snd]. rewrite !length_app.
    by replace (length c + length p + length (concat cs))%nat with (length c + (length p + length (concat cs)))%nat by lia.
  - exists st2. rewrite (mbind_ok _ _ _ _ _ E). split; [done|].
    by rewrite list_insert_insert_eq, <- app_assoc in Him2.
Qed.

(** The directory entry for inode [inum]. *)
Definition entry (inum : nat) (name : list Z) : list Z := put_dirent (mkDirent (Z.of_nat inum) (strncpy_name name)).

Lemma length_entry inum name : length (entry inum name) = 16%nat.
Proof. apply length_put_dirent. Qed.

Lemma xshort_id x : 0 <= x < 2^16 -> xshort x = x.
Proof.
  intros H. unfold xshort, u8. cbn [get_le lookup list_lookup default from_option id].
  rewrite !Z.shiftr_div_pow2 by lia. unfold id. Z.div_mod_to_equations. lia.
Qed.

(** A file that [mkfs] can take: its name has no slash and fits a directory entry. *)
Definition good_input (x : list Z * list (list Z)) : Prop :=
  (47 ∉ shortname x.1) /\ (length (target_name x.1) <= 14)%nat /\ (length (concat x.2) <= 268 * 1024)%nat.

Definition as_input (x : list Z * list (list Z)) : input := (x.1, Some x.2).
Definition as_file (x : list Z * list (list Z)) : Z * list Z := (T_FILE, concat x.2).

Lemma add_file_run st r F x :
  image_of st ((T_DIR, r) :: F) -> good_input x -> (length F < 198)%nat -> (length r + 16 <= 268 * 1024)%nat ->
  let A' := (T_DIR, r ++ entry (2 + length F) (target_name x.1)) :: F ++ [as_file x] in
  nmeta + weight A' <= FSSIZE ->
  exists st', add_file 1 (as_input x) st = M_ok tt st' /\ image_of st' A'.
Proof.
  intros Him (Hslash & Hname & Hmax) HF Hr A' Hroom. unfold add_file, as_input. cbn [fst snd].
  assert (existsb (Z.eqb 47) (shortname x.1) = false) as ->.
  { apply not_true_iff_false. intros (c & Hc & <-%Z.eqb_eq)%existsb_exists. by apply Hslash, list_elem_of_In. }
  cbn [negb massert]. rewrite (mbind_ok _ _ _ tt st) by done.
  rewrite (mbind_ok _ _ _ tt st); [|unfold massert; change DIRSIZ with 14; by destruct (Z.leb_spec (length (target_name x.1)) 14); [|lia]].
  destruct (ialloc_run st _ T_FILE Him) as (st1 & E1 & Him1); [by right|cbn; lia|]. cbn [length app] in E1, Him1.
  rewrite (mbind_ok _ _ _ _ _ E1). cbn [length]. rewrite xshort_id by lia.
  set (d := entry (2 + length F) (target_name x.1)) in *. change (put_dirent _) with d.
  assert (Hw : weight A' = (blocks_for (length (r ++ d)) + weight F + blocks_for (length (concat x.2)))%nat).
  { unfold A'. rewrite weight_cons, weight_app, weight_cons. change (weight []) with 0%nat. cbn [snd as_file]. lia. }
  destruct (iappend_run st1 _ 0 T_DIR r d Him1) as (st2 & E2 & Him2); [done|unfold d; rewrite length_entry; lia| |].
  { cbn [insert list_insert]. rewrite weight_cons, weight_app. change (weight [(T_FILE, [])]) with 0%nat. cbn [snd]. lia. }
  change (Z.of_nat 1) with 1 in E2. rewrite (mbind_ok _ _ _ _ _ E2). cbn [insert list_insert] in Him2.
  assert (Hins : forall y z, <[S (length F) := y]> ((T_DIR, r ++ d) :: F ++ [z]) = (T_DIR, r ++ d) :: F ++ [y]).
  { intros y z. change (<[S (length F) := y]> ((T_DIR, r ++ d) :: F ++ [z])) with ((T_DIR, r ++ d) :: <[length F := y]> (F ++ [z])).
    f_equal. by rewrite insert_app_r_alt, Nat.sub_diag by lia. }
  destruct (append_all_run st2 _ (S (length F)) T_FILE [] x.2 Him2) as (st3 & E3 & Him3).
  - by apply (list_lookup_middle ((T_DIR, r ++ d) :: F) []).
  - cbn [length]. lia.
  - by rewrite Hins.
  - exists st3. split; [done|]. by rewrite Hins in Him3.
Qed.

(** The entries of the files, from inode [n] on. *)
Fixpoint entries (n : nat) (fs : list (list Z * list (list Z))) : list Z :=
  match fs with
  | [] => []
  | x :: fs' => entry n (target_name x.1) ++ entries (S n) fs'
  end.

Lemma length_entries n fs : length (entries n fs) = (16 * length fs)%nat.
Proof.
  revert n. induction fs as [|x fs IH]; intros n; [done|]. cbn [entries length].
  rewrite length_app, length_entry, IH. lia.
Qed.

Lemma add_files_run fs st r F :
  image_of st ((T_DIR, r) :: F) -> Forall good_input fs -> (length F + length fs < 199)%nat ->
  (length r + 16 * length fs <= 268 * 1024)%nat ->
  let A' := (T_DIR, r ++ entries (2 + length F) fs) :: F ++ (as_file <$> fs) in
  nmeta + weight A' <= FSSIZE ->
  exists st', add_files 1 (as_input <$> fs) st = M_ok tt st' /\ image_of st' A'.
Proof.
  cbn zeta. intros Him Hfs. revert st r F Him. induction Hfs as [|x fs Hx Hfs IH]; intros st r F Him HF Hr Hroom.
  { exists st. split; [done|]. cbn [entries fmap list_fmap]. by rewrite !app_nil_r. }
  cbn [length] in *. cbn [entries] in *. rewrite !fmap_cons. rewrite fmap_cons in Hroom. cbn [add_files].
  rewrite weight_cons, weight_app, weight_cons in Hroom. cbn [snd] in Hroom. rewrite !length_app, length_entry in Hroom.
  destruct (add_file_run st r F x Him Hx) as (st1 & E & Him1); [lia|lia| |].
  { rewrite weight_cons, weight_app, weight_cons. change (weight []) with 0%nat. cbn [snd]. rewrite length_app, length_entry.
    pose proof (blocks_for_mono (length r + 16) (length r + (16 + length (entries (3 + length F) fs))) ltac:(lia)).
    cbn [Nat.add] in *. lia. }
  rewrite (mbind_ok _ _ _ _ _ E).
  destruct (IH st1 _ _ Him1) as (st2 & E2 & Him2); [rewrite length_app; cbn; lia|rewrite length_app, length_entry; lia| |].
  - rewrite weight_cons, !weight_app, weight_cons. change (weight []) with 0%nat. cbn [snd].
    rewrite !length_app, length_entry. cbn [length]. replace (2 + (length F + 1))%nat with (S (2 + length F)) by lia.
    rewrite <- Nat.add_assoc. lia.
  - exists st2. split; [done|]. rewrite length_app, <- !app_assoc in Him2. cbn [length app] in Him2.
    by replace (2 + (length F + 1))%nat with (S (2 + length F)) in Him2 by lia.
Qed.

Lemma write_zeroes_run n m st :
  (forall b, img st b = zeroes) -> img_len st = m -> 0 <= m -> m + Z.of_nat n <= FSSIZE ->
  exists st', write_zeroes (seqZ m n) st = M_ok tt st' /\ (forall b, img st' b = zeroes) /\
    img_len st' = m + n /\ freeinode st' = freeinode st /\ freeblock st' = freeblock st.
Proof.
  revert m st. induction n as [|n IH]; intros m st Hz Hl H0 Hm.
  { exists st. rewrite seqZ_nil by lia. split_and!; try done. lia. }
  rewrite seqZ_cons by lia. cbn [write_zeroes]. unfold wsect, mbind, M_bind at 1. rewrite sector_id by (sizes; lia).
  replace (Z.pred (S n)) with (Z.of_nat n) by lia. fold (M_bind unit unit). rewrite Hl, Z.max_r by lia.
  destruct (IH (Z.succ m) (mkMkfs (fun b => if b =? m then zeroes else img st b) (m + 1) (freeinode st) (freeblock st)))
    as (st' & E & Hz' & Hl' & Hi & Hb); cbn [img img_len freeinode freeblock] in *; try lia.
  { intros b. by destruct (b =? m). }
  exists st'. split; [by rewrite Z.add_1_r|]. split_and!; try done. lia.
Qed.

Lemma zeroes_dinode o : get_dinode zeroes o = zero_dinode.
Proof.
  assert (forall j, default 0 (zeroes !! j) = 0) as E.
  { intros j. unfold zeroes. destruct (replicate _ _ !! j) as [x|] eqn:Ex; [|done]. by apply lookup_replicate in Ex as [-> _]. }
  unfold get_dinode, get32. cbn [get_le]. rewrite !E. unfold zero_dinode. f_equal.
  transitivity ((fun _ : nat => 0) <$> seq 0 13); [|done]. apply list_fmap_ext. intros. by rewrite !E.
Qed.

Lemma start_image st :
  (forall b, img st b = zeroes) -> img_len st = FSSIZE -> freeinode st = 1 -> freeblock st = nmeta ->
  image_of (upd 1 (put_superblock mk_sb zeroes) st) [].
Proof.
  intros Hz Hl Hi Hb. exists []. split; [|done]. split; try done.
  - split; cbn [upd img img_len freeblock]; rewrite ?Hb, ?Hl; try done.
    + intros b. destruct (b =? 1); [|by rewrite Hz]. unfold put_superblock, put32. by rewrite !length_put_le.
    + intros b Hb'. rewrite (proj2 (Z.eqb_neq _ _)) by (sizes; lia). auto.
  - cbn [length]. lia.
  - intros b _ _. cbn. unfold meta. by rewrite Hz.
  - intros i Hi'. unfold dinode_at. destruct (iblock_run i) as [_ Hib]; [cbn in Hi'; lia|].
    rewrite img_upd_other by lia. rewrite Hz. apply zeroes_dinode.
Qed.

(** ** The bitmap *)

Definition used_map (used : Z) : list Z := foldl (fun d i => set_bit i d) zeroes (seqZ 0 used).

Lemma used_map_run (n : nat) b :
  Z.of_nat n <= BPB -> 0 <= b < BPB ->
  length (used_map n) = 1024%nat /\ bit_free (used_map n) b = (Z.of_nat n <=? b).
Proof.
  intros Hn Hb. change BPB with 8192 in *. unfold used_map. induction n as [|n IH].
  - split; [done|]. cbn [foldl seqZ]. rewrite seqZ_nil by lia. cbn [foldl].
    change (Z.of_nat 0) with 0. destruct (Z.leb_spec 0 b); [|lia]. unfold bit_free, bit_byte.
    assert (default 0 (zeroes !! Z.to_nat (b / 8)) = 0) as ->.
    { unfold zeroes. destruct (replicate _ _ !! _) as [x|] eqn:E; [|done]. by apply lookup_replicate in E as [-> _]. }
    by rewrite Z.land_0_l.
  - destruct IH as [Hl Hf]; [lia|]. rewrite Nat2Z.inj_succ, <- Z.add_1_r, seqZ_app, foldl_app by lia.
    change (seqZ (0 + n) 1) with [Z.of_nat n]. cbn [foldl]. rewrite length_set_bit. split; [done|].
    rewrite bit_free_set, Hf by (rewrite ?Hl; Z.div_mod_to_equations; lia).
    destruct (Z.eqb_spec b n), (Z.leb_spec n b), (Z.leb_spec (n + 1) b); cbn; lia || done.
Qed.

(** ** The whole program *)

Definition root_entries (fs : list (list Z * list (list Z))) : list Z :=
  entry 1 (str ".") ++ entry 1 (str "..") ++ entries 2 fs.

Lemma length_root_entries fs : length (root_entries fs) = (16 * (2 + length fs))%nat.
Proof. unfold root_entries. rewrite !length_app, !length_entry, length_entries. lia. Qed.

(** The files fit the disk, and there are inodes for them. *)
Definition fits (fs : list (list Z * list (list Z))) : Prop :=
  Forall good_input fs /\ (length fs < 199)%nat /\
  nmeta + weight ((T_DIR, root_entries fs) :: (as_file <$> fs)) <= FSSIZE.

(** [main] up to the files. *)
Lemma main_files fs :
  fits fs ->
  exists st1, image_of st1 ((T_DIR, root_entries fs) :: (as_file <$> fs)) /\
    main (as_input <$> fs) start =
      (din ← rinode ROOTINO;
       let off := xint (d_size din) in
       winode ROOTINO (set_size (xint ((off / BSIZE + 1) * BSIZE)) din) ;;
       used ← get_freeblock;
       balloc used) st1.
Proof.
  intros (Hgood & Hn & Hroom). unfold main.
  destruct (write_zeroes_run (Z.to_nat FSSIZE) 0 start) as (sa & Ea & Hz & Hl & Hi & Hb); [done|done|lia|done|].
  rewrite (mbind_ok _ _ _ _ _ Ea). rewrite (mbind_ok _ _ _ _ _ (wsect_run 1 _ sa Hl ltac:(sizes; lia))).
  pose proof (start_image sa Hz Hl Hi Hb) as H0.
  destruct (ialloc_run _ [] T_DIR H0) as (sb & Eb & Hsb); [by left|cbn; lia|].
  rewrite (mbind_ok _ _ _ _ _ Eb). change (Z.of_nat (S (length []))) with 1. change (xshort 1) with (Z.of_nat 1).
  rewrite (mbind_ok _ _ _ tt sb) by done. change (put_dirent (mkDirent 1%nat (strncpy_name ?x))) with (entry 1 x).
  unfold root_entries in *. set (dot := entry 1 (str ".")) in *. set (dots := entry 1 (str "..")) in *.
  assert (Hd : length dot = 16%nat /\ length dots = 16%nat) by (split; apply length_entry). destruct Hd as [Hd1 Hd2].
  assert (Hsmall : forall n : nat, (n <= 32)%nat -> nmeta + Z.of_nat (blocks_for n + 0) <= FSSIZE).
  { intros n Hle. pose proof (blocks_for_mono n 32 Hle). change (blocks_for 32) with 1%nat in *. sizes. lia. }
  destruct (iappend_run sb _ 0 T_DIR [] dot Hsb) as (sc & Ec & Hsc); [done|rewrite Hd1; cbn [length]; lia| |].
  { apply (Hsmall (length ([] ++ dot))). cbn [app]. lia. }
  change (put_dirent _) with dot. change (Z.of_nat 1) with 1 in *. rewrite (mbind_ok _ _ _ _ _ Ec).
  destruct (iappend_run sc _ 0 T_DIR dot dots Hsc) as (sd & Ed & Hsd); [done|rewrite Hd1, Hd2; lia| |].
  { apply (Hsmall (length (dot ++ dots))). rewrite length_app. lia. }
  change (put_dirent _) with dots. change (Z.of_nat 1) with 1 in *. rewrite (mbind_ok _ _ _ _ _ Ed).
  destruct (add_files_run fs sd (dot ++ dots) [] Hsd Hgood) as (se & Ee & Hse); [cbn [length]; lia|rewrite length_app; lia| |].
  { cbn [length Nat.add app]. rewrite <- app_assoc. exact Hroom. }
  exists se. cbn [length Nat.add app] in Hse. rewrite <- app_assoc in Hse. split; [exact Hse|].
  rewrite (mbind_ok _ _ _ _ _ Ee). done.
Qed.

Definition rounded (n : nat) : nat := ((n / 1024 + 1) * 1024)%nat.

(** The finished image. *)
Record built (st : mkfs) (G : list (Z * gfile)) : Prop := {
  bt_owned : all_owned G ≡ₚ seqZ nmeta (freeblock st - nmeta);
  bt_range : nmeta <= freeblock st <= FSSIZE;
  bt_map : img st 46 = used_map (freeblock st);
  bt_meta : forall b, b < 33 -> img st b = meta b;
  bt_file : forall i ty g, G !! i = Some (ty, g) ->
    sized g /\ holds (img st) (dinode_at st (S i)) g /\
    is_inode ty (if decide (i = 0%nat) then rounded (length (g_bytes g)) else length (g_bytes g)) (dinode_at st (S i));
  bt_unused : forall i : Z, length G < i < 208 -> d_type (dinode_at st i) = 0
}.

Lemma inv_built st G root rootg d :
  inv st G -> G !! 0%nat = Some (root, rootg) -> d = set_size (rounded (length (g_bytes rootg))) (dinode_at st 1) ->
  built (upd 46 (used_map (freeblock st)) (put_inode 1 d st)) G.
Proof.
  intros [V1 V2 V3 V4 V5 V6] H0 Hd. set (st' := upd _ _ _).
  destruct (V5 _ _ _ H0) as (Hty & Hsz & Hmax & Hh & Hin). change (Z.of_nat 1) with 1 in *.
  assert (Hlen : length (d_addrs d) = 13%nat) by (rewrite Hd; apply Hh).
  assert (Hin' : is_inode root (rounded (length (g_bytes rootg))) d) by (rewrite Hd; by eapply set_size_inode).
  assert (Hok : dinode_ok d).
  { eapply (inode_ok root (rounded (length (g_bytes rootg)))); try done.
    - unfold is_u32, rounded. pose proof (Nat.Div0.div_le_upper_bound (length (g_bytes rootg)) 1024 268). lia.
    - rewrite Hd. eapply (holds_u32 st (all_owned (drop 1 G))); [|by apply holds_set_size]. revert V1. apply alloc_perm.
      destruct G as [|x G]; [done|]. cbn in H0. injection H0 as ->. done. }
  assert (Hdat : forall i : Z, 0 <= i < 208 -> dinode_at st' i = dinode_at (put_inode 1 d st) i).
  { intros i Hi. unfold dinode_at, st'. rewrite img_upd_other; [done|]. destruct (iblock_run i Hi). lia. }
  split; [apply V1|apply V1|apply img_upd_same|..].
  - intros b Hb. unfold st'. rewrite img_upd_other, put_inode_data by lia. apply V4; sizes; lia.
  - intros i ty g Hi. destruct (V5 _ _ _ Hi) as (_ & H2 & _ & H4 & H5). apply lookup_lt_Some in Hi as Hlt.
    split; [done|]. rewrite Hdat by lia.
    assert (Hext : forall din, holds (img st) din g -> holds (img st') din g).
    { intros din. apply holds_ext. intros b Hb. assert (nmeta <= b).
      { eapply alloc_elem; [exact V1|]. apply list_elem_of_bind. exists (ty, g). split; [done|]. by apply list_elem_of_lookup_2 in Hi. }
      unfold st'. rewrite img_upd_other, put_inode_data by (sizes; lia). done. }
    case_decide as Hi0.
    + subst i. rewrite H0 in Hi. injection Hi as -> ->. change (Z.of_nat 1) with 1.
      rewrite put_inode_same by (try done; apply V1). split; [|done]. apply Hext. rewrite Hd. by apply holds_set_size.
    + rewrite put_inode_other by (done || lia). auto.
  - intros i Hi. apply lookup_lt_Some in H0. rewrite Hdat, put_inode_other, V6 by (done || lia). done.
Qed.

Lemma main_built fs :
  fits fs ->
  exists st G, main (as_input <$> fs) start = M_ok tt st /\ built st G /\
    contents G = (T_DIR, root_entries fs) :: (as_file <$> fs).
Proof.
  intros Hfits. destruct (main_files fs Hfits) as (st1 & (G & Hinv & Hc) & ->).
  destruct G as [|[root rootg] G]; [done|]. unfold contents in Hc. rewrite fmap_cons in Hc. cbn [fst snd] in Hc.
  injection Hc as -> Hb HG. pose proof Hinv as [V1 V2 V3 V4 V5 V6].
  destruct (V5 0%nat T_DIR rootg eq_refl) as (_ & _ & Hmax & _ & Hin). change (Z.of_nat 1) with 1 in *.
  destruct (dinode_parts _ _ _ Hin) as (_ & _ & _ & _ & Hsz). pose proof (al_range _ _ V1) as Hr.
  assert (Hdiv : (length (g_bytes rootg) / 1024 <= 268)%nat) by (apply Nat.Div0.div_le_upper_bound; lia).
  eexists _, ((T_DIR, rootg) :: G). split; [|split; [by eapply inv_built|unfold contents; rewrite fmap_cons; cbn; by rewrite Hb, HG]].
  rewrite (mbind_ok _ _ _ _ _ (rinode_run 1 st1 (al_len _ _ V1) ltac:(lia))). cbn zeta. rewrite Hsz.
  rewrite (xint_id (Z.of_nat _)) by (unfold is_u32; lia). change BSIZE with 1024.
  replace ((length (g_bytes rootg) / 1024 + 1) * 1024) with (Z.of_nat (rounded (length (g_bytes rootg))))
    by (unfold rounded; rewrite Nat2Z.inj_mul, Nat2Z.inj_add, Nat2Z.inj_div; lia).
  rewrite xint_id by (unfold is_u32, rounded; lia).
  rewrite (mbind_ok _ _ _ _ _ (winode_run 1 _ st1 (al_len _ _ V1) ltac:(lia))).
  unfold get_freeblock, mbind, M_bind. cbn [put_inode upd freeblock]. unfold balloc, mbind, M_bind, massert.
  change BPB with 8192. destruct (Z.ltb_spec (freeblock st1) 8192); [|sizes; lia].
  rewrite wsect_run by (try apply V1; done). done.
Qed.

(** ** Reading the image *)

(** The number of data block [k] of an inode, as the kernel's [bmap] finds it. *)
Definition block_no (im : Z -> list Z) (d : dinode) (k : nat) : Z :=
  if decide (k < 12)%nat then default 0 (d_addrs d !! k)
  else get32 (im (default 0 (d_addrs d !! 12%nat))) (4 * (k - 12)).

(** The blocks of an inode with [n] data blocks, with the indirect block. *)
Definition inode_blocks (im : Z -> list Z) (d : dinode) (n : nat) : list Z :=
  (block_no im d <$> seq 0 n) ++ (if decide (12 < n)%nat then [default 0 (d_addrs d !! 12%nat)] else []).

(** The bytes of an inode's first [n] data blocks. *)
Definition inode_data (im : Z -> list Z) (d : dinode) (n : nat) : list Z :=
  concat ((fun k => im (block_no im d k)) <$> seq 0 n).

Lemma holds_block im d g k b : holds im d g -> g_blocks g !! k = Some b -> block_no im d k = b.
Proof.
  intros Hh Hb. pose proof (lookup_lt_Some _ _ _ Hb). pose proof (h_nblocks _ _ _ Hh). unfold block_no. case_decide.
  - by rewrite (h_direct _ _ _ Hh), Hb.
  - rewrite (h_slot _ _ _ Hh). cbn [default from_option id]. rewrite (h_ind _ _ _ Hh) by lia.
    replace (12 + (k - 12))%nat with k by lia. by rewrite Hb.
Qed.

Lemma seq_fmap_lookup {A} (l : list A) (f : nat -> A) : (forall k x, l !! k = Some x -> f k = x) -> f <$> seq 0 (length l) = l.
Proof.
  intros H. apply list_eq. intros k. rewrite list_lookup_fmap. destruct (l !! k) as [x|] eqn:E.
  - rewrite lookup_seq_lt by (by eapply lookup_lt_Some). cbn. f_equal. by apply H.
  - by rewrite lookup_seq_ge by (by apply lookup_ge_None).
Qed.

Lemma holds_blocks im d g : holds im d g -> inode_blocks im d (length (g_blocks g)) = owned g.
Proof.
  intros Hh. unfold inode_blocks, owned. f_equal; [|by rewrite (h_slot _ _ _ Hh)].
  apply seq_fmap_lookup. intros k b. by apply holds_block.
Qed.

Lemma pieces_concat n bytes :
  (length bytes <= 1024 * n)%nat -> concat (piece bytes <$> seq 0 n) = bytes ++ replicate (1024 * n - length bytes) 0.
Proof.
  revert bytes. induction n as [|n IH]; intros bytes H.
  { destruct bytes; [done|cbn in H; lia]. }
  cbn [seq]. rewrite fmap_cons. cbn [concat].
  assert (piece bytes <$> seq 1 n = piece (drop 1024 bytes) <$> seq 0 n) as ->.
  { rewrite <- (fmap_S_seq 0 n), <- list_fmap_compose. apply list_fmap_ext. intros i k _. unfold piece. cbn [compose].
    rewrite drop_drop. do 3 f_equal. lia. }
  rewrite IH by (rewrite length_drop; lia). unfold piece, pad. rewrite Nat.mul_0_r, drop_0, length_take, length_drop.
  destruct (decide (1024 <= length bytes)%nat) as [Hl|Hl].
  - rewrite Nat.min_l, Nat.sub_diag by lia. cbn [replicate]. rewrite app_nil_r, app_assoc, take_drop.
    do 2 f_equal. lia.
  - rewrite take_ge, drop_ge by lia. cbn [app]. rewrite <- app_assoc, <- replicate_add. do 2 f_equal. lia.
Qed.

Lemma holds_read im d g :
  holds im d g -> sized g ->
  let n := length (g_blocks g) in
  inode_data im d n = g_bytes g ++ replicate (1024 * n - length (g_bytes g)) 0.
Proof.
  intros Hh Hs n. unfold inode_data. rewrite <- pieces_concat by (unfold n; rewrite Hs; apply ceil_bounds).
  f_equal. apply list_fmap_ext. intros i k [-> Hk]%lookup_seq. cbn [Nat.add].
  destruct (lookup_lt_is_Some_2 (g_blocks g) i Hk) as [b Hb]. rewrite (holds_block _ _ _ _ _ Hh Hb).
  by apply (h_data _ _ _ Hh).
Qed.

(** ** The theorems *)

Definition nblk (n : nat) : nat := ((n + 1023) / 1024)%nat.

Lemma built_file fs st G j x :
  built st G -> contents G = (T_DIR, root_entries fs) :: (as_file <$> fs) -> fs !! j = Some x ->
  exists g, G !! S j = Some (T_FILE, g) /\ g_bytes g = concat x.2.
Proof.
  intros _ Hc Hx. assert (contents G !! S j = Some (as_file x)) as Hj by (rewrite Hc; change ((as_file <$> fs) !! j = Some (as_file x)); by rewrite list_lookup_fmap, Hx).
  unfold contents in Hj. apply list_lookup_fmap_Some in Hj as ([ty g] & E & HG). cbn in E. injection E as E1 E2. exists g. by rewrite E1.
Qed.

Lemma built_root fs st G :
  built st G -> contents G = (T_DIR, root_entries fs) :: (as_file <$> fs) ->
  exists g, G !! 0%nat = Some (T_DIR, g) /\ g_bytes g = root_entries fs.
Proof.
  intros _ Hc. destruct G as [|[ty g] G]; [done|]. unfold contents in Hc. rewrite fmap_cons in Hc. cbn [fst snd] in Hc.
  injection Hc as -> Hb _. by exists g.
Qed.

Lemma built_super st G : built st G -> get_superblock (img st 1) = fs_sb /\ hdr_n (img st 2) = 0.
Proof. intros H. rewrite !(bt_meta _ _ H) by lia. split; vm_compute; reflexivity. Qed.

(** C8. For files whose names fit a directory entry, whose contents fit the largest
    file, and which together fit the disk and the inode table, [mkfs] ends without
    an error, and the image it wrote is a file system with these files: the super
    block describes the layout, the log is empty, inode [2 + j] is a regular file
    with one link whose size and whose bytes (through the direct and the indirect
    blocks) are those of file [j] as [read] returned them piece by piece, the root
    directory has the entries [.] and [..] and one entry for every file with its
    inode and its name without [user/] and [_], followed by zeros, and all the other
    inodes are free. *)
Theorem mkfs_image fs :
  fits fs ->
  exists st, main (as_input <$> fs) start = M_ok tt st /\
    get_superblock (img st 1) = fs_sb /\ hdr_n (img st 2) = 0 /\
    (forall j x, fs !! j = Some x ->
       let d := dinode_at st (2 + Z.of_nat j) in
       let n := length (concat x.2) in
       d_type d = T_FILE /\ d_nlink d = 1 /\ d_size d = n /\ take n (inode_data (img st) d (nblk n)) = concat x.2) /\
    (let d := dinode_at st 1 in
     let r := root_entries fs in
     d_type d = T_DIR /\ d_size d = rounded (length r) /\
     inode_data (img st) d (nblk (length r)) = r ++ replicate (1024 * nblk (length r) - length r) 0) /\
    (forall i : Z, length fs + 1 < i < 200 -> d_type (dinode_at st i) = 0).
Proof.
  intros Hfits. destruct (main_built fs Hfits) as (st & G & E & Hb & Hc). exists st. split; [done|].
  destruct (built_super st G Hb) as [H1 H2]. split; [done|]. split; [done|]. split_and!.
  - intros j x Hx. destruct (built_file _ _ _ _ _ Hb Hc Hx) as (g & HG & Hg).
    destruct (bt_file _ _ Hb _ _ _ HG) as (Hs & Hh & Hin). cbn zeta.
    replace (2 + Z.of_nat j) with (Z.of_nat (S (S j))) by lia. rewrite decide_False in Hin by lia.
    destruct (dinode_parts _ _ _ Hin) as (-> & _ & _ & -> & ->). rewrite <- Hg. split; [done|]. split; [done|]. split; [done|].
    unfold nblk. rewrite <- Hs, (holds_read _ _ _ Hh Hs). apply take_app_length.
  - cbn zeta. destruct (built_root _ _ _ Hb Hc) as (g & HG & Hg).
    destruct (bt_file _ _ Hb _ _ _ HG) as (Hs & Hh & Hin). rewrite decide_True in Hin by done.
    change (Z.of_nat 1) with 1 in *. destruct (dinode_parts _ _ _ Hin) as (-> & _ & _ & _ & ->).
    rewrite <- Hg. split; [done|]. split; [done|]. unfold nblk. rewrite <- Hs.
    exact (holds_read _ _ _ Hh Hs).
  - intros i Hi. apply (bt_unused _ _ Hb). apply (f_equal length) in Hc. unfold contents in Hc.
    cbn [length] in Hc. rewrite !length_fmap in Hc. lia.
Qed.

Lemma built_blocks fs st G :
  built st G -> contents G = (T_DIR, root_entries fs) :: (as_file <$> fs) ->
  all_owned G =
    inode_blocks (img st) (dinode_at st 1) (nblk (length (root_entries fs))) ++
    concat (imap (fun j x => inode_blocks (img st) (dinode_at st (2 + Z.of_nat j)) (nblk (length (concat x.2)))) fs).
Proof.
  intros Hb Hc. destruct G as [|[ty g] G]; [done|]. pose proof Hc as Hc'. unfold contents in Hc'.
  rewrite fmap_cons in Hc'. cbn [fst snd] in Hc'. injection Hc' as -> Hg HG. unfold all_owned. rewrite bind_cons. cbn [snd].
  destruct (bt_file _ _ Hb 0%nat _ _ eq_refl) as (Hs & Hh & _). change (Z.of_nat 1) with 1 in Hh.
  f_equal; [rewrite <- (holds_blocks _ _ _ Hh), Hs; unfold nblk; by rewrite Hg|].
  assert (forall l : list (Z * gfile), (l ≫= fun x => owned x.2) = concat ((fun x => owned x.2) <$> l)) as ->.
  { induction l as [|y l IH]; [done|]. rewrite bind_cons, IH. done. }
  f_equal. apply list_eq. intros j. rewrite list_lookup_imap, list_lookup_fmap.
  destruct (fs !! j) as [x|] eqn:Hx.
  - destruct (built_file _ _ _ _ _ Hb Hc Hx) as (g' & HG' & Hg'). assert (G !! j = Some (T_FILE, g')) as -> by exact HG'. cbn. f_equal.
    destruct (bt_file _ _ Hb (S j) _ _ HG') as (Hs' & Hh' & _). rewrite <- (holds_blocks _ _ _ Hh'), Hs', Hg'.
    by replace (2 + Z.of_nat j) with (Z.of_nat (S (S j))) by lia.
  - apply lookup_ge_None in Hx. apply (f_equal length) in HG. rewrite !length_fmap in HG. by rewrite lookup_ge_None_2 by lia.
Qed.

(** The bitmap, as the kernel that boots from the image sees it. *)
Lemma built_bitmap st G s :
  built st G -> (forall b, view s b = img st b) -> sb s = get_superblock (img st 1) ->
  lg_start (lg s) = sb_logstart (sb s) ->
  bitmap_ok s /\ forall b, fs_block s b -> used s b = (b <? freeblock st).
Proof.
  intros Hb Hv Hsb Hlg. rewrite (proj1 (built_super _ _ Hb)) in Hsb. pose proof (bt_range _ _ Hb) as Hr. sizes.
  rewrite Hsb in Hlg. cbn [sb_logstart fs_sb] in Hlg.
  assert (Hbl : forall b, fs_block s b -> 0 <= b < 2000 /\ BBLOCK b (sb s) = 46).
  { intros b Hf. unfold fs_block in Hf. rewrite Hsb in *. cbn [sb_size fs_sb] in Hf. split; [done|]. by apply fs_bitmap_block. }
  assert (Hmap : forall b, 0 <= b < 2000 ->
    length (img st 46) = 1024%nat /\ bit_free (img st 46) b = (freeblock st <=? b)).
  { intros b Hf. rewrite (bt_map _ _ Hb), <- (Z2Nat.id (freeblock st)) by lia. apply used_map_run; change BPB with 8192; lia. }
  assert (Hu : forall b, fs_block s b -> used s b = (b <? freeblock st)).
  { intros b Hf. destruct (Hbl b Hf) as [Hr' HB]. unfold used. rewrite HB, Hv, Z.mod_small by (change BPB with 8192; lia).
    rewrite (proj2 (Hmap b Hr')). destruct (Z.leb_spec (freeblock st) b), (Z.ltb_spec b (freeblock st)); done || lia. }
  split; [|done]. split.
  - rewrite Hsb. cbn. lia.
  - intros b Hf. destruct (Hbl b Hf) as [_ ->]. rewrite Hlg. unfold home. change LOGBLOCKS with 30. lia.
  - intros b Hf. destruct (Hbl b Hf) as [Hr' ->]. rewrite Hv. by apply (Hmap b).
  - intros b Hf Hub. rewrite Hu in Hub by done. destruct (Hbl b Hf) as [Hr' _]. apply Z.ltb_ge in Hub. split.
    + rewrite Hlg. unfold home. change LOGBLOCKS with 30. lia.
    + intros b' Hf'. destruct (Hbl b' Hf') as [_ ->]. lia.
Qed.

(** C23. In the image that [mkfs] writes, the data and indirect blocks of all the
    inodes are exactly the blocks from [nmeta] to [freeblock], each in one place: no
    block belongs to two files or twice to one.  The bitmap marks these and the meta
    data and nothing else: a kernel that sees the image's blocks and has read its
    super block satisfies the invariant [bitmap_ok] that its own [balloc] and [bfree]
    rely on, and takes a block to be in use exactly if it is below [freeblock]. *)
Theorem mkfs_blocks fs :
  fits fs ->
  exists st, main (as_input <$> fs) start = M_ok tt st /\
    inode_blocks (img st) (dinode_at st 1) (nblk (length (root_entries fs))) ++
    concat (imap (fun j x => inode_blocks (img st) (dinode_at st (2 + Z.of_nat j)) (nblk (length (concat x.2)))) fs)
      ≡ₚ seqZ nmeta (freeblock st - nmeta) /\
    forall s, (forall b, view s b = img st b) -> sb s = get_superblock (img st 1) -> lg_start (lg s) = sb_logstart (sb s) ->
      bitmap_ok s /\ forall b, fs_block s b -> used s b = (b <? freeblock st).
Proof.
  intros Hfits. destruct (main_built fs Hfits) as (st & G & E & Hb & Hc). exists st. split; [done|].
  split; [rewrite <- (built_blocks fs st G Hb Hc); apply Hb|]. intros s. by apply (built_bitmap st G).
Qed.

(** ** Two files *)

Definition two_files : list (list Z * list (list Z)) :=
  [(str "user/_cat", [replicate 1000 7; replicate 500 8]); (str "README", [replicate 3 9])].

Lemma two_files_fit : fits two_files.
Proof.
  split; [|split; [cbn; lia|vm_compute; done]].
  assert (H : forall x, negb (bool_decide (47 ∈ shortname x.1)) && (length (target_name x.1) <=? 14)%nat &&
    (length (concat x.2) <=? 268 * 1024)%nat = true -> good_input x).
  { intros x [[H1 H2]%andb_prop H3]%andb_prop. apply negb_true_iff, bool_decide_eq_false in H1.
    apply Nat.leb_le in H2, H3. done. }
  repeat (apply Forall_cons; split; [apply H; vm_compute; reflexivity|]). constructor.
Qed.

Lemma mkfs_image_witness :
  exists st, main (as_input <$> two_files) start = M_ok tt st /\
    d_size (dinode_at st 2) = 1500 /\
    take 1500 (inode_data (img st) (dinode_at st 2) 2) = replicate 1000 7 ++ replicate 500 8.
Proof.
  destruct (mkfs_image two_files two_files_fit) as (st & E & _ & _ & Hf & _). exists st. split; [exact E|].
  destruct (Hf 0%nat (str "user/_cat", [replicate 1000 7; replicate 500 8]) eq_refl) as (_ & _ & Hs & Hd).
  cbn [snd concat] in Hs, Hd. rewrite app_nil_r, length_app, !length_replicate in Hs, Hd. exact (conj Hs Hd).
Defined.

Lemma mkfs_blocks_witness :
  exists st, main (as_input <$> two_files) start = M_ok tt st /\
    bitmap_ok (set_sb fs_sb (set_disk (img st) idle_machine)).
Proof.
  destruct (mkfs_blocks two_files two_files_fit) as (st & E & _ & Hs). exists st. split; [exact E|].
  assert (Hsb : get_superblock (img st 1) = fs_sb).
  { assert (st = match main (as_input <$> two_files) start with M_ok _ st => st | _ => start end) as -> by by rewrite E.
    vm_compute. reflexivity. }
  apply Hs; [|symmetry; exact Hsb|reflexivity].
  intros b. unfold view, cached. cbn [bufs set_sb set_disk disk].
  destruct (list_find (key b) (bufs idle_machine)) as [[i x]|] eqn:F; [|reflexivity].
  apply list_find_Some in F as (Hx & _ & _). apply idle_machine_buf in Hx as ->. reflexivity.
Defined.
