(* ===== verification/MkfsBoot.v ===== *)
(** * The kernel on the image that [mkfs] builds

    What [mkfs] writes is what the kernel reads: the inodes of the image are files as
    [readi] sees them, the root directory finds every file by its name, and opening and
    reading a file gives the bytes that it had on the host. *)

From S2P Require Import Prelude Riscv Mem State Printf Kalloc Vm Uvm Sched Bio Log Crash Fs FsData Balloc Inode Readi Ilock Path UserMem Copy Pipe Console File Fileio Mmap Proc Exec Sysproc Sysfile Open Mkfs MkfsImage.

#[local] Open Scope Z_scope.

(** ** Files of the image *)

Lemma blocks_for_nat n : Readi.blocks_for (Z.of_nat n) = Z.of_nat (nblk n).
Proof.
  unfold Readi.blocks_for, nblk. change BSIZE with 1024. rewrite Nat2Z.inj_div. f_equal; lia.
Qed.

Lemma nblk_mul q : nblk (1024 * q) = q.
Proof.
  unfold nblk. replace (1024 * q + 1023)%nat with (1023 + q * 1024)%nat by lia. by rewrite Nat.div_add by lia.
Qed.

Section File.
Context (im : Z -> list Z) (d : dinode) (g : gfile).
Hypothesis Hh : holds im d g.
Hypothesis Hpos : forall b, b ∈ owned g -> b <> 0.

Lemma holds_block_of k b : g_blocks g !! k = Some b -> block_of im (inode_of d) (Z.of_nat k) = b.
Proof.
  intros Hk. pose proof (lookup_lt_Some _ _ _ Hk) as Hlt. rewrite <- (holds_block im d g k b Hh Hk). unfold block_of, block_no, addr_of.
  change (i_addrs (inode_of d)) with (d_addrs d). change NDIRECT with 12.
  case_decide as E; [by rewrite (proj2 (Z.ltb_lt _ _)), Nat2Z.id by lia|]. rewrite (proj2 (Z.ltb_ge _ _)) by lia. cbv zeta.
  change (Z.to_nat 12) with 12%nat. rewrite (h_slot _ _ _ Hh). cbn [default from_option id].
  rewrite (proj2 (Z.eqb_neq _ _)); [f_equal; lia|]. apply Hpos. unfold owned. rewrite decide_True by lia. apply elem_of_app. by right; left.
Qed.

Lemma holds_bytes n :
  sized g -> d_size d = Z.of_nat n -> nblk n = length (g_blocks g) -> (length (g_bytes g) <= n)%nat ->
  file_ok im (inode_of d) /\ file_bytes im (inode_of d) = g_bytes g ++ replicate (n - length (g_bytes g)) 0.
Proof.
  intros Hsz Hs Hn Hle. assert (Es : i_size (inode_of d) = Z.of_nat n) by done.
  assert (Hblk : forall k : nat, (k < length (g_blocks g))%nat -> exists b, g_blocks g !! k = Some b /\ block_of im (inode_of d) (Z.of_nat k) = b /\ b <> 0).
  { intros k Hk. destruct (lookup_lt_is_Some_2 (g_blocks g) k Hk) as [b E]. exists b. split_and!; [done|by apply holds_block_of|].
    apply Hpos, elem_of_app. left. by eapply list_elem_of_lookup_2. }
  pose proof (h_nblocks _ _ _ Hh) as Hmax. pose proof (ceil_bounds n) as Hc. fold (nblk n) in Hc. split.
  - split; [done|rewrite Es; change (MAXFILE * BSIZE) with 274432; lia|]. rewrite Es, blocks_for_nat, Hn. intros k Hk.
    destruct (Hblk (Z.to_nat k) ltac:(lia)) as (b & Eb & E & Hb). rewrite Z2Nat.id in E by lia. rewrite E. split; [done|].
    rewrite (h_data _ _ _ Hh _ _ Eb). apply length_piece.
  - unfold file_bytes. rewrite Es, blocks_for_nat, Hn, Nat2Z.id.
    assert (block_bytes im (inode_of d) (length (g_blocks g)) = inode_data im d (length (g_blocks g))) as ->.
    { unfold block_bytes, inode_data, seqZ. rewrite <- list_fmap_compose, Nat2Z.id. f_equal. apply list_fmap_ext.
      intros j k [-> Hk]%lookup_seq. cbn [compose Nat.add]. rewrite Z.add_0_r. destruct (Hblk j Hk) as (b & Eb & E & _).
      by rewrite E, (holds_block _ _ _ _ _ Hh Eb). }
    rewrite (holds_read _ _ _ Hh Hsz), take_app, take_replicate, take_ge by lia. do 2 f_equal. lia.
Qed.
End File.

(** ** The root directory *)

Definition c_string (l : list Z) : Prop := Forall (fun c => c <> 0) l /\ (length l <= 14)%nat.

Lemma get_dirent_entry inum name : Z.of_nat inum < 65536 -> get_dirent (entry inum name) = mkDirent (Z.of_nat inum) (strncpy_name name).
Proof. intros H. apply get_put_dirent. lia. Qed.

Lemma is_entry_stored name inum stored :
  c_string name -> c_string stored -> (0 < inum)%nat ->
  is_entry name (mkDirent (Z.of_nat inum) (strncpy_name stored)) = bool_decide (name = stored).
Proof.
  intros [Hn1 Hn2] [Hs1 Hs2] Hi. unfold is_entry. cbn [de_inum de_name]. rewrite (proj2 (Z.eqb_neq _ _)) by lia. cbn [negb andb].
  unfold namecmp, strncpy_name. rewrite strncmp_take, strncmp_pad. change (Z.to_nat DIRSIZ) with 14%nat.
  apply eq_true_iff_eq. rewrite Z.eqb_eq, bool_decide_eq_true, strncmp_zero by done. by rewrite !take_ge by done.
Qed.

Lemma dir_entry_head e l : length e = 16%nat -> dir_entry (e ++ l) 0 = get_dirent e.
Proof. intros H. unfold dir_entry. by rewrite drop_0, take_app_length' by done. Qed.

Lemma dir_entry_tail e l k : length e = 16%nat -> 0 <= k -> dir_entry (e ++ l) (k + 1) = dir_entry l k.
Proof.
  intros H Hk. unfold dir_entry. rewrite drop_app_ge by lia. rewrite H. do 3 f_equal. lia.
Qed.

Lemma find_name_tail e l name n : forall k, length e = 16%nat -> 0 <= k ->
  find_name n (e ++ l) name (k + 1) = (fun x => (x.1 + 1, x.2)) <$> find_name n l name k.
Proof.
  induction n as [|n IH]; intros k He Hk; [done|]. cbn [find_name]. rewrite dir_entry_tail by done.
  destruct (is_entry _ _); [done|]. apply IH; [done|lia].
Qed.

(** One entry in front. *)
Lemma find_name_entry name inum nm l n :
  c_string name -> c_string nm -> (0 < inum)%nat -> Z.of_nat inum < 65536 ->
  find_name (S n) (entry inum nm ++ l) name 0 =
    if bool_decide (name = nm) then Some (0, mkDirent (Z.of_nat inum) (strncpy_name nm))
    else (fun x => (x.1 + 1, x.2)) <$> find_name n l name 0.
Proof.
  intros Hn Hm Hi Hu. cbn [find_name]. pose proof (length_entry inum nm) as Le.
  rewrite dir_entry_head, get_dirent_entry, is_entry_stored by (done || lia).
  case_bool_decide; [done|]. by apply (find_name_tail _ _ _ _ 0).
Qed.

Abbreviation names fs := ((fun x : list Z * list (list Z) => target_name x.1) <$> fs).

Lemma find_entries fs l name n : forall m j,
  Forall c_string (names fs) -> names fs !! j = Some name -> NoDup (names fs) -> (0 < m)%nat -> Z.of_nat (m + length fs) < 65536 ->
  find_name (length fs + n) (entries m fs ++ l) name 0 = Some (Z.of_nat j, mkDirent (Z.of_nat (m + j)) (strncpy_name name)).
Proof.
  induction fs as [|x fs IH]; intros m j Hc Hj Hnd Hm Hb; [done|]. rewrite fmap_cons in Hc, Hj, Hnd.
  apply Forall_cons in Hc as [Hx Hc]. apply NoDup_cons in Hnd as [Hnx Hnd]. cbn [length] in *. cbn [entries]. rewrite <- app_assoc.
  assert (Hname : c_string name).
  { destruct j as [|j]; [by injection Hj as <-|]. rewrite Forall_forall in Hc. apply Hc. by eapply list_elem_of_lookup_2. }
  change (S (length fs) + n)%nat with (S (length fs + n)). rewrite find_name_entry by (done || lia).
  destruct j as [|j]; cbn in Hj.
  - injection Hj as ->. rewrite bool_decide_eq_true_2 by done. by rewrite Nat.add_0_r.
  - rewrite bool_decide_eq_false_2 by (intros ->; apply Hnx; by eapply list_elem_of_lookup_2).
    rewrite (IH (S m) j) by (done || lia). cbn [fmap option_fmap option_map fst snd]. do 2 f_equal; [lia|]. f_equal. lia.
Qed.

(** The names of the files, with the two entries that [mkfs] makes itself. *)
Definition well_named (fs : list (list Z * list (list Z))) : Prop :=
  Forall (fun x => Forall (fun c => c <> 0) x.1) fs /\ NoDup ([] :: str "." :: str ".." :: names fs).

Lemma pieces_no_slash l : (47 ∉ l) -> pieces l = [l].
Proof.
  induction l as [|c l IH]; [done|]. intros [Hc Hl]%not_elem_of_cons. cbn [pieces]. rewrite (proj2 (Z.eqb_neq c 47)) by done.
  by rewrite IH.
Qed.

Lemma path_of_name name : (47 ∉ name) -> name <> [] -> (length name <= 14)%nat -> path_elements (47 :: name) = [name].
Proof.
  intros Hs Hne Hl. rewrite path_elements_slash. unfold path_elements. rewrite pieces_no_slash by done.
  rewrite filter_cons_True by done. cbn. by rewrite take_ge.
Qed.

Lemma target_sub name c : c ∈ target_name name -> c ∈ shortname name.
Proof.
  unfold target_name. destruct (shortname name) as [|a l]; [done|]. destruct (a =? 95); [|done]. by right.
Qed.

Lemma short_sub name c : c ∈ shortname name -> c ∈ name.
Proof.
  unfold shortname. destruct (_ =? 0); [|done]. intros [i Hi]%list_elem_of_lookup. rewrite lookup_drop in Hi. by eapply list_elem_of_lookup_2.
Qed.

Lemma names_ok fs : Forall good_input fs -> well_named fs -> Forall c_string (names fs).
Proof.
  intros Hg [Hz _]. apply Forall_fmap, Forall_forall. intros x Hx. rewrite Forall_forall in Hg, Hz.
  destruct (Hg x Hx) as (_ & Hl & _). split; [|done]. apply Forall_forall. intros c Hc. specialize (Hz x Hx). rewrite Forall_forall in Hz.
  by apply Hz, short_sub, target_sub.
Qed.

(** ** The tree on the image *)

Section Image.
Context (fs : list (list Z * list (list Z))) (st : mkfs) (G : list (Z * gfile)).
Hypothesis Hb : built st G.
Hypothesis Hc : contents G = (T_DIR, root_entries fs) :: (as_file <$> fs).
Hypothesis Hfits : fits fs.

Lemma image_dinode inum : 0 <= inum < 208 -> dinode_on (img st) fs_sb inum = dinode_at st inum.
Proof. intros H. unfold dinode_on, dinode_at. by rewrite <- (proj1 (iblock_run inum H)). Qed.

Lemma image_blocks i ty g b : G !! i = Some (ty, g) -> b ∈ owned g -> b <> 0.
Proof.
  intros Hi Hin. assert (b ∈ all_owned G) as Ha.
  { unfold all_owned. apply list_elem_of_bind. exists (ty, g). split; [done|]. by eapply list_elem_of_lookup_2. }
  rewrite (bt_owned _ _ Hb), elem_of_seqZ in Ha. sizes. lia.
Qed.

Lemma image_file j x :
  fs !! j = Some x ->
  let d := dinode_on (img st) fs_sb (2 + Z.of_nat j) in
  d_type d = T_FILE /\ d_nlink d = 1 /\ file_ok (img st) (inode_of d) /\ file_bytes (img st) (inode_of d) = concat x.2.
Proof.
  intros Hx d. destruct (built_file _ _ _ _ _ Hb Hc Hx) as (g & HG & Hg). destruct (bt_file _ _ Hb _ _ _ HG) as (Hs & Hh & Hin).
  destruct Hfits as (_ & Hn & _). apply lookup_lt_Some in Hx as Hj. rewrite decide_False in Hin by lia.
  replace (Z.of_nat (S (S j))) with (2 + Z.of_nat j) in * by lia. unfold d. rewrite image_dinode by lia.
  destruct (dinode_parts _ _ _ Hin) as (E1 & _ & _ & E4 & E5). split; [done|]. split; [done|].
  destruct (holds_bytes _ _ _ Hh (fun b => image_blocks _ _ _ b HG) _ Hs E5 (eq_sym Hs) (le_n _)) as [Ho Hf].
  split; [done|]. by rewrite Hf, Nat.sub_diag, app_nil_r.
Qed.

(** The size of the root directory covers one block more than it has, if the entries
    fill their blocks exactly. *)
Lemma image_root :
  ((length fs + 2) mod 64 <> 0)%nat ->
  let d := dinode_on (img st) fs_sb ROOTINO in
  d_type d = T_DIR /\ d_nlink d = 1 /\ dir_ok (img st) fs_sb ROOTINO /\
  exists n, dir_bytes (img st) fs_sb ROOTINO = root_entries fs ++ replicate (16 * n) 0.
Proof.
  intros Hfull d. destruct (built_root _ _ _ Hb Hc) as (g & HG & Hg). destruct (bt_file _ _ Hb _ _ _ HG) as (Hs & Hh & Hin).
  rewrite decide_True in Hin by done. change (Z.of_nat 1) with 1 in *. unfold d, dir_bytes. change ROOTINO with 1.
  assert (Hd : dinode_on (img st) fs_sb 1 = dinode_at st 1) by (by apply image_dinode).
  destruct (dinode_parts _ _ _ Hin) as (E1 & _ & _ & E4 & E5).
  assert (Hlen : length (g_bytes g) = (16 * (2 + length fs))%nat) by by rewrite Hg, length_root_entries.
  assert (Hr : (rounded (length (g_bytes g)) = 1024 * nblk (length (g_bytes g)) /\ length (g_bytes g) <= rounded (length (g_bytes g)))%nat).
  { rewrite Hlen. unfold rounded, nblk. clear -Hfull. 
    pose proof (Nat.div_mod_eq (length fs + 2) 64). pose proof (Nat.mod_upper_bound (length fs + 2) 64).
    pose proof (Nat.div_mod_eq (16 * (2 + length fs)) 1024). pose proof (Nat.mod_upper_bound (16 * (2 + length fs)) 1024).
    pose proof (Nat.div_mod_eq (16 * (2 + length fs) + 1023) 1024). pose proof (Nat.mod_upper_bound (16 * (2 + length fs) + 1023) 1024). lia. }
  destruct Hr as [Hr1 Hr2].
  destruct (holds_bytes _ _ _ Hh (fun b => image_blocks _ _ _ b HG) _ Hs E5) as [Ho Hf]; [|done|].
  { by rewrite Hr1, nblk_mul, Hs. }
  split_and!; [by rewrite Hd|by rewrite Hd| |].
  - split; rewrite Hd; [done|]. rewrite E5, Hr1, Nat2Z.inj_mul. change (Z.of_nat 1024) with (64 * 16).
    rewrite <- Z.mul_assoc, (Z.mul_comm 16), Z.mul_assoc. apply Z.mod_mul. done.
  - exists (64 * nblk (length (g_bytes g)) - (2 + length fs))%nat. rewrite Hd, Hf, Hg. do 2 f_equal. rewrite <- Hg, Hr1, Hlen. lia.
Qed.

(** The path of a file leads to its inode. *)
Lemma image_walk j x :
  well_named fs -> ((length fs + 2) mod 64 <> 0)%nat -> fs !! j = Some x ->
  let name := target_name x.1 in
  walk_ok (img st) fs_sb ROOTINO (path_elements (47 :: name)) /\
  walk (img st) fs_sb false ROOTINO (path_elements (47 :: name)) [] = Some (2 + Z.of_nat j, name).
Proof.
  intros Hw Hfull Hx name. destruct Hfits as (Hgood & Hn & _). pose proof (names_ok fs Hgood Hw) as Hcs. destruct Hw as [_ Hnd].
  assert (Hnj : names fs !! j = Some name) by by rewrite list_lookup_fmap, Hx.
  assert (Hin : name ∈ names fs) by by eapply list_elem_of_lookup_2.
  apply NoDup_cons in Hnd as [N1 [N2 [N3 Hnd]%NoDup_cons]%NoDup_cons].
  apply not_elem_of_cons in N1 as [_ [_ N1]%not_elem_of_cons]. apply not_elem_of_cons in N2 as [_ N2].
  assert (Hs : 47 ∉ name). { rewrite Forall_forall in Hgood. destruct (Hgood x ltac:(by eapply list_elem_of_lookup_2)) as [H47 _]. by intros H%target_sub. }
  assert (Hname : c_string name) by (rewrite Forall_forall in Hcs; by apply Hcs).
  rewrite path_of_name by (done || (intros ->; by apply N1) || apply Hname).
  destruct (image_root Hfull) as (D1 & D2 & Do & n & D3). destruct (image_file j x Hx) as (F1 & F2 & _).
  assert (Hl : lookup_name (dir_bytes (img st) fs_sb ROOTINO) name = Some (2 + Z.of_nat j, mkDirent (2 + Z.of_nat j) (strncpy_name name))).
  { unfold lookup_name. rewrite D3, length_app, length_root_entries, length_replicate.
    replace (16 * (2 + length fs) + 16 * n)%nat with ((2 + (length fs + n)) * 16)%nat by lia. rewrite Nat.div_mul by lia.
    unfold root_entries. rewrite <- !app_assoc. cbn [Nat.add].
    rewrite !find_name_entry by (done || lia || (split; [repeat (constructor; [done|]); constructor|cbn; lia])).
    rewrite !bool_decide_eq_false_2 by (intros ->; done).
    rewrite (find_entries fs _ name n 2 j) by (done || lia). cbn [fmap option_fmap option_map fst snd]. do 2 f_equal; [lia|]. f_equal. lia. }
  cbn [walk_ok walk]. rewrite D1, D2, Hl. split; [|done]. split; [done|]. split; [done|]. intros _. split; [done|].
  intros k e [= _ <-]. cbn [de_inum]. by rewrite F1, F2.
Qed.
End Image.

(** ** Open and read *)

Section Boot.
Context `{L : Layout} {LO : LayoutOk L} `{W : Waits} (me : nat) (pid : Z).
Implicit Types s : kernel.

Lemma user_room_open s s' dst n V o p :
  same_but_files pid s s' -> procs s !! me = Some p -> procs s' = <[me := set_p_ofile o p]> (procs s) ->
  user_room me s dst n V -> user_room me s' dst n V.
Proof.
  intros S Hp Hp' (q & Hq & Ho & HV & Hw). assert (q = p) as -> by congruence. pose proof (sv_frame _ _ _ S) as F.
  assert (Em : mem s' = mem s) by by rewrite F. assert (Er : refcnt s' = refcnt s) by by rewrite F.
  exists (set_p_ofile o p). unfold own in *. rewrite Em, Er, Hp'. split; [|done]. apply list_lookup_insert_eq. by eapply lookup_lt_Some.
Qed.

(** A regular file that was opened can be read from its start. *)
Lemma open_read_run s path p n name f y fd o dst len V :
  may_open me pid s path p -> head path = Some 47 -> walk_ok (view s) (sb s) ROOTINO (path_elements path) ->
  walk (view s) (sb s) false ROOTINO (path_elements path) [] = Some (n, name) ->
  let d := dinode_on (view s) (sb s) n in
  d_type d = T_FILE -> file_ok (view s) (inode_of d) ->
  free_file (ftab s) = Some (f, y) -> free_fd (p_ofile p) = Some (fd, o) -> 0 <= len < 2^31 -> user_room me s dst (Z.to_nat len) V ->
  let bs := take (Z.to_nat len) (file_bytes (view s) (inode_of d)) in
  exists s1 s2, sys_open s = Ok (Z.of_nat fd) s1 /\ procs s1 = <[me := set_p_ofile (<[fd := Some f]> (p_ofile p)) p]> (procs s) /\
    fileread f dst len s1 = Ok (Z.of_nat (length bs)) s2 /\ uwritten V dst bs (mem s) (mem s2).
Proof.
  intros Hmo Hh Hok Hw d Ht Hfo Hf Hfd Hlen Hroom bs.
  destruct (sys_open_run me pid s path ROOTINO p Hmo) as (s1 & S & Hic & _ & H); [|done|].
  { unfold starts_at. by rewrite bool_decide_eq_true_2. }
  rewrite Hw in H. cbn [open_result] in H. fold d in H. assert (bad_device d = false) as Hbd by (unfold bad_device; by rewrite Ht).
  rewrite Hbd, Hf, Hfd in H. destruct H as (i & ip & E & Hps & Hft & Hi & He & _). exists s1.
  destruct Hmo as [Hr _ _ _ _ _ Hp _ _]. pose proof (same_but_files_read me pid _ _ _ _ S Hr Hp Hps) as Hr1.
  pose proof (sv_frame _ _ _ S) as F. assert (Hsb : sb s1 = sb s) by by rewrite F. assert (Hm : mem s1 = mem s) by by rewrite F.
  assert (Hv : forall bn, view s1 bn = view s bn) by (intros bn; exact (sv_view _ _ _ S bn)).
  assert (Ho : opened d i y = mkFile FD_INODE 1 1 0 (f_pipe y) (Some i) 0 (f_major y)) by (unfold opened; by rewrite Ht).
  rewrite Ho in Hft. set (x := mkFile _ _ _ _ _ _ _ _) in Hft.
  assert (Hof : inode_file s1 f x i d).
  { split; try done.
    - rewrite Hft. apply list_lookup_insert_eq. apply list_find_Some in Hf as (Hf & _). by eapply lookup_lt_Some.
    - destruct He as (He1 & He2 & He3). exists ip. split_and!; [done|done|]. rewrite He3, Hsb. by apply dinode_on_ext.
    - by rewrite Ht.
    - by apply (file_ok_ext (view s)). }
  destruct (fileread_run me pid s1 f x i d dst len V Hr1 Hic Hof ltac:(done) Hlen (user_room_open _ _ _ _ _ _ _ S Hp Hps Hroom)) as (s2 & E2 & Hu & _).
  assert (Eb : read_range (view s1) (inode_of d) (f_off x) len = bs).
  { unfold read_range, bs. cbn [f_off x]. rewrite (proj2 (Z.leb_gt _ _)) by lia. rewrite (file_bytes_ext _ (view s)) by done. by rewrite drop_0. }
  rewrite Eb in *. exists s2. split_and!; [done|done|done|by rewrite <- Hm].
Qed.
(** No operation of the log is open, and the log has room. *)
Definition outside_op s : Prop := lg_outstanding (lg s) = 0 /\ lg_n (lg s) < LOGBLOCKS.

Lemma log_write_outside b s :
  (L_log ∉ held s) -> outside_op s -> log_write b s = Panic "log_write outside of trans".
Proof.
  intros Hh [Ho Hn]. unfold log_write. kstep (acquire_ok L_log s Hh). rewrite bind_run. unfold getlg. cbn [gets obind lg set_held].
  rewrite (proj2 (Z.leb_gt _ _)), Ho by done. done.
Qed.

(** [balloc] outside an operation, when a block is free. *)
Lemma balloc_outside s b :
  can_read me pid s -> sb s = fs_sb -> outside_op s -> fs_block s b -> used s b = false ->
  Fs.balloc ROOTDEV s = Panic "log_write outside of trans".
Proof.
  intros Hr Hsb Hout Hb Hu. unfold fs_block, used in *. rewrite Hsb in *. cbn [sb_size fs_sb] in Hb.
  unfold Fs.balloc. rewrite bind_run. cbn [gets obind]. rewrite Hsb. change (bitmap_steps (sb_size fs_sb)) with [0].
  cbn [kfor]. rewrite !bind_run. assert (BBLOCK b fs_sb = BBLOCK 0 fs_sb) as E.
  { unfold BBLOCK. rewrite (u32_small b) by (unfold is_u32; lia). rewrite (Z.div_small b) by (change BPB with 8192; lia). done. }
  rewrite E in Hu. destruct (bread_use me pid s (BBLOCK 0 fs_sb) Hr) as (c & x & s1 & E1 & E2 & Hx & F & _).
  rewrite E1. cbn [obind]. rewrite bind_run, E2. cbn [obind]. rewrite <- Hx in Hu. change (sb_size fs_sb) with 2000.
  destruct (find_free (Z.to_nat BPB) (b_data x) 0 2000 0) as [bi|] eqn:Ef.
  2:{ rewrite Z.mod_small in Hu by (change BPB with 8192; lia).
      rewrite (find_free_None _ _ _ _ _ Ef b) in Hu; [done| |lia]. rewrite Z2Nat.id by done. change BPB with 8192. lia. }
  assert (Hc : bufs s1 !! c = Some x) by (unfold getb in E2; destruct (bufs s1 !! c); by simplify_eq).
  unfold set_data. rewrite bind_run, (setb_run s1 c x _ Hc). cbn [obind]. rewrite bind_run, log_write_outside; [done| |].
  - cbn [held set_bufs]. assert (held s1 = held s) as -> by by rewrite F. rewrite (fx_held _ _ _ (rd_ctx _ _ _ Hr)). apply not_elem_of_nil.
  - unfold outside_op. cbn [lg set_bufs]. by rewrite (io_frame_lg _ _ F).
Qed.

(** [readi] of a directly addressed block that the inode does not have. *)
Lemma readi_gap {A} (put : A -> list Z -> K (option A)) s b i ip a off n :
  can_read me pid s -> sb s = fs_sb -> outside_op s -> fs_block s b -> used s b = false ->
  itab s !! i = Some ip -> i_dev ip = ROOTDEV -> 0 <= off < i_size ip -> i_size ip < 2^31 -> 0 < n < 2^31 ->
  off / BSIZE < NDIRECT -> addr_of ip (Z.to_nat (off / BSIZE)) = 0 ->
  readi put i a off n s = Panic "log_write outside of trans".
Proof.
  intros Hr Hsb Hout Hb Hu Hi Hd Hoff Hsz Hn Hdir Ha. unfold readi. kstep (geti_run s i ip Hi).
  rewrite (u32_small (off + n)) by (unfold is_u32; lia).
  rewrite (proj2 (Z.ltb_ge _ _)), (proj2 (Z.ltb_ge (off + n) off)) by lia. cbn [orb]. cbv zeta.
  set (m := if i_size ip <? off + n then i_size ip - off else n).
  assert (0 < m) as Hm by (unfold m; destruct (i_size ip <? off + n); lia).
  replace (Z.to_nat (m / BSIZE + 2)) with (S (Z.to_nat (m / BSIZE + 1)))
    by (pose proof (Z.div_pos m BSIZE ltac:(lia) ltac:(done)); lia).
  cbn [readi_loop]. rewrite (proj2 (Z.ltb_lt 0 m)) by done. rewrite bind_run. unfold bmap.
  rewrite (proj2 (Z.ltb_lt _ _)) by done. unfold bmap_slot. kstep (geti_run s i ip Hi).
  rewrite Ha, Hd. cbn [Z.eqb]. by rewrite bind_run, (balloc_outside s b Hr Hsb Hout Hb Hu).
Qed.

(** [fileread] at such a place. *)
Lemma fileread_gap s b f x i ip dst n :
  can_read me pid s -> icache_ok pid [] s -> sb s = fs_sb -> outside_op s -> fs_block s b -> used s b = false ->
  ftab s !! f = Some x -> f_type x = FD_INODE -> f_ip x = Some i -> f_readable x <> 0 ->
  itab s !! i = Some ip -> 0 < i_ref ip ->
  let d := dinode_on (view s) (sb s) (i_inum ip) in
  d_type d <> 0 -> 0 <= f_off x < d_size d -> d_size d < 2^31 -> 0 < n < 2^31 -> f_off x / BSIZE < NDIRECT ->
  addr_of (inode_of d) (Z.to_nat (f_off x / BSIZE)) = 0 ->
  fileread f dst n s = Panic "log_write outside of trans".
Proof.
  intros Hr Hic Hsb Hout Hb Hu Hf Hty Hfi Hrd Hi Hp d Hd Hoff Hsz Hn Hdir Ha.
  destruct (ilock_run me pid [] s i ip Hr Hic (not_elem_of_nil i) Hi Hp Hd) as (ip1 & s1 & E1 & S1 & T1 & LA & Hic1).
  fold d in LA. pose proof (same_but_itab_read me pid _ _ S1 Hr) as Hr1. pose proof (sv_frame _ _ _ S1) as F1.
  assert (Hi1 : itab s1 !! i = Some ip1) by (rewrite T1; apply list_lookup_insert_eq; by eapply lookup_lt_Some).
  assert (Esb : sb s1 = sb s) by by rewrite F1. assert (Elg : lg s1 = lg s) by by rewrite F1.
  assert (Edata : i_size ip1 = d_size d /\ i_addrs ip1 = d_addrs d) by (rewrite <- (la_data _ _ _ _ LA); done).
  destruct Edata as [Es Ea]. unfold fileread, getf. rewrite bind_run, Hf. cbn [obind].
  rewrite (proj2 (Z.eqb_neq _ _) Hrd), Hty, Hfi. kstep E1. unfold ip_of. rewrite Hfi, bind_run. cbn [obind mret K_ret].
  rewrite bind_run. assert (ftab s1 = ftab s) as -> by by rewrite F1. rewrite Hf. cbn [obind].
  rewrite (u32_small n) by (unfold is_u32; lia). rewrite bind_run.
  rewrite (readi_gap put_user s1 b i ip1 dst (f_off x) n Hr1); try done; rewrite ?Es; try done.
  - by rewrite Esb.
  - unfold outside_op. by rewrite Elg.
  - unfold fs_block in *. by rewrite Esb.
  - unfold used in *. by rewrite Esb, (same_but_itab_view _ _ _ _ S1).
  - apply (ic_dev _ _ _ Hic1 i ip1 Hi1). rewrite (la_ref _ _ _ _ LA). done.
  - unfold addr_of in *. by rewrite Ea.
Qed.
End Boot.

(** C4. The kernel reads what [mkfs] wrote.  For files that fit, with different names,
    and a root directory whose entries do not fill its blocks exactly, take a kernel
    that sees the image's blocks and has read its super block: [sys_open] of a slash and
    the name of file [j] gives the first free descriptor, and [fileread] from it
    delivers the first [n] bytes of the contents that the file had on the host to the
    memory of the process, and changes no other byte of memory. *)
Theorem mkfs_open_read fs j x :
  fits fs -> well_named fs -> ((length fs + 2) mod 64 <> 0)%nat -> fs !! j = Some x ->
  exists st, main (as_input <$> fs) start = M_ok tt st /\
  forall (L : Layout) (LO : LayoutOk L) (W : Waits) me pid s p f y fd o dst n V,
    (forall b, view s b = img st b) -> sb s = get_superblock (img st 1) ->
    may_open me pid s (47 :: target_name x.1) p ->
    free_file (ftab s) = Some (f, y) -> free_fd (p_ofile p) = Some (fd, o) -> 0 <= n < 2^31 -> user_room me s dst (Z.to_nat n) V ->
    let bs := take (Z.to_nat n) (concat x.2) in
    exists s1 s2, sys_open s = Ok (Z.of_nat fd) s1 /\ procs s1 = <[me := set_p_ofile (<[fd := Some f]> (p_ofile p)) p]> (procs s) /\
      fileread f dst n s1 = Ok (Z.of_nat (length bs)) s2 /\ uwritten V dst bs (mem s) (mem s2).
Proof.
  intros Hfits Hwn Hfull Hx. destruct (main_built fs Hfits) as (st & G & E & Hb & Hc). exists st. split; [done|].
  intros L LO W me pid s p f y fd o dst n V Hv Hsb Hmo Hf Hfd Hn Hroom. rewrite (proj1 (built_super _ _ Hb)) in Hsb.
  destruct (image_walk fs st G Hb Hc Hfits j x Hwn Hfull Hx) as [Hok Hw].
  destruct (image_file fs st G Hb Hc Hfits j x Hx) as (F1 & _ & F3 & F4).
  assert (Hd : dinode_on (view s) (sb s) (2 + Z.of_nat j) = dinode_on (img st) fs_sb (2 + Z.of_nat j)) by (rewrite Hsb; by apply dinode_on_ext).
  pose proof (open_read_run me pid s (47 :: target_name x.1) p (2 + Z.of_nat j) (target_name x.1) f y fd o dst n V Hmo eq_refl) as H.
  cbv zeta in H. rewrite Hd, Hsb in H. rewrite (walk_ext _ (img st)) in H by done. rewrite (file_bytes_ext _ (img st)), F4 in H by done.
  assert (Hv' : forall b, img st b = view s b) by (intros b; by rewrite Hv).
  exact (H (walk_ok_ext (img st) _ _ _ _ Hv' Hok) Hw F1 (file_ok_ext (img st) _ _ Hv' F3) Hf Hfd Hn Hroom).
Qed.

(** The root directory of an image whose entries fill their blocks. *)
Lemma root_gap_image fs st G :
  built st G -> contents G = (T_DIR, root_entries fs) :: (as_file <$> fs) -> fits fs -> ((length fs + 2) mod 64 = 0)%nat ->
  let d := dinode_on (img st) fs_sb ROOTINO in
  let k := ((length fs + 2) / 64)%nat in
  d_type d = T_DIR /\ d_size d = BSIZE * (Z.of_nat k + 1) /\ (k < 12)%nat /\ addr_of (inode_of d) k = 0.
Proof.
  intros Hb Hc Hfits Hfull d k. subst d.
  destruct (built_root _ _ _ Hb Hc) as (g & HG & Hg). destruct (bt_file _ _ Hb _ _ _ HG) as (Hs & Hh & Hin).
  rewrite decide_True in Hin by done. change (Z.of_nat 1) with 1 in *. change ROOTINO with 1.
  rewrite (image_dinode st 1) by lia. destruct (dinode_parts _ _ _ Hin) as (E1 & _ & _ & _ & E5).
  assert (Hlen : length (g_bytes g) = (1024 * k)%nat).
  { rewrite Hg, length_root_entries. pose proof (Nat.div_mod_eq (length fs + 2) 64). lia. }
  assert (Hk : (k < 12)%nat) by (destruct Hfits as (_ & Hn & _); unfold k; apply Nat.Div0.div_lt_upper_bound; lia).
  split; [exact E1|]. split; [|split; [exact Hk|]].
  - rewrite E5, Hlen. unfold rounded. rewrite (Nat.mul_comm 1024 k), Nat.div_mul by lia. change BSIZE with 1024. lia.
  - unfold addr_of. change (i_addrs (inode_of (dinode_at st 1))) with (d_addrs (dinode_at st 1)).
    rewrite (h_direct _ _ _ Hh k Hk). cbn [default from_option id].
    assert (length (g_blocks g) = k) as Hl by (rewrite Hs, Hlen; apply nblk_mul). by rewrite lookup_ge_None_2 by lia.
Qed.

(** C40. [mkfs] rounds the size of the root directory up to the next block even if the
    entries fill their blocks exactly, as they do with 62, 126 or 190 files: then the
    size covers one block that was never allocated, and the inode has no address for
    it.  A kernel on this image that reads the directory there, as [ls] does, while a
    block of the disk is free and no operation of the log is open, panics:
    [fileread] makes [balloc] allocate the block outside a transaction. *)
Theorem mkfs_root_gap fs :
  fits fs -> ((length fs + 2) mod 64 = 0)%nat ->
  exists st, main (as_input <$> fs) start = M_ok tt st /\
    let ip := inode_of (dinode_on (img st) fs_sb ROOTINO) in
    let k := Z.of_nat ((length fs + 2) / 64) in
    i_size ip = BSIZE * (k + 1) /\ block_of (img st) ip k = 0 /\
    forall (L : Layout) (LO : LayoutOk L) (W : Waits) me pid s b f x i e dst n,
      (forall b, view s b = img st b) -> sb s = get_superblock (img st 1) ->
      can_read me pid s -> icache_ok pid [] s -> outside_op s -> fs_block s b -> used s b = false ->
      ftab s !! f = Some x -> f_type x = FD_INODE -> f_ip x = Some i -> f_readable x <> 0 ->
      itab s !! i = Some e -> 0 < i_ref e -> i_inum e = ROOTINO ->
      BSIZE * k <= f_off x < BSIZE * (k + 1) -> 0 < n < 2^31 ->
      fileread f dst n s = Panic "log_write outside of trans".
Proof.
  intros Hfits Hfull. destruct (main_built fs Hfits) as (st & G & E & Hb & Hc). exists st. split; [done|].
  destruct (root_gap_image fs st G Hb Hc Hfits Hfull) as (H1 & H2 & H3 & H4). cbv zeta.
  set (d := dinode_on (img st) fs_sb ROOTINO) in *. set (k := ((length fs + 2) / 64)%nat) in *.
  split; [exact H2|]. split.
  { unfold block_of. change NDIRECT with 12. by rewrite (proj2 (Z.ltb_lt _ _)), Nat2Z.id by lia. }
  intros L LO W me pid s b f x i e dst n Hv Hsb Hr Hic Hout Hfb Hu Hf Hty Hfi Hrd Hi Hp He Hoff Hn.
  rewrite (proj1 (built_super _ _ Hb)) in Hsb.
  assert (Hd : dinode_on (view s) (sb s) (i_inum e) = d) by (rewrite Hsb, He; by apply dinode_on_ext).
  change BSIZE with 1024 in *.
  assert (Hq : f_off x / 1024 = Z.of_nat k) by (symmetry; apply (Z.div_unique _ _ _ (f_off x - 1024 * Z.of_nat k)); lia).
  pose proof (fileread_gap me pid s b f x i e dst n Hr Hic Hsb Hout Hfb Hu Hf Hty Hfi Hrd Hi Hp) as H.
  cbv zeta in H. rewrite Hd, H1, H2 in H. change BSIZE with 1024 in H. rewrite Hq, Nat2Z.id in H.
  apply H; [discriminate|lia|lia|exact Hn|change NDIRECT with 12; lia|exact H4].
Qed.

(** ** The two files of [MkfsImage.v] *)

#[local] Existing Instance small_layout.
#[local] Existing Instance small_layout_ok.
#[local] Existing Instance three_waits.

Lemma call_ok_cat : call_ok (str "/cat").
Proof. split; [cbn; lia|vm_compute; reflexivity..]. Qed.

#[local] Opaque call_page one_page.

Lemma two_files_named : well_named two_files.
Proof.
  split; [repeat (apply Forall_cons; split; [repeat (apply Forall_cons; split; [discriminate|]); apply Forall_nil_2|]); apply Forall_nil_2|].
  apply (bool_decide_eq_true_1 _). vm_compute. reflexivity.
Qed.

Lemma call_machine_room D path : (length path < 8)%nat -> user_room 0 (call_machine D path) 300 10 (pte_at 2 (mem one_page) user_pt).
Proof.
  intros Hl. destruct (call_page_mapped path Hl) as (m' & E & Ho & HV & Hw). exists (mounted_proc call_proc).
  change (p_pagetable (mounted_proc call_proc)) with user_pt. split; [done|]. unfold own in *.
  change (mem (call_machine D path)) with (mem (call_page path)). change (refcnt (call_machine D path)) with (refcnt (call_page path)).
  rewrite E. split; [exact Ho|]. split; [exact HV|]. by apply Hw.
Qed.

Lemma mkfs_open_read_witness :
  exists st s1 s2, main (as_input <$> two_files) start = M_ok tt st /\
    sys_open (call_machine (img st) (str "/cat")) = Ok 0 s1 /\ fileread 0 300 10 s1 = Ok 10 s2 /\
    uwritten (pte_at 2 (mem one_page) user_pt) 300 (replicate 10 7) (mem (call_page (str "/cat"))) (mem s2).
Proof.
  destruct (mkfs_open_read two_files 0 (str "user/_cat", [replicate 1000 7; replicate 500 8]) two_files_fit two_files_named
    ltac:(discriminate) eq_refl) as (st & E & H).
  assert (Hsb : get_superblock (img st 1) = fs_sb).
  { assert (st = match main (as_input <$> two_files) start with M_ok _ st => st | _ => start end) as -> by by rewrite E.
    vm_compute. reflexivity. }
  destruct (H small_layout small_layout_ok three_waits 0%nat 1 (call_machine (img st) (str "/cat")) (mounted_proc call_proc)
    0%nat zero_file 0%nat None 300 10 (pte_at 2 (mem one_page) user_pt) (call_machine_view (img st) (str "/cat")) (eq_sym Hsb)
    (call_may_open (img st) (str "/cat") call_ok_cat) eq_refl eq_refl ltac:(lia) (call_machine_room _ (str "/cat") ltac:(cbn; lia)))
    as (s1 & s2 & H1 & _ & H2 & H3).
  exists st, s1, s2. split; [exact E|]. split; [exact H1|]. split; [exact H2|exact H3].
Defined.

(** ** A full root directory: 62 empty files *)

Definition many_files (n : nat) : list (list Z * list (list Z)) := (fun k => ([97; 48 + Z.of_nat k], [[]])) <$> seq 0 n.

Lemma many_files_fit : fits (many_files 62).
Proof.
  split; [|split; [apply Nat.ltb_lt; reflexivity|vm_compute; discriminate]]. apply Forall_fmap, Forall_forall. intros k Hk%elem_of_seq. cbn [fst snd compose].
  split_and!.
  - change (47 ∉ [97; 48 + Z.of_nat k]). rewrite !not_elem_of_cons. split_and!; [discriminate|lia|apply not_elem_of_nil].
  - change (2 <= 14)%nat. lia.
  - apply Nat.le_0_l.
Qed.

(** File 0 is open on the root directory at offset [off]. *)
Definition root_open (D : Z -> list Z) (off : Z) : kernel :=
  set_ftab (<[0%nat := mkFile FD_INODE 1 1 0 0 (Some 0%nat) off 0]> (ftab boot))
    (set_itab (<[0%nat := set_i_ref 1 (set_i_inum ROOTINO (set_i_dev ROOTDEV zero_inode))]> (itab boot)) (mounted D zero_proc boot)).

Lemma root_open_inode D off i ip :
  itab (root_open D off) !! i = Some ip -> (i = 0%nat /\ ip = set_i_ref 1 (set_i_inum ROOTINO (set_i_dev ROOTDEV zero_inode))) \/ ip = zero_inode.
Proof.
  intros [(<- & <- & _)|[_ Hi]]%list_lookup_insert_Some; [by left|]. right. by apply lookup_replicate in Hi as [-> _].
Qed.

Lemma root_open_ok D off :
  can_read 0 1 (root_open D off) /\ icache_ok 1 [] (root_open D off) /\ forall bn, view (root_open D off) bn = D bn.
Proof.
  split; [|split].
  - apply (others_read 0 1 (mounted D zero_proc boot)); [apply others_set|apply mounted_read].
  - split.
    + split; [done|..].
      * apply Forall_insert; [by apply Forall_replicate|done].
      * intros i j x y [[-> ->]| ->]%root_open_inode [[-> ->]| ->]%root_open_inode (H & _); done.
    + by intros i ip [[-> ->]| ->]%root_open_inode.
    + intros i ip [[-> ->]| ->]%root_open_inode; by rewrite decide_False by apply not_elem_of_nil.
    + by intros i ip [[-> ->]| ->]%root_open_inode.
    + by intros i ip _ ?%not_elem_of_nil.
  - intros bn. unfold root_open. rewrite view_set. apply mounted_view.
Qed.

Lemma mkfs_root_gap_witness :
  exists st, main (as_input <$> many_files 62) start = M_ok tt st /\
    block_of (img st) (inode_of (dinode_on (img st) fs_sb ROOTINO)) 1 = 0 /\
    fileread 0 0 16 (root_open (img st) 1024) = Panic "log_write outside of trans".
Proof.
  destruct (mkfs_root_gap (many_files 62) many_files_fit eq_refl) as (st & E & _ & H & Hp). exists st. split; [exact E|]. split; [exact H|].
  assert (Hst : st = match main (as_input <$> many_files 62) start with M_ok _ st => st | _ => start end) by (rewrite E; reflexivity).
  assert (Hsb : get_superblock (img st 1) = fs_sb) by (rewrite Hst; vm_compute; reflexivity).
  assert (Hfree : bit_free (img st (BBLOCK 1999 fs_sb)) (1999 mod BPB) = true) by (rewrite Hst; vm_compute; reflexivity).
  clear Hst E H. destruct (root_open_ok (img st) 1024) as (Hr & Hic & Hv).
  apply (Hp small_layout small_layout_ok three_waits 0%nat 1 (root_open (img st) 1024) 1999 0%nat
    (mkFile FD_INODE 1 1 0 0 (Some 0%nat) 1024 0) 0%nat (set_i_ref 1 (set_i_inum ROOTINO (set_i_dev ROOTDEV zero_inode)))
    0 16 Hv (eq_sym Hsb) Hr Hic); try reflexivity; try discriminate.
  - split; reflexivity.
  - split; [discriminate|reflexivity].
  - unfold used. rewrite Hv. change (sb (root_open (img st) 1024)) with fs_sb. rewrite Hfree. reflexivity.
  - split; [discriminate|reflexivity].
  - split; reflexivity.
Defined.
